(* ===== verification/_CoqProject ===== *)
-Q . S2P
Prelude.v
Graph.v
GroupDb.v
GroupLineage.v
GroupService.v
AppAccess.v
GroupProofs.v
AccessProofs.v
IdpProofs.v
IdpSync.v
GroupFindings.v
GroupWitness.v
Sha256.v
OAuthDb.v
OAuthService.v
UserLifecycle.v
OAuthTokens.v
OAuthHistory.v
OAuthProofs.v
OAuthRevocation.v
DeviceProofs.v
UserProofs.v
OAuthFindings.v
OAuthWitness.v
ScimDb.v
ScimClient.v
ScimWorker.v
ScimDispatch.v
ScimProofs.v
ScimSync.v
ScimEnqueue.v
ScimFindings.v
MailDb.v
MailService.v
Tokens.v
TokenProofs.v
PasswordStrength.v
Credentials.v
SecuritySettings.v
Jobs.v
MailProofs.v
MailHistory.v
CredentialProofs.v
JobProofs.v
MailFindings.v
MailWitness.v
MfaDb.v
SignIn.v
MfaProofs.v
SignInProofs.v
MfaFindings.v
Json.v
AttrDb.v
Attributes.v
ScimBody.v
ScimUsers.v
ScimGroups.v
ScimTokens.v
AttrProofs.v
AttrHistory.v
ProfileGate.v
InboundProofs.v
InboundGroups.v
InboundFindings.v
InboundWitness.v
JsonText.v
Url.v
PortalDb.v
PortalAdmin.v
ForwardAuth.v
ForwardTokens.v
PortalProofs.v
ForwardHistory.v
ForwardSafety.v
ForwardFlow.v
ForwardFindings.v
ForwardWitness.v
JobQueue.v
JobHistory.v
JobRun.v
