(* ===== verification/Prelude.v ===== *)
(** * A verification library for WeftID

    WeftID (src/app) is a multi-tenant identity platform: users and groups,
    sign-in through upstream providers, applications reached through SAML,
    OAuth2/OIDC and forward authentication, and provisioning through SCIM.
    Routers validate a request and call a service; a service checks the role
    of the requesting user, calls the functions of app/database, each of which
    is one statement or one transaction, and logs an audit event.  The library
    models services and statements together, as functions of one tenant's
    tables.  Row-level security, which keeps tenants apart, is therefore
    outside of it: every state is one tenant's, except the state of forward
    authentication, whose tables are read before the tenant is known.

    ** The parts

    Prelude.  Outcomes (a value, or the exception that was raised), the
    effect monad [M S], [transaction] (the session block that rolls back), the
    rules [keeps] for invariants and [run] for symbolic execution, the role
    guards of services/auth.py.  A raised exception keeps the state reached so
    far, since every statement outside a transaction commits by itself.

    Graph, GroupDb, GroupLineage, GroupService, AppAccess, GroupProofs,
    AccessProofs, IdpProofs, IdpSync.  The group hierarchy of database/groups
    and services/groups: [db] holds the groups, the edges
    (group_relationships), the closure table (group_lineage, a map from pairs
    to depths), memberships, providers, assignments and the audit log.  The
    recursive query that rebuilds the closure after an edge is removed is
    [cte_iter] with the number of groups as fuel: its theorem shows that on an
    acyclic hierarchy this reaches the fixed point.  The theorems show that
    the closure table is at all times exactly reachability by shortest paths,
    which edges may be added, what removals leave, that the access resolver
    decides reachability in the hierarchy, and that a sign-in's group sync
    leaves exactly the groups the provider named.

    Sha256, OAuthDb, OAuthService, UserLifecycle, OAuthTokens, OAuthHistory,
    OAuthProofs, OAuthRevocation, DeviceProofs, UserProofs.  The
    authorization server of routers/oauth2.py, services/oauth2*.py,
    services/oidc and database/oauth2, and the user life cycle of
    services/users: [tenant] adds codes, tokens, device requests, consents,
    session clients, clients and accounts to [db].  The clock is a number of
    microseconds in the state; nothing in the library reads another clock.
    [delete_tokens] runs the foreign-key cascade for as many rounds as the
    table has rows, which reaches every descendant.  The theorems cover the
    four grants, single use of codes, rotation, revocation by every path, the
    progress of device requests, and who may change or remove which account.

    ScimDb, ScimClient, ScimWorker, ScimDispatch, ScimProofs, ScimSync,
    ScimEnqueue.  Outbound provisioning, services/scim: [scim W] adds the push
    queue, the attempt log, the remote ids, the credentials and the state [W]
    of the receivers to [db].  The member walk has a page more than rows as
    fuel, a bulk upsert at most as many chunks as users, a redaction the
    length of the text.  The theorems show that membership changes are
    enqueued, that a drain finishes and settles what it listed, that retries
    are bounded, and that a counted success means the receiver is in sync.

    MailDb, MailService, Tokens, PasswordStrength, Credentials,
    SecuritySettings, Jobs, and the proofs TokenProofs, MailProofs,
    MailHistory, CredentialProofs, JobProofs.  Addresses, passwords and
    tenant settings: [mail] adds addresses, credentials, privileged domains
    and the settings row to [tenant] (services/emails.py,
    services/settings, services/users/password.py, utils/tokens.py,
    utils/password_strength.py, utils/redirects.py, routers/auth onboarding
    and password_reset, and the account jobs of app/jobs).  SHA-1, HMAC,
    base64 and [int] are executable.  The theorems show that addresses stay
    unique with one primary each, that verification and set-password links
    work once, exactly when a password changes and what a change or a
    tightened policy takes away, what the breach monitor finds, and what the
    jobs leave.  A loop of a job is over a list, so it finishes.

    MfaDb, SignIn, MfaProofs, SignInProofs.  Second factors and signing
    in: [factors] adds authenticators, backup codes, passkey owners and
    profiles to [mail] (database/mfa.py, utils/mfa.py, services/mfa.py), and
    [web] a browser's session (utils/session.py, utils/auth.py, the password,
    second-factor and enrolment routes of routers/auth and routers/mfa.py).
    [world] holds every cookie that was ever set, so that any may be replayed,
    and lets the tables change in any way between requests.  The theorems show
    what a signed-in cookie must have been earned by, when a session is
    honoured, that authenticator users have a verified secret, and that backup
    codes work once.

    Json, AttrDb, Attributes, AttrProofs, AttrHistory, ProfileGate.  User
    attributes: [directory] adds to [factors] the dates of rows, the flag that
    forces a profile to be completed, the canonical attributes, the snapshot
    each provider last sent, and the tenant's configuration
    (constants/user_attributes.py, database/user_attributes.py,
    user_idp_attributes.py and tenant_attribute_config.py,
    services/users/attributes.py, services/settings/attributes.py, the
    attributes of an assertion in services/service_providers/sso.py).  The
    theorems show that stored values are canonical, what exactly a provider's
    set of attributes changes, whose values may enter an assertion, and when
    the completion gate opens.

    ScimBody, ScimUsers, ScimGroups, ScimTokens, InboundProofs, InboundGroups.
    Inbound provisioning: payloads and PATCH operations on JSON values
    (services/scim/inbound_write.py), users and groups with their endpoints
    (inbound_read.py, inbound_group_write.py, routers/scim/inbound), tokens
    and the authentication of a request (inbound_credentials.py,
    api_dependencies.py); [inbound] adds the tokens to [directory], [serve] is
    a request as the application answers it.  The theorems show what no
    request can change, what one provider can reach, and that PATCH of a group
    refines operations on a set.

    JsonText, Url, PortalDb, PortalAdmin, ForwardAuth,
    ForwardTokens, PortalProofs, ForwardHistory, ForwardSafety, ForwardFlow.
    Forward authentication: JSON as text (json.dumps and json.loads, whose
    parser has the length of the text as fuel), urllib.parse, and [portal],
    which holds the directory of every tenant, the protected domains, the
    proxy apps and the nonces of all (database/protected_domains.py,
    proxy_apps.py, forward_auth_nonces.py, services of the same names,
    utils/forward_auth.py, services/forward_auth.py,
    routers/forward_auth/runtime.py, middleware/tenant_guard.py).  [world] is
    a history of management calls and requests, each at its time, in which a
    browser presents tokens and cookies it was given, or something unsigned.
    The theorems show that the tables stay well formed and how a domain came
    to be verified, that tokens and cookies are read back, that a token is
    redeemed once, what an admitted request was earned by, and that a user
    who follows the redirects arrives.

    JobQueue, JobHistory, JobRun.  The job queue: [queue] holds the rows of
    bg_tasks and the tables of every tenant (database/bg_tasks.py,
    services/bg_tasks.py, jobs/registry.py, worker.py).  A handler is any
    function of the task and the state, [main_registry] what the worker
    registers: the bulk jobs of Jobs and MailService from the payload to the
    report.  [fleet] is the queue with what each of any number of workers has
    in hand; its histories interleave requests, claims, ends and deaths of
    workers.  A run of one worker is a list of turns, one for each set of rows
    others have locked, so it finishes.  The theorems show that no job is
    started twice, that rows are at all times as their status says, that a
    worker which keeps polling settles what waits, that a requested bulk
    inactivation ends as the handler run on the spot, that a preview of
    reactivations is exact, and that a job whose worker died stays running.

    GroupFindings, OAuthFindings, ScimFindings, MailFindings, MfaFindings,
    InboundFindings, ForwardFindings and the end of JobRun hold runs that end
    where the documentation says they cannot.  GroupWitness, OAuthWitness,
    MailWitness, InboundWitness and ForwardWitness, and the ends of
    ScimFindings, MfaFindings and JobRun, apply the theorems that have
    hypotheses to small tenants.

    ** Parameters

    What is not the program's own code is a parameter: [UuidGen], [ScimIds]
    and [Entropy] (the generators of ids, secrets and user codes; laws:
    freshness), [Crypto] (Argon2; law: a hash verifies exactly its text),
    [Collation] (the order of the database's texts), [Receiver] with
    [ReceiverLaws] (what a SCIM receiver answers, RFC 7644), [UuidText],
    [decrypt_token], [MailIds] and [Nonces] (law: nonces differ), [Argon2Hash],
    [Argon2Verify], [Zxcvbn], [Hibp] (the breach service), [DatetimeText],
    [Pyotp] (TOTP), [Fernet], [TokenHex], [TokenUrlsafe], [FactorIds] (law:
    freshness), [DirectoryIds], [InboundEntropy], [UuidParse] (which texts the
    database reads as an id), [Floats] (how a JSON number with a fraction is
    written, and how many microseconds it is), [UrlChecks] (bracketed hosts and
    NFKC), [PortalIds], [PortalHex] (token_hex: the draws differ), [HeaderText]
    (which texts the framework sends as a header), [GroupAges],
    [TaskIds] (law: the draws differ) and [ExnText] (the text of an exception).  The Findings and Witness files give each a concrete instance.

    ** Not modelled

    Routers and pages beyond the token endpoint (request parsing, templates),
    SAML assertions and metadata (XML, signatures), the upstream OIDC
    protocol, certificates and key rotation, e-mail delivery, branding
    images, object storage, exports (the jobs that write them are arguments of
    the worker), the preview of bulk address changes, the development tools
    and the tenant bootstrap.  Not reached: client authentication and dynamic
    registration, rate limits, passkeys. *)


From stdpp Require Export prelude gmap strings sorting.

(** ** Outcomes

    A call either returns a value or raises.  Raised values are the service
    exceptions of app/services/exceptions.py (their class and their
    machine-readable code; the human-readable message is not modelled), the
    constraint violations the database reports, a statement that never
    finishes, the Python errors the code lets escape, and the error of the
    inbound SCIM services (a status and a type). *)

Inductive error_kind :=
  | NotFoundError | ForbiddenError | ValidationError
  | UnauthorizedError | ConflictError | RateLimitError.

Inductive exn :=
  | ServiceError (kind : error_kind) (code : string)
  | IntegrityError (constraint : string)
  | StatementDiverges
  | PythonError (what : string)
  | ScimWriteError (status_code : Z) (scim_type : option string).

Inductive outcome (A : Type) :=
  | Ok (a : A)
  | Raise (e : exn).
Arguments Ok {_} a.
Arguments Raise {_} e.

#[export] Instance error_kind_eq_dec : EqDecision error_kind.
Proof. solve_decision. Defined.
#[export] Instance exn_eq_dec : EqDecision exn.
Proof. solve_decision. Defined.
#[export] Instance outcome_eq_dec `{EqDecision A} : EqDecision (outcome A).
Proof. solve_decision. Defined.

Definition is_ok {A} (r : outcome A) : bool :=
  match r with Ok _ => true | Raise _ => false end.

#[export] Instance outcome_ret : MRet outcome := λ A a, Ok a.
#[export] Instance outcome_bind : MBind outcome := λ A B f r,
  match r with Ok a => f a | Raise e => Raise e end.

(** ** The effect monad

    A call threads a state [S].  A raised exception keeps the state reached
    so far, because every statement outside a [session] block is committed
    on its own; [transaction] is the block that rolls back. *)

Definition M (S A : Type) : Type := S → outcome A * S.

#[export] Instance M_ret {S} : MRet (M S) := λ A a s, (Ok a, s).
#[export] Instance M_bind {S} : MBind (M S) := λ A B f m s,
  match m s with
  | (Ok a, s') => f a s'
  | (Raise e, s') => (Raise e, s')
  end.

Section effects.
Context {S : Type}.

Definition raise {A} (e : exn) : M S A := λ s, (Raise e, s).
Definition gets {A} (f : S → A) : M S A := λ s, (Ok (f s), s).
Definition modify (f : S → S) : M S () := λ s, (Ok (), f s).
Definition update {A} (f : S → A * S) : M S A := λ s, let '(a, s') := f s in (Ok a, s').
Definition lift {A} (r : outcome A) : M S A := λ s, (r, s).
Definition when (b : bool) (m : M S ()) : M S () := if b then m else mret ().
(** [if b: raise e] *)
Definition raise_if (b : bool) (e : exn) : M S () := if b then raise e else mret ().
(** [if x is None: raise e] *)
Definition some_or {A} (x : option A) (e : exn) : M S A :=
  match x with Some a => mret a | None => raise e end.
Definition transaction {A} (m : M S A) : M S A := λ s,
  match m s with
  | (Ok a, s') => (Ok a, s')
  | (Raise e, _) => (Raise e, s)
  end.

(** [try: m except ..: h]. *)
Definition try_except {A} (caught : exn → bool) (m h : M S A) : M S A := λ s,
  match m s with
  | (Raise e, s') => if caught e then h s' else (Raise e, s')
  | r => r
  end.

(** [for x in l: m x] *)
Fixpoint for_each {A} (m : A → M S ()) (l : list A) : M S () :=
  match l with
  | [] => mret ()
  | x :: l => _ ← m x; for_each m l
  end.

(** A loop that also adds up what each iteration returns. *)
Fixpoint for_sum {A} (m : A → M S nat) (l : list A) : M S nat :=
  match l with
  | [] => mret 0
  | x :: l => n ← m x; k ← for_sum m l; mret (n + k)
  end.

(** A loop that collects what each iteration returns. *)
Fixpoint for_map {A B} (m : A → M S B) (l : list A) : M S (list B) :=
  match l with
  | [] => mret []
  | x :: l => y ← m x; ys ← for_map m l; mret (y :: ys)
  end.
End effects.

(** ** Reasoning about calls

    [post m Q s]: the outcome and the final state of [m] run in [s] satisfy
    [Q].  [keeps I m]: every run of [m] that starts in the invariant ends in
    it, whether it returns or raises. *)

Definition post {S A} (m : M S A) (Q : outcome A → S → Prop) (s : S) : Prop :=
  Q (m s).1 (m s).2.

Definition keeps {S A} (I : S → Prop) (m : M S A) : Prop :=
  ∀ s, I s → I (m s).2.

Create HintDb keeps.

Section keeps_rules.
Context {S : Type} (I : S → Prop).

Lemma keeps_ret {A} (a : A) : keeps I (mret a : M S A).
Proof. by intros s. Qed.
Lemma keeps_raise {A} e : keeps I (raise e : M S A).
Proof. by intros s. Qed.
Lemma keeps_gets {A} (f : S → A) : keeps I (gets f).
Proof. by intros s. Qed.
Lemma keeps_lift {A} (r : outcome A) : keeps I (lift r).
Proof. by intros s. Qed.
Lemma keeps_modify (f : S → S) : (∀ s, I s → I (f s)) → keeps I (modify f).
Proof. intros Hf s Hs. by apply Hf. Qed.
Lemma keeps_bind {A B} (m : M S A) (f : A → M S B) :
  keeps I m → (∀ a, keeps I (f a)) → keeps I (m ≫= f).
Proof.
  intros Hm Hf s Hs. unfold mbind, M_bind. specialize (Hm s Hs).
  destruct (m s) as [[a|e] s']; simpl in *; [by apply Hf|done].
Qed.
Lemma keeps_bind_gets {A B} (g : S → A) (f : A → M S B) :
  (∀ s, I s → I (f (g s) s).2) → keeps I (gets g ≫= f).
Proof. intros Hf s Hs. by apply Hf. Qed.
Lemma keeps_raise_if b e : keeps I (raise_if b e : M S ()).
Proof. destruct b; [apply keeps_raise|apply keeps_ret]. Qed.
Lemma keeps_some_or {A} (x : option A) e : keeps I (some_or x e).
Proof. destruct x; [apply keeps_ret|apply keeps_raise]. Qed.
Lemma keeps_when b m : keeps I m → keeps I (when b m).
Proof. destruct b; [done|intros _; apply keeps_ret]. Qed.
Lemma keeps_transaction {A} (m : M S A) : keeps I m → keeps I (transaction m).
Proof.
  intros Hm s Hs. unfold transaction. specialize (Hm s Hs).
  by destruct (m s) as [[a|e] s'].
Qed.
Lemma keeps_try_except {A} caught (m h : M S A) :
  keeps I m → keeps I h → keeps I (try_except caught m h).
Proof.
  intros Hm Hh s Hs. unfold try_except. specialize (Hm s Hs).
  destruct (m s) as [[a|e] s']; [done|]. simpl in *. destruct (caught e); [by apply Hh|done].
Qed.
Lemma keeps_for_each {A} (m : A → M S ()) l :
  (∀ x, keeps I (m x)) → keeps I (for_each m l).
Proof.
  intros Hm. induction l as [|x l IH]; [apply keeps_ret|].
  by apply keeps_bind; [apply Hm|intros []].
Qed.
Lemma keeps_for_sum {A} (m : A → M S nat) l :
  (∀ x, keeps I (m x)) → keeps I (for_sum m l).
Proof.
  intros Hm. induction l as [|x l IH]; [apply keeps_ret|].
  apply keeps_bind; [apply Hm|intros n]. apply keeps_bind; [done|intros k].
  apply keeps_ret.
Qed.
Lemma keeps_for_map {A B} (m : A → M S B) l :
  (∀ x, keeps I (m x)) → keeps I (for_map m l).
Proof.
  intros Hm. induction l as [|x l IH]; [apply keeps_ret|].
  apply keeps_bind; [apply Hm|intros n]. apply keeps_bind; [done|intros k].
  apply keeps_ret.
Qed.
End keeps_rules.

#[export] Hint Resolve keeps_ret keeps_raise keeps_gets keeps_lift
  keeps_raise_if keeps_some_or keeps_when keeps_transaction keeps_try_except
  keeps_for_each keeps_for_sum keeps_for_map : keeps.

(** Walk through a call that is a sequence of calls which keep the invariant. *)
Ltac keeps_step :=
  first
    [ progress intros
    | match goal with |- keeps _ (mbind _ _) => apply keeps_bind end
    | case_match
    | solve [eauto with keeps]
    | match goal with
      | |- keeps _ (transaction _) => apply keeps_transaction
      | |- keeps _ (try_except _ _ _) => apply keeps_try_except
      | |- keeps _ (when _ _) => apply keeps_when
      | |- keeps _ (for_each _ _) => apply keeps_for_each
      | |- keeps _ (for_sum _ _) => apply keeps_for_sum
      | |- keeps _ (for_map _ _) => apply keeps_for_map
      end ].
Ltac keeps_auto := repeat keeps_step.

(** Running a call step by step: the equations of a sequence whose first call
    is a primitive, for [autorewrite with run] (the tactic [run]). *)
Section run_rules.
Context {S : Type}.
Lemma run_ret_bind {A B} (a : A) (f : A → M S B) s : (mret a ≫= f) s = f a s.
Proof. done. Qed.
Lemma run_raise_bind {A B} e (f : A → M S B) s : (raise e ≫= f) s = (Raise e, s).
Proof. done. Qed.
Lemma run_gets_bind {A B} (g : S → A) (f : A → M S B) s : (gets g ≫= f) s = f (g s) s.
Proof. done. Qed.
Lemma run_modify_bind {B} (g : S → S) (f : () → M S B) s :
  (modify g ≫= f) s = f () (g s).
Proof. done. Qed.
Lemma run_update_bind {A B} (g : S → A * S) (f : A → M S B) s :
  (update g ≫= f) s = f (g s).1 (g s).2.
Proof. unfold mbind, M_bind, update. by destruct (g s). Qed.
Lemma run_raise_if_bind {B} b e (f : () → M S B) s :
  (raise_if b e ≫= f) s = if b then (Raise e, s) else f () s.
Proof. by destruct b. Qed.
Lemma run_some_or_bind {A B} (x : option A) e (f : A → M S B) s :
  (some_or x e ≫= f) s = match x with Some a => f a s | None => (Raise e, s) end.
Proof. by destruct x. Qed.
Lemma run_lift_bind {A B} (r : outcome A) (f : A → M S B) s :
  (lift r ≫= f) s = match r with Ok a => f a s | Raise e => (Raise e, s) end.
Proof. done. Qed.
Lemma run_bind_assoc {A B C} (m : M S A) (f : A → M S B) (g : B → M S C) s :
  ((m ≫= f) ≫= g) s = (m ≫= (λ a, f a ≫= g)) s.
Proof. unfold mbind, M_bind. by destruct (m s) as [[]]. Qed.
Lemma run_bind {A B} (m : M S A) (f : A → M S B) s :
  (m ≫= f) s = match m s with (Ok a, s') => f a s' | (Raise e, s') => (Raise e, s') end.
Proof. done. Qed.
Lemma bind_Ok {A B} (m : M S A) (f : A → M S B) s b s' :
  (m ≫= f) s = (Ok b, s') ↔ ∃ a s1, m s = (Ok a, s1) ∧ f a s1 = (Ok b, s').
Proof. rewrite run_bind. destruct (m s) as [[a|e] s1]; naive_solver. Qed.
Lemma run_ret {A} (a : A) (s : S) : (mret a : M S A) s = (Ok a, s).
Proof. done. Qed.
Lemma run_raise {A} e (s : S) : (raise e : M S A) s = (Raise e, s).
Proof. done. Qed.
Lemma run_gets {A} (g : S → A) s : gets g s = (Ok (g s), s).
Proof. done. Qed.
Lemma run_modify (g : S → S) s : modify g s = (Ok (), g s).
Proof. done. Qed.
Lemma run_update {A} (g : S → A * S) s : update g s = (Ok (g s).1, (g s).2).
Proof. unfold update. by destruct (g s). Qed.
Lemma run_raise_if b e (s : S) :
  raise_if b e s = if b then (Raise e, s) else (Ok (), s).
Proof. by destruct b. Qed.
Lemma transaction_Raise {A} (m : M S A) s e s' :
  transaction m s = (Raise e, s') → s' = s.
Proof. unfold transaction. destruct (m s) as [[?|?] ?]; [done|]. by intros [= _ <-]. Qed.
Lemma run_some_or {A} (x : option A) e (s : S) :
  some_or x e s = match x with Some a => (Ok a, s) | None => (Raise e, s) end.
Proof. by destruct x. Qed.
End run_rules.

Create Rewrite HintDb run.
#[export] Hint Rewrite @run_ret_bind @run_raise_bind @run_gets_bind @run_modify_bind
  @run_update_bind @run_lift_bind @run_raise_if_bind @run_some_or_bind @run_bind_assoc
  @run_ret @run_raise @run_gets @run_modify @run_update @run_raise_if @run_some_or : run.

(** [run]: run the primitives of the goal; [run in *]: of everything. *)
Tactic Notation "run" := repeat (progress (autorewrite with run; simpl)).
Tactic Notation "run" "in" hyp(H) := repeat (progress (autorewrite with run in H; simpl in H)).

(** Split on the next test of the goal. *)
Ltac run_case :=
  match goal with
  | |- context [match ?x with _ => _ end] =>
      match x with context [match _ with _ => _ end] => fail 1 | _ => idtac end;
      let E := fresh "E" in destruct x eqn:E
  end.

(** ** Identifiers and audit events *)

(** UUIDs are opaque to the code: it compares them and stores them. *)
Abbreviation uuid := positive.

(** [str(id)], and the text forms the database reads as an id. *)
Class UuidText := uuid_text : uuid → string.
Class UuidParse := uuid_of_text : string → option uuid.

(** The metadata values the modelled calls log. *)
Inductive meta :=
  | MNull
  | MStr (s : string)
  | MId (i : uuid)
  | MNat (n : nat)
  | MBool (b : bool)
  | MIds (l : list uuid)
  | MStrs (l : list string)
  | MChanges (l : list (string * option string * option string)).   (* field, old, new *)

#[export] Instance meta_eq_dec : EqDecision meta.
Proof. solve_decision. Defined.

(** The role strings of a user row, app/services/types.py. *)
Inductive role := member | admin | super_admin.
#[export] Instance role_eq_dec : EqDecision role.
Proof. solve_decision. Defined.

(** [RequestingUser], restricted to one tenant: the tenant id is the same for
    every call of a run, so the tables below are one tenant's rows. *)
Record requesting_user := { ru_id : uuid; ru_role : role }.

(** ** Authorization guards, app/services/auth.py *)
Section auth.
Context {S : Type}.

Definition require_admin (u : requesting_user) : M S () :=
  raise_if (bool_decide (ru_role u ≠ admin ∧ ru_role u ≠ super_admin))
    (ServiceError ForbiddenError "admin_required").

Definition require_super_admin (u : requesting_user) : M S () :=
  raise_if (bool_decide (ru_role u ≠ super_admin))
    (ServiceError ForbiddenError "super_admin_required").

Definition is_admin (u : requesting_user) : Prop :=
  ru_role u = admin ∨ ru_role u = super_admin.

Lemma run_require_admin_bind {B} u (f : () → M S B) s :
  is_admin u → (require_admin u ≫= f) s = f () s.
Proof.
  intros Hu. unfold require_admin. autorewrite with run.
  rewrite bool_decide_eq_false_2; [done|]. destruct Hu as [->| ->]; naive_solver.
Qed.
Lemma run_not_admin_bind {B} u (f : () → M S B) s :
  ¬ is_admin u →
  (require_admin u ≫= f) s = (Raise (ServiceError ForbiddenError "admin_required"), s).
Proof.
  intros Hu. unfold require_admin. autorewrite with run.
  rewrite bool_decide_eq_true_2; [done|]. unfold is_admin in Hu. naive_solver.
Qed.

Lemma keeps_require_admin I u : keeps I (require_admin u).
Proof. apply keeps_raise_if. Qed.
Lemma keeps_require_super_admin I u : keeps I (require_super_admin u).
Proof. apply keeps_raise_if. Qed.
End auth.
#[export] Hint Resolve keeps_require_admin keeps_require_super_admin : keeps.

(** The database's collation: what [order by name] compares with. *)
Class Collation := collate_le : string → string → bool.

Definition by_name {A} `{Collation} (name : A → string) (x y : A) : Prop :=
  collate_le (name x) (name y) = true.
#[export] Instance by_name_dec {A} `{Collation} (name : A → string) :
  RelDecision (by_name name).
Proof. intros x y. unfold by_name. apply _. Defined.
Definition order_by_name {A} `{Collation} (name : A → string) (l : list A) : list A :=
  merge_sort (by_name name) l.

Lemma elem_of_order_by_name {A} `{Collation} (name : A → string) l x :
  x ∈ order_by_name name l ↔ x ∈ l.
Proof. unfold order_by_name. by rewrite (merge_sort_Permutation (by_name name) l). Qed.

(** ** Strings *)

(** [str.isspace] on the ASCII range, which is what [str.strip] removes. *)
Definition is_space (c : Ascii.ascii) : bool :=
  let n := Ascii.nat_of_ascii c in
  (((9 <=? n) && (n <=? 13)) || ((28 <=? n) && (n <=? 32)))%nat.
Fixpoint drop_spaces (l : list Ascii.ascii) : list Ascii.ascii :=
  match l with
  | c :: l' => if is_space c then drop_spaces l' else l
  | [] => []
  end.
Definition py_strip (s : string) : string :=
  String.string_of_list_ascii
    (rev (drop_spaces (rev (drop_spaces (String.list_ascii_of_string s))))).

Example py_strip_ex : py_strip "  a b	 " = "a b".
Proof. reflexivity. Qed.

(** [str.lower] on the ASCII range. *)
Definition lower (c : Ascii.ascii) : Ascii.ascii :=
  let n := Ascii.nat_of_ascii c in
  if ((65 <=? n) && (n <=? 90))%nat then Ascii.ascii_of_nat (n + 32) else c.

(** [str.upper] on the ASCII range. *)
Definition upper (c : Ascii.ascii) : Ascii.ascii :=
  let n := Ascii.nat_of_ascii c in
  if (97 <=? n)%nat && (n <=? 122)%nat then Ascii.ascii_of_nat (n - 32) else c.

Definition chars (s : string) : list Ascii.ascii := String.list_ascii_of_string s.

Definition lower_string (s : string) : string :=
  String.string_of_list_ascii (lower <$> chars s).
(** A text is its UTF-8 bytes.  [len(s)] and the database's [length(s)] count
    code points: the bytes that do not continue one. *)
Definition is_cont (b : Z) : bool := ((128 <=? b) && (b <=? 191))%Z.
Definition py_len (s : string) : Z :=
  Z.of_nat (length (filter (λ c, is_cont (Z.of_nat (Ascii.nat_of_ascii c)) = false) (chars s))).
(** [s[:n]]: the bytes of the first [n] code points. *)
Fixpoint take_points (n : nat) (l : list Ascii.ascii) : list Ascii.ascii :=
  match l with
  | [] => []
  | c :: l =>
      if is_cont (Z.of_nat (Ascii.nat_of_ascii c)) then c :: take_points n l
      else match n with O => [] | S n => c :: take_points n l end
  end.
Definition prefix_text (n : nat) (s : string) : string := String.string_of_list_ascii (take_points n (chars s)).
(** The database stores no text with the character 0. *)
Definition no_nul (s : string) : bool := forallb (λ c, negb (Ascii.nat_of_ascii c =? 0)%nat) (chars s).
Lemma chars_app a b : chars (a +:+ b) = chars a ++ chars b.
Proof. induction a as [|c a IH]; simpl; [done|by rewrite IH]. Qed.
Lemma py_len_app a b : py_len (a +:+ b) = (py_len a + py_len b)%Z.
Proof. unfold py_len. rewrite chars_app, filter_app, length_app. lia. Qed.
Lemma no_nul_app a b : no_nul (a +:+ b) = no_nul a && no_nul b.
Proof. unfold no_nul. by rewrite chars_app, forallb_app. Qed.
Lemma py_len_le s : (py_len s <= Z.of_nat (String.length s))%Z.
Proof.
  unfold py_len. apply inj_le. etrans; [apply length_filter|]. unfold chars.
  induction s as [|c s IH]; simpl; lia.
Qed.
Lemma py_len_nonneg s : (0 <= py_len s)%Z.
Proof. unfold py_len. lia. Qed.
(** [check (x is null or length(x) <= n)] *)
Definition longer_than (n : Z) (x : option string) : bool :=
  match x with Some s => bool_decide (n < py_len s)%Z | None => false end.

(** [s.rstrip("/")]. *)
Definition is_slash (c : Ascii.ascii) : bool := bool_decide (c = Ascii.ascii_of_nat 47).
Fixpoint drop_slashes (l : list Ascii.ascii) : list Ascii.ascii :=
  match l with
  | c :: l' => if is_slash c then drop_slashes l' else l
  | [] => []
  end.
Definition rstrip_slash (s : string) : string :=
  String.string_of_list_ascii (rev (drop_slashes (rev (chars s)))).
(** [needle in haystack]. *)
Definition contains (needle haystack : string) : bool :=
  bool_decide (is_Some (String.index 0 needle haystack)).


#[export] Instance string_app_assoc : Assoc (=) String.append.
Proof. intros x y z. induction x as [|c x IH]; [done|]. exact (f_equal (String.String c) IH). Qed.

(** ** Fresh ids

    For the concrete generators of the closed runs: a number that is at least
    99 and at least every key. *)

Definition top {A} (m : gmap uuid A) : positive := map_fold (λ k _ n, Pos.max k n) 99%positive m.

Lemma top_above {A} (m : gmap uuid A) : (99 <= top m)%positive.
Proof.
  unfold top. apply (map_fold_weak_ind (λ n _, (99 <= n)%positive)); [lia|]. intros. lia.
Qed.
Lemma top_max {A} (m : gmap uuid A) x : is_Some (m !! x) → (x <= top m)%positive.
Proof.
  unfold top. apply (map_fold_weak_ind (λ n M, is_Some (M !! x) → (x <= n)%positive)).
  - rewrite lookup_empty. by intros [].
  - intros k a n M _ IH. destruct (decide (k = x)) as [->|Hk]; [intros _; lia|].
    rewrite lookup_insert_ne by done. intros Hx%IH. lia.
Qed.
