(* ===== verification/Graph.v ===== *)
(** * Finite directed graphs

    The group hierarchy is a set of (parent, child) edges.  This file holds
    what the closure table of app/database/groups is specified against:
    paths with their length, reachability, acyclicity, what adding and
    removing one edge does to paths, and the bound on the length of a path
    in an acyclic graph (which is why the recursive query terminates). *)

From S2P Require Import Prelude.

Abbreviation edges := (gset (uuid * uuid)).

Inductive path (E : edges) : uuid → nat → uuid → Prop :=
  | path_nil a : path E a 0 a
  | path_cons a b n c : (a, b) ∈ E → path E b n c → path E a (S n) c.

Definition reach (E : edges) (a d : uuid) : Prop := ∃ n, path E a n d.
Definition acyclic (E : edges) : Prop := ∀ a n, ¬ path E a (S n) a.
Definition spans (N : gset uuid) (E : edges) : Prop :=
  ∀ x y, (x, y) ∈ E → x ∈ N ∧ y ∈ N.
(** [n] is the length of a shortest path. *)
Definition dist (E : edges) (a d : uuid) (n : nat) : Prop :=
  path E a n d ∧ ∀ m, path E a m d → n ≤ m.

Create HintDb graph.
#[export] Hint Constructors path : graph.

Section paths.
Implicit Types E F : edges.

Lemma reach_refl E a : reach E a a.
Proof. exists 0. constructor. Qed.

Lemma path_app E a m b n c : path E a m b → path E b n c → path E a (m + n) c.
Proof. induction 1; simpl; eauto with graph. Qed.

Lemma reach_trans E a b c : reach E a b → reach E b c → reach E a c.
Proof. intros [m ?] [n ?]. exists (m + n). by eapply path_app. Qed.

Lemma path_snoc E a n b c : path E a n b → (b, c) ∈ E → path E a (S n) c.
Proof.
  intros Hp He. rewrite <- Nat.add_1_r.
  eapply path_app; eauto with graph.
Qed.

Lemma path_mono E F a n d : E ⊆ F → path E a n d → path F a n d.
Proof. intros HEF. induction 1; econstructor; eauto. Qed.

Lemma path_0 E a d : path E a 0 d ↔ a = d.
Proof. split; [by inversion 1|intros ->; constructor]. Qed.

Lemma path_1 E a d : path E a 1 d ↔ (a, d) ∈ E.
Proof.
  split; [|eauto with graph].
  inversion 1 as [|? b ? ? He Hp]; subst. by apply path_0 in Hp as ->.
Qed.

Lemma path_uncons E a n d :
  path E a (S n) d ↔ ∃ b, (a, b) ∈ E ∧ path E b n d.
Proof.
  split; [by inversion 1; subst; eauto|intros (b & ? & ?); eauto with graph].
Qed.

Lemma path_target E N a n d : spans N E → a ∈ N → path E a n d → d ∈ N.
Proof.
  intros HN Ha Hp. induction Hp as [|a b n d He _ IH]; [done|].
  apply IH. by destruct (HN _ _ He).
Qed.

Lemma path_source E N a n d : spans N E → path E a (S n) d → a ∈ N.
Proof. intros HN (b & He & _)%path_uncons. by destruct (HN _ _ He). Qed.

Lemma acyclic_dist_self E a n : acyclic E → path E a n a → n = 0.
Proof. intros HE Hp. destruct n as [|n]; [done|]. by destruct (HE a n). Qed.

Lemma acyclic_no_edge_back E p c : acyclic E → (p, c) ∈ E → ¬ reach E c p.
Proof. intros HE He [n Hn]. apply (HE p n). eauto with graph. Qed.

(** ** Adding an edge *)

Lemma path_add E p c a n d :
  ¬ reach E c p → path ({[(p, c)]} ∪ E) a n d →
  path E a n d ∨ ∃ i j, path E a i p ∧ path E c j d ∧ n = i + j + 1.
Proof.
  intros Hcp. induction 1 as [a|a b n d He Hp [IH|(i & j & Hi & Hj & ->)]].
  - left. constructor.
  - apply elem_of_union in He as [He%elem_of_singleton|He]; [simplify_eq|].
    + right. exists 0, n. split_and!; [constructor|done|lia].
    + left. eauto with graph.
  - apply elem_of_union in He as [[= -> ->]%elem_of_singleton|He].
    + destruct Hcp. by exists i.
    + right. exists (S i), j. split_and!; [eauto with graph|done|lia].
Qed.

Lemma path_add_through E p c a i j d :
  path E a i p → path E c j d → path ({[(p, c)]} ∪ E) a (i + j + 1) d.
Proof.
  intros Hi Hj. replace (i + j + 1) with (i + S j) by lia.
  eapply path_app; [eapply path_mono; [|done]; set_solver|].
  econstructor; [|eapply path_mono; [|done]]; set_solver.
Qed.

Lemma acyclic_add E p c :
  acyclic E → ¬ reach E c p → acyclic ({[(p, c)]} ∪ E).
Proof.
  intros HE Hcp a n Hp.
  destruct (path_add _ _ _ _ _ _ Hcp Hp) as [Hp'|(i & j & Hi & Hj & _)].
  - by destruct (HE a n).
  - destruct Hcp. eapply reach_trans; eexists; eauto.
Qed.

(** ** Removing an edge *)

Lemma path_del E p c a n d :
  path E a n d → path (E ∖ {[(p, c)]}) a n d ∨ reach E c d.
Proof.
  induction 1 as [a|a b n d He Hp [IH|IH]]; [left; constructor| |by right].
  destruct (decide ((a, b) = (p, c))) as [[= -> ->]|Hne].
  - right. by exists n.
  - left. econstructor; [|done]. set_solver.
Qed.

Lemma path_del_mono E p c a n d : path (E ∖ {[(p, c)]}) a n d → path E a n d.
Proof. apply path_mono. set_solver. Qed.

Lemma acyclic_mono E F : E ⊆ F → acyclic F → acyclic E.
Proof. intros HEF HF a n Hp. eapply HF, path_mono; eauto. Qed.

(** ** Removing a node without edges *)

Lemma path_isolated E x a n d :
  (∀ y, (x, y) ∉ E) → (∀ y, (y, x) ∉ E) →
  path E a n d → a = d ∨ (a ≠ x ∧ d ≠ x).
Proof.
  intros Ho Hi Hp. induction Hp as [a|a b n d He Hp IH]; [by left|].
  right. split; [intros ->; by eapply Ho|intros ->].
  destruct IH as [->|[_ ?]]; [by eapply Hi|done].
Qed.

(** ** Paths of an acyclic graph are short *)

Lemma path_trace E N a n d :
  acyclic E → spans N E → a ∈ N → path E a n d →
  ∃ l, length l = S n ∧ NoDup l ∧ ∀ x, x ∈ l → x ∈ N ∧ reach E a x.
Proof.
  intros HE HN Ha Hp. induction Hp as [a|a b n d He Hp IH].
  - exists [a]. split_and!; [done|apply NoDup_singleton|].
    intros x ->%list_elem_of_singleton. split; [done|apply reach_refl].
  - destruct IH as (l & Hlen & Hnd & Hl); [by destruct (HN _ _ He)|].
    assert (reach E a b) as Hab by (exists 1; by apply path_1).
    exists (a :: l). split_and!; [by simpl; rewrite Hlen| |].
    + constructor; [|done]. intros [_ Hba]%Hl.
      by eapply acyclic_no_edge_back.
    + intros x [->|Hx]%elem_of_cons; [split; [done|apply reach_refl]|].
      destruct (Hl x Hx) as [? ?]. split; [done|by eapply reach_trans].
Qed.

Lemma path_length_bound E N a n d :
  acyclic E → spans N E → a ∈ N → path E a n d → n < size N.
Proof.
  intros HE HN Ha Hp.
  destruct (path_trace E N a n d) as (l & Hlen & Hnd & Hl); [done..|].
  assert (size (list_to_set l : gset uuid) ≤ size N) as Hsz.
  { apply subseteq_size. intros x [? _]%elem_of_list_to_set%Hl. done. }
  rewrite size_list_to_set in Hsz by done. lia.
Qed.

(** A cycle gives paths of every multiple of its length. *)
Lemma cycle_repeat E a n k : path E a (S n) a → path E a (k * S n) a.
Proof.
  intros Hp. induction k as [|k IH]; [constructor|].
  simpl. rewrite <- Nat.add_succ_l. by eapply path_app.
Qed.
End paths.

#[export] Hint Resolve reach_refl path_snoc : graph.
