(* ===== verification/GroupDb.v ===== *)
(** * The group tables and their statements

    One tenant's rows of the tables app/database/groups works on, and one
    definition per database function: app/database/groups/core.py,
    relationships.py, lineage.py, memberships.py, idp.py.  Row-level security
    restricts every statement to the tenant of its session, so the tenant id
    argument is not repeated.  Timestamps, logos and row ids that no modelled
    call reads are left out.  [gen_random_uuid()] is an argument. *)

From S2P Require Import Prelude Graph.

Inductive group_type := weftid | idp.
#[export] Instance group_type_eq_dec : EqDecision group_type.
Proof. solve_decision. Defined.

(** The two kinds of upstream provider, [_SOURCES] of database/groups/idp.py. *)
Inductive idp_source := saml | oidc.
#[export] Instance idp_source_eq_dec : EqDecision idp_source.
Proof. solve_decision. Defined.
#[export] Instance idp_source_countable : Countable idp_source.
Proof.
  refine (inj_countable' (λ s, match s with saml => true | oidc => false end)
                         (λ b, if b : bool then saml else oidc) _).
  by intros [].
Defined.

Record group_row := mk_group {
  g_name : string;
  g_description : option string;
  g_acronym : option string;
  g_group_type : group_type;
  g_idp_id : option uuid;
  g_oidc_connection_id : option uuid;
  g_is_valid : bool;
  g_created_by : option uuid;
}.

(** The three kinds of app a group can be assigned to, database/sp_group_assignments.py. *)
Inductive app_kind := sp | proxy_app | oauth2_client.
#[export] Instance app_kind_eq_dec : EqDecision app_kind.
Proof. solve_decision. Defined.
#[export] Instance app_kind_countable : Countable app_kind.
Proof.
  refine (inj_countable'
    (λ k, match k with sp => 0 | proxy_app => 1 | oauth2_client => 2 end)
    (λ n, match n with 0 => sp | 1 => proxy_app | _ => oauth2_client end) _).
  by intros [].
Defined.

Record app_row := mk_app {
  app_name : string;
  app_available_to_all : bool;
  app_enabled : bool;
  app_trust_established : bool;
}.

Record event := mk_event {
  ev_actor : option uuid;   (* [None] is SYSTEM_ACTOR_ID *)
  ev_artifact_type : string;
  ev_artifact_id : uuid;
  ev_event_type : string;
  ev_metadata : list (string * meta);
}.

Abbreviation lineage_table := (gmap (uuid * uuid) nat).

Record db := mk_db {
  groups : gmap uuid group_row;
  relationships : edges;              (* (parent_group_id, child_group_id) *)
  lineage : lineage_table;            (* (ancestor_id, descendant_id) to depth *)
  memberships : gset (uuid * uuid);   (* (group_id, user_id) *)
  users : gset uuid;
  providers : gmap (idp_source * uuid) string;  (* provider id to its name *)
  apps : gmap (app_kind * uuid) app_row;
  assignments : gset ((app_kind * uuid) * uuid); (* (app, group_id) *)
  events : list event;
  activity : list uuid;               (* calls of track_activity, in order *)
}.

Definition set_groups f d := mk_db (f (groups d)) (relationships d) (lineage d)
  (memberships d) (users d) (providers d) (apps d) (assignments d) (events d) (activity
  d).
Definition set_relationships f d := mk_db (groups d) (f (relationships d)) (lineage d)
  (memberships d) (users d) (providers d) (apps d) (assignments d) (events d) (activity
  d).
Definition set_lineage f d := mk_db (groups d) (relationships d) (f (lineage d))
  (memberships d) (users d) (providers d) (apps d) (assignments d) (events d) (activity
  d).
Definition set_memberships f d := mk_db (groups d) (relationships d) (lineage d) (f
  (memberships d)) (users d) (providers d) (apps d) (assignments d) (events d) (activity
  d).
Definition set_providers f d := mk_db (groups d) (relationships d) (lineage d)
  (memberships d) (users d) (f (providers d)) (apps d) (assignments d) (events d)
  (activity d).
Definition set_assignments f d := mk_db (groups d) (relationships d) (lineage d)
  (memberships d) (users d) (providers d) (apps d) (f (assignments d)) (events d)
  (activity d).
Definition set_events f d := mk_db (groups d) (relationships d) (lineage d) (memberships
  d) (users d) (providers d) (apps d) (assignments d) (f (events d)) (activity d).
Definition set_activity f d := mk_db (groups d) (relationships d) (lineage d)
  (memberships d) (users d) (providers d) (apps d) (assignments d) (events d) (f (activity
  d)).

(** [log_event] appends one row to the audit log. *)
Definition log_event (actor : option uuid) (artifact_type : string)
    (artifact_id : uuid) (event_type : string) (metadata : list (string * meta)) :
    M db () :=
  modify (set_events (λ l, l ++ [mk_event actor artifact_type artifact_id event_type metadata])).

(** [track_activity] of app/services/activity.py: recorded as a call; its cache
    and its timestamp are not modelled. *)
Definition track_activity (u : uuid) : M db () := modify (set_activity (λ l, l ++ [u])).

(** The database's id generator, [gen_random_uuid()]. *)
Class UuidGen := gen_random_uuid : db → uuid.

(** ** The closure table *)

(** [on conflict (ancestor_id, descendant_id) do update set depth =
    least(group_lineage.depth, excluded.depth)], for the selected rows. *)
Definition upsert_least (rows : list (uuid * uuid * nat)) (L : lineage_table) : lineage_table :=
  foldr (λ r L, let '(k, n) := r in
           <[k := match L !! k with Some m => m `min` n | None => n end]> L) L rows.

(** The cross join of add_group_relationship: every (ancestor, parent) row
    with every (child, descendant) row. *)
Definition cross_rows (p c : uuid) (L : lineage_table) : list (uuid * uuid * nat) :=
  up ← filter (λ kv, kv.1.2 = p) (map_to_list L);
  down ← filter (λ kv, kv.1.1 = c) (map_to_list L);
  [(up.1.1, down.1.2, up.2 + down.2 + 1)].

(** The recursive CTE [reachable] of remove_group_relationship.  [union]
    discards rows already produced; the loop ends when an iteration adds
    nothing.  [None]: the fuel ran out first. *)
Definition cte_base (E : edges) (D : gset uuid) : gset (uuid * uuid * nat) :=
  set_map (λ e : uuid * uuid, (e.1, e.2, 1)) (filter (λ e : uuid * uuid, e.2 ∈ D) E).
Definition cte_step (E : edges) (work : gset (uuid * uuid * nat)) :
    gset (uuid * uuid * nat) :=
  set_bind (λ r : uuid * uuid * nat,
    set_map (λ e : uuid * uuid, (e.1, r.1.2, S r.2))
            (filter (λ e : uuid * uuid, e.2 = r.1.1) E)) work.
Fixpoint cte_iter (fuel : nat) (E : edges) (work acc : gset (uuid * uuid * nat)) :
    option (gset (uuid * uuid * nat)) :=
  if decide (work = ∅) then Some acc
  else match fuel with
       | 0 => None
       | S fuel => let new := cte_step E work ∖ acc in cte_iter fuel E new (new ∪ acc)
       end.
Definition cte_reachable (fuel : nat) (E : edges) (D : gset uuid) :
    option (gset (uuid * uuid * nat)) :=
  cte_iter fuel E (cte_base E D) (cte_base E D).

(** [select distinct on (ancestor_id, descendant_id) ... order by depth]. *)
Definition distinct_on_least (rows : gset (uuid * uuid * nat)) : gset (uuid * uuid * nat) :=
  filter (λ r, set_Forall (λ r', r'.1 = r.1 → r.2 ≤ r'.2) rows) rows.

Definition has_self_row (L : lineage_table) (d : uuid) : bool :=
  bool_decide (filter (λ kv, kv.1.2 = d ∧ kv.2 = 0) L ≠ ∅).

(** ** database/groups/relationships.py *)

(** [select 1 from group_lineage where ancestor_id = :child_id and
    descendant_id = :parent_id]. *)
Definition would_create_cycle (d : db) (p c : uuid) : bool :=
  bool_decide (is_Some (lineage d !! (c, p))).

Definition relationship_exists (d : db) (p c : uuid) : bool :=
  bool_decide ((p, c) ∈ relationships d).

(** Returns whether a row was inserted.  The edge table refuses
    self-references and edges between missing groups. *)
Definition add_group_relationship (p c : uuid) : M db bool :=
  transaction
    (E ← gets relationships;
     if decide ((p, c) ∈ E) then mret false
     else
       G ← gets groups;
       _ ← raise_if (bool_decide (p = c)) (IntegrityError "chk_no_self_relationship");
       _ ← raise_if (bool_decide (G !! p = None))
             (IntegrityError "fk_group_relationships_parent");
       _ ← raise_if (bool_decide (G !! c = None))
             (IntegrityError "fk_group_relationships_child");
       _ ← modify (set_relationships (λ E, {[(p, c)]} ∪ E));
       _ ← modify (set_lineage (λ L, upsert_least (cross_rows p c L) L));
       mret true).

(** The loop of the recursive query is bounded here by the number of groups;
    [StatementDiverges] stands for a query that is still producing rows then. *)
Definition cte_fuel (d : db) : nat := size (groups d).

Definition lineage_descendants (L : lineage_table) (c : uuid) : gset uuid :=
  set_map (λ k : uuid * uuid, k.2)
    (filter (λ k : uuid * uuid, k.1 = c) (dom L : gset (uuid * uuid))).

Definition remove_group_relationship (p c : uuid) : M db nat :=
  transaction
    (E ← gets relationships;
     if decide ((p, c) ∉ E) then mret 0
     else
       _ ← modify (set_relationships (λ E, E ∖ {[(p, c)]}));
       L ← gets lineage;
       let descendants := lineage_descendants L c in
       if decide (descendants = ∅) then mret 1
       else
         _ ← modify (set_lineage (filter (λ kv : uuid * uuid * nat,
               ¬ (kv.1.2 ∈ descendants ∧ kv.1.1 ≠ kv.1.2))));
         d ← gets id;
         reachable ← some_or (cte_reachable (cte_fuel d) (relationships d) descendants)
                       StatementDiverges;
         let rows := distinct_on_least
               (filter (λ r : uuid * uuid * nat, has_self_row (lineage d) r.1.2 = true) reachable) in
         _ ← modify (set_lineage (upsert_least (elements rows)));
         mret 1).

(** ** database/groups/lineage.py *)

Definition is_ancestor_of (d : db) (a x : uuid) : bool :=
  bool_decide (is_Some (lineage d !! (a, x))).

(** One row of an ancestor or descendant listing. *)
Record lineage_row := mk_lineage_row {
  lr_group_id : uuid;
  lr_depth : nat;
  lr_name : string;
  lr_group_type : group_type;
}.

Definition by_depth (u v : lineage_row) : Prop := lr_depth u ≤ lr_depth v.
#[export] Instance by_depth_dec : RelDecision by_depth.
Proof. intros u v. unfold by_depth. apply _. Defined.

Definition lineage_row_of (d : db) (x : uuid) (n : nat) : option lineage_row :=
  g ← groups d !! x; Some (mk_lineage_row x n (g_name g) (g_group_type g)).

Definition get_group_ancestors (d : db) (x : uuid) : list lineage_row :=
  merge_sort by_depth
    (omap (λ kv : uuid * uuid * nat, lineage_row_of d kv.1.1 kv.2)
       (filter (λ kv : uuid * uuid * nat, kv.1.2 = x ∧ 0 < kv.2) (map_to_list (lineage d)))).

Definition get_group_descendants (d : db) (x : uuid) : list lineage_row :=
  merge_sort by_depth
    (omap (λ kv : uuid * uuid * nat, lineage_row_of d kv.1.2 kv.2)
       (filter (λ kv : uuid * uuid * nat, kv.1.1 = x ∧ 0 < kv.2) (map_to_list (lineage d)))).

(** ** database/groups/relationships.py: listings *)

(** A parent or child row: the group's id, name and type, and how many direct
    members it has. *)
Record relation_row := mk_relation_row {
  rr_group_id : uuid;
  rr_name : string;
  rr_group_type : group_type;
  rr_member_count : nat;
}.

Definition count_group_members (d : db) (g : uuid) : nat :=
  size (filter (λ m : uuid * uuid, m.1 = g) (memberships d)).

Definition relation_row_of (d : db) (x : uuid) : option relation_row :=
  g ← groups d !! x;
  Some (mk_relation_row x (g_name g) (g_group_type g) (count_group_members d x)).

Definition get_group_parents `{Collation} (d : db) (x : uuid) : list relation_row :=
  order_by_name rr_name
    (omap (λ e : uuid * uuid, relation_row_of d e.1)
       (elements (filter (λ e : uuid * uuid, e.2 = x) (relationships d)))).

Definition get_group_children `{Collation} (d : db) (x : uuid) : list relation_row :=
  order_by_name rr_name
    (omap (λ e : uuid * uuid, relation_row_of d e.2)
       (elements (filter (λ e : uuid * uuid, e.1 = x) (relationships d)))).

(** ** database/groups/core.py *)

(** The users the descendants of [g] (itself included) have as members. *)
Definition effective_users (d : db) (g : uuid) : gset uuid :=
  set_map (λ m : uuid * uuid, m.2)
    (filter (λ m : uuid * uuid, is_Some (lineage d !! (g, m.1))) (memberships d)).

Definition count_effective_members (d : db) (g : uuid) : nat := size (effective_users d g).

Record group_detail := mk_group_detail {
  gd_id : uuid;
  gd_row : group_row;
  gd_idp_name : option string;
  gd_member_count : nat;
  gd_effective_member_count : nat;
  gd_parent_count : nat;
  gd_child_count : nat;
}.

(** [coalesce(idp.name, oc.name)] over the two left joins. *)
Definition provider_name (d : db) (g : group_row) : option string :=
  match g_idp_id g ≫= (λ i, providers d !! (saml, i)) with
  | Some n => Some n
  | None => g_oidc_connection_id g ≫= (λ i, providers d !! (oidc, i))
  end.

Definition get_group_by_id (d : db) (x : uuid) : option group_detail :=
  g ← groups d !! x;
  Some (mk_group_detail x g (provider_name d g)
    (count_group_members d x)
    (count_effective_members d x)
    (size (filter (λ e : uuid * uuid, e.2 = x) (relationships d)))
    (size (filter (λ e : uuid * uuid, e.1 = x) (relationships d)))).

Definition get_weftid_group_by_name (d : db) (name : string) : option (uuid * group_row) :=
  head (filter (λ kv : uuid * group_row, g_name kv.2 = name ∧ g_group_type kv.2 = weftid)
          (map_to_list (groups d))).

(** The unique indexes on groups: a name is unique among the groups of the
    same source (none, one SAML IdP, one OIDC connection). *)
Definition name_taken (d : db) (x : uuid) (g : group_row) : bool :=
  bool_decide (filter (λ kv : uuid * group_row,
    kv.1 ≠ x ∧ g_name kv.2 = g_name g ∧
    g_idp_id kv.2 = g_idp_id g ∧
    g_oidc_connection_id kv.2 = g_oidc_connection_id g) (groups d) ≠ ∅).

(** What the columns hold: groups_name_check, groups_description_check,
    varchar(4), and no text with the character 0. *)
Definition group_texts (g : group_row) : list string :=
  g_name g :: option_list (g_description g) ++ option_list (g_acronym g).
Definition group_column_error (g : group_row) : option exn :=
  if negb (forallb no_nul (group_texts g)) then Some (PythonError "DataError")
  else if longer_than 4 (g_acronym g) then Some (PythonError "StringDataRightTruncation")
  else if longer_than 2000 (g_description g) then Some (IntegrityError "groups_description_check")
  else if longer_than 200 (Some (g_name g)) then Some (IntegrityError "groups_name_check")
  else None.
Definition check_group_row (g : group_row) : M db () :=
  match group_column_error g with Some e => raise e | None => mret () end.

(** [insert into groups] followed by the depth-0 lineage row, in one
    transaction. *)
Definition insert_group `{UuidGen} (g : group_row) : M db uuid :=
  transaction
    (d ← gets id;
     let x := gen_random_uuid d in
     _ ← check_group_row g;
     _ ← raise_if (bool_decide (is_Some (groups d !! x))) (IntegrityError "groups_pkey");
     _ ← raise_if (name_taken d x g) (IntegrityError "idx_groups_name_unique");
     _ ← modify (set_groups (insert x g));
     _ ← modify (set_lineage (insert (x, x) 0));
     mret x).

Definition create_group `{UuidGen} (name : string) (description acronym : option string)
    (created_by : option uuid) : M db uuid :=
  insert_group (mk_group name description acronym weftid None None true created_by).

(** The [updates] list of update_group: [None] leaves a column alone; an
    empty description or acronym clears it.  [acronym] is an option of an
    option because the code distinguishes "not passed" from [None]. *)
Definition blank_to_null (s : option string) : option string :=
  match s with Some "" => None | _ => s end.
Definition apply_group_update (name description : option string)
    (acronym : option (option string)) (g : group_row) : group_row :=
  mk_group (default (g_name g) name)
    (match description with None => g_description g | Some _ => blank_to_null description end)
    (match acronym with None => g_acronym g | Some a => blank_to_null a end)
    (g_group_type g) (g_idp_id g) (g_oidc_connection_id g) (g_is_valid g) (g_created_by g).

Definition update_group (x : uuid) (name description : option string)
    (acronym : option (option string)) : M db nat :=
  if decide (name = None ∧ description = None ∧ acronym = None) then mret 0
  else
    d ← gets id;
    match groups d !! x with
    | None => mret 0
    | Some g =>
        let g' := apply_group_update name description acronym g in
        _ ← check_group_row g';
        _ ← raise_if (name_taken d x g') (IntegrityError "idx_groups_name_unique");
        _ ← modify (set_groups (insert x g'));
        mret 1
    end.

(** [delete from groups] for a set of ids: the foreign keys cascade to the
    memberships, the edges, the lineage rows and the app assignments that
    mention a deleted group, and to nothing else. *)
Definition delete_cascade (gone : gset uuid) (d : db) : db :=
  mk_db (filter (λ kv : uuid * group_row, kv.1 ∉ gone) (groups d))
    (filter (λ e : uuid * uuid, (e.1 ∉ gone) ∧ e.2 ∉ gone) (relationships d))
    (filter (λ kv : uuid * uuid * nat, (kv.1.1 ∉ gone) ∧ kv.1.2 ∉ gone) (lineage d))
    (filter (λ m : uuid * uuid, m.1 ∉ gone) (memberships d))
    (users d) (providers d) (apps d)
    (filter (λ a : (app_kind * uuid) * uuid, a.2 ∉ gone) (assignments d))
    (events d) (activity d).

Definition delete_group_row (x : uuid) : M db nat :=
  update (λ d, ((if decide (is_Some (groups d !! x)) then 1 else 0), delete_cascade {[x]} d)).

(** ** database/groups/memberships.py *)

Definition is_group_member (d : db) (g u : uuid) : bool :=
  bool_decide ((g, u) ∈ memberships d).

(** [insert ... on conflict do nothing], with the two foreign keys; returns
    the number of inserted rows. *)
Definition insert_membership (g u : uuid) : M db nat :=
  d ← gets id;
  if decide ((g, u) ∈ memberships d) then mret 0
  else
    _ ← raise_if (bool_decide (groups d !! g = None)) (IntegrityError "fk_group_memberships_group");
    _ ← raise_if (bool_decide (u ∉ users d)) (IntegrityError "fk_group_memberships_user");
    _ ← modify (set_memberships (λ m, {[(g, u)]} ∪ m));
    mret 1.

Definition add_group_member (g u : uuid) : M db bool :=
  n ← insert_membership g u; mret (bool_decide (n = 1)).

Definition delete_membership (g u : uuid) : M db nat :=
  update (λ d, ((if decide ((g, u) ∈ memberships d) then 1 else 0),
                set_memberships (λ m, m ∖ {[(g, u)]}) d)).

Definition remove_group_member (g u : uuid) : M db nat := delete_membership g u.

Definition bulk_add_group_members (g : uuid) (us : list uuid) : M db nat :=
  match us with
  | [] => mret 0
  | _ => transaction (for_sum (λ u, insert_membership g u) us)
  end.

Definition bulk_remove_group_members (g : uuid) (us : list uuid) : M db nat :=
  match us with
  | [] => mret 0
  | _ => transaction (for_sum (λ u, delete_membership g u) us)
  end.

(** ** database/groups/idp.py *)

(** The column [_resolve_source] selects. *)
Definition source_column (src : idp_source) (g : group_row) : option uuid :=
  match src with saml => g_idp_id g | oidc => g_oidc_connection_id g end.

Definition find_group (d : db) (P : group_row → Prop) `{∀ g, Decision (P g)} : option uuid :=
  fst <$> head (filter (λ kv : uuid * group_row, P kv.2) (map_to_list (groups d))).

(** The base (umbrella) group: the valid group of the provider whose name is
    the provider's current name. *)
Definition get_idp_base_group_id (d : db) (idp_id : uuid) (src : idp_source) : option uuid :=
  match providers d !! (src, idp_id) with
  | None => None
  | Some name => find_group d (λ g,
      source_column src g = Some idp_id ∧ g_name g = name ∧ g_is_valid g = true)
  end.

Definition get_group_by_idp_and_name (d : db) (idp_id : uuid) (name : string)
    (src : idp_source) : option uuid :=
  find_group d (λ g, source_column src g = Some idp_id ∧ g_name g = name).

Definition get_groups_by_idp `{Collation} (d : db) (idp_id : uuid) (src : idp_source) :
    list (uuid * group_row) :=
  order_by_name (λ kv, g_name kv.2)
    (filter (λ kv : uuid * group_row, source_column src kv.2 = Some idp_id)
       (map_to_list (groups d))).

Definition create_idp_group `{UuidGen} (idp_id : uuid) (name : string)
    (description : option string) (src : idp_source) : M db uuid :=
  d ← gets id;
  _ ← raise_if (bool_decide (providers d !! (src, idp_id) = None))
        (IntegrityError "fk_groups_provider");
  insert_group (mk_group name description None idp
    (match src with saml => Some idp_id | oidc => None end)
    (match src with saml => None | oidc => Some idp_id end) true None).

(** [delete from groups where {id_column} = :idp_id]. *)
Definition idp_group_ids (d : db) (idp_id : uuid) (src : idp_source) : gset uuid :=
  dom (filter (λ kv : uuid * group_row, source_column src kv.2 = Some idp_id) (groups d)).

Definition delete_groups_by_idp (idp_id : uuid) (src : idp_source) : M db nat :=
  update (λ d, let gone := idp_group_ids d idp_id src in (size gone, delete_cascade gone d)).

(** The join and the filter of get_user_idp_group_ids. *)
Definition valid_group_of_idp (d : db) (idp_id : uuid) (src : idp_source) (x : uuid) : bool :=
  match groups d !! x with
  | Some g => bool_decide (source_column src g = Some idp_id ∧ g_is_valid g = true)
  | None => false
  end.

Definition get_user_idp_group_ids (d : db) (u idp_id : uuid) (src : idp_source) : gset uuid :=
  set_map (λ m : uuid * uuid, m.1)
    (filter (λ m : uuid * uuid, m.2 = u ∧ valid_group_of_idp d idp_id src m.1 = true)
       (memberships d)).

Definition bulk_add_user_to_groups (u : uuid) (gs : list uuid) : M db nat :=
  match gs with
  | [] => mret 0
  | _ => transaction (for_sum (λ g, insert_membership g u) gs)
  end.

Definition bulk_remove_user_from_groups (u : uuid) (gs : list uuid) : M db nat :=
  match gs with
  | [] => mret 0
  | _ => update (λ d,
      let gone := filter (λ m : uuid * uuid, m.2 = u ∧ m.1 ∈ gs) (memberships d) in
      (size gone, set_memberships (λ m, m ∖ gone) d))
  end.
