(* ===== verification/GroupLineage.v ===== *)
(** * The closure table is the shortest-path table of the hierarchy

    [lineage_ok N E L]: the edges [E] connect the groups [N] without a cycle
    and the closure table [L] holds exactly the shortest path lengths.  The
    lemmas show what each statement of app/database/groups does to it. *)

From S2P Require Import Prelude Graph GroupDb.

Record lineage_ok (N : gset uuid) (E : edges) (L : lineage_table) : Prop := {
  lok_spans : spans N E;
  lok_acyclic : acyclic E;
  lok_sound a x n : L !! (a, x) = Some n → a ∈ N ∧ path E a n x;
  lok_complete a x n : a ∈ N → path E a n x → ∃ m, L !! (a, x) = Some m ∧ m ≤ n;
}.

Definition closed (d : db) : Prop :=
  lineage_ok (dom (groups d)) (relationships d) (lineage d).

Section lineage_facts.
Context {N : gset uuid} {E : edges} {L : lineage_table} (Hok : lineage_ok N E L).

Lemma lok_lookup a x n : L !! (a, x) = Some n ↔ a ∈ N ∧ dist E a x n.
Proof.
  split.
  - intros HL. destruct (lok_sound _ _ _ Hok _ _ _ HL) as [Ha Hp].
    split; [done|split; [done|intros m Hm]].
    destruct (lok_complete _ _ _ Hok _ _ _ Ha Hm) as (k & ? & ?). by simplify_eq.
  - intros [Ha [Hp Hmin]].
    destruct (lok_complete _ _ _ Hok _ _ _ Ha Hp) as (m & HL & Hmn).
    destruct (lok_sound _ _ _ Hok _ _ _ HL) as [_ Hm].
    specialize (Hmin _ Hm). by replace n with m by lia.
Qed.

Lemma lok_reach a x : is_Some (L !! (a, x)) ↔ a ∈ N ∧ reach E a x.
Proof.
  split.
  - intros [n [? ?]%(lok_sound _ _ _ Hok)]. split; [done|by exists n].
  - intros [Ha [n Hn]].
    destruct (lok_complete _ _ _ Hok _ _ _ Ha Hn) as (m & ? & _). by exists m.
Qed.

Lemma lok_self a n : L !! (a, a) = Some n → n = 0.
Proof.
  intros [_ Hp]%(lok_sound _ _ _ Hok).
  by eapply acyclic_dist_self, Hp; apply Hok.
Qed.

Lemma lok_zero a x : L !! (a, x) = Some 0 → a = x.
Proof. by intros [_ ?%path_0]%(lok_sound _ _ _ Hok). Qed.

Lemma lok_refl a : a ∈ N → L !! (a, a) = Some 0.
Proof.
  intros Ha. destruct (lok_complete _ _ _ Hok a a 0 Ha) as (m & ? & ?); [constructor|].
  by replace 0 with m by lia.
Qed.

Lemma lok_target a x n : L !! (a, x) = Some n → x ∈ N.
Proof.
  intros [Ha Hp]%(lok_sound _ _ _ Hok). eapply path_target; [apply Hok|done..].
Qed.
End lineage_facts.

(** ** The upsert keeps the least depth *)

Section upsert.
Implicit Types (L : lineage_table) (rows : list (uuid * uuid * nat)).

Lemma upsert_least_sound rows L k m :
  upsert_least rows L !! k = Some m → L !! k = Some m ∨ (k, m) ∈ rows.
Proof.
  revert m. induction rows as [|[k' n] rows IH]; intros m; simpl; [by left|].
  rewrite lookup_insert. case_decide as Hk; [subst k'|].
  - intros [= <-]. destruct (upsert_least rows L !! k) as [m'|] eqn:Hm'.
    + destruct (Nat.min_dec m' n) as [->| ->].
      * destruct (IH _ eq_refl) as [?|?]; [by left|right; by apply list_elem_of_further].
      * right. by apply list_elem_of_here.
    + right. by apply list_elem_of_here.
  - intros [?|?]%IH; [by left|right; by apply list_elem_of_further].
Qed.

Lemma upsert_least_old rows L k m :
  L !! k = Some m → ∃ m', upsert_least rows L !! k = Some m' ∧ m' ≤ m.
Proof.
  intros HL. induction rows as [|[k' n] rows (m' & Hm' & Hle)]; simpl; [by exists m|].
  rewrite lookup_insert. case_decide as Hk; [subst k'|by exists m'].
  rewrite Hm'. eexists; split; [done|lia].
Qed.

Lemma upsert_least_new rows L k n :
  (k, n) ∈ rows → ∃ m, upsert_least rows L !! k = Some m ∧ m ≤ n.
Proof.
  induction rows as [|[k' n'] rows IH]; simpl; [by intros ?%not_elem_of_nil|].
  intros [[= -> ->]|Hin]%elem_of_cons; rewrite lookup_insert.
  - rewrite decide_True by done. case_match; eexists; split; done || lia.
  - destruct (IH Hin) as (m & Hm & Hle).
    case_decide as Hk; [subst k'|by exists m].
    rewrite Hm. eexists; split; [done|lia].
Qed.
End upsert.

Lemma elem_of_cross_rows p c L a x n :
  ((a, x), n) ∈ cross_rows p c L ↔
  ∃ i j, L !! (a, p) = Some i ∧ L !! (c, x) = Some j ∧ n = i + j + 1.
Proof.
  unfold cross_rows. split.
  - intros ([[a' p'] i] & ([[c' x'] j] & Hr & Hd)%list_elem_of_bind & Hu)%list_elem_of_bind.
    apply list_elem_of_filter in Hu as [Hp Hu%elem_of_map_to_list].
    apply list_elem_of_filter in Hd as [Hc Hd%elem_of_map_to_list].
    apply list_elem_of_singleton in Hr. simpl in *. simplify_eq. eauto.
  - intros (i & j & Hi & Hj & ->).
    apply list_elem_of_bind. exists ((a, p), i). split.
    + apply list_elem_of_bind. exists ((c, x), j).
      split; [by apply list_elem_of_singleton|].
      apply list_elem_of_filter. split; [done|by apply elem_of_map_to_list].
    + apply list_elem_of_filter. split; [done|by apply elem_of_map_to_list].
Qed.

(** ** The recursive query *)

Section cte.
Implicit Types (E : edges) (D : gset uuid).

(** The rows of depth [k] are the paths of length [k] into [D]. *)
Definition level E D (k : nat) (work : gset (uuid * uuid * nat)) : Prop :=
  ∀ (a x : uuid) (n : nat), ((a, x), n) ∈ work ↔ x ∈ D ∧ n = k ∧ path E a n x.
Definition upto E D (k : nat) (acc : gset (uuid * uuid * nat)) : Prop :=
  ∀ (a x : uuid) (n : nat), ((a, x), n) ∈ acc ↔ x ∈ D ∧ 1 ≤ n ≤ k ∧ path E a n x.

Lemma cte_base_level E D : level E D 1 (cte_base E D).
Proof.
  intros a x n. unfold cte_base. rewrite elem_of_map. split.
  - intros ([a' x'] & ? & [Hx He]%elem_of_filter). simpl in *. simplify_eq.
    by rewrite path_1.
  - intros (Hx & -> & ?%path_1). exists (a, x). split; [done|].
    by apply elem_of_filter.
Qed.

Lemma cte_step_level E D k work :
  level E D k work → level E D (S k) (cte_step E work).
Proof.
  intros Hw a x n. unfold cte_step. rewrite elem_of_set_bind. split.
  - intros ([[b x'] m] & Hb%Hw & ([a' b'] & ? & [? He]%elem_of_filter)%elem_of_map).
    destruct Hb as (? & -> & ?). simpl in *. simplify_eq.
    split_and!; [done..|eauto with graph].
  - intros (Hx & -> & (b & He & Hp)%path_uncons).
    exists ((b, x), k). split; [by apply Hw|].
    apply elem_of_map. exists (a, b). split; [done|]. by apply elem_of_filter.
Qed.

(** Rows of a new depth are never among the rows already produced. *)
Lemma level_new E D k work acc :
  level E D (S k) work → upto E D k acc → work ∖ acc = work.
Proof.
  intros Hw Ha. apply set_eq. intros [[a x] n].
  rewrite elem_of_difference. split; [by intros []|intros Hr; split; [done|]].
  intros (_ & Hle & _)%Ha. apply Hw in Hr as (_ & -> & _). lia.
Qed.

Lemma upto_extend E D k work acc :
  level E D (S k) work → upto E D k acc → upto E D (S k) (work ∪ acc).
Proof.
  intros Hw Ha a x n. rewrite elem_of_union, (Hw a x n), (Ha a x n).
  split; [intros [(? & -> & ?)|(? & ? & ?)]; split_and!; done || lia|].
  intros (? & ? & ?). destruct (decide (n = S k)) as [->|]; [by left|].
  right. split_and!; done || lia.
Qed.

(** No path of length [k] into [D]: none longer. *)
Lemma level_empty E D k : level E D (S k) ∅ →
  ∀ (a x : uuid) (n : nat), x ∈ D → path E a n x → n ≤ k.
Proof.
  intros Hw a x n Hx. revert a. induction n as [|n IH]; intros a Hp; [lia|].
  pose proof Hp as (b & _ & Hb)%path_uncons. specialize (IH b Hb).
  destruct (decide (n = k)) as [->|]; [|lia].
  assert (((a, x), S k) ∈ (∅ : gset (uuid * uuid * nat))) by (by apply Hw).
  set_solver.
Qed.

Lemma cte_iter_result E D k fuel work acc rows :
  level E D (S k) work → upto E D (S k) acc →
  cte_iter fuel E work acc = Some rows →
  ∀ (a x : uuid) (n : nat), ((a, x), n) ∈ rows ↔ x ∈ D ∧ 1 ≤ n ∧ path E a n x.
Proof.
  revert k work acc. induction fuel as [|fuel IH]; intros k work acc Hw Ha;
    simpl; case_decide as He; try done.
  1,2: intros [= <-] a x n; subst; rewrite (Ha a x n); split;
       [intros (? & ? & ?); split_and!; done || lia|intros (Hx & ? & Hp)];
       pose proof (level_empty _ _ _ Hw _ _ _ Hx Hp); split_and!; done || lia.
  pose proof (cte_step_level _ _ _ _ Hw) as Hw'.
  rewrite (level_new _ _ _ _ _ Hw' Ha). apply (IH (S k)); [done|].
  by apply upto_extend.
Qed.

Lemma cte_reachable_result E D fuel rows :
  cte_reachable fuel E D = Some rows →
  ∀ (a x : uuid) (n : nat), ((a, x), n) ∈ rows ↔ x ∈ D ∧ 1 ≤ n ∧ path E a n x.
Proof.
  apply (cte_iter_result E D 0); [apply cte_base_level|].
  intros a x n. rewrite (cte_base_level E D a x n).
  split; intros (? & ? & ?); split_and!; done || lia.
Qed.

Lemma cte_iter_terminates E D N k fuel work acc :
  acyclic E → spans N E → size N ≤ fuel + S k →
  level E D (S k) work → upto E D (S k) acc →
  is_Some (cte_iter fuel E work acc).
Proof.
  intros HE HN. revert k work acc.
  induction fuel as [|fuel IH]; intros k work acc Hsz Hw Ha;
    simpl; case_decide as Hne; eauto.
  - destruct (set_choose_L work Hne) as ([[a x] n] & (Hx & -> & Hp)%Hw).
    pose proof (path_source _ _ _ _ _ HN Hp) as Ha'.
    pose proof (path_length_bound _ _ _ _ _ HE HN Ha' Hp). lia.
  - pose proof (cte_step_level _ _ _ _ Hw) as Hw'.
    rewrite (level_new _ _ _ _ _ Hw' Ha). apply (IH (S k)); [lia|done|].
    by apply upto_extend.
Qed.

Lemma cte_reachable_terminates E D N fuel :
  acyclic E → spans N E → size N ≤ S fuel → is_Some (cte_reachable fuel E D).
Proof.
  intros HE HN Hsz. apply (cte_iter_terminates E D N 0); [done|done|lia|apply cte_base_level|].
  intros a x n. rewrite (cte_base_level E D a x n).
  split; intros (? & ? & ?); split_and!; done || lia.
Qed.

(** A path of every length into [D] (a cycle above a group of [D]): the
    query never ends, whatever the fuel. *)
Lemma cte_iter_diverges E D k fuel work acc :
  (∀ n, ∃ a x, x ∈ D ∧ path E a n x) →
  level E D (S k) work → upto E D (S k) acc → cte_iter fuel E work acc = None.
Proof.
  intros Hall. revert k work acc.
  induction fuel as [|fuel IH]; intros k work acc Hw Ha; simpl.
  all: rewrite decide_False by
    (intros ->; destruct (Hall (S k)) as (a & x & Hx & Hp);
     pose proof (level_empty _ _ _ Hw _ _ _ Hx Hp); lia).
  { done. }
  pose proof (cte_step_level _ _ _ _ Hw) as Hw'.
  rewrite (level_new _ _ _ _ _ Hw' Ha). apply (IH (S k)); [done|].
  by apply upto_extend.
Qed.

Lemma cte_reachable_diverges E D fuel :
  (∀ n, ∃ a x, x ∈ D ∧ path E a n x) → cte_reachable fuel E D = None.
Proof.
  intros Hall. apply (cte_iter_diverges E D 0); [done|apply cte_base_level|].
  intros a x n. rewrite (cte_base_level E D a x n).
  split; intros (? & ? & ?); split_and!; done || lia.
Qed.
End cte.

(** ** What each write does to the table *)

Section writes.
Context {N : gset uuid} {E : edges} {L : lineage_table} (Hok : lineage_ok N E L).

Lemma lineage_ok_insert x :
  x ∉ N → lineage_ok ({[x]} ∪ N) E (<[(x, x) := 0]> L).
Proof.
  intros Hx. destruct Hok as [Hsp Hac Hs Hc]. split; [|done|..].
  - intros a b He. destruct (Hsp a b He). set_solver.
  - intros a b n. rewrite lookup_insert. case_decide as Hd.
    + intros [= <-]. simplify_eq. split; [set_solver|constructor].
    + intros [? ?]%Hs. split; [set_solver|done].
  - intros a b n Ha Hp. rewrite lookup_insert. case_decide as Hd.
    + simplify_eq. exists 0. split; [done|lia].
    + apply elem_of_union in Ha as [->%elem_of_singleton|Ha]; [|by eapply Hc].
      destruct n as [|n]; [apply path_0 in Hp as ->; done|].
      by destruct Hx; eapply path_source.
Qed.

Lemma lineage_ok_add p c :
  p ∈ N → c ∈ N → L !! (c, p) = None →
  lineage_ok N ({[(p, c)]} ∪ E) (upsert_least (cross_rows p c L) L).
Proof.
  intros Hp Hc Hcp.
  assert (¬ reach E c p) as Hnr.
  { intros Hr. assert (is_Some (L !! (c, p))) as [? ?] by (by apply (lok_reach Hok)).
    congruence. }
  split.
  - intros a b [He%elem_of_singleton|He]%elem_of_union; [by simplify_eq|].
    by apply (lok_spans _ _ _ Hok).
  - apply acyclic_add; [apply Hok|done].
  - intros a x n [HL|(i & j & Hi & Hj & ->)%elem_of_cross_rows]%upsert_least_sound.
    + apply (lok_sound _ _ _ Hok) in HL as [? ?]. split; [done|].
      eapply path_mono; [|done]. set_solver.
    + apply (lok_sound _ _ _ Hok) in Hi as [? Hi]. apply (lok_sound _ _ _ Hok) in Hj as [_ Hj].
      split; [done|by apply path_add_through].
  - intros a x n Ha [Hpath|(i & j & Hi & Hj & ->)]%path_add; [..|done].
    + destruct (lok_complete _ _ _ Hok _ _ _ Ha Hpath) as (m & HL & ?).
      destruct (upsert_least_old (cross_rows p c L) _ _ _ HL) as (m' & ? & ?).
      exists m'. split; [done|lia].
    + destruct (lok_complete _ _ _ Hok _ _ _ Ha Hi) as (mi & HLi & ?).
      destruct (lok_complete _ _ _ Hok _ _ _ Hc Hj) as (mj & HLj & ?).
      destruct (upsert_least_new (cross_rows p c L) L (a, x) (mi + mj + 1)) as (m & ? & ?).
      { apply elem_of_cross_rows. eauto. }
      exists m. split; [done|lia].
Qed.

(** The lineage rows remove_group_relationship deletes before rebuilding. *)
Definition stale_rows_removed (D : gset uuid) : lineage_table :=
  filter (λ kv : uuid * uuid * nat, ¬ (kv.1.2 ∈ D ∧ kv.1.1 ≠ kv.1.2)) L.

Lemma elem_of_lineage_descendants c x :
  c ∈ N → x ∈ lineage_descendants L c ↔ reach E c x.
Proof.
  intros Hc. unfold lineage_descendants. rewrite elem_of_map. split.
  - intros ([c' x'] & ? & [? [n Hn]%elem_of_dom]%elem_of_filter). simpl in *. simplify_eq.
    by apply (lok_reach Hok).
  - intros Hr. exists (c, x). split; [done|]. apply elem_of_filter.
    split; [done|]. apply elem_of_dom. by apply (lok_reach Hok).
Qed.

Lemma stale_rows_removed_lookup D a x n :
  stale_rows_removed D !! (a, x) = Some n ↔
  L !! (a, x) = Some n ∧ (x ∈ D → a = x).
Proof.
  unfold stale_rows_removed. rewrite map_lookup_filter_Some. simpl.
  split; intros [? Hd]; (split; [done|]); destruct (decide (a = x)); naive_solver.
Qed.

Lemma has_self_row_true D x :
  x ∈ N → has_self_row (stale_rows_removed D) x = true.
Proof.
  intros Hx. apply bool_decide_eq_true. intros Hemp.
  assert (filter (λ kv : uuid * uuid * nat, kv.1.2 = x ∧ kv.2 = 0)
            (stale_rows_removed D) !! (x, x) = Some 0) as Hl; [|by rewrite Hemp in Hl].
  apply map_lookup_filter_Some. split; [|done].
  apply stale_rows_removed_lookup. split; [by apply (lok_refl Hok)|done].
Qed.

Lemma distinct_on_least_sound rows a x n :
  ((a, x), n) ∈ distinct_on_least rows → ((a, x), n) ∈ rows.
Proof. unfold distinct_on_least. set_solver. Qed.

Lemma distinct_on_least_complete rows (a x : uuid) n :
  ((a, x), n) ∈ rows → ∃ m, ((a, x), m) ∈ distinct_on_least rows ∧ m ≤ n.
Proof.
  induction n as [n IH] using lt_wf_ind. intros Hr.
  destruct (decide (set_Forall (λ r', r'.1 = (a, x) → n ≤ r'.2) rows)) as [Hf|Hf].
  - exists n. split; [|done]. apply elem_of_filter. done.
  - apply not_set_Forall_Exists in Hf; [|apply _].
    destruct Hf as ([[a' x'] m] & Hm & Hlt). simpl in Hlt.
    assert ((a', x') = (a, x) ∧ m < n) as [? ?].
    { destruct (decide ((a', x') = (a, x))); [|naive_solver].
      split; [done|]. destruct (decide (n ≤ m)); [naive_solver|lia]. }
    simplify_eq. destruct (IH m) as (k & ? & ?); [lia|done|].
    exists k. split; [done|lia].
Qed.

Lemma lineage_ok_remove p c rows :
  (p, c) ∈ E →
  let D := lineage_descendants L c in
  let E' := E ∖ {[(p, c)]} in
  cte_reachable (size N) E' D = Some rows →
  lineage_ok N E'
    (upsert_least (elements (distinct_on_least
       (filter (λ r : uuid * uuid * nat, has_self_row (stale_rows_removed D) r.1.2 = true) rows)))
       (stale_rows_removed D)).
Proof.
  intros He D E' Hrows.
  destruct (lok_spans _ _ _ Hok _ _ He) as [HpN HcN].
  assert (spans N E') as Hsp'.
  { intros a b Hab. apply (lok_spans _ _ _ Hok). set_solver. }
  pose proof (cte_reachable_result _ _ _ _ Hrows) as Hcte.
  split; [done| |..].
  - eapply acyclic_mono; [|apply Hok]. set_solver.
  - intros a x n [Hl|Hr]%upsert_least_sound.
    + apply stale_rows_removed_lookup in Hl as [Hl Hself].
      destruct (lok_sound _ _ _ Hok _ _ _ Hl) as [Ha Hpath]. split; [done|].
      destruct (decide (x ∈ D)) as [Hx|Hx].
      * rewrite (Hself Hx) in Hl |- *. rewrite (lok_self Hok _ _ Hl). constructor.
      * destruct (path_del E p c a n x Hpath) as [?|Hcx]; [done|].
        by destruct Hx; apply elem_of_lineage_descendants.
    + apply elem_of_elements, distinct_on_least_sound, elem_of_filter in Hr as [_ Hr].
      apply Hcte in Hr as (Hx & ? & Hpath). split; [|done].
      destruct n as [|n]; [lia|]. by eapply path_source.
  - intros a x n Ha Hpath. pose proof (path_del_mono _ _ _ _ _ _ Hpath) as Hold.
    destruct (lok_complete _ _ _ Hok _ _ _ Ha Hold) as (m & HL & Hle).
    destruct (decide (x ∈ D ∧ n ≠ 0)) as [[Hx Hn]|Hx].
    + destruct (distinct_on_least_complete (filter (λ r : uuid * uuid * nat,
        has_self_row (stale_rows_removed D) r.1.2 = true) rows) a x n) as (k & Hk & ?).
      { apply elem_of_filter. split.
        - by apply has_self_row_true, (path_target _ _ _ _ _ Hsp' Ha Hpath).
        - apply Hcte. split_and!; done || lia. }
      destruct (upsert_least_new (elements (distinct_on_least (filter (λ r : uuid * uuid * nat,
        has_self_row (stale_rows_removed D) r.1.2 = true) rows)))
        (stale_rows_removed D) (a, x) k) as (k' & ? & ?); [by apply elem_of_elements|].
      exists k'. split; [done|lia].
    + assert (stale_rows_removed D !! (a, x) = Some m) as Hm.
      { apply stale_rows_removed_lookup. split; [done|]. intros HxD.
        destruct (decide (n = 0)) as [->|]; [by apply path_0 in Hpath|by destruct Hx]. }
      destruct (upsert_least_old (elements (distinct_on_least (filter
        (λ r : uuid * uuid * nat, has_self_row (stale_rows_removed D) r.1.2 = true) rows)))
        _ _ _ Hm) as (k & ? & ?).
      exists k. split; [done|lia].
Qed.

Lemma cte_remove_terminates p c D :
  is_Some (cte_reachable (size N) (E ∖ {[(p, c)]}) D).
Proof.
  apply (cte_reachable_terminates _ _ N); [| |lia].
  - eapply acyclic_mono; [|apply Hok]. set_solver.
  - intros a b Hab. apply (lok_spans _ _ _ Hok). set_solver.
Qed.

(** Deleting groups: the cascade keeps the table exact as soon as no
    surviving group is below a deleted one (or, symmetrically, above). *)
Lemma lineage_ok_delete gone :
  (∀ g y, g ∈ gone → (g, y) ∈ E → y ∈ gone) →
  lineage_ok (N ∖ gone)
    (filter (λ e : uuid * uuid, (e.1 ∉ gone) ∧ e.2 ∉ gone) E)
    (filter (λ kv : uuid * uuid * nat, (kv.1.1 ∉ gone) ∧ kv.1.2 ∉ gone) L).
Proof.
  intros Hdown.
  assert (∀ a n x, path E a n x → a ∈ gone → x ∈ gone) as Hgone.
  { intros a n x Hp. induction Hp; eauto. }
  assert (∀ a n x, path E a n x → x ∉ gone →
    path (filter (λ e : uuid * uuid, (e.1 ∉ gone) ∧ e.2 ∉ gone) E) a n x) as Hkeep.
  { intros a n x Hp Hx. induction Hp as [a|a b n x He Hp IH]; [constructor|].
    econstructor; [|by apply IH]. apply elem_of_filter. simpl. naive_solver. }
  split.
  - intros a b [[Ha Hb] He]%elem_of_filter. simpl in *.
    destruct (lok_spans _ _ _ Hok _ _ He). set_solver.
  - eapply acyclic_mono; [|apply Hok]. set_solver.
  - intros a x n [HL [Ha Hx]]%map_lookup_filter_Some. simpl in *.
    destruct (lok_sound _ _ _ Hok _ _ _ HL). split; [set_solver|by apply Hkeep].
  - intros a x n [Ha Hg]%elem_of_difference Hp.
    assert (path E a n x) as Hp' by (eapply path_mono; [|done]; set_solver).
    destruct (lok_complete _ _ _ Hok _ _ _ Ha Hp') as (m & HL & ?).
    exists m. split; [|done]. apply map_lookup_filter_Some. simpl. split_and!; [done..|].
    clear -Hp Hg. induction Hp as [|a b n c He _ IH]; [done|].
    apply IH. by apply elem_of_filter in He as [[_ ?] _].
Qed.
End writes.
