(* ===== verification/GroupService.v ===== *)
(** * The group services

    One definition per function of app/services/groups/{_helpers,crud,
    hierarchy,membership,idp}.py: guards, statements and audit events in the
    order of the code.  [RequestingUser.tenant_id] is the tenant of the
    state.  Metadata keeps the keys the code logs. *)

From S2P Require Import Prelude Graph GroupDb.

Definition not_found {A} (code : string) : M db A := raise (ServiceError NotFoundError code).
Definition forbidden {A} (code : string) : M db A := raise (ServiceError ForbiddenError code).
Definition invalid {A} (code : string) : M db A := raise (ServiceError ValidationError code).
Definition conflict {A} (code : string) : M db A := raise (ServiceError ConflictError code).

(** ** _helpers.py *)

Definition _is_idp_group (g : group_row) : bool := bool_decide (g_group_type g = idp).

Definition _require_not_idp_group (g : group_row) : M db () :=
  raise_if (_is_idp_group g) (ServiceError ForbiddenError "idp_group_readonly").

Definition _idp_source_ref (g : group_row) : option (idp_source * uuid) :=
  if _is_idp_group g then
    match g_idp_id g, g_oidc_connection_id g with
    | Some i, _ => Some (saml, i)
    | None, Some i => Some (oidc, i)
    | None, None => None
    end
  else None.

Definition _is_idp_umbrella_group (d : db) (x : uuid) (g : group_row) : bool :=
  match _idp_source_ref g with
  | None => false
  | Some (src, provider_id) =>
      bool_decide (get_idp_base_group_id d provider_id src = Some x)
  end.

Definition _is_idp_managed_relationship (d : db) (parent child : group_detail) : bool :=
  match _idp_source_ref (gd_row parent), _idp_source_ref (gd_row child) with
  | Some pr, Some cr =>
      bool_decide (pr = cr) && _is_idp_umbrella_group d (gd_id parent) (gd_row parent)
  | _, _ => false
  end.

(** [parent and child and _is_idp_managed_relationship(...)] of remove_child. *)
Definition managed_pair (d : db) (parent child : option group_detail) : bool :=
  match parent, child with
  | Some g, Some h => _is_idp_managed_relationship d g h
  | _, _ => false
  end.

Definition relationship_metadata (parent child : uuid) (pname cname : option string) :
    list (string * meta) :=
  [("parent_group_id", MId parent);
   ("parent_group_name", from_option MStr MNull pname);
   ("child_group_id", MId child);
   ("child_group_name", from_option MStr MNull cname)].

Definition gd_name (g : group_detail) : string := g_name (gd_row g).

Section services.
Context `{Collation} `{UuidGen}.

(** [get_group_by_id], or the given error when there is no such group. *)
Definition require_group (x : uuid) (code : string) : M db group_detail :=
  g ← gets (λ d, get_group_by_id d x);
  some_or g (ServiceError NotFoundError code).

(** ** hierarchy.py *)

Definition list_parents (u : requesting_user) (x : uuid) : M db (list relation_row) :=
  _ ← require_admin u;
  _ ← track_activity (ru_id u);
  _ ← require_group x "group_not_found";
  gets (λ d, get_group_parents d x).

Definition list_children (u : requesting_user) (x : uuid) : M db (list relation_row) :=
  _ ← require_admin u;
  _ ← track_activity (ru_id u);
  _ ← require_group x "group_not_found";
  gets (λ d, get_group_children d x).

Definition add_child (u : requesting_user) (p c : uuid) : M db () :=
  _ ← require_admin u;
  _ ← raise_if (bool_decide (p = c)) (ServiceError ValidationError "self_reference");
  parent ← require_group p "parent_not_found";
  child ← require_group c "child_not_found";
  umbrella ← gets (λ d, _is_idp_umbrella_group d (gd_id parent) (gd_row parent));
  _ ← raise_if (_is_idp_group (gd_row parent) && negb umbrella)
        (ServiceError ValidationError "idp_cannot_be_parent");
  exists_ ← gets (λ d, relationship_exists d p c);
  _ ← raise_if exists_ (ServiceError ConflictError "relationship_exists");
  cycle ← gets (λ d, would_create_cycle d p c);
  _ ← raise_if cycle (ServiceError ValidationError "would_create_cycle");
  _ ← add_group_relationship p c;
  log_event (Some (ru_id u)) "group_relationship" p "group_relationship_created"
    (relationship_metadata p c (Some (gd_name parent)) (Some (gd_name child))).

Definition log_relationship_deleted (u : requesting_user) (p c : uuid)
    (pname cname : option string) : M db () :=
  log_event (Some (ru_id u)) "group_relationship" p "group_relationship_deleted"
    (relationship_metadata p c pname cname).

(** One iteration of a loop of remove_all_relationships: [other] is the row
    of the other end; [managed] tells whether the IdP manages the edge. *)
Definition remove_one (u : requesting_user) (p c : uuid) (pname cname : string)
    (other : uuid) (managed : db → group_detail → bool) : M db nat :=
  skip ← gets (λ d, match get_group_by_id d other with
                    | Some o => managed d o
                    | None => false
                    end);
  if (skip : bool) then mret 0
  else
    n ← remove_group_relationship p c;
    if decide (0 < n) then
      _ ← log_relationship_deleted u p c (Some pname) (Some cname); mret 1
    else mret 0.

Definition remove_all_relationships (u : requesting_user) (x : uuid) : M db nat :=
  _ ← require_admin u;
  g ← require_group x "group_not_found";
  parents ← gets (λ d, get_group_parents d x);
  children ← gets (λ d, get_group_children d x);
  n ← for_sum (λ r, remove_one u (rr_group_id r) x (rr_name r) (gd_name g) (rr_group_id r)
                      (λ d o, _is_idp_managed_relationship d o g)) parents;
  k ← for_sum (λ r, remove_one u x (rr_group_id r) (gd_name g) (rr_name r) (rr_group_id r)
                      (λ d o, _is_idp_managed_relationship d g o)) children;
  mret (n + k).

Definition remove_child (u : requesting_user) (p c : uuid) : M db () :=
  _ ← require_admin u;
  parent ← gets (λ d, get_group_by_id d p);
  child ← gets (λ d, get_group_by_id d c);
  managed ← gets (λ d, managed_pair d parent child);
  _ ← raise_if managed (ServiceError ForbiddenError "idp_managed_relationship");
  n ← remove_group_relationship p c;
  _ ← raise_if (bool_decide (n = 0)) (ServiceError NotFoundError "relationship_not_found");
  log_relationship_deleted u p c (gd_name <$> parent) (gd_name <$> child).

(** ** crud.py *)

Definition get_group (u : requesting_user) (x : uuid) : M db group_detail :=
  _ ← require_admin u;
  _ ← track_activity (ru_id u);
  require_group x "group_not_found".

(** [group_data.acronym.strip() if group_data.acronym else None]. *)
Definition strip_acronym (a : option string) : option string :=
  match a with Some "" | None => None | Some a => Some (py_strip a) end.

Definition svc_create_group (u : requesting_user) (name0 : string)
    (description acronym0 : option string) : M db group_detail :=
  _ ← require_admin u;
  let name := py_strip name0 in
  _ ← raise_if (bool_decide (name = "")) (ServiceError ValidationError "name_required");
  taken ← gets (λ d, bool_decide (is_Some (get_weftid_group_by_name d name)));
  _ ← raise_if taken (ServiceError ValidationError "group_name_exists");
  let acronym := strip_acronym acronym0 in
  x ← create_group name description acronym (Some (ru_id u));
  _ ← log_event (Some (ru_id u)) "group" x "group_created"
        (("name", MStr name) ::
         match blank_to_null acronym with Some a => [("acronym", MStr a)] | None => [] end);
  row ← gets (λ d, get_group_by_id d x);
  some_or row (ServiceError ValidationError "fetch_failed").

(** The [changes] dict of update_group: per changed field, old and new. *)
Definition update_changes (g : group_row) (name description acronym : option string) :
    list (string * option string * option string) :=
  (match name with
   | Some n => if decide (n ≠ g_name g) then [("name", Some (g_name g), Some n)] else []
   | None => []
   end) ++
  (match description with
   | Some s => [("description", g_description g, Some s)]
   | None => []
   end) ++
  (match acronym with
   | Some a =>
       let new := blank_to_null (Some (py_strip a)) in
       if decide (new ≠ g_acronym g) then [("acronym", g_acronym g, new)] else []
   | None => []
   end).

Definition svc_update_group (u : requesting_user) (x : uuid)
    (name0 description acronym0 : option string) : M db group_detail :=
  _ ← require_admin u;
  existing ← require_group x "group_not_found";
  _ ← _require_not_idp_group (gd_row existing);
  let name := py_strip <$> name0 in
  _ ← raise_if (bool_decide (name = Some "")) (ServiceError ValidationError "name_required");
  taken ← gets (λ d, match name with
                     | Some n => bool_decide (n ≠ gd_name existing ∧
                                              is_Some (get_weftid_group_by_name d n))
                     | None => false
                     end);
  _ ← raise_if taken (ServiceError ValidationError "group_name_exists");
  let acronym := (λ a, blank_to_null (Some (py_strip a))) <$> acronym0 in
  _ ← update_group x name description acronym;
  _ ← log_event (Some (ru_id u)) "group" x "group_updated"
        (match update_changes (gd_row existing) name description acronym0 with
         | [] => []
         | changes => [("changes", MChanges changes)]
         end);
  row ← gets (λ d, get_group_by_id d x);
  some_or row (ServiceError NotFoundError "group_not_found").

Definition svc_delete_group (u : requesting_user) (x : uuid) : M db () :=
  _ ← require_admin u;
  existing ← require_group x "group_not_found";
  _ ← raise_if (_is_idp_group (gd_row existing) && g_is_valid (gd_row existing))
        (ServiceError ForbiddenError "idp_group_active");
  parents ← gets (λ d, get_group_parents d x);
  children ← gets (λ d, get_group_children d x);
  _ ← raise_if (bool_decide (parents ≠ [] ∨ children ≠ []))
        (ServiceError ValidationError "has_relationships");
  _ ← delete_group_row x;
  log_event (Some (ru_id u)) "group" x "group_deleted" [("name", MStr (gd_name existing))].

(** ** membership.py *)

Definition user_exists (d : db) (u : uuid) : bool := bool_decide (u ∈ users d).

Definition member_metadata (g : uuid) (name : string) (u : uuid) : list (string * meta) :=
  [("group_id", MId g); ("group_name", MStr name); ("user_id", MId u)].

Definition add_member (u : requesting_user) (g x : uuid) : M db () :=
  _ ← require_admin u;
  group ← require_group g "group_not_found";
  _ ← _require_not_idp_group (gd_row group);
  known ← gets (λ d, user_exists d x);
  _ ← raise_if (negb known) (ServiceError NotFoundError "user_not_found");
  already ← gets (λ d, is_group_member d g x);
  _ ← raise_if already (ServiceError ConflictError "already_member");
  _ ← add_group_member g x;
  log_event (Some (ru_id u)) "group_membership" g "group_member_added"
    (member_metadata g (gd_name group) x).

Definition remove_member (u : requesting_user) (g x : uuid) : M db () :=
  _ ← require_admin u;
  group ← require_group g "group_not_found";
  _ ← _require_not_idp_group (gd_row group);
  n ← remove_group_member g x;
  _ ← raise_if (bool_decide (n = 0)) (ServiceError NotFoundError "not_a_member");
  log_event (Some (ru_id u)) "group_membership" g "group_member_removed"
    (member_metadata g (gd_name group) x).

Definition bulk_metadata (name : string) (n : nat) (us : list uuid) : list (string * meta) :=
  [("group_name", MStr name); ("count", MNat n); ("user_ids", MIds us)].

Definition bulk_add_members (u : requesting_user) (g : uuid) (us : list uuid) : M db nat :=
  _ ← require_admin u;
  group ← require_group g "group_not_found";
  _ ← _require_not_idp_group (gd_row group);
  n ← bulk_add_group_members g us;
  _ ← when (bool_decide (0 < n))
        (log_event (Some (ru_id u)) "group_membership" g "group_members_bulk_added"
           (bulk_metadata (gd_name group) n us));
  mret n.

Definition bulk_remove_members (u : requesting_user) (g : uuid) (us : list uuid) : M db nat :=
  _ ← require_admin u;
  group ← require_group g "group_not_found";
  _ ← _require_not_idp_group (gd_row group);
  n ← bulk_remove_group_members g us;
  _ ← when (bool_decide (0 < n))
        (log_event (Some (ru_id u)) "group_membership" g "group_members_bulk_removed"
           (bulk_metadata (gd_name group) n us));
  mret n.

(** One iteration of bulk_add_user_to_groups: the name of the group the user
    was added to, or nothing when the group is missing, IdP-managed, or
    already has the member. *)
Definition try_add_to_group (x g : uuid) : M db (option string) :=
  group ← gets (λ d, get_group_by_id d g);
  match group with
  | None => mret None
  | Some h =>
      if _is_idp_group (gd_row h) then mret None
      else
        already ← gets (λ d, is_group_member d g x);
        if (already : bool) then mret None
        else _ ← add_group_member g x; mret (Some (gd_name h))
  end.

Definition svc_bulk_add_user_to_groups (u : requesting_user) (x : uuid) (gs : list uuid) :
    M db nat :=
  _ ← require_admin u;
  known ← gets (λ d, user_exists d x);
  _ ← raise_if (negb known) (ServiceError NotFoundError "user_not_found");
  added ← for_map (try_add_to_group x) gs;
  let names := omap id added in
  _ ← when (bool_decide (0 < length names))
        (log_event (Some (ru_id u)) "user" x "user_groups_bulk_added"
           [("count", MNat (length names)); ("group_names", MStrs names)]);
  mret (length names).

(** ** idp.py *)

Definition source_name (src : idp_source) : string :=
  match src with saml => "saml" | oidc => "oidc" end.

(** The f-strings of the group descriptions. *)
Definition base_group_description (idp_name : string) : string :=
  "This group was created automatically when setting up " +:+ idp_name +:+ ". " +:+
  "It contains every user who authenticates through this identity provider. " +:+
  "Groups reported by the IdP during authentication appear as children of this group.".
Definition synced_group_description (idp_name : string) : string :=
  "This group is synced from " +:+ idp_name +:+ ". " +:+
  "Membership is managed automatically whenever a user authenticates " +:+
  "through the identity provider.".

Definition idp_group_metadata (idp_id : uuid) (idp_name : string) (src : idp_source)
    (name : string) : list (string * meta) :=
  [("idp_id", MId idp_id); ("idp_name", MStr idp_name);
   ("idp_source", MStr (source_name src)); ("group_name", MStr name)].

Definition create_idp_base_group (idp_id : uuid) (idp_name : string) (src : idp_source) :
    M db group_detail :=
  taken ← gets (λ d, bool_decide (is_Some (get_group_by_idp_and_name d idp_id idp_name src)));
  _ ← raise_if taken (ServiceError ConflictError "group_name_exists");
  x ← create_idp_group idp_id idp_name (Some (base_group_description idp_name)) src;
  _ ← log_event None "group" x "idp_group_created"
        (idp_group_metadata idp_id idp_name src idp_name);
  row ← gets (λ d, get_group_by_id d x);
  some_or row (ServiceError ValidationError "fetch_failed").

Definition get_idp_base_group (d : db) (idp_id : uuid) (src : idp_source) :
    option group_detail :=
  x ← get_idp_base_group_id d idp_id src; get_group_by_id d x.

Definition _ensure_umbrella_relationship (idp_id : uuid) (idp_name : string) (g : uuid)
    (src : idp_source) : M db () :=
  base ← gets (λ d, get_idp_base_group_id d idp_id src);
  match base with
  | None => mret ()
  | Some b =>
      wired ← gets (λ d, relationship_exists d b g);
      if (wired : bool) then mret ()
      else
        _ ← add_group_relationship b g;
        log_event None "group_relationship" b "idp_group_relationship_created"
          [("idp_id", MId idp_id); ("idp_name", MStr idp_name);
           ("idp_source", MStr (source_name src));
           ("parent_group_id", MId b); ("child_group_id", MId g)]
  end.

(** The id of the group, and whether it was created. *)
Definition get_or_create_idp_group (idp_id : uuid) (idp_name name : string)
    (src : idp_source) : M db (uuid * bool) :=
  existing ← gets (λ d, get_group_by_idp_and_name d idp_id name src);
  match existing with
  | Some g =>
      _ ← _ensure_umbrella_relationship idp_id idp_name g src;
      mret (g, false)
  | None =>
      g ← create_idp_group idp_id name (Some (synced_group_description idp_name)) src;
      _ ← log_event None "group" g "idp_group_discovered"
            (idp_group_metadata idp_id idp_name src name);
      _ ← _ensure_umbrella_relationship idp_id idp_name g src;
      mret (g, true)
  end.

(** [group["name"] if group else "Unknown"]. *)
Definition group_name_or_unknown (d : db) (g : uuid) : string :=
  default "Unknown" (gd_name <$> get_group_by_id d g).

Definition sync_metadata (u : uuid) (email : string) (idp_id : uuid) (idp_name : string)
    (src : idp_source) (g : uuid) (name sync_source : string) : list (string * meta) :=
  [("idp_id", MId idp_id); ("idp_name", MStr idp_name);
   ("idp_source", MStr (source_name src)); ("user_id", MId u);
   ("user_email", MStr email); ("group_id", MId g); ("group_name", MStr name);
   ("sync_source", MStr sync_source)].

Definition apply_membership_additions (u : uuid) (email : string) (idp_id : uuid)
    (idp_name : string) (gs : gset uuid) (sync_source : string) (src : idp_source) :
    M db (list string) :=
  if decide (gs = ∅) then mret []
  else
    _ ← bulk_add_user_to_groups u (elements gs);
    for_map (λ g,
      name ← gets (λ d, group_name_or_unknown d g);
      _ ← log_event None "group_membership" g "idp_group_member_added"
            (sync_metadata u email idp_id idp_name src g name sync_source);
      mret name) (elements gs).

Definition apply_membership_removals (u : uuid) (email : string) (idp_id : uuid)
    (idp_name : string) (gs : gset uuid) (sync_source : string) (src : idp_source) :
    M db (list string) :=
  if decide (gs = ∅) then mret []
  else
    named ← for_map (λ g, name ← gets (λ d, group_name_or_unknown d g); mret (g, name))
              (elements gs);
    _ ← bulk_remove_user_from_groups u (elements gs);
    for_map (λ gn : uuid * string,
      _ ← log_event None "group_membership" gn.1 "idp_group_member_removed"
            (sync_metadata u email idp_id idp_name src gn.1 gn.2 sync_source);
      mret gn.2) named.

Record sync_result := mk_sync_result {
  sr_added : list string; sr_removed : list string; sr_created : list string;
}.

Definition sync_user_idp_groups (u : uuid) (email : string) (idp_id : uuid)
    (idp_name : string) (names : list string) (src : idp_source) (sync_source : string) :
    M db sync_result :=
  current0 ← gets (λ d, get_user_idp_group_ids d u idp_id src);
  infos ← for_map (λ name, r ← get_or_create_idp_group idp_id idp_name name src;
                           mret (name, r)) names;
  let target : gset uuid := list_to_set ((λ i : string * (uuid * bool), i.2.1) <$> infos) in
  let created := omap (λ i : string * (uuid * bool), if i.2.2 then Some i.1 else None) infos in
  base ← gets (λ d, get_idp_base_group_id d idp_id src);
  let current := match base with Some b => current0 ∖ {[b]} | None => current0 end in
  added ← apply_membership_additions u email idp_id idp_name (target ∖ current) sync_source src;
  removed ← apply_membership_removals u email idp_id idp_name (current ∖ target) sync_source src;
  mret (mk_sync_result added removed created).

Definition invalidate_idp_groups (idp_id : uuid) (idp_name : string) (src : idp_source) :
    M db nat :=
  gs ← gets (λ d, get_groups_by_idp d idp_id src);
  match gs with
  | [] => mret 0
  | _ =>
      _ ← for_each (λ kv : uuid * group_row,
            log_event None "group" kv.1 "idp_group_invalidated"
              (idp_group_metadata idp_id idp_name src (g_name kv.2) ++
               [("reason", MStr "idp_deleted")])) gs;
      delete_groups_by_idp idp_id src
  end.

Definition _get_or_create_base_group_id (idp_id : uuid) (idp_name : string)
    (src : idp_source) : M db uuid :=
  base ← gets (λ d, get_idp_base_group_id d idp_id src);
  match base with
  | Some b => mret b
  | None => λ d,
      match create_idp_base_group idp_id idp_name src d with
      | (Ok g, d') => (Ok (gd_id g), d')
      | (Raise (ServiceError ConflictError _), d') =>
          match get_idp_base_group_id d' idp_id src with
          | Some b => (Ok b, d')
          | None => (Raise (ServiceError ValidationError "base_group_creation_failed"), d')
          end
      | (Raise e, d') => (Raise e, d')
      end
  end.

Definition ensure_user_in_base_group (u : uuid) (email : string) (idp_id : uuid)
    (idp_name : string) (src : idp_source) : M db () :=
  b ← _get_or_create_base_group_id idp_id idp_name src;
  already ← gets (λ d, is_group_member d b u);
  if (already : bool) then mret ()
  else
    _ ← bulk_add_user_to_groups u [b];
    log_event None "group_membership" b "idp_group_member_added"
      (sync_metadata u email idp_id idp_name src b idp_name "idp_assignment").

Definition rename_idp_base_group (idp_id : uuid) (old_name new_name : string)
    (src : idp_source) : M db bool :=
  if decide (old_name = new_name) then mret false
  else
    existing ← gets (λ d, get_group_by_idp_and_name d idp_id old_name src);
    match existing with
    | None => mret false
    | Some g =>
        _ ← update_group g (Some new_name) None None;
        _ ← log_event None "group" g "idp_group_renamed"
              [("idp_id", MId idp_id); ("idp_source", MStr (source_name src));
               ("old_name", MStr old_name); ("new_name", MStr new_name)];
        mret true
    end.

(** The reassignment events carry no [idp_source]. *)
Definition reassign_metadata (idp_id : uuid) (idp_name : string) (u : uuid)
    (email : option string) (g : uuid) (name : option string) (sync_source : string) :
    list (string * meta) :=
  [("idp_id", MId idp_id); ("idp_name", MStr idp_name); ("user_id", MId u)] ++
  match email with Some e => [("user_email", MStr e)] | None => [] end ++
  [("group_id", MId g)] ++
  match name with Some n => [("group_name", MStr n)] | None => [] end ++
  [("sync_source", MStr sync_source)].

Definition remove_user_from_base_group (u : uuid) (email : string) (idp_id : uuid)
    (idp_name : string) : M db () :=
  base ← gets (λ d, get_idp_base_group_id d idp_id saml);
  match base with
  | None => mret ()
  | Some b =>
      _ ← bulk_remove_user_from_groups u [b];
      log_event None "group_membership" b "idp_group_member_removed"
        (reassign_metadata idp_id idp_name u (Some email) b (Some idp_name)
           "idp_reassignment")
  end.

Definition ensure_users_in_base_group (us : list uuid) (idp_id : uuid) (idp_name : string) :
    M db nat :=
  match us with
  | [] => mret 0
  | _ =>
      b ← _get_or_create_base_group_id idp_id idp_name saml;
      for_sum (λ u,
        added ← bulk_add_user_to_groups u [b];
        _ ← when (bool_decide (added ≠ 0))
              (log_event None "group_membership" b "idp_group_member_added"
                 (reassign_metadata idp_id idp_name u None b (Some idp_name)
                    "idp_assignment"));
        mret added) us
  end.

Definition remove_user_from_all_idp_groups (u : uuid) (email : string) (idp_id : uuid)
    (idp_name : string) : M db () :=
  gs ← gets (λ d, get_user_idp_group_ids d u idp_id saml);
  if decide (gs = ∅) then mret ()
  else
    named ← for_map (λ g, name ← gets (λ d, group_name_or_unknown d g); mret (g, name))
              (elements gs);
    _ ← bulk_remove_user_from_groups u (elements gs);
    for_each (λ gn : uuid * string,
      log_event None "group_membership" gn.1 "idp_group_member_removed"
        (reassign_metadata idp_id idp_name u (Some email) gn.1 (Some gn.2)
           "idp_reassignment")) named.

Definition move_one (old_idp_id : uuid) (old_idp_name : string) (u : uuid) : M db () :=
  gs ← gets (λ d, get_user_idp_group_ids d u old_idp_id saml);
  if decide (gs = ∅) then mret ()
  else
    _ ← bulk_remove_user_from_groups u (elements gs);
    for_each (λ g,
      log_event None "group_membership" g "idp_group_member_removed"
        (reassign_metadata old_idp_id old_idp_name u None g None "idp_reassignment"))
      (elements gs).

Definition move_users_between_idps (us : list uuid) (old_idp_id : uuid)
    (old_idp_name : string) (new_idp_id : uuid) (new_idp_name : string) : M db () :=
  _ ← for_each (move_one old_idp_id old_idp_name) us;
  _ ← ensure_users_in_base_group us new_idp_id new_idp_name;
  mret ().

Definition list_groups_for_idp (u : requesting_user) (idp_id : uuid) :
    M db (list (uuid * group_row)) :=
  _ ← require_admin u;
  _ ← track_activity (ru_id u);
  gets (λ d, get_groups_by_idp d idp_id saml).

(** ** services/saml/providers.py and services/oidc_upstream/connections.py

    The rename of a provider, which both services offer in their update
    call; the other columns they update are not modelled.  The SAML service
    leaves the groups alone; the OIDC service renames the base group. *)

Definition update_provider_name (idp_id : uuid) (name : string) (src : idp_source) :
    M db () := modify (set_providers (insert (src, idp_id) name)).

Definition update_identity_provider (u : requesting_user) (idp_id : uuid) (name : string) :
    M db () :=
  _ ← require_super_admin u;
  _ ← track_activity (ru_id u);
  existing ← gets (λ d, providers d !! (saml, idp_id));
  _ ← some_or existing (ServiceError NotFoundError "idp_not_found");
  _ ← update_provider_name idp_id name saml;
  log_event (Some (ru_id u)) "saml_identity_provider" idp_id "saml_idp_updated"
    [("updated_fields", MStrs ["name"])].
End services.
