(* ===== verification/AppAccess.v ===== *)
(** * Which app a user may open

    The grant rows of app/database/sp_group_assignments.py, the resolver the
    SAML, forward-auth and OIDC sign-in paths share, the effective-membership
    queries of app/database/groups/effective.py, and the assignment service
    app/services/service_providers/group_assignments.py. *)

From S2P Require Import Prelude Graph GroupDb GroupService.

(** ** database/sp_group_assignments.py *)

Abbreviation app := (app_kind * uuid)%type.

(** [insert] without a conflict clause: a duplicate is a unique violation. *)
Definition create_assignment (sp_id g : uuid) : M db bool :=
  d ← gets id;
  _ ← raise_if (bool_decide (((sp, sp_id), g) ∈ assignments d))
        (IntegrityError "uq_sp_group_assignment");
  _ ← raise_if (bool_decide (apps d !! (sp, sp_id) = None))
        (IntegrityError "sp_group_assignments_sp_id_fkey");
  _ ← raise_if (bool_decide (groups d !! g = None))
        (IntegrityError "sp_group_assignments_group_id_fkey");
  _ ← modify (set_assignments (λ A, {[((sp, sp_id), g)]} ∪ A));
  mret true.

Definition delete_assignment (sp_id g : uuid) : M db nat :=
  update (λ d, ((if decide (((sp, sp_id), g) ∈ assignments d) then 1 else 0),
                set_assignments (λ A, A ∖ {[((sp, sp_id), g)]}) d)).

(** One statement with [on conflict do nothing]. *)
Definition bulk_create_assignments (sp_id : uuid) (gs : list uuid) : M db nat :=
  match gs with
  | [] => mret 0
  | _ =>
      d ← gets id;
      _ ← raise_if (bool_decide (apps d !! (sp, sp_id) = None))
            (IntegrityError "sp_group_assignments_sp_id_fkey");
      _ ← raise_if (bool_decide (Exists (λ g, groups d !! g = None) gs))
            (IntegrityError "sp_group_assignments_group_id_fkey");
      let new := (list_to_set ((λ g, ((sp, sp_id), g)) <$> gs) : gset (app * uuid))
                   ∖ assignments d in
      _ ← modify (set_assignments (λ A, new ∪ A));
      mret (size new)
  end.

(** The join of memberships, lineage and assignments. *)
Definition group_grants (d : db) (k : app) (u : uuid) : bool :=
  bool_decide (set_Exists (λ m : uuid * uuid, m.2 = u ∧
    set_Exists (λ a : app * uuid, a.1 = k ∧ is_Some (lineage d !! (a.2, m.1)))
      (assignments d)) (memberships d)).

Definition app_open_to_all (d : db) (k : app) : bool :=
  match apps d !! k with Some a => app_available_to_all a | None => false end.

Definition user_can_access_app (d : db) (u : uuid) (app_id : uuid) (kind : app_kind) : bool :=
  app_open_to_all d (kind, app_id) || group_grants d (kind, app_id) u.

Definition user_can_access_sp (d : db) (u sp_id : uuid) : bool :=
  user_can_access_app d u sp_id sp.
Definition user_can_access_proxy_app (d : db) (u proxy_app_id : uuid) : bool :=
  user_can_access_app d u proxy_app_id proxy_app.
Definition user_can_access_oauth2_client (d : db) (u client_uuid : uuid) : bool :=
  user_can_access_app d u client_uuid oauth2_client.

(** The two branches of the union of get_accessible_sps_for_user: the group
    branch and the available_to_all branch, over enabled trusted SPs. *)
Definition listed_sp (d : db) (u : uuid) (kv : app * app_row) : bool :=
  bool_decide (kv.1.1 = sp) && app_enabled kv.2 && app_trust_established kv.2 &&
  (group_grants d kv.1 u || app_available_to_all kv.2).

Definition get_accessible_sps_for_user `{Collation} (d : db) (u : uuid) :
    list (uuid * string) :=
  order_by_name snd
    ((λ kv : app * app_row, (kv.1.2, app_name kv.2)) <$>
     filter (λ kv, listed_sp d u kv = true) (map_to_list (apps d))).

Definition listed_proxy_app (d : db) (u : uuid) (kv : app * app_row) : bool :=
  bool_decide (kv.1.1 = proxy_app) && app_enabled kv.2 &&
  (group_grants d kv.1 u || app_available_to_all kv.2).

Definition get_accessible_proxy_apps_for_user `{Collation} (d : db) (u : uuid) :
    list (uuid * string) :=
  order_by_name snd
    ((λ kv : app * app_row, (kv.1.2, app_name kv.2)) <$>
     filter (λ kv, listed_proxy_app d u kv = true) (map_to_list (apps d))).

(** ** database/groups/effective.py *)

Definition direct_groups (d : db) (u : uuid) : gset uuid :=
  set_map (λ m : uuid * uuid, m.1) (filter (λ m : uuid * uuid, m.2 = u) (memberships d)).

(** [select gl.ancestor_id from direct_groups dg join group_lineage gl on
    gl.descendant_id = dg.group_id where gl.depth > 0]. *)
Definition inherited_groups (d : db) (u : uuid) : gset uuid :=
  set_map (λ k : uuid * uuid, k.1)
    (dom (filter (λ kv : uuid * uuid * nat, kv.1.2 ∈ direct_groups d u ∧ 0 < kv.2)
            (lineage d)) : gset (uuid * uuid)).

(** [effective_groups]: the union of the two. *)
Definition effective_groups (d : db) (u : uuid) : gset uuid :=
  direct_groups d u ∪ inherited_groups d u.

Record membership_row := mk_membership_row {
  mr_group_id : uuid;
  mr_name : string;
  mr_is_direct : bool;
}.

(** [join groups g on d.group_id = g.id]. *)
Definition membership_row_of (d : db) (u g : uuid) : option membership_row :=
  r ← groups d !! g;
  Some (mk_membership_row g (g_name r) (bool_decide (g ∈ direct_groups d u))).

(** [order by d.is_direct desc, g.name]. *)
Definition direct_first `{Collation} (x y : membership_row) : Prop :=
  if mr_is_direct x then
    if mr_is_direct y then by_name mr_name x y else True
  else
    if mr_is_direct y then False else by_name mr_name x y.
#[export] Instance direct_first_dec `{Collation} : RelDecision direct_first.
Proof. intros x y. unfold direct_first. repeat case_match; apply _. Defined.

Definition get_effective_memberships `{Collation} (d : db) (u : uuid) : list membership_row :=
  merge_sort direct_first
    (omap (membership_row_of d u) (elements (effective_groups d u))).

Definition group_names `{Collation} (d : db) (gs : gset uuid) : list string :=
  order_by_name id (omap (λ g, g_name <$> groups d !! g) (elements gs)).

Definition get_effective_group_names `{Collation} (d : db) (u : uuid) : list string :=
  group_names d (effective_groups d u).

(** [gl.ancestor_id = a and gl.descendant_id = g and gl.depth > 0]. *)
Definition above (d : db) (a g : uuid) : bool :=
  match lineage d !! (a, g) with Some n => bool_decide (0 < n) | None => false end.

(** A trunk group has no other effective group above it. *)
Definition trunk_groups (d : db) (u : uuid) : gset uuid :=
  let eff := effective_groups d u in
  filter (λ g, ¬ set_Exists (λ a, a ≠ g ∧ above d a g = true) eff) eff.

Definition get_trunk_group_names `{Collation} (d : db) (u : uuid) : list string :=
  group_names d (trunk_groups d u).

(** The effective groups that are assigned to the app or below an assigned one. *)
Definition assigned_groups (d : db) (k : app) : gset uuid :=
  set_map (λ a : app * uuid, a.2) (filter (λ a : app * uuid, a.1 = k) (assignments d)).

Definition access_relevant_groups (d : db) (u : uuid) (k : app) : gset uuid :=
  let asg := assigned_groups d k in
  filter (λ g, g ∈ asg ∨ set_Exists (λ a, above d a g = true) asg) (effective_groups d u).

Definition get_access_relevant_group_names `{Collation} (d : db) (u sp_id : uuid) :
    list string :=
  group_names d (access_relevant_groups d u (sp, sp_id)).

(** ** services/service_providers/group_assignments.py *)

Section assignment_service.
Context `{Collation} `{UuidGen}.

Definition require_sp (sp_id : uuid) : M db app_row :=
  a ← gets (λ d, apps d !! (sp, sp_id));
  some_or a (ServiceError NotFoundError "sp_not_found").

Definition assign_sp_to_group (u : requesting_user) (sp_id g : uuid) : M db () :=
  _ ← require_admin u;
  s ← require_sp sp_id;
  group ← require_group g "group_not_found";
  created ← create_assignment sp_id g;
  _ ← raise_if (negb created) (ServiceError ConflictError "sp_group_already_assigned");
  log_event (Some (ru_id u)) "service_provider" sp_id "sp_group_assigned"
    [("group_id", MId g); ("group_name", MStr (gd_name group)); ("sp_name", MStr (app_name s))].

Definition remove_sp_group_assignment (u : requesting_user) (sp_id g : uuid) : M db () :=
  _ ← require_admin u;
  s ← require_sp sp_id;
  n ← delete_assignment sp_id g;
  _ ← raise_if (bool_decide (n = 0))
        (ServiceError NotFoundError "sp_group_assignment_not_found");
  log_event (Some (ru_id u)) "service_provider" sp_id "sp_group_unassigned"
    [("group_id", MId g); ("sp_name", MStr (app_name s))].

Definition bulk_assign_sp_to_groups (u : requesting_user) (sp_id : uuid) (gs : list uuid) :
    M db nat :=
  _ ← require_admin u;
  s ← require_sp sp_id;
  _ ← for_each (λ g, _ ← require_group g "group_not_found"; mret ()) gs;
  n ← bulk_create_assignments sp_id gs;
  _ ← when (bool_decide (0 < n))
        (log_event (Some (ru_id u)) "service_provider" sp_id "sp_groups_bulk_assigned"
           [("group_ids", MIds gs); ("count", MNat n); ("sp_name", MStr (app_name s))]);
  mret n.
End assignment_service.
