(* ===== verification/GroupProofs.v ===== *)
(** * What the group services guarantee *)

From S2P Require Import Prelude Graph GroupDb GroupLineage GroupService AppAccess.

(** ** Statements that keep the hierarchy *)

Section keeps_closed.
Context `{Collation} `{UuidGen}.

Lemma keeps_closed_modify f :
  (∀ d, groups (f d) = groups d ∧ relationships (f d) = relationships d ∧
        lineage (f d) = lineage d) →
  keeps closed (modify f).
Proof.
  intros Hf. apply keeps_modify. intros d Hd. destruct (Hf d) as (HG & HE & HL).
  unfold closed. by rewrite HG, HE, HL.
Qed.

Lemma keeps_closed_update {A} (f : db → A * db) :
  (∀ d, groups (f d).2 = groups d ∧ relationships (f d).2 = relationships d ∧
        lineage (f d).2 = lineage d) →
  keeps closed (update f).
Proof.
  intros Hf d Hd. rewrite run_update. destruct (Hf d) as (HG & HE & HL).
  unfold closed. simpl. by rewrite HG, HE, HL.
Qed.

Lemma keeps_closed_log_event a t i e m : keeps closed (log_event a t i e m).
Proof. by apply keeps_closed_modify. Qed.

Lemma keeps_closed_set_memberships f : keeps closed (modify (set_memberships f)).
Proof. by apply keeps_closed_modify. Qed.

Lemma keeps_closed_track_activity u : keeps closed (track_activity u).
Proof. by apply keeps_closed_modify. Qed.

Lemma keeps_closed_require_group x code : keeps closed (require_group x code).
Proof. unfold require_group. keeps_auto. Qed.
End keeps_closed.
#[export] Hint Resolve keeps_closed_log_event keeps_closed_set_memberships keeps_closed_track_activity
  keeps_closed_require_group : keeps.

(** The columns of a group are checked before anything is written. *)
Lemma run_check_group_row_bind {B} g (f : () → M db B) d :
  (check_group_row g ≫= f) d = match group_column_error g with Some e => (Raise e, d) | None => f () d end.
Proof. unfold check_group_row. by destruct (group_column_error g). Qed.
#[export] Hint Rewrite @run_check_group_row_bind : run.
Lemma keeps_check_group_row (I : db → Prop) g : keeps I (check_group_row g).
Proof. unfold check_group_row. destruct (group_column_error g); [apply keeps_raise|apply keeps_ret]. Qed.
#[export] Hint Resolve keeps_check_group_row : keeps.

Section keeps_closed_statements.
Context `{Collation} `{UuidGen}.

Lemma keeps_closed_insert_membership g u : keeps closed (insert_membership g u).
Proof.
  unfold insert_membership. keeps_auto.
Qed.
Lemma keeps_closed_delete_membership g u : keeps closed (delete_membership g u).
Proof. by apply keeps_closed_update. Qed.

Lemma keeps_closed_insert_group g : keeps closed (insert_group g).
Proof.
  apply keeps_transaction. intros d Hd. run. destruct (group_column_error g); [done|]. run.
  run_case; [done|]. run_case; [done|]. simpl.
  unfold closed. simpl. rewrite dom_insert_L.
  apply lineage_ok_insert; [done|]. rewrite not_elem_of_dom.
  apply bool_decide_eq_false in E. by apply eq_None_not_Some.
Qed.

Lemma closed_add_group_relationship p c d :
  closed d → lineage d !! (c, p) = None →
  closed (add_group_relationship p c d).2.
Proof.
  intros Hd Hcp. unfold add_group_relationship, transaction.
  rewrite run_gets_bind. case_decide; [done|].
  run. do 3 (run_case; [done|]). simpl.
  apply bool_decide_eq_false in E0, E1.
  apply lineage_ok_add; [done|..|done]; apply elem_of_dom; by apply not_eq_None_Some.
Qed.

Lemma keeps_closed_remove_group_relationship p c :
  keeps closed (remove_group_relationship p c).
Proof.
  intros d Hd. unfold remove_group_relationship, transaction. run.
  case_decide as Hin; [done|]. run.
  assert (c ∈ dom (groups d)) as Hc by (by destruct (lok_spans _ _ _ Hd _ _ Hin)).
  rewrite decide_False.
  2:{ intros Hemp. assert (c ∈ lineage_descendants (lineage d) c) as Hcc; [|set_solver].
      apply (elem_of_lineage_descendants Hd); [done|apply reach_refl]. }
  run. unfold cte_fuel. simpl.
  destruct (cte_reachable _ _ _) as [rows|] eqn:Hrows; [|done]. run.
  eapply lineage_ok_remove; [done..|].
  by rewrite size_dom.
Qed.

Lemma keeps_closed_update_group x n s a : keeps closed (update_group x n s a).
Proof.
  unfold update_group. case_decide; [auto with keeps|].
  intros d Hd. run. destruct (groups d !! x) as [g|] eqn:Hg; [|done].
  run. run_case; [done|]. run. run_case; [done|]. simpl. unfold closed. simpl.
  rewrite dom_insert_lookup_L; [done|by eexists].
Qed.
End keeps_closed_statements.
#[export] Hint Resolve keeps_closed_insert_membership keeps_closed_delete_membership
  keeps_closed_insert_group keeps_closed_remove_group_relationship
  keeps_closed_update_group : keeps.

(** ** Listings of the edges *)

Section listings.
Context `{Collation}.

Lemma elem_of_get_group_parents d x r :
  r ∈ get_group_parents d x ↔
  ∃ y, (y, x) ∈ relationships d ∧ relation_row_of d y = Some r.
Proof.
  unfold get_group_parents. rewrite elem_of_order_by_name, list_elem_of_omap. split.
  - intros ([y x'] & [? ?]%elem_of_elements%elem_of_filter & Hr). simpl in *. subst. eauto.
  - intros (y & He & Hr). exists (y, x). split; [|done].
    by apply elem_of_elements, elem_of_filter.
Qed.

Lemma elem_of_get_group_children d x r :
  r ∈ get_group_children d x ↔
  ∃ y, (x, y) ∈ relationships d ∧ relation_row_of d y = Some r.
Proof.
  unfold get_group_children. rewrite elem_of_order_by_name, list_elem_of_omap. split.
  - intros ([x' y] & [? ?]%elem_of_elements%elem_of_filter & Hr). simpl in *. subst. eauto.
  - intros (y & He & Hr). exists (x, y). split; [|done].
    by apply elem_of_elements, elem_of_filter.
Qed.

Lemma relation_row_of_id d y r : relation_row_of d y = Some r → rr_group_id r = y.
Proof. unfold relation_row_of. intros. by destruct (groups d !! y); simplify_eq/=. Qed.

Lemma relation_row_of_exists d y :
  y ∈ dom (groups d) → ∃ r, relation_row_of d y = Some r.
Proof. intros [g Hg]%elem_of_dom. unfold relation_row_of. rewrite Hg. by eexists. Qed.

(** The edges the loops of remove_all_relationships walk. *)
Lemma parent_rows_edges d x e :
  closed d →
  e ∈ (λ r, (rr_group_id r, x)) <$> get_group_parents d x ↔
  e ∈ relationships d ∧ e.2 = x.
Proof.
  intros Hd. rewrite list_elem_of_fmap. destruct e as [p c]. simpl. split.
  - intros (r & [= -> ->] & (y & He & Hr)%elem_of_get_group_parents).
    by rewrite (relation_row_of_id _ _ _ Hr).
  - intros [He ->]. destruct (lok_spans _ _ _ Hd _ _ He) as [Hp _].
    destruct (relation_row_of_exists d p Hp) as [r Hr]. exists r.
    rewrite (relation_row_of_id _ _ _ Hr), elem_of_get_group_parents. eauto.
Qed.

Lemma child_rows_edges d x e :
  closed d →
  e ∈ (λ r, (x, rr_group_id r)) <$> get_group_children d x ↔
  e ∈ relationships d ∧ e.1 = x.
Proof.
  intros Hd. rewrite list_elem_of_fmap. destruct e as [p c]. simpl. split.
  - intros (r & [= -> ->] & (y & He & Hr)%elem_of_get_group_children).
    by rewrite (relation_row_of_id _ _ _ Hr).
  - intros [He ->]. destruct (lok_spans _ _ _ Hd _ _ He) as [_ Hc].
    destruct (relation_row_of_exists d c Hc) as [r Hr]. exists r.
    rewrite (relation_row_of_id _ _ _ Hr), elem_of_get_group_children. eauto.
Qed.

Lemma no_parents d x :
  closed d → get_group_parents d x = [] → ∀ y, (y, x) ∉ relationships d.
Proof.
  intros Hd Hnil y He. destruct (lok_spans _ _ _ Hd _ _ He) as [Hy _].
  destruct (relation_row_of_exists d y Hy) as [r Hr].
  assert (r ∈ get_group_parents d x) as Hin by (apply elem_of_get_group_parents; eauto).
  rewrite Hnil in Hin. by apply not_elem_of_nil in Hin.
Qed.

Lemma no_children d x :
  closed d → get_group_children d x = [] → ∀ y, (x, y) ∉ relationships d.
Proof.
  intros Hd Hnil y He. destruct (lok_spans _ _ _ Hd _ _ He) as [_ Hy].
  destruct (relation_row_of_exists d y Hy) as [r Hr].
  assert (r ∈ get_group_children d x) as Hin by (apply elem_of_get_group_children; eauto).
  rewrite Hnil in Hin. by apply not_elem_of_nil in Hin.
Qed.
End listings.

(** ** The administrator's calls *)

(** Deleting a set of groups whose children are all deleted with them. *)
Lemma closed_delete_cascade gone d :
  closed d → (∀ g y, g ∈ gone → (g, y) ∈ relationships d → y ∈ gone) →
  closed (delete_cascade gone d).
Proof.
  intros Hd Hdown. unfold closed, delete_cascade. simpl.
  pose proof (lineage_ok_delete Hd gone Hdown) as Hok.
  assert (dom (filter (λ kv : uuid * group_row, kv.1 ∉ gone) (groups d)) =
          dom (groups d) ∖ gone) as ->; [|done].
  apply set_eq. intros x. rewrite elem_of_difference, !elem_of_dom. split.
  - intros [g [? ?]%map_lookup_filter_Some]. split; [by exists g|done].
  - intros [[g Hg] Hx]. exists g. by apply map_lookup_filter_Some.
Qed.

Section admin_calls.
Context `{Collation} `{UuidGen}.

Lemma keeps_closed_add_child u p c : keeps closed (add_child u p c).
Proof.
  intros d Hd. unfold add_child, require_admin, require_group. run.
  run_case; [done|]. run. run_case; [done|]. run.
  run_case; [|done]. run. run_case; [|done]. run.
  run_case; [done|]. run. run_case; [done|]. run. run_case; [done|].
  assert (closed (add_group_relationship p c d).2) as Hadd.
  { apply closed_add_group_relationship; [done|].
    by apply bool_decide_eq_false, eq_None_not_Some in E5. }
  rewrite run_bind. destruct (add_group_relationship p c d) as [[b|e] d']; [|done].
  by apply keeps_closed_log_event.
Qed.

Lemma keeps_closed_remove_child u p c : keeps closed (remove_child u p c).
Proof. unfold remove_child, log_relationship_deleted. keeps_auto. Qed.

Lemma keeps_closed_remove_one u p c pn cn o m : keeps closed (remove_one u p c pn cn o m).
Proof. unfold remove_one, log_relationship_deleted. keeps_auto. Qed.

Lemma keeps_closed_remove_all u x : keeps closed (remove_all_relationships u x).
Proof.
  unfold remove_all_relationships. keeps_auto; apply keeps_closed_remove_one.
Qed.

Lemma keeps_closed_delete_group u x : keeps closed (svc_delete_group u x).
Proof.
  intros d Hd. unfold svc_delete_group, require_admin, require_group. run.
  run_case; [done|]. run. run_case; [|done]. run. run_case; [done|]. run.
  run_case; [done|]. unfold delete_group_row. run.
  apply bool_decide_eq_false, Decidable.not_or in E2 as [Hp%dec_stable Hc%dec_stable].
  apply keeps_closed_log_event, closed_delete_cascade; [done|].
  intros x0 y ->%elem_of_singleton He. by edestruct (no_children d x).
Qed.

Lemma keeps_closed_memberships :
  (∀ u g x, keeps closed (add_member u g x)) ∧
  (∀ u g x, keeps closed (remove_member u g x)) ∧
  (∀ u g us, keeps closed (bulk_add_members u g us)) ∧
  (∀ u g us, keeps closed (bulk_remove_members u g us)) ∧
  (∀ u x gs, keeps closed (svc_bulk_add_user_to_groups u x gs)).
Proof.
  unfold add_member, remove_member, bulk_add_members, bulk_remove_members,
    svc_bulk_add_user_to_groups, try_add_to_group, add_group_member, remove_group_member,
    bulk_add_group_members, bulk_remove_group_members, _require_not_idp_group.
  split_and!; keeps_auto.
Qed.

Lemma keeps_closed_set_assignments f : keeps closed (modify (set_assignments f)).
Proof. by apply keeps_closed_modify. Qed.
Hint Resolve keeps_closed_set_assignments : keeps.

Lemma keeps_closed_delete_assignment i g : keeps closed (delete_assignment i g).
Proof. by apply keeps_closed_update. Qed.
Hint Resolve keeps_closed_delete_assignment : keeps.

Lemma keeps_closed_assignments :
  (∀ u i g, keeps closed (assign_sp_to_group u i g)) ∧
  (∀ u i g, keeps closed (remove_sp_group_assignment u i g)) ∧
  (∀ u i gs, keeps closed (bulk_assign_sp_to_groups u i gs)).
Proof.
  unfold assign_sp_to_group, remove_sp_group_assignment, bulk_assign_sp_to_groups,
    require_sp, create_assignment, bulk_create_assignments.
  split_and!; keeps_auto.
Qed.

Lemma keeps_closed_create_group u n s a : keeps closed (svc_create_group u n s a).
Proof. unfold svc_create_group, create_group. keeps_auto. Qed.

Lemma keeps_closed_svc_update_group u x n s a : keeps closed (svc_update_group u x n s a).
Proof. unfold svc_update_group, _require_not_idp_group. keeps_auto. Qed.
End admin_calls.

(** ** Histories of administrator calls *)

(** The writes of services/groups/{crud,hierarchy,membership}.py and of
    services/service_providers/group_assignments.py. *)
Inductive group_call :=
  | CallCreate (name : string) (description acronym : option string)
  | CallUpdate (x : uuid) (name description acronym : option string)
  | CallDelete (x : uuid)
  | CallAddChild (p c : uuid)
  | CallRemoveChild (p c : uuid)
  | CallRemoveAll (x : uuid)
  | CallAddMember (g x : uuid)
  | CallRemoveMember (g x : uuid)
  | CallBulkAdd (g : uuid) (us : list uuid)
  | CallBulkRemove (g : uuid) (us : list uuid)
  | CallBulkUserToGroups (x : uuid) (gs : list uuid)
  | CallAssign (sp_id g : uuid)
  | CallUnassign (sp_id g : uuid)
  | CallBulkAssign (sp_id : uuid) (gs : list uuid).

Definition discard {A} (m : M db A) : M db () := _ ← m; mret ().

Definition run_call `{Collation} `{UuidGen} (u : requesting_user) (k : group_call) : M db () :=
  match k with
  | CallCreate n s a => discard (svc_create_group u n s a)
  | CallUpdate x n s a => discard (svc_update_group u x n s a)
  | CallDelete x => svc_delete_group u x
  | CallAddChild p c => add_child u p c
  | CallRemoveChild p c => remove_child u p c
  | CallRemoveAll x => discard (remove_all_relationships u x)
  | CallAddMember g x => add_member u g x
  | CallRemoveMember g x => remove_member u g x
  | CallBulkAdd g us => discard (bulk_add_members u g us)
  | CallBulkRemove g us => discard (bulk_remove_members u g us)
  | CallBulkUserToGroups x gs => discard (svc_bulk_add_user_to_groups u x gs)
  | CallAssign i g => assign_sp_to_group u i g
  | CallUnassign i g => remove_sp_group_assignment u i g
  | CallBulkAssign i gs => discard (bulk_assign_sp_to_groups u i gs)
  end.

(** The state after a history of calls, each by some user; a call that raises
    leaves the state it reached. *)
Fixpoint run_history `{Collation} `{UuidGen} (h : list (requesting_user * group_call))
    (d : db) : db :=
  match h with
  | [] => d
  | (u, k) :: h => run_history h (run_call u k d).2
  end.

(** A tenant before its first group. *)
Definition no_groups (d : db) : Prop :=
  groups d = ∅ ∧ relationships d = ∅ ∧ lineage d = ∅.

Section history.
Context `{Collation} `{UuidGen}.

Lemma keeps_closed_run_call u k : keeps closed (run_call u k).
Proof.
  destruct keeps_closed_memberships as (? & ? & ? & ? & ?).
  destruct keeps_closed_assignments as (? & ? & ?).
  destruct k; simpl; unfold discard;
    eauto using keeps_closed_add_child, keeps_closed_remove_child, keeps_closed_delete_group;
    apply keeps_bind; eauto using keeps_closed_create_group, keeps_closed_svc_update_group,
      keeps_closed_remove_all with keeps.
Qed.

Lemma closed_no_groups d : no_groups d → closed d.
Proof.
  intros (HG & HE & HL). unfold closed. rewrite HG, HE, HL. split.
  - intros a b ?. set_solver.
  - intros a n (b & ? & _)%path_uncons. set_solver.
  - done.
  - intros a x n Ha. set_solver.
Qed.

Lemma closed_run_history h d : closed d → closed (run_history h d).
Proof.
  revert d. induction h as [|[u k] h IH]; intros d Hd; simpl; [done|].
  by apply IH, keeps_closed_run_call.
Qed.


(** ** add_child *)

Definition may_be_parent (d : db) (p : uuid) : Prop :=
  ∃ g, groups d !! p = Some g ∧
    (g_group_type g ≠ idp ∨ _is_idp_umbrella_group d p g = true).

(** [add_child] succeeds exactly when the caller is an administrator,
    both groups exist and differ, the parent may have children, the edge is
    new and no chain leads from the child back to the parent. *)
Theorem add_child_succeeds_iff u p c d :
  closed d →
  is_ok (add_child u p c d).1 = true ↔
  (ru_role u = admin ∨ ru_role u = super_admin) ∧ p ≠ c ∧
  may_be_parent d p ∧ is_Some (groups d !! c) ∧
  (p, c) ∉ relationships d ∧ ¬ reach (relationships d) c p.
Proof.
  intros Hd. unfold add_child, require_admin, require_group, may_be_parent. run.
  unfold get_group_by_id at 1.
  run_case; [split; [done|]|].
  { intros ([Hr|Hr] & _); apply bool_decide_eq_true in E as [? ?]; congruence. }
  apply bool_decide_eq_false in E.
  run. run_case; [split; [done|]|].
  { apply bool_decide_eq_true in E0. naive_solver. }
  apply bool_decide_eq_false in E0. run.
  destruct (groups d !! p) as [g|] eqn:Hp; simpl; [|split; [done|naive_solver]]. run.
  unfold get_group_by_id at 1.
  destruct (groups d !! c) as [g'|] eqn:Hc; simpl;
    [|split; [done|intros (_ & _ & _ & [? ?] & _); done]]. run.
  unfold _is_idp_group.
  run_case; [split; [done|]|].
  { apply andb_true_iff in E1 as [?%bool_decide_eq_true ?%negb_true_iff].
    intros (_ & _ & (g'' & ? & [?|?]) & _); simplify_eq; congruence. }
  run. unfold relationship_exists. run_case; [split; [done|]|].
  { apply bool_decide_eq_true in E2. naive_solver. }
  apply bool_decide_eq_false in E2.
  run. unfold would_create_cycle. run_case; [split; [done|]|].
  { apply bool_decide_eq_true, (lok_reach Hd) in E3 as [_ ?]. naive_solver. }
  apply bool_decide_eq_false in E3.
  assert (add_group_relationship p c d =
    (Ok true, set_lineage (λ L, upsert_least (cross_rows p c L) L)
               (set_relationships (λ E, {[(p, c)]} ∪ E) d))) as Hadd.
  { unfold add_group_relationship, transaction. rewrite run_gets_bind.
    rewrite decide_False by done. run.
    rewrite bool_decide_eq_false_2 by done. run.
    by rewrite Hp, Hc. }
  rewrite run_bind, Hadd. simpl. split; [intros _|done].
  split_and!; try done.
  - destruct (ru_role u); [|by left|by right]. destruct E; done.
  - exists g. split; [done|].
    apply andb_false_iff in E1 as [?%bool_decide_eq_false|?%negb_false_iff]; auto.
  - intros Hr. destruct E3. apply (lok_reach Hd). split; [|done].
    by apply elem_of_dom.
Qed.
End history.

(** ** Removing edges *)

(** [d'] is [d] with the edge set [E'] and some closure table. *)
Definition with_edges (d : db) (E' : edges) (d' : db) : Prop :=
  ∃ L', d' = set_lineage (λ _, L') (set_relationships (λ _, E') d).

Section removal.
Context `{Collation} `{UuidGen}.

(** The statement never diverges on an exact closure table. *)
Lemma remove_group_relationship_result p c d :
  closed d →
  ∃ d', remove_group_relationship p c d =
          (Ok (if decide ((p, c) ∈ relationships d) then 1 else 0), d') ∧
        with_edges d (relationships d ∖ {[(p, c)]}) d' ∧ closed d'.
Proof.
  intros Hd. pose proof (keeps_closed_remove_group_relationship p c d Hd) as Hcl.
  unfold remove_group_relationship, transaction in *. revert Hcl. run.
  case_decide as Hin; intros Hcl.
  - rewrite decide_False by done. eexists. split_and!; [done| |done].
    exists (lineage d). destruct d; simpl in *. unfold set_lineage, set_relationships; simpl. f_equal.
    apply set_eq. set_solver.
  - rewrite decide_True by done. revert Hcl. run.
    assert (c ∈ dom (groups d)) as Hc by (by destruct (lok_spans _ _ _ Hd _ _ Hin)).
    rewrite decide_False.
    2:{ intros Hemp. assert (c ∈ lineage_descendants (lineage d) c) as Hcc; [|set_solver].
        apply (elem_of_lineage_descendants Hd); [done|apply reach_refl]. }
    run. unfold cte_fuel. simpl. rewrite <- size_dom.
    destruct (cte_remove_terminates Hd p c (lineage_descendants (lineage d) c)) as [rows Hrows].
    rewrite Hrows. run. intros Hcl. eexists. split_and!; [done| |done].
    by eexists.
Qed.

Lemma with_edges_closed_parts d E' d' :
  with_edges d E' d' →
  groups d' = groups d ∧ providers d' = providers d ∧ relationships d' = E' ∧
  memberships d' = memberships d ∧ events d' = events d.
Proof. by intros [L' ->]. Qed.

(** The IdP manages the edge between these two groups (or both lack). *)
Definition managed_edge (d : db) (p c : uuid) : bool :=
  managed_pair d (get_group_by_id d p) (get_group_by_id d c).

(** On an exact closure table [remove_child] always finishes: it removes
    the edge and nothing else and keeps the table exact, or it raises
    without touching the state. *)
Theorem remove_child_outcome u p c d :
  closed d →
  is_admin u →
  let r := remove_child u p c d in
  if managed_edge d p c then
    r = (Raise (ServiceError ForbiddenError "idp_managed_relationship"), d)
  else if decide ((p, c) ∈ relationships d) then
    r.1 = Ok () ∧ closed r.2 ∧ groups r.2 = groups d ∧ memberships r.2 = memberships d ∧
    relationships r.2 = relationships d ∖ {[(p, c)]}
  else
    r.1 = Raise (ServiceError NotFoundError "relationship_not_found") ∧
    closed r.2 ∧ relationships r.2 = relationships d ∧ events r.2 = events d.
Proof.
  intros Hd Hu. unfold remove_child. simpl.
  destruct (remove_group_relationship_result p c d Hd) as (d' & Hr & Hw & Hcl).
  apply with_edges_closed_parts in Hw as (HG & _ & HE & HM & HV).
  rewrite run_require_admin_bind by done. run.
  fold (managed_edge d p c). destruct (managed_edge d p c); [done|].
  rewrite run_bind, Hr. case_decide as Hin; simpl; split_and!; try done.
  rewrite HE. apply set_eq. set_solver.
Qed.
End removal.

(** ** Removing every edge of a group *)

Section remove_all.
Context `{Collation} `{UuidGen}.

(** What the loops of remove_all_relationships leave alone. *)
Definition frame (d s : db) : Prop :=
  closed s ∧ groups s = groups d ∧ providers s = providers d ∧
  memberships s = memberships d.

Lemma is_managed_ext d s g h g' h' :
  groups s = groups d → providers s = providers d →
  gd_id g' = gd_id g → gd_row g' = gd_row g → gd_row h' = gd_row h →
  _is_idp_managed_relationship s g' h' = _is_idp_managed_relationship d g h.
Proof.
  intros HG HP Hi Hg Hh.
  unfold _is_idp_managed_relationship, _is_idp_umbrella_group, get_idp_base_group_id, find_group.
  by rewrite HG, HP, Hi, Hg, Hh.
Qed.

Lemma get_group_by_id_Some d x g :
  groups d !! x = Some g →
  ∃ gd, get_group_by_id d x = Some gd ∧ gd_id gd = x ∧ gd_row gd = g.
Proof. intros Hx. unfold get_group_by_id. rewrite Hx. by eexists. Qed.
Lemma get_group_by_id_None d x : groups d !! x = None → get_group_by_id d x = None.
Proof. intros Hx. unfold get_group_by_id. by rewrite Hx. Qed.

Lemma managed_skip d s x gd y (swap : bool) :
  frame d s → get_group_by_id d x = Some gd →
  match get_group_by_id s y with
  | Some o => if swap then _is_idp_managed_relationship s gd o
              else _is_idp_managed_relationship s o gd
  | None => false
  end = if swap then managed_edge d x y else managed_edge d y x.
Proof.
  intros (_ & HG & HP & _) Hgd. unfold managed_edge. rewrite Hgd. unfold managed_pair.
  destruct (groups d !! y) as [g|] eqn:Hy.
  - destruct (get_group_by_id_Some d y g Hy) as (o & -> & Ho1 & Ho2).
    rewrite <- HG in Hy.
    destruct (get_group_by_id_Some s y g Hy) as (o' & -> & Ho1' & Ho2').
    destruct swap; apply is_managed_ext; congruence.
  - rewrite (get_group_by_id_None d y) by done.
    rewrite (get_group_by_id_None s y) by (by rewrite HG). by destruct swap.
Qed.

(** One iteration, for an edge [(p, c)] whose other end is [o]. *)
Lemma remove_one_outcome d s u p c pn cn o man b :
  frame d s →
  match get_group_by_id s o with Some g => man s g | None => false end = b →
  ∃ s', remove_one u p c pn cn o man s =
          (Ok (if b : bool then 0 else if decide ((p, c) ∈ relationships s) then 1 else 0), s') ∧
        frame d s' ∧
        relationships s' = if b then relationships s else relationships s ∖ {[(p, c)]}.
Proof.
  intros (Hcl & HG & HP & HM) Hb. unfold remove_one. run. rewrite Hb.
  destruct b; [by exists s|].
  destruct (remove_group_relationship_result p c s Hcl) as (s' & Hr & Hw & Hcl').
  apply with_edges_closed_parts in Hw as (HG' & HP' & HE' & HM' & _).
  rewrite run_bind, Hr.
  assert (frame d s') as Hf by (split_and!; [done|congruence..]).
  case_decide; simpl; run; eexists; split_and!; try done; by rewrite HE'.
Qed.

(** A loop of such iterations removes the unmanaged edges of its rows and
    counts them. *)
Lemma remove_loop d (f : relation_row → M db nat) (e : relation_row → uuid * uuid)
    (man : uuid * uuid → bool) l :
  (∀ r s, frame d s → ∃ s',
     f r s = (Ok (if man (e r) then 0
                  else if decide (e r ∈ relationships s) then 1 else 0), s') ∧
     frame d s' ∧
     relationships s' = if man (e r) then relationships s else relationships s ∖ {[e r]}) →
  ∀ s, frame d s → ∃ n s',
    for_sum f l s = (Ok n, s') ∧ frame d s' ∧
    size (relationships s') + n = size (relationships s) ∧
    ∀ ed, ed ∈ relationships s' ↔
          ed ∈ relationships s ∧ (ed ∈ (e <$> l) → man ed = true).
Proof.
  intros Hf. induction l as [|r l IH]; intros s Hs; simpl.
  - exists 0, s. split_and!; [done..|lia|]. set_solver.
  - destruct (Hf r s Hs) as (s1 & Hr1 & Hf1 & HE1).
    destruct (IH s1 Hf1) as (n & s2 & Hr2 & Hf2 & Hsz & HE2).
    rewrite run_bind, Hr1. simpl. rewrite run_bind, Hr2. simpl.
    eexists _, s2. split; [done|]. split; [done|].
    setoid_rewrite HE2. setoid_rewrite elem_of_cons. rewrite HE1 in Hsz |- *.
    destruct (man (e r)) eqn:Hman; [split; [done|naive_solver]|].
    split.
    + case_decide as Hin.
      * rewrite size_difference in Hsz by set_solver. rewrite size_singleton in Hsz.
        assert (size (relationships s) ≠ 0); [|lia].
        intros Hz%size_empty_inv. set_solver.
      * rewrite difference_disjoint_L in Hsz by set_solver. done.
    + intros ed. rewrite elem_of_difference, elem_of_singleton.
      destruct (decide (ed = e r)) as [->|]; naive_solver congruence.
Qed.

(** [remove_all_relationships] always finishes on an exact closure table:
    it removes every edge at the group that the IdP does not manage, removes
    nothing else, returns their number and keeps the table exact. *)
Theorem remove_all_relationships_outcome u x d :
  closed d → is_admin u → is_Some (groups d !! x) →
  ∃ n d', remove_all_relationships u x d = (Ok n, d') ∧
    closed d' ∧ groups d' = groups d ∧ memberships d' = memberships d ∧
    size (relationships d') + n = size (relationships d) ∧
    ∀ p c, (p, c) ∈ relationships d' ↔
      (p, c) ∈ relationships d ∧ (p = x ∨ c = x → managed_edge d p c = true).
Proof.
  intros Hd Hu [g Hg]. unfold remove_all_relationships, require_group.
  rewrite run_require_admin_bind by done.
  destruct (get_group_by_id_Some d x g Hg) as (gd & Hgd & Hid & _).
  run. rewrite Hgd. run.
  assert (frame d d) as Hf0 by (split_and!; done).
  edestruct (remove_loop d
    (λ r, remove_one u (rr_group_id r) x (rr_name r) (gd_name gd) (rr_group_id r)
            (λ d o, _is_idp_managed_relationship d o gd))
    (λ r, (rr_group_id r, x)) (λ ed, managed_edge d ed.1 ed.2)
    (get_group_parents d x)) as (n & s1 & Hr1 & Hf1 & Hsz1 & HE1); [|exact Hf0|].
  { intros r s Hs. apply remove_one_outcome; [done|].
    exact (managed_skip d s x gd (rr_group_id r) false Hs Hgd). }
  edestruct (remove_loop d
    (λ r, remove_one u x (rr_group_id r) (gd_name gd) (rr_name r) (rr_group_id r)
            (λ d o, _is_idp_managed_relationship d gd o))
    (λ r, (x, rr_group_id r)) (λ ed, managed_edge d ed.1 ed.2)
    (get_group_children d x)) as (k & s2 & Hr2 & Hf2 & Hsz2 & HE2); [|exact Hf1|].
  { intros r s Hs. apply remove_one_outcome; [done|].
    exact (managed_skip d s x gd (rr_group_id r) true Hs Hgd). }
  rewrite run_bind, Hr1. simpl. rewrite run_bind, Hr2. simpl.
  destruct Hf2 as (Hcl & HG & _ & HM).
  eexists _, s2. split_and!; [done..|lia|].
  intros p c. rewrite HE2, HE1, (parent_rows_edges d x (p, c) Hd),
    (child_rows_edges d x (p, c) Hd). simpl. naive_solver.
Qed.
End remove_all.
