(* ===== verification/AccessProofs.v ===== *)
(** * Who may open an app: the resolver against the hierarchy *)

From S2P Require Import Prelude Graph GroupDb GroupLineage GroupService AppAccess GroupProofs.

(** ** Memberships and assignments point at existing groups *)

Definition fks (d : db) : Prop :=
  (∀ g u, (g, u) ∈ memberships d → is_Some (groups d !! g)) ∧
  (∀ a g, (a, g) ∈ assignments d → is_Some (groups d !! g)).

Lemma fks_grow d d' :
  (∀ g, is_Some (groups d !! g) → is_Some (groups d' !! g)) →
  memberships d' ⊆ memberships d → assignments d' ⊆ assignments d →
  fks d → fks d'.
Proof. intros HG HM HA [Hm Ha]. split; naive_solver. Qed.

Section keeps_fks.
Context `{Collation} `{UuidGen}.

(** A write that adds no membership and no assignment and drops no group. *)
Lemma keeps_fks_modify f :
  (∀ d, groups (f d) = groups d ∧ memberships (f d) ⊆ memberships d ∧
        assignments (f d) ⊆ assignments d) →
  keeps fks (modify f).
Proof.
  intros Hf. apply keeps_modify. intros d. destruct (Hf d) as (HG & ? & ?).
  apply fks_grow; [by rewrite HG|done..].
Qed.

Lemma keeps_fks_update {A} (f : db → A * db) :
  (∀ d, groups (f d).2 = groups d ∧ memberships (f d).2 ⊆ memberships d ∧
        assignments (f d).2 ⊆ assignments d) →
  keeps fks (update f).
Proof.
  intros Hf d. rewrite run_update. simpl. destruct (Hf d) as (HG & ? & ?).
  apply fks_grow; [by rewrite HG|done..].
Qed.

Lemma keeps_fks_log_event a t i e m : keeps fks (log_event a t i e m).
Proof. by apply keeps_fks_modify. Qed.
Lemma keeps_fks_track_activity u : keeps fks (track_activity u).
Proof. by apply keeps_fks_modify. Qed.
Lemma keeps_fks_set_lineage f : keeps fks (modify (set_lineage f)).
Proof. by apply keeps_fks_modify. Qed.
Lemma keeps_fks_set_relationships f : keeps fks (modify (set_relationships f)).
Proof. by apply keeps_fks_modify. Qed.
Hint Resolve keeps_fks_log_event keeps_fks_track_activity keeps_fks_set_lineage
  keeps_fks_set_relationships : keeps.

Lemma keeps_fks_require_group x code : keeps fks (require_group x code).
Proof. unfold require_group. keeps_auto. Qed.
Lemma keeps_fks_set_group x g : keeps fks (modify (set_groups (insert x g))).
Proof.
  apply keeps_modify. intros d. apply fks_grow; [|done..].
  intros y ?. simpl. rewrite lookup_insert. by case_decide.
Qed.
Hint Resolve keeps_fks_require_group keeps_fks_set_group : keeps.

Lemma keeps_fks_insert_membership g u : keeps fks (insert_membership g u).
Proof.
  intros d [Hm Ha]. unfold insert_membership. run. case_decide; [done|]. run.
  run_case; [done|]. run. run_case; [done|]. simpl. split; [|done].
  simpl. intros g' u' [[= -> ->]%elem_of_singleton|?]%elem_of_union; [|by eapply Hm].
  by apply bool_decide_eq_false, not_eq_None_Some in E.
Qed.
Lemma keeps_fks_delete_membership g u : keeps fks (delete_membership g u).
Proof. apply keeps_fks_update. intros d. simpl. set_solver. Qed.
Lemma keeps_fks_create_assignment i g : keeps fks (create_assignment i g).
Proof.
  intros d [Hm Ha]. unfold create_assignment. run. do 3 (run_case; [done|]; run).
  split; [done|]. simpl.
  intros a g' [[= -> ->]%elem_of_singleton|?]%elem_of_union; [|by eapply Ha].
  by apply bool_decide_eq_false, not_eq_None_Some in E1.
Qed.
Lemma keeps_fks_delete_assignment i g : keeps fks (delete_assignment i g).
Proof. apply keeps_fks_update. intros d. simpl. set_solver. Qed.
Lemma keeps_fks_bulk_create_assignments i gs : keeps fks (bulk_create_assignments i gs).
Proof.
  unfold bulk_create_assignments. case_match; [auto with keeps|].
  intros d [Hm Ha]. run. do 2 (run_case; [done|]; run).
  split; [done|]. simpl.
  intros a g' [Hin|?]%elem_of_union; [|by eapply Ha].
  apply elem_of_difference in Hin as [Hin _]. apply elem_of_union in Hin.
  apply bool_decide_eq_false in E0. rewrite Exists_exists in E0.
  apply not_eq_None_Some. intros Hnone. apply E0. exists g'. split; [|done].
  apply list_elem_of_In. set_solver.
Qed.

Lemma fks_delete_cascade gone d : fks d → fks (delete_cascade gone d).
Proof.
  intros [Hm Ha]. split; simpl.
  - intros g u [? [x ?]%Hm]%elem_of_filter. exists x. by apply map_lookup_filter_Some.
  - intros a g [? [x ?]%Ha]%elem_of_filter. exists x. by apply map_lookup_filter_Some.
Qed.
Lemma keeps_fks_delete_group_row x : keeps fks (delete_group_row x).
Proof. intros d ?. unfold delete_group_row. run. by apply fks_delete_cascade. Qed.
End keeps_fks.

#[export] Hint Resolve keeps_fks_log_event keeps_fks_track_activity keeps_fks_set_lineage
  keeps_fks_set_relationships keeps_fks_require_group keeps_fks_set_group
  keeps_fks_insert_membership keeps_fks_delete_membership keeps_fks_create_assignment
  keeps_fks_delete_assignment keeps_fks_bulk_create_assignments
  keeps_fks_delete_group_row : keeps.

Section history_fks.
Context `{Collation} `{UuidGen}.

Lemma keeps_fks_run_call u k : keeps fks (run_call u k).
Proof.
  destruct k; simpl; unfold discard, svc_create_group, create_group, insert_group,
    svc_update_group, update_group, svc_delete_group, add_child, add_group_relationship,
    remove_child, remove_all_relationships, remove_one, remove_group_relationship,
    log_relationship_deleted, add_member, remove_member, svc_bulk_add_user_to_groups,
    try_add_to_group, add_group_member, remove_group_member, assign_sp_to_group,
    remove_sp_group_assignment, bulk_assign_sp_to_groups, require_sp, _require_not_idp_group,
    bulk_add_members, bulk_remove_members, bulk_add_group_members, bulk_remove_group_members;
    keeps_auto.
Qed.

Lemma fks_run_history h d : fks d → fks (run_history h d).
Proof.
  revert d. induction h as [|[u k] h IH]; intros d Hd; simpl; [done|].
  by apply IH, keeps_fks_run_call.
Qed.
End history_fks.

(** ** The resolver is reachability *)

(** What every history of administrator calls maintains. *)
Definition consistent (d : db) : Prop := closed d ∧ fks d.

Lemma consistent_run_history `{Collation} `{UuidGen} h d :
  no_groups d → fks d → consistent (run_history h d).
Proof.
  intros ? ?. split; [by apply closed_run_history, closed_no_groups|by apply fks_run_history].
Qed.

Section resolver.
Context {d : db} (Hd : consistent d).

Lemma above_reach a g : is_Some (groups d !! a) →
  is_Some (lineage d !! (a, g)) ↔ reach (relationships d) a g.
Proof.
  intros Ha. destruct Hd as [Hc _]. rewrite (lok_reach Hc), elem_of_dom. naive_solver.
Qed.

Lemma above_true a g : above d a g = true ↔
  is_Some (groups d !! a) ∧ a ≠ g ∧ reach (relationships d) a g.
Proof.
  destruct Hd as [Hc _]. unfold above. split.
  - destruct (lineage d !! (a, g)) as [n|] eqn:HL; [|done].
    intros Hn%bool_decide_eq_true. destruct (lok_sound _ _ _ Hc _ _ _ HL) as [Ha Hp].
    split_and!; [by apply elem_of_dom| |by exists n].
    intros ->. rewrite (lok_self Hc _ _ HL) in Hn. lia.
  - intros (Ha & Hne & Hr). destruct (proj2 (above_reach a g Ha) Hr) as [n HL].
    rewrite HL. apply bool_decide_eq_true.
    destruct n; [by apply (lok_zero Hc) in HL|lia].
Qed.

Lemma group_grants_reach k u :
  group_grants d k u = true ↔
  ∃ g a, (g, u) ∈ memberships d ∧ (k, a) ∈ assignments d ∧ reach (relationships d) a g.
Proof.
  unfold group_grants. rewrite bool_decide_eq_true. split.
  - intros ([g u'] & Hm & Hu & ([k' a] & Ha & Hk & HL)). simplify_eq/=. exists g, a.
    split_and!; [done..|]. apply above_reach; [|done]. by eapply (proj2 (proj2 Hd)).
  - intros (g & a & Hm & Ha & Hr). exists (g, u). split; [done|]. split; [done|].
    exists (k, a). split; [done|]. split; [done|].
    apply above_reach; [|done]. by eapply (proj2 (proj2 Hd)).
Qed.

Lemma elem_of_direct_groups u g : g ∈ direct_groups d u ↔ (g, u) ∈ memberships d.
Proof.
  unfold direct_groups. rewrite elem_of_map. split.
  - intros ([g' u'] & Hg & [Hu Hm]%elem_of_filter). by simplify_eq/=.
  - intros ?. exists (g, u). split; [done|]. by apply elem_of_filter.
Qed.

Lemma elem_of_effective_groups u a :
  a ∈ effective_groups d u ↔ ∃ g, (g, u) ∈ memberships d ∧ reach (relationships d) a g.
Proof.
  unfold effective_groups, inherited_groups.
  rewrite elem_of_union, elem_of_direct_groups, elem_of_map. split.
  - intros [?|([a' g] & -> & [n HL]%elem_of_dom)]; [by eexists; eauto with graph|].
    apply map_lookup_filter_Some in HL as [HL [Hg _]]. simpl in *.
    exists g. split; [by apply elem_of_direct_groups|].
    by apply (lok_sound _ _ _ (proj1 Hd)) in HL as [_ ?]; exists n.
  - intros (g & Hm & Hr). destruct (decide (a = g)) as [->|Hne]; [by left|right].
    exists (a, g). split; [done|]. apply elem_of_dom.
    destruct Hr as [[|n] Hp]; [by apply path_0 in Hp|].
    assert (is_Some (groups d !! a)) as Ha.
    { apply elem_of_dom. by eapply path_source, Hp; apply (proj1 Hd). }
    destruct (proj2 (above_reach a g Ha)) as [m HL]; [by eexists|].
    exists m. apply map_lookup_filter_Some. simpl. split_and!; [done| |].
    + by apply elem_of_direct_groups.
    + destruct m; [by apply (lok_zero (proj1 Hd)) in HL|lia].
Qed.

Lemma effective_group_exists u a : a ∈ effective_groups d u → is_Some (groups d !! a).
Proof.
  intros (g & Hm & [[|n] Hp])%elem_of_effective_groups.
  - apply path_0 in Hp as ->. by eapply (proj1 (proj2 Hd)).
  - apply elem_of_dom. by eapply path_source, Hp; apply (proj1 Hd).
Qed.
End resolver.

Section access.
Context `{Collation} `{UuidGen}.


(** The app list of a user names exactly the enabled, trusted service
    providers the sign-in resolver would let the user into. *)
Theorem listed_sps_are_accessible d u i name :
  (i, name) ∈ get_accessible_sps_for_user d u ↔
  ∃ a, apps d !! (sp, i) = Some a ∧ app_name a = name ∧
       app_enabled a = true ∧ app_trust_established a = true ∧
       user_can_access_sp d u i = true.
Proof.
  unfold get_accessible_sps_for_user, user_can_access_sp, user_can_access_app,
    app_open_to_all, listed_sp.
  rewrite elem_of_order_by_name, list_elem_of_fmap. split.
  - intros ([[k i'] a] & [= -> ->] & [Hl HL%elem_of_map_to_list]%list_elem_of_filter).
    simpl in *. exists a. rewrite !andb_true_iff, bool_decide_eq_true in Hl.
    destruct Hl as [[[-> ?] ?] Hg]. rewrite HL. split_and!; [done..|].
    by rewrite orb_comm.
  - intros (a & HL & <- & He & Ht & Hacc). exists ((sp, i), a). split; [done|].
    apply list_elem_of_filter. split; [|by apply elem_of_map_to_list].
    rewrite HL in Hacc. simpl. rewrite He, Ht. simpl. by rewrite orb_comm.
Qed.

(** The effective memberships of a user are the groups from which some
    group of the user can be reached, each listed once with its name and
    with the flag telling whether the user is a direct member. *)
Theorem effective_memberships_exact h d u :
  no_groups d → fks d →
  let d' := run_history h d in
  NoDup (mr_group_id <$> get_effective_memberships d' u) ∧
  ∀ r, r ∈ get_effective_memberships d' u ↔
    (∃ g, (g, u) ∈ memberships d' ∧ reach (relationships d') (mr_group_id r) g) ∧
    g_name <$> groups d' !! mr_group_id r = Some (mr_name r) ∧
    mr_is_direct r = bool_decide ((mr_group_id r, u) ∈ memberships d').
Proof.
  intros Hng Hfk d'. assert (consistent d') as Hd by (by apply consistent_run_history).
  clearbody d'.
  unfold get_effective_memberships. split.
  - rewrite (merge_sort_Permutation direct_first).
    assert (∀ l, NoDup l → NoDup (mr_group_id <$> omap (membership_row_of d' u) l)) as Hnd.
    { induction l as [|g l IH]; intros Hl; [constructor|].
      apply NoDup_cons in Hl as [Hg Hl]. simpl. unfold membership_row_of at 1.
      destruct (groups d' !! g); simpl; [|by apply IH]. constructor; [|by apply IH].
      intros (r & -> & (g' & Hg' & Hr)%list_elem_of_omap)%list_elem_of_fmap.
      unfold membership_row_of in Hr. by destruct (groups d' !! g'); simplify_eq/=. }
    apply Hnd, NoDup_elements.
  - intros r. rewrite (merge_sort_Permutation direct_first), list_elem_of_omap.
    rewrite <- (elem_of_effective_groups Hd). split.
    + intros (g & Hg%elem_of_elements & Hr). unfold membership_row_of in Hr.
      destruct (groups d' !! g) as [row|] eqn:Hrow; simplify_eq/=. rewrite Hrow.
      split_and!; [done..|]. apply bool_decide_ext, elem_of_direct_groups.
    + intros (Hg & Hn & Hdir). exists (mr_group_id r). split; [by apply elem_of_elements|].
      unfold membership_row_of. destruct (groups d' !! mr_group_id r); simplify_eq/=.
      destruct r as [x n b]; simpl in *. subst. do 2 f_equal.
      apply bool_decide_ext, elem_of_direct_groups.
Qed.

(** A service provider's access-relevant group names are non-empty
    exactly for the users whom group membership lets in. *)
Theorem access_relevant_iff_granted h d u (k : app) :
  no_groups d → fks d →
  let d' := run_history h d in
  access_relevant_groups d' u k ≠ ∅ ↔ group_grants d' k u = true.
Proof.
  intros Hng Hfk d'. assert (consistent d') as Hd by (by apply consistent_run_history).
  clearbody d'.
  rewrite (group_grants_reach Hd).
  assert (∀ a, a ∈ assigned_groups d' k ↔ (k, a) ∈ assignments d') as Hasg.
  { intros a. unfold assigned_groups. rewrite elem_of_map. split.
    - intros ([k' a'] & Ha' & [Hk Hin]%elem_of_filter). by simplify_eq/=.
    - intros ?. exists (k, a). split; [done|]. by apply elem_of_filter. }
  split.
  - intros (x & [Hx Heff]%elem_of_filter)%set_choose_L.
    apply (elem_of_effective_groups Hd) in Heff as (g & Hm & Hr).
    destruct Hx as [Hx|(a & Ha & Hab)].
    + exists g, x. by rewrite <- Hasg.
    + exists g, a. rewrite <- Hasg. split_and!; [done..|].
      apply (above_true Hd) in Hab as (_ & _ & ?). by eapply reach_trans.
  - intros (g & a & Hm & Ha & Hr) Hemp.
    assert (a ∈ access_relevant_groups d' u k) as Hin; [|set_solver].
    apply elem_of_filter. split; [left; by apply Hasg|].
    apply (elem_of_effective_groups Hd). by exists g.
Qed.
End access.
