(* ===== verification/IdpProofs.v ===== *)
(** * Groups that mirror an identity provider

    app/services/groups/idp.py against the hierarchy: what the wiring of
    discovered groups preserves, and the states in which it, or the deletion
    of a provider's groups, breaks the closure table. *)

From S2P Require Import Prelude Graph GroupDb GroupLineage GroupService AppAccess GroupProofs AccessProofs.

Section wiring.
Context `{Collation} `{UuidGen}.

(** The umbrella edge keeps the table exact unless the discovered group is
    already above the umbrella; the code does not test that. *)
Lemma closed_ensure_umbrella i n g src d :
  closed d →
  (∀ b, get_idp_base_group_id d i src = Some b → (b, g) ∉ relationships d →
        lineage d !! (g, b) = None ∨ b = g) →
  closed (_ensure_umbrella_relationship i n g src d).2.
Proof.
  intros Hd Hb. unfold _ensure_umbrella_relationship. run.
  destruct (get_idp_base_group_id d i src) as [b|]; [|done]. run.
  unfold relationship_exists. run_case; [done|]. apply bool_decide_eq_false in E.
  rewrite run_bind.
  destruct (Hb b eq_refl E) as [HL|<-].
  - pose proof (closed_add_group_relationship b g d Hd HL) as Hadd.
    destruct (add_group_relationship b g d) as [[?|?] d']; [|done].
    by apply keeps_closed_log_event.
  - assert (add_group_relationship b b d =
            (Raise (IntegrityError "chk_no_self_relationship"), d)) as ->; [|done].
    unfold add_group_relationship, transaction. run. rewrite decide_False by done. run.
    by rewrite bool_decide_eq_true_2.
Qed.

(** What inserting a group does, when it returns. *)
Lemma insert_group_Ok g d x d' :
  insert_group g d = (Ok x, d') →
  groups d !! x = None ∧
  d' = set_lineage (insert (x, x) 0) (set_groups (insert x g) d).
Proof.
  unfold insert_group, transaction. run. destruct (group_column_error g); [done|]. run.
  run_case; [done|]. run_case; [done|].
  intros [= <- <-]. split; [|done].
  by apply bool_decide_eq_false, eq_None_not_Some in E.
Qed.

(** Logging one event per element only appends events. *)
Lemma for_each_log_event {A} (tgt : A → uuid) (md : A → list (string * meta)) a k w l s :
  ∃ f, for_each (λ x, log_event a k (tgt x) w (md x)) l s = (Ok (), set_events f s).
Proof.
  revert s. induction l as [|x l IH]; intros s.
  - exists id. by destruct s.
  - simpl. rewrite run_bind. unfold log_event at 1. rewrite run_modify.
    match goal with |- context [for_each _ _ ?s'] => destruct (IH s') as [f Hf]; rewrite Hf end.
    exists (λ es, f (es ++ [mk_event a k (tgt x) w (md x)])). by destruct s.
Qed.

(** A group claim seen for the first time is wired below the umbrella
    without breaking the closure table; so is a known group that is not
    above the umbrella. *)
Theorem discovered_group_keeps_lineage i idp_name name src d :
  closed d →
  (∀ g b, get_group_by_idp_and_name d i name src = Some g →
          get_idp_base_group_id d i src = Some b →
          b ≠ g → ¬ reach (relationships d) g b) →
  closed (get_or_create_idp_group i idp_name name src d).2.
Proof.
  intros Hd Habove. unfold get_or_create_idp_group. run.
  destruct (get_group_by_idp_and_name d i name src) as [g|] eqn:Hg.
  - rewrite run_bind.
    pose proof (closed_ensure_umbrella i idp_name g src d Hd) as Hens.
    destruct (_ensure_umbrella_relationship i idp_name g src d) as [[[]|e] d'];
      simpl in *; apply Hens; intros b Hb _;
      (destruct (decide (b = g)) as [|Hne]; [by right|left]);
      apply eq_None_not_Some; intros [_ Hr]%(lok_reach Hd); by eapply Habove.
  - unfold create_idp_group. run. run_case; [done|]. rewrite run_bind.
    pose proof (keeps_closed_insert_group (mk_group name
      (Some (synced_group_description idp_name)) None idp
      (match src with saml => Some i | oidc => None end)
      (match src with saml => None | oidc => Some i end) true None) d Hd) as Hins.
    destruct (insert_group _ d) as [[x|e] d1] eqn:Hi; [|done]. simpl in Hins.
    apply insert_group_Ok in Hi as [Hx ->].
    rewrite run_bind. unfold log_event at 1. rewrite run_modify. rewrite run_bind.
    set (d2 := set_events _ _).
    assert (closed d2) as Hd2 by done.
    pose proof (closed_ensure_umbrella i idp_name x src d2 Hd2) as Hens.
    destruct (_ensure_umbrella_relationship i idp_name x src d2) as [[[]|e] d'];
      simpl in *; apply Hens; intros b Hb _;
      (destruct (decide (b = x)) as [|Hne]; [by right|left]);
      simpl; rewrite lookup_insert_ne by congruence;
      apply eq_None_not_Some; intros [Hxd _]%(lok_reach Hd);
      apply elem_of_dom in Hxd as [? ?]; congruence.
Qed.

(** A group claim whose name is the name of the provider itself is
    refused by the edge table: the sign-in that carries it raises a
    constraint violation and changes nothing. *)
Theorem claim_named_like_provider_raises i idp_name name src d b :
  closed d →
  get_idp_base_group_id d i src = Some b →
  get_group_by_idp_and_name d i name src = Some b →
  get_or_create_idp_group i idp_name name src d =
    (Raise (IntegrityError "chk_no_self_relationship"), d).
Proof.
  intros Hd Hb Hg. unfold get_or_create_idp_group, _ensure_umbrella_relationship.
  run. rewrite Hg, run_bind. run. rewrite Hb. run. unfold relationship_exists.
  assert ((b, b) ∉ relationships d) as Hself.
  { intros He. by eapply (lok_acyclic _ _ _ Hd b 0), path_1. }
  rewrite bool_decide_eq_false_2 by done. rewrite run_bind.
  unfold add_group_relationship, transaction. run. rewrite decide_False by done. run.
  by rewrite bool_decide_eq_true_2.
Qed.

(** Deleting the groups of a provider keeps the closure table exact
    when every child of such a group belongs to the provider too. *)
Theorem invalidate_idp_groups_keeps_lineage i idp_name src d :
  closed d →
  (∀ g y, g ∈ idp_group_ids d i src → (g, y) ∈ relationships d →
          y ∈ idp_group_ids d i src) →
  closed (invalidate_idp_groups i idp_name src d).2.
Proof.
  intros Hd Hdown. unfold invalidate_idp_groups. run.
  destruct (get_groups_by_idp d i src) as [|kv l]; [done|]. rewrite run_bind.
  destruct (for_each_log_event (λ kv : uuid * group_row, kv.1)
    (λ kv, idp_group_metadata i idp_name src (g_name kv.2) ++
           [("reason", MStr "idp_deleted")])
    None "group" "idp_group_invalidated" (kv :: l) d) as [f Hf].
  simpl Datatypes.app in Hf. rewrite Hf.
  unfold delete_groups_by_idp. run. by apply closed_delete_cascade.
Qed.
End wiring.
