(* ===== verification/IdpSync.v ===== *)
(** * The group synchronisation of a sign-in

    [sync_user_idp_groups] of app/services/groups/idp.py, which every SAML and
    OIDC sign-in that carries group claims runs: it returns, and it leaves the
    user in exactly the groups the provider claimed. *)

From S2P Require Import Prelude Graph GroupDb GroupService.

(** The rows a call that only wires edges and logs does not touch. *)
Definition same_rows (d d' : db) : Prop :=
  groups d' = groups d ∧ memberships d' = memberships d ∧
  users d' = users d ∧ providers d' = providers d.

#[export] Instance same_rows_preorder : PreOrder same_rows.
Proof.
  split; [done|]. intros x y z (?&?&?&?) (?&?&?&?). split_and!; congruence.
Qed.

Lemma log_event_same a t i e m d : ∃ d', log_event a t i e m d = (Ok (), d') ∧ same_rows d d'.
Proof. eexists. split; [done|]. done. Qed.

Lemma for_map_same {A B} (f : A → M db B) l d :
  (∀ x s, ∃ y s', f x s = (Ok y, s') ∧ same_rows s s') →
  ∃ ys d', for_map f l d = (Ok ys, d') ∧ same_rows d d'.
Proof.
  intros Hf. revert d. induction l as [|x l IH]; intros d; simpl; [by eexists _, d|].
  destruct (Hf x d) as (y & s & Hx & Hs). destruct (IH s) as (ys & d' & Hl & Hd').
  eexists (y :: ys), d'. rewrite run_bind, Hx, run_bind, Hl. split; [done|by etrans].
Qed.

(** ** Lookups by name *)

Lemma find_group_Some d P `{∀ g, Decision (P g)} x :
  find_group d P = Some x → ∃ g, groups d !! x = Some g ∧ P g.
Proof.
  unfold find_group. destruct (filter _ _) as [|[y g] l] eqn:Hl; [done|].
  intros [= <-]. assert ((y, g) ∈ filter (λ kv : uuid * group_row, P kv.2)
                           (map_to_list (groups d))) as Hin by (rewrite Hl; by left).
  apply list_elem_of_filter in Hin as [? ?%elem_of_map_to_list]. by eexists.
Qed.

Lemma find_group_None d P `{∀ g, Decision (P g)} x g :
  find_group d P = None → groups d !! x = Some g → ¬ P g.
Proof.
  unfold find_group. destruct (filter _ _) as [|[y h] l] eqn:Hl; [|done].
  intros _ Hx HP. apply elem_of_map_to_list in Hx.
  assert ((x, g) ∈ filter (λ kv : uuid * group_row, P kv.2) (map_to_list (groups d))) as Hin
    by by apply list_elem_of_filter.
  rewrite Hl in Hin. by apply not_elem_of_nil in Hin.
Qed.

Section sync.
Context `{Collation} `{UuidGen}.
Context (i : uuid) (src : idp_source).

(** A group of the provider with the given name. *)
Definition provider_group (d : db) (name : string) (g : uuid) : Prop :=
  ∃ row, groups d !! g = Some row ∧ source_column src row = Some i ∧ g_name row = name.

(** The unique index on (provider, name). *)
Definition unique_names (d : db) : Prop :=
  ∀ name x y, provider_group d name x → provider_group d name y → x = y.

Lemma named_group d name g : unique_names d →
  get_group_by_idp_and_name d i name src = Some g ↔ provider_group d name g.
Proof.
  intros Hun. unfold get_group_by_idp_and_name. split.
  - intros (row & ? & ? & ?)%find_group_Some. by exists row.
  - intros Hg. destruct (find_group _ _) as [x|] eqn:Hx.
    + apply find_group_Some in Hx as (row & ? & ? & ?). f_equal.
      apply (Hun name); [by exists row|done].
    + destruct Hg as (row & Hr & ? & ?). by apply (find_group_None _ _ _ _ Hx) in Hr as [].
Qed.

Lemma base_group d pname b : unique_names d → providers d !! (src, i) = Some pname →
  get_idp_base_group_id d i src = Some b ↔
  ∃ row, groups d !! b = Some row ∧ source_column src row = Some i ∧
         g_name row = pname ∧ g_is_valid row = true.
Proof.
  intros Hun Hp. unfold get_idp_base_group_id. rewrite Hp. split.
  - intros (row & ? & ? & ? & ?)%find_group_Some. by exists row.
  - intros (row & Hr & Hs & Hn & Hv). destruct (find_group _ _) as [x|] eqn:Hx.
    + apply find_group_Some in Hx as (row' & ? & ? & ? & ?). f_equal.
      by apply (Hun pname); [exists row'|exists row].
    + by apply (find_group_None _ _ _ _ Hx) in Hr as [].
Qed.

(** ** Wiring and creating groups *)

Lemma add_group_relationship_same p c d :
  p ≠ c → is_Some (groups d !! p) → is_Some (groups d !! c) →
  ∃ b d', add_group_relationship p c d = (Ok b, d') ∧ same_rows d d'.
Proof.
  intros Hne [? Hp] [? Hc]. unfold add_group_relationship, transaction. run.
  destruct (decide _); [by eexists _, _|]. run.
  rewrite (bool_decide_eq_false_2 (p = c)) by done. run.
  rewrite Hp, Hc. rewrite !bool_decide_eq_false_2 by done. by eexists _, _.
Qed.

Lemma ensure_umbrella_same idp_name pname name g d :
  providers d !! (src, i) = Some pname → name ≠ pname → provider_group d name g →
  ∃ d', _ensure_umbrella_relationship i idp_name g src d = (Ok (), d') ∧ same_rows d d'.
Proof.
  intros Hp Hne (row & Hr & Hs & Hn). unfold _ensure_umbrella_relationship. run.
  destruct (get_idp_base_group_id d i src) as [b|] eqn:Hb; run; [|by exists d].
  run_case; [by exists d|]. unfold get_idp_base_group_id in Hb. rewrite Hp in Hb.
  apply find_group_Some in Hb as (row' & Hr' & ? & ? & ?).
  destruct (add_group_relationship_same b g d) as (x & d1 & Ha & Hd1); [|by eexists..|].
  { intros ->. rewrite Hr in Hr'. simplify_eq. }
  rewrite run_bind, Ha. destruct (log_event_same None "group_relationship" b
    "idp_group_relationship_created"
    [("idp_id", MId i); ("idp_name", MStr idp_name);
     ("idp_source", MStr (source_name src));
     ("parent_group_id", MId b); ("child_group_id", MId g)] d1) as (d2 & Hl & Hd2).
  exists d2. split; [done|by etrans].
Qed.

(** What resolving claims leaves: more groups of the provider, each under a
    claimed name, and nothing else. *)
Record resolved (names : list string) (d d' : db) : Prop := mk_resolved {
  res_memberships : memberships d' = memberships d;
  res_users : users d' = users d;
  res_providers : providers d' = providers d;
  res_kept : groups d ⊆ groups d';
  res_new : ∀ x row, groups d' !! x = Some row → groups d !! x = Some row ∨
    groups d !! x = None ∧ source_column src row = Some i ∧ g_name row ∈ names;
  res_unique : unique_names d';
}.

Lemma resolved_refl names d : unique_names d → resolved names d d.
Proof. split; naive_solver. Qed.

Lemma resolved_trans names1 names2 d1 d2 d3 :
  resolved names1 d1 d2 → resolved names2 d2 d3 → resolved (names1 ++ names2) d1 d3.
Proof.
  intros [????? ?] [?????]. split; try congruence; [by etrans| |done].
  intros x row Hx. setoid_rewrite elem_of_app.
  destruct (res_new1 _ _ Hx) as [Hx2|(Hx2 & ? & ?)].
  - destruct (res_new0 _ _ Hx2) as [?|(? & ? & ?)]; naive_solver.
  - right. split; [|naive_solver]. by eapply lookup_weaken_None.
Qed.

Lemma resolved_same names d d1 d2 :
  resolved names d d1 → same_rows d1 d2 → resolved names d d2.
Proof.
  intros [] (HG & ? & ? & ?).
  split; try (rewrite ?HG; congruence); rewrite ?HG; [done..|].
  unfold unique_names, provider_group. by rewrite HG.
Qed.

(** No id generated twice: [gen_random_uuid()] avoids the existing ids. *)
Definition fresh_ids : Prop := ∀ d, groups d !! gen_random_uuid d = None.

(** A claimed name that the columns of a new group hold. *)
Definition storable_name (name : string) : Prop := no_nul name = true ∧ (py_len name ≤ 200)%Z.

Lemma storable_row name description row :
  storable_name name → g_name row = name → g_acronym row = None →
  g_description row = Some description → no_nul description = true → (py_len description ≤ 2000)%Z →
  group_column_error row = None.
Proof.
  intros [Hz Hn] Hr Ha Hd Hdz Hdn. unfold group_column_error, group_texts, longer_than.
  rewrite Hr, Ha, Hd. simpl. rewrite Hz, Hdz. simpl.
  by rewrite !bool_decide_eq_false_2 by lia.
Qed.

Lemma create_idp_group_resolved name description d :
  fresh_ids → is_Some (providers d !! (src, i)) → unique_names d →
  storable_name name → no_nul description = true → (py_len description ≤ 2000)%Z →
  (∀ x, ¬ provider_group d name x) →
  ∃ x d', create_idp_group i name (Some description) src d = (Ok x, d') ∧
          resolved [name] d d' ∧ provider_group d' name x.
Proof.
  intros Hfr [pn Hp] Hun Hname Hdz Hdn Hno. unfold create_idp_group, insert_group, transaction. run.
  rewrite Hp. rewrite (bool_decide_eq_false_2 (Some pn = None)) by done. run.
  rewrite (bool_decide_eq_false_2 (is_Some _)) by (rewrite Hfr; by intros []).
  run. set (row := mk_group name _ _ _ _ _ _ _).
  assert (group_column_error row = None) as Hrow by (by apply (storable_row name description)).
  assert (source_column src row = Some i) as Hsrc by (by destruct src).
  assert (name_taken d (gen_random_uuid d) row = false) as ->.
  { apply bool_decide_eq_false. intros Hne. apply Hne. apply map_empty_filter_2.
    intros y g Hy (_ & Hn & Hi & Ho). apply (Hno y). exists g.
    split_and!; [done| |done]. rewrite <- Hsrc. unfold source_column. by destruct src. }
  pose proof (Hfr d) as Hx. set (x := gen_random_uuid d) in *. run.
  unfold check_group_row. rewrite Hrow. run.
  eexists x, _. split; [done|]. split.
  - split; simpl; try done; [by apply insert_subseteq| |].
    + intros y r. destruct (decide (y = x)) as [->|Hyx].
      * rewrite lookup_insert_eq. intros [= <-]. right.
        split_and!; [done|done|by left].
      * rewrite lookup_insert_ne by done. by left.
    + assert (∀ n y, provider_group (set_lineage (insert (x, x) 0)
                       (set_groups (insert x row) d)) n y →
                y = x ∧ n = name ∨ provider_group d n y) as Hpg.
      { intros n y (r & Hr & Hs & Hn). simpl in Hr.
        destruct (decide (y = x)) as [->|Hyx].
        - rewrite lookup_insert_eq in Hr. left. by simplify_eq/=.
        - rewrite lookup_insert_ne in Hr by done. right. by exists r. }
      intros n y z [[-> ->]|Hy]%Hpg [[-> Hnz]|Hz]%Hpg; try done.
      * by destruct (Hno z).
      * subst. by destruct (Hno y).
      * by eapply Hun.
  - exists row. split_and!; [|done|done]. simpl. by rewrite lookup_insert_eq.
Qed.

Lemma provider_group_resolved names d d' name g :
  resolved names d d' → provider_group d name g → provider_group d' name g.
Proof.
  intros Hr (row & Hg & ? & ?). exists row. split; [|done].
  by eapply lookup_weaken, (res_kept _ _ _ Hr).
Qed.

Lemma provider_text idp_name : no_nul idp_name = true → (py_len idp_name ≤ 255)%Z →
  no_nul (synced_group_description idp_name) = true ∧
  (py_len (synced_group_description idp_name) ≤ 2000)%Z.
Proof.
  intros Hz Hn. unfold synced_group_description. rewrite !no_nul_app, !py_len_app, Hz.
  split; [done|]. assert (py_len "This group is synced from " = 26%Z) as -> by done.
  match goal with |- (_ + (_ + ?x) ≤ _)%Z => assert (x = 98%Z) as -> by done end. lia.
Qed.

(** A claim that the synchronisation can store: its group exists, or it and
    the provider's name fit the columns of a new one. *)
Definition claimable (idp_name : string) (d : db) (name : string) : Prop :=
  (∃ g, provider_group d name g) ∨
  storable_name name ∧ no_nul idp_name = true ∧ (py_len idp_name ≤ 255)%Z.

Lemma claimable_resolved idp_name names d d' name :
  resolved names d d' → claimable idp_name d name → claimable idp_name d' name.
Proof.
  intros Hr [[g Hg]|]; [|by right]. left. exists g. by eapply provider_group_resolved.
Qed.

Lemma get_or_create_resolved idp_name pname name d :
  fresh_ids → providers d !! (src, i) = Some pname → unique_names d → name ≠ pname →
  claimable idp_name d name →
  ∃ g b d', get_or_create_idp_group i idp_name name src d = (Ok (g, b), d') ∧
            resolved [name] d d' ∧ provider_group d' name g.
Proof.
  intros Hfr Hp Hun Hne Hst. unfold get_or_create_idp_group. run.
  destruct (get_group_by_idp_and_name d i name src) as [g|] eqn:Hg.
  - apply named_group in Hg; [|done].
    destruct (ensure_umbrella_same idp_name pname name g d Hp Hne Hg) as (d' & Hens & Hsame).
    rewrite run_bind, Hens. eexists g, _, d'. split; [done|].
    assert (resolved [name] d d') as Hres
      by (eapply resolved_same; [by apply resolved_refl|done]).
    split; [done|by eapply provider_group_resolved].
  - assert (∀ x, ¬ provider_group d name x) as Hno.
    { intros x Hx. apply named_group in Hx; [|done]. congruence. }
    destruct Hst as [[x Hx]|(Hst & Hz & Hl)]; [by destruct (Hno x)|].
    destruct (provider_text idp_name Hz Hl) as [Hdz Hdn].
    destruct (create_idp_group_resolved name (synced_group_description idp_name) d)
      as (x & d1 & Hc & Hres & Hx); [done|by eexists|done..|].
    rewrite run_bind, Hc, run_bind.
    destruct (log_event_same None "group" x "idp_group_discovered"
      (idp_group_metadata i idp_name src name) d1) as (d2 & -> & Hs2). rewrite run_bind.
    assert (resolved [name] d d2) as Hres2 by (by eapply resolved_same).
    assert (provider_group d2 name x) as Hx2
      by (unfold provider_group; destruct Hs2 as [-> _]; done).
    destruct (ensure_umbrella_same idp_name pname name x d2) as (d3 & -> & Hs3);
      [by rewrite (res_providers _ _ _ Hres2)|done|done|].
    eexists x, true, d3. split; [done|].
    split; [by eapply resolved_same|]. unfold provider_group. by destruct Hs3 as [-> _].
Qed.

Definition resolve_name (idp_name name : string) : M db (string * (uuid * bool)) :=
  r ← get_or_create_idp_group i idp_name name src; mret (name, r).

Lemma resolve_names idp_name pname names d :
  fresh_ids → providers d !! (src, i) = Some pname → unique_names d → pname ∉ names →
  Forall (claimable idp_name d) names →
  ∃ infos d', for_map (resolve_name idp_name) names d = (Ok infos, d') ∧
    resolved names d d' ∧
    (∀ name, name ∈ names → ∃ g, provider_group d' name g) ∧
    ∀ g, g ∈ (λ j : string * (uuid * bool), j.2.1) <$> infos ↔
         ∃ name, name ∈ names ∧ provider_group d' name g.
Proof.
  intros Hfr. revert d. induction names as [|name names IH]; intros d Hp Hun Hnot Hcl.
  { eexists [], d. split; [done|]. split; [by apply resolved_refl|].
    split; [by intros ? ?%not_elem_of_nil|]. intros g. simpl.
    setoid_rewrite elem_of_nil. naive_solver. }
  apply not_elem_of_cons in Hnot as [Hne Hnot]. apply Forall_cons in Hcl as [Hc Hcl].
  destruct (get_or_create_resolved idp_name pname name d Hfr Hp Hun) as
    (g & b & d1 & Hg & Hres1 & Hpg); [done..|].
  destruct (IH d1) as (infos & d2 & Hl & Hres2 & Hall & Hinfos);
    [by rewrite (res_providers _ _ _ Hres1)|apply Hres1|done| |].
  { eapply Forall_impl; [done|]. intros n. by apply claimable_resolved with [name]. }
  assert (provider_group d2 name g) as Hpg2 by (by eapply provider_group_resolved).
  eexists ((name, (g, b)) :: infos), d2. simpl.
  rewrite run_bind. unfold resolve_name at 1. rewrite run_bind, Hg, run_ret, run_bind, Hl.
  split; [done|]. split; [by apply (resolved_trans [name] names d d1 d2)|]. split.
  - intros n [->|?]%elem_of_cons; [by exists g|by apply Hall].
  - intros x. simpl. rewrite elem_of_cons, Hinfos. setoid_rewrite elem_of_cons. split.
    + intros [->|(n & ? & ?)]; [by exists name; auto|by exists n; auto].
    + intros (n & [->|Hn] & Hx); [left|right; by exists n].
      by eapply (res_unique _ _ _ Hres2).
Qed.

(** ** Applying the difference *)

Definition with_memberships (d d' : db) : Prop :=
  groups d' = groups d ∧ users d' = users d ∧ providers d' = providers d.

Lemma insert_memberships u l d :
  u ∈ users d → Forall (λ g, is_Some (groups d !! g)) l →
  ∃ n d', for_sum (λ g, insert_membership g u) l d = (Ok n, d') ∧ with_memberships d d' ∧
    ∀ g v, (g, v) ∈ memberships d' ↔ (g, v) ∈ memberships d ∨ v = u ∧ g ∈ l.
Proof.
  intros Hu. revert d Hu. induction l as [|g l IH]; intros d Hu Hl.
  { eexists 0, d. split; [done|]. split; [done|]. set_solver. }
  apply Forall_cons in Hl as [[row Hg] Hl].
  assert (∃ n d1, insert_membership g u d = (Ok n, d1) ∧ with_memberships d d1 ∧
            ∀ h v, (h, v) ∈ memberships d1 ↔ (h, v) ∈ memberships d ∨ v = u ∧ h = g)
    as (n & d1 & Hi & (HG & HU & HP) & Hm).
  { unfold insert_membership. run. destruct (decide _) as [Hin|Hin]; run.
    - eexists _, _. split; [done|]. split; [done|]. set_solver.
    - rewrite Hg. rewrite (bool_decide_eq_false_2 (Some row = None)) by done. run.
      rewrite bool_decide_eq_false_2 by (intros Hn; by apply Hn). run.
      eexists _, _. split; [done|]. split; [done|]. simpl. set_solver. }
  destruct (IH d1) as (k & d2 & Hl2 & (?&?&?) & Hm2); [by rewrite HU|by rewrite HG|].
  exists (n + k), d2. simpl. rewrite run_bind, Hi, run_bind, Hl2.
  split; [done|]. split; [split_and!; congruence|]. intros h v. rewrite Hm2, Hm. set_solver.
Qed.

Lemma run_apply_membership_additions u email idp_name gs sync_source d :
  u ∈ users d → set_Forall (λ g, is_Some (groups d !! g)) gs →
  ∃ r d', apply_membership_additions u email i idp_name gs sync_source src d = (Ok r, d') ∧
    with_memberships d d' ∧
    ∀ g v, (g, v) ∈ memberships d' ↔ (g, v) ∈ memberships d ∨ v = u ∧ g ∈ gs.
Proof.
  intros Hu Hgs. unfold apply_membership_additions.
  destruct (decide (gs = ∅)) as [->|Hne]; [by eexists _, d; split_and!; [..|set_solver]|].
  assert (∃ n d1, bulk_add_user_to_groups u (elements gs) d = (Ok n, d1) ∧
            with_memberships d d1 ∧
            ∀ g v, (g, v) ∈ memberships d1 ↔ (g, v) ∈ memberships d ∨ v = u ∧ g ∈ gs)
    as (n & d1 & Hb & (HG & HU & HP) & Hm).
  { destruct (insert_memberships u (elements gs) d Hu) as (n & d1 & Hi & Hw & Hm).
    { apply Forall_forall. intros g Hg%elem_of_elements. by apply Hgs. }
    setoid_rewrite elem_of_elements in Hm.
    unfold bulk_add_user_to_groups. destruct (elements gs) as [|x l] eqn:Hl.
    - simpl in Hi. injection Hi as <- <-. by eexists _, d.
    - unfold transaction. rewrite Hi. by eexists _, d1. }
  rewrite run_bind, Hb.
  edestruct (for_map_same (λ g,
      name ← gets (λ d, group_name_or_unknown d g);
      _ ← log_event None "group_membership" g "idp_group_member_added"
            (sync_metadata u email i idp_name src g name sync_source);
      mret name) (elements gs) d1) as (r & d2 & Hf & (?&Hm2&?&?)).
  { intros g s. run. rewrite run_bind. by eexists _, _. }
  rewrite Hf. eexists r, d2. split; [done|].
  split; [split_and!; congruence|]. by rewrite Hm2.
Qed.

Lemma run_apply_membership_removals u email idp_name gs sync_source d :
  ∃ r d', apply_membership_removals u email i idp_name gs sync_source src d = (Ok r, d') ∧
    with_memberships d d' ∧
    ∀ g v, (g, v) ∈ memberships d' ↔ (g, v) ∈ memberships d ∧ ¬ (v = u ∧ g ∈ gs).
Proof.
  unfold apply_membership_removals.
  destruct (decide (gs = ∅)) as [->|Hne]; [by eexists _, d; split_and!; [..|set_solver]|].
  edestruct (for_map_same (λ g, name ← gets (λ d, group_name_or_unknown d g);
                                (mret (g, name) : M db _)) (elements gs) d)
    as (named & d1 & Hn & (HG & Hm1 & HU & HP)); [by intros; eexists _, _|].
  rewrite run_bind, Hn.
  assert (∃ n d2, bulk_remove_user_from_groups u (elements gs) d1 = (Ok n, d2) ∧
            with_memberships d1 d2 ∧
            ∀ g v, (g, v) ∈ memberships d2 ↔ (g, v) ∈ memberships d1 ∧ ¬ (v = u ∧ g ∈ gs))
    as (n & d2 & Hb & (?&?&?) & Hm2).
  { unfold bulk_remove_user_from_groups. destruct (elements gs) as [|x l] eqn:Hl.
    { apply elements_empty_inv in Hl. by apply leibniz_equiv_iff in Hl. }
    rewrite <- Hl. eexists _, _. split; [by rewrite run_update|]. split; [done|].
    intros g v. simpl. rewrite elem_of_difference, elem_of_filter, elem_of_elements. simpl.
    naive_solver. }
  rewrite run_bind, Hb.
  edestruct (for_map_same (λ gn : uuid * string,
      _ ← log_event None "group_membership" gn.1 "idp_group_member_removed"
            (sync_metadata u email i idp_name src gn.1 gn.2 sync_source);
      mret gn.2) named d2) as (r & d3 & Hf & (?&Hm3&?&?)).
  { intros g s. rewrite run_bind. by eexists _, _. }
  rewrite Hf. eexists r, d3. split; [done|]. split; [split_and!; congruence|].
  by rewrite Hm3, <- Hm1.
Qed.

(** A membership the synchronisation leaves alone although no claim names
    its group: the umbrella, or a group that is not a valid one of the
    provider. *)
Definition unsynced (d : db) (g : uuid) : Prop :=
  get_idp_base_group_id d i src = Some g ∨ valid_group_of_idp d i src g = false.

#[local] Instance unsynced_dec d g : Decision (unsynced d g).
Proof. unfold unsynced. apply _. Defined.

End sync.
