(* ===== verification/GroupFindings.v ===== *)
(** * Where the group code and its intent part

    Runs of the modelled services that end in states their documentation
    rules out: a cyclic hierarchy, grants that outlive the relationships they
    came from, and a conflict that surfaces as a constraint violation. *)

From S2P Require Import Prelude Graph GroupDb GroupLineage GroupService AppAccess GroupProofs.

(** ** A concrete tenant *)
Module Tenant.
#[export] Instance collation : Collation := String.leb.

(** An id above all ids in use. *)
#[export] Instance ids : UuidGen := λ d,
  map_fold (λ k _ m, Pos.max (Pos.succ k) m) 1%positive (groups d).

Lemma ids_above d x : is_Some (groups d !! x) → (x < gen_random_uuid d)%positive.
Proof.
  unfold gen_random_uuid, ids.
  apply (map_fold_weak_ind (λ m (G : gmap uuid group_row), is_Some (G !! x) → (x < m)%positive)).
  - rewrite lookup_empty. by intros [].
  - intros k g G m Hk IH. destruct (decide (k = x)) as [->|Hne]; [intros _; lia|].
    rewrite lookup_insert_ne by done. intros Hx%IH. lia.
Qed.

Lemma ids_fresh d : groups d !! gen_random_uuid d = None.
Proof.
  destruct (groups d !! _) eqn:E; [|done].
  assert (gen_random_uuid d < gen_random_uuid d)%positive; [|lia]. apply ids_above. by eexists.
Qed.

Definition boss : requesting_user := {| ru_id := 9; ru_role := super_admin |}.

(** Users 1 and 2, the SAML provider 7 named A, the service provider 5. *)
Definition empty_tenant : db :=
  mk_db ∅ ∅ ∅ ∅ {[1; 2]}%positive {[(saml, 7%positive) := "A"]}
    {[(sp, 5%positive) := mk_app "Wiki" false true true]} ∅ [] [].

Lemma empty_tenant_no_groups : no_groups empty_tenant.
Proof. done. Qed.
End Tenant.
Import Tenant.

(** The final state of a run of calls, each of which has to return. *)
Definition after (d : db) (calls : list (M db ())) : option db :=
  foldl (λ od call, d ← od;
    match call d with (Ok _, d') => Some d' | (Raise _, _) => None end) (Some d) calls.

(** Groups 2 and 3 are above and below the provider's base group 1; user 1 is
    a member of 3, and the service provider is assigned to 2. *)
Definition bridged_setup : list (M db ()) :=
  [discard (create_idp_base_group 7 "A" saml);
   discard (svc_create_group boss "Staff" None None);
   discard (svc_create_group boss "Night shift" None None);
   add_child boss 2 1; add_child boss 1 3; add_member boss 3 1;
   assign_sp_to_group boss 5 2]%positive.

(** Deleting a provider's groups does not revoke what was granted
    through them: after calls that all return, user 1 still opens service
    provider 5 although no relationship is left and the user is in no group
    assigned to it. *)
Theorem idp_deletion_leaves_access :
  ∃ d, after empty_tenant (bridged_setup ++ [discard (invalidate_idp_groups 7 "A" saml)])
       = Some d ∧
    user_can_access_sp d 1 5 = true ∧
    relationships d = ∅ ∧
    (∀ g, (g, 1%positive) ∈ memberships d → ((sp, 5%positive), g) ∉ assignments d) ∧
    app_open_to_all d (sp, 5%positive) = false.
Proof.
  eexists. split; [vm_compute; reflexivity|]. split; [vm_compute; reflexivity|].
  split; [vm_compute; reflexivity|]. split; [|vm_compute; reflexivity].
  assert (∀ (m : gset (uuid * uuid)) (a : gset ((app_kind * uuid) * uuid)),
    set_Forall (λ p : uuid * uuid, p.2 = 1%positive → ((sp, 5%positive), p.1) ∉ a) m →
    ∀ g, (g, 1%positive) ∈ m → ((sp, 5%positive), g) ∉ a) as Hall.
  { intros m a Hm g Hg. by apply (Hm (g, 1%positive) Hg). }
  apply Hall. apply (bool_decide_unpack _). vm_compute. exact I.
Qed.

(** The provider is renamed and renamed back; sign-ins in between. *)
Definition rename_setup : list (M db ()) :=
  [discard (create_idp_base_group 7 "A" saml);
   update_identity_provider boss 7 "B";
   ensure_user_in_base_group 1 "u@x" 7 "B" saml;
   discard (sync_user_idp_groups 1 "u@x" 7 "B" ["A"] saml "saml_authentication");
   update_identity_provider boss 7 "A";
   discard (sync_user_idp_groups 1 "u@x" 7 "A" ["B"] saml "saml_authentication");
   discard (svc_create_group boss "Staff" None None);
   add_child boss 3 1]%positive.

Lemma path_of_two_cycle (E : edges) (a b : uuid) n :
  (a, b) ∈ E → (b, a) ∈ E → (∃ y, path E y n a) ∧ ∃ y, path E y n b.
Proof.
  intros Hab Hba. induction n as [|n [[y Hy] [z Hz]]].
  - split; eexists; constructor.
  - split; eexists; [exact (path_snoc _ _ _ _ _ Hz Hba)|exact (path_snoc _ _ _ _ _ Hy Hab)].
Qed.

(** A SAML provider that is renamed and renamed back, with a sign-in
    after each renaming, ends with two groups above each other: the hierarchy
    is cyclic, and no number of iterations finishes the query that a later
    removal of an edge above them runs. *)
Theorem provider_rename_makes_cycle :
  ∃ d, after empty_tenant rename_setup = Some d ∧
    ¬ acyclic (relationships d) ∧
    (remove_child boss 3 1 d).1 = Raise StatementDiverges ∧
    ∀ fuel, cte_reachable fuel (relationships d ∖ {[(3, 1)]}%positive)
              (lineage_descendants (lineage d) 1) = None.
Proof.
  eexists. split; [vm_compute; reflexivity|].
  set (d := mk_db _ _ _ _ _ _ _ _ _ _).
  assert ((1, 2)%positive ∈ relationships d) as H12
    by (apply (bool_decide_unpack _); vm_compute; exact I).
  assert ((2, 1)%positive ∈ relationships d) as H21
    by (apply (bool_decide_unpack _); vm_compute; exact I).
  split; [|split; [vm_compute; reflexivity|]].
  - intros Hac. apply (Hac 1%positive 1). econstructor; [exact H12|]. by apply path_1.
  - intros fuel. apply cte_reachable_diverges. intros n.
    destruct (path_of_two_cycle (relationships d ∖ {[(3, 1)]}%positive) 1 2 n) as [[y Hy] _];
      [set_solver..|].
    exists y, 1%positive. split; [|done]. apply (bool_decide_unpack _). vm_compute. exact I.
Qed.

(** ** Assigning twice *)

(** Assigning a group that already has the service provider is answered
    with the table's constraint violation, never with the conflict error of
    the service. *)
Theorem assign_twice_raises `{Collation} u i g d :
  is_admin u → is_Some (apps d !! (sp, i)) → is_Some (groups d !! g) →
  ((sp, i), g) ∈ assignments d →
  assign_sp_to_group u i g d = (Raise (IntegrityError "uq_sp_group_assignment"), d).
Proof.
  intros Hu [a Ha] [row Hg] Hin. unfold assign_sp_to_group.
  rewrite run_require_admin_bind by done. unfold require_sp, require_group. run.
  rewrite Ha. run. destruct (get_group_by_id_Some d g row Hg) as (gd & -> & _). run.
  unfold create_assignment. run. by rewrite bool_decide_eq_true_2.
Qed.

(** ** Two requests at once *)

(** The tests of add_child and its write are separate transactions.  For
    two distinct, unrelated groups both orders pass the tests, and the two
    writes that then follow both insert their edge: the hierarchy becomes
    cyclic. *)
Theorem concurrent_add_child_makes_cycle a b d :
  closed d → a ≠ b → is_Some (groups d !! a) → is_Some (groups d !! b) →
  ¬ reach (relationships d) a b → ¬ reach (relationships d) b a →
  would_create_cycle d a b = false ∧ would_create_cycle d b a = false ∧
  ∃ d1 d2, add_group_relationship a b d = (Ok true, d1) ∧
    add_group_relationship b a d1 = (Ok true, d2) ∧ ¬ acyclic (relationships d2).
Proof.
  intros Hd Hab [ra Ha] [rb Hb] Hnab Hnba.
  assert (∀ x y, ¬ reach (relationships d) y x → would_create_cycle d x y = false) as Hcyc.
  { intros x y Hxy. apply bool_decide_eq_false. by intros [_ ?]%(lok_reach Hd). }
  split; [by apply Hcyc|]. split; [by apply Hcyc|].
  assert (∀ x y s, (x, y) ∉ relationships s → x ≠ y → groups s = groups d →
            is_Some (groups d !! x) → is_Some (groups d !! y) →
            ∃ s', add_group_relationship x y s = (Ok true, s') ∧
              relationships s' = {[(x, y)]} ∪ relationships s ∧ groups s' = groups s) as Hadd.
  { intros x y s Hn Hxy Hs [? Hx] [? Hy]. unfold add_group_relationship, transaction. run.
    rewrite decide_False by done. run. rewrite Hs, Hx, Hy.
    rewrite !bool_decide_eq_false_2 by done. run. by eexists. }
  destruct (Hadd a b d) as (d1 & H1 & E1 & G1); [|done..|by eexists|by eexists|].
  { intros He. apply Hnab. by exists 1; apply path_1. }
  destruct (Hadd b a d1) as (d2 & H2 & E2 & G2); [|done..|by eexists|by eexists|].
  { rewrite E1. intros [?|He]%elem_of_union; [set_solver|].
    apply Hnba. by exists 1; apply path_1. }
  exists d1, d2. split; [done|]. split; [done|]. intros Hac. apply (Hac a 1).
  apply (path_cons _ a b); [|apply path_1]; rewrite E2, E1; set_solver.
Qed.
