(* ===== verification/GroupWitness.v ===== *)
(** * The group theorems at work

    Each theorem of the group development applied to a concrete tenant, so
    that its hypotheses are seen to hold together. *)

From S2P Require Import Prelude Graph GroupDb GroupLineage GroupService AppAccess GroupProofs AccessProofs IdpProofs IdpSync GroupFindings.
Import Tenant.

(** Three groups in a chain 1 over 2 over 3, user 1 in the last, service
    provider 5 granted to the first. *)
Definition chain_history : list (requesting_user * group_call) :=
  [(boss, CallCreate "Top" None None); (boss, CallCreate "Mid" None None);
   (boss, CallCreate "Low" None None); (boss, CallAddChild 1 2); (boss, CallAddChild 2 3);
   (boss, CallAddChild 3 1); (boss, CallAddMember 3 1); (boss, CallAssign 5 1)]%positive.

Definition chain : db := run_history chain_history empty_tenant.

Lemma chain_closed : closed chain.
Proof. by apply closed_run_history, closed_no_groups. Qed.

Lemma boss_is_admin : is_admin boss.
Proof. by right. Qed.

Ltac decided := apply (bool_decide_unpack _); vm_compute; exact I.

Lemma empty_tenant_fks : fks empty_tenant.
Proof. split; intros ? ? ?; set_solver. Qed.


Lemma add_child_succeeds_iff_witness : ¬ (is_ok (add_child boss 3 1 chain).1 = true) ∧
  (3, 1)%positive ∉ relationships chain.
Proof.
  split; [|decided].
  intros (_ & _ & _ & _ & _ & Hr)%(add_child_succeeds_iff boss 3 1 chain chain_closed).
  apply Hr. exists 2. apply (path_cons _ 1 2 1 3)%positive; [decided|].
  apply (path_cons _ 2 3 0 3)%positive; [decided|constructor].
Defined.

Lemma remove_child_outcome_witness :
  (remove_child boss 1 2 chain).1 = Ok () ∧
  relationships (remove_child boss 1 2 chain).2 = relationships chain ∖ {[(1, 2)]}%positive.
Proof.
  pose proof (remove_child_outcome boss 1 2 chain chain_closed boss_is_admin) as H.
  assert (managed_edge chain 1 2 = false) as Hm by (vm_compute; reflexivity).
  cbv zeta in H. rewrite Hm in H.
  destruct (decide _) as [_|Hn] in H; [|exfalso; apply Hn; decided].
  split; [exact (proj1 H)|exact (proj2 (proj2 (proj2 (proj2 H))))].
Defined.

Lemma remove_all_relationships_outcome_witness :
  is_Some (groups chain !! 2%positive) ∧
  ∃ n d', remove_all_relationships boss 2 chain = (Ok n, d') ∧ closed d'.
Proof.
  assert (is_Some (groups chain !! 2%positive)) as H2 by (vm_compute; by eexists).
  split; [exact H2|].
  destruct (remove_all_relationships_outcome boss 2 chain chain_closed boss_is_admin H2)
    as (n & d' & Hr & Hc & _).
  exists n, d'. split; [exact Hr|exact Hc].
Defined.


Lemma effective_memberships_exact_witness :
  mr_group_id <$> get_effective_memberships chain 1 = [3; 2; 1]%positive ∧
  NoDup (mr_group_id <$> get_effective_memberships chain 1).
Proof.
  split; [vm_compute; reflexivity|].
  exact (proj1 (effective_memberships_exact chain_history empty_tenant 1
    empty_tenant_no_groups empty_tenant_fks)).
Defined.

Lemma access_relevant_iff_granted_witness :
  group_grants chain (sp, 5%positive) 1 = true ∧
  access_relevant_groups chain 1 (sp, 5%positive) ≠ ∅.
Proof.
  assert (group_grants chain (sp, 5%positive) 1 = true) as H by (vm_compute; reflexivity).
  split; [exact H|].
  exact (proj2 (access_relevant_iff_granted chain_history empty_tenant 1 (sp, 5%positive)
    empty_tenant_no_groups empty_tenant_fks) H).
Defined.

(** The tenant with the provider's base group 1, which has user 1. *)
Definition with_base : db :=
  ((discard (create_idp_base_group 7 "A" saml) ≫=
    λ _, ensure_user_in_base_group 1 "u@x" 7 "A" saml) empty_tenant).2.

Lemma empty_tenant_closed : closed empty_tenant.
Proof. by apply closed_no_groups. Qed.

Lemma with_base_closed : closed with_base.
Proof.
  assert (keeps closed (discard (create_idp_base_group 7 "A" saml))) as H1.
  { unfold discard, create_idp_base_group, create_idp_group. keeps_auto. }
  assert (keeps closed (ensure_user_in_base_group 1 "u@x" 7 "A" saml)) as H2.
  { unfold ensure_user_in_base_group, bulk_add_user_to_groups. apply keeps_bind.
    - unfold _get_or_create_base_group_id. keeps_auto. intros s Hs.
      assert (keeps closed (create_idp_base_group 7 "A" saml)) as H1'.
      { unfold create_idp_base_group, create_idp_group. keeps_auto. }
      specialize (H1' s Hs). by repeat case_match; simplify_eq/=.
    - keeps_auto. }
  by apply (keeps_bind closed _ _ H1), empty_tenant_closed.
Qed.

Lemma with_base_fks : ∀ g v, (g, v) ∈ memberships with_base → is_Some (groups with_base !! g).
Proof.
  assert (set_Forall (λ p : uuid * uuid, is_Some (groups with_base !! p.1))
            (memberships with_base)) as H by decided.
  intros g v Hin. exact (H (g, v) Hin).
Qed.

Lemma with_base_groups x row : groups with_base !! x = Some row → x = 1%positive.
Proof.
  assert (dom (groups with_base) = {[1%positive]}) as H by decided.
  intros Hx%elem_of_dom_2. set_solver.
Qed.

Lemma discovered_group_keeps_lineage_witness :
  closed (get_or_create_idp_group 7 "A" "Ops" saml with_base).2 ∧
  size (relationships (get_or_create_idp_group 7 "A" "Ops" saml with_base).2) = 1.
Proof.
  split; [|vm_compute; reflexivity].
  apply (discovered_group_keeps_lineage 7 "A" "Ops" saml with_base with_base_closed).
  intros g b Hg. exfalso. vm_compute in Hg. discriminate.
Defined.

Lemma claim_named_like_provider_raises_witness :
  get_or_create_idp_group 7 "A" "A" saml with_base =
    (Raise (IntegrityError "chk_no_self_relationship"), with_base).
Proof.
  apply (claim_named_like_provider_raises 7 "A" "A" saml with_base 1 with_base_closed);
    vm_compute; reflexivity.
Defined.

Lemma invalidate_idp_groups_keeps_lineage_witness :
  closed (invalidate_idp_groups 7 "A" saml with_base).2 ∧
  groups (invalidate_idp_groups 7 "A" saml with_base).2 = ∅.
Proof.
  split; [|vm_compute; reflexivity].
  apply (invalidate_idp_groups_keeps_lineage 7 "A" saml with_base with_base_closed).
  intros g y _ Hgy. exfalso.
  assert (relationships with_base = ∅) as HE by decided. rewrite HE in Hgy. set_solver.
Defined.


Lemma assign_twice_raises_witness :
  assign_sp_to_group boss 5 1 chain = (Raise (IntegrityError "uq_sp_group_assignment"), chain).
Proof.
  apply (assign_twice_raises boss 5 1 chain boss_is_admin); [vm_compute; by eexists..|decided].
Defined.

Definition two_groups : db :=
  run_history [(boss, CallCreate "Left" None None); (boss, CallCreate "Right" None None)]
    empty_tenant.

Lemma concurrent_add_child_makes_cycle_witness :
  ∃ d1 d2, add_group_relationship 1 2 two_groups = (Ok true, d1) ∧
    add_group_relationship 2 1 d1 = (Ok true, d2) ∧ ¬ acyclic (relationships d2).
Proof.
  assert (closed two_groups) as Hc by (by apply closed_run_history, closed_no_groups).
  assert (relationships two_groups = ∅) as HE by decided.
  assert (∀ a b, a ≠ b → ¬ reach (relationships two_groups) a b) as Hr.
  { rewrite HE. intros a b Hab [[|n] Hp]; inversion Hp; [done|set_solver]. }
  destruct (concurrent_add_child_makes_cycle 1 2 two_groups Hc) as (_ & _ & H);
    [done|vm_compute; by eexists..|by apply Hr|by apply Hr|exact H].
Defined.
