(* ===== verification/Sha256.v ===== *)
(** * SHA-256 and the encodings around it

    The parts of Python's hashlib and base64 that app/oauth2.py calls:
    [hashlib.sha256(..).hexdigest()] and [.digest()], and
    [base64.urlsafe_b64encode(..).rstrip("=")].  Words are integers below
    2^32 with the wrap-around of FIPS 180-4 written out. *)

From Stdlib Require Import ZArith List String Ascii.
From S2P Require Import Prelude.
Import ListNotations.
#[local] Open Scope Z_scope.

Definition word (x : Z) : Z := x mod 2 ^ 32.
Definition rotr (n x : Z) : Z :=
  Z.lor (Z.shiftr x n) (word (Z.shiftl x (32 - n))).
Definition Ch (x y z : Z) : Z := Z.lxor (Z.land x y) (Z.land (2 ^ 32 - 1 - x) z).
Definition Maj (x y z : Z) : Z := Z.lxor (Z.lxor (Z.land x y) (Z.land x z)) (Z.land y z).
Definition Sigma0 (x : Z) : Z := Z.lxor (Z.lxor (rotr 2 x) (rotr 13 x)) (rotr 22 x).
Definition Sigma1 (x : Z) : Z := Z.lxor (Z.lxor (rotr 6 x) (rotr 11 x)) (rotr 25 x).
Definition sigma0 (x : Z) : Z := Z.lxor (Z.lxor (rotr 7 x) (rotr 18 x)) (Z.shiftr x 3).
Definition sigma1 (x : Z) : Z := Z.lxor (Z.lxor (rotr 17 x) (rotr 19 x)) (Z.shiftr x 10).

(** The constants of the standard are the first 32 bits of the fractional
    parts of square and cube roots of primes; they are computed here, bit by
    bit from the top. *)
Definition root (k n : Z) : Z :=
  fold_left (λ r b, let r' := r + 2 ^ Z.of_nat b in if r' ^ k <=? n then r' else r)
    (rev (seq 0 36)) 0.
Definition is_prime (n : nat) : bool :=
  forallb (λ d, negb (Nat.eqb (n mod d) 0)) (seq 2 (n - 2)).
Definition primes (count : nat) : list Z :=
  map Z.of_nat (firstn count (filter is_prime (seq 2 310))).

Definition round_constants : list Z :=
  Eval vm_compute in map (λ p, word (root 3 (p * 2 ^ 96))) (primes 64).
Definition initial_hash : list Z :=
  Eval vm_compute in map (λ p, word (root 2 (p * 2 ^ 64))) (primes 8).

(** Big-endian bytes of a word, and back. *)
Definition word_bytes (x : Z) : list Z :=
  [Z.shiftr x 24; Z.land (Z.shiftr x 16) 255; Z.land (Z.shiftr x 8) 255; Z.land x 255].
Fixpoint words_of (l : list Z) : list Z :=
  match l with
  | a :: b :: c :: d :: l => (a * 2 ^ 24 + b * 2 ^ 16 + c * 2 ^ 8 + d) :: words_of l
  | _ => []
  end.

(** The padding: a one bit, zeros, and the bit length as 64 bits. *)
Definition pad (msg : list Z) : list Z :=
  let n := Z.of_nat (length msg) in
  let zeros := Z.to_nat ((55 - n) mod 64) in
  msg ++ 128 :: repeat 0 zeros ++
  word_bytes (8 * n / 2 ^ 32) ++ word_bytes (word (8 * n)).

(** The message schedule, newest word first. *)
Fixpoint schedule (n : nat) (w : list Z) : list Z :=
  match n with
  | O => w
  | S n =>
      let nth k := nth k w 0 in
      schedule n (word (sigma1 (nth 1%nat) + nth 6%nat + sigma0 (nth 14%nat) + nth 15%nat) :: w)
  end.

Definition compress_step (h : list Z) (kw : Z * Z) : list Z :=
  match h with
  | [a; b; c; d; e; f; g; hh] =>
      let t1 := hh + Sigma1 e + Ch e f g + kw.1 + kw.2 in
      let t2 := Sigma0 a + Maj a b c in
      [word (t1 + t2); a; b; c; word (d + t1); e; f; g]
  | _ => h
  end.

Definition compress (h block : list Z) : list Z :=
  let w := rev (schedule 48 (rev block)) in
  let h' := fold_left compress_step (combine round_constants w) h in
  map (λ p : Z * Z, word (p.1 + p.2)) (combine h h').

Fixpoint hash_blocks (fuel : nat) (h words : list Z) : list Z :=
  match fuel with
  | O => h
  | S fuel =>
      match words with
      | [] => h
      | _ => hash_blocks fuel (compress h (firstn 16 words)) (skipn 16 words)
      end
  end.

(** One iteration per block of 16 words; there are fewer blocks than words. *)
Definition sha256 (msg : list Z) : list Z :=
  let words := words_of (pad msg) in
  flat_map word_bytes (hash_blocks (length words) initial_hash words).

(** A Rocq string is a sequence of bytes: the UTF-8 encoding of the text. *)
Definition bytes_of (s : string) : list Z :=
  map (λ c, Z.of_nat (nat_of_ascii c)) (list_ascii_of_string s).

(** [str.isascii]. *)
Definition is_ascii (s : string) : bool := forallb (λ b, b <? 128) (bytes_of s).

Definition byte_char (n : Z) : ascii := ascii_of_nat (Z.to_nat n).

Definition hex_digit (n : Z) : ascii :=
  byte_char (if n <? 10 then 48 + n else 87 + n).
Definition hexdigest (l : list Z) : string :=
  string_of_list_ascii
    (flat_map (λ b, [hex_digit (Z.shiftr b 4); hex_digit (Z.land b 15)]) l).

Definition b64_digit (n : Z) : ascii :=
  byte_char (if n <? 26 then 65 + n
             else if n <? 52 then 71 + n
             else if n <? 62 then n - 4
             else if n =? 62 then 45 else 95).
(** [urlsafe_b64encode] with the trailing padding stripped. *)
Fixpoint b64url (l : list Z) : list ascii :=
  match l with
  | [] => []
  | [a] => [b64_digit (Z.shiftr a 2); b64_digit (Z.shiftl (Z.land a 3) 4)]
  | [a; b] =>
      [b64_digit (Z.shiftr a 2);
       b64_digit (Z.shiftl (Z.land a 3) 4 + Z.shiftr b 4);
       b64_digit (Z.shiftl (Z.land b 15) 2)]
  | a :: b :: c :: l =>
      b64_digit (Z.shiftr a 2) ::
      b64_digit (Z.shiftl (Z.land a 3) 4 + Z.shiftr b 4) ::
      b64_digit (Z.shiftl (Z.land b 15) 2 + Z.shiftr c 6) ::
      b64_digit (Z.land c 63) :: b64url l
  end.

Example sha256_abc : hexdigest (sha256 (bytes_of "abc")) =
  "ba7816bf8f01cfea414140de5dae2223b00361a396177a9cb410ff61f20015ad"%string.
Proof. vm_compute. reflexivity. Qed.

Example sha256_two_blocks :
  hexdigest (sha256 (bytes_of "abcdbcdecdefdefgefghfghighijhijkijkljklmklmnlmnomnopnopq")) =
  "248d6a61d20638b8e5c026930c3e6039a33ce45964ff2167f6ecedd419db06c1"%string.
Proof. vm_compute. reflexivity. Qed.

(** The example of RFC 7636, appendix B. *)
Example b64url_rfc7636 :
  string_of_list_ascii (b64url (sha256 (bytes_of "dBjftJeZ4CVP-mB92K27uhbUJU1p1r_wW1gFWFOEjXk"))) =
  "E9Melhoa2OwvFrEMTJguCHaoeK1t8URWbuGJSstw-cM"%string.
Proof. vm_compute. reflexivity. Qed.
