(* ===== verification/OAuthDb.v ===== *)
(** * The OAuth2 tables and their statements

    One tenant's rows of app/database/oauth2 (tokens.py, authorization.py,
    device.py, consent.py, sessions.py, clients.py), one definition per
    database function.  The groups, apps and audit events stay in the state
    of GroupDb, which a tenant contains.  Timestamps are microseconds; a
    statement reads them from the tenant's clock, which is both [now()] of
    the database and [datetime.now(UTC)] of the process. *)

From stdpp Require Import gmap strings.
From S2P Require Import Prelude GroupDb Sha256.
#[local] Open Scope Z_scope.

Inductive token_type := access | refresh.
#[export] Instance token_type_eq_dec : EqDecision token_type.
Proof. solve_decision. Defined.

Inductive client_type := normal | b2b.
#[export] Instance client_type_eq_dec : EqDecision client_type.
Proof. solve_decision. Defined.

Inductive device_status := pending | approved | denied | redeemed.
#[export] Instance device_status_eq_dec : EqDecision device_status.
Proof. solve_decision. Defined.

(** Of a client, the columns the grants and the logout queue read. *)
Record client_row := mk_client {
  cl_client_id : string;
  cl_type : client_type;
  cl_name : string;
  cl_service_user_id : option uuid;
  cl_is_active : bool;
  cl_oidc_enabled : bool;
  cl_is_public : bool;
  cl_device_grant_enabled : bool;
  cl_can_introspect : bool;
  cl_backchannel_logout_uri : option string;
}.

Record code_row := mk_code {
  ac_hash : string;
  ac_lookup : string;
  ac_client : uuid;
  ac_user : uuid;
  ac_redirect_uri : string;
  ac_challenge : option string;
  ac_method : option string;
  ac_expires_at : Z;
  ac_scope : option string;
  ac_nonce : option string;
  ac_auth_time : option Z;
  ac_sid : option string;
  ac_consumed_at : option Z;
}.

Record token_row := mk_token {
  tk_hash : string;
  tk_lookup : string;
  tk_type : token_type;
  tk_client : uuid;
  tk_user : uuid;
  tk_expires_at : Z;
  tk_created_at : Z;
  tk_parent : option uuid;
  tk_scope : option string;
  tk_grant : option uuid;
  tk_sid : option string;
}.

Record device_row := mk_device {
  dc_lookup : string;
  dc_user_lookup : string;
  dc_client : uuid;
  dc_scope : option string;
  dc_status : device_status;
  dc_user : option uuid;
  dc_auth_time : option Z;
  dc_poll_interval : Z;             (* seconds *)
  dc_last_polled_at : option Z;
  dc_expires_at : Z;
}.

Record consent_row := mk_consent {
  co_id : uuid;
  co_scopes : gset string;
}.

(** A row of oidc_session_clients, keyed by session and client. *)
Record session_row := mk_session {
  se_user : uuid;
  se_issuer : option string;
}.

(** A queued back-channel logout. *)
Record delivery := mk_delivery {
  de_client : uuid;
  de_sub : uuid;
  de_sid : string;
  de_issuer : string;
}.

Record account_row := mk_account {
  us_role : role;
  us_is_inactivated : bool;
  us_is_anonymized : bool;
}.

Record tenant := mk_tenant {
  dir : db;
  clock : Z;
  clients : gmap uuid client_row;
  codes : gmap uuid code_row;
  tokens : gmap uuid token_row;
  device_codes : gmap uuid device_row;
  consents : gmap (uuid * uuid) consent_row;         (* (client, user) *)
  session_clients : gmap (string * uuid) session_row; (* (sid, client) *)
  deliveries : list delivery;
  revoked_sids : gset string;
  idp_sessions : gset string;       (* sessions with an upstream sign-in *)
  accounts : gmap uuid account_row;
}.

Definition set_dir f t := mk_tenant (f (dir t)) (clock t) (clients t) (codes t) (tokens
  t) (device_codes t) (consents t) (session_clients t) (deliveries t) (revoked_sids t)
  (idp_sessions t) (accounts t).
Definition set_clock f t := mk_tenant (dir t) (f (clock t)) (clients t) (codes t)
  (tokens t) (device_codes t) (consents t) (session_clients t) (deliveries t)
  (revoked_sids t) (idp_sessions t) (accounts t).
Definition set_clients f t := mk_tenant (dir t) (clock t) (f (clients t)) (codes t)
  (tokens t) (device_codes t) (consents t) (session_clients t) (deliveries t)
  (revoked_sids t) (idp_sessions t) (accounts t).
Definition set_codes f t := mk_tenant (dir t) (clock t) (clients t) (f (codes t))
  (tokens t) (device_codes t) (consents t) (session_clients t) (deliveries t)
  (revoked_sids t) (idp_sessions t) (accounts t).
Definition set_tokens f t := mk_tenant (dir t) (clock t) (clients t) (codes t) (f
  (tokens t)) (device_codes t) (consents t) (session_clients t) (deliveries t)
  (revoked_sids t) (idp_sessions t) (accounts t).
Definition set_device_codes f t := mk_tenant (dir t) (clock t) (clients t) (codes t)
  (tokens t) (f (device_codes t)) (consents t) (session_clients t) (deliveries t)
  (revoked_sids t) (idp_sessions t) (accounts t).
Definition set_consents f t := mk_tenant (dir t) (clock t) (clients t) (codes t) (tokens
  t) (device_codes t) (f (consents t)) (session_clients t) (deliveries t) (revoked_sids t)
  (idp_sessions t) (accounts t).
Definition set_session_clients f t := mk_tenant (dir t) (clock t) (clients t) (codes t)
  (tokens t) (device_codes t) (consents t) (f (session_clients t)) (deliveries t)
  (revoked_sids t) (idp_sessions t) (accounts t).
Definition set_deliveries f t := mk_tenant (dir t) (clock t) (clients t) (codes t)
  (tokens t) (device_codes t) (consents t) (session_clients t) (f (deliveries t))
  (revoked_sids t) (idp_sessions t) (accounts t).
Definition set_revoked_sids f t := mk_tenant (dir t) (clock t) (clients t) (codes t)
  (tokens t) (device_codes t) (consents t) (session_clients t) (deliveries t) (f
  (revoked_sids t)) (idp_sessions t) (accounts t).
Definition set_idp_sessions f t := mk_tenant (dir t) (clock t) (clients t) (codes t)
  (tokens t) (device_codes t) (consents t) (session_clients t) (deliveries t)
  (revoked_sids t) (f (idp_sessions t)) (accounts t).
Definition set_accounts f t := mk_tenant (dir t) (clock t) (clients t) (codes t) (tokens
  t) (device_codes t) (consents t) (session_clients t) (deliveries t) (revoked_sids t)
  (idp_sessions t) (f (accounts t)).

(** ** What the code draws from outside

    [hash_token] and [verify_token_hash] are Argon2 (the salt is drawn when
    the hash is made, here from the state); [opaque_token] and [user_code] are
    the random strings of the secrets module; [new_id] is
    [gen_random_uuid()]. *)
Class Crypto := {
  hash_token : tenant → string → string;
  verify_token_hash : string → string → bool;   (* token, hash *)
}.
Class Entropy := {
  opaque_token : string → tenant → string;      (* prefix *)
  generate_user_code : nat → tenant → string;   (* attempt *)
  new_id : tenant → uuid;
}.

(** What the code relies on of Argon2. *)
Class CryptoLaws `{Crypto} := {
  verify_hash t x y : verify_token_hash x (hash_token t y) = true ↔ x = y;
}.

(** ** app/oauth2.py *)

Definition seconds (n : Z) : Z := n * 1000000.
Definition AUTHORIZATION_CODE_EXPIRY : Z := seconds 300.
Definition ACCESS_TOKEN_EXPIRY : Z := seconds 3600.
Definition REFRESH_TOKEN_EXPIRY : Z := seconds 2592000.
Definition CLIENT_CREDENTIALS_TOKEN_EXPIRY : Z := seconds 86400.
Definition DEVICE_CODE_EXPIRY : Z := seconds 600.
Definition DEVICE_POLL_INTERVAL_SECONDS : Z := 5.

Definition token_lookup (token : string) : string := hexdigest (sha256 (bytes_of token)).

Definition calculate_expires_at (t : tenant) (delta : Z) : Z := clock t + delta.


(** [code_verifier.encode("ascii")] raises on a verifier that is not ASCII. *)
Definition verify_pkce_challenge (code_verifier code_challenge : string) (method : option string) :
    outcome bool :=
  if bool_decide (method = Some "plain") then Ok (bool_decide (code_verifier = code_challenge))
  else if bool_decide (method = Some "S256") then
    if is_ascii code_verifier then
      Ok (bool_decide (String.string_of_list_ascii (b64url (sha256 (bytes_of code_verifier)))
                       = code_challenge))
    else Raise (PythonError "UnicodeEncodeError")
  else Ok false.

Definition USER_CODE_ALPHABET : string := "BCDFGHJKLMNPQRSTVWXZ".
Definition USER_CODE_LENGTH : nat := 8.

(** What a person types is modelled as ASCII. *)
Definition in_string (c : Ascii.ascii) (s : string) : bool :=
  bool_decide (c ∈ String.list_ascii_of_string s).
Definition separators : string := "- 	".

Definition normalize_user_code (value : string) : option string :=
  let cleaned := filter (λ c, in_string c separators = false)
                   (upper <$> String.list_ascii_of_string value) in
  if bool_decide (length cleaned ≠ USER_CODE_LENGTH) ||
     existsb (λ c, negb (in_string c USER_CODE_ALPHABET)) cleaned
  then None else Some (String.string_of_list_ascii cleaned).

Definition format_user_code (code : string) : string :=
  let half := (String.length code / 2)%nat in
  String.substring 0 half code +:+ "-" +:+
  String.substring half (String.length code - half) code.

(** ** database/oauth2/clients.py *)

Definition get_client_by_id (t : tenant) (x : uuid) : option client_row := clients t !! x.

Definition get_client_by_client_id (t : tenant) (client_id : string) : option (uuid * client_row) :=
  head (filter (λ kv : uuid * client_row, cl_client_id kv.2 = client_id)
          (map_to_list (clients t))).

(** The first row a statement with a unique key returns. *)
Definition find_row {A} (P : A → Prop) `{∀ a, Decision (P a)} (m : gmap uuid A) :
    option (uuid * A) :=
  head (filter (λ kv : uuid * A, P kv.2) (map_to_list m)).

Definition set_active (b : bool) (c : client_row) : client_row :=
  mk_client (cl_client_id c) (cl_type c) (cl_name c) (cl_service_user_id c) b
    (cl_oidc_enabled c) (cl_is_public c) (cl_device_grant_enabled c) (cl_can_introspect c)
    (cl_backchannel_logout_uri c).
Definition set_introspect (b : bool) (c : client_row) : client_row :=
  mk_client (cl_client_id c) (cl_type c) (cl_name c) (cl_service_user_id c) (cl_is_active c)
    (cl_oidc_enabled c) (cl_is_public c) (cl_device_grant_enabled c) b
    (cl_backchannel_logout_uri c).

(** [update oauth2_clients set .. where client_id = :client_id returning ..]. *)
Definition update_client (client_id : string) (f : client_row → client_row) :
    M tenant (option (uuid * client_row)) :=
  t ← gets id;
  match get_client_by_client_id t client_id with
  | None => mret None
  | Some (x, c) => _ ← modify (set_clients (insert x (f c))); mret (Some (x, f c))
  end.

Definition set_client_tenant_introspection (client_id : string) (enabled : bool) :
    M tenant (option (uuid * client_row)) :=
  update_client client_id (set_introspect enabled).

Definition deactivate_client_row (client_id : string) : M tenant (option (uuid * client_row)) :=
  update_client client_id (set_active false).
Definition reactivate_client_row (client_id : string) : M tenant (option (uuid * client_row)) :=
  update_client client_id (set_active true).

(** ** database/oauth2/tokens.py *)

(** The rows a set of deleted tokens takes with it: the parent_token_id
    foreign key cascades.  One round per row is more than the longest chain
    of parents. *)
Definition parent_in (gone : gset uuid) (r : token_row) : bool :=
  match tk_parent r with Some p => bool_decide (p ∈ gone) | None => false end.
Definition children (T : gmap uuid token_row) (gone : gset uuid) : gset uuid :=
  dom (filter (λ kv : uuid * token_row, parent_in gone kv.2 = true) T).
Fixpoint cascade (rounds : nat) (T : gmap uuid token_row) (gone : gset uuid) : gset uuid :=
  match rounds with
  | O => gone
  | S rounds => cascade rounds T (gone ∪ children T gone)
  end.

(** The ids a [delete from oauth2_tokens where P] names, and what is left. *)
Definition matching (P : token_row → Prop) `{∀ r, Decision (P r)} (T : gmap uuid token_row) :
    gset uuid := dom (filter (λ kv : uuid * token_row, P kv.2) T).
Definition remaining (T : gmap uuid token_row) (gone : gset uuid) : gmap uuid token_row :=
  filter (λ kv : uuid * token_row, kv.1 ∉ cascade (size T) T gone) T.

Definition delete_tokens (gone : gmap uuid token_row → gset uuid) : M tenant nat :=
  update (λ t, let g := gone (tokens t) in (size g, set_tokens (λ T, remaining T g) t)).

(** [insert into oauth2_tokens .. returning id], with the constraints of the
    table. *)
Definition insert_token (r : token_row) `{Entropy} : M tenant uuid :=
  t ← gets id;
  let x := new_id t in
  _ ← raise_if (bool_decide (is_Some (tokens t !! x))) (IntegrityError "oauth2_tokens_pkey");
  _ ← raise_if (bool_decide (is_Some (find_row (λ r', tk_lookup r' = tk_lookup r) (tokens t))))
        (IntegrityError "idx_oauth2_tokens_lookup");
  _ ← raise_if (bool_decide (clients t !! tk_client r = None))
        (IntegrityError "oauth2_tokens_client_id_fkey");
  _ ← raise_if (bool_decide (tk_user r ∉ users (dir t))) (IntegrityError "fk_user");
  _ ← raise_if (match tk_parent r with
                | Some p => bool_decide (tokens t !! p = None) | None => false end)
        (IntegrityError "oauth2_tokens_parent_token_id_fkey");
  _ ← modify (set_tokens (insert x r));
  mret x.

Section tokens.
Context `{Crypto} `{Entropy}.

Definition create_access_token (client user : uuid) (parent : option uuid)
    (is_client_credentials : bool) (scope : option string) (grant : option uuid) :
    M tenant string :=
  t ← gets id;
  let token := opaque_token "access" t in
  let expires_at := calculate_expires_at t
        (if is_client_credentials then CLIENT_CREDENTIALS_TOKEN_EXPIRY else ACCESS_TOKEN_EXPIRY) in
  _ ← insert_token (mk_token (hash_token t token) (token_lookup token) access client user
        expires_at (clock t) parent scope grant None);
  mret token.

Definition create_refresh_token (client user : uuid) (scope : option string)
    (grant : option uuid) (sid : option string) : M tenant (string * uuid) :=
  t ← gets id;
  let token := opaque_token "refresh" t in
  x ← insert_token (mk_token (hash_token t token) (token_lookup token) refresh client user
        (calculate_expires_at t REFRESH_TOKEN_EXPIRY) (clock t) None scope grant sid);
  mret (token, x).

(** The row the indexed digest selects, checked against its hash. *)
Definition verified {A} (token : string) (hash : A → string) (row : option (uuid * A)) :
    option (uuid * A) :=
  match row with
  | Some (x, r) => if verify_token_hash token (hash r) then Some (x, r) else None
  | None => None
  end.

Definition validate_token (t : tenant) (token : string) : option (uuid * token_row) :=
  verified token tk_hash
    (find_row (λ r, tk_type r = access ∧ tk_lookup r = token_lookup token ∧
                    clock t < tk_expires_at r) (tokens t)).

Definition find_token (t : tenant) (token : string) : option (uuid * token_row) :=
  verified token tk_hash
    (find_row (λ r, tk_lookup r = token_lookup token ∧ clock t < tk_expires_at r ∧
                    is_Some (clients t !! tk_client r)) (tokens t)).

Definition delete_token (x : uuid) : M tenant nat :=
  delete_tokens (λ T, dom T ∩ {[x]}).

Definition validate_refresh_token (t : tenant) (token : string) (client : uuid) :
    option (uuid * token_row) :=
  verified token tk_hash
    (find_row (λ r, tk_type r = refresh ∧ tk_client r = client ∧
                    tk_lookup r = token_lookup token ∧ clock t < tk_expires_at r) (tokens t)).

Definition reparent (old new : uuid) (r : token_row) : token_row :=
  if decide (tk_parent r = Some old) then
    mk_token (tk_hash r) (tk_lookup r) (tk_type r) (tk_client r) (tk_user r) (tk_expires_at r)
      (tk_created_at r) (Some new) (tk_scope r) (tk_grant r) (tk_sid r)
  else r.

Definition rotate_refresh_token (old client user : uuid) (scope : option string)
    (grant : option uuid) (expires_at : Z) (sid : option string) :
    M tenant (option (string * uuid)) :=
  transaction
    (t ← gets id;
     let token := opaque_token "refresh" t in
     match tokens t !! old with
     | Some r =>
         if decide (tk_type r = refresh) then
           x ← insert_token (mk_token (hash_token t token) (token_lookup token) refresh client
                 user expires_at (clock t) None scope grant sid);
           _ ← modify (set_tokens (fmap (reparent old x)));
           _ ← delete_token old;
           mret (Some (token, x))
         else mret None
     | None => mret None
     end).

Definition revoke_grant_tokens (grant : uuid) : M tenant nat :=
  delete_tokens (matching (λ r, tk_grant r = Some grant)).

Definition revoke_session_refresh_tokens (sid : string) : M tenant nat :=
  delete_tokens (matching (λ r, tk_type r = refresh ∧ tk_sid r = Some sid)).

Definition revoke_token_by_hash (hash : string) : M tenant nat :=
  delete_tokens (matching (λ r, tk_hash r = hash)).

Definition revoke_all_client_tokens (client : uuid) : M tenant nat :=
  delete_tokens (matching (λ r, tk_client r = client)).

Definition revoke_user_client_tokens (user client : uuid) : M tenant nat :=
  _ ← modify (set_codes (filter (λ kv : uuid * code_row,
        ¬ (ac_user kv.2 = user ∧ ac_client kv.2 = client ∧ ac_consumed_at kv.2 = None))));
  _ ← modify (set_device_codes (filter (λ kv : uuid * device_row,
        ¬ (dc_user kv.2 = Some user ∧ dc_client kv.2 = client ∧ dc_status kv.2 = approved))));
  delete_tokens (matching (λ r, tk_user r = user ∧ tk_client r = client)).

(** The tenant's part of the cross-tenant sweep purge_expired_oauth2_tokens. *)
Definition purge_expired_tokens (older_than_days : Z) : M tenant nat :=
  t ← gets id;
  delete_tokens (matching (λ r, tk_expires_at r < clock t - seconds (86400 * older_than_days))).

Definition revoke_all_user_tokens (user : uuid) : M tenant nat :=
  _ ← modify (set_device_codes (filter (λ kv : uuid * device_row,
        ¬ (dc_user kv.2 = Some user ∧ dc_status kv.2 = approved))));
  delete_tokens (matching (λ r, tk_user r = user)).
End tokens.

(** ** database/oauth2/authorization.py *)

(** What a redemption learns about the code. *)
Record code_data := mk_code_data {
  cd_id : uuid;
  cd_user : uuid;
  cd_scope : option string;
  cd_nonce : option string;
  cd_auth_time : option Z;
  cd_sid : option string;
}.

Definition consume (now : Z) (r : code_row) : code_row :=
  mk_code (ac_hash r) (ac_lookup r) (ac_client r) (ac_user r) (ac_redirect_uri r)
    (ac_challenge r) (ac_method r) (ac_expires_at r) (ac_scope r) (ac_nonce r)
    (ac_auth_time r) (ac_sid r) (Some now).

Section codes.
Context `{Crypto} `{Entropy}.

Definition valid_method (m : option string) : bool :=
  match m with None => true | Some m => bool_decide (m = "S256" ∨ m = "plain") end.

Definition create_authorization_code (client user : uuid) (redirect_uri : string)
    (challenge method scope nonce : option string) (auth_time : option Z) (sid : option string) :
    M tenant string :=
  t ← gets id;
  let code := opaque_token "auth" t in
  let x := new_id t in
  _ ← raise_if (bool_decide (is_Some (codes t !! x)))
        (IntegrityError "oauth2_authorization_codes_pkey");
  _ ← raise_if (bool_decide (is_Some (find_row (λ r, ac_lookup r = token_lookup code) (codes t))))
        (IntegrityError "idx_oauth2_authorization_codes_lookup");
  _ ← raise_if (bool_decide (clients t !! client = None))
        (IntegrityError "oauth2_authorization_codes_client_id_fkey");
  _ ← raise_if (bool_decide (user ∉ users (dir t))) (IntegrityError "fk_user");
  _ ← raise_if (negb (valid_method method))
        (IntegrityError "oauth2_authorization_codes_code_challenge_method_check");
  _ ← modify (set_codes (insert x (mk_code (hash_token t code) (token_lookup code) client user
        redirect_uri challenge method (calculate_expires_at t AUTHORIZATION_CODE_EXPIRY)
        scope nonce auth_time sid None)));
  mret code.

(** [update .. set consumed_at = now() where id = :id and consumed_at is null]:
    the number of updated rows. *)
Definition consume_code (x : uuid) : M tenant nat :=
  update (λ t, match codes t !! x with
               | Some r =>
                   if decide (ac_consumed_at r = None)
                   then (1%nat, set_codes (insert x (consume (clock t) r)) t) else (0%nat, t)
               | None => (0%nat, t)
               end).

(** The row the lookup finds, if the presented code verifies against it. *)
Definition find_code (t : tenant) (code : string) (client : uuid) (redirect_uri : string) :
    option (uuid * code_row) :=
  verified code ac_hash
    (find_row (λ r, ac_client r = client ∧ ac_redirect_uri r = redirect_uri ∧
                    ac_lookup r = token_lookup code ∧ clock t < ac_expires_at r) (codes t)).

(** [if matching_code["code_challenge"]]: the verifier has to match it. *)
Definition pkce_ok (r : code_row) (verifier : option string) : outcome bool :=
  match ac_challenge r with
  | None | Some "" => Ok true
  | Some challenge =>
      match verifier with
      | None | Some "" => Ok false
      | Some v => verify_pkce_challenge v challenge (ac_method r)
      end
  end.

(** The code's data and whether it had been redeemed before. *)
Definition db_validate_and_consume_code (code : string) (client : uuid) (redirect_uri : string)
    (verifier : option string) : M tenant (option (code_data * bool)) :=
  t ← gets id;
  match find_code t code client redirect_uri with
  | None => mret None
  | Some (x, r) =>
      ok ← lift (pkce_ok r verifier);
      if (ok : bool) then
        reused ←
          (if decide (ac_consumed_at r ≠ None) then mret true
           else n ← consume_code x; mret (bool_decide (n = 0%nat)));
        mret (Some (mk_code_data x (ac_user r) (ac_scope r) (ac_nonce r) (ac_auth_time r)
                      (ac_sid r), reused))
      else mret None
  end.

Definition cleanup_expired_codes : M tenant nat :=
  update (λ t, let gone := filter (λ kv : uuid * code_row, ac_expires_at kv.2 <= clock t) (codes t) in
               (size gone, set_codes (λ C, C ∖ gone) t)).
End codes.

(** ** database/oauth2/device.py *)

Definition _EXPIRED_RETENTION_SECONDS : Z := 3600.
Definition _POLL_SLACK_SECONDS : Z := 1.
Definition _USER_CODE_ATTEMPTS : nat := 5.

Record device_created := mk_device_created {
  dv_id : uuid; dv_device_code : string; dv_user_code : string;
  dv_expires_at : Z; dv_poll_interval : Z;
}.

Definition with_status (s : device_status) (r : device_row) : device_row :=
  mk_device (dc_lookup r) (dc_user_lookup r) (dc_client r) (dc_scope r) s (dc_user r)
    (dc_auth_time r) (dc_poll_interval r) (dc_last_polled_at r) (dc_expires_at r).
Definition decided (s : device_status) (user : uuid) (auth_time : option Z) (r : device_row) :
    device_row :=
  mk_device (dc_lookup r) (dc_user_lookup r) (dc_client r) (dc_scope r) s (Some user)
    auth_time (dc_poll_interval r) (dc_last_polled_at r) (dc_expires_at r).
Definition polled (now interval : Z) (r : device_row) : device_row :=
  mk_device (dc_lookup r) (dc_user_lookup r) (dc_client r) (dc_scope r) (dc_status r) (dc_user r)
    (dc_auth_time r) interval (Some now) (dc_expires_at r).

Section devices.
Context `{Crypto} `{Entropy}.

(** The loop over the attempts left: [on conflict (tenant_id,
    user_code_lookup) do nothing] leaves no row, and another user code is
    drawn. *)
Fixpoint device_attempts (left : nat) (device_code : string) (client : uuid)
    (scope : option string) : M tenant device_created :=
  match left with
  | O => raise (PythonError "RuntimeError")
  | S left' =>
      t ← gets id;
      let user_code := generate_user_code (_USER_CODE_ATTEMPTS - left) t in
      let row := mk_device (token_lookup device_code) (token_lookup user_code) client scope
                   pending None None DEVICE_POLL_INTERVAL_SECONDS None
                   (calculate_expires_at t DEVICE_CODE_EXPIRY) in
      if decide (is_Some (find_row (λ r, dc_user_lookup r = token_lookup user_code)
                            (device_codes t)))
      then device_attempts left' device_code client scope
      else
        let x := new_id t in
        _ ← raise_if (bool_decide (is_Some (device_codes t !! x)))
              (IntegrityError "oauth2_device_codes_pkey");
        _ ← raise_if (bool_decide (is_Some (find_row (λ r, dc_lookup r = dc_lookup row)
                                              (device_codes t))))
              (IntegrityError "uq_oauth2_device_codes_device_lookup");
        _ ← raise_if (bool_decide (clients t !! client = None))
              (IntegrityError "oauth2_device_codes_client_id_fkey");
        _ ← modify (set_device_codes (insert x row));
        mret (mk_device_created x device_code user_code (dc_expires_at row) (dc_poll_interval row))
  end.

Definition create_device_code (client : uuid) (scope : option string) : M tenant device_created :=
  t ← gets id;
  device_attempts _USER_CODE_ATTEMPTS (opaque_token "device" t) client scope.

Definition get_pending_by_user_code (t : tenant) (user_code : string) :
    option (uuid * device_row) :=
  find_row (λ r, dc_user_lookup r = token_lookup user_code ∧ dc_status r = pending ∧
                 clock t < dc_expires_at r) (device_codes t).

(** A conditional update of one row: the updated row when it applied. *)
Definition update_device (x : uuid) (P : tenant → device_row → bool)
    (f : tenant → device_row → device_row) : M tenant (option device_row) :=
  update (λ t, match device_codes t !! x with
               | Some r => if P t r then (Some (f t r), set_device_codes (insert x (f t r)) t)
                           else (None, t)
               | None => (None, t)
               end).

Definition live (s : device_status) (t : tenant) (r : device_row) : bool :=
  bool_decide (dc_status r = s ∧ clock t < dc_expires_at r).

Definition decide_device_code (x : uuid) (approve : bool) (user : uuid) (auth_time : option Z) :
    M tenant (option device_row) :=
  update_device x (live pending) (λ _, decided (if approve then approved else denied) user
                                         (if approve then auth_time else None)).

Definition find_device_code (t : tenant) (device_code : string) (client : uuid) :
    option (uuid * device_row) :=
  find_row (λ r, dc_lookup r = token_lookup device_code ∧ dc_client r = client) (device_codes t).

Definition too_soon (t : tenant) (r : device_row) : bool :=
  match dc_last_polled_at r with
  | Some last =>
      bool_decide (clock t - seconds (Z.max (dc_poll_interval r - _POLL_SLACK_SECONDS) 0) < last)
  | None => false
  end.
Definition next_interval (t : tenant) (r : device_row) : Z :=
  if too_soon t r then Z.min (dc_poll_interval r + 5) 300 else dc_poll_interval r.

(** Whether the poll came too soon, and the resulting interval. *)
Definition record_poll (x : uuid) : M tenant (option (bool * Z)) :=
  t ← gets id;
  r ← update_device x (λ _ _, true) (λ t r, polled (clock t) (next_interval t r) r);
  match device_codes t !! x, r with
  | Some before, Some after => mret (Some (too_soon t before, dc_poll_interval after))
  | _, _ => mret None
  end.

Definition redeem_device_code (x : uuid) : M tenant (option device_row) :=
  update_device x (live approved) (λ _, with_status redeemed).

Definition cleanup_expired_device_codes : M tenant nat :=
  update (λ t, let gone := filter (λ kv : uuid * device_row,
                     dc_expires_at kv.2 <= clock t - seconds _EXPIRED_RETENTION_SECONDS)
                     (device_codes t) in
               (size gone, set_device_codes (λ D, D ∖ gone) t)).
End devices.

(** ** database/oauth2/consent.py *)

Definition get_consent_grant (t : tenant) (client user : uuid) : option consent_row :=
  consents t !! (client, user).

Definition get_consent_grant_by_id (t : tenant) (x : uuid) : option ((uuid * uuid) * consent_row) :=
  head (filter (λ kv : (uuid * uuid) * consent_row, co_id kv.2 = x) (map_to_list (consents t))).

(** [insert .. on conflict (client_id, user_id) do update set scopes = union]. *)
Definition upsert_consent_grant `{Entropy} (client user : uuid) (scopes : gset string) :
    M tenant consent_row :=
  t ← gets id;
  let row := match consents t !! (client, user) with
             | Some r => mk_consent (co_id r) (co_scopes r ∪ scopes)
             | None => mk_consent (new_id t) scopes
             end in
  _ ← modify (set_consents (insert (client, user) row));
  mret row.

Definition delete_consents (P : uuid * uuid → consent_row → bool) : M tenant nat :=
  update (λ t, let gone := filter (λ kv : (uuid * uuid) * consent_row, P kv.1 kv.2 = true)
                             (consents t) in
               (size gone, set_consents (λ C, C ∖ gone) t)).

Definition delete_consent_grant (x : uuid) : M tenant nat :=
  delete_consents (λ _ r, bool_decide (co_id r = x)).
Definition delete_consent_grants_for_user (user : uuid) : M tenant nat :=
  delete_consents (λ k _, bool_decide (k.2 = user)).
Definition delete_consent_grants_for_client (client : uuid) : M tenant nat :=
  delete_consents (λ k _, bool_decide (k.1 = client)).

(** ** database/oauth2/sessions.py *)

Definition upsert_session_client (sid : string) (client user : uuid) (issuer : option string) :
    M tenant () :=
  modify (set_session_clients (λ S,
    <[(sid, client) := mk_session user
        (match issuer with
         | Some i => Some i
         | None => S !! (sid, client) ≫= se_issuer
         end)]> S)).

(** The row of a client that is signed out with a session. *)
Record consumed_row := mk_consumed {
  cs_sid : string; cs_client : uuid; cs_user : uuid; cs_issuer : string; cs_queued : bool;
}.

(** A delivery is queued for an active, normal, OIDC client that registered a
    back-channel URI and is not the excluded one. *)
Definition wants_delivery (c : client_row) (client : uuid) (exclude : option uuid) : bool :=
  bool_decide (is_Some (cl_backchannel_logout_uri c)) && bool_decide (cl_type c = normal) &&
  cl_is_active c && cl_oidc_enabled c && negb (bool_decide (exclude = Some client)).

Definition consumed_of (t : tenant) (issuer : string) (exclude : option uuid)
    (kv : (string * uuid) * session_row) : option consumed_row :=
  c ← clients t !! kv.1.2;
  Some (mk_consumed kv.1.1 kv.1.2 (se_user kv.2) (default issuer (se_issuer kv.2))
          (wants_delivery c kv.1.2 exclude)).

Definition delivery_of (r : consumed_row) : option delivery :=
  if cs_queued r then Some (mk_delivery (cs_client r) (cs_user r) (cs_sid r) (cs_issuer r))
  else None.

(** The statement [_CONSUME_SQL]: the matching rows whose client exists are
    deleted, and their deliveries queued. *)
Definition consume_sessions (P : string * uuid → session_row → bool) (issuer : string)
    (exclude : option uuid) : M tenant (list consumed_row) :=
  update (λ t,
    let gone := filter (λ kv : (string * uuid) * session_row,
                  P kv.1 kv.2 = true ∧ is_Some (clients t !! kv.1.2)) (session_clients t) in
    let rows := omap (consumed_of t issuer exclude) (map_to_list gone) in
    (rows, set_deliveries (λ q, q ++ omap delivery_of rows)
             (set_session_clients (λ S, S ∖ gone) t))).

Definition consume_session_clients (sid issuer : string) (exclude : option uuid) :
    M tenant (list consumed_row) :=
  consume_sessions (λ k _, bool_decide (k.1 = sid)) issuer exclude.
Definition consume_user_session_clients (user : uuid) (issuer : string) :
    M tenant (list consumed_row) :=
  consume_sessions (λ _ r, bool_decide (se_user r = user)) issuer None.
Definition consume_user_client_session_clients (user client : uuid) (issuer : string) :
    M tenant (list consumed_row) :=
  consume_sessions (λ k r, bool_decide (se_user r = user ∧ k.2 = client)) issuer None.

Example normalize_ex : normalize_user_code "bcdf-ghjk" = Some "BCDFGHJK".
Proof. vm_compute. reflexivity. Qed.
Example normalize_tab : normalize_user_code "BCDF	ghjk " = Some "BCDFGHJK".
Proof. vm_compute. reflexivity. Qed.
Example format_ex : format_user_code "BCDFGHJK" = "BCDF-GHJK".
Proof. vm_compute. reflexivity. Qed.

(** ** database/revoked_sessions.py and database/oidc_upstream.py *)

Definition revoke_session_row (sid : string) : M tenant nat :=
  update (λ t, ((if decide (sid ∈ revoked_sids t) then 0%nat else 1%nat),
                set_revoked_sids (λ R, {[sid]} ∪ R) t)).
Definition is_session_revoked (t : tenant) (sid : string) : bool :=
  bool_decide (sid ∈ revoked_sids t).
Definition delete_idp_session (sid : string) : M tenant () :=
  modify (set_idp_sessions (λ R, R ∖ {[sid]})).
