(* ===== verification/OAuthService.v ===== *)
(** * The OAuth2 services and the token endpoint

    app/services/oauth2.py, oauth2_tokens.py, oauth2_device.py,
    oidc/{access,consent,logout,tokens}.py, sessions.py, the user lifecycle
    of users/state.py, and the token endpoint of app/routers/oauth2.py from
    the point where the client has authenticated. *)

From stdpp Require Import gmap strings.
From S2P Require Import Prelude GroupDb AppAccess Sha256 OAuthDb.
#[local] Open Scope Z_scope.

(** An audit event of the tenant. *)
Definition audit (actor : option uuid) (artifact_type : string) (artifact_id : uuid)
    (event_type : string) (metadata : list (string * meta)) : M tenant () :=
  modify (set_dir (set_events (λ l, l ++ [mk_event actor artifact_type artifact_id
    event_type metadata]))).
Definition touch (u : uuid) : M tenant () := modify (set_dir (set_activity (λ l, l ++ [u]))).

Definition opt_str (s : option string) : meta := from_option MStr MNull s.

(** [{s for s in scope.split() if s}]. *)
Fixpoint split_words (word : list Ascii.ascii) (l : list Ascii.ascii) : list string :=
  let flush := match word with [] => [] | _ => [String.string_of_list_ascii (rev word)] end in
  match l with
  | [] => flush
  | c :: l => if is_space c then flush ++ split_words [] l else split_words (c :: word) l
  end.
Definition parse_scope (scope : option string) : gset string :=
  match scope with
  | None => ∅
  | Some s => list_to_set (split_words [] (String.list_ascii_of_string s))
  end.
Definition SCOPE_OPENID : string := "openid".

Example parse_scope_ex : parse_scope (Some " openid  email ") = {["openid"; "email"]}.
Proof. vm_compute. reflexivity. Qed.

Section services.
Context `{Crypto} `{Entropy}.

(** ** services/oauth2.py *)

Definition svc_create_authorization_code (client user : uuid) (redirect_uri : string)
    (challenge method scope nonce : option string) (auth_time : option Z) (sid : option string) :
    M tenant string :=
  _ ← cleanup_expired_codes;
  create_authorization_code client user redirect_uri challenge method scope nonce auth_time sid.

Definition validate_and_consume_code (code : string) (client : uuid) (redirect_uri : string)
    (verifier : option string) : M tenant (option code_data) :=
  r ← db_validate_and_consume_code code client redirect_uri verifier;
  match r with
  | None => mret None
  | Some (d, true) =>
      revoked ← revoke_grant_tokens (cd_id d);
      _ ← audit (Some (cd_user d)) "oauth2_client" client "oauth2_authorization_code_reused"
            [("grant_id", MId (cd_id d)); ("tokens_revoked", MNat revoked)];
      mret None
  | Some (d, false) => mret (Some d)
  end.

(** The new token keeps the validated one's user, scope, grant, session and
    expiry. *)
Definition svc_rotate_refresh_token (client : uuid) (old : uuid * token_row) :
    M tenant (option (string * uuid)) :=
  rotate_refresh_token old.1 client (tk_user old.2) (tk_scope old.2) (tk_grant old.2)
    (tk_expires_at old.2) (tk_sid old.2).

Definition client_type_name (c : client_type) : string :=
  match c with normal => "normal" | b2b => "b2b" end.

Definition deactivate_client (client_id : string) (actor : uuid) :
    M tenant (option (uuid * client_row)) :=
  old ← gets (λ t, get_client_by_client_id t client_id);
  match old with
  | None => mret None
  | Some (x, _) =>
      result ← deactivate_client_row client_id;
      match result with
      | None => mret None
      | Some (y, c) =>
          _ ← revoke_all_client_tokens x;
          n ← delete_consent_grants_for_client x;
          _ ← audit (Some actor) "oauth2_client" y "oauth2_client_deactivated"
                [("name", MStr (cl_name c)); ("client_id", MStr client_id);
                 ("client_type", MStr (client_type_name (cl_type c)));
                 ("consents_revoked", MNat n)];
          mret (Some (y, c))
      end
  end.

Definition reactivate_client (client_id : string) (actor : uuid) :
    M tenant (option (uuid * client_row)) :=
  result ← reactivate_client_row client_id;
  match result with
  | None => mret None
  | Some (y, c) =>
      _ ← audit (Some actor) "oauth2_client" y "oauth2_client_reactivated"
            [("name", MStr (cl_name c)); ("client_id", MStr client_id);
             ("client_type", MStr (client_type_name (cl_type c)))];
      mret (Some (y, c))
  end.

(** ** services/oidc/access.py *)

Definition user_can_access_client (user client : uuid) (c : client_row) : M tenant bool :=
  allowed ← gets (λ t, user_can_access_oauth2_client (dir t) user client);
  _ ← when (negb allowed)
        (audit (Some user) "oauth2_client" client "oidc_access_denied"
           [("client_id", MStr (cl_client_id c)); ("client_name", MStr (cl_name c))]);
  mret allowed.

(** ** services/oidc/tokens.py

    The claims of the ID token; [sub] is derived from [id_user] by
    services/oidc/subject.py, and the claims are signed with the tenant's
    active key, neither of which is modelled.  Times are whole seconds. *)
Record id_claims := mk_id_claims {
  id_iss : string;
  id_user : uuid;
  id_aud : string;
  id_iat : Z;
  id_exp : Z;
  id_auth_time : Z;
  id_nonce : option string;
  id_sid : option string;
}.

Definition to_seconds (micros : Z) : Z := micros / 1000000.
Definition ID_TOKEN_EXPIRY : Z := seconds 3600.

(** [if nonce:] and [if sid:]: an empty string counts as absent. *)
Definition truthy (s : option string) : option string :=
  match s with Some "" => None | _ => s end.

Definition issue_id_token (issuer : string) (client : uuid) (c : client_row) (user : uuid)
    (scopes : gset string) (nonce : option string) (auth_time : option Z)
    (sid : option string) : M tenant id_claims :=
  now ← gets clock;
  let claims := mk_id_claims issuer user (cl_client_id c) (to_seconds now)
        (to_seconds (now + ID_TOKEN_EXPIRY))
        (from_option to_seconds (to_seconds now) auth_time) (truthy nonce) (truthy sid) in
  _ ← match truthy sid with
      | Some s => upsert_session_client s client user (Some issuer)
      | None => mret ()
      end;
  _ ← audit (Some user) "oauth2_client" client "oidc_id_token_issued"
        [("client_id", MStr (cl_client_id c)); ("scopes", MStrs (elements scopes));
         ("nonce_echoed", MBool (bool_decide (is_Some (truthy nonce))))];
  mret claims.

(** ** services/oauth2_device.py *)

Inductive poll_outcome :=
  | AUTHORIZATION_PENDING | SLOW_DOWN | EXPIRED_TOKEN | ACCESS_DENIED | INVALID_GRANT
  | APPROVED (x : uuid) (row : device_row).

Definition outcome_name (o : poll_outcome) : string :=
  match o with
  | AUTHORIZATION_PENDING => "authorization_pending"
  | SLOW_DOWN => "slow_down"
  | EXPIRED_TOKEN => "expired_token"
  | ACCESS_DENIED => "access_denied"
  | INVALID_GRANT => "invalid_grant"
  | APPROVED _ _ => "approved"
  end.

Definition client_can_use_device_grant (c : client_row) : bool :=
  bool_decide (cl_type c = normal) && cl_is_active c && cl_device_grant_enabled c.

Record device_authorization := mk_device_authorization {
  da_device_code : string; da_user_code : string; da_expires_in : Z; da_interval : Z;
}.

Definition device_metadata (c : client_row) (x : uuid) (scope : option string) :
    list (string * meta) :=
  [("client_id", MStr (cl_client_id c)); ("client_name", MStr (cl_name c));
   ("device_request_id", MId x); ("scope", opt_str scope)].

Definition start_device_authorization (client : uuid) (c : client_row) (scope : option string) :
    M tenant device_authorization :=
  _ ← raise_if (negb (client_can_use_device_grant c))
        (ServiceError ForbiddenError "unauthorized_client");
  _ ← cleanup_expired_device_codes;
  created ← create_device_code client scope;
  _ ← audit None "oauth2_client" client "oauth2_device_authorization_requested"
        (device_metadata c (dv_id created) scope);
  mret (mk_device_authorization (dv_device_code created) (format_user_code (dv_user_code created))
          (to_seconds DEVICE_CODE_EXPIRY) (dv_poll_interval created)).

Record pending_request := mk_pending_request {
  pr_id : uuid; pr_client_uuid : uuid; pr_client : client_row;
  pr_scope : option string; pr_user_code : string;
}.

Definition find_pending_request (t : tenant) (user_code : string) : option pending_request :=
  normalized ← normalize_user_code user_code;
  row ← get_pending_by_user_code t normalized;
  c ← get_client_by_id t (dc_client row.2);
  if client_can_use_device_grant c
  then Some (mk_pending_request row.1 (dc_client row.2) c (dc_scope row.2)
               (format_user_code normalized))
  else None.

(** ** services/oidc/consent.py *)

Definition consent_covers (t : tenant) (client user : uuid) (scopes : gset string) : bool :=
  match get_consent_grant t client user with
  | None => false
  | Some g => bool_decide (scopes ⊆ co_scopes g)
  end.

(** [existing is not None and scopes <= set(existing["scopes"] or [])]. *)
Definition covering_grant (existing : option consent_row) (scopes : gset string) :
    option consent_row :=
  g ← existing; if decide (scopes ⊆ co_scopes g) then Some g else None.

Definition record_consent (client : uuid) (c : client_row) (user : uuid) (scopes : gset string) :
    M tenant consent_row :=
  existing ← gets (λ t, get_consent_grant t client user);
  match covering_grant existing scopes with
  | Some g => mret g
  | None =>
      grant ← upsert_consent_grant client user scopes;
      _ ← audit (Some user) "oauth2_consent_grant" (co_id grant)
            (match existing with
             | Some _ => "oauth2_consent_widened" | None => "oauth2_consent_granted" end)
            [("client_id", MStr (cl_client_id c)); ("client_name", MStr (cl_name c));
             ("scopes", MStrs (elements (co_scopes grant)));
             ("added_scopes", MStrs (elements (scopes ∖ from_option co_scopes ∅ existing)))];
      mret grant
  end.

Definition decide_request (req : pending_request) (user : uuid) (approve : bool)
    (auth_time : option Z) : M tenant bool :=
  decision ← decide_device_code (pr_id req) approve user auth_time;
  match decision with
  | None => mret false
  | Some _ =>
      _ ← when approve
            (_ ← record_consent (pr_client_uuid req) (pr_client req) user (parse_scope (pr_scope req));
             mret ());
      _ ← audit (Some user) "oauth2_client" (pr_client_uuid req)
            (if approve then "oauth2_device_authorization_approved"
             else "oauth2_device_authorization_denied")
            (device_metadata (pr_client req) (pr_id req) (pr_scope req));
      mret true
  end.

Definition poll (client : uuid) (device_code : string) : M tenant poll_outcome :=
  t ← gets id;
  match find_device_code t device_code client with
  | None => mret INVALID_GRANT
  | Some (x, row) =>
      if decide (dc_status row = redeemed) then mret INVALID_GRANT
      else if decide (dc_expires_at row <= clock t) then mret EXPIRED_TOKEN
      else if decide (dc_status row = denied) then mret ACCESS_DENIED
      else if decide (dc_status row = approved) then mret (APPROVED x row)
      else
        p ← record_poll x;
        mret (match p with Some (true, _) => SLOW_DOWN | _ => AUTHORIZATION_PENDING end)
  end.

(** The user of a redeemed row; a null would not be a valid id. *)
Definition user_of (r : device_row) : M tenant uuid :=
  some_or (dc_user r) (PythonError "invalid uuid").

Definition redeem (client : uuid) (c : client_row) (x : uuid) : M tenant (option device_row) :=
  r ← redeem_device_code x;
  match r with
  | None => mret None
  | Some row =>
      user ← user_of row;
      _ ← audit (Some user) "oauth2_client" client "oauth2_device_code_redeemed"
            (device_metadata c x (dc_scope row));
      mret (Some row)
  end.

(** ** services/sessions.py and services/oidc/logout.py

    The front-channel URLs of a logout are not modelled. *)

Definition revoke_session (sid : string) : M tenant () :=
  _ ← revoke_session_row sid; delete_idp_session sid.

Record oidc_session_end := mk_oidc_session_end {
  oe_backchannel_logout_count : nat;
  oe_refresh_tokens_revoked : nat;
}.

Definition count_queued (rows : list consumed_row) : nat :=
  length (filter (λ r, cs_queued r = true) rows).

Definition end_oidc_session (issuer : string) (sid : option string) (exclude : option uuid) :
    M tenant oidc_session_end :=
  match truthy sid with
  | None => mret (mk_oidc_session_end 0 0)
  | Some s =>
      _ ← revoke_session s;
      rows ← consume_session_clients s issuer exclude;
      revoked ← revoke_session_refresh_tokens s;
      mret (mk_oidc_session_end (count_queued rows) revoked)
  end.

(** [issuer] is the tenant's canonical issuer, a fallback. *)
Definition end_user_oidc_sessions (issuer : string) (user : uuid) : M tenant nat :=
  rows ← consume_user_session_clients user issuer; mret (count_queued rows).
Definition end_user_client_sessions (issuer : string) (user client : uuid) : M tenant nat :=
  rows ← consume_user_client_session_clients user client issuer; mret (count_queued rows).

(** ** services/oidc/consent.py: management *)

Definition _revoke (issuer : string) (actor : uuid) (key : uuid * uuid) (grant : consent_row)
    (revoked_by : string) : M tenant () :=
  rows ← delete_consent_grant (co_id grant);
  _ ← raise_if (bool_decide (rows = 0%nat)) (ServiceError NotFoundError "consent_grant_not_found");
  tokens_revoked ← revoke_user_client_tokens key.2 key.1;
  n ← end_user_client_sessions issuer key.2 key.1;
  c ← gets (λ t, get_client_by_id t key.1);
  audit (Some actor) "oauth2_consent_grant" (co_id grant) "oauth2_consent_revoked"
    [("revoked_by", MStr revoked_by); ("user_id", MId key.2);
     ("client_id", opt_str (cl_client_id <$> c)); ("client_name", opt_str (cl_name <$> c));
     ("scopes", MStrs (elements (co_scopes grant))); ("tokens_revoked", MNat tokens_revoked);
     ("backchannel_logout_count", MNat n)].

Definition revoke_my_grant (issuer : string) (u : requesting_user) (grant : uuid) : M tenant () :=
  g ← gets (λ t, get_consent_grant_by_id t grant);
  match g with
  | Some (k, row) =>
      if decide (k.2 = ru_id u) then _revoke issuer (ru_id u) k row "user"
      else raise (ServiceError NotFoundError "consent_grant_not_found")
  | None => raise (ServiceError NotFoundError "consent_grant_not_found")
  end.

Definition _get_normal_client (client_id : string) : M tenant (uuid * client_row) :=
  c ← gets (λ t, get_client_by_client_id t client_id);
  c ← some_or c (ServiceError NotFoundError "oauth2_client_not_found");
  _ ← raise_if (bool_decide (cl_type c.2 ≠ normal))
        (ServiceError ValidationError "consent_not_supported_for_client_type");
  mret c.

Definition revoke_client_grant (issuer : string) (u : requesting_user) (client_id : string)
    (grant : uuid) : M tenant () :=
  _ ← require_admin u;
  c ← _get_normal_client client_id;
  g ← gets (λ t, get_consent_grant_by_id t grant);
  match g with
  | Some (k, row) =>
      if decide (k.1 = c.1) then _revoke issuer (ru_id u) k row "admin"
      else raise (ServiceError NotFoundError "consent_grant_not_found")
  | None => raise (ServiceError NotFoundError "consent_grant_not_found")
  end.

(** ** services/oauth2_tokens.py *)

Definition _can_see (client : uuid) (c : client_row) (r : token_row) (allow_tenant : bool) : bool :=
  bool_decide (tk_client r = client) || (allow_tenant && cl_can_introspect c).

(** [None] is [{"active": false}]; [in_user] is the user the subject is
    derived from. *)
Record introspection := mk_introspection {
  in_scope : option string;
  in_client_id : string;
  in_user : uuid;
  in_token_type : option string;
  in_exp : Z;
  in_iat : Z;
  in_iss : string;
}.

Definition introspect_token (t : tenant) (client : uuid) (c : client_row) (token issuer : string) :
    option introspection :=
  found ← find_token t token;
  owner ← clients t !! tk_client found.2;
  if _can_see client c found.2 true then
    Some (mk_introspection (truthy (tk_scope found.2)) (cl_client_id owner) (tk_user found.2)
            (if decide (tk_type found.2 = access) then Some "Bearer" else None)
            (to_seconds (tk_expires_at found.2)) (to_seconds (tk_created_at found.2)) issuer)
  else None.

Definition token_type_name (k : token_type) : string :=
  match k with access => "access" | refresh => "refresh" end.

Definition revoke_token (client : uuid) (c : client_row) (token : string) : M tenant bool :=
  found ← gets (λ t, find_token t token);
  match found with
  | None => mret false
  | Some (x, r) =>
      if _can_see client c r false then
        n ← delete_token x;
        if decide (n = 0%nat) then mret false
        else
          _ ← audit (Some (tk_user r)) "oauth2_client" client "oauth2_token_revoked"
                [("client_id", MStr (cl_client_id c)); ("client_name", MStr (cl_name c));
                 ("token_type", MStr (token_type_name (tk_type r)))];
          mret true
      else mret false
  end.

Definition set_tenant_introspection (u : requesting_user) (client_id : string) (enabled : bool) :
    M tenant (uuid * client_row) :=
  _ ← require_admin u;
  old ← gets (λ t, get_client_by_client_id t client_id);
  old ← some_or old (ServiceError NotFoundError "oauth2_client_not_found");
  _ ← when (bool_decide (cl_type old.2 = b2b)) (require_super_admin u);
  _ ← raise_if (enabled && cl_is_public old.2)
        (ServiceError ValidationError "public_client_no_introspection");
  updated ← set_client_tenant_introspection client_id enabled;
  updated ← some_or updated (ServiceError NotFoundError "oauth2_client_not_found");
  _ ← when (bool_decide (enabled ≠ cl_can_introspect old.2))
        (audit (Some (ru_id u)) "oauth2_client" updated.1 "oauth2_client_introspection_changed"
           [("name", MStr (cl_name updated.2)); ("client_id", MStr client_id);
            ("can_introspect_tenant_tokens", MBool enabled)]);
  mret updated.

Definition EXPIRED_TOKEN_RETENTION_DAYS : Z := 1.
Definition cleanup_expired_tokens : M tenant nat :=
  purge_expired_tokens EXPIRED_TOKEN_RETENTION_DAYS.

(** ** The token endpoint, routers/oauth2.py *)

Inductive token_answer :=
  | TokenError (error : string) (status : nat)
  | TokenSuccess (access_token : string) (expires_in : Z) (refresh_token : option string)
      (id_token : option id_claims).

Definition _token_error (error : string) : token_answer :=
  TokenError error (if decide (error = "invalid_client") then 401 else 400).

Definition _issue_user_tokens (issuer : string) (client : uuid) (c : client_row) (user : uuid)
    (scope : option string) (grant : uuid) (nonce : option string) (auth_time : option Z)
    (sid : option string) : M tenant token_answer :=
  let scopes := parse_scope scope in
  let with_id_token := cl_oidc_enabled c && bool_decide (SCOPE_OPENID ∈ scopes) in
  rt ← create_refresh_token client user scope (Some grant) (if with_id_token then sid else None);
  at_ ← create_access_token client user (Some rt.2) false scope (Some grant);
  id_token ←
    (if with_id_token
     then claims ← issue_id_token issuer client c user scopes nonce auth_time sid; mret (Some claims)
     else mret None);
  mret (TokenSuccess at_ (to_seconds ACCESS_TOKEN_EXPIRY) (Some rt.1) id_token).

Definition grant_authorization_code (issuer : string) (client : uuid) (c : client_row)
    (code redirect_uri verifier : option string) : M tenant token_answer :=
  if bool_decide (cl_type c ≠ normal) || cl_is_public c then
    mret (_token_error "unauthorized_client")
  else
    match truthy code, truthy redirect_uri with
    | Some code, Some redirect_uri =>
        d ← validate_and_consume_code code client redirect_uri verifier;
        match d with
        | None => mret (_token_error "invalid_grant")
        | Some d => _issue_user_tokens issuer client c (cd_user d) (cd_scope d) (cd_id d)
                      (cd_nonce d) (cd_auth_time d) (cd_sid d)
        end
    | _, _ => mret (_token_error "invalid_request")
    end.

(** [client.get("oidc_enabled") and not user_can_access_client(..)]. *)
Definition access_denied (client : uuid) (c : client_row) (user : uuid) : M tenant bool :=
  if cl_oidc_enabled c then allowed ← user_can_access_client user client c; mret (negb allowed)
  else mret false.

Definition grant_refresh_token (client : uuid) (c : client_row) (token : option string) :
    M tenant token_answer :=
  match truthy token with
  | None => mret (_token_error "invalid_request")
  | Some token =>
      data ← gets (λ t, validate_refresh_token t token client);
      match data with
      | None => mret (_token_error "invalid_grant")
      | Some old =>
          denied ← access_denied client c (tk_user old.2);
          if (denied : bool) then mret (_token_error "invalid_grant")
          else
            rotated ← svc_rotate_refresh_token client old;
            match rotated with
            | None => mret (_token_error "invalid_grant")
            | Some (new_token, new_id) =>
                at_ ← create_access_token client (tk_user old.2) (Some new_id) false
                        (tk_scope old.2) (tk_grant old.2);
                mret (TokenSuccess at_ (to_seconds ACCESS_TOKEN_EXPIRY) (Some new_token) None)
            end
      end
  end.

Definition grant_client_credentials (client : uuid) (c : client_row) : M tenant token_answer :=
  if bool_decide (cl_type c ≠ b2b) then mret (_token_error "unauthorized_client")
  else
    match cl_service_user_id c with
    | None => mret (TokenError "server_error" 500)
    | Some user =>
        at_ ← create_access_token client user None true None None;
        mret (TokenSuccess at_ (to_seconds CLIENT_CREDENTIALS_TOKEN_EXPIRY) None None)
    end.

Definition grant_device_code (issuer : string) (client : uuid) (c : client_row)
    (device_code : option string) : M tenant token_answer :=
  if negb (client_can_use_device_grant c) then mret (_token_error "unauthorized_client")
  else
    match truthy device_code with
    | None => mret (_token_error "invalid_request")
    | Some device_code =>
        result ← poll client device_code;
        match result with
        | APPROVED x row =>
            user ← user_of row;
            denied ← access_denied client c user;
            if (denied : bool) then mret (_token_error "access_denied")
            else
              r ← redeem client c x;
              match r with
              | None => mret (_token_error "invalid_grant")
              | Some r =>
                  user ← user_of r;
                  _issue_user_tokens issuer client c user (dc_scope r) x None (dc_auth_time r) None
              end
        | o => mret (_token_error (outcome_name o))
        end
    end.

Record token_request := mk_token_request {
  rq_grant_type : string;
  rq_code : option string;
  rq_redirect_uri : option string;
  rq_code_verifier : option string;
  rq_refresh_token : option string;
  rq_device_code : option string;
}.

Definition DEVICE_CODE_GRANT_TYPE : string := "urn:ietf:params:oauth:grant-type:device_code".

(** [client] and [c] are the authenticated client; [issuer] is the base URL
    of the request. *)
Definition token_endpoint (issuer : string) (client : uuid) (c : client_row) (rq : token_request) :
    M tenant token_answer :=
  if decide (rq_grant_type rq = "authorization_code") then
    grant_authorization_code issuer client c (rq_code rq) (rq_redirect_uri rq)
      (rq_code_verifier rq)
  else if decide (rq_grant_type rq = "refresh_token") then
    grant_refresh_token client c (rq_refresh_token rq)
  else if decide (rq_grant_type rq = "client_credentials") then
    grant_client_credentials client c
  else if decide (rq_grant_type rq = DEVICE_CODE_GRANT_TYPE) then
    grant_device_code issuer client c (rq_device_code rq)
  else mret (_token_error "unsupported_grant_type").
End services.
