(* ===== verification/UserLifecycle.v ===== *)
(** * The life of a user account

    Inactivation, reactivation, anonymization, role changes and deletion:
    app/services/users/{state,_validation,crud}.py with the statements of
    app/database/users they run, and what they do to tokens, consents and
    sessions.  Names, e-mail addresses and credentials are not part of the
    state, so the statements that only rewrite those are left out. *)

From stdpp Require Import gmap strings.
From S2P Require Import Prelude GroupDb OAuthDb OAuthService.

Definition set_role (r : role) (a : account_row) : account_row :=
  mk_account r (us_is_inactivated a) (us_is_anonymized a).
Definition set_inactivated (b : bool) (a : account_row) : account_row :=
  mk_account (us_role a) b (us_is_anonymized a).

(** ** database/users *)

Definition get_user_by_id (t : tenant) (u : uuid) : option account_row := accounts t !! u.

Definition is_service_user (t : tenant) (u : uuid) : bool :=
  bool_decide (filter (λ kv : uuid * client_row, cl_service_user_id kv.2 = Some u) (clients t) ≠ ∅).

Definition active_super_admin (a : account_row) : Prop :=
  us_role a = super_admin ∧ us_is_inactivated a = false.
#[export] Instance active_super_admin_dec a : Decision (active_super_admin a).
Proof. unfold active_super_admin. apply _. Defined.
Definition count_active_super_admins (t : tenant) : nat :=
  size (filter (λ kv : uuid * account_row, active_super_admin kv.2) (accounts t)).

(** [update users set .. where id = :user_id and P]. *)
Definition update_account (u : uuid) (P : account_row → bool) (f : account_row → account_row) :
    M tenant nat :=
  update (λ t, match accounts t !! u with
               | Some a => if P a then (1, set_accounts (insert u (f a)) t) else (0, t)
               | None => (0, t)
               end).

Definition inactivate_user_row (u : uuid) : M tenant nat :=
  update_account u (λ a, negb (us_is_inactivated a)) (set_inactivated true).
Definition reactivate_user_row (u : uuid) : M tenant nat :=
  update_account u (λ a, us_is_inactivated a && negb (us_is_anonymized a)) (set_inactivated false).
Definition anonymize_user_row (u : uuid) : M tenant nat :=
  update_account u (λ a, negb (us_is_anonymized a)) (λ a, mk_account (us_role a) true true).
Definition update_user_role (u : uuid) (r : role) : M tenant nat :=
  update_account u (λ _, true) (set_role r).

(** [delete from users where id = :user_id]: a client's service user cannot
    be deleted; memberships, tokens, codes, device requests, consents and
    session records go with the user. *)
Definition delete_user_cascade (u : uuid) (t : tenant) : tenant :=
  set_dir (λ d, mk_db (groups d) (relationships d) (lineage d)
                  (filter (λ m : uuid * uuid, m.2 ≠ u) (memberships d)) (users d ∖ {[u]})
                  (providers d) (apps d) (assignments d) (events d) (activity d))
    (set_codes (filter (λ kv : uuid * code_row, ac_user kv.2 ≠ u))
    (set_tokens (λ T, remaining T (matching (λ r, tk_user r = u) T))
    (set_device_codes (filter (λ kv : uuid * device_row, dc_user kv.2 ≠ Some u))
    (set_consents (filter (λ kv : (uuid * uuid) * consent_row, kv.1.2 ≠ u))
    (set_session_clients (filter (λ kv : (string * uuid) * session_row, se_user kv.2 ≠ u))
    (set_accounts (delete u) t)))))).

Definition delete_user_row (u : uuid) : M tenant nat :=
  t ← gets id;
  _ ← raise_if (is_service_user t u) (IntegrityError "oauth2_clients_service_user_id_fkey");
  _ ← modify (delete_user_cascade u);
  mret (if decide (is_Some (accounts t !! u)) then 1 else 0).

(** ** services/users/state.py *)

Definition require_user (u : uuid) : M tenant account_row :=
  a ← gets (λ t, get_user_by_id t u);
  some_or a (ServiceError NotFoundError "user_not_found").

(** The guard of inactivate_user and anonymize_user. *)
Definition not_the_last_super_admin (a : account_row) : M tenant () :=
  n ← gets count_active_super_admins;
  raise_if (bool_decide (us_role a = super_admin ∧ n ≤ 1))
    (ServiceError ValidationError "last_super_admin").

(** What both do to the user's grants and sessions. *)
Definition cut_access (issuer : string) (u : uuid) : M tenant () :=
  _ ← revoke_all_user_tokens u;
  _ ← delete_consent_grants_for_user u;
  _ ← end_user_oidc_sessions issuer u;
  mret ().

Definition inactivate_user (issuer : string) (ru : requesting_user) (u : uuid) : M tenant () :=
  _ ← require_admin ru;
  a ← require_user u;
  _ ← raise_if (bool_decide (u = ru_id ru)) (ServiceError ValidationError "self_inactivation");
  service ← gets (λ t, is_service_user t u);
  _ ← raise_if service (ServiceError ValidationError "service_user_inactivation");
  _ ← raise_if (us_is_inactivated a) (ServiceError ValidationError "already_inactivated");
  _ ← not_the_last_super_admin a;
  _ ← inactivate_user_row u;
  _ ← cut_access issuer u;
  audit (Some (ru_id ru)) "user" u "user_inactivated" [].

Definition reactivate_user (ru : requesting_user) (u : uuid) : M tenant () :=
  _ ← require_admin ru;
  a ← require_user u;
  _ ← raise_if (us_is_anonymized a) (ServiceError ValidationError "anonymized_user");
  _ ← raise_if (negb (us_is_inactivated a)) (ServiceError ValidationError "not_inactivated");
  _ ← reactivate_user_row u;
  audit (Some (ru_id ru)) "user" u "user_reactivated" [].

Definition role_name (r : role) : string :=
  match r with member => "member" | admin => "admin" | super_admin => "super_admin" end.

Definition anonymize_user (issuer : string) (ru : requesting_user) (u : uuid) : M tenant () :=
  _ ← require_super_admin ru;
  a ← require_user u;
  _ ← raise_if (bool_decide (u = ru_id ru)) (ServiceError ValidationError "self_anonymization");
  service ← gets (λ t, is_service_user t u);
  _ ← raise_if service (ServiceError ValidationError "service_user_anonymization");
  _ ← raise_if (us_is_anonymized a) (ServiceError ValidationError "already_anonymized");
  _ ← not_the_last_super_admin a;
  _ ← anonymize_user_row u;
  _ ← cut_access issuer u;
  audit (Some (ru_id ru)) "user" u "user_anonymized"
    [("anonymized_user_role", MStr (role_name (us_role a)))].

(** ** services/users/_validation.py and crud.py *)

Definition _validate_role_change (a : account_row) (new : role) (ru : requesting_user) :
    M tenant () :=
  _ ← raise_if (bool_decide ((new = admin ∨ new = super_admin ∨ us_role a = super_admin) ∧
                             ru_role ru ≠ super_admin))
        (ServiceError ForbiddenError "super_admin_role_change_denied");
  if decide (us_role a = super_admin ∧ new ≠ super_admin) then
    n ← gets count_active_super_admins;
    raise_if (bool_decide (n ≤ 1)) (ServiceError ValidationError "last_super_admin")
  else mret ().

(** update_user, restricted to its role field. *)
Definition update_user (ru : requesting_user) (u : uuid) (new : role) : M tenant () :=
  _ ← require_admin ru;
  a ← require_user u;
  _ ← _validate_role_change a new ru;
  _ ← update_user_role u new;
  when (bool_decide (new ≠ us_role a))
    (audit (Some (ru_id ru)) "user" u "user_updated"
       [("changes", MChanges [("role", Some (role_name (us_role a)), Some (role_name new))])]).

Definition delete_user (issuer : string) (ru : requesting_user) (u : uuid) : M tenant () :=
  _ ← require_admin ru;
  a ← require_user u;
  service ← gets (λ t, is_service_user t u);
  _ ← raise_if service (ServiceError ValidationError "service_user_deletion");
  _ ← raise_if (bool_decide (u = ru_id ru)) (ServiceError ValidationError "self_deletion");
  _ ← end_user_oidc_sessions issuer u;
  _ ← delete_user_row u;
  audit (Some (ru_id ru)) "user" u "user_deleted"
    [("deleted_user_role", MStr (role_name (us_role a)))].

(** ** api_dependencies.py: the bearer branch of get_current_user_api *)

Definition bearer_user `{Crypto} (t : tenant) (token : string) : option (uuid * account_row) :=
  found ← validate_token t token;
  a ← get_user_by_id t (tk_user found.2);
  Some (tk_user found.2, a).
