(* ===== verification/OAuthTokens.v ===== *)
(** * Token families

    An access token minted from a refresh token hangs below it; the foreign
    key takes it away with its parent.  The invariant of the token table and
    what each statement of tokens.py does to a table that satisfies it. *)

From stdpp Require Import gmap strings.
From S2P Require Import Prelude GroupDb AppAccess OAuthDb OAuthService UserLifecycle.
#[local] Open Scope Z_scope.

(** [r] may hang below [q]. *)
Definition descends (r q : token_row) : Prop :=
  tk_type r = access ∧ tk_type q = refresh ∧ tk_parent q = None ∧
  tk_client r = tk_client q ∧ tk_user r = tk_user q ∧
  tk_grant r = tk_grant q ∧ tk_scope r = tk_scope q ∧
  tk_expires_at r <= tk_expires_at q + ACCESS_TOKEN_EXPIRY.

Definition families (T : gmap uuid token_row) : Prop :=
  ∀ x r p, T !! x = Some r → tk_parent r = Some p → ∃ q, T !! p = Some q ∧ descends r q.

(** The unique index on the lookup digest. *)
Definition unique_lookups (T : gmap uuid token_row) : Prop :=
  ∀ x y r s, T !! x = Some r → T !! y = Some s → tk_lookup r = tk_lookup s → x = y.

Definition table_ok (T : gmap uuid token_row) : Prop := families T ∧ unique_lookups T.
Definition family_ok (t : tenant) : Prop := table_ok (tokens t).

Section cascade.
Context {T : gmap uuid token_row} (HT : families T).

Lemma elem_of_children gone x :
  x ∈ children T gone ↔ ∃ r, T !! x = Some r ∧ parent_in gone r = true.
Proof.
  unfold children. rewrite elem_of_dom. unfold is_Some. split.
  - intros [r [? ?]%map_lookup_filter_Some]. by exists r.
  - intros (r & ? & ?). exists r. by apply map_lookup_filter_Some.
Qed.

Lemma children_of_children gone :
  children T (gone ∪ children T gone) ⊆ gone ∪ children T gone.
Proof.
  intros x (r & Hx & Hp)%elem_of_children. apply elem_of_union_r, elem_of_children.
  exists r. split; [done|]. unfold parent_in in *.
  destruct (tk_parent r) as [p|] eqn:Hr; [|done].
  apply bool_decide_eq_true in Hp. apply bool_decide_eq_true.
  apply elem_of_union in Hp as [?|(q & Hq & Hqp)%elem_of_children]; [done|].
  destruct (HT x r p Hx Hr) as (q' & Hq' & Hd). simplify_eq.
  unfold parent_in in Hqp. destruct Hd as (_ & _ & Hn & _). by rewrite Hn in Hqp.
Qed.

Lemma cascade_closed n gone : children T gone ⊆ gone → cascade n T gone = gone.
Proof.
  clear HT. intros Hc. induction n as [|n IH]; [done|]. simpl.
  replace (gone ∪ children T gone) with gone by set_solver. done.
Qed.

Lemma elem_of_cascade gone x r : T !! x = Some r →
  x ∈ cascade (size T) T gone ↔ x ∈ gone ∨ parent_in gone r = true.
Proof.
  intros Hx. destruct (size T) as [|n] eqn:Hn.
  { apply map_size_empty_inv in Hn. by rewrite Hn, lookup_empty in Hx. }
  simpl. rewrite cascade_closed by apply children_of_children.
  rewrite elem_of_union, elem_of_children. naive_solver.
Qed.

Lemma lookup_remaining gone x r :
  remaining T gone !! x = Some r ↔ T !! x = Some r ∧ x ∉ gone ∧ parent_in gone r = false.
Proof.
  unfold remaining. rewrite map_lookup_filter_Some. simpl.
  rewrite <- (not_true_iff_false (parent_in _ _)).
  split; intros [Hx Hr]; (split; [done|]); rewrite (elem_of_cascade _ _ _ Hx) in *; tauto.
Qed.

Lemma families_remaining gone : families (remaining T gone).
Proof.
  intros x r p (Hx & Hn & Hp)%lookup_remaining Hr.
  destruct (HT x r p Hx Hr) as (q & Hq & Hd). exists q. split; [|done].
  apply lookup_remaining. split; [done|]. unfold parent_in in *. rewrite Hr in Hp.
  destruct Hd as (_ & _ & Hqn & _). rewrite Hqn. split; [|done].
  by apply bool_decide_eq_false in Hp.
Qed.
End cascade.

Lemma table_remaining T gone : table_ok T → table_ok (remaining T gone).
Proof.
  intros [HT HU]. split; [by apply families_remaining|].
  intros x y r s (Hx & _)%(lookup_remaining HT) (Hy & _)%(lookup_remaining HT). by eapply HU.
Qed.

Lemma elem_of_matching P `{∀ r, Decision (P r)} T x :
  x ∈ matching P T ↔ ∃ r, T !! x = Some r ∧ P r.
Proof.
  unfold matching. rewrite elem_of_dom. unfold is_Some. split.
  - intros [r [? ?]%map_lookup_filter_Some]. by exists r.
  - intros (r & ? & ?). exists r. by apply map_lookup_filter_Some.
Qed.

(** Deleting by a property that a child shares with its parent deletes
    exactly the rows with that property. *)
Lemma lookup_remaining_matching P `{∀ r, Decision (P r)} T x r : families T →
  (∀ r q, descends r q → P q → P r) →
  remaining T (matching P T) !! x = Some r ↔ T !! x = Some r ∧ ¬ P r.
Proof.
  intros HT HP. rewrite (lookup_remaining HT), elem_of_matching. split.
  - intros (Hx & Hn & _). split; [done|]. intros Hr. apply Hn. by exists r.
  - intros [Hx Hr]. split_and!; [done|intros (r' & ? & ?); by simplify_eq|].
    unfold parent_in. destruct (tk_parent r) as [p|] eqn:Hp; [|done].
    apply bool_decide_eq_false. rewrite elem_of_matching. intros (q & Hq & HPq).
    destruct (HT x r p Hx Hp) as (q' & Hq' & Hd). simplify_eq. by apply Hr, (HP r q).
Qed.

(** ** Inserting *)

Lemma find_row_Some {A} (P : A → Prop) `{∀ a, Decision (P a)} (m : gmap uuid A) x a :
  find_row P m = Some (x, a) → m !! x = Some a ∧ P a.
Proof.
  unfold find_row. intros Hh%head_Some_elem_of.
  apply list_elem_of_filter in Hh as [? ?%elem_of_map_to_list]. done.
Qed.

Lemma find_row_None {A} (P : A → Prop) `{∀ a, Decision (P a)} (m : gmap uuid A) x a :
  find_row P m = None → m !! x = Some a → ¬ P a.
Proof.
  unfold find_row. intros Hh%head_None Hx HP. apply elem_of_map_to_list in Hx.
  assert ((x, a) ∈ filter (λ kv : uuid * A, P kv.2) (map_to_list m)) as Hin
    by by apply list_elem_of_filter.
  rewrite Hh in Hin. by apply not_elem_of_nil in Hin.
Qed.

(** A row that is the only one with the property is the row found. *)
Lemma find_row_unique {A} (P : A → Prop) `{∀ a, Decision (P a)} (m : gmap uuid A) x a :
  m !! x = Some a → P a → (∀ y b, m !! y = Some b → P b → y = x) → find_row P m = Some (x, a).
Proof.
  intros Hx HP Hu. destruct (find_row P m) as [[y b]|] eqn:E.
  - apply find_row_Some in E as [Hy Hb]. assert (y = x) as -> by eauto. by simplify_eq.
  - by destruct (find_row_None P m x a E Hx).
Qed.

Definition lookup_free (t : tenant) (l : string) : Prop :=
  ∀ y r, tokens t !! y = Some r → tk_lookup r ≠ l.

Section insert.
Context `{Crypto} `{Entropy}.

Lemma insert_token_Ok r t x t' : insert_token r t = (Ok x, t') →
  x = new_id t ∧ tokens t !! x = None ∧ lookup_free t (tk_lookup r) ∧
  is_Some (clients t !! tk_client r) ∧ tk_user r ∈ users (dir t) ∧
  (∀ p, tk_parent r = Some p → is_Some (tokens t !! p)) ∧
  t' = set_tokens (insert x r) t.
Proof.
  unfold insert_token. run. do 4 (run_case; [done|]).
  destruct (match tk_parent r with Some p => bool_decide (tokens t !! p = None) | None => false end)
    eqn:E3; [done|]. intros [= <- <-].
  apply bool_decide_eq_false, eq_None_not_Some in E.
  apply bool_decide_eq_false, eq_None_not_Some in E0.
  apply bool_decide_eq_false, not_eq_None_Some in E1.
  apply bool_decide_eq_false in E2. split_and!; [done|done| |done|by apply dec_stable| |done].
  - intros y r' Hy. by apply (find_row_None _ _ _ _ E0 Hy).
  - intros p Hp. rewrite Hp in E3. by apply bool_decide_eq_false, not_eq_None_Some in E3.
Qed.

Lemma insert_token_Raise r t e t' : insert_token r t = (Raise e, t') → t' = t.
Proof.
  unfold insert_token. run. do 4 (run_case; [by intros [= _ <-]|]).
  by destruct (match tk_parent r with Some p => bool_decide (tokens t !! p = None)
               | None => false end); intros [= _ <-].
Qed.

(** A new row that fits its parent keeps the families. *)
Lemma families_insert T x r : families T → T !! x = None →
  (∀ p, tk_parent r = Some p → ∃ q, T !! p = Some q ∧ descends r q) →
  families (<[x := r]> T).
Proof.
  intros HT Hx Hr y s p. destruct (decide (y = x)) as [->|Hyx].
  - rewrite lookup_insert_eq. intros [= <-] (q & Hq & Hd)%Hr. exists q.
    split; [|done]. rewrite lookup_insert_ne; congruence.
  - rewrite lookup_insert_ne by done. intros Hy (q & Hq & Hd)%(HT _ _ _ Hy).
    exists q. split; [|done]. rewrite lookup_insert_ne; congruence.
Qed.

Lemma table_insert t x r : family_ok t → tokens t !! x = None →
  lookup_free t (tk_lookup r) →
  (∀ p, tk_parent r = Some p → ∃ q, tokens t !! p = Some q ∧ descends r q) →
  table_ok (<[x := r]> (tokens t)).
Proof.
  intros [HT HU] Hx Hfree Hr. split; [by apply families_insert|].
  intros y z s1 s2. destruct (decide (y = x)) as [->|Hy], (decide (z = x)) as [->|Hz]; [done|..].
  - rewrite lookup_insert_eq, lookup_insert_ne by done. intros [= <-] Hz2 He.
    by destruct (Hfree _ _ Hz2).
  - rewrite lookup_insert_eq, lookup_insert_ne by done. intros Hy2 [= <-] He.
    by destruct (Hfree _ _ Hy2).
  - rewrite !lookup_insert_ne by done. by apply HU.
Qed.

Lemma run_delete_tokens gone t :
  delete_tokens gone t = (Ok (size (gone (tokens t))),
                          set_tokens (λ T, remaining T (gone (tokens t))) t).
Proof. unfold delete_tokens. by run. Qed.

(** ** Rotation *)

Lemma run_rotate_refresh_token old client user scope grant exp sid t r res t' :
  families (tokens t) → tokens t !! old = Some r → tk_type r = refresh → tk_parent r = None →
  rotate_refresh_token old client user scope grant exp sid t = (Ok res, t') →
  let token := opaque_token "refresh" t in
  let x := new_id t in
  let row := mk_token (hash_token t token) (token_lookup token) refresh client user exp (clock t)
               None scope grant sid in
  res = Some (token, x) ∧ x ≠ old ∧ tokens t !! x = None ∧ lookup_free t (token_lookup token) ∧
  t' = set_tokens (λ _, <[x := row]> (reparent old x <$> delete old (tokens t))) t.
Proof.
  intros HT Hold Hty Hpar. unfold rotate_refresh_token, transaction. run. rewrite Hold.
  rewrite decide_True by done. cbn zeta.
  set (token := opaque_token "refresh" t). set (row := mk_token _ _ _ _ _ _ _ _ _ _ _).
  rewrite run_bind.
  destruct (insert_token row t) as [[x|e] t1] eqn:Hins; [|done].
  apply insert_token_Ok in Hins as (-> & Hx & Hfree & _ & _ & _ & ->).
  set (x := new_id t) in *. run.
  intros [= <- <-]. split; [done|].
  assert (x ≠ old) as Hne by congruence. split; [done|]. split; [done|]. split; [done|].
  set (T1 := reparent old x <$> <[x := row]> (tokens t)).
  assert (T1 = <[x := row]> (reparent old x <$> tokens t)) as HT1.
  { unfold T1. rewrite fmap_insert. f_equal. }
  assert (∀ y s, T1 !! y = Some s → tk_parent s ≠ Some old) as Hno.
  { intros y s. unfold T1. rewrite lookup_fmap_Some. intros (s' & <- & _).
    unfold reparent. destruct (decide _); simpl; [congruence|done]. }
  assert (dom T1 ∩ {[old]} = {[old]}) as Hdom.
  { apply set_eq. intros y.
    rewrite elem_of_intersection, elem_of_singleton, HT1, dom_insert_L, dom_fmap_L,
      elem_of_union, elem_of_dom. naive_solver. }
  destruct t as [? ? ? ? T ? ? ? ? ? ? ?]. unfold set_tokens. simpl in *. f_equal.
  fold x T1. rewrite Hdom. unfold remaining.
  assert (cascade (size T1) T1 {[old]} = {[old]}) as ->.
  { apply cascade_closed. intros y (s & Hs & Hp)%elem_of_children. exfalso.
    unfold parent_in in Hp. destruct (tk_parent s) as [p|] eqn:E; [|done].
    apply bool_decide_eq_true, elem_of_singleton in Hp as ->. by apply (Hno y s). }
  apply map_eq. intros y. rewrite map_lookup_filter, HT1.
  destruct (decide (y = old)) as [->|Hy].
  - rewrite lookup_insert_ne by done. rewrite lookup_insert_ne by done.
    rewrite !lookup_fmap, lookup_delete_eq, Hold. simpl.
    rewrite option_guard_False; [done|set_solver].
  - destruct (decide (y = x)) as [->|Hyx].
    + rewrite !lookup_insert_eq. simpl. rewrite option_guard_True; [done|set_solver].
    + rewrite !lookup_insert_ne by done. rewrite !lookup_fmap, lookup_delete_ne by done.
      destruct (T !! y); [|done]. simpl. rewrite option_guard_True; [done|set_solver].
Qed.
End insert.
