(* ===== verification/OAuthHistory.v ===== *)
(** * Histories of OAuth2 calls

    The calls a tenant serves, one step each, and the invariants of the token
    and device tables over every history of them.  A step runs at one instant
    of the tenant's clock; time passes between steps. *)

From stdpp Require Import gmap strings.
From S2P Require Import Prelude GroupDb AppAccess OAuthDb OAuthService UserLifecycle OAuthTokens.
#[local] Open Scope Z_scope.

Section invariants.
Context `{Crypto} `{Entropy}.

Lemma refresh_has_no_parent T x r : families T → T !! x = Some r → tk_type r = refresh →
  tk_parent r = None.
Proof.
  intros HT Hx Hr. destruct (tk_parent r) as [p|] eqn:Hp; [|done].
  destruct (HT x r p Hx Hp) as (q & _ & Hd & _). congruence.
Qed.

Lemma keeps_family_modify f : (∀ t, tokens (f t) = tokens t) → keeps family_ok (modify f).
Proof. intros Hf t Ht. unfold family_ok. simpl. by rewrite Hf. Qed.
Lemma keeps_family_update {A} (f : tenant → A * tenant) :
  (∀ t, tokens (f t).2 = tokens t) → keeps family_ok (update f).
Proof. intros Hf t Ht. unfold family_ok. rewrite run_update. simpl. by rewrite Hf. Qed.

Lemma keeps_family_delete gone : keeps family_ok (delete_tokens gone).
Proof.
  intros t Ht. rewrite run_delete_tokens. by apply table_remaining.
Qed.

Lemma keeps_family_audit a ty x e m : keeps family_ok (audit a ty x e m).
Proof. by apply keeps_family_modify. Qed.

Lemma run_create_refresh_token client user scope grant sid t tok x t' :
  create_refresh_token client user scope grant sid t = (Ok (tok, x), t') →
  tok = opaque_token "refresh" t ∧ x = new_id t ∧ tokens t !! x = None ∧
  lookup_free t (token_lookup tok) ∧
  t' = set_tokens (insert x (mk_token (hash_token t tok) (token_lookup tok) refresh client user
         (clock t + REFRESH_TOKEN_EXPIRY) (clock t) None scope grant sid)) t.
Proof.
  unfold create_refresh_token. run. rewrite run_bind.
  destruct (insert_token _ t) as [[y|e] t1] eqn:Hi; [|done]. intros [= <- <- <-].
  apply insert_token_Ok in Hi as (-> & ? & ? & _ & _ & _ & ->). done.
Qed.

Lemma run_create_access_token client user parent cc scope grant t tok t' :
  create_access_token client user parent cc scope grant t = (Ok tok, t') →
  tok = opaque_token "access" t ∧ tokens t !! new_id t = None ∧
  lookup_free t (token_lookup tok) ∧
  t' = set_tokens (insert (new_id t) (mk_token (hash_token t tok) (token_lookup tok) access
         client user (clock t + if (cc : bool) then CLIENT_CREDENTIALS_TOKEN_EXPIRY
                                else ACCESS_TOKEN_EXPIRY)
         (clock t) parent scope grant None)) t.
Proof.
  unfold create_access_token. run. rewrite run_bind.
  destruct (insert_token _ t) as [[y|e] t1] eqn:Hi; [|done]. intros [= <- <-].
  apply insert_token_Ok in Hi as (-> & ? & ? & _ & _ & _ & ->). done.
Qed.

Lemma run_create_refresh_token_Raise client user scope grant sid t e t' :
  create_refresh_token client user scope grant sid t = (Raise e, t') → t' = t.
Proof.
  unfold create_refresh_token. run. rewrite run_bind.
  destruct (insert_token _ t) as [[y|e'] t1] eqn:Hi; [done|]. intros [= _ <-].
  by eapply insert_token_Raise.
Qed.
Lemma run_create_access_token_Raise client user parent cc scope grant t e t' :
  create_access_token client user parent cc scope grant t = (Raise e, t') → t' = t.
Proof.
  unfold create_access_token. run. rewrite run_bind.
  destruct (insert_token _ t) as [[y|e'] t1] eqn:Hi; [done|]. intros [= _ <-].
  by eapply insert_token_Raise.
Qed.

Lemma keeps_family_create_refresh_token client user scope grant sid :
  keeps family_ok (create_refresh_token client user scope grant sid).
Proof.
  intros t Ht. destruct (create_refresh_token _ _ _ _ _ t) as [[[tok x]|e] t'] eqn:E.
  - apply run_create_refresh_token in E as (_ & _ & Hx & ? & ->).
    by apply table_insert.
  - by apply run_create_refresh_token_Raise in E as ->.
Qed.

(** An access token below a refresh token of the same grant. *)
Lemma family_create_access_token client user parent scope grant t q :
  family_ok t → tokens t !! parent = Some q → tk_type q = refresh →
  tk_client q = client → tk_user q = user → tk_scope q = scope → tk_grant q = grant →
  clock t <= tk_expires_at q →
  family_ok (create_access_token client user (Some parent) false scope grant t).2.
Proof.
  intros Ht Hq Hty <- <- <- <- Hexp.
  destruct (create_access_token _ _ _ _ _ _ t) as [[tok|e] t'] eqn:E; simpl.
  - apply run_create_access_token in E as (_ & Hx & ? & ->).
    apply table_insert; [done..|]. intros p [= <-]. exists q. split; [done|].
    split_and!; try done; [by apply (refresh_has_no_parent _ _ _ (proj1 Ht) Hq)|simpl; lia].
  - by apply run_create_access_token_Raise in E as ->.
Qed.

Lemma keeps_family_create_free_access_token client user cc scope grant :
  keeps family_ok (create_access_token client user None cc scope grant).
Proof.
  intros t Ht. destruct (create_access_token _ _ _ _ _ _ t) as [[tok|e] t'] eqn:E.
  - apply run_create_access_token in E as (_ & Hx & ? & ->). by apply table_insert.
  - by apply run_create_access_token_Raise in E as ->.
Qed.

Lemma keeps_family_issue_id_token issuer client c user scopes nonce auth_time sid :
  keeps family_ok (issue_id_token issuer client c user scopes nonce auth_time sid).
Proof.
  unfold issue_id_token. keeps_auto; try (by apply keeps_family_modify).
Qed.

Lemma keeps_family_issue_user_tokens issuer client c user scope grant nonce auth_time sid :
  keeps family_ok (_issue_user_tokens issuer client c user scope grant nonce auth_time sid).
Proof.
  intros t Ht. unfold _issue_user_tokens. cbn zeta. set (b := cl_oidc_enabled c && _).
  rewrite run_bind.
  destruct (create_refresh_token _ _ _ _ _ t) as [[[tok x]|e] t1] eqn:E1;
    [|by apply run_create_refresh_token_Raise in E1 as ->].
  apply run_create_refresh_token in E1 as (_ & _ & Hx & ? & ->). simpl.
  set (q := mk_token _ _ _ _ _ _ _ _ _ _ _). set (t1 := set_tokens _ t).
  assert (family_ok t1) as Ht1 by (by apply table_insert).
  assert (tokens t1 !! x = Some q) as Hq by (by apply lookup_insert_eq).
  assert (family_ok (create_access_token client user (Some x) false scope (Some grant) t1).2)
    as Ht2.
  { eapply family_create_access_token; try done. unfold q. simpl.
    unfold REFRESH_TOKEN_EXPIRY, seconds. lia. }
  clearbody t1. rewrite run_bind.
  destruct (create_access_token _ _ _ _ _ _ t1) as [[at_|e] t2]; [simpl in Ht2|done].
  revert t2 Ht2. change (keeps family_ok (id_token ←
    (if b then claims ← issue_id_token issuer client c user (parse_scope scope) nonce auth_time sid;
               mret (Some claims) else mret None);
    mret (TokenSuccess at_ (to_seconds ACCESS_TOKEN_EXPIRY) (Some tok) id_token))).
  apply keeps_bind; [|intros; apply keeps_ret]. destruct b; [|apply keeps_ret].
  apply keeps_bind; [apply keeps_family_issue_id_token|intros; apply keeps_ret].
Qed.
End invariants.
#[export] Hint Resolve keeps_family_delete keeps_family_audit keeps_family_create_refresh_token
  keeps_family_create_free_access_token keeps_family_issue_id_token
  keeps_family_issue_user_tokens : keeps.
#[export] Hint Extern 4 (keeps family_ok (modify _)) => apply keeps_family_modify; done : keeps.
#[export] Hint Extern 4 (keeps family_ok (update _)) => apply keeps_family_update; done : keeps.

Section steps.
Context `{Crypto} `{Entropy}.

Lemma validate_refresh_token_Some t token client x r :
  validate_refresh_token t token client = Some (x, r) →
  tokens t !! x = Some r ∧ tk_type r = refresh ∧ tk_client r = client ∧
  tk_lookup r = token_lookup token ∧ clock t < tk_expires_at r ∧
  verify_token_hash token (tk_hash r) = true.
Proof.
  unfold validate_refresh_token, verified.
  destruct (find_row _ _) as [[y s]|] eqn:E; [|done].
  apply find_row_Some in E as [? (? & ? & ? & ?)].
  destruct (verify_token_hash token (tk_hash s)) eqn:?; [|done]. by intros [= <- <-].
Qed.

Lemma unique_rotated T old y row :
  unique_lookups T → (∀ z r, T !! z = Some r → tk_lookup r ≠ tk_lookup row) →
  unique_lookups (<[y := row]> (reparent old y <$> delete old T)).
Proof.
  intros HU Hfree.
  assert (∀ z s, (reparent old y <$> delete old T) !! z = Some s →
            ∃ r, T !! z = Some r ∧ tk_lookup r = tk_lookup s) as Hback.
  { intros z s. rewrite lookup_fmap_Some. intros (r & <- & [_ Hr]%lookup_delete_Some).
    exists r. split; [done|]. unfold reparent. by destruct (decide _). }
  intros z w s1 s2. destruct (decide (z = y)) as [->|Hz], (decide (w = y)) as [->|Hw]; [done|..].
  - rewrite lookup_insert_eq, lookup_insert_ne by done.
    intros [= <-] (r & Hr & Hl)%Hback He. by destruct (Hfree w r Hr); rewrite Hl.
  - rewrite lookup_insert_eq, lookup_insert_ne by done.
    intros (r & Hr & Hl)%Hback [= <-] He. by destruct (Hfree z r Hr); rewrite Hl.
  - rewrite !lookup_insert_ne by done.
    intros (r1 & Hr1 & Hl1)%Hback (r2 & Hr2 & Hl2)%Hback He.
    apply (HU z w r1 r2); congruence.
Qed.

Lemma family_rotate t x r client user scope grant exp sid :
  family_ok t → tokens t !! x = Some r → tk_type r = refresh →
  client = tk_client r → user = tk_user r → scope = tk_scope r → grant = tk_grant r →
  exp = tk_expires_at r →
  family_ok (rotate_refresh_token x client user scope grant exp sid t).2.
Proof.
  intros Ht Hx Hty -> -> -> -> ->.
  destruct (rotate_refresh_token x _ _ _ _ _ _ t) as [[res|e] t'] eqn:E; simpl.
  - destruct Ht as [Ht HU].
    apply (run_rotate_refresh_token _ _ _ _ _ _ _ _ r) in E as (_ & Hne & Hn & Hfree & ->);
      [|done..|exact (refresh_has_no_parent _ _ _ Ht Hx Hty)].
    set (y := new_id t) in *. set (row := mk_token _ _ _ _ _ _ _ _ _ _ _).
    split; [|by apply (unique_rotated (tokens t))].
    intros z s p. unfold set_tokens. simpl. destruct (decide (z = y)) as [->|Hz].
    + rewrite lookup_insert_eq. by intros [= <-].
    + rewrite lookup_insert_ne by done. rewrite lookup_fmap_Some.
      intros (s' & <- & [Hzx Hs]%lookup_delete_Some) Hp.
      unfold reparent in Hp |- *. destruct (decide _) as [Hold|Hold]; simpl in *.
      * injection Hp as <-. exists row. split; [by rewrite lookup_insert_eq|].
        destruct (Ht z s' x Hs Hold) as (q & Hq & Hd). assert (q = r) as -> by congruence.
        destruct Hd as (?&?&?&?&?&?&?&?). by split_and!.
      * destruct (Ht z s' p Hs Hp) as (q & Hq & Hd). exists q. split.
        -- assert (p ≠ x) by congruence. rewrite lookup_insert_ne by congruence.
           rewrite lookup_fmap, lookup_delete_ne, Hq by done. simpl. f_equal.
           unfold reparent. rewrite decide_False; [done|].
           destruct Hd as (_ & _ & -> & _). done.
        -- done.
  - by apply transaction_Raise in E as ->.
Qed.

Lemma keeps_family_access_denied client c user : keeps family_ok (access_denied client c user).
Proof. unfold access_denied, user_can_access_client. keeps_auto. Qed.

(** What access_denied leaves unchanged. *)
Lemma run_access_denied client c user t :
  ∃ b f, access_denied client c user t = (Ok b, set_dir (set_events f) t) ∧
    (b = false → cl_oidc_enabled c = true →
     user_can_access_oauth2_client (dir t) user client = true).
Proof.
  unfold access_denied, user_can_access_client, when.
  destruct (cl_oidc_enabled c).
  - run. destruct (user_can_access_oauth2_client (dir t) user client) eqn:E; simpl.
    + exists false, id. run. split; [|done]. destruct t as [[] ???????????]. done.
    + eexists true, _. split; [|done]. run. rewrite run_bind. run. done.
  - exists false, id. split; [|done]. destruct t as [[] ???????????]. done.
Qed.

Lemma keeps_family_grant_refresh_token client c token :
  keeps family_ok (grant_refresh_token client c token).
Proof.
  unfold grant_refresh_token. destruct (truthy token) as [tok|]; [|apply keeps_ret].
  intros t Ht. run.
  destruct (validate_refresh_token t tok client) as [[x r]|] eqn:E; [|done].
  apply validate_refresh_token_Some in E as (Hx & Hty & Hcl & _ & Hexp & _).
  rewrite run_bind.
  destruct (run_access_denied client c (tk_user r) t) as (b & f & Hacc & _). simpl.
  rewrite Hacc. destruct b; [done|]. set (t0 := set_dir _ t).
  assert (family_ok t0) as Ht0 by done. assert (tokens t0 !! x = Some r) as Hx0 by done.
  assert (clock t0 < tk_expires_at r) as Hexp0 by done. clearbody t0. clear Hacc Ht Hx Hexp t.
  rewrite run_bind. unfold svc_rotate_refresh_token. simpl.
  pose proof (family_rotate t0 x r client (tk_user r) (tk_scope r) (tk_grant r)
    (tk_expires_at r) (tk_sid r) Ht0 Hx0 Hty (eq_sym Hcl) eq_refl eq_refl eq_refl eq_refl) as Hrot.
  destruct (rotate_refresh_token _ _ _ _ _ _ _ t0) as [[res|e] t1] eqn:E; [|done].
  simpl in Hrot. destruct res as [[tok2 y]|]; [|done].
  apply (run_rotate_refresh_token _ _ _ _ _ _ _ _ r) in E as ([= <- <-] & Hne & Hn & _ & ->);
    [|apply Ht0|done..|exact (refresh_has_no_parent _ _ _ (proj1 Ht0) Hx0 Hty)].
  rewrite run_bind.
  set (t1 := set_tokens _ t0) in *.
  assert (family_ok (create_access_token client (tk_user r) (Some y) false (tk_scope r)
            (tk_grant r) t1).2) as Hc.
  { eapply family_create_access_token; [done|by apply lookup_insert_eq|done..|].
    simpl. lia. }
  destruct (create_access_token _ _ _ _ _ _ t1) as [[at_|e] t2]; done.
Qed.

Lemma keeps_family_consume_code x : keeps family_ok (consume_code x).
Proof.
  apply keeps_family_update. intros t. destruct (codes t !! x) as [r|]; [|done].
  by destruct (decide _).
Qed.
#[local] Hint Resolve keeps_family_consume_code keeps_family_access_denied : keeps.

Lemma keeps_family_validate_and_consume code client uri v :
  keeps family_ok (validate_and_consume_code code client uri v).
Proof.
  unfold validate_and_consume_code, db_validate_and_consume_code, revoke_grant_tokens.
  keeps_auto.
Qed.
#[local] Hint Resolve keeps_family_validate_and_consume : keeps.

Lemma keeps_family_grant_authorization_code issuer client c code uri v :
  keeps family_ok (grant_authorization_code issuer client c code uri v).
Proof. unfold grant_authorization_code. keeps_auto. Qed.

Lemma keeps_family_grant_client_credentials client c :
  keeps family_ok (grant_client_credentials client c).
Proof. unfold grant_client_credentials. keeps_auto. Qed.

Lemma keeps_family_update_device x P f : keeps family_ok (update_device x P f).
Proof.
  apply keeps_family_update. intros t. destruct (device_codes t !! x) as [r|]; [|done].
  by destruct (P t r).
Qed.
#[local] Hint Resolve keeps_family_update_device : keeps.

Lemma keeps_family_poll client dc : keeps family_ok (poll client dc).
Proof. unfold poll, record_poll. keeps_auto. Qed.
Lemma keeps_family_redeem client c x : keeps family_ok (redeem client c x).
Proof. unfold redeem, redeem_device_code, user_of. keeps_auto. Qed.
#[local] Hint Resolve keeps_family_poll keeps_family_redeem : keeps.

Lemma keeps_family_grant_device_code issuer client c dc :
  keeps family_ok (grant_device_code issuer client c dc).
Proof. unfold grant_device_code, user_of. keeps_auto. Qed.
#[local] Hint Resolve keeps_family_grant_authorization_code keeps_family_grant_refresh_token
  keeps_family_grant_client_credentials keeps_family_grant_device_code : keeps.

Lemma keeps_family_token_endpoint issuer client c rq :
  keeps family_ok (token_endpoint issuer client c rq).
Proof. unfold token_endpoint. keeps_auto. Qed.
End steps.

(** ** Histories *)

(** A call, with the arguments the request carries.  [StepToken] names the
    client that has authenticated; an unknown or deactivated client is
    refused before its grant is looked at. *)
Inductive oauth_step :=
  | StepTick (micros : Z)
  | StepAuthorize (client user : uuid) (redirect_uri : string)
      (challenge method scope nonce : option string) (auth_time : option Z) (sid : option string)
  | StepToken (issuer : string) (client : uuid) (rq : token_request)
  | StepRevokeToken (client : uuid) (token : string)
  | StepStartDevice (client : uuid) (scope : option string)
  | StepDecide (user_code : string) (user : uuid) (approve : bool) (auth_time : option Z)
  | StepConsent (client user : uuid) (scopes : gset string)
  | StepRevokeConsent (issuer : string) (u : requesting_user) (grant : uuid)
  | StepEndSession (issuer : string) (sid : option string) (exclude : option uuid)
  | StepDeactivateClient (client_id : string) (actor : uuid)
  | StepReactivateClient (client_id : string) (actor : uuid)
  | StepInactivateUser (issuer : string) (ru : requesting_user) (u : uuid)
  | StepReactivateUser (ru : requesting_user) (u : uuid)
  | StepAnonymizeUser (issuer : string) (ru : requesting_user) (u : uuid)
  | StepChangeRole (ru : requesting_user) (u : uuid) (new : role)
  | StepDeleteUser (issuer : string) (ru : requesting_user) (u : uuid)
  | StepPurge.

Definition ignore {A} (m : M tenant A) : M tenant () := _ ← m; mret ().

(** What a call needs of its client row: it exists and is active. *)
Definition with_client (client : uuid) (f : client_row → M tenant ()) : M tenant () :=
  c ← gets (λ t, clients t !! client);
  match c with
  | Some c => if cl_is_active c then f c else mret ()
  | None => mret ()
  end.

Definition run_step `{Crypto} `{Entropy} (s : oauth_step) : M tenant () :=
  match s with
  | StepTick d => modify (set_clock (λ c, c + Z.max 0 d))
  | StepAuthorize client user uri ch me sc no at_ sid =>
      ignore (svc_create_authorization_code client user uri ch me sc no at_ sid)
  | StepToken issuer client rq =>
      with_client client (λ c, ignore (token_endpoint issuer client c rq))
  | StepRevokeToken client token =>
      with_client client (λ c, ignore (revoke_token client c token))
  | StepStartDevice client scope =>
      with_client client (λ c, ignore (start_device_authorization client c scope))
  | StepDecide user_code user approve at_ =>
      req ← gets (λ t, find_pending_request t user_code);
      match req with
      | Some req => ignore (decide_request req user approve at_)
      | None => mret ()
      end
  | StepConsent client user scopes =>
      with_client client (λ c, ignore (record_consent client c user scopes))
  | StepRevokeConsent issuer u grant => revoke_my_grant issuer u grant
  | StepEndSession issuer sid exclude => ignore (end_oidc_session issuer sid exclude)
  | StepDeactivateClient client_id actor => ignore (deactivate_client client_id actor)
  | StepReactivateClient client_id actor => ignore (reactivate_client client_id actor)
  | StepInactivateUser issuer ru u => inactivate_user issuer ru u
  | StepReactivateUser ru u => reactivate_user ru u
  | StepAnonymizeUser issuer ru u => anonymize_user issuer ru u
  | StepChangeRole ru u new => update_user ru u new
  | StepDeleteUser issuer ru u => delete_user issuer ru u
  | StepPurge => ignore cleanup_expired_tokens
  end.

(** The state a history leads to; a call that raises leaves the state it
    reached. *)
Fixpoint run_steps `{Crypto} `{Entropy} (h : list oauth_step) (t : tenant) : tenant :=
  match h with
  | [] => t
  | s :: h => run_steps h (run_step s t).2
  end.

Section history.
Context `{Crypto} `{Entropy}.

Lemma keeps_run_steps (I : tenant → Prop) h t :
  (∀ s, keeps I (run_step s)) → I t → I (run_steps h t).
Proof.
  intros Hs. revert t. induction h as [|s h IH]; intros t Ht; [done|].
  by apply IH, Hs.
Qed.

Lemma keeps_ignore {A} I (m : M tenant A) : keeps I m → keeps I (ignore m).
Proof. intros Hm. apply keeps_bind; [done|]. intros. apply keeps_ret. Qed.
Lemma keeps_with_client I client f :
  (∀ c, keeps I (f c)) → keeps I (with_client client f).
Proof. intros Hf. unfold with_client. keeps_auto. Qed.

Lemma keeps_family_update_client client_id f : keeps family_ok (update_client client_id f).
Proof. unfold update_client. keeps_auto. Qed.
#[local] Hint Resolve keeps_family_update_client : keeps.

Lemma keeps_family_update_account u P f : keeps family_ok (update_account u P f).
Proof.
  apply keeps_family_update. intros t. destruct (accounts t !! u) as [a|]; [|done].
  by destruct (P a).
Qed.
#[local] Hint Resolve keeps_family_update_account : keeps.

Lemma keeps_family_device_attempts n dc client scope :
  keeps family_ok (device_attempts n dc client scope).
Proof. induction n as [|n IH]; simpl; [apply keeps_raise|]. keeps_auto. Qed.
#[local] Hint Resolve keeps_family_device_attempts : keeps.

Lemma keeps_family_cut_access issuer u : keeps family_ok (cut_access issuer u).
Proof.
  unfold cut_access, revoke_all_user_tokens, delete_consent_grants_for_user, delete_consents,
    end_user_oidc_sessions, consume_user_session_clients, consume_sessions. keeps_auto.
Qed.
#[local] Hint Resolve keeps_family_cut_access : keeps.

Lemma keeps_family_delete_user issuer ru u : keeps family_ok (delete_user issuer ru u).
Proof.
  unfold delete_user, delete_user_row, require_user, end_user_oidc_sessions,
    consume_user_session_clients, consume_sessions. keeps_auto.
  intros t Ht. by apply table_remaining.
Qed.

Lemma keeps_family_step s : keeps family_ok (run_step s).
Proof.
  destruct s; simpl; try apply keeps_ignore; try (apply keeps_with_client; intros c);
    try apply keeps_ignore.
  - by apply keeps_family_modify.
  - unfold svc_create_authorization_code, cleanup_expired_codes, create_authorization_code.
    keeps_auto.
  - apply keeps_family_token_endpoint.
  - unfold revoke_token, delete_token. keeps_auto.
  - unfold start_device_authorization, cleanup_expired_device_codes, create_device_code.
    keeps_auto.
  - unfold decide_request, decide_device_code, update_device, record_consent,
      upsert_consent_grant, ignore. keeps_auto.
    all: try (apply keeps_family_update; intros t; repeat case_match; done).
  - unfold record_consent, upsert_consent_grant. keeps_auto.
  - unfold revoke_my_grant, _revoke, delete_consent_grant, delete_consents,
      revoke_user_client_tokens, end_user_client_sessions,
      consume_user_client_session_clients, consume_sessions. keeps_auto.
  - unfold end_oidc_session, revoke_session, revoke_session_row, delete_idp_session,
      consume_session_clients, consume_sessions, revoke_session_refresh_tokens. keeps_auto.
  - unfold deactivate_client, deactivate_client_row, revoke_all_client_tokens,
      delete_consent_grants_for_client, delete_consents. keeps_auto.
  - unfold reactivate_client, reactivate_client_row. keeps_auto.
  - unfold inactivate_user, require_user, not_the_last_super_admin, inactivate_user_row.
    keeps_auto.
  - unfold reactivate_user, require_user, reactivate_user_row. keeps_auto.
  - unfold anonymize_user, require_user, not_the_last_super_admin, anonymize_user_row.
    keeps_auto.
  - unfold update_user, require_user, _validate_role_change, update_user_role. keeps_auto.
  - apply keeps_family_delete_user.
  - unfold cleanup_expired_tokens, purge_expired_tokens. keeps_auto.
Qed.

Lemma family_run_steps h t : family_ok t → family_ok (run_steps h t).
Proof. intros Ht. apply keeps_run_steps; [apply keeps_family_step|done]. Qed.
End history.
