(* ===== verification/OAuthProofs.v ===== *)
(** * What the OAuth2 grants guarantee

    Properties of the token endpoint and of revocation, most of them over
    every history of calls that starts from a tenant without tokens. *)

From stdpp Require Import gmap strings.
From S2P Require Import Prelude GroupDb AppAccess Sha256 OAuthDb OAuthService UserLifecycle OAuthTokens OAuthHistory.
#[local] Open Scope Z_scope.

Definition no_tokens (t : tenant) : Prop := tokens t = ∅.

Lemma no_tokens_family t : no_tokens t → family_ok t.
Proof. intros Ht. unfold family_ok. rewrite Ht. split; intros ?; set_solver. Qed.

Section tokens.
Context `{Crypto} `{Entropy}.

Lemma family_history h t : no_tokens t → family_ok (run_steps h t).
Proof. intros Ht. by apply family_run_steps, no_tokens_family. Qed.

(** C12. Through every history of calls, an access token that hangs below a
    refresh token belongs to the same client, user, grant and scope as that
    refresh token, which exists, and outlives it by at most an hour; no two
    tokens share a lookup digest. *)
Theorem token_families_kept h t x r p :
  no_tokens t → let s := run_steps h t in
  tokens s !! x = Some r →
  (∀ y r', tokens s !! y = Some r' → tk_lookup r' = tk_lookup r → y = x) ∧
  (tk_parent r = Some p → ∃ q, tokens s !! p = Some q ∧ tk_type q = refresh ∧
     tk_client r = tk_client q ∧ tk_user r = tk_user q ∧ tk_grant r = tk_grant q ∧
     tk_scope r = tk_scope q ∧ tk_expires_at r <= tk_expires_at q + ACCESS_TOKEN_EXPIRY).
Proof.
  intros Ht s Hx. destruct (family_history h t Ht) as [HT HU]. split.
  - intros y r' Hy Hl. by eapply HU.
  - intros (q & Hq & ? & ? & ? & ? & ? & ? & ? & ?)%(HT _ _ _ Hx). exists q. by split_and!.
Qed.

(** ** Codes *)

Lemma find_code_Some t code client uri x r :
  find_code t code client uri = Some (x, r) →
  codes t !! x = Some r ∧ ac_client r = client ∧ ac_redirect_uri r = uri ∧
  ac_lookup r = token_lookup code ∧ clock t < ac_expires_at r ∧
  verify_token_hash code (ac_hash r) = true.
Proof.
  unfold find_code, verified. destruct (find_row _ _) as [[y s]|] eqn:E; [|done].
  apply find_row_Some in E as [? (? & ? & ? & ?)].
  destruct (verify_token_hash code (ac_hash s)) eqn:?; [|done]. by intros [= <- <-].
Qed.

(** What one redemption does, on every branch. *)
Lemma run_validate_and_consume_code code client uri v t :
  validate_and_consume_code code client uri v t =
  match find_code t code client uri with
  | None => (Ok None, t)
  | Some (x, r) =>
      match pkce_ok r v with
      | Raise e => (Raise e, t)
      | Ok false => (Ok None, t)
      | Ok true =>
          match ac_consumed_at r with
          | None => (Ok (Some (mk_code_data x (ac_user r) (ac_scope r) (ac_nonce r)
                                 (ac_auth_time r) (ac_sid r))),
                     set_codes (insert x (consume (clock t) r)) t)
          | Some _ =>
              let gone := matching (λ k, tk_grant k = Some x) (tokens t) in
              (Ok None, set_dir (set_events (λ l, l ++
                 [mk_event (Some (ac_user r)) "oauth2_client" client
                    "oauth2_authorization_code_reused"
                    [("grant_id", MId x); ("tokens_revoked", MNat (size gone))]]))
                 (set_tokens (λ T, remaining T gone) t))
          end
      end
  end.
Proof.
  unfold validate_and_consume_code, db_validate_and_consume_code. run.
  destruct (find_code t code client uri) as [[x r]|] eqn:Hf; [|done].
  apply find_code_Some in Hf as (Hx & _). rewrite run_bind_assoc.
  rewrite run_bind. unfold lift at 1. destruct (pkce_ok r v) as [[|]|e]; [|done..].
  destruct (ac_consumed_at r) eqn:Hc; simpl.
  - run. unfold revoke_grant_tokens. rewrite run_bind, run_delete_tokens. run. done.
  - unfold consume_code. run. rewrite Hx, Hc. simpl. run. done.
Qed.

(** Redeemed: the row, if it is still there, has been consumed. *)
Definition redeemed_code (x : uuid) (t : tenant) : Prop :=
  ∀ r, codes t !! x = Some r → ac_consumed_at r ≠ None.

Lemma keeps_redeemed_modify x f : (∀ t, codes (f t) = codes t) → keeps (redeemed_code x) (modify f).
Proof. intros Hf t Ht. unfold redeemed_code. simpl. by rewrite Hf. Qed.
Lemma keeps_redeemed_update {A} x (f : tenant → A * tenant) :
  (∀ t, ∀ r, codes (f t).2 !! x = Some r → codes t !! x = Some r ∨ ac_consumed_at r ≠ None) →
  keeps (redeemed_code x) (update f).
Proof.
  intros Hf t Ht. unfold redeemed_code. rewrite run_update. simpl. intros r Hr.
  destruct (Hf t r Hr) as [?|?]; [by apply Ht|done].
Qed.
Lemma keeps_redeemed_delete x gone : keeps (redeemed_code x) (delete_tokens gone).
Proof. apply keeps_redeemed_update. by left. Qed.
Lemma keeps_redeemed_insert_token x r : keeps (redeemed_code x) (insert_token r).
Proof.
  intros t Ht. destruct (insert_token r t) as [[y|e] t'] eqn:E; simpl.
  - apply insert_token_Ok in E as (_ & _ & _ & _ & _ & _ & ->). done.
  - by apply insert_token_Raise in E as ->.
Qed.
End tokens.

#[export] Hint Resolve keeps_redeemed_delete keeps_redeemed_insert_token : keeps.
#[export] Hint Extern 4 (keeps (redeemed_code _) (modify _)) =>
  apply keeps_redeemed_modify; done : keeps.
#[export] Hint Extern 4 (keeps (redeemed_code _) (update _)) =>
  apply keeps_redeemed_update; intros ? ? ?; left; assumption : keeps.

Section redemption.
Context `{Crypto} `{Entropy} (x : uuid) (Hx : ∀ t, new_id t ≠ x).

Lemma keeps_redeemed_filter (P : uuid * code_row → Prop) `{∀ kv, Decision (P kv)} :
  keeps (redeemed_code x) (modify (set_codes (filter P))).
Proof.
  intros t Ht r. simpl. intros [Hr _]%map_lookup_filter_Some. by apply Ht.
Qed.
#[local] Hint Resolve keeps_redeemed_filter : keeps.

Lemma keeps_redeemed_audit a ty y e m : keeps (redeemed_code x) (audit a ty y e m).
Proof. by apply keeps_redeemed_modify. Qed.
#[local] Hint Resolve keeps_redeemed_audit : keeps.

Lemma keeps_redeemed_consume_code y : keeps (redeemed_code x) (consume_code y).
Proof.
  apply keeps_redeemed_update. intros t r. destruct (codes t !! y) as [s|] eqn:Hs; [|by left].
  destruct (decide _) as [Hn|Hn]; [|by left]. simpl.
  destruct (decide (y = x)) as [->|Hyx].
  - rewrite lookup_insert_eq. intros [= <-]. by right.
  - rewrite lookup_insert_ne by done. by left.
Qed.
#[local] Hint Resolve keeps_redeemed_consume_code : keeps.

Lemma keeps_redeemed_create_code client user uri ch me sc no at_ sid :
  keeps (redeemed_code x) (create_authorization_code client user uri ch me sc no at_ sid).
Proof.
  unfold create_authorization_code. apply keeps_bind_gets. intros t Ht.
  cbn zeta. repeat (rewrite run_raise_if_bind; case_match; [done|]). run. intros r.
  simpl. rewrite lookup_insert_ne by apply Hx. apply Ht.
Qed.
#[local] Hint Resolve keeps_redeemed_create_code : keeps.

Lemma keeps_redeemed_cleanup : keeps (redeemed_code x) cleanup_expired_codes.
Proof.
  apply keeps_redeemed_update. intros t r. simpl. intros [Hr _]%lookup_difference_Some. by left.
Qed.
#[local] Hint Resolve keeps_redeemed_cleanup : keeps.

Lemma keeps_redeemed_tokens :
  (∀ client user p cc sc g, keeps (redeemed_code x) (create_access_token client user p cc sc g)) ∧
  (∀ client user sc g sid, keeps (redeemed_code x) (create_refresh_token client user sc g sid)) ∧
  (∀ o client user sc g e sid,
     keeps (redeemed_code x) (rotate_refresh_token o client user sc g e sid)).
Proof.
  split_and!; intros; [unfold create_access_token|unfold create_refresh_token|
    unfold rotate_refresh_token, delete_token]; keeps_auto.
Qed.

Lemma keeps_redeemed_issue issuer client c user scope grant nonce at_ sid :
  keeps (redeemed_code x) (_issue_user_tokens issuer client c user scope grant nonce at_ sid).
Proof.
  destruct keeps_redeemed_tokens as (H1 & H2 & _).
  unfold _issue_user_tokens, issue_id_token, upsert_session_client. keeps_auto.
Qed.
#[local] Hint Resolve keeps_redeemed_issue : keeps.

Lemma keeps_redeemed_update_device y P f : keeps (redeemed_code x) (update_device y P f).
Proof.
  apply keeps_redeemed_update. intros t r. left. revert select (codes _ !! _ = _).
  destruct (device_codes t !! y); [destruct (P t d)|]; done.
Qed.
#[local] Hint Resolve keeps_redeemed_update_device : keeps.

Lemma keeps_redeemed_token_endpoint issuer client c rq :
  keeps (redeemed_code x) (token_endpoint issuer client c rq).
Proof.
  destruct keeps_redeemed_tokens as (H1 & H2 & H3).
  unfold token_endpoint, grant_authorization_code, grant_refresh_token, grant_client_credentials,
    grant_device_code, validate_and_consume_code, db_validate_and_consume_code,
    svc_rotate_refresh_token, access_denied, user_can_access_client, poll, record_poll, redeem,
    redeem_device_code, user_of, revoke_grant_tokens. keeps_auto.
Qed.
#[local] Hint Resolve keeps_redeemed_token_endpoint : keeps.

Lemma keeps_redeemed_update_client client_id f :
  keeps (redeemed_code x) (update_client client_id f).
Proof. unfold update_client. keeps_auto. Qed.
#[local] Hint Resolve keeps_redeemed_update_client : keeps.
Lemma keeps_redeemed_update_account u P f : keeps (redeemed_code x) (update_account u P f).
Proof.
  apply keeps_redeemed_update. intros t r. left. revert select (codes _ !! _ = _).
  destruct (accounts t !! u); [destruct (P a)|]; done.
Qed.
#[local] Hint Resolve keeps_redeemed_update_account : keeps.
Lemma keeps_redeemed_device_attempts n dc client scope :
  keeps (redeemed_code x) (device_attempts n dc client scope).
Proof. induction n as [|n IH]; simpl; [apply keeps_raise|]. keeps_auto. Qed.
#[local] Hint Resolve keeps_redeemed_device_attempts : keeps.
Lemma keeps_redeemed_delete_user_cascade u :
  keeps (redeemed_code x) (modify (delete_user_cascade u)).
Proof. intros t Ht r. simpl. intros [Hr _]%map_lookup_filter_Some. by apply Ht. Qed.
#[local] Hint Resolve keeps_redeemed_delete_user_cascade : keeps.

Lemma keeps_redeemed_step s : keeps (redeemed_code x) (run_step s).
Proof.
  destruct s; simpl; unfold ignore, with_client, svc_create_authorization_code, revoke_token,
    delete_token, start_device_authorization, cleanup_expired_device_codes, create_device_code,
    decide_request, decide_device_code, record_consent, upsert_consent_grant, revoke_my_grant,
    _revoke, delete_consent_grant, revoke_user_client_tokens, end_user_client_sessions,
    consume_user_client_session_clients, end_oidc_session, revoke_session, revoke_session_row,
    delete_idp_session, consume_session_clients, revoke_session_refresh_tokens,
    deactivate_client, deactivate_client_row, revoke_all_client_tokens, reactivate_client,
    reactivate_client_row, inactivate_user, reactivate_user, anonymize_user, update_user,
    delete_user, require_user, not_the_last_super_admin, inactivate_user_row,
    reactivate_user_row, anonymize_user_row, _validate_role_change, update_user_role,
    delete_user_row, cut_access, revoke_all_user_tokens, delete_consent_grants_for_user,
    delete_consent_grants_for_client, delete_consents, end_user_oidc_sessions,
    consume_user_session_clients, consume_sessions, cleanup_expired_tokens,
    purge_expired_tokens.
  all: keeps_auto.
Qed.
End redemption.

Section code_properties.
Context `{Crypto} `{Entropy}.

(** C5. An authorization code is redeemed at most once: after a redemption,
    whatever calls follow, no presentation of any code yields the same
    grant again (as long as the database does not draw the code's id a
    second time). *)
Theorem code_redeemed_once code client uri v t d t' h code2 client2 uri2 v2 d2 t2 :
  (∀ s, new_id s ≠ cd_id d) →
  validate_and_consume_code code client uri v t = (Ok (Some d), t') →
  validate_and_consume_code code2 client2 uri2 v2 (run_steps h t') = (Ok (Some d2), t2) →
  cd_id d2 ≠ cd_id d.
Proof.
  intros Hid Hv Hv2. rewrite run_validate_and_consume_code in Hv, Hv2.
  assert (redeemed_code (cd_id d) (run_steps h t')) as Hred.
  { apply keeps_run_steps; [intros s; by apply keeps_redeemed_step|].
    destruct (find_code t code client uri) as [[x r]|]; [|done].
    destruct (pkce_ok r v) as [[|]|]; [|done..]. destruct (ac_consumed_at r); [done|].
    injection Hv as <- <-. intros r'. simpl. rewrite lookup_insert_eq. by intros [= <-]. }
  destruct (find_code _ code2 client2 uri2) as [[x r]|] eqn:Hf; [|done].
  destruct (pkce_ok r v2) as [[|]|]; [|done..]. destruct (ac_consumed_at r) eqn:Hc; [done|].
  injection Hv2 as <- <-. simpl. intros ->.
  apply find_code_Some in Hf as (Hx & _). by apply (Hred r Hx).
Qed.

(** C11. Presenting a redeemed code again, with the right client, redirect URI
    and verifier, yields nothing and revokes exactly the tokens of its grant:
    the tokens of every other grant stay. *)
Theorem code_reuse_revokes_grant h t code client uri v x r :
  no_tokens t → let s := run_steps h t in
  find_code s code client uri = Some (x, r) → pkce_ok r v = Ok true →
  ac_consumed_at r ≠ None →
  ∃ s', validate_and_consume_code code client uri v s = (Ok None, s') ∧
    ∀ y k, tokens s' !! y = Some k ↔ tokens s !! y = Some k ∧ tk_grant k ≠ Some x.
Proof.
  intros Ht s Hf Hp Hc. rewrite run_validate_and_consume_code, Hf, Hp.
  destruct (ac_consumed_at r); [|done]. eexists. split; [done|]. intros y k. simpl.
  apply lookup_remaining_matching; [by apply family_history|].
  intros k1 k2 (_ & _ & _ & _ & _ & -> & _). done.
Qed.
End code_properties.

(** ** What a grant issues *)

(** [r] is the row of token [tok] with the given data. *)
Record row_of `{Crypto} (r : token_row) (tok : string) (ty : token_type) (client user : uuid)
    (scope : option string) (grant parent : option uuid) (exp : Z) : Prop := mk_row_of {
  ro_hash : ∃ s, tk_hash r = hash_token s tok;
  ro_lookup : tk_lookup r = token_lookup tok;
  ro_type : tk_type r = ty;
  ro_client : tk_client r = client;
  ro_user : tk_user r = user;
  ro_scope : tk_scope r = scope;
  ro_grant : tk_grant r = grant;
  ro_parent : tk_parent r = parent;
  ro_expires : tk_expires_at r = exp;
}.

(** A call added a refresh token [rt] and an access token [at_] below it, for
    one user's grant, and kept every other token. *)
Definition issued_pair `{Crypto} (t t' : tenant) (rt at_ : string) (client user : uuid)
    (scope : option string) (grant : option uuid) (exp : Z) : Prop :=
  ∃ y q z k, tokens t !! y = None ∧ tokens t !! z = None ∧ y ≠ z ∧
    tokens t' = <[z := k]> (<[y := q]> (tokens t)) ∧
    row_of q rt refresh client user scope grant None exp ∧
    row_of k at_ access client user scope grant (Some y) (clock t + ACCESS_TOKEN_EXPIRY).

Section issuing.
Context `{Crypto} `{Entropy}.

Lemma run_issue_id_token issuer client c user scopes nonce at_ sid t :
  ∃ cl f g, issue_id_token issuer client c user scopes nonce at_ sid t =
    (Ok cl, set_dir (set_events f) (set_session_clients g t)).
Proof.
  unfold issue_id_token. run. destruct (truthy sid) as [s|].
  - unfold upsert_session_client, audit. run. eexists _, _, _. reflexivity.
  - unfold audit. run. exists (mk_id_claims issuer user (cl_client_id c) (to_seconds (clock t))
      (to_seconds (clock t + ID_TOKEN_EXPIRY))
      (from_option to_seconds (to_seconds (clock t)) at_) (truthy nonce) None).
    eexists _, id. by destruct t.
Qed.

Lemma run_issue_user_tokens issuer client c user scope grant nonce at_ sid t ans t' :
  _issue_user_tokens issuer client c user scope grant nonce at_ sid t = (Ok ans, t') →
  ∃ a rt idt, ans = TokenSuccess a (to_seconds ACCESS_TOKEN_EXPIRY) (Some rt) idt ∧
    issued_pair t t' rt a client user scope (Some grant) (clock t + REFRESH_TOKEN_EXPIRY) ∧
    codes t' = codes t ∧ device_codes t' = device_codes t ∧ clock t' = clock t ∧
    (is_Some idt ↔ cl_oidc_enabled c = true ∧ SCOPE_OPENID ∈ parse_scope scope).
Proof.
  unfold _issue_user_tokens. cbn zeta. set (b := cl_oidc_enabled c && _).
  assert (b = true ↔ cl_oidc_enabled c = true ∧ SCOPE_OPENID ∈ parse_scope scope) as Hb.
  { unfold b. by rewrite andb_true_iff, bool_decide_eq_true. }
  clearbody b. rewrite run_bind.
  destruct (create_refresh_token _ _ _ _ _ t) as [[[rt y]|e] t1] eqn:E1; [|done].
  apply run_create_refresh_token in E1 as (-> & -> & Hy & _ & ->). simpl.
  set (q := mk_token _ _ _ _ _ _ _ _ _ _ _). set (t1 := set_tokens _ t).
  rewrite run_bind.
  destruct (create_access_token _ _ _ _ _ _ t1) as [[a|e] t2] eqn:E2; [|done].
  apply run_create_access_token in E2 as (-> & Hz & _ & ->).
  set (k := mk_token _ _ _ _ _ _ _ _ _ _ _). set (t2 := set_tokens _ t1).
  assert (issued_pair t t2 (opaque_token "refresh" t) (opaque_token "access" t1) client user
            scope (Some grant) (clock t + REFRESH_TOKEN_EXPIRY)) as Hpair.
  { unfold t1 in Hz. simpl in Hz. apply lookup_insert_None in Hz as [Hz Hne].
    exists (new_id t), q, (new_id t1), k. split_and!; [done|done|done|done| |].
    - split; try done. by exists t.
    - split; try done. by exists t1. }
  assert (codes t2 = codes t ∧ device_codes t2 = device_codes t ∧ clock t2 = clock t)
    as (Hc & Hd & Hcl) by done.
  clearbody t2. destruct b.
  - rewrite run_bind_assoc, run_bind.
    destruct (run_issue_id_token issuer client c user (parse_scope scope) nonce at_ sid t2)
      as (cl & f & g & ->).
    run. intros [= <- <-]. eexists _, _, (Some cl). split_and!; try done.
    split; [intros _; by apply Hb|by eexists].
  - run. intros [= <- <-]. eexists _, _, None. split_and!; try done.
    split; [by intros []|intros Hx%Hb; done].
Qed.

(** What a code with a PKCE challenge asks of the verifier (RFC 7636). *)
Definition pkce_answered (r : code_row) (v : option string) : Prop :=
  ∀ challenge, ac_challenge r = Some challenge → challenge ≠ "" → ∃ w, v = Some w ∧
    (ac_method r = Some "plain" ∧ w = challenge ∨
     ac_method r = Some "S256" ∧ is_ascii w = true ∧
       String.string_of_list_ascii (b64url (sha256 (bytes_of w))) = challenge).
Lemma pkce_ok_answered r v : pkce_ok r v = Ok true → pkce_answered r v.
Proof.
  intros Hp challenge Hc Hne. revert Hp. unfold pkce_ok. rewrite Hc. destruct challenge as [|c challenge]; [done|].
  destruct v as [[|w v]|]; [done| |done]. unfold verify_pkce_challenge.
  case_bool_decide as Hm; [intros [= Heq%bool_decide_eq_true]; eexists; split; [done|by left]|].
  case_bool_decide as Hs; [|done]. destruct (is_ascii _) eqn:Ha; [|done].
  intros [= Heq%bool_decide_eq_true]. eexists. split; [done|by right].
Qed.

(** C7. The authorization-code grant hands out tokens only to a confidential
    normal client that presents a code whose row is in the table: its hash
    matches, it was issued to that client for the same redirect URI, it has not
    expired and was not redeemed before, and when it has a PKCE challenge, the
    verifier was sent and matches it (is it, or hashes to it).  The grant then
    marks the code consumed and adds one refresh and one access token of the
    code's user, scope and grant, and an ID token exactly for an OIDC client
    with the openid scope. *)
Theorem authorization_code_grant_sound issuer client c code uri v t a e rt idt t' :
  grant_authorization_code issuer client c code uri v t = (Ok (TokenSuccess a e rt idt), t') →
  cl_type c = normal ∧ cl_is_public c = false ∧
  ∃ code' uri' x r rt', truthy code = Some code' ∧ truthy uri = Some uri' ∧
    codes t !! x = Some r ∧ verify_token_hash code' (ac_hash r) = true ∧
    ac_client r = client ∧ ac_redirect_uri r = uri' ∧ clock t < ac_expires_at r ∧
    pkce_answered r v ∧
    ac_consumed_at r = None ∧ codes t' = <[x := consume (clock t) r]> (codes t) ∧
    ac_consumed_at (consume (clock t) r) = Some (clock t) ∧ rt = Some rt' ∧
    issued_pair t t' rt' a client (ac_user r) (ac_scope r) (Some x)
      (clock t + REFRESH_TOKEN_EXPIRY) ∧
    (is_Some idt ↔ cl_oidc_enabled c = true ∧ SCOPE_OPENID ∈ parse_scope (ac_scope r)).
Proof.
  unfold grant_authorization_code.
  destruct (bool_decide (cl_type c ≠ normal)) eqn:Hty; [done|].
  apply bool_decide_eq_false, dec_stable in Hty. simpl.
  destruct (cl_is_public c) eqn:Hpub; [done|].
  destruct (truthy code) as [code'|]; [|done]. destruct (truthy uri) as [uri'|]; [|done].
  rewrite run_bind, run_validate_and_consume_code.
  destruct (find_code t code' client uri') as [[x r]|] eqn:Hf; [|done].
  destruct (pkce_ok r v) as [[|]|] eqn:Hp; [|done..].
  destruct (ac_consumed_at r) eqn:Hc; [done|]. simpl.
  intros (a' & rt' & idt' & [= -> _ -> ->] & Hpair & Hcodes & _ & _ & Hid)%run_issue_user_tokens.
  apply find_code_Some in Hf as (Hx & Hcl & Huri & _ & Hexp & Hver). apply pkce_ok_answered in Hp.
  split_and!; [done..|]. exists code', uri', x, r, rt'. by split_and!.
Qed.

(** C6. The refresh grant hands out tokens only for a live refresh token of
    the calling client whose user still has access.  The presented token is
    replaced by one with the same user, scope, grant and expiry, its access
    tokens are moved below the replacement and stay usable, and presenting
    the old token again is refused. *)
Theorem refresh_grant_rotates client c token t a e rt idt t' :
  family_ok t →
  grant_refresh_token client c token t = (Ok (TokenSuccess a e rt idt), t') →
  ∃ tok rt' old r new q z k, truthy token = Some tok ∧ rt = Some rt' ∧ idt = None ∧
    validate_refresh_token t tok client = Some (old, r) ∧
    (cl_oidc_enabled c = true → user_can_access_oauth2_client (dir t) (tk_user r) client = true) ∧
    tokens t' = <[z := k]> (<[new := q]> (reparent old new <$> delete old (tokens t))) ∧
    tokens t !! new = None ∧ z ≠ new ∧
    row_of q rt' refresh client (tk_user r) (tk_scope r) (tk_grant r) None (tk_expires_at r) ∧
    row_of k a access client (tk_user r) (tk_scope r) (tk_grant r) (Some new)
      (clock t + ACCESS_TOKEN_EXPIRY) ∧
    validate_refresh_token t' tok client = None.
Proof.
  intros Ht. unfold grant_refresh_token. destruct (truthy token) as [tok|]; [|done]. run.
  destruct (validate_refresh_token t tok client) as [[old r]|] eqn:E; [|done].
  pose proof (validate_refresh_token_Some _ _ _ _ _ E) as (Hold & Hty & Hcl & Hlk & Hexp & _).
  rewrite run_bind.
  destruct (run_access_denied client c (tk_user r) t) as (b & f & Hacc & Hb). simpl.
  rewrite Hacc. destruct b; [done|]. set (t0 := set_dir _ t).
  assert (family_ok t0) as Ht0 by done. rewrite run_bind. unfold svc_rotate_refresh_token. simpl.
  destruct (rotate_refresh_token _ _ _ _ _ _ _ t0) as [[res|e'] t1] eqn:Er; [|done].
  destruct res as [[rt' new]|]; [|done].
  apply (run_rotate_refresh_token _ _ _ _ _ _ _ _ r) in Er as ([= -> ->] & Hne & Hn & Hfree & ->);
    [|apply Ht|done..|exact (refresh_has_no_parent _ _ _ (proj1 Ht) Hold Hty)].
  set (q := mk_token _ _ _ _ _ _ _ _ _ _ _). set (new := new_id t0) in *.
  set (t1 := set_tokens _ t0). rewrite run_bind.
  destruct (create_access_token _ _ _ _ _ _ t1) as [[at_|e'] t2] eqn:Ea; [|done].
  apply run_create_access_token in Ea as (-> & Hz & Hzfree & ->).
  set (k := mk_token _ _ _ _ _ _ _ _ _ _ _). set (z := new_id t1) in *.
  intros [= <- <- <- <- <-].
  set (T := <[z := k]> (<[new := q]> (reparent old new <$> delete old (tokens t)))).
  assert (z ≠ new) as Hzn.
  { intros Heq. rewrite Heq in Hz. unfold t1 in Hz. simpl in Hz. by rewrite lookup_insert_eq in Hz. }
  exists tok. eexists _, old, r, new, q, z, k. split_and!; try done.
  - intros Hoidc. by apply Hb.
  - split; try done. by exists t0.
  - split; try done. by exists t1.
  - unfold validate_refresh_token, verified.
    destruct (find_row _ _) as [[y s]|] eqn:Hfind; [exfalso|done].
    apply find_row_Some in Hfind as [Hy (Hsty & _ & Hsl & _)]. simpl in Hy.
    destruct (decide (y = z)) as [->|Hyz].
    { rewrite lookup_insert_eq in Hy. by injection Hy as <-. }
    rewrite lookup_insert_ne in Hy by done.
    destruct (decide (y = new)) as [->|Hyn].
    { rewrite lookup_insert_eq in Hy. injection Hy as <-. apply (Hfree old r Hold).
      unfold q in Hsl. simpl in Hsl. congruence. }
    rewrite lookup_insert_ne in Hy by done.
    apply lookup_fmap_Some in Hy as (s' & <- & [Hyo Hs]%lookup_delete_Some).
    apply Hyo. symmetry. eapply (proj2 Ht); [exact Hs|exact Hold|].
    rewrite Hlk. unfold reparent in Hsl. by destruct (decide _).
Qed.
End issuing.
