(* ===== verification/OAuthRevocation.v ===== *)
(** * Validation, revocation and expiry of tokens

    Issued tokens validate and only they do; what each way of revoking
    removes. *)

From stdpp Require Import gmap strings.
From S2P Require Import Prelude GroupDb AppAccess OAuthDb OAuthService UserLifecycle OAuthTokens OAuthHistory OAuthProofs.
#[local] Open Scope Z_scope.

Section validation.
Context `{CryptoLaws} `{Entropy}.

(** A freshly issued access token validates as the row that was stored,
    until it expires, and no other string validates as that row. *)
Theorem access_token_roundtrip client user parent cc scope grant t tok t' d other :
  create_access_token client user parent cc scope grant t = (Ok tok, t') →
  0 <= d < (if (cc : bool) then CLIENT_CREDENTIALS_TOKEN_EXPIRY else ACCESS_TOKEN_EXPIRY) →
  let now := set_clock (λ c, c + d) t' in
  ∃ r, row_of r tok access client user scope grant parent
         (clock t + if (cc : bool) then CLIENT_CREDENTIALS_TOKEN_EXPIRY else ACCESS_TOKEN_EXPIRY) ∧
    validate_token now tok = Some (new_id t, r) ∧
    (other ≠ tok → ∀ r', validate_token now other ≠ Some (new_id t, r')).
Proof.
  intros (-> & Hn & Hfree & ->)%run_create_access_token Hd. cbn zeta.
  set (r := mk_token _ _ _ _ _ _ _ _ _ _ _). exists r.
  split_and!; [split; try done; by exists t| |].
  - unfold validate_token, verified.
    match goal with |- context [find_row ?P ?m] =>
      rewrite (find_row_unique P m (new_id t) r) end.
    + assert (verify_token_hash (opaque_token "access" t) (tk_hash r) = true) as ->; [|done].
      by apply verify_hash.
    + simpl. by rewrite lookup_insert_eq.
    + split_and!; [done..|]. simpl. unfold ACCESS_TOKEN_EXPIRY in *. destruct cc; lia.
    + intros y s Hy (_ & Hl & _). simpl in Hy.
      destruct (decide (y = new_id t)) as [->|Hne]; [done|].
      rewrite lookup_insert_ne in Hy by done. by destruct (Hfree y s Hy).
  - intros Hne r' Hv. unfold validate_token, verified in Hv.
    destruct (find_row _ _) as [[y s]|] eqn:Hf; [|done].
    destruct (verify_token_hash other (tk_hash s)) eqn:Hver; [|done].
    injection Hv as -> ->. apply find_row_Some in Hf as [Hy _]. simpl in Hy.
    rewrite lookup_insert_eq in Hy. injection Hy as <-. by apply verify_hash in Hver.
Qed.
End validation.

Section revocation.
Context `{Crypto} `{Entropy}.

(** The retention sweep deletes expired tokens only: a token that is
    still live is never taken away with an expired parent. *)
Theorem purge_keeps_live_tokens h t x r :
  no_tokens t → let s := run_steps h t in
  tokens s !! x = Some r → clock s < tk_expires_at r →
  tokens (cleanup_expired_tokens s).2 !! x = Some r.
Proof.
  intros Ht s Hx Hlive. destruct (family_history h t Ht) as [HT _]. fold s in HT.
  unfold cleanup_expired_tokens, purge_expired_tokens. run.
  apply (lookup_remaining HT). split_and!; [done| |].
  - rewrite elem_of_matching. intros (r' & Hr' & Hexp). simplify_eq.
    unfold EXPIRED_TOKEN_RETENTION_DAYS, seconds in Hexp. lia.
  - unfold parent_in. destruct (tk_parent r) as [p|] eqn:Hp; [|done].
    apply bool_decide_eq_false. rewrite elem_of_matching. intros (q & Hq & Hexp).
    destruct (HT x r p Hx Hp) as (q' & Hq' & Hd). simplify_eq.
    destruct Hd as (_ & _ & _ & _ & _ & _ & _ & Hle).
    unfold EXPIRED_TOKEN_RETENTION_DAYS, ACCESS_TOKEN_EXPIRY, seconds in *. lia.
Qed.

Lemma find_token_Some t token x r :
  find_token t token = Some (x, r) →
  tokens t !! x = Some r ∧ tk_lookup r = token_lookup token ∧ clock t < tk_expires_at r ∧
  is_Some (clients t !! tk_client r).
Proof.
  unfold find_token, verified. destruct (find_row _ _) as [[y s]|] eqn:E; [|done].
  apply find_row_Some in E as [? (? & ? & ?)].
  destruct (verify_token_hash token (tk_hash s)); [|done]. by intros [= <- <-].
Qed.

(** A client revokes its own live tokens only, whatever it may
    introspect: a successful revocation removes the presented token and the
    access tokens below it, and leaves all others; otherwise nothing
    changes. *)
Theorem revoke_token_outcome client c token t b t' :
  family_ok t → revoke_token client c token t = (Ok b, t') →
  (b = true ↔ ∃ x r, find_token t token = Some (x, r) ∧ tk_client r = client) ∧
  (b = true → ∀ x r, find_token t token = Some (x, r) →
     ∀ y k, tokens t' !! y = Some k ↔ tokens t !! y = Some k ∧ y ≠ x ∧ tk_parent k ≠ Some x) ∧
  (b = false → t' = t).
Proof.
  intros [HT _]. unfold revoke_token. run.
  destruct (find_token t token) as [[x r]|] eqn:Hf.
  2:{ run. intros [= <- <-]. split_and!; [split; [done|naive_solver]|done..]. }
  pose proof (find_token_Some _ _ _ _ Hf) as (Hx & _).
  unfold _can_see. simpl. rewrite orb_false_r.
  destruct (bool_decide (tk_client r = client)) eqn:Hcl.
  2:{ apply bool_decide_eq_false in Hcl. run. intros [= <- <-].
      split_and!; [split; [done|naive_solver]|done..]. }
  apply bool_decide_eq_true in Hcl. unfold delete_token. rewrite run_bind, run_delete_tokens. simpl.
  assert (dom (tokens t) ∩ {[x]} = {[x]}) as ->.
  { apply set_eq. intros y. rewrite elem_of_intersection, elem_of_singleton, elem_of_dom.
    split; [naive_solver|intros ->; by eauto]. }
  rewrite size_singleton. simpl. run. intros [= <- <-].
  split_and!; [split; [intros _; by exists x, r|done]| |done].
  intros _ ? ? [= <- <-] y k. simpl. rewrite (lookup_remaining HT), elem_of_singleton.
  unfold parent_in. destruct (tk_parent k) as [p|].
  - rewrite bool_decide_eq_false, elem_of_singleton. naive_solver congruence.
  - naive_solver.
Qed.

(** A description of a token is given only while the token is live, and
    only to the client it was issued to or to one that may introspect the
    whole tenant; it names the owning client, the user and the expiry. *)
Theorem introspection_visibility t client c token issuer i :
  introspect_token t client c token issuer = Some i ↔
  ∃ x r owner, find_token t token = Some (x, r) ∧ clients t !! tk_client r = Some owner ∧
    (tk_client r = client ∨ cl_can_introspect c = true) ∧
    i = mk_introspection (truthy (tk_scope r)) (cl_client_id owner) (tk_user r)
          (if decide (tk_type r = access) then Some "Bearer" else None)
          (to_seconds (tk_expires_at r)) (to_seconds (tk_created_at r)) issuer.
Proof.
  unfold introspect_token, _can_see.
  destruct (find_token t token) as [[x r]|] eqn:Hf; simpl; [|naive_solver].
  destruct (clients t !! tk_client r) as [owner|] eqn:Ho; simpl; [|naive_solver].
  destruct (bool_decide (tk_client r = client)) eqn:Hcl; simpl.
  - apply bool_decide_eq_true in Hcl. split; [|naive_solver].
    intros [= <-]. exists x, r, owner. auto.
  - apply bool_decide_eq_false in Hcl. destruct (cl_can_introspect c); [|naive_solver].
    split; [|naive_solver]. intros [= <-]. exists x, r, owner. auto.
Qed.
End revocation.

(** ** Revoking a consent *)

(** Nothing is left from which [client] could get tokens of user [u]. *)
Record quiet (client u : uuid) (t : tenant) : Prop := mk_quiet {
  q_tokens : ∀ y k, tokens t !! y = Some k → tk_client k = client → tk_user k ≠ u;
  q_codes : ∀ x r, codes t !! x = Some r → ac_client r = client → ac_user r = u →
            ac_consumed_at r ≠ None;
  q_devices : ∀ x r, device_codes t !! x = Some r → dc_client r = client →
              dc_user r = Some u → dc_status r ≠ approved;
}.

Section consent.
Context `{Crypto} `{Entropy} (client u : uuid).

Lemma keeps_quiet_modify f :
  (∀ t, tokens (f t) = tokens t ∧ codes (f t) = codes t ∧ device_codes (f t) = device_codes t) →
  keeps (quiet client u) (modify f).
Proof. intros Hf t [H1 H2 H3]. destruct (Hf t) as (E1 & E2 & E3).
  by split; simpl; rewrite ?E1, ?E2, ?E3.
Qed.

Lemma keeps_quiet_audit a ty y e m : keeps (quiet client u) (audit a ty y e m).
Proof. by apply keeps_quiet_modify. Qed.

Lemma quiet_remaining t gone : quiet client u t →
  quiet client u (set_tokens (λ T, remaining T gone) t).
Proof.
  intros [H1 H2 H3]. split; simpl; [|done..].
  intros y k [Hy _]%map_lookup_filter_Some. by apply (H1 y).
Qed.

Lemma keeps_quiet_insert_token r : tk_user r ≠ u → keeps (quiet client u) (insert_token r).
Proof.
  intros Hr t [H1 H2 H3]. destruct (insert_token r t) as [[x|e] t'] eqn:E.
  - apply insert_token_Ok in E as (_ & _ & _ & _ & _ & _ & ->). split; simpl; [|done..].
    intros y k. destruct (decide (y = x)) as [->|Hy].
    + rewrite lookup_insert_eq. by intros [= <-].
    + rewrite lookup_insert_ne by done. apply H1.
  - by apply insert_token_Raise in E as ->.
Qed.

Lemma keeps_quiet_create_tokens user : user ≠ u →
  (∀ cl p cc sc g, keeps (quiet client u) (create_access_token cl user p cc sc g)) ∧
  (∀ cl sc g sid, keeps (quiet client u) (create_refresh_token cl user sc g sid)).
Proof.
  intros Hu. split; intros; [unfold create_access_token|unfold create_refresh_token]; keeps_auto;
    by apply keeps_quiet_insert_token.
Qed.

Lemma keeps_quiet_rotate old cl user sc g e sid : user ≠ u →
  keeps (quiet client u) (rotate_refresh_token old cl user sc g e sid).
Proof.
  intros Hu. unfold rotate_refresh_token, delete_token. apply keeps_transaction.
  keeps_auto; [by apply keeps_quiet_insert_token| |].
  - intros s0 [Q1 Q2 Q3]. split; simpl; [|done..]. intros y k.
    rewrite lookup_fmap_Some. intros (k' & <- & Hk). specialize (Q1 y k' Hk).
    unfold reparent. destruct (decide (tk_parent k' = Some old)); exact Q1.
  - intros s0 Hs0. rewrite run_delete_tokens. by apply quiet_remaining.
Qed.

Lemma keeps_quiet_issue issuer cl c user sc g no at_ sid : user ≠ u →
  keeps (quiet client u) (_issue_user_tokens issuer cl c user sc g no at_ sid).
Proof.
  intros Hu. destruct (keeps_quiet_create_tokens user Hu) as [H1 H2].
  unfold _issue_user_tokens, issue_id_token, upsert_session_client. keeps_auto;
    try (by apply keeps_quiet_modify); apply keeps_quiet_audit.
Qed.

Lemma quiet_consumed t x r : quiet client u t →
  quiet client u (set_codes (insert x (consume (clock t) r)) t).
Proof.
  intros [H1 H2 H3]. split; simpl; [done| |done]. intros y s.
  destruct (decide (y = x)) as [->|Hy].
  - rewrite lookup_insert_eq. by intros [= <-].
  - rewrite lookup_insert_ne by done. apply H2.
Qed.

Lemma keeps_quiet_grant_code issuer c code uri v :
  keeps (quiet client u) (grant_authorization_code issuer client c code uri v).
Proof.
  unfold grant_authorization_code. destruct (_ || _); [apply keeps_ret|].
  destruct (truthy code) as [code'|]; [|apply keeps_ret].
  destruct (truthy uri) as [uri'|]; [|apply keeps_ret]. intros t Ht.
  rewrite run_bind, run_validate_and_consume_code.
  destruct (find_code t code' client uri') as [[x r]|] eqn:Hf; [|done].
  destruct (pkce_ok r v) as [[|]|]; [|done..]. destruct (ac_consumed_at r) eqn:Hc; simpl.
  - pose proof (quiet_remaining t (matching (λ k, tk_grant k = Some x) (tokens t)) Ht) as [].
    by split.
  - apply find_code_Some in Hf as (Hx & Hcl & _).
    apply keeps_quiet_issue; [|by apply quiet_consumed].
    intros Hu. by apply (q_codes _ _ _ Ht x r).
Qed.

Lemma keeps_quiet_access_denied cl c user : keeps (quiet client u) (access_denied cl c user).
Proof. unfold access_denied, user_can_access_client. keeps_auto. apply keeps_quiet_audit. Qed.

Lemma keeps_quiet_grant_refresh c token :
  keeps (quiet client u) (grant_refresh_token client c token).
Proof.
  unfold grant_refresh_token. destruct (truthy token) as [tok|]; [|apply keeps_ret].
  intros t Ht. run.
  destruct (validate_refresh_token t tok client) as [[x r]|] eqn:E; [|done].
  apply validate_refresh_token_Some in E as (Hx & _ & Hcl & _).
  assert (tk_user r ≠ u) as Hu by (by apply (q_tokens _ _ _ Ht x)).
  revert Ht. apply (keeps_bind (quiet client u)); [apply keeps_quiet_access_denied|].
  unfold svc_rotate_refresh_token. pose proof (keeps_quiet_create_tokens _ Hu) as [H1 _].
  keeps_auto. by apply keeps_quiet_rotate.
Qed.

Lemma quiet_update_device t x r : quiet client u t →
  (dc_client r = client → dc_user r = Some u → dc_status r ≠ approved) →
  quiet client u (set_device_codes (insert x r) t).
Proof.
  intros [H1 H2 H3] Hr. split; simpl; [done..|]. intros y s.
  destruct (decide (y = x)) as [->|Hy].
  - rewrite lookup_insert_eq. by intros [= <-].
  - rewrite lookup_insert_ne by done. apply H3.
Qed.

Lemma keeps_quiet_poll dc : keeps (quiet client u) (poll client dc).
Proof.
  unfold poll, record_poll. keeps_auto. intros s0 Hs0. unfold update_device.
  rewrite run_update. destruct (device_codes s0 !! _) as [s|] eqn:Hs; [|done]. simpl.
  apply quiet_update_device; [done|]. exact (q_devices _ _ _ Hs0 _ s Hs).
Qed.

Lemma run_poll_APPROVED dc t x row t' :
  poll client dc t = (Ok (APPROVED x row), t') →
  t' = t ∧ device_codes t !! x = Some row ∧ dc_client row = client ∧ dc_status row = approved ∧
  dc_lookup row = token_lookup dc ∧ clock t < dc_expires_at row.
Proof.
  unfold poll. run. destruct (find_device_code t dc client) as [[y r]|] eqn:E; [|done].
  apply find_row_Some in E as [Hy [Hl Hc]].
  destruct (decide (dc_status r = redeemed)); [done|].
  destruct (decide (dc_expires_at r <= clock t)); [done|].
  destruct (decide (dc_status r = denied)); [done|].
  destruct (decide (dc_status r = approved)).
  - run. intros [= <- <- <-]. split_and!; try done. lia.
  - rewrite run_bind. unfold record_poll. run. rewrite run_bind.
    destruct (update_device _ _ _ t) as [[?|?] ?]; [|done]. rewrite Hy.
    destruct a; run; [destruct (too_soon t r)|]; done.
Qed.

Lemma keeps_quiet_grant_device issuer c dc :
  keeps (quiet client u) (grant_device_code issuer client c dc).
Proof.
  unfold grant_device_code. destruct (negb _); [apply keeps_ret|].
  destruct (truthy dc) as [dc'|]; [|apply keeps_ret]. intros t Ht. rewrite run_bind.
  pose proof (keeps_quiet_poll dc' t Ht) as Hp.
  destruct (poll client dc' t) as [[[]|e] t1] eqn:E; try done.
  apply run_poll_APPROVED in E as (-> & Hx & Hcl & Hst & _). unfold user_of. run.
  destruct (dc_user row) as [user|] eqn:Hu; [|done].
  assert (user ≠ u) as Hne by (intros ->; by apply (q_devices _ _ _ Ht x row)).
  rewrite run_bind. destruct (run_access_denied client c user t) as (b & f & -> & _).
  destruct b; [by destruct Ht|]. rewrite run_bind. unfold redeem, redeem_device_code, update_device.
  run. rewrite Hx. simpl. set (t2 := set_dir _ t).
  assert (quiet client u t2) as Ht2 by (by destruct Ht).
  destruct (live approved t2 row); [|by run]. run. unfold user_of. simpl. rewrite Hu. run. rewrite Hu.
  apply keeps_quiet_issue; [done|].
  pose proof (quiet_update_device t2 x (with_status redeemed row) Ht2) as [].
  { simpl. by intros _ _. }
  by split.
Qed.

Lemma keeps_quiet_token_endpoint issuer c rq : cl_type c = normal →
  keeps (quiet client u) (token_endpoint issuer client c rq).
Proof.
  intros Hc. unfold token_endpoint, grant_client_credentials. rewrite Hc. simpl.
  repeat case_decide; auto using keeps_quiet_grant_code, keeps_quiet_grant_refresh,
    keeps_quiet_grant_device; apply keeps_ret.
Qed.
End consent.

Section revocation_properties.
Context `{Crypto} `{Entropy}.

Lemma run_delete_consents P t :
  delete_consents P t =
  (Ok (size (filter (λ kv : (uuid * uuid) * consent_row, P kv.1 kv.2 = true) (consents t))),
   set_consents (λ C, C ∖ filter (λ kv : (uuid * uuid) * consent_row, P kv.1 kv.2 = true)
                          (consents t)) t).
Proof. unfold delete_consents. by run. Qed.

Lemma run_consume_sessions P issuer exclude t :
  ∃ rows f g, consume_sessions P issuer exclude t =
    (Ok rows, set_deliveries f (set_session_clients g t)).
Proof. unfold consume_sessions. run. by eexists _, _, _. Qed.

Lemma quiet_after_revocation client u t : quiet client u (revoke_user_client_tokens u client t).2.
Proof.
  unfold revoke_user_client_tokens. run. split; simpl.
  - intros y k [Hk Hn]%map_lookup_filter_Some Hc Hu. simpl in Hn. apply Hn. clear Hn.
    assert (∀ n T gone, gone ⊆ cascade n T gone) as Hsub.
    { intros n T. induction n as [|n IH]; intros gone; simpl; [done|].
      etrans; [|apply IH]. set_solver. }
    apply (Hsub _ _ _). apply elem_of_matching. by exists k.
  - intros x r [_ Hn]%map_lookup_filter_Some Hc Hu Hnone. by apply Hn.
  - intros x r [_ Hn]%map_lookup_filter_Some Hc Hu Hst. by apply Hn.
Qed.

(** C8. When a user revokes the consent given to a normal client, nothing
    remains from which that client could get tokens for the user: the
    consent and all the user's tokens with it are gone, and no request to
    the token endpoint, whatever code, refresh token or device code it
    carries, brings one back. *)
Theorem consent_revocation_final issuer u g t t' client row c issuer2 rq :
  get_consent_grant_by_id t g = Some ((client, ru_id u), row) →
  cl_type c = normal →
  revoke_my_grant issuer u g t = (Ok (), t') →
  get_consent_grant t' client (ru_id u) = None ∧
  ∀ y k, (tokens t' !! y = Some k ∨
          tokens (token_endpoint issuer2 client c rq t').2 !! y = Some k) →
    ¬ (tk_client k = client ∧ tk_user k = ru_id u).
Proof.
  intros Hg Hc. unfold revoke_my_grant. run. rewrite Hg. simpl. rewrite decide_True by done.
  unfold _revoke, delete_consent_grant. rewrite run_bind, run_delete_consents.
  set (t1 := set_consents _ t). run. run_case; [done|].
  pose proof (quiet_after_revocation client (ru_id u) t1) as Hq.
  assert (consents t1 !! (client, ru_id u) = None) as Hgone.
  { unfold t1. simpl. unfold get_consent_grant_by_id in Hg.
    apply head_Some_elem_of, list_elem_of_filter in Hg as [Hid Hin%elem_of_map_to_list].
    apply lookup_difference_None. right. eexists. apply map_lookup_filter_Some.
    split; [exact Hin|]. simpl. by apply bool_decide_eq_true. }
  rewrite run_bind. unfold revoke_user_client_tokens in Hq |- *. run in Hq. run.
  set (t2 := set_tokens _ _) in *.
  assert (consents t2 = consents t1) as Hc2 by done. clearbody t2.
  unfold end_user_client_sessions, consume_user_client_session_clients.
  rewrite run_bind_assoc, run_bind.
  destruct (run_consume_sessions (λ k r, bool_decide (se_user r = ru_id u ∧ k.2 = client)) issuer
    None t2) as (rows & f & h & ->). run. intros [= <-]. split.
  { unfold get_consent_grant. simpl. by rewrite Hc2. }
  match goal with |- context [token_endpoint _ _ _ _ ?s] => set (t3 := s) end.
  assert (quiet client (ru_id u) t3) as Hq3 by (destruct Hq; by split).
  intros y k [Hk|Hk] [Hkc Hku].
  - by apply (q_tokens _ _ _ Hq3 y k).
  - pose proof (keeps_quiet_token_endpoint client (ru_id u) issuer2 c rq Hc t3 Hq3) as Hq4.
    by apply (q_tokens _ _ _ Hq4 y k).
Qed.

(** Ending a session lists it as revoked, deletes its client records,
    queues one back-channel logout for each recorded client that is an
    active OIDC client with a logout URI and is not the excluded one, and
    deletes every refresh token issued in the session together with the
    access tokens below them, and no other token. *)
Theorem end_session_outcome issuer s exclude t e t' :
  s ≠ "" → families (tokens t) →
  end_oidc_session issuer (Some s) exclude t = (Ok e, t') →
  is_session_revoked t' s = true ∧
  (∀ client row, session_clients t' !! (s, client) = Some row → clients t !! client = None) ∧
  (∀ k row, k.1 ≠ s → session_clients t' !! k = Some row ↔ session_clients t !! k = Some row) ∧
  (∀ d, d ∈ drop (length (deliveries t)) (deliveries t') ↔
     ∃ client row c, session_clients t !! (s, client) = Some row ∧ clients t !! client = Some c ∧
       wants_delivery c client exclude = true ∧
       d = mk_delivery client (se_user row) s (default issuer (se_issuer row))) ∧
  (∀ y k, tokens t' !! y = Some k ↔ tokens t !! y = Some k ∧
     ¬ (tk_type k = refresh ∧ tk_sid k = Some s) ∧
     ¬ ∃ p q, tk_parent k = Some p ∧ tokens t !! p = Some q ∧ tk_sid q = Some s).
Proof.
  intros Hs HT. unfold end_oidc_session. replace (truthy (Some s)) with (Some s) by (by destruct s).
  unfold revoke_session, revoke_session_row, delete_idp_session, consume_session_clients,
    consume_sessions, revoke_session_refresh_tokens. run. intros [= _ <-]. simpl.
  split_and!.
  - apply bool_decide_eq_true. set_solver.
  - intros client row [Hr Hn]%lookup_difference_Some.
    destruct (clients t !! client) eqn:Hc; [exfalso|done].
    apply map_lookup_filter_None in Hn as [Hn|Hn]; [congruence|].
    apply (Hn row Hr). simpl. rewrite Hc. split; [by apply bool_decide_eq_true|by eexists].
  - intros k row Hk. rewrite lookup_difference_Some. split; [by intros []|].
    intros Hr. split; [done|]. apply map_lookup_filter_None. right.
    intros ? _ [?%bool_decide_eq_true _]. done.
  - intros d. rewrite drop_app_length, list_elem_of_omap. split.
    + intros (r & Hr & Hd). apply list_elem_of_omap in Hr as ([k row] & Hk & Hr).
      apply elem_of_map_to_list, map_lookup_filter_Some in Hk as [Hk [Hks _]]. simpl in *.
      apply bool_decide_eq_true in Hks. destruct k as [s' client]. simpl in *. subst s'.
      unfold consumed_of in Hr. simpl in Hr. destruct (clients t !! client) as [c|] eqn:Hc; [|done].
      simpl in Hr. injection Hr as <-. unfold delivery_of in Hd. simpl in Hd.
      destruct (wants_delivery c client exclude) eqn:Hw; [|done]. injection Hd as <-.
      by exists client, row, c.
    + intros (client & row & c & Hr & Hc & Hw & ->).
      eexists. split.
      * apply list_elem_of_omap. exists ((s, client), row). split.
        -- apply elem_of_map_to_list, map_lookup_filter_Some. split; [exact Hr|]. simpl.
           rewrite Hc. split; [by apply bool_decide_eq_true|by eexists].
        -- unfold consumed_of. simpl. rewrite Hc. reflexivity.
      * unfold delivery_of. simpl. by rewrite Hw.
  - intros y k. rewrite (lookup_remaining HT), elem_of_matching. unfold parent_in. split.
    + intros (Hy & Hn & Hp). split; [done|]. split; [intros ?; apply Hn; by exists k|].
      intros (p & q & Hkp & Hq & Hsid). rewrite Hkp in Hp.
      apply bool_decide_eq_false in Hp. apply Hp, elem_of_matching. exists q.
      destruct (HT y k p Hy Hkp) as (q' & Hq' & Hd). simplify_eq.
      by destruct Hd as (_ & -> & _).
    + intros (Hy & Hn & Hp). split; [done|]. split.
      * intros (k' & Hk' & ? & ?). apply Hn. by simplify_eq.
      * destruct (tk_parent k) as [p|]; [|done]. apply bool_decide_eq_false.
        rewrite elem_of_matching. intros (q & Hq & _ & Hsid). apply Hp. by exists p, q.
Qed.

Lemma revoke_all_tokens u t n t' :
  family_ok t → revoke_all_user_tokens u t = (Ok n, t') →
  (∀ y k, tokens t' !! y = Some k ↔ tokens t !! y = Some k ∧ tk_user k ≠ u) ∧
  (∀ x r, device_codes t' !! x = Some r ↔
     device_codes t !! x = Some r ∧ ¬ (dc_user r = Some u ∧ dc_status r = approved)) ∧
  codes t' = codes t.
Proof.
  intros [HT _]. unfold revoke_all_user_tokens. run. intros [= _ <-]. simpl. split_and!; [| |done].
  - intros y k. apply lookup_remaining_matching; [done|].
    intros r q (_ & _ & _ & _ & -> & _). done.
  - intros x r. by rewrite map_lookup_filter_Some.
Qed.
End revocation_properties.
