(* ===== verification/DeviceProofs.v ===== *)
(** * The device authorization grant

    A request goes from pending to approved or denied, and from approved to
    redeemed, once; its polling interval only grows, up to five minutes; the
    code a person types is normalised to the stored form. *)

From stdpp Require Import gmap strings.
From S2P Require Import Prelude GroupDb AppAccess OAuthDb OAuthService UserLifecycle OAuthTokens OAuthHistory OAuthProofs OAuthRevocation.
#[local] Open Scope Z_scope.

(** The ways a request's status may develop. *)
Inductive advances : device_status → device_status → Prop :=
  | adv_same s : advances s s
  | adv_approve : advances pending approved
  | adv_deny : advances pending denied
  | adv_redeem : advances approved redeemed
  | adv_approve_redeem : advances pending redeemed.

(** [r'] is a later state of request [r]. *)
Record later (r r' : device_row) : Prop := mk_later {
  lt_client : dc_client r' = dc_client r;
  lt_lookup : dc_lookup r' = dc_lookup r;
  lt_scope : dc_scope r' = dc_scope r;
  lt_expires : dc_expires_at r' = dc_expires_at r;
  lt_status : advances (dc_status r) (dc_status r');
  lt_user : dc_status r ≠ pending → dc_user r' = dc_user r;
  lt_interval : dc_poll_interval r <= 300 → dc_poll_interval r <= dc_poll_interval r' <= 300;
}.

Lemma advances_trans a b c : advances a b → advances b c → advances a c.
Proof. destruct 1; inversion 1; constructor. Qed.

#[export] Instance later_preorder : PreOrder later.
Proof.
  split; [intros r; split; intros; first [done|lia|constructor]|].
  intros r1 r2 r3 [] []. split; try congruence; [by eapply advances_trans| |lia].
  intros Hp. rewrite lt_user1; [by apply lt_user0|]. intros Hp2. apply Hp.
  rewrite Hp2 in lt_status0. by inversion lt_status0.
Qed.

Section requests.
Context `{Crypto} `{Entropy} (x : uuid) (r : device_row) (Hx : ∀ t, new_id t ≠ x).

(** Row [x], if it is still there, is a later state of [r]. *)
Definition request_from (t : tenant) : Prop :=
  ∀ r', device_codes t !! x = Some r' → later r r'.

Lemma keeps_request_modify f :
  (∀ t, device_codes (f t) = device_codes t) → keeps request_from (modify f).
Proof. intros Hf t Ht. unfold request_from. simpl. by rewrite Hf. Qed.
Lemma keeps_request_update {A} (f : tenant → A * tenant) :
  (∀ t, device_codes (f t).2 = device_codes t) → keeps request_from (update f).
Proof. intros Hf t Ht. unfold request_from. rewrite run_update. simpl. by rewrite Hf. Qed.
#[local] Hint Extern 4 (keeps request_from (modify _)) => apply keeps_request_modify; done : keeps.
#[local] Hint Extern 4 (keeps request_from (update _)) => apply keeps_request_update; done : keeps.

Lemma keeps_request_filter (P : uuid * device_row → Prop) `{∀ kv, Decision (P kv)} :
  keeps request_from (modify (set_device_codes (filter P))).
Proof. intros t Ht r'. simpl. intros [Hr _]%map_lookup_filter_Some. by apply Ht. Qed.
#[local] Hint Resolve keeps_request_filter : keeps.

Lemma keeps_request_audit a ty y e m : keeps request_from (audit a ty y e m).
Proof. by apply keeps_request_modify. Qed.
Lemma keeps_request_delete gone : keeps request_from (delete_tokens gone).
Proof. by apply keeps_request_update. Qed.
Lemma keeps_request_insert_token k : keeps request_from (insert_token k).
Proof.
  intros t Ht. destruct (insert_token k t) as [[y|e] t'] eqn:E; simpl.
  - by apply insert_token_Ok in E as (_ & _ & _ & _ & _ & _ & ->).
  - by apply insert_token_Raise in E as ->.
Qed.
#[local] Hint Resolve keeps_request_audit keeps_request_delete keeps_request_insert_token : keeps.

(** A conditional update keeps the invariant when it moves rows forward. *)
Lemma keeps_request_update_device y P f :
  (∀ t s, P t s = true → later s (f t s)) → keeps request_from (update_device y P f).
Proof.
  intros Hf t Ht. unfold update_device. rewrite run_update.
  destruct (device_codes t !! y) as [s|] eqn:Hs; [|done].
  destruct (P t s) eqn:HP; [|done]. intros r'. simpl.
  destruct (decide (y = x)) as [->|Hy].
  - rewrite lookup_insert_eq. intros [= <-]. etrans; [by apply Ht|by apply Hf].
  - rewrite lookup_insert_ne by done. apply Ht.
Qed.

Lemma keeps_request_decide y b u at_ : keeps request_from (decide_device_code y b u at_).
Proof.
  apply keeps_request_update_device. intros t s [Hp _]%bool_decide_eq_true.
  split; simpl; rewrite ?Hp; intros; first [done|lia|destruct b; constructor].
Qed.
Lemma keeps_request_redeem y : keeps request_from (redeem_device_code y).
Proof.
  apply keeps_request_update_device. intros t s [Hp _]%bool_decide_eq_true.
  split; simpl; rewrite ?Hp; intros; first [done|lia|constructor].
Qed.
Lemma later_polled t s now : later s (polled now (next_interval t s) s).
Proof.
  split; simpl; try done; [constructor|..]; unfold next_interval; destruct (too_soon t s); lia.
Qed.
#[local] Hint Resolve keeps_request_decide keeps_request_redeem : keeps.

Lemma keeps_request_record_poll y : keeps request_from (record_poll y).
Proof.
  unfold record_poll. keeps_auto.
  apply keeps_request_update_device. intros t s _. apply later_polled.
Qed.
#[local] Hint Resolve keeps_request_record_poll : keeps.

Lemma keeps_request_cleanup : keeps request_from cleanup_expired_device_codes.
Proof.
  intros t Ht r'. unfold cleanup_expired_device_codes. rewrite run_update. simpl.
  intros [Hr _]%lookup_difference_Some. by apply Ht.
Qed.
#[local] Hint Resolve keeps_request_cleanup : keeps.

Lemma keeps_request_device_attempts n dc client scope :
  keeps request_from (device_attempts n dc client scope).
Proof.
  induction n as [|n IH]; simpl; [apply keeps_raise|]. apply keeps_bind_gets. intros t Ht.
  destruct (decide _); [by apply IH|].
  repeat (rewrite run_raise_if_bind; case_match; [done|]). run. intros r'. simpl.
  rewrite lookup_insert_ne by apply Hx. apply Ht.
Qed.
#[local] Hint Resolve keeps_request_device_attempts : keeps.

Lemma keeps_request_tokens :
  (∀ client user p cc sc g, keeps request_from (create_access_token client user p cc sc g)) ∧
  (∀ client user sc g sid, keeps request_from (create_refresh_token client user sc g sid)) ∧
  (∀ o client user sc g e sid, keeps request_from (rotate_refresh_token o client user sc g e sid)).
Proof.
  split_and!; intros; [unfold create_access_token|unfold create_refresh_token|
    unfold rotate_refresh_token, delete_token]; keeps_auto.
Qed.

Lemma keeps_request_consume_code y : keeps request_from (consume_code y).
Proof.
  apply keeps_request_update. intros t. destruct (codes t !! y); [destruct (decide _)|]; done.
Qed.
Lemma keeps_request_update_client client_id f : keeps request_from (update_client client_id f).
Proof. unfold update_client. keeps_auto. Qed.
Lemma keeps_request_update_account u P f : keeps request_from (update_account u P f).
Proof.
  apply keeps_request_update. intros t. destruct (accounts t !! u) as [a|]; [|done].
  by destruct (P a).
Qed.
Lemma keeps_request_delete_user u : keeps request_from (modify (delete_user_cascade u)).
Proof. intros t Ht r'. simpl. intros [Hr _]%map_lookup_filter_Some. by apply Ht. Qed.
#[local] Hint Resolve keeps_request_consume_code keeps_request_update_client
  keeps_request_update_account keeps_request_delete_user : keeps.

Lemma keeps_request_token_endpoint issuer client c rq :
  keeps request_from (token_endpoint issuer client c rq).
Proof.
  destruct keeps_request_tokens as (H1 & H2 & H3).
  unfold token_endpoint, grant_authorization_code, grant_refresh_token, grant_client_credentials,
    grant_device_code, validate_and_consume_code, db_validate_and_consume_code,
    svc_rotate_refresh_token, access_denied, user_can_access_client, poll, redeem,
    user_of, revoke_grant_tokens, _issue_user_tokens, issue_id_token, upsert_session_client.
  keeps_auto.
Qed.
#[local] Hint Resolve keeps_request_token_endpoint : keeps.

Lemma keeps_request_step s : keeps request_from (run_step s).
Proof.
  destruct s; simpl; unfold ignore, with_client, svc_create_authorization_code,
    cleanup_expired_codes, create_authorization_code, revoke_token,
    delete_token, start_device_authorization, create_device_code,
    decide_request, record_consent, upsert_consent_grant, revoke_my_grant,
    _revoke, delete_consent_grant, revoke_user_client_tokens, end_user_client_sessions,
    consume_user_client_session_clients, end_oidc_session, revoke_session, revoke_session_row,
    delete_idp_session, consume_session_clients, revoke_session_refresh_tokens,
    deactivate_client, deactivate_client_row, revoke_all_client_tokens, reactivate_client,
    reactivate_client_row, inactivate_user, reactivate_user, anonymize_user, update_user,
    delete_user, require_user, not_the_last_super_admin, inactivate_user_row,
    reactivate_user_row, anonymize_user_row, _validate_role_change, update_user_role,
    delete_user_row, cut_access, revoke_all_user_tokens, delete_consent_grants_for_user,
    delete_consent_grants_for_client, delete_consents, end_user_oidc_sessions,
    consume_user_session_clients, consume_sessions, cleanup_expired_tokens,
    purge_expired_tokens.
  all: keeps_auto.
Qed.
End requests.

(** ** The user code *)

Definition valid_user_code (c : string) : Prop :=
  String.length c = USER_CODE_LENGTH ∧
  Forall (λ a, in_string a USER_CODE_ALPHABET = true) (String.list_ascii_of_string c).

Lemma alphabet_char a : in_string a USER_CODE_ALPHABET = true →
  upper a = a ∧ in_string a separators = false.
Proof.
  unfold in_string at 1. intros Ha%bool_decide_eq_true. unfold USER_CODE_ALPHABET in Ha. simpl in Ha.
  repeat (apply elem_of_cons in Ha as [->|Ha]; [by vm_compute|]).
  by apply not_elem_of_nil in Ha.
Qed.

Lemma normalize_valid l :
  Forall (λ a, in_string a USER_CODE_ALPHABET = true) l →
  filter (λ c, in_string c separators = false) (upper <$> l) = l.
Proof.
  induction 1 as [|a l Ha _ IH]; [done|]. apply alphabet_char in Ha as [Hu Hs].
  csimpl. rewrite Hu, filter_cons_True by done. by f_equal.
Qed.

(** What a person sees is the stored code with a dash in the middle:
    typing it back gives the stored code, and whatever else is accepted
    normalises to a code of eight letters of the alphabet. *)
Theorem user_code_roundtrip c :
  (valid_user_code c ↔ normalize_user_code (format_user_code c) = Some c) ∧
  (∀ value, normalize_user_code value = Some c → valid_user_code c).
Proof.
  assert (∀ value, normalize_user_code value = Some c → valid_user_code c) as Hv.
  { intros value. unfold normalize_user_code. cbn zeta. set (l := filter _ _).
    destruct (bool_decide _) eqn:Hl; [done|]. simpl. destruct (existsb _ l) eqn:Ha; [done|].
    intros [= <-]. apply bool_decide_eq_false, dec_stable in Hl. split.
    - rewrite <- Hl. clear. by induction l; simpl; [|f_equal].
    - rewrite String.list_ascii_of_string_of_list_ascii. apply Forall_forall. intros a Hin.
      destruct (in_string a USER_CODE_ALPHABET) eqn:E; [done|exfalso].
      apply not_true_iff_false in Ha. apply Ha, existsb_exists. exists a.
      by rewrite E, <- list_elem_of_In. }
  split; [|done]. split; [|apply Hv].
  intros [Hl Ha]. destruct c as [|a1 [|a2 [|a3 [|a4 [|a5 [|a6 [|a7 [|a8 [|? ?]]]]]]]]]; try done.
  set (l := String.list_ascii_of_string _) in Ha. pose proof (normalize_valid _ Ha) as Hn.
  unfold normalize_user_code, format_user_code. cbn zeta.
  match goal with |- context [String.list_ascii_of_string ?s] =>
    change (String.list_ascii_of_string s)
      with (take 4 l ++ [Ascii.ascii_of_nat 45] ++ drop 4 l) end.
  rewrite !fmap_app, !filter_app.
  assert (filter (λ c, in_string c separators = false) (upper <$> [Ascii.ascii_of_nat 45]) = [])
    as -> by done.
  rewrite app_nil_l, <- filter_app, <- fmap_app, take_drop, Hn.
  destruct (existsb _ l) eqn:He.
  - apply existsb_exists in He as (a & Hin & Hneg).
    rewrite <- list_elem_of_In in Hin. rewrite Forall_forall in Ha.
    by rewrite (Ha a Hin) in Hneg.
  - done.
Qed.

(** ** Requests over histories *)

Section device_properties.
Context `{Crypto} `{Entropy}.

(** Over any history of calls a device request only moves forward: its
    client, scope and expiry never change, its status goes from pending to
    approved or denied and from approved to redeemed, the user who decided
    it stays, and its polling interval grows, to at most five minutes. *)
Theorem device_request_moves_forward h t x r r' :
  (∀ s, new_id s ≠ x) → device_codes t !! x = Some r →
  device_codes (run_steps h t) !! x = Some r' → later r r'.
Proof.
  intros Hid Hr. apply (keeps_run_steps (request_from x r) h t).
  - intros s. by apply keeps_request_step.
  - intros r0 Hr0. by simplify_eq.
Qed.

Lemma later_redeemed r r' : later r r' → dc_status r = redeemed → dc_status r' = redeemed.
Proof. intros [_ _ _ _ Hs _ _] Hr. rewrite Hr in Hs. by inversion Hs. Qed.

Lemma run_redeem client c x t row t' :
  redeem client c x t = (Ok (Some row), t') →
  ∃ r u e, device_codes t !! x = Some r ∧ dc_status r = approved ∧ clock t < dc_expires_at r ∧
    row = with_status redeemed r ∧ dc_user r = Some u ∧
    t' = set_dir (set_events (λ l, l ++ [e])) (set_device_codes (insert x row) t).
Proof.
  unfold redeem, redeem_device_code, update_device. run.
  destruct (device_codes t !! x) as [r|] eqn:Hr; [|done]. unfold live.
  destruct (bool_decide _) eqn:Hl; [|done].
  apply bool_decide_eq_true in Hl as [Hs He]. unfold user_of. simpl. run.
  destruct (dc_user r) as [u|] eqn:Hu; [|done]. rewrite run_bind. unfold audit. run.
  intros [= <- <-]. by exists r, u, (mk_event (Some u) "oauth2_client" client
    "oauth2_device_code_redeemed" (device_metadata c x (dc_scope r))).
Qed.

(** A device code is redeemed at most once: whatever calls follow a
    redemption, no poll answers with the redeemed request again and a second
    redemption, by any client, is refused. *)
Theorem device_code_redeemed_once client c x t row t' h client2 c2 dc2 y r2 t2 :
  (∀ s, new_id s ≠ x) →
  redeem client c x t = (Ok (Some row), t') →
  redeem client2 c2 x (run_steps h t') = (Ok None, run_steps h t') ∧
  (poll client2 dc2 (run_steps h t') = (Ok (APPROVED y r2), t2) → y ≠ x).
Proof.
  intros Hid (r & u & e & Hr & Hs & _ & -> & _ & ->)%run_redeem.
  set (t1 := set_dir _ _).
  assert (device_codes t1 !! x = Some (with_status redeemed r)) as Hx.
  { unfold t1. simpl. by rewrite lookup_insert_eq. }
  assert (∀ r', device_codes (run_steps h t1) !! x = Some r' → dc_status r' = redeemed) as Hred.
  { intros r' Hr'. apply (later_redeemed (with_status redeemed r)); [|done]. revert Hr'.
    apply (keeps_run_steps (request_from x (with_status redeemed r)) h t1).
    - intros s. by apply keeps_request_step.
    - intros r0 Hr0. by simplify_eq. }
  clearbody t1. split.
  - unfold redeem, redeem_device_code, update_device. run.
    destruct (device_codes (run_steps h t1) !! x) as [r'|] eqn:Hr'; [|done]. unfold live.
    pose proof (Hred r' eq_refl) as Hst.
    rewrite bool_decide_eq_false_2; [done|]. rewrite Hst. by intros [].
  - intros (_ & Hy & _ & Hst & _)%run_poll_APPROVED ->. by rewrite (Hred _ Hy) in Hst.
Qed.

(** The device grant hands out tokens only to a client that may use it,
    for an unexpired request of that client which a user has approved, and
    only while that user may still use the client.  The request is then
    redeemed and one refresh and one access token of the approving user are
    added. *)
Theorem grant_device_code_sound issuer client c dc t a e rt idt t' :
  grant_device_code issuer client c dc t = (Ok (TokenSuccess a e rt idt), t') →
  client_can_use_device_grant c = true ∧
  ∃ dc' x r user rt', truthy dc = Some dc' ∧ device_codes t !! x = Some r ∧
    dc_client r = client ∧ dc_lookup r = token_lookup dc' ∧ dc_status r = approved ∧
    clock t < dc_expires_at r ∧ dc_user r = Some user ∧
    (cl_oidc_enabled c = true → user_can_access_oauth2_client (dir t) user client = true) ∧
    device_codes t' = <[x := with_status redeemed r]> (device_codes t) ∧ rt = Some rt' ∧
    issued_pair t t' rt' a client user (dc_scope r) (Some x) (clock t + REFRESH_TOKEN_EXPIRY).
Proof.
  unfold grant_device_code. destruct (client_can_use_device_grant c); [|done]. simpl.
  destruct (truthy dc) as [dc'|]; [|done]. rewrite run_bind.
  destruct (poll client dc' t) as [[[]|?] t1] eqn:E; try done.
  apply run_poll_APPROVED in E as (-> & Hx & Hcl & Hst & Hlk & Hexp). unfold user_of. run.
  destruct (dc_user row) as [user|] eqn:Hu; [|done]. rewrite run_bind.
  destruct (run_access_denied client c user t) as (b & f & -> & Hacc).
  destruct b; [done|]. rewrite run_bind.
  destruct (redeem client c x _) as [[[row'|]|?] t2] eqn:E; [|done..].
  apply run_redeem in E as (r & u & ev & Hr & _ & _ & -> & Hu' & ->). simpl in Hr.
  assert (r = row) as -> by congruence. rewrite Hu in Hu'. injection Hu' as <-.
  run. rewrite Hu.
  intros (a' & rt' & idt' & [= -> _ -> ->] & Hpair & _ & Hd & _)%run_issue_user_tokens.
  split; [done|]. exists dc', x, row, user, rt'. split_and!; try done. intros ?. by apply Hacc.
Qed.

Lemma run_poll_pending client dc t x r :
  device_codes t !! x = Some r → dc_lookup r = token_lookup dc → dc_client r = client →
  (∀ y s, device_codes t !! y = Some s → dc_lookup s = token_lookup dc → y = x) →
  dc_status r = pending → clock t < dc_expires_at r →
  poll client dc t =
    (Ok (if too_soon t r then SLOW_DOWN else AUTHORIZATION_PENDING),
     set_device_codes (insert x (polled (clock t) (next_interval t r) r)) t).
Proof.
  intros Hx Hl Hc Hu Hs He. unfold poll. run. unfold find_device_code.
  rewrite (find_row_unique _ _ x r) by (try done; intros ?? ? []; eauto).
  rewrite Hs. simpl. rewrite decide_False by lia. unfold record_poll, update_device. run.
  rewrite Hx. simpl. run. by destruct (too_soon t r).
Qed.

(** Polling a pending request: the answer is slow_down exactly when the
    poll comes before the interval set at the last poll has passed (with a
    second of slack), and each early poll adds five seconds to it, up to
    five minutes. *)
Theorem poll_pacing client dc t x r d :
  device_codes t !! x = Some r → dc_lookup r = token_lookup dc → dc_client r = client →
  (∀ y s, device_codes t !! y = Some s → dc_lookup s = token_lookup dc → y = x) →
  dc_status r = pending → clock t + d < dc_expires_at r → 0 <= d →
  let interval := next_interval t r in
  let t1 := set_device_codes (insert x (polled (clock t) interval r)) t in
  let t2 := set_clock (λ now, now + d) t1 in
  let early := bool_decide (d < seconds (Z.max (interval - 1) 0)) in
  poll client dc t = (Ok (if too_soon t r then SLOW_DOWN else AUTHORIZATION_PENDING), t1) ∧
  poll client dc t2 =
    (Ok (if early then SLOW_DOWN else AUTHORIZATION_PENDING),
     set_device_codes (insert x (polled (clock t + d)
       (if early then Z.min (interval + 5) 300 else interval) r)) t2).
Proof.
  intros Hx Hl Hc Hu Hs He Hd interval t1 t2 early.
  split; [apply run_poll_pending; [done..|lia]|].
  set (r1 := polled (clock t) interval r).
  assert (too_soon t2 r1 = early) as Hearly.
  { unfold too_soon, early, r1, t2, _POLL_SLACK_SECONDS. simpl.
    apply bool_decide_ext. unfold seconds. lia. }
  rewrite (run_poll_pending client dc t2 x r1).
  - rewrite Hearly. unfold next_interval. rewrite Hearly. done.
  - unfold t2, t1. simpl. by rewrite lookup_insert_eq.
  - done.
  - done.
  - intros y s. unfold t2, t1. simpl. destruct (decide (y = x)) as [->|Hy]; [done|].
    rewrite lookup_insert_ne by done. apply Hu.
  - done.
  - done.
Qed.
End device_properties.
