(* ===== verification/UserProofs.v ===== *)
(** * Accounts and their last super admin

    Inactivation, reactivation, anonymization and role changes never leave a
    tenant without an active super admin; who may change a role; what an
    inactivation takes away.  Deletion is not among them: see OAuthFindings. *)

From stdpp Require Import gmap strings.
From S2P Require Import Prelude GroupDb AppAccess OAuthDb OAuthService UserLifecycle OAuthTokens OAuthHistory OAuthProofs OAuthRevocation.
#[local] Open Scope nat_scope.

Section counting.
Context (m : gmap uuid account_row) (u : uuid) (a a' : account_row) (Hu : m !! u = Some a).

Abbreviation supers M := (filter (λ kv : uuid * account_row, active_super_admin kv.2) M).

Lemma supers_insert_le : size (supers m) ≤ S (size (supers (<[u := a']> m))).
Proof.
  trans (S (size (delete u (supers m)))).
  - destruct (supers m !! u) eqn:E; [rewrite map_size_delete_Some by done; lia|].
    rewrite delete_id by done. lia.
  - apply le_n_S, map_subseteq_size, map_subseteq_spec. intros v b.
    rewrite lookup_delete_Some, !map_lookup_filter_Some. intros (Hv & Hb & Hs).
    by rewrite lookup_insert_ne.
Qed.

Lemma supers_insert_kept :
  (active_super_admin a → active_super_admin a') →
  size (supers m) ≤ size (supers (<[u := a']> m)).
Proof.
  intros Ha. 
  assert (dom (supers m) ⊆ dom (supers (<[u := a']> m))) as Hd.
  { intros v. rewrite !elem_of_dom. intros [b [Hb Hs]%map_lookup_filter_Some].
    destruct (decide (v = u)) as [->|Hv].
    - exists a'. apply map_lookup_filter_Some. rewrite lookup_insert_eq. simplify_eq. auto.
    - exists b. apply map_lookup_filter_Some. by rewrite lookup_insert_ne. }
  apply subseteq_size in Hd. by rewrite !size_dom in Hd.
Qed.
End counting.

Definition has_super_admin (t : tenant) : Prop := 1 ≤ count_active_super_admins t.

Section super_admins.
Context `{Crypto} `{Entropy}.

Lemma keeps_super_modify f :
  (∀ t, accounts (f t) = accounts t) → keeps has_super_admin (modify f).
Proof. intros Hf t Ht. unfold has_super_admin, count_active_super_admins. simpl. by rewrite Hf. Qed.
Lemma keeps_super_update {A} (f : tenant → A * tenant) :
  (∀ t, accounts (f t).2 = accounts t) → keeps has_super_admin (update f).
Proof.
  intros Hf t Ht. unfold has_super_admin, count_active_super_admins. rewrite run_update. simpl.
  by rewrite Hf.
Qed.
#[local] Hint Extern 4 (keeps has_super_admin (modify _)) => apply keeps_super_modify; done : keeps.
#[local] Hint Extern 4 (keeps has_super_admin (update _)) => apply keeps_super_update; done : keeps.

Lemma keeps_super_audit a ty x e m : keeps has_super_admin (audit a ty x e m).
Proof. by apply keeps_super_modify. Qed.
Lemma keeps_super_delete gone : keeps has_super_admin (delete_tokens gone).
Proof. by apply keeps_super_update. Qed.
Lemma keeps_super_insert_token k : keeps has_super_admin (insert_token k).
Proof.
  intros t Ht. destruct (insert_token k t) as [[y|e] t'] eqn:E; simpl.
  - by apply insert_token_Ok in E as (_ & _ & _ & _ & _ & _ & ->).
  - by apply insert_token_Raise in E as ->.
Qed.
Lemma keeps_super_update_device x P f : keeps has_super_admin (update_device x P f).
Proof.
  apply keeps_super_update. intros t. destruct (device_codes t !! x) as [r|]; [|done].
  by destruct (P t r).
Qed.
Lemma keeps_super_update_client client_id f : keeps has_super_admin (update_client client_id f).
Proof. unfold update_client. keeps_auto. Qed.
Lemma keeps_super_consume_code x : keeps has_super_admin (consume_code x).
Proof.
  apply keeps_super_update. intros t. destruct (codes t !! x); [destruct (decide _)|]; done.
Qed.
#[local] Hint Resolve keeps_super_audit keeps_super_delete keeps_super_insert_token
  keeps_super_update_device keeps_super_update_client keeps_super_consume_code : keeps.

Lemma keeps_super_device_attempts n dc client scope :
  keeps has_super_admin (device_attempts n dc client scope).
Proof. induction n as [|n IH]; simpl; [apply keeps_raise|]. keeps_auto. Qed.
#[local] Hint Resolve keeps_super_device_attempts : keeps.

Lemma keeps_super_create_tokens :
  (∀ client user p cc sc g, keeps has_super_admin (create_access_token client user p cc sc g)) ∧
  (∀ client user sc g sid, keeps has_super_admin (create_refresh_token client user sc g sid)) ∧
  (∀ o client user sc g e sid,
     keeps has_super_admin (rotate_refresh_token o client user sc g e sid)).
Proof.
  split_and!; intros; [unfold create_access_token|unfold create_refresh_token|
    unfold rotate_refresh_token, delete_token]; keeps_auto.
Qed.

Lemma keeps_super_token_endpoint issuer client c rq :
  keeps has_super_admin (token_endpoint issuer client c rq).
Proof.
  destruct keeps_super_create_tokens as (H1 & H2 & H3).
  unfold token_endpoint, grant_authorization_code, grant_refresh_token, grant_client_credentials,
    grant_device_code, validate_and_consume_code, db_validate_and_consume_code,
    svc_rotate_refresh_token, access_denied, user_can_access_client, poll, record_poll, redeem,
    redeem_device_code, user_of, revoke_grant_tokens, _issue_user_tokens, issue_id_token,
    upsert_session_client. keeps_auto.
Qed.
#[local] Hint Resolve keeps_super_token_endpoint : keeps.

Lemma keeps_super_cut_access issuer u : keeps has_super_admin (cut_access issuer u).
Proof.
  unfold cut_access, revoke_all_user_tokens, delete_consent_grants_for_user, delete_consents,
    end_user_oidc_sessions, consume_user_session_clients, consume_sessions. keeps_auto.
Qed.
#[local] Hint Resolve keeps_super_cut_access : keeps.

(** An update of one account keeps an active super admin when the account
    stays one, or when there are two. *)
Lemma super_update_account u P f t a :
  accounts t !! u = Some a → has_super_admin t →
  (active_super_admin a → active_super_admin (f a) ∨ 2 ≤ count_active_super_admins t) →
  has_super_admin (update_account u P f t).2.
Proof.
  intros Ha Ht Hf. unfold update_account. rewrite run_update, Ha. simpl.
  destruct (P a); [|done]. unfold has_super_admin, count_active_super_admins in *. simpl.
  destruct (decide (active_super_admin a)) as [Hs|Hs].
  - destruct (Hf Hs) as [Hs'|Hn].
    + etrans; [exact Ht|]. by apply (supers_insert_kept _ _ a).
    + pose proof (supers_insert_le (accounts t) u (f a)). lia.
  - etrans; [exact Ht|]. by apply (supers_insert_kept _ _ a).
Qed.

(** The guard lets the update through only when there are two. *)
Lemma super_guarded_update {B} a u P f (k : nat → M tenant B) t :
  accounts t !! u = Some a → (∀ n, keeps has_super_admin (k n)) → has_super_admin t →
  has_super_admin ((not_the_last_super_admin a ≫= λ _, update_account u P f ≫= k) t).2.
Proof.
  intros Ha Hk Ht. unfold not_the_last_super_admin. run.
  destruct (bool_decide _) eqn:Hg; [done|]. apply bool_decide_eq_false in Hg.
  assert (has_super_admin (update_account u P f t).2) as H1.
  { apply super_update_account with a; [done..|]. intros [Hr _]. right.
    destruct (decide (2 ≤ count_active_super_admins t)); [done|]. destruct Hg. split; [done|lia]. }
  revert H1. rewrite run_bind. destruct (update_account _ _ _ t) as [[n|e] t1]; [|done].
  apply Hk.
Qed.

Lemma keeps_super_inactivate issuer ru u : keeps has_super_admin (inactivate_user issuer ru u).
Proof.
  unfold inactivate_user, require_user, get_user_by_id, inactivate_user_row, require_admin.
  intros t Ht. run. destruct (bool_decide _); [done|].
  destruct (accounts t !! u) as [a|] eqn:Ha; [|done]. run. destruct (bool_decide _); [done|].
  destruct (is_service_user t u); [done|]. destruct (us_is_inactivated a); [done|].
  apply super_guarded_update; [done| |done]. intros n. keeps_auto.
Qed.

Lemma keeps_super_anonymize issuer ru u : keeps has_super_admin (anonymize_user issuer ru u).
Proof.
  unfold anonymize_user, require_user, get_user_by_id, anonymize_user_row, require_super_admin.
  intros t Ht. run. destruct (bool_decide _); [done|].
  destruct (accounts t !! u) as [a|] eqn:Ha; [|done]. run. destruct (bool_decide _); [done|].
  destruct (is_service_user t u); [done|]. destruct (us_is_anonymized a); [done|].
  apply super_guarded_update; [done| |done]. intros n. keeps_auto.
Qed.

Lemma keeps_super_reactivate ru u : keeps has_super_admin (reactivate_user ru u).
Proof.
  unfold reactivate_user, require_user, get_user_by_id, reactivate_user_row. keeps_auto.
  intros t Ht. unfold update_account. rewrite run_update.
  destruct (accounts t !! u) as [b|] eqn:Hb; [|done]. case_match; [|done].
  unfold has_super_admin, count_active_super_admins in *. simpl.
  etrans; [exact Ht|]. apply (supers_insert_kept _ _ b); [done|]. by intros [].
Qed.

Lemma keeps_super_update_user ru u new : keeps has_super_admin (update_user ru u new).
Proof.
  unfold update_user, require_user, get_user_by_id, update_user_role, _validate_role_change,
    require_admin.
  intros t Ht. run. destruct (bool_decide _); [done|].
  destruct (accounts t !! u) as [a|] eqn:Ha; [|done]. run. destruct (bool_decide _); [done|].
  assert (∀ n : nat, keeps has_super_admin (when (bool_decide (new ≠ us_role a))
    (audit (Some (ru_id ru)) "user" u "user_updated"
       [("changes", MChanges [("role", Some (role_name (us_role a)), Some (role_name new))])])))
    as Hk by (intros n; keeps_auto).
  assert ((active_super_admin a → active_super_admin (set_role new a) ∨
             2 ≤ count_active_super_admins t) →
    has_super_admin ((update_account u (λ _, true) (set_role new) ≫= λ _,
      when (bool_decide (new ≠ us_role a)) (audit (Some (ru_id ru)) "user" u "user_updated"
       [("changes", MChanges [("role", Some (role_name (us_role a)), Some (role_name new))])])) t).2)
    as Hup.
  { intros Hs. rewrite run_bind.
    pose proof (super_update_account u (λ _, true) (set_role new) t a Ha Ht Hs) as H1.
    destruct (update_account _ _ _ t) as [[n|e] t1]; [|done]. by apply (Hk 0). }
  destruct (decide (us_role a = super_admin ∧ new ≠ super_admin)) as [[Hr Hn]|Hr]; run.
  - destruct (bool_decide (_ ≤ 1)) eqn:Hg; [done|]. apply bool_decide_eq_false in Hg.
    apply Hup. right. lia.
  - apply Hup. intros [Hs Hi]. left. split; [|done]. simpl.
    destruct (decide (new = super_admin)); [done|]. by destruct Hr.
Qed.
#[local] Hint Resolve keeps_super_inactivate keeps_super_anonymize keeps_super_reactivate
  keeps_super_update_user : keeps.

Lemma keeps_super_step s :
  (∀ issuer ru u, s ≠ StepDeleteUser issuer ru u) → keeps has_super_admin (run_step s).
Proof.
  intros Hs. destruct s; simpl; try by destruct (Hs issuer ru u).
  all: unfold ignore, with_client, svc_create_authorization_code,
    cleanup_expired_codes, create_authorization_code, revoke_token,
    delete_token, start_device_authorization, cleanup_expired_device_codes, create_device_code,
    decide_request, decide_device_code, record_consent, upsert_consent_grant, revoke_my_grant,
    _revoke, delete_consent_grant, revoke_user_client_tokens, end_user_client_sessions,
    consume_user_client_session_clients, end_oidc_session, revoke_session, revoke_session_row,
    delete_idp_session, consume_session_clients, revoke_session_refresh_tokens,
    deactivate_client, deactivate_client_row, revoke_all_client_tokens, reactivate_client,
    reactivate_client_row, delete_consent_grants_for_client, delete_consents, consume_sessions,
    cleanup_expired_tokens, purge_expired_tokens.
  all: keeps_auto.
Qed.


Lemma run_role_update u new b x ty y e m t a :
  accounts t !! u = Some a →
  ∃ t', (update_user_role u new ≫= λ _, when b (audit x ty y e m)) t = (Ok (), t') ∧
    accounts t' = <[u := set_role new a]> (accounts t).
Proof.
  intros Ha. unfold update_user_role, update_account. rewrite run_update_bind, Ha. simpl.
  destruct b; eexists; (split; [reflexivity|done]).
Qed.

(** A role change succeeds exactly when an admin demotes or leaves a user
    who is not a super admin at member, or a super admin makes any change
    that does not take the role from the last active super admin; it then
    sets the role, and otherwise nothing changes. *)
Theorem role_change_outcome ru u new t :
  let allowed := is_admin ru ∧ ∃ a, accounts t !! u = Some a ∧
    (ru_role ru = super_admin ∨ new = member ∧ us_role a ≠ super_admin) ∧
    (us_role a = super_admin → new ≠ super_admin → 2 ≤ count_active_super_admins t) in
  ((update_user ru u new t).1 = Ok () ↔ allowed) ∧
  (allowed → ∃ a, accounts t !! u = Some a ∧
     accounts (update_user ru u new t).2 = <[u := set_role new a]> (accounts t)) ∧
  (¬ allowed → (update_user ru u new t).2 = t).
Proof.
  cbn zeta. unfold update_user, require_user, get_user_by_id, _validate_role_change.
  destruct (decide (is_admin ru)) as [Hru|Hru].
  2:{ rewrite run_not_admin_bind by done. simpl. split_and!; [split; [done|tauto]|tauto|done]. }
  rewrite run_require_admin_bind by done. run.
  destruct (accounts t !! u) as [a|] eqn:Ha.
  2:{ run. split_and!; [split; [done|]|..|done]; intros (_ & b & ? & _); done. }
  run. destruct (bool_decide (_ ∧ _)) eqn:Hg.
  - apply bool_decide_eq_true in Hg as [Hn Hr]. simpl.
    split_and!; [split; [done|]|..|done]; intros (_ & b & [= <-] & [?|[-> ?]] & _); naive_solver.
  - apply bool_decide_eq_false in Hg.
    assert (ru_role ru = super_admin ∨ new = member ∧ us_role a ≠ super_admin) as Hg'.
    { destruct (decide (ru_role ru = super_admin)); [by left|right].
      destruct (decide (us_role a = super_admin)); [tauto|]. split; [|done].
      destruct new; tauto. }
    clear Hg. destruct (decide (us_role a = super_admin ∧ new ≠ super_admin)) as [[Hs Hn]|Hs]; run.
    + destruct (bool_decide (_ ≤ 1)) eqn:Hc.
      * apply bool_decide_eq_true in Hc. simpl.
        split_and!; [split; [done|]|..|done]; intros (_ & b & [= <-] & _ & Hb);
          specialize (Hb Hs Hn); lia.
      * apply bool_decide_eq_false in Hc. match goal with |- context [when ?b (audit ?x ?ty ?y ?e ?m)] =>
          destruct (run_role_update u new b x ty y e m t a Ha) as (t' & -> & Ht') end. simpl.
        split_and!; [split; [|done]; intros _; split; [done|]; exists a; split_and!; auto with lia
          |by intros _; exists a|intros []; split; [done|]; exists a; split_and!; auto with lia].
    + match goal with |- context [when ?b (audit ?x ?ty ?y ?e ?m)] =>
          destruct (run_role_update u new b x ty y e m t a Ha) as (t' & -> & Ht') end. simpl.
      split_and!; [split; [|done]; intros _; split; [done|]; exists a; split_and!; tauto
          |by intros _; exists a|intros []; split; [done|]; exists a; split_and!; tauto].
Qed.
End super_admins.

(** ** What an inactivation takes away *)

(** [u] has no token, no approval waiting to be redeemed and no consent. *)
Record cut_off (u : uuid) (t t' : tenant) : Prop := mk_cut_off {
  co_tokens : ∀ y k, tokens t' !! y = Some k ↔ tokens t !! y = Some k ∧ tk_user k ≠ u;
  co_devices : ∀ x r, device_codes t' !! x = Some r ↔
                 device_codes t !! x = Some r ∧ ¬ (dc_user r = Some u ∧ dc_status r = approved);
  co_consents : ∀ k g, consents t' !! k = Some g ↔ consents t !! k = Some g ∧ k.2 ≠ u;
  co_session_clients : ∀ k r, session_clients t' !! k = Some r →
                 session_clients t !! k = Some r ∧ (se_user r = u → clients t !! k.2 = None);
  co_codes : codes t' = codes t;
}.

Section inactivation.
Context `{Crypto} `{Entropy}.

Lemma run_cut_access issuer u t : family_ok t →
  ∃ t', cut_access issuer u t = (Ok (), t') ∧ accounts t' = accounts t ∧ cut_off u t t'.
Proof.
  intros Ht. unfold cut_access. rewrite run_bind.
  destruct (revoke_all_user_tokens u t) as [[n|e] t1] eqn:E; [|done].
  assert (accounts t1 = accounts t ∧ consents t1 = consents t ∧ clients t1 = clients t ∧
          session_clients t1 = session_clients t) as (Ha & Hc & Hcl & Hse).
  { revert E. unfold revoke_all_user_tokens. run. by intros [= _ <-]. }
  apply revoke_all_tokens in E as (Ht1 & Hd & Hcodes); [|done].
  unfold delete_consent_grants_for_user. rewrite run_bind, run_delete_consents.
  unfold end_user_oidc_sessions, consume_user_session_clients, consume_sessions. run.
  eexists. split; [reflexivity|]. split; [done|]. split; simpl; [done|done| | |done].
  - intros k g. rewrite lookup_difference_Some, Hc. split.
    + intros [Hk Hn]. split; [done|]. intros Hu.
      assert (filter (λ kv : (uuid * uuid) * consent_row, bool_decide (kv.1.2 = u) = true)
        (consents t) !! k = Some g) as Hin; [|congruence].
      apply map_lookup_filter_Some. split; [done|]. by apply bool_decide_eq_true.
    + intros [Hk Hu]. split; [done|]. apply map_lookup_filter_None. right.
      intros g' _ Hb%bool_decide_eq_true. done.
  - intros k r. rewrite lookup_difference_Some, Hse, Hcl. intros [Hk Hn]. split; [done|].
    intros Hu. destruct (clients t !! k.2) eqn:Hcx; [exfalso|done].
    apply map_lookup_filter_None in Hn as [Hn|Hn]; [congruence|].
    apply (Hn r Hk). simpl. split; [by apply bool_decide_eq_true|]. rewrite Hcx. by eexists.
Qed.

(** Who may be inactivated, and by whom. *)
Definition may_inactivate (ru : requesting_user) (u : uuid) (t : tenant) : Prop :=
  is_admin ru ∧ u ≠ ru_id ru ∧ is_service_user t u = false ∧
  ∃ a, accounts t !! u = Some a ∧ us_is_inactivated a = false ∧
    (us_role a = super_admin → 2 ≤ count_active_super_admins t).

(** An inactivation succeeds exactly when an admin inactivates another,
    active, human user who is not the last active super admin.  It marks the
    account and takes away every token, consent, session record and device
    approval of that user and of nobody else, but no authorization code;
    otherwise nothing changes. *)
Theorem inactivate_user_outcome issuer ru u t :
  family_ok t →
  (may_inactivate ru u t → ∃ a t', accounts t !! u = Some a ∧
     inactivate_user issuer ru u t = (Ok (), t') ∧
     accounts t' = <[u := set_inactivated true a]> (accounts t) ∧ cut_off u t t') ∧
  (¬ may_inactivate ru u t → ∃ e, inactivate_user issuer ru u t = (Raise e, t)).
Proof.
  intros Ht. unfold may_inactivate, inactivate_user, require_user, get_user_by_id,
    not_the_last_super_admin, inactivate_user_row, update_account.
  destruct (decide (is_admin ru)) as [Hru|Hru].
  2:{ rewrite run_not_admin_bind by done. split; [tauto|]. intros _. by eexists. }
  rewrite run_require_admin_bind by done. run.
  destruct (accounts t !! u) as [a|] eqn:Ha.
  2:{ split; [by intros (_ & _ & _ & a & ? & _)|by eexists]. }
  run. destruct (bool_decide (u = ru_id ru)) eqn:Hself.
  { apply bool_decide_eq_true in Hself. split; [tauto|by eexists]. }
  apply bool_decide_eq_false in Hself.
  destruct (is_service_user t u); [by split; [intros (?&?&?&?)|eexists]|].
  destruct (us_is_inactivated a) eqn:Hi.
  { split; [|by eexists]. intros (_ & _ & _ & b & ? & ? & _). congruence. }
  destruct (bool_decide (_ ∧ _)) eqn:Hg.
  { apply bool_decide_eq_true in Hg as [Hs Hn]. split; [|by eexists].
    intros (_ & _ & _ & b & [= <-] & _ & Hb). specialize (Hb Hs). lia. }
  apply bool_decide_eq_false in Hg. split.
  - intros _. simpl.
    rewrite Ha, Hi. simpl.
    set (t1 := set_accounts (insert u (set_inactivated true a)) t).
    destruct (run_cut_access issuer u t1) as (t2 & Hcut & Hacc & Hoff); [done|].
    rewrite run_bind, Hcut. exists a. eexists. split_and!; [done|reflexivity|by simpl; rewrite Hacc|].
    by destruct Hoff.
  - intros []. split_and!; try done. exists a. split_and!; try done. intros Hs.
    destruct (decide (2 ≤ count_active_super_admins t)); [done|]. destruct Hg. split; [done|lia].
Qed.
End inactivation.
