(* ===== verification/OAuthFindings.v ===== *)
(** * Where the OAuth2 and user code and its intent part

    Closed runs, on a concrete tenant, that end where the documentation says
    they cannot: a user whose API access outlives the inactivation, a tenant
    whose last super admin is deleted, a demotion only super admins should
    make, and an exception that no handler expects. *)

From stdpp Require Import gmap strings pretty.
From S2P Require Import Prelude GroupDb AppAccess OAuthDb OAuthService UserLifecycle OAuthTokens OAuthHistory.
#[local] Open Scope Z_scope.

(** ** A concrete tenant *)
Module Demo.
(** Hashes are the strings themselves, which has the laws asked of Argon2. *)
#[export] Instance crypto : Crypto :=
  {| hash_token _ s := s; verify_token_hash x y := bool_decide (x = y) |}.
#[export] Instance crypto_laws : CryptoLaws.
Proof. constructor. intros t x y. apply bool_decide_eq_true. Qed.

(** Ids above 99 and above all ids in use; secrets named after them. *)
Definition next_id (t : tenant) : uuid :=
  Pos.succ (Pos.max (top (codes t)) (Pos.max (top (tokens t)) (top (device_codes t)))).
#[export] Instance entropy : Entropy :=
  {| opaque_token kind t := kind +:+ "-" +:+ pretty (Npos (next_id t));
     generate_user_code attempt _ := if decide (attempt = 0%nat) then "BCDFGHJK" else "LMNPQRST";
     new_id := next_id |}.

Lemma new_id_above t x : (x <= 99)%positive → new_id t ≠ x.
Proof. intros Hx. unfold new_id, entropy, next_id. pose proof (top_above (codes t)). lia. Qed.
Lemma new_id_token t : tokens t !! new_id t = None.
Proof.
  destruct (tokens t !! new_id t) eqn:E; [exfalso|done].
  assert (new_id t <= top (tokens t))%positive as Hle by (apply top_max; by eexists).
  unfold new_id, entropy, next_id in Hle. lia.
Qed.

Definition boss : requesting_user := {| ru_id := 9; ru_role := super_admin |}.
Definition clerk : requesting_user := {| ru_id := 8; ru_role := admin |}.

(** A confidential app 20 that may use the device grant, and a service
    account 21. *)
Definition demo_client : client_row :=
  mk_client "app" normal "App" None true false false true false (Some "https://app/logout").
Definition bot_row : client_row :=
  mk_client "bot" b2b "Bot" (Some 30%positive) true false false false true None.

Definition code_row_of (n : string) (challenge method : option string) : code_row :=
  mk_code n (token_lookup n) 20 1 "https://app/cb" challenge method (seconds 300)
    (Some "openid") None None (Some "s1") None.

(** User 1 has two codes of the app, 5 without and 6 with a PKCE challenge;
    nothing has been issued. *)
Definition start : tenant :=
  mk_tenant (mk_db ∅ ∅ ∅ ∅ {[1; 7; 8; 9; 30]}%positive ∅ ∅ ∅ [] []) 0
    {[20%positive := demo_client; 21%positive := bot_row]}
    {[5%positive := code_row_of "code-5" None None;
      6%positive := code_row_of "code-6" (Some "challenge") (Some "S256")]}
    ∅ ∅ ∅ ∅ [] ∅ ∅
    {[1%positive := mk_account member false false; 7%positive := mk_account admin false false;
      8%positive := mk_account admin false false; 9%positive := mk_account super_admin false false;
      30%positive := mk_account member false false]}.

Definition redeem_code (code : string) (verifier : option string) : token_request :=
  mk_token_request "authorization_code" (Some code) (Some "https://app/cb") verifier None None.
End Demo.
Import Demo.

(** An authorization code that a user had not redeemed when the account
    was inactivated still yields tokens, and the API accepts them as that
    inactivated user's. *)
Theorem inactivated_user_gets_tokens :
  (inactivate_user "iss" boss 1 start).1 = Ok () ∧
  let t := (inactivate_user "iss" boss 1 start).2 in
  let redemption := token_endpoint "iss" 20 demo_client (redeem_code "code-5" None) t in
  ∃ tok rt, redemption.1 = Ok (TokenSuccess tok 3600 (Some rt) None) ∧
    bearer_user redemption.2 tok = Some (1%positive, mk_account member true false).
Proof.
  split; [vm_compute; reflexivity|]. cbv zeta. exists "access-101", "refresh-100".
  split; vm_compute; reflexivity.
Qed.

(** An admin who is not a super admin can delete the last active super
    admin. *)
Theorem last_super_admin_deleted :
  count_active_super_admins start = 1%nat ∧
  (delete_user "iss" clerk 9 start).1 = Ok () ∧
  count_active_super_admins (delete_user "iss" clerk 9 start).2 = 0%nat.
Proof. vm_compute. auto. Qed.

(** An admin can take the admin role from another admin. *)
Theorem admin_demotes_admin :
  (update_user clerk 7 member start).1 = Ok () ∧
  us_role <$> accounts (update_user clerk 7 member start).2 !! 7%positive = Some member.
Proof. vm_compute. auto. Qed.

(** A PKCE verifier with a letter outside ASCII makes the token endpoint
    raise instead of answering with an OAuth2 error. *)
Theorem non_ascii_verifier_raises :
  (token_endpoint "iss" 20 demo_client (redeem_code "code-6" (Some "é")) start).1 =
  Raise (PythonError "UnicodeEncodeError").
Proof. vm_compute. reflexivity. Qed.
