(* ===== verification/OAuthWitness.v ===== *)
(** * The OAuth2 and account theorems at work

    Each theorem with hypotheses applied to the tenant of OAuthFindings, so
    that its hypotheses are seen to hold together. *)

From stdpp Require Import gmap strings.
From S2P Require Import Prelude GroupDb AppAccess OAuthDb OAuthService UserLifecycle OAuthTokens OAuthHistory OAuthProofs OAuthRevocation DeviceProofs UserProofs OAuthFindings.
Import Demo.
#[local] Open Scope Z_scope.

Ltac computed := vm_compute; reflexivity.

Lemma start_no_tokens : no_tokens start.
Proof. done. Qed.

(** Code 5 redeemed: refresh token 100 with access token 101 below it. *)
Definition signed_in_history : list oauth_step :=
  [StepToken "iss" 20 (redeem_code "code-5" None)].
Abbreviation signed_in := (run_steps signed_in_history start).

(** The same, then the refresh token used once: 102 replaces 100. *)
Definition refresh_request (tok : string) : token_request :=
  mk_token_request "refresh_token" None None None (Some tok) None.

Definition the {A} `{Inhabited A} (o : option A) : A := default inhabitant o.
#[export] Instance token_row_inhabited : Inhabited token_row :=
  populate (mk_token "" "" access 1 1 0 0 None None None None).
Lemma the_Some {A} `{Inhabited A} (o : option A) : bool_decide (is_Some o) = true → o = Some (the o).
Proof. intros [x ->]%bool_decide_eq_true. done. Qed.

Lemma token_families_kept_witness :
  ∃ r q, tokens signed_in !! 101%positive = Some r ∧ tokens signed_in !! 100%positive = Some q ∧
    tk_type q = refresh ∧ tk_user r = tk_user q.
Proof.
  assert (tokens signed_in !! 101%positive = Some (the (tokens signed_in !! 101%positive))) as Hr
    by (apply the_Some; computed).
  destruct (token_families_kept signed_in_history start 101 _ 100 start_no_tokens Hr) as [_ Hp].
  assert (tk_parent (the (tokens signed_in !! 101%positive)) = Some 100%positive) as Hp100
    by computed.
  destruct (Hp Hp100) as (q & Hq & Hty & _ & Hu & _).
  eexists _, q. split_and!; [exact Hr|exact Hq|exact Hty|exact Hu].
Defined.

Definition code_data_of (x : uuid) : code_data :=
  mk_code_data x 1 (Some "openid") None None (Some "s1").

Lemma code_redeemed_once_witness :
  (validate_and_consume_code "code-5" 20 "https://app/cb" None start).1
    = Ok (Some (code_data_of 5)) ∧
  cd_id (code_data_of 6) ≠ 5%positive.
Proof.
  set (t' := (validate_and_consume_code "code-5" 20 "https://app/cb" None start).2).
  set (plain := set_codes (insert 6%positive (code_row_of "code-6" None None)) start).
  split; [computed|].
  apply (code_redeemed_once "code-5" 20 "https://app/cb" None plain (code_data_of 5)
    (validate_and_consume_code "code-5" 20 "https://app/cb" None plain).2
    [StepTick 5] "code-6" 20 "https://app/cb" None (code_data_of 6)
    (validate_and_consume_code "code-6" 20 "https://app/cb" None
       (run_steps [StepTick 5]
         (validate_and_consume_code "code-5" 20 "https://app/cb" None plain).2)).2).
  - intros s. apply new_id_above. done.
  - computed.
  - computed.
Defined.

Lemma code_reuse_revokes_grant_witness :
  ∃ s', validate_and_consume_code "code-5" 20 "https://app/cb" None signed_in = (Ok None, s') ∧
    tokens signed_in ≠ ∅ ∧ tokens s' !! 100%positive = None.
Proof.
  destruct (find_code signed_in "code-5" 20 "https://app/cb") as [[x r]|] eqn:Hf;
    [|vm_compute in Hf; discriminate].
  assert (x = 5%positive ∧ ac_challenge r = None ∧ ac_consumed_at r = Some 0) as (-> & Hch & Hc).
  { vm_compute in Hf. injection Hf as <- <-. split_and!; reflexivity. }
  destruct (code_reuse_revokes_grant signed_in_history start "code-5" 20 "https://app/cb" None 5 r
    start_no_tokens Hf) as (s' & Hs & Ht).
  { unfold pkce_ok. by rewrite Hch. }
  { by rewrite Hc. }
  exists s'. split; [exact Hs|]. split; [vm_compute; discriminate|].
  destruct (tokens s' !! 100%positive) as [k|] eqn:Hk; [exfalso|done].
  apply Ht in Hk as [Hk Hg]. apply Hg.
  assert (tk_grant <$> tokens signed_in !! 100%positive = Some (Some 5%positive)) as H100
    by computed.
  rewrite Hk in H100. simpl in H100. congruence.
Defined.

Lemma authorization_code_grant_sound_witness :
  cl_type demo_client = normal ∧
  ∃ x r, codes start !! x = Some r ∧ ac_client r = 20%positive ∧ ac_redirect_uri r = "https://app/cb".
Proof.
  pose proof (authorization_code_grant_sound "iss" 20 demo_client (Some "code-5")
    (Some "https://app/cb") None start "access-101" 3600 (Some "refresh-100") None
    (grant_authorization_code "iss" 20 demo_client (Some "code-5") (Some "https://app/cb") None start).2)
    as Hg.
  destruct Hg as (Hty & _ & code & uri & x & r & _ & Hcode & Huri & Hx & _ & Hcl & Hu & _); [computed|].
  injection Huri as <-. split; [exact Hty|].
  exists x, r. split; [exact Hx|]. split; [exact Hcl|exact Hu].
Defined.

Lemma refresh_grant_rotates_witness :
  validate_refresh_token (grant_refresh_token 20 demo_client (Some "refresh-100") signed_in).2
    "refresh-100" 20 = None.
Proof.
  destruct (refresh_grant_rotates 20 demo_client (Some "refresh-100") signed_in "access-103" 3600
    (Some "refresh-102") None (grant_refresh_token 20 demo_client (Some "refresh-100") signed_in).2)
    as (tok & _ & _ & _ & _ & _ & _ & _ & Htok & _ & _ & _ & _ & _ & _ & _ & _ & _ & Hv).
  - apply family_history, start_no_tokens.
  - computed.
  - injection Htok as <-. exact Hv.
Defined.

Lemma access_token_roundtrip_witness :
  ∃ r, validate_token (set_clock (λ c, c + seconds 60)
         (create_access_token 20 1 None false None None start).2) "access-100"
       = Some (100%positive, r) ∧ tk_user r = 1%positive.
Proof.
  destruct (access_token_roundtrip 20 1 None false None None start "access-100"
    (create_access_token 20 1 None false None None start).2 (seconds 60) "other")
    as (r & Hr & Hv & _).
  - computed.
  - split; [done|computed].
  - exists r. split; [exact Hv|exact (ro_user _ _ _ _ _ _ _ _ _ Hr)].
Defined.

Lemma purge_keeps_live_tokens_witness :
  tokens (cleanup_expired_tokens signed_in).2 !! 101%positive = tokens signed_in !! 101%positive.
Proof.
  assert (tokens signed_in !! 101%positive = Some (the (tokens signed_in !! 101%positive))) as Hr
    by (apply the_Some; computed).
  pose proof (purge_keeps_live_tokens signed_in_history start 101 _ start_no_tokens Hr) as Hp.
  rewrite Hr. apply Hp. vm_compute. reflexivity.
Defined.

Lemma revoke_token_outcome_witness :
  (revoke_token 20 demo_client "refresh-100" signed_in).1 = Ok true ∧
  tokens (revoke_token 20 demo_client "refresh-100" signed_in).2 !! 101%positive = None.
Proof.
  destruct (revoke_token_outcome 20 demo_client "refresh-100" signed_in true
    (revoke_token 20 demo_client "refresh-100" signed_in).2) as (Hb & Hgone & _).
  - apply family_history, start_no_tokens.
  - computed.
  - split; [computed|]. destruct (proj1 Hb eq_refl) as (x & r & Hf & _).
    assert (x = 100%positive) as -> by (vm_compute in Hf; injection Hf; auto).
    destruct (tokens _ !! 101%positive) as [k|] eqn:Hk; [exfalso|done].
    apply (Hgone eq_refl 100%positive r Hf) in Hk as (Hk & _ & Hp). apply Hp.
    assert (tk_parent <$> tokens signed_in !! 101%positive = Some (Some 100%positive)) as H101
      by computed.
    rewrite Hk in H101. simpl in H101. congruence.
Defined.

Definition alice : requesting_user := {| ru_id := 1; ru_role := member |}.
Definition consented_history : list oauth_step :=
  [StepConsent 20 1 {["openid"]}; StepToken "iss" 20 (redeem_code "code-5" None)].
Abbreviation consented := (run_steps consented_history start).

Lemma consent_revocation_final_witness :
  tokens consented !! 100%positive ≠ None ∧
  tokens (token_endpoint "iss" 20 demo_client (refresh_request "refresh-100")
           (revoke_my_grant "iss" alice 100 consented).2).2 !! 100%positive = None.
Proof.
  split; [vm_compute; discriminate|].
  destruct (consent_revocation_final "iss" alice 100 consented
    (revoke_my_grant "iss" alice 100 consented).2 20 (mk_consent 100 {["openid"]}) demo_client "iss"
    (refresh_request "refresh-100")) as [_ Hgone]; [computed..|].
  destruct (tokens (token_endpoint _ _ _ _ _).2 !! 100%positive) as [k|] eqn:Hk; [exfalso|done].
  apply (Hgone 100%positive k (or_intror Hk)).
  assert (option_map (λ k, (tk_client k, tk_user k))
    (tokens (token_endpoint "iss" 20 demo_client (refresh_request "refresh-100")
       (revoke_my_grant "iss" alice 100 consented).2).2 !! 100%positive) = None) as Hn by computed.
  by rewrite Hk in Hn.
Defined.

Lemma end_session_outcome_witness :
  is_session_revoked (end_oidc_session "iss" (Some "s1") None signed_in).2 "s1" = true.
Proof.
  refine (proj1 (end_session_outcome "iss" "s1" None signed_in (mk_oidc_session_end 0 0)
    (end_oidc_session "iss" (Some "s1") None signed_in).2 _ _ _)).
  - discriminate.
  - apply (family_history signed_in_history start start_no_tokens).
  - computed.
Defined.

Lemma user_code_roundtrip_witness : normalize_user_code (format_user_code "BCDFGHJK") = Some "BCDFGHJK".
Proof.
  destruct (user_code_roundtrip "BCDFGHJK") as [Hf Hv]. apply Hf.
  apply (Hv " bcdf-ghjk"). computed.
Defined.

(** ** Device requests *)

Definition device_of (s : device_status) (u : option uuid) : device_row :=
  mk_device (token_lookup "dev-50") (token_lookup "BCDFGHJK") 20 None s u None 5 None (seconds 600).
Definition with_device (s : device_status) (u : option uuid) : tenant :=
  set_device_codes (insert 50%positive (device_of s u)) start.

Lemma new_id_not_50 t : new_id t ≠ 50%positive.
Proof. by apply new_id_above. Qed.

Definition approval_history : list oauth_step :=
  [StepTick (seconds 10); StepDecide "bcdf-ghjk" 1 true None].

Lemma device_request_moves_forward_witness :
  ∃ r', device_codes (run_steps approval_history (with_device pending None)) !! 50%positive = Some r' ∧
    later (device_of pending None) r' ∧ dc_status r' = approved.
Proof.
  set (o := device_codes (run_steps approval_history (with_device pending None)) !! 50%positive).
  destruct o as [r'|] eqn:Ho; [|vm_compute in Ho; discriminate].
  exists r'. split; [done|]. split.
  - apply (device_request_moves_forward approval_history (with_device pending None) 50);
      [exact new_id_not_50|computed|exact Ho].
  - vm_compute in Ho. by injection Ho as <-.
Defined.

Lemma device_code_redeemed_once_witness :
  (redeem 20 demo_client 50 (with_device approved (Some 1%positive))).1 =
    Ok (Some (device_of redeemed (Some 1%positive))) ∧
  (redeem 20 demo_client 50 (run_steps approval_history
     (redeem 20 demo_client 50 (with_device approved (Some 1%positive))).2)).1 = Ok None.
Proof.
  split; [computed|].
  destruct (device_code_redeemed_once 20 demo_client 50 (with_device approved (Some 1%positive))
    (device_of redeemed (Some 1%positive))
    (redeem 20 demo_client 50 (with_device approved (Some 1%positive))).2 approval_history 20 demo_client
    "dev-50" 50 (device_of redeemed (Some 1%positive)) start) as [Hr _].
  - exact new_id_not_50.
  - computed.
  - by rewrite Hr.
Defined.

Lemma grant_device_code_sound_witness :
  client_can_use_device_grant demo_client = true ∧
  ∃ x r, device_codes (with_device approved (Some 1%positive)) !! x = Some r ∧
    dc_lookup r = token_lookup "dev-50" ∧ dc_status r = approved.
Proof.
  destruct (grant_device_code_sound "iss" 20 demo_client (Some "dev-50")
    (with_device approved (Some 1%positive)) "access-101" 3600 (Some "refresh-100") None
    (grant_device_code "iss" 20 demo_client (Some "dev-50") (with_device approved (Some 1%positive))).2)
    as (Hc & dc & x & r & _ & _ & Hdc & Hx & _ & Hl & Hs & _); [computed|].
  injection Hdc as <-. split; [exact Hc|]. exists x, r. split_and!; [exact Hx|exact Hl|exact Hs].
Defined.

Lemma poll_pacing_witness :
  let t1 := set_device_codes (insert 50%positive (polled 0 5 (device_of pending None)))
              (with_device pending None) in
  poll 20 "dev-50" (with_device pending None) = (Ok AUTHORIZATION_PENDING, t1) ∧
  (poll 20 "dev-50" (set_clock (λ now, now + seconds 1) t1)).1 = Ok SLOW_DOWN.
Proof.
  destruct (poll_pacing 20 "dev-50" (with_device pending None) 50 (device_of pending None)
    (seconds 1)) as [H1 H2].
  - computed.
  - done.
  - done.
  - intros y s Hy _. unfold with_device in Hy. simpl in Hy.
    destruct (decide (y = 50%positive)) as [->|Hn]; [done|].
    rewrite lookup_insert_ne in Hy by done. done.
  - done.
  - computed.
  - done.
  - split; [exact H1|exact (f_equal fst H2)].
Defined.

(** ** Accounts *)


Lemma role_change_outcome_witness :
  us_role <$> accounts (update_user boss 7 super_admin start).2 !! 7%positive = Some super_admin.
Proof.
  destruct (role_change_outcome boss 7 super_admin start) as (_ & Hok & _).
  destruct Hok as (a & _ & ->).
  - split; [by right|]. eexists. split; [computed|]. split; [by left|done].
  - by rewrite lookup_insert_eq.
Defined.

Lemma inactivate_user_outcome_witness :
  (inactivate_user "iss" boss 1 signed_in).1 = Ok () ∧
  tokens (inactivate_user "iss" boss 1 signed_in).2 !! 100%positive = None.
Proof.
  destruct (inactivate_user_outcome "iss" boss 1 signed_in) as [Hok _].
  { apply family_history, start_no_tokens. }
  destruct Hok as (a & t' & _ & Hrun & _ & Hoff).
  - split; [by right|]. split; [done|]. split; [computed|]. exists (mk_account member false false).
    split_and!; [computed|done|done].
  - rewrite Hrun. split; [done|]. simpl.
    destruct (tokens t' !! 100%positive) as [k|] eqn:Hk; [exfalso|done].
    apply (co_tokens _ _ _ Hoff) in Hk as [Hk Hu].
    assert (tk_user <$> tokens signed_in !! 100%positive = Some 1%positive) as H100 by computed.
    rewrite Hk in H100. simpl in H100. congruence.
Defined.
