(* ===== verification/ScimDb.v ===== *)
(** * The outbound SCIM tables

    The push queue (app/database/scim_push_queue.py), the attempt log
    (scim_sync_log.py), the remote-id mappings (scim_remote_ids.py), the
    outbound credentials (scim_credentials.py) and the scope queries
    (scim_scope.py).  A tenant's groups, assignments and audit events are the
    state of GroupDb.  [sc_world] is whatever the receivers hold; only
    ScimClient touches it.  Timestamps are microseconds of one clock. *)

From stdpp Require Import gmap strings.
From S2P Require Import Prelude GroupDb AppAccess.
#[local] Open Scope Z_scope.

Inductive resource_type := user_resource | group_resource.
#[export] Instance resource_type_eq_dec : EqDecision resource_type.
Proof. solve_decision. Defined.
#[export] Instance resource_type_countable : Countable resource_type.
Proof.
  refine (inj_countable' (λ r, match r with user_resource => true | group_resource => false end)
    (λ b : bool, if b then user_resource else group_resource) _).
  by intros [].
Defined.

Inductive membership_mode := effective | direct.
#[export] Instance membership_mode_eq_dec : EqDecision membership_mode.
Proof. solve_decision. Defined.

(** The SCIM columns of a service provider. *)
Record target := mk_target {
  st_scim_enabled : bool;
  st_target_url : option string;
  st_scim_kind : option string;
  st_membership_mode : membership_mode;
}.

Record entry := mk_entry {
  en_sp : uuid;
  en_type : resource_type;
  en_resource : uuid;
  en_enqueued_at : Z;
  en_attempts : nat;
  en_next_attempt_at : option Z;
  en_last_error : option string;
  en_dead_letter_at : option Z;
}.

Inductive log_status := running | done | failed | dead_letter.
#[export] Instance log_status_eq_dec : EqDecision log_status.
Proof. solve_decision. Defined.

Record log_row := mk_log_row {
  lg_sp : uuid;
  lg_type : resource_type;
  lg_resource : uuid;
  lg_status : log_status;
  lg_attempt : nat;
  lg_error : option string;
  lg_started_at : Z;
  lg_completed_at : option Z;
}.

Record credential := mk_credential {
  cr_sp : uuid;
  cr_encrypted_plaintext : option string;
  cr_revoked_at : option Z;
  cr_created_at : Z;
  cr_last_used_at : option Z;
}.

(** Of a user, the columns the payload needs; [pe_email] is the primary one. *)
Record person := mk_person {
  pe_email : option string;
  pe_first_name : option string;
  pe_last_name : option string;
  pe_is_inactivated : bool;
}.

Record scim {W : Type} := mk_scim {
  sc_dir : db;
  sc_clock : Z;
  sc_targets : gmap uuid target;
  sc_credentials : gmap uuid credential;
  sc_people : gmap uuid person;
  sc_service_users : gset uuid;
  sc_queue : gmap uuid entry;
  sc_log : gmap uuid log_row;
  sc_remote_ids : gmap (uuid * resource_type * uuid) string;
  sc_world : W;
}.
Arguments scim W : clear implicits.
Arguments mk_scim {W}.

(** The id generator of the queue and log tables. *)
Class ScimIds (W : Type) := scim_id : scim W → uuid.

Section setters.
Context {W : Type}.
Implicit Types s : scim W.

Definition set_dir f s := mk_scim (f (sc_dir s)) (sc_clock s) (sc_targets s) (sc_credentials s)
  (sc_people s) (sc_service_users s) (sc_queue s) (sc_log s) (sc_remote_ids s) (sc_world s).
Definition set_clock f s := mk_scim (sc_dir s) (f (sc_clock s)) (sc_targets s)
  (sc_credentials s) (sc_people s) (sc_service_users s) (sc_queue s) (sc_log s)
  (sc_remote_ids s) (sc_world s).
Definition set_credentials f s := mk_scim (sc_dir s) (sc_clock s) (sc_targets s)
  (f (sc_credentials s)) (sc_people s) (sc_service_users s) (sc_queue s) (sc_log s)
  (sc_remote_ids s) (sc_world s).
Definition set_people f s := mk_scim (sc_dir s) (sc_clock s) (sc_targets s) (sc_credentials s)
  (f (sc_people s)) (sc_service_users s) (sc_queue s) (sc_log s) (sc_remote_ids s) (sc_world s).
Definition set_queue f s := mk_scim (sc_dir s) (sc_clock s) (sc_targets s) (sc_credentials s)
  (sc_people s) (sc_service_users s) (f (sc_queue s)) (sc_log s) (sc_remote_ids s) (sc_world s).
Definition set_log f s := mk_scim (sc_dir s) (sc_clock s) (sc_targets s) (sc_credentials s)
  (sc_people s) (sc_service_users s) (sc_queue s) (f (sc_log s)) (sc_remote_ids s) (sc_world s).
Definition set_remote_ids f s := mk_scim (sc_dir s) (sc_clock s) (sc_targets s)
  (sc_credentials s) (sc_people s) (sc_service_users s) (sc_queue s) (sc_log s)
  (f (sc_remote_ids s)) (sc_world s).
Definition set_world (w : W) s := mk_scim (sc_dir s) (sc_clock s) (sc_targets s) (sc_credentials s)
  (sc_people s) (sc_service_users s) (sc_queue s) (sc_log s) (sc_remote_ids s) w.
End setters.

Definition micros (seconds : Z) : Z := seconds * 1000000.

(** ** database/scim_push_queue.py *)

Definition en_key (e : entry) : uuid * resource_type * uuid := (en_sp e, en_type e, en_resource e).

(** What [on conflict .. do update] sets; [dead_letter_at] is kept. *)
Definition refreshed (now : Z) (e : entry) : entry :=
  mk_entry (en_sp e) (en_type e) (en_resource e) now 0 None None (en_dead_letter_at e).
Definition attempt_failed (error : string) (next : Z) (e : entry) : entry :=
  mk_entry (en_sp e) (en_type e) (en_resource e) (en_enqueued_at e) (S (en_attempts e))
    (Some next) (Some error) (en_dead_letter_at e).
Definition dead_lettered (now : Z) (error : string) (e : entry) : entry :=
  mk_entry (en_sp e) (en_type e) (en_resource e) (en_enqueued_at e) (en_attempts e)
    (en_next_attempt_at e) (Some error) (Some now).
Definition revived (e : entry) : entry :=
  mk_entry (en_sp e) (en_type e) (en_resource e) (en_enqueued_at e) 0 None (en_last_error e) None.

(** The row with the unique key, of the map's rows. *)
Definition find_entry (Q : gmap uuid entry) (k : uuid * resource_type * uuid) :
    option (uuid * entry) :=
  head (filter (λ kv : uuid * entry, en_key kv.2 = k) (map_to_list Q)).

(** [dead_letter_at is null and (next_attempt_at is null or next_attempt_at <= now())]. *)
Definition is_ready (now : Z) (e : entry) : bool :=
  bool_decide (en_dead_letter_at e = None) &&
  match en_next_attempt_at e with None => true | Some n => n <=? now end.

Section queue.
Context {W : Type} `{ScimIds W}.
Implicit Types s : scim W.

Definition upsert_entry (p : uuid) (ty : resource_type) (x : uuid) : M (scim W) () :=
  s ← gets id;
  _ ← raise_if (bool_decide (sc_targets s !! p = None))
        (IntegrityError "scim_push_queue_sp_id_fkey");
  match find_entry (sc_queue s) (p, ty, x) with
  | Some (i, e) => modify (set_queue (insert i (refreshed (sc_clock s) e)))
  | None =>
      let i := scim_id s in
      _ ← raise_if (bool_decide (is_Some (sc_queue s !! i))) (IntegrityError "scim_push_queue_pkey");
      modify (set_queue (insert i (mk_entry p ty x (sc_clock s) 0 None None None)))
  end.

Definition _BULK_UPSERT_CHUNK_SIZE : nat := 1000.

(** One statement per chunk; a chunk that names a row twice is refused. *)
Definition upsert_chunk (p : uuid) (chunk : list uuid) : M (scim W) nat :=
  transaction
    (_ ← raise_if (bool_decide (¬ NoDup chunk)) (IntegrityError "cardinality_violation");
     _ ← for_each (upsert_entry p user_resource) chunk;
     mret (length chunk)).

Fixpoint chunks {A} (fuel n : nat) (l : list A) : list (list A) :=
  match fuel, l with
  | O, _ | _, [] => []
  | S fuel, _ => take n l :: chunks fuel n (drop n l)
  end.

(** There are at most as many chunks as users. *)
Definition bulk_upsert_users (p : uuid) (us : list uuid) : M (scim W) nat :=
  for_sum (upsert_chunk p) (chunks (length us) _BULK_UPSERT_CHUNK_SIZE us).

(** [order by enqueued_at]; among equals the database chooses. *)
Definition older_first (x y : uuid * entry) : Prop := en_enqueued_at x.2 <= en_enqueued_at y.2.
#[export] Instance older_first_dec : RelDecision older_first.
Proof. intros x y. unfold older_first. apply _. Defined.

(** The row locks of [for update skip locked] end with the statement, which
    is its own transaction. *)
Definition list_ready_entries (s : scim W) (limit : nat) : list (uuid * entry) :=
  take limit (merge_sort older_first
    (filter (λ kv : uuid * entry, is_ready (sc_clock s) kv.2 = true) (map_to_list (sc_queue s)))).

(** What the error columns of the queue and of the log hold: no text with the
    character 0, refused before the statement is sent, and in a row it writes
    at most 4000 characters. *)
Definition storable_error {S} (check : string) (found : bool) (error : option string) : M S () :=
  _ ← raise_if (negb (forallb no_nul (option_list error))) (PythonError "DataError");
  raise_if (found && longer_than 4000 error) (IntegrityError check).

(** [update scim_push_queue set .. where id = :id and P]. *)
Definition update_entry (i : uuid) (P : entry → bool) (error : option string)
    (f : Z → entry → entry) : M (scim W) nat :=
  found ← gets (λ s, match sc_queue s !! i with Some e => P e | None => false end);
  _ ← storable_error "chk_scim_push_queue_last_error_length" found error;
  update (λ s, match sc_queue s !! i with
               | Some e => if P e then (1%nat, set_queue (insert i (f (sc_clock s) e)) s) else (0%nat, s)
               | None => (0%nat, s)
               end).

Definition mark_attempt_failed (i : uuid) (error : string) (next : Z) : M (scim W) nat :=
  update_entry i (λ _, true) (Some error) (λ _, attempt_failed error next).
Definition queue_mark_dead_letter (i : uuid) (error : string) : M (scim W) nat :=
  update_entry i (λ _, true) (Some error) (λ now, dead_lettered now error).
Definition clear_dead_letter (i : uuid) : M (scim W) nat :=
  update_entry i (λ e, bool_decide (en_dead_letter_at e ≠ None)) None (λ _, revived).
Definition delete_entry (i : uuid) : M (scim W) nat :=
  update (λ s, ((if decide (is_Some (sc_queue s !! i)) then 1%nat else 0%nat),
                set_queue (delete i) s)).

Definition is_dead (p : uuid) (e : entry) : bool :=
  bool_decide (en_sp e = p ∧ en_dead_letter_at e ≠ None).
Definition revive_dead_lettered_for_sp (p : uuid) : M (scim W) nat :=
  update (λ s, (size (filter (λ kv : uuid * entry, is_dead p kv.2 = true) (sc_queue s)),
                set_queue (fmap (λ e, if is_dead p e then revived e else e)) s)).

(** Pending and dead-lettered rows of a service provider. *)
Definition count_pending_for_sp (s : scim W) (p : uuid) : nat * nat :=
  (size (filter (λ kv : uuid * entry, en_sp kv.2 = p ∧ en_dead_letter_at kv.2 = None) (sc_queue s)),
   size (filter (λ kv : uuid * entry, en_sp kv.2 = p ∧ en_dead_letter_at kv.2 ≠ None) (sc_queue s))).

(** ** database/scim_sync_log.py *)

Definition create_log_entry (p : uuid) (ty : resource_type) (x : uuid) (attempt : nat)
    (started_at : Z) : M (scim W) uuid :=
  s ← gets id;
  let i := scim_id s in
  _ ← raise_if (bool_decide (is_Some (sc_log s !! i))) (IntegrityError "scim_sync_log_pkey");
  _ ← modify (set_log (insert i (mk_log_row p ty x running attempt None started_at None)));
  mret i.

(** [update_status] with [completed=True]. *)
Definition update_status (i : uuid) (st : log_status) (error : option string) : M (scim W) nat :=
  found ← gets (λ s, bool_decide (is_Some (sc_log s !! i)));
  _ ← storable_error "chk_scim_sync_log_error_length" found error;
  update (λ s, match sc_log s !! i with
               | Some r => (1%nat, set_log (insert i (mk_log_row (lg_sp r) (lg_type r)
                              (lg_resource r) st (lg_attempt r) error (lg_started_at r)
                              (Some (sc_clock s)))) s)
               | None => (0%nat, s)
               end).
End queue.

(** ** database/scim_remote_ids.py *)

Section remote_ids.
Context {W : Type}.
Implicit Types s : scim W.

Definition get_one s (p : uuid) (ty : resource_type) (x : uuid) : option string :=
  sc_remote_ids s !! (p, ty, x).

(** The [members] lookup of a group payload. *)
Definition get_for_users s (p : uuid) (us : list uuid) : gmap uuid string :=
  list_to_map (omap (λ u, r ← get_one s p user_resource u; Some (u, r)) us).

(** Whether the row was inserted. *)
Definition upsert_remote_id (p : uuid) (ty : resource_type) (x : uuid) (remote : string) :
    M (scim W) bool :=
  update (λ s, (bool_decide (sc_remote_ids s !! (p, ty, x) = None),
                set_remote_ids (insert (p, ty, x) remote) s)).
Definition delete_remote_id (p : uuid) (ty : resource_type) (x : uuid) : M (scim W) nat :=
  update (λ s, ((if decide (is_Some (sc_remote_ids s !! (p, ty, x))) then 1%nat else 0%nat),
                set_remote_ids (delete (p, ty, x)) s)).

(** ** database/scim_scope.py *)

Definition scim_enabled_sps s : list (uuid * target) :=
  filter (λ kv : uuid * target, st_scim_enabled kv.2 = true) (map_to_list (sc_targets s)).

Definition grants_user s (u p : uuid) : bool :=
  app_open_to_all (sc_dir s) (sp, p) || group_grants (sc_dir s) (sp, p) u.
Definition scim_sps_granting_user s (u : uuid) : list (uuid * target) :=
  filter (λ kv : uuid * target, grants_user s u kv.1 = true) (scim_enabled_sps s).

Definition grants_via_group s (g p : uuid) : bool :=
  bool_decide (set_Exists (λ a : app * uuid, a.1 = (sp, p) ∧ is_Some (lineage (sc_dir s) !! (a.2, g)))
    (assignments (sc_dir s))).
Definition scim_sps_granting_via_group s (g : uuid) : list (uuid * target) :=
  filter (λ kv : uuid * target, grants_via_group s g kv.1 = true) (scim_enabled_sps s).

Definition transitive_user_ids_for_group s (g : uuid) : list uuid :=
  elements (set_map (λ m : uuid * uuid, m.2)
    (filter (λ m : uuid * uuid, is_Some (lineage (sc_dir s) !! (g, m.1)))
       (memberships (sc_dir s))) : gset uuid).

Definition tenant_user_ids s : list uuid := elements (users (sc_dir s) ∖ sc_service_users s).

Definition is_scim_enabled_sp s (p : uuid) : bool :=
  match sc_targets s !! p with Some t => st_scim_enabled t | None => false end.

(** ** database/scim_credentials.py *)

(** [order by created_at desc limit 1] of the usable rows. *)
Definition newer_first (x y : uuid * credential) : Prop := cr_created_at y.2 <= cr_created_at x.2.
#[export] Instance newer_first_dec : RelDecision newer_first.
Proof. intros x y. unfold newer_first. apply _. Defined.

Definition usable (now : Z) (p : uuid) (c : credential) : bool :=
  bool_decide (cr_sp c = p ∧ cr_encrypted_plaintext c ≠ None) &&
  match cr_revoked_at c with None => true | Some r => now <? r end.
Definition get_active_credential_for_outbound s (p : uuid) : option (uuid * credential) :=
  head (merge_sort newer_first
    (filter (λ kv : uuid * credential, usable (sc_clock s) p kv.2 = true)
       (map_to_list (sc_credentials s)))).

Definition update_last_used (i : uuid) : M (scim W) () :=
  modify (λ s, set_credentials (alter (λ c, mk_credential (cr_sp c) (cr_encrypted_plaintext c)
                 (cr_revoked_at c) (cr_created_at c) (Some (sc_clock s))) i) s).

(** ** The users read by a push *)

(** [user_emails.get_user_with_primary_email] joined with the row of
    [users.get_user_by_id]. *)
Definition get_user_with_primary_email s (u : uuid) : option (string * person) :=
  if decide (u ∈ users (sc_dir s)) then
    p ← sc_people s !! u; email ← pe_email p; Some (email, p)
  else None.
End remote_ids.
