(* ===== verification/ScimClient.v ===== *)
(** * The SCIM client

    Payloads (app/services/scim/payload.py), vendor quirks
    (services/scim/quirks), redaction (services/scim/_sanitise.py) and the
    transport with its retries (services/scim/client.py).  What a receiver
    does with a request is a parameter, [Receiver]; JSON parsing of an answer
    is part of it, so an answer carries the parsed fields the code looks at. *)

From stdpp Require Import gmap strings pretty.
From S2P Require Import Prelude GroupDb ScimDb.
#[local] Open Scope Z_scope.

(** ** Payloads *)

Record user_payload := mk_user_payload {
  up_external_id : string;
  up_user_name : string;
  up_active : bool;
  up_given_name : option string;
  up_family_name : option string;
  up_display_name : option string;   (* also name.formatted *)
}.

Record member_payload := mk_member_payload {
  mp_value : string;
  mp_ref : option string;
  mp_display : option string;
}.

Record group_payload := mk_group_payload {
  gp_external_id : string;
  gp_display_name : string;
  gp_members : list member_payload;
}.

Inductive payload := UserPayload (u : user_payload) | GroupPayload (g : group_payload).

(** A null or empty string is not emitted. *)
Definition nonempty (s : option string) : option string :=
  match s with Some "" | None => None | Some s => Some s end.

Definition _full_name (first last : option string) : option string :=
  match nonempty first, nonempty last with
  | Some f, Some l => Some (f +:+ " " +:+ l)
  | Some f, None => Some f
  | None, l => l
  end.

Definition build_user_resource `{UuidText} (u : uuid) (email : string) (p : person) : user_payload :=
  mk_user_payload (uuid_text u) email (negb (pe_is_inactivated p)) (nonempty (pe_first_name p))
    (nonempty (pe_last_name p)) (_full_name (pe_first_name p) (pe_last_name p)).

(** A row of the effective-members query. *)
Record member_row := mk_member_row {
  me_user : uuid;
  me_is_direct : bool;
  me_person : person;
}.

Definition _member_display (m : member_row) : option string :=
  match _full_name (pe_first_name (me_person m)) (pe_last_name (me_person m)) with
  | Some full => Some full
  | None => nonempty (pe_email (me_person m))
  end.

(** A member without a recorded remote id is left out. *)
Definition member_entry (lookup : gmap uuid string) (m : member_row) : option member_payload :=
  v ← lookup !! me_user m; Some (mk_member_payload v (Some ("Users/" +:+ v)) (_member_display m)).

Definition build_group_resource `{UuidText} (g : uuid) (name : string) (members : list member_row)
    (lookup : gmap uuid string) : group_payload :=
  mk_group_payload (uuid_text g) name (omap (member_entry lookup) members).

(** ** Requests and answers *)

Inductive verb := POST | PUT | DELETE.
#[export] Instance verb_eq_dec : EqDecision verb.
Proof. solve_decision. Defined.

Record http_request := mk_http_request {
  hq_verb : verb;
  hq_url : string;
  hq_token : string;
  hq_json : option payload;
}.

Record http_response := mk_http_response {
  hr_status_code : Z;
  hr_id : option string;
  hr_scim_type : option string;
  hr_detail : option string;
  hr_retry_after : option string;
  hr_ratelimit_remaining : option string;
}.

(** [httpx.RequestError] and any other exception, by class name. *)
Inductive reply :=
  | Answer (r : http_response)
  | RequestError (name : string)
  | OtherError (name : string).

Class Receiver (W : Type) := respond : http_request → W → reply * W.

(** ** Redaction, services/scim/_sanitise.py

    Each regular expression is a chain of literal words, runs of spaces and
    one run of other characters, so the leftmost match is found by trying
    every position in turn. *)

(** The rest after a literal, without regard to case. *)
Fixpoint eat_word (w l : list Ascii.ascii) : option (list Ascii.ascii) :=
  match w, l with
  | [], _ => Some l
  | c :: w, d :: l => if decide (lower c = lower d) then eat_word w l else None
  | _ :: _, [] => None
  end.
Fixpoint eat_nonspace (l : list Ascii.ascii) : list Ascii.ascii :=
  match l with
  | c :: l' => if is_space c then l else eat_nonspace l'
  | [] => []
  end.
Definition eat_spaces1 (l : list Ascii.ascii) : option (list Ascii.ascii) :=
  match l with
  | c :: l' => if is_space c then Some (drop_spaces l') else None
  | [] => None
  end.
Definition eat_nonspace1 (l : list Ascii.ascii) : option (list Ascii.ascii) :=
  match l with
  | c :: l' => if is_space c then None else Some (eat_nonspace l')
  | [] => None
  end.

(** [Bearer\s+\S+] and [Authorization\s*:\s*Bearer\s+\S+]. *)
Definition bare_bearer (l : list Ascii.ascii) : option (list Ascii.ascii) :=
  l ← eat_word (chars "Bearer") l; l ← eat_spaces1 l; eat_nonspace1 l.
Definition auth_header (l : list Ascii.ascii) : option (list Ascii.ascii) :=
  l ← eat_word (chars "Authorization") l;
  l ← eat_word (chars ":") (drop_spaces l);
  bare_bearer (drop_spaces l).

(** [re.sub]; a match is not empty, so the length of the text is enough
    fuel. *)
Fixpoint substitute (fuel : nat) (pattern : list Ascii.ascii → option (list Ascii.ascii))
    (by_ l : list Ascii.ascii) : list Ascii.ascii :=
  match fuel, l with
  | O, _ | _, [] => l
  | S fuel, c :: l' =>
      match pattern l with
      | Some rest => by_ ++ substitute fuel pattern by_ rest
      | None => c :: substitute fuel pattern by_ l'
      end
  end.
Definition re_sub (pattern : list Ascii.ascii → option (list Ascii.ascii)) (by_ s : string) : string :=
  String.string_of_list_ascii
    (substitute (String.length s) pattern (chars by_) (chars s)).

Definition redact_bearer (text : string) : string :=
  re_sub bare_bearer "Bearer [REDACTED]"
    (re_sub auth_header "Authorization: Bearer [REDACTED]" text).

Example redact_ex : redact_bearer "denied: authorization : bearer  abc.d!  x Bearer y" =
  "denied: Authorization: Bearer [REDACTED]  x Bearer [REDACTED]".
Proof. vm_compute. reflexivity. Qed.

(** ** Quirks *)

Inductive push_status := success | retryable | permanent | absent.
#[export] Instance push_status_eq_dec : EqDecision push_status.
Proof. solve_decision. Defined.

Record push_result := mk_push_result {
  pr_status : push_status;
  pr_http_status : option Z;
  pr_reason : option string;
  pr_scim_id : option string;
}.

Record quirk := mk_quirk {
  transform_group_payload : group_payload → group_payload;
  interpret_error : http_response → verb → push_status * string;
  GROUP_UPDATE_VERB : verb;
}.

Definition http (n : Z) : string := "(HTTP " +:+ pretty n.

(** quirks/generic.py *)
Definition generic_interpret_error (r : http_response) (v : verb) : push_status * string :=
  let n := hr_status_code r in
  if n =? 429 then (retryable, "rate_limited " +:+ http n +:+ ")")
  else if (500 <=? n) && (n <? 600) then (retryable, "server_error " +:+ http n +:+ ")")
  else if (n =? 404) && bool_decide (v = DELETE) then
    (absent, "already_absent (HTTP 404 on DELETE)")
  else if (400 <=? n) && (n <? 500) then (permanent, "client_error " +:+ http n +:+ ")")
  else (permanent, "unexpected_status " +:+ http n +:+ ")").

Definition github_interpret_error (r : http_response) (v : verb) : push_status * string :=
  if (hr_status_code r =? 403) && bool_decide (hr_ratelimit_remaining r = Some "0") then
    (retryable, "rate_limited (HTTP 403, x-ratelimit-remaining: 0)")
  else if (hr_status_code r =? 409) && bool_decide (hr_scim_type r = Some "uniqueness") then
    (permanent, "uniqueness (HTTP 409, resource already exists)")
  else
    let '(disposition, reason) := generic_interpret_error r v in
    match nonempty (hr_scim_type r) with
    | Some ty => (disposition,
                  if contains ty reason then reason else reason +:+ " scimType=" +:+ ty)
    | None => (disposition, reason)
    end.

Definition gitlab_interpret_error (r : http_response) (v : verb) : push_status * string :=
  if hr_status_code r =? 502 then (retryable, "proxy_error (HTTP 502, GitLab upstream)")
  else
    match nonempty (hr_detail r) with
    | Some detail =>
        if (hr_status_code r =? 403) && contains "license" (lower_string detail)
        then (permanent, "license_error (HTTP 403, " +:+ detail +:+ ")")
        else generic_interpret_error r v
    | None => generic_interpret_error r v
    end.

Definition slack_interpret_error (r : http_response) (v : verb) : push_status * string :=
  if hr_status_code r =? 429 then
    match nonempty (hr_retry_after r) with
    | Some after => (retryable, "rate_limited (HTTP 429, Retry-After: " +:+ after +:+ ")")
    | None => (retryable, "rate_limited (HTTP 429)")
    end
  else generic_interpret_error r v.

Definition slack_transform_group (g : group_payload) : group_payload :=
  mk_group_payload (gp_external_id g) (gp_display_name g)
    ((λ m, mk_member_payload (mp_value m) None (mp_display m)) <$> gp_members g).
Definition atlassian_transform_group (g : group_payload) : group_payload :=
  mk_group_payload (gp_external_id g) (py_strip (gp_display_name g)) (gp_members g).

Definition generic : quirk := mk_quirk id generic_interpret_error PUT.
Definition slack : quirk := mk_quirk slack_transform_group slack_interpret_error PUT.
Definition github : quirk := mk_quirk id github_interpret_error POST.
Definition atlassian : quirk := mk_quirk atlassian_transform_group generic_interpret_error PUT.
Definition gitlab : quirk := mk_quirk id gitlab_interpret_error PUT.

(** GitLab's test that a user payload has an external id always passes, the
    builder sets it; the other user transforms are the identity. *)
Definition get_quirk_module (kind : option string) : quirk :=
  match kind with
  | Some "slack" => slack
  | Some "github" => github
  | Some "atlassian" => atlassian
  | Some "gitlab" => gitlab
  | _ => generic
  end.

(** ** Transport *)

Definition strip_slash (s : string) : string :=
  String.string_of_list_ascii (rev (drop_slashes (rev (drop_slashes (chars s))))).

Fixpoint join (sep : string) (l : list string) : string :=
  match l with
  | [] => ""
  | [x] => x
  | x :: l => x +:+ sep +:+ join sep l
  end.

Definition _target_for (base : string) (segments : list string) : string :=
  let pieces := strip_slash <$> filter (λ s, s ≠ "") segments in
  match pieces with
  | [] => rstrip_slash base
  | _ => rstrip_slash base +:+ "/" +:+ join "/" pieces
  end.

Example target_ex : _target_for "https://x/scim/" ["Users"; "a1"] = "https://x/scim/Users/a1".
Proof. vm_compute. reflexivity. Qed.

Definition _MAX_ATTEMPTS : nat := 3.
Definition _BACKOFF_SECONDS (attempt : nat) : Z := match attempt with 2%nat => 1 | 3%nat => 4 | _ => 0 end.

Definition _success (r : http_response) : push_result :=
  mk_push_result success (Some (hr_status_code r)) None (hr_id r).
(** A disposition that is none of the three counts as permanent. *)
Definition _classify_response (r : http_response) (q : quirk) (v : verb) : push_result :=
  let '(disposition, reason) := interpret_error q r v in
  mk_push_result (match disposition with success => permanent | d => d end) (Some (hr_status_code r)) (Some (redact_bearer reason)) None.

Definition is_2xx (r : http_response) : bool := (200 <=? hr_status_code r) && (hr_status_code r <? 300).

Section transport.
Context {W : Type} `{Receiver W}.

Definition sleep (seconds : Z) : M (scim W) () := modify (set_clock (λ c, c + micros seconds)).

Definition exchange (rq : http_request) : M (scim W) reply :=
  update (λ s, let '(a, w) := respond rq (sc_world s) in (a, set_world w s)).

(** The loop over the attempts that are left. *)
Fixpoint send_attempts (attempts : list nat) (q : quirk) (rq : http_request) (last : push_result) :
    M (scim W) push_result :=
  match attempts with
  | [] => mret last
  | n :: attempts =>
      _ ← when (bool_decide (1 < n)%nat) (sleep (_BACKOFF_SECONDS n));
      a ← exchange rq;
      match a with
      | RequestError e =>
          send_attempts attempts q rq
            (mk_push_result retryable None (Some ("network_error: " +:+ e)) None)
      | OtherError e => raise (PythonError e)
      | Answer r =>
          if is_2xx r then mret (_success r)
          else
            let result := _classify_response r q (hq_verb rq) in
            if decide (pr_status result = permanent ∨ pr_status result = absent) then mret result
            else send_attempts attempts q rq result
      end
  end.

Definition _send_with_retry (q : quirk) (rq : http_request) : M (scim W) push_result :=
  send_attempts (seq 1 _MAX_ATTEMPTS) q rq
    (mk_push_result retryable None (Some "no_attempts_made") None).

(** [base] and [kind] are the target URL and the kind of the provider row. *)
Definition push_user (base : string) (kind : option string) (token : string) (u : user_payload) :
    M (scim W) push_result :=
  _send_with_retry (get_quirk_module kind)
    (mk_http_request POST (_target_for base ["Users"]) token (Some (UserPayload u))).
Definition put_user (base : string) (kind : option string) (token : string) (remote : string)
    (u : user_payload) : M (scim W) push_result :=
  _send_with_retry (get_quirk_module kind)
    (mk_http_request PUT (_target_for base ["Users"; remote]) token (Some (UserPayload u))).
Definition delete_user (base : string) (kind : option string) (token : string) (remote : string) :
    M (scim W) push_result :=
  _send_with_retry (get_quirk_module kind)
    (mk_http_request DELETE (_target_for base ["Users"; remote]) token None).

Definition push_group (base : string) (kind : option string) (token : string) (g : group_payload) :
    M (scim W) push_result :=
  let q := get_quirk_module kind in
  _send_with_retry q (mk_http_request POST (_target_for base ["Groups"]) token
    (Some (GroupPayload (transform_group_payload q g)))).
Definition put_group (base : string) (kind : option string) (token : string) (remote : string)
    (g : group_payload) : M (scim W) push_result :=
  let q := get_quirk_module kind in
  _send_with_retry q (mk_http_request PUT (_target_for base ["Groups"; remote]) token
    (Some (GroupPayload (transform_group_payload q g)))).
Definition delete_group (base : string) (kind : option string) (token : string) (remote : string) :
    M (scim W) push_result :=
  _send_with_retry (get_quirk_module kind)
    (mk_http_request DELETE (_target_for base ["Groups"; remote]) token None).
End transport.
