(* ===== verification/ScimWorker.v ===== *)
(** * The SCIM push worker

    app/services/scim/worker.py with its helpers remote_ids.py and
    sync_log.py, and the tenant's turn of
    app/jobs/process_scim_push_queue.py.  The text of an exception is the
    string its constructor carries. *)

From stdpp Require Import gmap strings pretty.
From S2P Require Import Prelude GroupDb GroupService AppAccess ScimDb ScimClient.
#[local] Open Scope Z_scope.

Definition type_name (ty : resource_type) : string :=
  match ty with user_resource => "user" | group_resource => "group" end.

(** Errors are cut to what the columns' length checks admit. *)
Definition _MAX_QUEUE_ERROR_LENGTH : Z := 3900.
Definition _truncate_queue_error (e : string) : string :=
  if py_len e <=? _MAX_QUEUE_ERROR_LENGTH then e
  else prefix_text (Z.to_nat (_MAX_QUEUE_ERROR_LENGTH - 3)) e +:+ "...".

Definition status_text (st : push_status) : string :=
  match st with
  | success => "success" | retryable => "retryable" | permanent => "permanent" | absent => "absent"
  end.

Definition _format_reason (status : push_status) (r : push_result) : string :=
  join " " ([status_text status] ++
    (match pr_http_status r with Some n => ["http=" +:+ pretty n] | None => [] end) ++
    (match nonempty (pr_reason r) with Some t => [t] | None => [] end)).

Definition exn_text (e : exn) : string :=
  match e with
  | ServiceError _ c => c | IntegrityError c => c
  | StatementDiverges => "StatementDiverges" | PythonError w => w
  | ScimWriteError _ t => default "" t
  end.

(** [try: m except Exception: ..]: the exception as a value. *)
Definition attempt {S A} (m : M S A) : M S (outcome A) := λ s, let '(r, s') := m s in (Ok r, s').

Inductive bucket := succeeded | retried | dead_lettered_ | skipped | absent_.
#[export] Instance bucket_eq_dec : EqDecision bucket.
Proof. solve_decision. Defined.

(** The retry delays, in seconds, by the number of the failed attempt. *)
Definition _BACKOFF_SCHEDULE (attempt : nat) : Z :=
  match attempt with
  | 1%nat => 60 | 2%nat => 300 | 3%nat => 1800 | 4%nat => 7200 | _ => 0
  end.
Definition _MAX_ATTEMPTS : nat := 5.
Definition _TENANT_DRAIN_LIMIT : nat := 500.

Section worker.
Context {W : Type} `{Receiver W} `{ScimIds W} `{UuidText} `{Collation}.
Implicit Types s : scim W.

(** A call of the group or audit code. *)
Definition in_dir {A} (m : M db A) : M (scim W) A :=
  λ s, let '(r, d) := m (sc_dir s) in (r, set_dir (λ _, d) s).

(** ** services/scim/remote_ids.py *)

Definition mapping_event (p : uuid) (ty : resource_type) (x : uuid) (name : string)
    (extra : list (string * meta)) : M (scim W) () :=
  in_dir (log_event None (type_name ty) x name
    ([("sp_id", MId p); ("resource_type", MStr (type_name ty))] ++ extra)).

(** A remote id that its column does not hold makes the upsert fail, which
    is swallowed. *)
Definition record_mapping (p : uuid) (ty : resource_type) (x : uuid) (remote : string) :
    M (scim W) () :=
  if negb (no_nul remote) || bool_decide (255 < py_len remote) then mret ()
  else
    inserted ← upsert_remote_id p ty x remote;
    when inserted (mapping_event p ty x "scim_remote_id_mapped" [("remote_id", MStr remote)]).

Definition invalidate_mapping (p : uuid) (ty : resource_type) (x : uuid) (reason : string) :
    M (scim W) bool :=
  n ← delete_remote_id p ty x;
  if decide (n = 0%nat) then mret false
  else
    _ ← mapping_event p ty x "scim_remote_id_invalidated" [("reason", MStr reason)];
    mret true.

(** ** services/scim/sync_log.py *)

Definition start_attempt (p : uuid) (ty : resource_type) (x : uuid) (attempt : nat)
    (started_at : Z) : M (scim W) uuid := create_log_entry p ty x attempt started_at.
Definition mark_done (i : uuid) : M (scim W) nat := update_status i done None.
Definition mark_failed (i : uuid) (e : string) : M (scim W) nat :=
  update_status i failed (Some (_truncate_queue_error e)).
Definition mark_dead_letter (i : uuid) (e : string) : M (scim W) nat :=
  update_status i dead_letter (Some (_truncate_queue_error e)).

(** ** The members of a group, database/groups/effective.py *)

(** [is_direct] is [bool_or(depth = 0)] over the groups below [g] the user is in. *)
Definition effective_member (d : db) (people : gmap uuid person) (g u : uuid) : option member_row :=
  p ← people !! u;
  Some (mk_member_row u
    (bool_decide (set_Exists (λ m : uuid * uuid, m.2 = u ∧ lineage d !! (g, m.1) = Some 0%nat)
                    (memberships d))) p).

(** [order by is_direct desc, last_name, first_name], nulls last. *)
Definition name_le (x y : option string) (otherwise : bool) : bool :=
  match x, y with
  | Some x, Some y => if decide (x = y) then otherwise else collate_le x y
  | Some _, None => true
  | None, Some _ => false
  | None, None => otherwise
  end.
Definition member_le (x y : member_row) : Prop :=
  match me_is_direct x, me_is_direct y with
  | true, false => True
  | false, true => False
  | _, _ => name_le (pe_last_name (me_person x)) (pe_last_name (me_person y))
              (name_le (pe_first_name (me_person x)) (pe_first_name (me_person y)) true) = true
  end.
#[export] Instance member_le_dec : RelDecision member_le.
Proof. intros x y. unfold member_le. repeat case_match; apply _. Defined.

Definition effective_member_rows s (g : uuid) : list member_row :=
  merge_sort member_le
    (omap (effective_member (sc_dir s) (sc_people s) g)
       (filter (λ u, u ∈ users (sc_dir s)) (transitive_user_ids_for_group s g))).

Definition get_effective_members s (g : uuid) (page page_size : nat) : list member_row :=
  take page_size (drop ((page - 1) * page_size) (effective_member_rows s g)).

(** [while True]: a page that is not full is the last one; there are fewer
    pages than rows, plus one. *)
Fixpoint member_pages (fuel : nat) s (g : uuid) (page page_size : nat) : list member_row :=
  match fuel with
  | O => []
  | S fuel =>
      let batch := get_effective_members s g page page_size in
      if decide (length batch < page_size)%nat then batch
      else batch ++ member_pages fuel s g (S page) page_size
  end.
Definition _list_effective_members s (g : uuid) : list member_row :=
  member_pages (S (length (effective_member_rows s g))) s g 1 200.
Definition _list_direct_members s (g : uuid) : list member_row :=
  filter (λ m, me_is_direct m = true) (_list_effective_members s g).
Definition _group_members_for_sp s (g : uuid) (t : target) : list member_row :=
  match st_membership_mode t with
  | direct => _list_direct_members s g
  | effective => _list_effective_members s g
  end.

(** ** Pushing one resource *)

Definition _user_in_scope_for_sp s (u p : uuid) : bool :=
  existsb (λ kv : uuid * target, bool_decide (kv.1 = p)) (scim_sps_granting_user s u).

Definition _handle_404_invalidation (p : uuid) (ty : resource_type) (x : uuid) (had_mapping : bool)
    (r : push_result) : M (scim W) push_result :=
  if negb had_mapping || bool_decide (pr_http_status r ≠ Some 404) then mret r
  else
    _ ← invalidate_mapping p ty x "remote_404";
    mret (if decide (pr_status r = permanent)
          then mk_push_result retryable (Some 404)
                 (Some "remote_id_invalidated (HTTP 404; next attempt will POST)") None
          else r).

(** A created resource's id is recorded. *)
Definition after_post (p : uuid) (ty : resource_type) (x : uuid) (r : push_result) :
    M (scim W) push_result :=
  match pr_status r, nonempty (pr_scim_id r) with
  | success, Some remote => _ ← record_mapping p ty x remote; mret r
  | _, _ => mret r
  end.

(** [t] and [base] are the provider's row and its target URL. *)
Definition _dispatch_user (p : uuid) (t : target) (base : string) (u : uuid) (token : string) :
    M (scim W) push_result :=
  s ← gets id;
  let mapping := get_one s p user_resource u in
  let deprovision :=
    r ← delete_user base (st_scim_kind t) token (default (uuid_text u) mapping);
    _handle_404_invalidation p user_resource u (bool_decide (is_Some mapping)) r in
  match get_user_with_primary_email s u with
  | None => deprovision
  | Some (email, row) =>
      if negb (_user_in_scope_for_sp s u p) then deprovision
      else
        let resource := build_user_resource u email row in
        match mapping with
        | Some remote =>
            r ← put_user base (st_scim_kind t) token remote resource;
            _handle_404_invalidation p user_resource u true r
        | None =>
            r ← push_user base (st_scim_kind t) token resource;
            after_post p user_resource u r
        end
  end.

Definition _dispatch_group (p : uuid) (t : target) (base : string) (g : uuid) (token : string) :
    M (scim W) push_result :=
  s ← gets id;
  let mapping := get_one s p group_resource g in
  match get_group_by_id (sc_dir s) g with
  | None =>
      r ← delete_group base (st_scim_kind t) token (default (uuid_text g) mapping);
      _handle_404_invalidation p group_resource g (bool_decide (is_Some mapping)) r
  | Some row =>
      let members := _group_members_for_sp s g t in
      let lookup := get_for_users s p (me_user <$> members) in
      let resource := build_group_resource g (gd_name row) members lookup in
      match mapping, GROUP_UPDATE_VERB (get_quirk_module (st_scim_kind t)) with
      | Some remote, PUT =>
          r ← put_group base (st_scim_kind t) token remote resource;
          _handle_404_invalidation p group_resource g true r
      | _, _ =>
          r ← push_group base (st_scim_kind t) token resource;
          after_post p group_resource g r
      end
  end.

Definition _dispatch_push (p : uuid) (t : target) (base : string) (ty : resource_type) (x : uuid)
    (token : string) : M (scim W) push_result :=
  match ty with
  | user_resource => _dispatch_user p t base x token
  | group_resource => _dispatch_group p t base x token
  end.

(** ** Recording the outcome *)

Definition bump_credential (credential_id : option uuid) : M (scim W) () :=
  match credential_id with Some c => update_last_used c | None => mret () end.

Definition _record_success (i : uuid) (log_id : uuid) (credential_id : option uuid) :
    M (scim W) bucket :=
  _ ← delete_entry i; _ ← mark_done log_id; _ ← bump_credential credential_id; mret succeeded.

Definition ABSENT_MARKER_PREFIX : string := "already_absent".
Definition absent_reason (r : push_result) : string :=
  let reason := default "already_absent (HTTP 404)" (nonempty (pr_reason r)) in
  if String.prefix ABSENT_MARKER_PREFIX reason then reason
  else ABSENT_MARKER_PREFIX +:+ ": " +:+ reason.
Definition _record_absent (i : uuid) (log_id : uuid) (credential_id : option uuid)
    (r : push_result) : M (scim W) bucket :=
  _ ← delete_entry i;
  _ ← update_status log_id done (Some (absent_reason r));
  _ ← bump_credential credential_id; mret absent_.

Definition _record_dead_letter (i : uuid) (log_id : uuid) (reason : string) : M (scim W) bucket :=
  _ ← queue_mark_dead_letter i (_truncate_queue_error reason);
  _ ← mark_dead_letter log_id reason; mret dead_lettered_.

(** [e] is the row as it was listed. *)
Definition _record_retry_or_dead_letter (i : uuid) (e : entry) (log_id : uuid) (now : Z)
    (reason : string) : M (scim W) bucket :=
  let next_attempt_number := S (en_attempts e) in
  if decide (_MAX_ATTEMPTS <= next_attempt_number)%nat then _record_dead_letter i log_id reason
  else
    _ ← mark_attempt_failed i (_truncate_queue_error reason)
          (now + micros (_BACKOFF_SCHEDULE next_attempt_number));
    _ ← mark_failed log_id reason; mret retried.

(** What the token resolver answers. *)
Inductive resolved := NoCredential | Usable (credential_id : uuid) (plaintext : string)
  | DecryptFailed (credential_id : uuid).

Definition record_result (i : uuid) (e : entry) (log_id : uuid) (now : Z)
    (credential_id : option uuid) (r : outcome push_result) : M (scim W) bucket :=
  match r with
  | Raise x => _record_retry_or_dead_letter i e log_id now ("worker_exception: " +:+ exn_text x)
  | Ok r =>
      match pr_status r with
      | success => _record_success i log_id credential_id
      | absent => _record_absent i log_id credential_id r
      | permanent => _record_dead_letter i log_id (_format_reason permanent r)
      | retryable => _record_retry_or_dead_letter i e log_id now (_format_reason retryable r)
      end
  end.

(** The table admits no third resource type. *)
Definition _process_entry (p : uuid) (t : target) (base : string) (i : uuid) (e : entry)
    (creds : resolved) (now : Z) : M (scim W) bucket :=
  log_id ← start_attempt p (en_type e) (en_resource e) (S (en_attempts e)) now;
  match creds with
  | DecryptFailed c =>
      _record_dead_letter i log_id ("credential_decrypt_failed: credential " +:+ uuid_text c +:+
        " ciphertext could not be decrypted (check SECRET_KEY rotation)")
  | NoCredential =>
      _record_dead_letter i log_id
        "no_credential_source: outbound SCIM credential is not configured for this SP"
  | Usable c token =>
      r ← attempt (_dispatch_push p t base (en_type e) (en_resource e) token);
      record_result i e log_id now (Some c) r
  end.

(** Failures to log or to delete are swallowed. *)
Definition _drop_orphaned_entry (i : uuid) (e : entry) (t : option target) : M (scim W) () :=
  let reason := match t with None => "scim_target_missing" | Some _ => "scim_disabled_or_no_target" end in
  started_at ← gets sc_clock;
  _ ← attempt
        (log_id ← start_attempt (en_sp e) (en_type e) (en_resource e) (en_attempts e) started_at;
         mark_dead_letter log_id reason);
  _ ← attempt (delete_entry i);
  mret ().

(** ** The drain *)

(** The [defaultdict] of lists: providers in the order they first appear. *)
Fixpoint add_to_bucket (p : uuid) (x : uuid * entry) (l : list (uuid * list (uuid * entry))) :
    list (uuid * list (uuid * entry)) :=
  match l with
  | [] => [(p, [x])]
  | (q, xs) :: l => if decide (q = p) then (q, xs ++ [x]) :: l else (q, xs) :: add_to_bucket p x l
  end.
Definition by_sp (entries : list (uuid * entry)) : list (uuid * list (uuid * entry)) :=
  foldl (λ l x, add_to_bucket (en_sp x.2) x l) [] entries.

(** The usable URL of a provider's row. *)
Definition push_target (t : option target) : option (target * string) :=
  t ← t; base ← nonempty (st_target_url t);
  if st_scim_enabled t then Some (t, base) else None.

(** One provider's entries, and the bucket of each. *)
Definition process_sp (resolver : scim W → uuid → resolved) (now : Z)
    (q : uuid * list (uuid * entry)) : M (scim W) (list bucket) :=
  let '(p, entries) := q in
  t ← gets (λ s, sc_targets s !! p);
  match push_target t with
  | None => for_map (λ ie : uuid * entry, _ ← _drop_orphaned_entry ie.1 ie.2 t; mret skipped) entries
  | Some (row, base) =>
      creds ← gets (λ s, resolver s p);
      for_map (λ ie : uuid * entry, _process_entry p row base ie.1 ie.2 creds now) entries
  end.

Definition process_pending_pushes (resolver : scim W → uuid → resolved) : M (scim W) (list bucket) :=
  now ← gets sc_clock;
  entries ← gets (λ s, list_ready_entries s _TENANT_DRAIN_LIMIT);
  results ← for_map (process_sp resolver now) (by_sp entries);
  mret (concat results).

(** ** jobs/process_scim_push_queue.py *)

Context (decrypt_token : string → option string).

Definition _resolve_outbound_token s (p : uuid) : resolved :=
  match get_active_credential_for_outbound s p with
  | Some (c, row) =>
      match cr_encrypted_plaintext row with
      | Some ciphertext =>
          match decrypt_token ciphertext with
          | Some plaintext => Usable c plaintext
          | None => DecryptFailed c
          end
      | None => NoCredential
      end
  | None => NoCredential
  end.

(** One tenant's turn; its failure is recorded and the next tenant follows. *)
Definition process_scim_push_queue : M (scim W) (outcome (list bucket)) :=
  ready ← gets (λ s, bool_decide (list_ready_entries s 1 ≠ []));
  if (ready : bool) then attempt (process_pending_pushes _resolve_outbound_token) else mret (Ok []).
End worker.
