(* ===== verification/ScimDispatch.v ===== *)
(** * From audit events to the SCIM queue

    app/services/scim/dispatch.py and the trigger table of
    app/constants/event_types.py: [log_event] hands every event it has
    written to [scim_dispatch], which enqueues the pushes the event calls
    for and never raises. *)

From stdpp Require Import gmap strings.
From S2P Require Import Prelude GroupDb GroupService AppAccess ScimDb ScimWorker.
#[local] Open Scope Z_scope.

Inductive trigger :=
  | enqueue_user_self_ | enqueue_group_self_ | enqueue_membership_change_
  | enqueue_grant_fan_out_ | enqueue_sp_tenant_fan_out_.

Definition EVENT_TYPE_SCIM_TRIGGERS : list (string * trigger) :=
  [("user_created", enqueue_user_self_); ("user_created_jit", enqueue_user_self_);
   ("scim_user_received", enqueue_user_self_); ("scim_user_updated", enqueue_user_self_);
   ("scim_user_deactivated", enqueue_user_self_); ("scim_user_reactivated", enqueue_user_self_);
   ("user_updated", enqueue_user_self_); ("user_profile_updated", enqueue_user_self_);
   ("user_attributes_synced", enqueue_user_self_); ("user_inactivated", enqueue_user_self_);
   ("user_reactivated", enqueue_user_self_); ("user_auto_inactivated", enqueue_user_self_);
   ("user_reactivated_cli", enqueue_user_self_);
   ("super_admin_self_reactivated", enqueue_user_self_); ("user_anonymized", enqueue_user_self_);
   ("user_deleted", enqueue_user_self_); ("primary_email_changed", enqueue_user_self_);
   ("email_added", enqueue_user_self_); ("email_deleted", enqueue_user_self_);
   ("email_verified", enqueue_user_self_);
   ("group_created", enqueue_group_self_); ("group_updated", enqueue_group_self_);
   ("group_deleted", enqueue_group_self_); ("scim_group_received", enqueue_group_self_);
   ("scim_group_updated", enqueue_group_self_); ("scim_group_deleted", enqueue_group_self_);
   ("group_member_added", enqueue_membership_change_);
   ("group_member_removed", enqueue_membership_change_);
   ("group_members_bulk_added", enqueue_membership_change_);
   ("group_members_bulk_removed", enqueue_membership_change_);
   ("idp_group_member_added", enqueue_membership_change_);
   ("idp_group_member_removed", enqueue_membership_change_);
   ("sp_group_assigned", enqueue_grant_fan_out_); ("sp_group_unassigned", enqueue_grant_fan_out_);
   ("sp_groups_bulk_assigned", enqueue_grant_fan_out_);
   ("sp_access_mode_updated", enqueue_sp_tenant_fan_out_)].

(** [dict.get]. *)
Fixpoint get {A} (l : list (string * A)) (k : string) : option A :=
  match l with
  | [] => None
  | (k', v) :: l => if decide (k' = k) then Some v else get l k
  end.

(** [_resolve_user_ids_from_membership_metadata] with [user_id] and
    [user_ids], [_resolve_group_ids_from_grant_metadata] with [group_id] and
    [group_ids]: a non-empty list wins over the single id. *)
Definition resolve_ids (md : list (string * meta)) (one many : string) : list uuid :=
  match get md many, get md one with
  | Some (MIds (x :: l)), _ => x :: l
  | _, Some (MId x) => [x]
  | _, _ => []
  end.

Section triggers.
Context {W : Type} `{ScimIds W}.
Implicit Types s : scim W.

(** ** services/scim/queue.py *)
Definition enqueue_user (p u : uuid) : M (scim W) () := upsert_entry p user_resource u.
Definition enqueue_group (p g : uuid) : M (scim W) () := upsert_entry p group_resource g.
Definition enqueue_users_bulk (p : uuid) (us : list uuid) : M (scim W) nat := bulk_upsert_users p us.

(** [try: .. except Exception: log]. *)
Definition best_effort {A} (m : M (scim W) A) : M (scim W) () := _ ← attempt m; mret ().

(** ** services/scim/dispatch.py *)

Definition enqueue_user_self (x : uuid) (md : list (string * meta)) : M (scim W) () :=
  match get md "scim_pre_resolved_sps" with
  | Some (MIds ps) => for_each (λ p, best_effort (enqueue_user p x)) ps
  | _ =>
      ps ← gets (λ s, scim_sps_granting_user s x);
      for_each (λ kv : uuid * target, best_effort (enqueue_user kv.1 x)) ps
  end.

Definition enqueue_group_self (g : uuid) (md : list (string * meta)) : M (scim W) () :=
  ps ← gets (λ s, scim_sps_granting_via_group s g);
  for_each (λ kv : uuid * target, best_effort (enqueue_group kv.1 g)) ps.

Definition enqueue_membership_change (g : uuid) (md : list (string * meta)) : M (scim W) () :=
  match resolve_ids md "user_id" "user_ids" with
  | [] => mret ()
  | us =>
      ps ← gets (λ s, scim_sps_granting_via_group s g);
      for_each (λ kv : uuid * target,
        _ ← for_each (λ u, best_effort (enqueue_user kv.1 u)) us;
        when (bool_decide (st_membership_mode kv.2 = direct)) (best_effort (enqueue_group kv.1 g))) ps
  end.

Definition enqueue_grant_fan_out (p : uuid) (md : list (string * meta)) : M (scim W) () :=
  match resolve_ids md "group_id" "group_ids" with
  | [] => mret ()
  | gs =>
      enabled ← gets (λ s, is_scim_enabled_sp s p);
      when enabled
        (for_each (λ g,
           us ← gets (λ s, transitive_user_ids_for_group s g);
           _ ← for_each (λ u, best_effort (enqueue_user p u)) us;
           best_effort (enqueue_group p g)) gs)
  end.

Definition enqueue_sp_tenant_fan_out (p : uuid) (md : list (string * meta)) : M (scim W) () :=
  match get md "available_to_all" with
  | Some (MBool new) =>
      if bool_decide (get md "previous_available_to_all" = Some (MBool new)) then mret ()
      else
        enabled ← gets (λ s, is_scim_enabled_sp s p);
        us ← gets tenant_user_ids;
        when (enabled && bool_decide (us ≠ [])) (best_effort (enqueue_users_bulk p us))
  | _ => mret ()
  end.

Definition run_trigger (t : trigger) (x : uuid) (md : list (string * meta)) : M (scim W) () :=
  match t with
  | enqueue_user_self_ => enqueue_user_self x md
  | enqueue_group_self_ => enqueue_group_self x md
  | enqueue_membership_change_ => enqueue_membership_change x md
  | enqueue_grant_fan_out_ => enqueue_grant_fan_out x md
  | enqueue_sp_tenant_fan_out_ => enqueue_sp_tenant_fan_out x md
  end.

Definition scim_dispatch (e : event) : M (scim W) () :=
  match get EVENT_TYPE_SCIM_TRIGGERS (ev_event_type e) with
  | None => mret ()
  | Some t => best_effort (run_trigger t (ev_artifact_id e) (ev_metadata e))
  end.

(** A call of the group code whose events are dispatched.  The call's events
    follow its last write (see the calls it is applied to), so they are
    dispatched in the state the call leaves. *)
Definition dispatching {A} (m : M db A) : M (scim W) A :=
  λ s, let '(r, d) := m (sc_dir s) in
       let written := drop (length (events (sc_dir s))) (events d) in
       (r, (for_each scim_dispatch written (set_dir (λ _, d) s)).2).
End triggers.
