(* ===== verification/ScimProofs.v ===== *)
(** * What a drain of the push queue does

    A drain takes the ready entries one after another.  The exchanges with
    the receiver it has for an entry decide the entry's outcome: it is gone,
    dead-lettered, or due again after its back-off.  The receivers are assumed
    to answer with texts that the error columns hold; ScimFindings shows what
    one that does not can do. *)

From stdpp Require Import gmap strings pretty.
From S2P Require Import Prelude GroupDb AppAccess ScimDb ScimClient ScimWorker.
#[local] Open Scope Z_scope.

(** The ids drawn for queue and log rows are unused. *)
Class ScimIdsFresh (W : Type) `{ScimIds W} := {
  fresh_log_id (s : scim W) : sc_log s !! scim_id s = None;
  fresh_queue_id (s : scim W) : sc_queue s !! scim_id s = None;
}.

(** ** Texts that the error columns hold *)

Definition char_ok (c : Ascii.ascii) : Prop := negb (Ascii.nat_of_ascii c =? 0)%nat = true.
Lemma no_nul_Forall s : no_nul s = true ↔ Forall char_ok (chars s).
Proof. unfold no_nul. rewrite forallb_forall, Forall_forall. by setoid_rewrite list_elem_of_In. Qed.

Lemma no_nul_pretty_go x s : no_nul s = true → no_nul (pretty_N_go x s) = true.
Proof.
  revert s. induction (N.lt_wf_0 x) as [x _ IH]; intros s Hs.
  destruct (decide (0 < x)%N) as [Hx|Hx].
  - rewrite pretty_N_go_step by done. apply IH; [apply N.div_lt; lia|].
    cbn [no_nul chars String.list_ascii_of_string forallb]. apply andb_true_iff. split; [|exact Hs].
    unfold pretty_N_char. by repeat case_match.
  - replace x with 0%N by lia. by rewrite pretty_N_go_0.
Qed.
Lemma no_nul_pretty (z : Z) : no_nul (pretty z) = true.
Proof.
  destruct z as [|p|p]; [done|by apply (no_nul_pretty_go (Npos p))|].
  change (pretty (Zneg p)) with ("-" +:+ pretty_N_go (Npos p) "").
  by rewrite no_nul_app, no_nul_pretty_go.
Qed.

Lemma eat_word_prefix w l rest : eat_word w l = Some rest → ∃ pre, l = pre ++ rest ∧ length pre = length w.
Proof.
  revert l. induction w as [|c w IH]; intros l; simpl; [intros [= ->]; by exists []|].
  destruct l as [|d l]; [done|]. case_decide; [|done]. intros (pre & -> & Hl)%IH.
  exists (d :: pre). simpl. auto.
Qed.
Lemma drop_spaces_prefix l : ∃ pre, l = pre ++ drop_spaces l.
Proof.
  induction l as [|c l [pre IH]]; simpl; [by exists []|].
  destruct (is_space c); [exists (c :: pre); simpl; by rewrite <- IH|by exists []].
Qed.
Lemma eat_nonspace_prefix l : ∃ pre, l = pre ++ eat_nonspace l.
Proof.
  induction l as [|c l [pre IH]]; simpl; [by exists []|].
  destruct (is_space c); [by exists []|exists (c :: pre); simpl; by rewrite <- IH].
Qed.
Lemma bare_bearer_prefix l rest : bare_bearer l = Some rest → ∃ pre, l = pre ++ rest ∧ (8 <= length pre)%nat.
Proof.
  unfold bare_bearer. intros (l1 & (p1 & -> & H1)%eat_word_prefix & (l2 & H2 & H3)%bind_Some)%bind_Some.
  change (length (chars "Bearer")) with 6%nat in H1.
  destruct l1 as [|c l1]; [done|]. simpl in H2. destruct (is_space c); simplify_eq.
  destruct (drop_spaces_prefix l1) as [p2 E2]. destruct (drop_spaces l1) as [|d l2]; [done|].
  simpl in H3. destruct (is_space d); simplify_eq. destruct (eat_nonspace_prefix l2) as [p3 E3].
  exists (p1 ++ c :: p2 ++ d :: p3). rewrite E3 at 1. split.
  - by rewrite <- !app_assoc; simpl; rewrite <- !app_assoc.
  - rewrite !length_app. simpl. rewrite length_app. simpl. lia.
Qed.
Lemma auth_header_prefix l rest : auth_header l = Some rest → ∃ pre, l = pre ++ rest ∧ (11 <= length pre)%nat.
Proof.
  unfold auth_header. intros (l1 & (p1 & -> & H1)%eat_word_prefix & (l2 & H2 & H3)%bind_Some)%bind_Some.
  change (length (chars "Authorization")) with 13%nat in H1.
  destruct (drop_spaces_prefix l1) as [q1 E1]. apply eat_word_prefix in H2 as (p2 & E2 & _).
  destruct (drop_spaces_prefix l2) as [q2 E3]. apply bare_bearer_prefix in H3 as (p3 & E4 & _).
  exists (p1 ++ q1 ++ p2 ++ q2 ++ p3). rewrite E1, E2, E3, E4, <- !app_assoc.
  split; [done|]. rewrite !length_app. lia.
Qed.

(** [re.sub] brings in no character of its own, and replaces a match of [k]
    characters or more by at most [3 k]. *)
Lemma substitute_bounds pattern by_ k fuel l :
  (∀ l rest, pattern l = Some rest → ∃ pre, l = pre ++ rest ∧ (k <= length pre)%nat) →
  Forall char_ok by_ → (length by_ <= 3 * k)%nat → Forall char_ok l →
  Forall char_ok (substitute fuel pattern by_ l) ∧
  (length (substitute fuel pattern by_ l) <= 3 * length l)%nat.
Proof.
  intros Hpat Hby Hk. revert l. induction fuel as [|fuel IH]; intros l Hl; [simpl; by split; [|lia]|].
  destruct l as [|c l]; [split; [done|simpl; lia]|]. cbn [substitute].
  destruct (pattern (c :: l)) as [rest|] eqn:E.
  - destruct (Hpat _ _ E) as (pre & E1 & Hpre). rewrite E1 in *. apply Forall_app in Hl as [_ Hr].
    destruct (IH rest Hr) as [H1 H2]. split; [by apply Forall_app|]. rewrite !length_app. lia.
  - apply Forall_cons in Hl as [Hc Hl]. destruct (IH l Hl). split; [by constructor|]. simpl. lia.
Qed.
Lemma length_of_chars (s : string) : length (chars s) = String.length s.
Proof. unfold chars. induction s as [|c s IH]; simpl; [done|by rewrite <- IH]. Qed.
Lemma re_sub_bounds pattern by_ k s :
  (∀ l rest, pattern l = Some rest → ∃ pre, l = pre ++ rest ∧ (k <= length pre)%nat) →
  no_nul by_ = true → (String.length by_ <= 3 * k)%nat → no_nul s = true →
  no_nul (re_sub pattern by_ s) = true ∧ (String.length (re_sub pattern by_ s) <= 3 * String.length s)%nat.
Proof.
  rewrite !no_nul_Forall. intros Hp Hb Hk Hs. unfold re_sub.
  destruct (substitute_bounds pattern (chars by_) k (String.length s) (chars s)) as [H1 H2]; [done..|by rewrite length_of_chars|done|].
  rewrite <- (length_of_chars (String.string_of_list_ascii _)).
  assert (∀ l, chars (String.string_of_list_ascii l) = l) as -> by apply String.list_ascii_of_string_of_list_ascii.
  split; [done|]. by rewrite (length_of_chars s) in H2.
Qed.
Lemma redact_bounds s : no_nul s = true →
  no_nul (redact_bearer s) = true ∧ (String.length (redact_bearer s) <= 9 * String.length s)%nat.
Proof.
  intros Hs. unfold redact_bearer.
  destruct (re_sub_bounds auth_header "Authorization: Bearer [REDACTED]" 11 s) as [H1 L1];
    [apply auth_header_prefix|done|simpl; lia|done|].
  destruct (re_sub_bounds bare_bearer "Bearer [REDACTED]" 8 (re_sub auth_header "Authorization: Bearer [REDACTED]" s)) as [H2 L2];
    [apply bare_bearer_prefix|done|simpl; lia|done|]. split; [done|lia].
Qed.

Lemma take_points_bounds n l : Forall char_ok l →
  Forall char_ok (take_points n l) ∧
  (length (filter (λ c, is_cont (Z.of_nat (Ascii.nat_of_ascii c)) = false) (take_points n l)) <= n)%nat.
Proof.
  revert n. induction l as [|c l IH]; intros n Hl; [split; [done|simpl; lia]|]. cbn [take_points].
  apply Forall_cons in Hl as [Hc Hl]. destruct (is_cont _) eqn:E.
  - destruct (IH n Hl). rewrite filter_cons_False by congruence. by split; [constructor|].
  - destruct n as [|n]; [split; [done|simpl; lia]|]. destruct (IH n Hl).
    rewrite filter_cons_True by done. split; [by constructor|]. simpl. lia.
Qed.
(** What is recorded of a failed attempt is cut to what the columns hold. *)
Lemma truncated_storable e : no_nul e = true →
  no_nul (_truncate_queue_error e) = true ∧ py_len (_truncate_queue_error e) <= 4000.
Proof.
  intros He. unfold _truncate_queue_error, _MAX_QUEUE_ERROR_LENGTH.
  destruct (_ <=? _) eqn:E; [apply Z.leb_le in E; split; [done|lia]|].
  apply no_nul_Forall in He. rewrite no_nul_app, py_len_app. unfold prefix_text.
  destruct (take_points_bounds (Z.to_nat (3900 - 3)) (chars e) He) as [H1 H2].
  assert (∀ l, chars (String.string_of_list_ascii l) = l) as Hc
    by apply String.list_ascii_of_string_of_list_ascii.
  split.
  - apply andb_true_iff. split; [|done]. apply no_nul_Forall. by rewrite Hc.
  - unfold py_len at 1. rewrite Hc. change (py_len "...") with 3. lia.
Qed.

(** A text that the error columns hold without being cut first. *)
Definition storable (e : string) : Prop := no_nul e = true ∧ py_len e <= 4000.
Lemma run_storable_error {S} check found error (s : S) :
  match error with Some e => storable e | None => True end →
  storable_error check found error s = (Ok (), s).
Proof.
  intros He. unfold storable_error. run. unfold option_list, longer_than. destruct error as [e|]; simpl.
  - destruct He as [-> Hl]. simpl. rewrite bool_decide_eq_false_2 by lia. by rewrite andb_false_r.
  - by rewrite andb_false_r.
Qed.

(** ** The exchanges with a receiver and what they decide *)

(** The receivers answered these requests one after another. *)
Fixpoint exchanged {W} `{Receiver W} (xs : list (http_request * reply)) (w w' : W) : Prop :=
  match xs with
  | [] => w' = w
  | (rq, a) :: xs => ∃ w1, respond rq w = (a, w1) ∧ exchanged xs w1 w'
  end.

(** Their texts: [scimType] is one of the keywords of RFC 7644, and nothing
    holds the character 0, which no column holds. *)
Definition storable_reply (a : reply) : Prop :=
  match a with
  | Answer r =>
      match hr_scim_type r with Some ty => no_nul ty = true ∧ (String.length ty <= 255)%nat | None => True end ∧
      match hr_detail r with Some d => no_nul d = true | None => True end ∧
      match hr_retry_after r with Some d => no_nul d = true | None => True end
  | RequestError e | OtherError e => no_nul e = true
  end.
Class StorableAnswers (W : Type) `{Receiver W} :=
  storable_answer (rq : http_request) (w : W) : storable_reply (respond rq w).1.

(** What an answer means: too many requests, the receiver's own failure,
    GitHub's spent quota and an unknown id of a replacement pass; a deletion of
    what is not there is done; any other refusal is final. *)
Definition verdict (kind : option string) (v : verb) (b : http_response) : push_status :=
  let n := hr_status_code b in
  if (200 <=? n) && (n <? 300) then success
  else if (n =? 429) || ((500 <=? n) && (n <? 600)) || ((n =? 404) && bool_decide (v = PUT)) ||
          bool_decide (kind = Some "github" ∧ n = 403 ∧ hr_ratelimit_remaining b = Some "0")
  then retryable
  else if (n =? 404) && bool_decide (v = DELETE) then absent
  else permanent.

Definition parked (e : entry) (o : option entry) : Prop :=
  ∃ e', o = Some e' ∧ en_key e' = en_key e ∧ is_Some (en_dead_letter_at e').
(** One attempt more, and due after 1, 5, 30 or 120 minutes; the fifth
    failure is the last. *)
Definition postponed (now : Z) (e : entry) (b : bucket) (o : option entry) : Prop :=
  if decide (en_attempts e < 4)%nat then
    b = retried ∧ ∃ e', o = Some e' ∧ en_key e' = en_key e ∧
      en_dead_letter_at e' = en_dead_letter_at e ∧ en_attempts e' = S (en_attempts e) ∧
      en_next_attempt_at e' = Some (now + 60000000 * nth (en_attempts e) [1; 5; 30; 120] 0)
  else b = dead_lettered_ ∧ parked e o.

(** What becomes of an entry, listed as [e] by a drain that began at [now],
    after the exchanges [xs]. *)
Definition decided (now : Z) (kind : option string) (e : entry)
    (xs : list (http_request * reply)) (b : bucket) (o : option entry) : Prop :=
  ∃ rq a, last xs = Some (rq, a) ∧ (length xs <= 3)%nat ∧
  match a with
  | Answer r =>
      match verdict kind (hq_verb rq) r with
      | success => b = succeeded ∧ o = None
      | absent => b = absent_ ∧ o = None
      | permanent => b = dead_lettered_ ∧ parked e o
      | retryable => postponed now e b o
      end
  | RequestError _ | OtherError _ => postponed now e b o
  end.
Definition turn_outcome (now : Z) (t : option target) (c : resolved) (e : entry)
    (xs : list (http_request * reply)) (b : bucket) (o : option entry) : Prop :=
  match t with
  | Some (mk_target true (Some (String.String _ _)) kind _) =>
      match c with
      | Usable _ _ => decided now kind e xs b o
      | NoCredential | DecryptFailed _ => xs = [] ∧ b = dead_lettered_ ∧ parked e o
      end
  | _ => xs = [] ∧ b = skipped ∧ o = None
  end.

(** The code's reading of an answer. *)
Definition reading (q : quirk) (rq : http_request) (a : reply) : outcome push_result :=
  match a with
  | Answer r => Ok (if is_2xx r then _success r else _classify_response r q (hq_verb rq))
  | RequestError e => Ok (mk_push_result retryable None (Some ("network_error: " +:+ e)) None)
  | OtherError e => Raise (PythonError e)
  end.

Definition reason_ok (r : push_result) : Prop :=
  match pr_reason r with
  | Some e => no_nul e = true ∧ (pr_status r = absent → py_len e <= 3900)
  | None => True
  end.

Lemma generic_reading r v d reason : generic_interpret_error r v = (d, reason) →
  no_nul reason = true ∧ (d = absent → (String.length reason <= 40)%nat).
Proof.
  unfold generic_interpret_error, http. repeat case_match; intros [= <- <-]; (split; [|intros; done || (cbn; lia)]);
    rewrite ?no_nul_app, ?no_nul_pretty; done.
Qed.
Lemma quirk_reading kind r v d reason : storable_reply (Answer r) →
  interpret_error (get_quirk_module kind) r v = (d, reason) →
  no_nul reason = true ∧ (d = absent → (String.length reason <= 400)%nat).
Proof.
  intros (Hty & Hde & Hra) Hi.
  assert (∀ d reason, generic_interpret_error r v = (d, reason) →
    no_nul reason = true ∧ (d = absent → (String.length reason <= 400)%nat)) as Hg.
  { intros d' e' [H1 H2]%generic_reading. split; [done|]. intros Hd. specialize (H2 Hd). lia. }
  assert (∀ q, q = generic ∨ q = slack ∨ q = github ∨ q = atlassian ∨ q = gitlab →
    interpret_error q r v = (d, reason) → no_nul reason = true ∧ (d = absent → (String.length reason <= 400)%nat)) as Hq.
  { clear Hi. intros q [->|[->|[->|[->| ->]]]]; simpl; [apply Hg| | |apply Hg|].
    - unfold slack_interpret_error. destruct (_ =? 429); [|apply Hg].
      destruct (hr_retry_after r) as [[|c after]|]; simpl; intros [= <- <-]; try done.
      split; [|done]. rewrite !no_nul_app, Hra. done.
    - unfold github_interpret_error. destruct (_ && _); [by intros [= <- <-]|].
      destruct (_ && _); [by intros [= <- <-]|].
      destruct (generic_interpret_error r v) as [d' e'] eqn:E. pose proof (generic_reading _ _ _ _ E) as [H1 H2].
      destruct (hr_scim_type r) as [[|c ty]|]; simpl; [intros [= <- <-]; by apply Hg| |intros [= <- <-]; by apply Hg].
      destruct (contains _ e'); intros [= <- <-]; [by apply Hg|]. destruct Hty as [Hty Hl]. split.
      + by rewrite !no_nul_app, H1, Hty.
      + intros Hd. specialize (H2 Hd). rewrite <- !length_of_chars, !chars_app, !length_app, !length_of_chars in *.
        change (String.length " scimType=") with 10%nat. lia.
    - unfold gitlab_interpret_error. destruct (_ =? 502); [by intros [= <- <-]|].
      destruct (hr_detail r) as [[|c de]|]; simpl; [apply Hg| |apply Hg].
      destruct (_ && _); [|apply Hg]. intros [= <- <-]. split; [|done]. by rewrite !no_nul_app, Hde. }
  revert Hi. apply Hq. unfold get_quirk_module. repeat case_match; auto.
Qed.

(** The status the vendors' readings give, before a 404 on a replacement is
    turned into a retry. *)
Lemma generic_verdict r v : is_2xx r = false →
  (generic_interpret_error r v).1 =
  if (hr_status_code r =? 404) && bool_decide (v = PUT) then permanent else verdict None v r.
Proof.
  intros H2. unfold verdict, generic_interpret_error. unfold is_2xx in H2. rewrite H2.
  rewrite (bool_decide_eq_false_2 (None = Some "github" ∧ _)) by (by intros [? _]).
  destruct (hr_status_code r =? 429) eqn:E1; [apply Z.eqb_eq in E1; by rewrite E1|].
  destruct ((500 <=? hr_status_code r) && (hr_status_code r <? 600)) eqn:E2; simpl.
  { apply andb_true_iff in E2 as [E2%Z.leb_le _]. by rewrite (proj2 (Z.eqb_neq _ 404)) by lia. }
  destruct (hr_status_code r =? 404) eqn:E3; simpl; [|by repeat case_match].
  apply Z.eqb_eq in E3. rewrite E3. by destruct v.
Qed.
Lemma verdict_of_kind kind v r : (kind = Some "github" → hr_status_code r = 403 → hr_ratelimit_remaining r = Some "0" → False) →
  verdict kind v r = verdict None v r.
Proof.
  intros Hk. unfold verdict. rewrite (bool_decide_eq_false_2 (kind = Some "github" ∧ _)) by naive_solver.
  by rewrite (bool_decide_eq_false_2 (None = Some "github" ∧ _)) by (by intros [? _]).
Qed.
Lemma quirk_verdict kind r v : is_2xx r = false →
  (interpret_error (get_quirk_module kind) r v).1 =
  if (hr_status_code r =? 404) && bool_decide (v = PUT) then permanent else verdict kind v r.
Proof.
  intros H2. pose proof (generic_verdict r v H2) as Hg.
  destruct (decide (kind = Some "github")) as [->|Hk].
  - simpl. unfold github_interpret_error.
    destruct (_ && bool_decide (hr_ratelimit_remaining r = _)) eqn:E1.
    { apply andb_true_iff in E1 as [E1%Z.eqb_eq E2%bool_decide_eq_true]. unfold verdict. unfold is_2xx in H2.
      rewrite H2, E1. rewrite (bool_decide_eq_true_2 (Some "github" = _ ∧ _)) by done. done. }
    rewrite <- (verdict_of_kind (Some "github")) in Hg.
    2: { intros _ Hn Hr. by rewrite Hn, Hr in E1. }
    destruct (_ && bool_decide (hr_scim_type r = _)) eqn:E2.
    { apply andb_true_iff in E2 as [E2%Z.eqb_eq _]. rewrite <- Hg. unfold generic_interpret_error. by rewrite E2. }
    rewrite <- Hg. destruct (generic_interpret_error r v). by destruct (nonempty _).
  - rewrite verdict_of_kind by done. rewrite <- Hg. unfold get_quirk_module.
    assert ((slack_interpret_error r v).1 = (generic_interpret_error r v).1) as Hs.
    { unfold slack_interpret_error. destruct (hr_status_code r =? 429) eqn:E; [|done].
      unfold generic_interpret_error. rewrite E. by destruct (nonempty _). }
    assert ((gitlab_interpret_error r v).1 = (generic_interpret_error r v).1) as Hl.
    { unfold gitlab_interpret_error. destruct (hr_status_code r =? 502) eqn:E.
      { apply Z.eqb_eq in E. unfold generic_interpret_error. by rewrite E. }
      destruct (nonempty _); [|done]. destruct (hr_status_code r =? 403) eqn:E3; [|done]. simpl.
      destruct (contains _ _); [|done]. apply Z.eqb_eq in E3. unfold generic_interpret_error. by rewrite E3. }
    repeat case_match; first [reflexivity|exact Hs|exact Hl|by destruct Hk].
Qed.

Lemma classified kind r v : storable_reply (Answer r) →
  let p := if is_2xx r then _success r else _classify_response r (get_quirk_module kind) v in
  pr_http_status p = Some (hr_status_code r) ∧ reason_ok p ∧
  pr_status p = if (hr_status_code r =? 404) && bool_decide (v = PUT) then permanent else verdict kind v r.
Proof.
  intros Hr. simpl. destruct (is_2xx r) eqn:E2.
  - split; [done|]. split; [done|]. unfold verdict. unfold is_2xx in E2. rewrite E2.
    apply andb_true_iff in E2 as [_ E2%Z.ltb_lt]. by rewrite (proj2 (Z.eqb_neq _ 404)) by lia.
  - pose proof (quirk_verdict kind r v E2) as Hv. unfold _classify_response.
    destruct (interpret_error _ r v) as [d reason] eqn:E. destruct (quirk_reading _ _ _ _ _ Hr E) as [H1 H3].
    simpl in *. destruct (redact_bounds reason H1) as [H4 H5]. split; [done|]. split.
    + unfold reason_ok. simpl. split; [done|]. intros Hd. assert (d = absent) as -> by (by destruct d).
      specialize (H3 eq_refl). pose proof (py_len_le (redact_bearer reason)). lia.
    + rewrite <- Hv. destruct d; try done. exfalso. revert Hv. unfold verdict. unfold is_2xx in E2. rewrite E2.
      repeat case_match; done.
Qed.

Section drain.
Context {W : Type} `{ScimIdsFresh W} `{StorableAnswers W} `{UuidText} `{Collation}.
Implicit Types s : scim W.

(** ** Calls that talk to the receiver at most *)

Lemma exchanged_app xs ys (w w1 w2 : W) : exchanged xs w w1 → exchanged ys w1 w2 → exchanged (xs ++ ys) w w2.
Proof.
  revert w. induction xs as [|[rq a] xs IH]; intros w; simpl; [by intros ->|].
  intros (v & Hv & Hx) Hy. exists v. eauto.
Qed.

(** The exchanges [xs], and neither the queue nor the providers' rows. *)
Definition talked (xs : list (http_request * reply)) s s' : Prop :=
  exchanged xs (sc_world s) (sc_world s') ∧ sc_queue s' = sc_queue s ∧ sc_targets s' = sc_targets s.
Lemma talked_app xs ys s s1 s2 : talked xs s s1 → talked ys s1 s2 → talked (xs ++ ys) s s2.
Proof. intros (?&?&?) (?&?&?). split_and!; [by eapply exchanged_app|congruence..]. Qed.

Lemma talked_storable xs rq a s s' : talked (xs ++ [(rq, a)]) s s' → storable_reply a.
Proof.
  intros [Hx _]. revert Hx. generalize (sc_world s). induction xs as [|[rq' b] xs IH]; intros w; simpl.
  - intros (w1 & Hr & _). pose proof (storable_answer rq w) as Ha. by rewrite Hr in Ha.
  - intros (w1 & _ & Hx). by eapply IH.
Qed.

(** Calls without an exchange. *)
Definition calm s0 s : Prop := talked [] s0 s.
Lemma keeps_calm_modify s0 f :
  (∀ s, talked [] s (f s)) → keeps (calm s0) (modify f : M (scim W) ()).
Proof. intros Hf s Hs. by apply (talked_app [] [] s0 s), Hf. Qed.
Lemma keeps_calm_update {A} s0 (f : scim W → A * scim W) :
  (∀ s, talked [] s (f s).2) → keeps (calm s0) (update f).
Proof. intros Hf s Hs. rewrite run_update. by apply (talked_app [] [] s0 s), Hf. Qed.
#[local] Hint Extern 4 (keeps (calm _) (modify _)) => apply keeps_calm_modify; done : keeps.
Lemma keeps_calm_in_dir {A} s0 (m : M db A) : keeps (calm s0) (in_dir (W := W) m).
Proof. intros s Hs. unfold in_dir. by destruct (m (sc_dir s)). Qed.
Lemma keeps_calm_upsert_remote s0 p ty x r : keeps (calm s0) (upsert_remote_id (W := W) p ty x r).
Proof. by apply keeps_calm_update. Qed.
Lemma keeps_calm_delete_remote s0 p ty x : keeps (calm s0) (delete_remote_id (W := W) p ty x).
Proof. by apply keeps_calm_update. Qed.
#[local] Hint Resolve keeps_calm_in_dir keeps_calm_upsert_remote keeps_calm_delete_remote : keeps.
Lemma keeps_calm_invalidate s0 p ty x why : keeps (calm s0) (invalidate_mapping (W := W) p ty x why).
Proof. unfold invalidate_mapping, mapping_event. keeps_auto. Qed.
Lemma keeps_calm_after_post s0 p ty x r : keeps (calm s0) (after_post (W := W) p ty x r).
Proof. unfold after_post, record_mapping, mapping_event. keeps_auto. Qed.
Lemma run_calm {A} (m : M (scim W) A) s r s' : (∀ s0, keeps (calm s0) m) → m s = (r, s') → talked [] s s'.
Proof. intros Hm Hr. assert (calm s (m s).2) as Hc by (by apply Hm). by rewrite Hr in Hc. Qed.

(** ** The transport *)

Lemma run_send_attempts l q rq lst s r s' : l ≠ [] → send_attempts l q rq lst s = (r, s') →
  ∃ xs a, talked (xs ++ [(rq, a)]) s s' ∧ (length xs < length l)%nat ∧ r = reading q rq a ∧
    sc_dir s' = sc_dir s ∧ sc_people s' = sc_people s ∧ sc_remote_ids s' = sc_remote_ids s.
Proof.
  revert lst s. induction l as [|n l IH]; intros lst s Hl; [done|]. cbn [send_attempts]. rewrite run_bind.
  set (s1 := if bool_decide (1 < n)%nat then set_clock (λ c, c + micros (_BACKOFF_SECONDS n)) s else s).
  assert (when (bool_decide (1 < n)%nat) (sleep (_BACKOFF_SECONDS n)) s = (Ok (), s1)) as ->
    by (unfold s1, when, sleep; by destruct (bool_decide _)).
  assert (∀ f, talked [] s (set_clock f s)) as Hc by done.
  assert (talked [] s s1 ∧ sc_dir s1 = sc_dir s ∧ sc_people s1 = sc_people s ∧ sc_remote_ids s1 = sc_remote_ids s)
    as (Ht & Hd & Hp & Hm) by (unfold s1; by destruct (bool_decide _)). clearbody s1.
  rewrite run_bind. unfold exchange. rewrite run_update.
  destruct (respond rq (sc_world s1)) as [a w] eqn:Er. simpl.
  assert (talked [(rq, a)] s (set_world w s1)) as Ht1.
  { apply (talked_app [] [(rq, a)] s s1); [done|]. split_and!; [|done..]. by exists w. }
  assert (∀ o, reading q rq a = o → (o, set_world w s1) = (r, s') →
    ∃ xs b, talked (xs ++ [(rq, b)]) s s' ∧ (length xs < S (length l))%nat ∧ r = reading q rq b ∧
      sc_dir s' = sc_dir s ∧ sc_people s' = sc_people s ∧ sc_remote_ids s' = sc_remote_ids s) as Hend.
  { intros o Ho [= <- <-]. exists [], a. simpl. split_and!; [done|lia|done..]. }
  assert (∀ r0, reading q rq a = Ok r0 → send_attempts l q rq r0 (set_world w s1) = (r, s') →
    ∃ xs b, talked (xs ++ [(rq, b)]) s s' ∧ (length xs < S (length l))%nat ∧ r = reading q rq b ∧
      sc_dir s' = sc_dir s ∧ sc_people s' = sc_people s ∧ sc_remote_ids s' = sc_remote_ids s) as Hmore.
  { intros r0 H0' Hr. destruct l as [|n' l']; [by eapply Hend|].
    apply IH in Hr as (xs & b & Hx & Hlen & Hb & Hd' & Hp' & Hm'); [|done].
    exists ((rq, a) :: xs), b. split_and!; [|simpl in *; lia|done|simpl in *; congruence..].
    by apply (talked_app [(rq, a)] (xs ++ [(rq, b)]) s (set_world w s1)). }
  destruct a as [b|e|e]; [|by apply Hmore|by apply Hend]. unfold reading in *.
  destruct (is_2xx b) eqn:E2; [by apply Hend|]. case_decide; [by apply Hend|by apply Hmore].
Qed.
Lemma run_send q rq s r s' : _send_with_retry q rq s = (r, s') →
  ∃ xs a, talked (xs ++ [(rq, a)]) s s' ∧ (length xs < 3)%nat ∧ r = reading q rq a ∧
    sc_dir s' = sc_dir s ∧ sc_people s' = sc_people s ∧ sc_remote_ids s' = sc_remote_ids s.
Proof. by apply run_send_attempts. Qed.

(** ** One push *)

(** What a push returns is what its last answer means. *)
Definition answered (kind : option string) (rq : http_request) (a : reply) (r : outcome push_result) : Prop :=
  match a with
  | OtherError e => r = Raise (PythonError e) ∧ no_nul e = true
  | RequestError _ => ∃ p, r = Ok p ∧ pr_status p = retryable ∧ reason_ok p
  | Answer b => ∃ p, r = Ok p ∧ pr_status p = verdict kind (hq_verb rq) b ∧ reason_ok p
  end.
Definition pushed (kind : option string) (r : outcome push_result) s s' : Prop :=
  ∃ xs rq a, talked (xs ++ [(rq, a)]) s s' ∧ (length xs < 3)%nat ∧ answered kind rq a r.

Lemma run_send_post kind rq p ty x s r s' : hq_verb rq = POST →
  (r0 ← _send_with_retry (get_quirk_module kind) rq; after_post p ty x r0) s = (r, s') → pushed kind r s s'.
Proof.
  intros Hv. rewrite run_bind. destruct (_send_with_retry _ rq s) as [r0 s1] eqn:E.
  apply run_send in E as (xs & a & Ht & Hl & -> & _). pose proof (talked_storable _ _ _ _ _ Ht) as Ha.
  assert (∀ r0, (after_post p ty x r0 s1).1 = Ok r0) as Hp.
  { intros r0. unfold after_post. destruct (pr_status r0); try done. destruct (nonempty _); [|done].
    unfold record_mapping. destruct (_ || _); [done|]. rewrite run_bind. unfold upsert_remote_id.
    rewrite run_bind, run_update. by destruct (bool_decide _). }
  intros Hr. assert (∃ r1, (reading (get_quirk_module kind) rq a = r1) ∧ r = r1 ∧ talked [] s1 s') as (r1 & E1 & -> & Ht1).
  { destruct (reading _ rq a) as [r0|e] eqn:Er; [|injection Hr as <- <-; by eexists].
    assert (talked [] s1 s') by (eapply run_calm, Hr; intros; apply keeps_calm_after_post).
    specialize (Hp r0). rewrite Hr in Hp. simpl in Hp. subst r. by eexists. }
  exists xs, rq, a. split; [|split; [done|]].
  { replace (xs ++ [(rq, a)]) with ((xs ++ [(rq, a)]) ++ []) by apply app_nil_r. by eapply talked_app. }
  rewrite <- E1. destruct a as [b|e|e]; simpl; [|eexists; split_and!; [done..|]|done].
  - destruct (classified kind b (hq_verb rq) Ha) as (_ & H5 & H6). eexists. split; [done|]. split; [|exact H5].
    rewrite H6, Hv. by rewrite andb_false_r.
  - unfold reason_ok. simpl. by rewrite no_nul_app, Ha.
Qed.

Definition gone_there : push_result :=
  mk_push_result retryable (Some 404) (Some "remote_id_invalidated (HTTP 404; next attempt will POST)") None.
Lemma run_404 p ty x known r s : ∃ s', talked [] s s' ∧
  _handle_404_invalidation p ty x known r s =
    (Ok (if known && bool_decide (pr_http_status r = Some 404) && bool_decide (pr_status r = permanent)
         then gone_there else r), s') ∧
  sc_world s' = sc_world s ∧ (pr_http_status r ≠ Some 404 → s' = s).
Proof.
  unfold _handle_404_invalidation. destruct known; simpl; [|by exists s].
  destruct (decide (pr_http_status r = Some 404)) as [E|E].
  - rewrite (bool_decide_eq_false_2 (_ ≠ _)) by auto. rewrite (bool_decide_eq_true_2 (_ = _)) by done. simpl.
    rewrite run_bind. destruct (invalidate_mapping p ty x "remote_404" s) as [r1 s1] eqn:Ei.
    assert (is_ok r1 = true) as Hok.
    { revert Ei. unfold invalidate_mapping, mapping_event, delete_remote_id. rewrite run_bind, run_update.
      destruct (decide (is_Some _)); simpl; run; by intros [= <- <-]. }
    destruct r1; [|done]. exists s1.
    assert (talked [] s s1) by (eapply run_calm, Ei; intros; apply keeps_calm_invalidate).
    run. split_and!; [done| |by destruct H5|done]. by destruct (pr_status r).
  - rewrite (bool_decide_eq_true_2 (_ ≠ _)) by done. rewrite (bool_decide_eq_false_2 (_ = _)) by done. by exists s.
Qed.
Lemma run_send_known kind rq p ty x known s r s' : hq_verb rq = DELETE ∨ hq_verb rq = PUT ∧ known = true →
  (r0 ← _send_with_retry (get_quirk_module kind) rq; _handle_404_invalidation p ty x known r0) s = (r, s') →
  pushed kind r s s'.
Proof.
  intros Hv. rewrite run_bind. destruct (_send_with_retry _ rq s) as [r0 s1] eqn:E.
  apply run_send in E as (xs & a & Ht & Hl & -> & _). pose proof (talked_storable _ _ _ _ _ Ht) as Ha. intros Hr.
  exists xs, rq, a. assert (∀ s2, talked [] s1 s2 → talked (xs ++ [(rq, a)]) s s2) as Hth.
  { intros s2 Hs2. rewrite <- (app_nil_r (xs ++ _)). by eapply talked_app. }
  destruct a as [b|e|e]; simpl in Hr; [| |injection Hr as <- <-; by split_and!].
  - destruct (classified kind b (hq_verb rq) Ha) as (Hc4 & Hc5 & Hc6).
    match goal with H : _handle_404_invalidation _ _ _ _ ?p _ = _ |- _ => set (q := p) in * end.
    destruct (run_404 p ty x known q s1) as (s2 & Hs2 & E2 & _). rewrite E2 in Hr. injection Hr as <- <-.
    split; [by apply Hth|]. split; [done|]. eexists. split; [done|]. rewrite Hc4.
    destruct (hr_status_code b =? 404) eqn:E4.
    + apply Z.eqb_eq in E4. rewrite E4 in *. rewrite (bool_decide_eq_true_2 (Some 404 = _)) by done.
      rewrite andb_true_r. assert (∀ v, verdict kind v b = if bool_decide (v = PUT) then retryable
        else if bool_decide (v = DELETE) then absent else permanent) as Hver.
      { intros v. unfold verdict. rewrite E4. simpl.
        rewrite (bool_decide_eq_false_2 (kind = Some "github" ∧ _)) by naive_solver. by rewrite orb_false_r. }
      rewrite Hver in *. simpl in Hc6.
      destruct Hv as [Hv|[Hv ->]]; rewrite Hv in *; simpl in *; rewrite Hc6; simpl; [by rewrite andb_false_r|done].
    + rewrite (bool_decide_eq_false_2 (Some _ = _)) by (intros [= Hn]; by rewrite Hn in E4).
      rewrite andb_false_r. done.
  - match goal with H : _handle_404_invalidation _ _ _ _ ?p _ = _ |- _ => set (q := p) in * end.
    destruct (run_404 p ty x known q s1) as (s2 & Hs2 & E2 & _). rewrite E2 in Hr. injection Hr as <- <-.
    split; [by apply Hth|]. split; [done|]. exists q. simpl. rewrite andb_false_r. split_and!; [done..|].
    unfold reason_ok. simpl. by rewrite no_nul_app, Ha.
Qed.

Lemma run_dispatch p t base ty x token s r s' :
  _dispatch_push p t base ty x token s = (r, s') → pushed (st_scim_kind t) r s s'.
Proof.
  destruct ty; simpl; unfold _dispatch_user, _dispatch_group, delete_user, put_user, push_user,
    delete_group, put_group, push_group; run.
  - destruct (get_user_with_primary_email s x) as [[email row]|]; [|apply run_send_known; by left].
    destruct (negb _); [apply run_send_known; by left|].
    destruct (get_one s p user_resource x); [apply run_send_known; by right|by apply run_send_post].
  - destruct (get_group_by_id (sc_dir s) x); [|apply run_send_known; by left].
    destruct (get_one s p group_resource x); [|by apply run_send_post].
    destruct (GROUP_UPDATE_VERB _); [by apply run_send_post|apply run_send_known; by right|by apply run_send_post].
Qed.

(** ** Recording an outcome *)

(** Only entry [i] of the queue may have changed, and no exchange took place. *)
Definition touches (i : uuid) s s' : Prop :=
  sc_world s' = sc_world s ∧ sc_targets s' = sc_targets s ∧ ∀ j, j ≠ i → sc_queue s' !! j = sc_queue s !! j.

Lemma run_update_status i st e s : match e with Some e => storable e | None => True end →
  ∃ n f, update_status i st e s = (Ok n, set_log f s).
Proof.
  intros He. unfold update_status. run. rewrite run_bind, run_storable_error by done. run.
  destruct (sc_log s !! i); [by eexists _, _|]. exists 0%nat, id. by destruct s.
Qed.
Lemma run_start_attempt p ty x n at_ s :
  ∃ i f, start_attempt p ty x n at_ s = (Ok i, set_log f s).
Proof.
  unfold start_attempt, create_log_entry. run. rewrite fresh_log_id.
  rewrite bool_decide_eq_false_2 by (by intros []). by eexists _, _.
Qed.
Lemma run_delete_entry i s : ∃ n, delete_entry i s = (Ok n, set_queue (delete i) s).
Proof. unfold delete_entry. run. by eexists. Qed.
Lemma run_update_entry i err f s e : sc_queue s !! i = Some e →
  match err with Some e => storable e | None => True end →
  update_entry i (λ _, true) err f s = (Ok 1%nat, set_queue (insert i (f (sc_clock s) e)) s).
Proof.
  intros Hi He. unfold update_entry. run. rewrite run_bind, run_storable_error by done. run. by rewrite Hi.
Qed.
Lemma run_bump c s : ∃ f, bump_credential (W := W) c s = (Ok (), set_credentials f s).
Proof.
  destruct c; simpl; [unfold update_last_used; run; by eexists|].
  exists id. run. by destruct s.
Qed.

Lemma run_record_dead_letter i e log_id reason s : sc_queue s !! i = Some e → no_nul reason = true →
  ∃ s', _record_dead_letter i log_id reason s = (Ok dead_lettered_, s') ∧ touches i s s' ∧
    parked e (sc_queue s' !! i).
Proof.
  intros Hi Hr. pose proof (truncated_storable reason Hr) as Hst.
  unfold _record_dead_letter, queue_mark_dead_letter, mark_dead_letter.
  rewrite run_bind, (run_update_entry i _ _ s e Hi) by done. rewrite run_bind.
  match goal with |- context [update_status ?a ?b ?c ?d] =>
    destruct (run_update_status a b c d) as (n & f & ->); [done|] end.
  run. eexists. split; [done|]. split.
  - split_and!; [done..|]. intros j Hj. simpl. by rewrite lookup_insert_ne.
  - eexists. simpl. rewrite lookup_insert_eq. split; [done|]. split; [done|]. by eexists.
Qed.
Lemma run_record_retry now i e log_id reason s : sc_queue s !! i = Some e → no_nul reason = true →
  ∃ b s', _record_retry_or_dead_letter i e log_id now reason s = (Ok b, s') ∧ touches i s s' ∧
    postponed now e b (sc_queue s' !! i).
Proof.
  intros Hi Hr. unfold _record_retry_or_dead_letter, ScimWorker._MAX_ATTEMPTS.
  destruct (decide (5 <= S (en_attempts e))%nat) as [Hmax|Hmax].
  { destruct (run_record_dead_letter i e log_id reason s Hi Hr) as (s' & Hr' & Ht & Hp).
    exists dead_lettered_, s'. unfold postponed. by rewrite decide_False by lia. }
  pose proof (truncated_storable reason Hr) as Hst.
  unfold mark_attempt_failed, mark_failed. rewrite run_bind, (run_update_entry i _ _ s e Hi) by done. rewrite run_bind.
  match goal with |- context [update_status ?a ?b ?c ?d] =>
    destruct (run_update_status a b c d) as (n & f & ->); [done|] end.
  run. eexists _, _. split; [done|]. split.
  { split_and!; [done..|]. intros j Hj. simpl. by rewrite lookup_insert_ne. }
  unfold postponed. rewrite decide_True by lia.
  split; [done|]. eexists. simpl. rewrite lookup_insert_eq. split_and!; [done..|].
  unfold attempt_failed, micros. simpl. f_equal.
  destruct (en_attempts e) as [|[|[|[|n']]]]; simpl; lia.
Qed.
Lemma run_record_gone i (c : option uuid) st err log_id (b : bucket) s :
  match err with Some e => storable e | None => True end →
  ∃ s', (_ ← delete_entry i; _ ← update_status log_id st err; _ ← bump_credential c; mret b : M (scim W) bucket) s
            = (Ok b, s') ∧ touches i s s' ∧ sc_queue s' !! i = None.
Proof.
  intros He. rewrite run_bind. destruct (run_delete_entry i s) as (n & ->). rewrite run_bind.
  destruct (run_update_status log_id st err (set_queue (delete i) s)) as (k & f & ->); [done|]. rewrite run_bind.
  match goal with |- context [bump_credential c ?x] => destruct (run_bump c x) as (h & ->) end.
  run. eexists. split; [done|]. split; [|apply lookup_delete_eq].
  split_and!; [done..|]. intros j Hj. simpl. by rewrite lookup_delete_ne.
Qed.

Lemma reason_text st r : reason_ok r → no_nul (_format_reason st r) = true.
Proof.
  unfold reason_ok, _format_reason. intros Hr. destruct (pr_http_status r) as [n|];
    destruct (pr_reason r) as [[|c t]|]; simpl; rewrite ?no_nul_app, ?no_nul_pretty; destruct st; simpl; try done;
    by rewrite (proj1 Hr).
Qed.
Lemma absent_text r : reason_ok r → pr_status r = absent → storable (absent_reason r).
Proof.
  unfold reason_ok, absent_reason. intros Hr Hs.
  assert (no_nul (default "already_absent (HTTP 404)" (nonempty (pr_reason r))) = true ∧
    py_len (default "already_absent (HTTP 404)" (nonempty (pr_reason r))) <= 3900) as [Hn Hl].
  { destruct (pr_reason r) as [[|c t]|]; [done| |done]. cbn [nonempty default]. destruct Hr. auto. }
  revert Hn Hl. generalize (default "already_absent (HTTP 404)" (nonempty (pr_reason r))). intros t Hn Hl.
  unfold storable. destruct (String.prefix ABSENT_MARKER_PREFIX t); [split; [done|lia]|].
  rewrite !no_nul_app, !py_len_app, Hn. split; [done|].
  change (py_len ABSENT_MARKER_PREFIX) with 14. change (py_len ": ") with 2. lia.
Qed.

Lemma run_record_result now kind rq a xs i e log_id c r s :
  sc_queue s !! i = Some e → answered kind rq a r → (length xs < 3)%nat →
  ∃ b s', record_result i e log_id now (Some c) r s = (Ok b, s') ∧ touches i s s' ∧
    decided now kind e (xs ++ [(rq, a)]) b (sc_queue s' !! i).
Proof.
  intros Hi Ha Hx. assert (∀ b o, match a with
    | Answer r => match verdict kind (hq_verb rq) r with
        | success => b = succeeded ∧ o = None | absent => b = absent_ ∧ o = None
        | permanent => b = dead_lettered_ ∧ parked e o | retryable => postponed now e b o end
    | _ => postponed now e b o end → decided now kind e (xs ++ [(rq, a)]) b o) as Hd.
  { intros b o Ho. exists rq, a. rewrite last_snoc, length_app. simpl. split_and!; [done|lia|done]. }
  assert (∀ p, r = Ok p → reason_ok p → pr_status p = retryable →
    ∃ b s', record_result i e log_id now (Some c) r s = (Ok b, s') ∧ touches i s s' ∧
      postponed now e b (sc_queue s' !! i)) as Hretry.
  { intros p -> Hok Hs. simpl. rewrite Hs. by apply run_record_retry, reason_text. }
  destruct a as [b|x|x]; simpl in Ha.
  - destruct Ha as (p & -> & Hs & Hok). specialize (Hretry p eq_refl Hok). simpl in *. rewrite Hs in *.
    destruct (verdict kind (hq_verb rq) b).
    + destruct (run_record_gone i (Some c) done None log_id succeeded s I) as (s' & Hr & Ht & Hq).
      exists succeeded, s'. auto.
    + destruct (Hretry eq_refl) as (b' & s' & Hr & Ht & Hq). exists b', s'. auto.
    + destruct (run_record_dead_letter i e log_id (_format_reason permanent p) s Hi) as (s' & Hr & Ht & Hq);
        [by apply reason_text|]. exists dead_lettered_, s'. auto.
    + destruct (run_record_gone i (Some c) done (Some (absent_reason p)) log_id absent_ s) as (s' & Hr & Ht & Hq);
        [by apply absent_text|]. exists absent_, s'. auto.
  - destruct Ha as (p & Hp & Hs & Hok). destruct (Hretry p Hp Hok Hs) as (b' & s' & Hr & Ht & Hq).
    exists b', s'. auto.
  - destruct Ha as [-> Hn]. simpl.
    destruct (run_record_retry now i e log_id ("worker_exception: " +:+ x) s Hi) as (b' & s' & Hr & Ht & Hq);
      [by rewrite no_nul_app, Hn|]. exists b', s'. auto.
Qed.

(** ** The turn of an entry *)

Context (text_ok : ∀ u : uuid, no_nul (uuid_text u) = true).

(** After the turn of entry [i] the exchanges are [xs], and the rest of the
    queue and the providers' rows are as they were. *)
Definition turned (i : uuid) (xs : list (http_request * reply)) s s' : Prop :=
  exchanged xs (sc_world s) (sc_world s') ∧ sc_targets s' = sc_targets s ∧
  ∀ j, j ≠ i → sc_queue s' !! j = sc_queue s !! j.
Lemma turned_after i xs s s1 s' : talked xs s s1 → touches i s1 s' → turned i xs s s'.
Proof.
  intros (Hx & Hq & Ht) (Hw & Ht' & Hq'). split; [by rewrite Hw|]. split; [congruence|].
  intros j Hj. by rewrite Hq', Hq.
Qed.

Lemma run_process_entry p t base i e creds now s : sc_queue s !! i = Some e →
  push_target (Some t) = Some (t, base) →
  ∃ xs b s', _process_entry p t base i e creds now s = (Ok b, s') ∧ turned i xs s s' ∧
    turn_outcome now (Some t) creds e xs b (sc_queue s' !! i).
Proof.
  intros Hi Hb. unfold _process_entry. rewrite run_bind.
  destruct (run_start_attempt p (en_type e) (en_resource e) (S (en_attempts e)) now s) as (log_id & f & ->).
  set (s1 := set_log f s). assert (talked [] s s1) as H01 by done.
  assert (∃ kind url mode, t = mk_target true (Some url) kind mode ∧ url ≠ "") as (kind & url & mode & -> & Hurl).
  { destruct t as [en [url|] kind mode]; unfold push_target in Hb; simpl in Hb; [|done].
    destruct url; [done|]. destruct en; [|done]. by eexists _, _, _. }
  destruct url as [|ch url]; [done|]. simpl.
  destruct creds as [|c token|c]; simpl.
  - destruct (run_record_dead_letter i e log_id
      "no_credential_source: outbound SCIM credential is not configured for this SP" s1 Hi eq_refl)
      as (s' & Hr & Ht & Hp). exists [], dead_lettered_, s'. split; [exact Hr|]. split; [by eapply turned_after|done].
  - unfold attempt. rewrite run_bind.
    destruct (_dispatch_push p _ base (en_type e) (en_resource e) token s1) as [r s2] eqn:E.
    apply run_dispatch in E as (xs & rq & a & Ht & Hl & Ha). simpl in Ha.
    assert (sc_queue s2 !! i = Some e) as Hi2 by (by rewrite (proj1 (proj2 Ht))).
    destruct (run_record_result now kind rq a xs i e log_id c r s2 Hi2 Ha Hl) as (b & s' & Hr & Ht' & Hd).
    exists (xs ++ [(rq, a)]), b, s'. split; [exact Hr|]. split; [|done].
    eapply turned_after; [|done]. by apply (talked_app [] _ s s1).
  - match goal with |- context [_record_dead_letter i log_id ?x] =>
      destruct (run_record_dead_letter i e log_id x s1 Hi) as (s' & Hr & Ht & Hp) end.
    { by rewrite !no_nul_app, text_ok. }
    exists [], dead_lettered_, s'. split; [exact Hr|]. split; [by eapply turned_after|done].
Qed.

Lemma run_drop_orphaned now i e t c s : push_target t = None →
  ∃ s', _drop_orphaned_entry i e t s = (Ok (), s') ∧ turned i [] s s' ∧
    turn_outcome now t c e [] skipped (sc_queue s' !! i).
Proof.
  intros Hnone. unfold _drop_orphaned_entry. run. rewrite run_bind. unfold attempt at 1. rewrite run_bind.
  destruct (run_start_attempt (en_sp e) (en_type e) (en_resource e) (en_attempts e) (sc_clock s) s) as (log_id & g & ->).
  unfold mark_dead_letter.
  match goal with |- context [update_status ?a ?b ?c ?d] =>
    destruct (run_update_status a b c d) as (n & f & ->); [by destruct t|] end.
  rewrite run_bind. unfold attempt. destruct (run_delete_entry i (set_log f (set_log g s))) as (k & ->).
  run. eexists. split; [done|]. split.
  - split_and!; [done..|]. intros j Hj. simpl. by rewrite lookup_delete_ne.
  - unfold push_target in Hnone. destruct t as [[[] [[|ch url]|] kind mode]|]; simpl in *; try done;
      by rewrite lookup_delete_eq.
Qed.

(** ** The whole drain *)

Record turn := mk_turn {
  tu_id : uuid; tu_entry : entry; tu_exchanges : list (http_request * reply); tu_bucket : bucket;
}.
Definition tu_listed (u : turn) : uuid * entry := (tu_id u, tu_entry u).

(** From [s] to [s'] the turns [us] were taken one after another, in a drain
    that began at [now] with the credentials [cred]. *)
Definition taken (now : Z) (cred : uuid → resolved) (us : list turn) s s' : Prop :=
  exchanged (concat (tu_exchanges <$> us)) (sc_world s) (sc_world s') ∧ sc_targets s' = sc_targets s ∧
  (∀ u, u ∈ us → turn_outcome now (sc_targets s !! en_sp (tu_entry u)) (cred (en_sp (tu_entry u)))
     (tu_entry u) (tu_exchanges u) (tu_bucket u) (sc_queue s' !! tu_id u)) ∧
  (∀ j, j ∉ (tu_listed <$> us).*1 → sc_queue s' !! j = sc_queue s !! j).

Definition listed (l : list (uuid * entry)) s : Prop := ∀ i e, (i, e) ∈ l → sc_queue s !! i = Some e.

Lemma taken_nil now cred s : taken now cred [] s s.
Proof. split_and!; [done|done|by intros ? ?%elem_of_nil|done]. Qed.
Lemma taken_one now cred i e xs b s s' : turned i xs s s' →
  turn_outcome now (sc_targets s !! en_sp e) (cred (en_sp e)) e xs b (sc_queue s' !! i) →
  taken now cred [mk_turn i e xs b] s s'.
Proof.
  intros (Hx & Ht & Hq) Ho. split_and!; [simpl; by rewrite app_nil_r|done| |].
  - by intros u ->%list_elem_of_singleton.
  - intros j Hj. apply Hq. intros ->. apply Hj. by left.
Qed.
Lemma taken_app now cred us vs s s1 s2 : NoDup (tu_listed <$> us ++ vs).*1 →
  taken now cred us s s1 → taken now cred vs s1 s2 → taken now cred (us ++ vs) s s2.
Proof.
  rewrite !fmap_app. intros (_ & Hd & _)%NoDup_app (X1 & T1 & O1 & K1) (X2 & T2 & O2 & K2). split_and!.
  - rewrite fmap_app, concat_app. by eapply exchanged_app.
  - congruence.
  - intros u [Hu|Hu]%elem_of_app; [|rewrite <- T1; auto].
    rewrite K2; [auto|]. apply Hd. apply list_elem_of_fmap. exists (tu_listed u). split; [done|].
    by apply list_elem_of_fmap_2.
  - intros j. rewrite !fmap_app, not_elem_of_app. intros [? ?]. by rewrite K2, K1.
Qed.
Lemma listed_after now cred us l s s1 : NoDup ((tu_listed <$> us).*1 ++ l.*1) →
  listed l s → taken now cred us s s1 → listed l s1.
Proof.
  intros (_ & Hd & _)%NoDup_app Hl (_ & _ & _ & K) i e Hin. rewrite K; [by apply Hl|].
  intros Hi. apply (Hd i Hi). apply list_elem_of_fmap. by exists (i, e).
Qed.

(** A loop whose steps take the turns of the lists [of_ a]. *)
Lemma run_for_map_turns {A B} now cred (of_ : A → list (uuid * entry)) (bs_of : B → list bucket)
    (m : A → M (scim W) B) l s :
  NoDup (concat (of_ <$> l)).*1 → listed (concat (of_ <$> l)) s →
  (∀ a s, a ∈ l → NoDup (of_ a).*1 → listed (of_ a) s → ∃ b us s', m a s = (Ok b, s') ∧
     taken now cred us s s' ∧ tu_listed <$> us = of_ a ∧ bs_of b = tu_bucket <$> us) →
  ∃ bs us s', for_map m l s = (Ok bs, s') ∧ taken now cred us s s' ∧
    tu_listed <$> us = concat (of_ <$> l) ∧ concat (bs_of <$> bs) = tu_bucket <$> us.
Proof.
  revert s. induction l as [|a l IH]; intros s Hnd Hl Hm.
  { exists [], [], s. split_and!; [done|apply taken_nil|done|done]. }
  rewrite fmap_cons in *. cbn [concat for_map] in *. rewrite fmap_app in Hnd.
  pose proof Hnd as (Hna & _ & Hnl)%NoDup_app.
  destruct (Hm a s) as (b & us & s1 & Hb & Ht & Hus & Hbs); [by left|done| |].
  { intros i e Hin. apply Hl, elem_of_app. by left. }
  destruct (IH s1 Hnl) as (bs & vs & s2 & Hbs2 & Ht2 & Hvs & Hbs2').
  { eapply (listed_after now cred us); [by rewrite Hus| |done]. intros i e Hin. apply Hl, elem_of_app. by right. }
  { intros a' s' Hin. apply Hm. by right. }
  exists (b :: bs), (us ++ vs), s2. rewrite run_bind, Hb, run_bind, Hbs2. split; [done|]. split.
  - eapply taken_app; [|done..]. by rewrite fmap_app, Hus, Hvs, fmap_app.
  - rewrite fmap_app, Hus, Hvs. split; [done|]. csimpl. by rewrite Hbs, Hbs2', fmap_app.
Qed.

Lemma concat_singletons {A} (l : list A) : concat ((λ x, [x]) <$> l) = l.
Proof. induction l as [|x l IH]; csimpl; [done|]. by rewrite IH. Qed.

Lemma run_process_sp cred now q s :
  NoDup q.2.*1 → listed q.2 s → (∀ x, x ∈ q.2 → en_sp x.2 = q.1) →
  ∃ bs us s', process_sp (λ _, cred) now q s = (Ok bs, s') ∧ taken now cred us s s' ∧
    tu_listed <$> us = q.2 ∧ bs = tu_bucket <$> us.
Proof.
  destruct q as [p entries]. simpl. intros Hnd Hl Hsp. run.
  rewrite <- (concat_singletons entries) in Hnd, Hl.
  assert (∀ m : uuid * entry → M (scim W) bucket,
    (∀ ie s1, ie ∈ entries → sc_queue s1 !! ie.1 = Some ie.2 → sc_targets s1 = sc_targets s →
       ∃ xs b s2, m ie s1 = (Ok b, s2) ∧ turned ie.1 xs s1 s2 ∧
         turn_outcome now (sc_targets s !! p) (cred p) ie.2 xs b (sc_queue s2 !! ie.1)) →
    ∃ bs us s', for_map m entries s = (Ok bs, s') ∧ taken now cred us s s' ∧
      tu_listed <$> us = entries ∧ bs = tu_bucket <$> us) as Hloop.
  { clear - Hnd Hl Hsp text_ok. intros m Hm. rewrite concat_singletons in *. revert s Hnd Hl Hm.
    induction entries as [|[i e] l IH]; intros s Hnd Hl Hm.
    { exists [], [], s. split_and!; [done|apply taken_nil|done|done]. }
    cbn [for_map]. rewrite run_bind. destruct (Hm (i, e) s) as (xs & b & s1 & -> & Ht & Ho);
      [by left|apply Hl; by left|done|]. rewrite run_bind.
    assert (taken now cred [mk_turn i e xs b] s s1) as Htk.
    { apply taken_one; [done|]. assert (en_sp e = p) as -> by (apply (Hsp (i, e)); by left). done. }
    simpl in Hnd. pose proof Htk as (_ & Htgt & _ & _).
    destruct (IH ltac:(intros x Hx; apply Hsp; by right) s1) as (bs & us & s2 & -> & Ht2 & Hus & Hbs).
    - by apply NoDup_cons in Hnd as [_ ?].
    - eapply (listed_after now cred [mk_turn i e xs b]); [done| |done]. intros j f Hj. apply Hl. by right.
    - intros ie s1' Hin Hq Ht1. rewrite Htgt in Ht1 |- *. apply Hm; [by right|done|done].
    - exists (b :: bs), (mk_turn i e xs b :: us), s2. split; [done|]. split.
      + apply (taken_app now cred [mk_turn i e xs b] us s s1); [|done..]. csimpl. by rewrite Hus.
      + csimpl. by rewrite Hus, Hbs. }
  destruct (push_target (sc_targets s !! p)) as [[row base]|] eqn:Hpt; run; apply Hloop.
  - intros [i e] s1 _ Hi Ht1. simpl in *.
    destruct (sc_targets s !! p) as [t|] eqn:Et; [|done].
    assert (row = t) as ->.
    { unfold push_target in Hpt. simpl in Hpt. destruct (nonempty (st_target_url t)); [|done]. simpl in Hpt.
      by destruct (st_scim_enabled t); simplify_eq. }
    destruct (run_process_entry p t base i e (cred p) now s1 Hi Hpt) as (xs & b & s2 & Hr & Hturn & Ho).
    by exists xs, b, s2.
  - intros [i e] s1 _ _ _. simpl in *.
    destruct (run_drop_orphaned now i e (sc_targets s !! p) (cred p) s1 Hpt) as (s2 & Hr & Hturn & Ho).
    exists [], skipped, s2. by rewrite run_bind, Hr.
Qed.

Lemma add_to_bucket_perm p x l : concat (add_to_bucket p x l).*2 ≡ₚ x :: concat l.*2.
Proof.
  induction l as [|[q xs] l IH]; csimpl; [done|]. case_decide; csimpl.
  - rewrite <- app_assoc. simpl. by rewrite Permutation_middle.
  - rewrite IH. by rewrite Permutation_middle.
Qed.

Lemma by_sp_perm l : concat (by_sp l).*2 ≡ₚ l.
Proof.
  unfold by_sp. assert (∀ acc, concat (foldl (λ l x, add_to_bucket (en_sp x.2) x l) acc l).*2
    ≡ₚ concat acc.*2 ++ l) as Hf; [|by rewrite Hf].
  induction l as [|x l IH]; intros acc; simpl; [by rewrite app_nil_r|].
  rewrite IH, add_to_bucket_perm. by rewrite <- Permutation_middle.
Qed.

Lemma add_to_bucket_sp p x l : (∀ q xs, (q, xs) ∈ l → ∀ y, y ∈ xs → en_sp y.2 = q) → en_sp x.2 = p →
  ∀ q xs, (q, xs) ∈ add_to_bucket p x l → ∀ y, y ∈ xs → en_sp y.2 = q.
Proof.
  intros Hl Hx. induction l as [|[r ys] l IH]; intros q xs; simpl.
  - intros [= -> ->]%list_elem_of_singleton y ->%list_elem_of_singleton. done.
  - case_decide as Hr.
    + intros [[= -> ->]|Hin]%elem_of_cons y.
      * intros [Hy| ->%list_elem_of_singleton]%elem_of_app; [|congruence]. eapply Hl; [by left|done].
      * eapply Hl. by right.
    + intros [[= -> ->]|Hin]%elem_of_cons y Hy; [eapply Hl; [by left|done]|].
      eapply IH; [|done|done]. intros q' xs' Hin'. apply Hl. by right.
Qed.
Lemma by_sp_sp l q xs : (q, xs) ∈ by_sp l → ∀ y, y ∈ xs → en_sp y.2 = q.
Proof.
  unfold by_sp. assert (∀ acc, (∀ q xs, (q, xs) ∈ acc → ∀ y, y ∈ xs → en_sp y.2 = q) →
    ∀ q xs, (q, xs) ∈ foldl (λ l x, add_to_bucket (en_sp x.2) x l) acc l → ∀ y, y ∈ xs → en_sp y.2 = q) as Hf.
  { induction l as [|x l IH]; intros acc Hacc; simpl; [done|]. apply IH. by apply add_to_bucket_sp. }
  apply Hf. by intros ? ? ?%elem_of_nil.
Qed.

Lemma list_ready_listed s n : listed (list_ready_entries s n) s.
Proof.
  intros i e Hin. unfold list_ready_entries in Hin.
  apply (subseteq_take n) in Hin. rewrite merge_sort_Permutation in Hin.
  apply list_elem_of_filter in Hin as [_ Hin]. by apply elem_of_map_to_list.
Qed.

Lemma list_ready_NoDup s n : NoDup (list_ready_entries s n).*1.
Proof.
  unfold list_ready_entries. eapply sublist_NoDup; [|apply fmap_sublist, sublist_take].
  rewrite merge_sort_Permutation. apply NoDup_fmap_fst.
  - intros i e1 e2 [_ Ha%elem_of_map_to_list]%list_elem_of_filter [_ Hb%elem_of_map_to_list]%list_elem_of_filter.
    congruence.
  - apply NoDup_filter, NoDup_map_to_list.
Qed.

End drain.
