(* ===== verification/ScimSync.v ===== *)
(** * What a successful push has sent

    A user's entry that a drain counts as succeeded or absent is gone from the
    queue, and the last thing the receiver took in was the user's current data,
    or the deletion of a user who is gone or no longer entitled. *)

From stdpp Require Import gmap strings.
From S2P Require Import Prelude GroupDb AppAccess ScimDb ScimClient ScimWorker ScimProofs.
#[local] Open Scope Z_scope.

(** ** What ought to be sent *)

Section intent.
Context {W : Type} `{UuidText}.
Implicit Types s : scim W.

(** User [u] exists, has the primary address [email] and may use the provider
    [p], whose SCIM is on: the provider is open to all, or assigned to a group
    at or above one of the user's. *)
Definition entitled s (p u : uuid) (email : string) (row : person) : Prop :=
  u ∈ users (sc_dir s) ∧ sc_people s !! u = Some row ∧ pe_email row = Some email ∧
  (∃ t, sc_targets s !! p = Some t ∧ st_scim_enabled t = true) ∧
  ((∃ a, apps (sc_dir s) !! (sp, p) = Some a ∧ app_available_to_all a = true) ∨
   ∃ g m, ((sp, p), g) ∈ assignments (sc_dir s) ∧ is_Some (lineage (sc_dir s) !! (g, m)) ∧
     (m, u) ∈ memberships (sc_dir s)).

(** A name that is set. *)
Definition given (x : option string) (y : string) : Prop := x = Some y ∧ y ≠ "".
(** The user's data, field by field; absent names are not sent. *)
Definition describes (u : uuid) (email : string) (row : person) (b : user_payload) : Prop :=
  up_external_id b = uuid_text u ∧ up_user_name b = email ∧
  (up_active b = true ↔ pe_is_inactivated row = false) ∧
  (∀ y, up_given_name b = Some y ↔ given (pe_first_name row) y) ∧
  (∀ y, up_family_name b = Some y ↔ given (pe_last_name row) y) ∧
  (∀ y, up_display_name b = Some y ↔
     (∃ f l, given (pe_first_name row) f ∧ given (pe_last_name row) l ∧ y = f +:+ " " +:+ l) ∨
     given (pe_first_name row) y ∧ (∀ l, ¬ given (pe_last_name row) l) ∨
     given (pe_last_name row) y ∧ (∀ f, ¬ given (pe_first_name row) f)).

Lemma nonempty_given x y : nonempty x = Some y ↔ given x y.
Proof.
  unfold given. destruct x as [[|c x]|]; simpl; naive_solver.
Qed.
Lemma nonempty_none x : nonempty x = None → ∀ y, ¬ given x y.
Proof. intros Hx y Hy%nonempty_given. congruence. Qed.
Lemma build_describes u email row : describes u email row (build_user_resource u email row).
Proof.
  unfold describes. simpl. split_and!; [done|done|by destruct (pe_is_inactivated row)| | |];
    intros y; [apply nonempty_given..|]. unfold _full_name.
  destruct (nonempty (pe_first_name row)) as [f|] eqn:Ef, (nonempty (pe_last_name row)) as [l|] eqn:El;
    try apply nonempty_given in Ef; try apply nonempty_given in El.
  - split; [intros [= <-]; left; eauto|]. intros [(f' & l' & [Hf _] & [Hl _] & ->)|[[_ Hn]|[_ Hn]]].
    + destruct Ef, El. by simplify_eq.
    + by destruct (Hn l).
    + by destruct (Hn f).
  - pose proof (nonempty_none _ El) as Hl. split; [intros [= <-]; right; left; auto|].
    intros [(f' & l' & _ & Hl' & _)|[[[Hf _] _]|[Hl' _]]]; [by destruct (Hl l')|destruct Ef; by simplify_eq|by destruct (Hl y)].
  - pose proof (nonempty_none _ Ef) as Hf. split; [intros [= <-]; right; right; auto|].
    intros [(f' & l' & Hf' & _)|[[Hf' _]|[[Hl _] _]]]; [by destruct (Hf f')|by destruct (Hf y)|destruct El; by simplify_eq].
  - pose proof (nonempty_none _ Ef) as Hf. pose proof (nonempty_none _ El) as Hl. split; [done|].
    intros [(f' & l' & Hf' & _)|[[Hf' _]|[Hl' _]]]; [by destruct (Hf f')|by destruct (Hf y)|by destruct (Hl y)].
Qed.

Lemma in_scope_iff s u p : _user_in_scope_for_sp s u p = true ↔
  (∃ t, sc_targets s !! p = Some t ∧ st_scim_enabled t = true) ∧ grants_user s u p = true.
Proof.
  unfold _user_in_scope_for_sp, scim_sps_granting_user, scim_enabled_sps. rewrite existsb_exists. split.
  - intros ([q t] & Hin%list_elem_of_In & Hq%bool_decide_eq_true). simpl in Hq. subst q.
    apply list_elem_of_filter in Hin as [Hg Hin]. apply list_elem_of_filter in Hin as [He Hin].
    apply elem_of_map_to_list in Hin. simpl in *. eauto.
  - intros [(t & Ht & He) Hg]. exists (p, t). split; [|by apply bool_decide_eq_true]. apply list_elem_of_In.
    rewrite !list_elem_of_filter. split; [done|]. split; [done|]. by apply elem_of_map_to_list.
Qed.
Lemma grants_iff s u p : grants_user s u p = true ↔
  (∃ a, apps (sc_dir s) !! (sp, p) = Some a ∧ app_available_to_all a = true) ∨
  ∃ g m, ((sp, p), g) ∈ assignments (sc_dir s) ∧ is_Some (lineage (sc_dir s) !! (g, m)) ∧
    (m, u) ∈ memberships (sc_dir s).
Proof.
  unfold grants_user, app_open_to_all, group_grants. rewrite orb_true_iff, bool_decide_eq_true. f_equiv.
  - destruct (apps (sc_dir s) !! (sp, p)); naive_solver.
  - split.
    + intros ([m v] & Hm & Hv & [k g] & Ha & Hk & Hl). simpl in *. subst. by exists g, m.
    + intros (g & m & Ha & Hl & Hm). exists (m, u). split; [done|]. split; [done|]. by exists ((sp, p), g).
Qed.
Lemma entitled_iff s p u email row : entitled s p u email row ↔
  get_user_with_primary_email s u = Some (email, row) ∧ _user_in_scope_for_sp s u p = true.
Proof.
  rewrite in_scope_iff, grants_iff. unfold entitled, get_user_with_primary_email. case_decide as Hu; [|naive_solver].
  destruct (sc_people s !! u) as [r|]; simpl; [|naive_solver]. destruct (pe_email r) eqn:E; simpl; naive_solver.
Qed.
End intent.

(** The URL of the resource [x] of the users of [base]. *)
Definition user_url (base x : string) : string :=
  rstrip_slash base +:+ "/Users" +:+ (if decide (x = "") then "" else "/" +:+ strip_slash x).
Lemma target_of_user base x : _target_for base ["Users"; x] = user_url base x.
Proof.
  unfold _target_for, user_url. rewrite !filter_cons, filter_nil. rewrite decide_True by done.
  destruct (decide (x = "")) as [->|Hx]; [by rewrite decide_False by auto|].
  rewrite !decide_True by done. csimpl. by change (strip_slash "Users") with "Users".
Qed.

Section sync.
Context {W : Type} `{ScimIdsFresh W} `{Receiver W} `{UuidText} `{Collation}.
Implicit Types s : scim W.

(** ** What was sent *)

(** The last of the exchanges [xs] sent [rq] and was answered with [a]. *)
Definition took_in (rq : http_request) (a : http_response) s s' : Prop :=
  ∃ xs, exchanged (xs ++ [(rq, Answer a)]) (sc_world s) (sc_world s').

Lemma send_decided kind rq s r s' :
  _send_with_retry (get_quirk_module kind) rq s = (Ok r, s') →
  sc_remote_ids s' = sc_remote_ids s ∧
  (pr_status r = success → ∃ a, took_in rq a s s' ∧ is_2xx a = true ∧ r = _success a) ∧
  (pr_status r = absent → ∃ a, took_in rq a s s' ∧ hr_status_code a = 404 ∧ hq_verb rq = DELETE ∧
     pr_http_status r = Some 404).
Proof.
  intros (xs & a & (Hx & _) & _ & Hr & _ & _ & Hm)%run_send. split; [done|].
  destruct a as [a|e|e]; simpl in Hr; [|by injection Hr as ->|done]. injection Hr as ->.
  destruct (is_2xx a) eqn:E2; [split; [|done]; intros _; exists a; split; [by exists xs|done]|].
  unfold _classify_response. destruct (interpret_error _ a _) as [d e] eqn:Ei.
  pose proof (quirk_verdict kind a (hq_verb rq) E2) as Hv. rewrite Ei in Hv. simpl in *.
  split; [by destruct d|]. intros Hd. assert (d = absent) as -> by (by destruct d).
  exists a. split; [by exists xs|]. unfold verdict in Hv. unfold is_2xx in E2. rewrite E2 in Hv.
  destruct (hr_status_code a =? 404) eqn:E4; simpl in Hv; [|by repeat case_match].
  apply Z.eqb_eq in E4. rewrite E4 in *. destruct (hq_verb rq); simpl in Hv; try done; by repeat case_match.
Qed.

Lemma run_delete_user kind base token x p u b s r s' :
  (r0 ← delete_user base kind token x; _handle_404_invalidation p user_resource u b r0) s = (Ok r, s') →
  pr_status r = success ∨ pr_status r = absent →
  ∃ rq a, took_in rq a s s' ∧ (is_2xx a = true ∨ hr_status_code a = 404) ∧ hq_token rq = token ∧
    hq_verb rq = DELETE ∧ hq_json rq = None ∧ hq_url rq = user_url base x.
Proof.
  unfold delete_user. rewrite bind_Ok. intros (r0 & s1 & (_ & Hs & Ha)%send_decided & Hr) Hst.
  destruct (run_404 p user_resource u b r0 s1) as (s2 & _ & E & Hw & _). rewrite E in Hr. injection Hr as <- <-.
  assert (pr_status r0 = success ∨ pr_status r0 = absent) as Hst0 by (by destruct (b && _ && _); [destruct Hst|]).
  rewrite <- target_of_user. unfold took_in in *. rewrite Hw.
  destruct Hst0 as [Hst0|Hst0]; [destruct (Hs Hst0) as (a & Ht & Hok & _)|destruct (Ha Hst0) as (a & Ht & Hok & _)];
    eexists _, a; (split; [exact Ht|]); split_and!; auto.
Qed.

Lemma run_put_user kind base token x body p u s r s' :
  get_one s p user_resource u = Some x →
  (r0 ← put_user base kind token x body; _handle_404_invalidation p user_resource u true r0) s = (Ok r, s') →
  pr_status r = success ∨ pr_status r = absent →
  ∃ rq a, took_in rq a s s' ∧ is_2xx a = true ∧ hq_token rq = token ∧ hq_verb rq = PUT ∧
    hq_json rq = Some (UserPayload body) ∧ hq_url rq = user_url base x ∧ get_one s' p user_resource u = Some x.
Proof.
  intros Hx. unfold put_user. rewrite bind_Ok. intros (r0 & s1 & (Hm & Hs & Ha)%send_decided & Hr) Hst.
  destruct (run_404 p user_resource u true r0 s1) as (s2 & _ & E & Hw & Hsame). rewrite E in Hr. injection Hr as <- <-.
  assert (pr_status r0 = success ∨ pr_status r0 = absent) as Hst0 by (by destruct (_ && _); [destruct Hst|]).
  destruct Hst0 as [Hst0|Hst0]; [|by destruct (Ha Hst0) as (_ & _ & _ & ? & _)].
  destruct (Hs Hst0) as (a & Ht & Hok & Hr0). rewrite <- target_of_user. unfold took_in in *. rewrite Hw.
  eexists _, a. split; [exact Ht|]. split_and!; try done. unfold get_one in *.
  rewrite Hsame, Hm by (rewrite Hr0; simpl; intros [= Hn]; unfold is_2xx in Hok; rewrite Hn in Hok; done). done.
Qed.

(** The mapping a creation leaves: the id of the answer, if its column holds it. *)
Definition recorded (a : http_response) (o : option string) : Prop :=
  o = match hr_id a with
      | Some x => if decide (x ≠ "" ∧ no_nul x = true ∧ py_len x <= 255) then Some x else None
      | None => None
      end.
Lemma run_push_user kind base token body p u s r s' :
  get_one s p user_resource u = None →
  (r0 ← push_user base kind token body; after_post p user_resource u r0) s = (Ok r, s') →
  pr_status r = success ∨ pr_status r = absent →
  ∃ rq a, took_in rq a s s' ∧ is_2xx a = true ∧ hq_token rq = token ∧ hq_verb rq = POST ∧
    hq_json rq = Some (UserPayload body) ∧ hq_url rq = user_url base "" ∧
    recorded a (get_one s' p user_resource u).
Proof.
  intros Hx. unfold push_user. rewrite bind_Ok. intros (r0 & s1 & (Hm & Hs & Ha)%send_decided & Hr) Hst.
  assert (r = r0 ∧ sc_world s' = sc_world s1 ∧ get_one s' p user_resource u =
    match pr_status r0, nonempty (pr_scim_id r0) with
    | success, Some x => if decide (no_nul x = true ∧ py_len x <= 255) then Some x else get_one s1 p user_resource u
    | _, _ => get_one s1 p user_resource u end) as (-> & Hw & Hget).
  { revert Hr. unfold after_post. destruct (pr_status r0); [|by intros [= <- <-]..].
    destruct (nonempty (pr_scim_id r0)) as [x|]; [|by intros [= <- <-]].
    unfold record_mapping. destruct (no_nul x) eqn:En; cbn beta iota delta [negb orb]; [|run; by intros [= <- <-]].
    case_bool_decide as Hl; [rewrite decide_False by (intros [_ ?]; lia); run; by intros [= <- <-]|].
    rewrite run_bind. unfold upsert_remote_id. rewrite run_bind, run_update.
    rewrite decide_True by (split; [done|lia]). unfold mapping_event, in_dir.
    destruct (bool_decide _); simpl; run; intros [= <- <-]; (split; [done|]); (split; [done|]);
      unfold get_one; simpl; apply lookup_insert_eq. }
  assert (get_one s1 p user_resource u = None) as Hx1 by (unfold get_one in *; by rewrite Hm). rewrite Hx1 in Hget.
  destruct Hst as [Hst|Hst]; [|by destruct (Ha Hst) as (_ & _ & _ & ? & _)].
  destruct (Hs Hst) as (a & Ht & Hok & ->). unfold took_in in *. rewrite Hw.
  eexists _, a. split; [exact Ht|]. split_and!; try done.
  unfold recorded. rewrite Hget. simpl. destruct (hr_id a) as [[|c x]|]; simpl; [done| |done].
  by repeat case_decide; naive_solver.
Qed.

(** What a push of user [u] to provider [p] sends: the user's data, to a new
    resource or to the recorded one, or a deletion. *)
Definition sent_for (p u : uuid) (base token : string) s s' (rq : http_request) (a : http_response) : Prop :=
  hq_token rq = token ∧
  ((∃ email row body, entitled s p u email row ∧ describes u email row body ∧
      hq_json rq = Some (UserPayload body) ∧ is_2xx a = true ∧
      match get_one s p user_resource u with
      | Some x => hq_verb rq = PUT ∧ hq_url rq = user_url base x ∧ get_one s' p user_resource u = Some x
      | None => hq_verb rq = POST ∧ hq_url rq = user_url base "" ∧ recorded a (get_one s' p user_resource u)
      end) ∨
   (∀ email row, ¬ entitled s p u email row) ∧ hq_json rq = None ∧ hq_verb rq = DELETE ∧
     hq_url rq = user_url base (default (uuid_text u) (get_one s p user_resource u)) ∧
     (is_2xx a = true ∨ hr_status_code a = 404)).

Lemma run_dispatch_user p t base u token s r s' :
  _dispatch_user p t base u token s = (Ok r, s') →
  pr_status r = success ∨ pr_status r = absent →
  ∃ rq a, took_in rq a s s' ∧ sent_for p u base token s s' rq a.
Proof.
  unfold _dispatch_user, sent_for. run.
  destruct (get_user_with_primary_email s u) as [[email row]|] eqn:Eu.
  2: { intros Hr Hst. destruct (run_delete_user _ _ _ _ _ _ _ _ _ _ Hr Hst) as (rq & a & Ht & ? & ? & ? & ? & ?).
       exists rq, a. split; [done|]. split; [done|]. right. split_and!; try done.
       intros e w [Hu _]%entitled_iff. congruence. }
  destruct (_user_in_scope_for_sp s u p) eqn:Es; simpl.
  2: { intros Hr Hst. destruct (run_delete_user _ _ _ _ _ _ _ _ _ _ Hr Hst) as (rq & a & Ht & ? & ? & ? & ? & ?).
       exists rq, a. split; [done|]. split; [done|]. right. split_and!; try done.
       intros e w [_ Hu]%entitled_iff. congruence. }
  assert (entitled s p u email row) as He by (by apply entitled_iff).
  pose proof (build_describes u email row) as Hd.
  destruct (get_one s p user_resource u) as [x|] eqn:Ex; intros Hr Hst.
  - destruct (run_put_user _ _ _ _ _ _ _ _ _ _ Ex Hr Hst) as (rq & a & Ht & ? & ? & ? & ? & ? & ?).
    exists rq, a. split; [done|]. split; [done|]. left. by exists email, row, (build_user_resource u email row).
  - destruct (run_push_user _ _ _ _ _ _ _ _ _ Ex Hr Hst) as (rq & a & Ht & ? & ? & ? & ? & ? & ?).
    exists rq, a. split; [done|]. split; [done|]. left. by exists email, row, (build_user_resource u email row).
Qed.

(** ** Recording it *)

Lemma dead_letter_bucket i log_id reason s b s' :
  _record_dead_letter (W := W) i log_id reason s = (Ok b, s') → b = dead_lettered_.
Proof. unfold _record_dead_letter. rewrite !bind_Ok. intros (? & ? & _ & H'). revert H'. rewrite bind_Ok. by intros (? & ? & _ & [= <- _]). Qed.
Lemma retry_bucket i e log_id now reason s b s' :
  _record_retry_or_dead_letter (W := W) i e log_id now reason s = (Ok b, s') → b = dead_lettered_ ∨ b = retried.
Proof.
  unfold _record_retry_or_dead_letter. case_decide; [intros Hr; left; by eapply dead_letter_bucket|].
  rewrite bind_Ok. intros (? & ? & _ & H'). revert H'. rewrite bind_Ok. intros (? & ? & _ & [= <- _]). by right.
Qed.
Lemma run_gone i (st : log_status) err log_id c (b b' : bucket) s s' :
  (_ ← delete_entry i; _ ← update_status log_id st err; _ ← bump_credential c;
   mret b : M (scim W) bucket) s = (Ok b', s') →
  sc_queue s' !! i = None ∧ sc_world s' = sc_world s ∧ sc_remote_ids s' = sc_remote_ids s.
Proof.
  rewrite bind_Ok. intros (n & s1 & Hd & H'). revert H'. rewrite bind_Ok. intros (k & s2 & Hu & H').
  destruct (run_delete_entry i s) as (m & Hd'). rewrite Hd' in Hd. injection Hd as <- <-.
  revert H'. rewrite bind_Ok. intros ([] & s3 & Hb & [= _ <-]).
  destruct (run_bump c s2) as (h & Hb'). rewrite Hb' in Hb. injection Hb as <-.
  revert Hu. unfold update_status. run. rewrite bind_Ok. intros ([] & s4 & He & Hu).
  assert (s4 = set_queue (delete i) s) as ->.
  { revert He. unfold storable_error. rewrite run_raise_if_bind. destruct (negb _); [done|].
    rewrite run_raise_if. by destruct (_ && _); intros [= <-]. }
  revert Hu. run. destruct (sc_log _ !! log_id); intros [= _ <-]; (split; [apply lookup_delete_eq|done]).
Qed.
Lemma run_record_done i e log_id now c r b s s' :
  record_result (W := W) i e log_id now c r s = (Ok b, s') → b = succeeded ∨ b = absent_ →
  ∃ r', r = Ok r' ∧ (pr_status r' = success ∨ pr_status r' = absent) ∧
    sc_queue s' !! i = None ∧ sc_world s' = sc_world s ∧ sc_remote_ids s' = sc_remote_ids s.
Proof.
  intros Hrun Hb. destruct r as [r|x]; simpl in Hrun; [|apply retry_bucket in Hrun; naive_solver].
  exists r. split; [done|]. destruct (pr_status r) eqn:Hs.
  - split; [by left|]. by eapply run_gone.
  - apply retry_bucket in Hrun. naive_solver.
  - apply dead_letter_bucket in Hrun. naive_solver.
  - split; [by right|]. by eapply run_gone.
Qed.

End sync.
