(* ===== verification/ScimEnqueue.v ===== *)
(** * A membership change reaches every provider it concerns

    When a group's membership changes through the group service, every
    SCIM-enabled provider that a user gains or loses has afterwards a fresh
    queue entry for that user, and every direct-mode provider below which the
    group lies one for the group. *)

From stdpp Require Import gmap strings.
From S2P Require Import Prelude GroupDb GroupService AppAccess ScimDb ScimWorker ScimDispatch ScimProofs.

(** ** The calls *)

Inductive membership_call :=
  | AddMember (g u : uuid) | RemoveMember (g u : uuid)
  | BulkAddMembers (g : uuid) (us : list uuid) | BulkRemoveMembers (g : uuid) (us : list uuid).

Definition call_group (k : membership_call) : uuid :=
  match k with
  | AddMember g _ | RemoveMember g _ | BulkAddMembers g _ | BulkRemoveMembers g _ => g
  end.

Definition run_membership_call (r : requesting_user) (k : membership_call) : M db () :=
  match k with
  | AddMember g u => add_member r g u
  | RemoveMember g u => remove_member r g u
  | BulkAddMembers g us => _ ← bulk_add_members r g us; mret ()
  | BulkRemoveMembers g us => _ ← bulk_remove_members r g us; mret ()
  end.

(** From [d] to [d'] only rows of group [g] and of the users [us] came or went. *)
Definition moved (g : uuid) (us : list uuid) (d d' : db) : Prop :=
  apps d' = apps d ∧ assignments d' = assignments d ∧ lineage d' = lineage d ∧
  ∀ g' u', (g', u') ∉ (λ u, (g, u)) <$> us → (g', u') ∈ memberships d' ↔ (g', u') ∈ memberships d.

Lemma moved_none g d d' :
  apps d' = apps d → assignments d' = assignments d → lineage d' = lineage d →
  memberships d' = memberships d → moved g [] d d'.
Proof. intros. split_and!; [done..|]. intros. by replace (memberships d'). Qed.

(** A user whose grants changed was moved, in a group that grants. *)
Lemma moved_grants g us d d' k u :
  moved g us d d' → group_grants d' k u ≠ group_grants d k u →
  u ∈ us ∧ set_Exists (λ a : app * uuid, a.1 = k ∧ is_Some (lineage d' !! (a.2, g))) (assignments d').
Proof.
  intros (_ & HA & HL & Hm) Hne. unfold group_grants in Hne.
  assert (∀ M1 M2 : gset (uuid * uuid),
    (∀ g' u', (g', u') ∉ (λ u, (g, u)) <$> us → (g', u') ∈ M1 → (g', u') ∈ M2) →
    set_Exists (λ m : uuid * uuid, m.2 = u ∧ set_Exists (λ a : app * uuid, a.1 = k ∧
      is_Some (lineage d !! (a.2, m.1))) (assignments d)) M1 →
    ¬ set_Exists (λ m : uuid * uuid, m.2 = u ∧ set_Exists (λ a : app * uuid, a.1 = k ∧
      is_Some (lineage d !! (a.2, m.1))) (assignments d)) M2 →
    u ∈ us ∧ set_Exists (λ a : app * uuid, a.1 = k ∧ is_Some (lineage d !! (a.2, g))) (assignments d))
    as Hkey.
  { intros M1 M2 Hsub ([g' u'] & Hin & Hu & Hg) Hno. simpl in *. subst u'.
    destruct (decide ((g', u) ∈ (λ u, (g, u)) <$> us)) as [Hus|Hus].
    - apply list_elem_of_fmap in Hus as (u' & [= -> ->] & Hus). done.
    - destruct Hno. exists (g', u). auto. }
  rewrite HA, HL in *. case_bool_decide as H1; case_bool_decide as H2; try done.
  - apply (Hkey (memberships d') (memberships d)); [|done..]. intros g' u' Hn. by apply Hm.
  - apply (Hkey (memberships d) (memberships d')); [|done..]. intros g' u' Hn. by apply Hm.
Qed.

(** What a membership call does to the tables and to the event log. *)
Definition effect (k : membership_call) (d d' : db) : Prop :=
  (memberships d' = memberships d ∧ moved (call_group k) [] d d' ∧ events d' = events d) ∨
  ∃ e us, moved (call_group k) us d d' ∧ us ≠ [] ∧ events d' = events d ++ [e] ∧
    get EVENT_TYPE_SCIM_TRIGGERS (ev_event_type e) = Some enqueue_membership_change_ ∧
    ev_artifact_id e = call_group k ∧ resolve_ids (ev_metadata e) "user_id" "user_ids" = us.

Definition same_tables (d d' : db) : Prop :=
  apps d' = apps d ∧ assignments d' = assignments d ∧ lineage d' = lineage d ∧ events d' = events d.

Lemma insert_membership_effect g u d r d' : insert_membership g u d = (r, d') →
  same_tables d d' ∧ (r = Ok 1 ∨ memberships d' = memberships d) ∧
  ∀ m, m ≠ (g, u) → m ∈ memberships d' ↔ m ∈ memberships d.
Proof.
  unfold insert_membership. run. case_decide; run; [by intros [= <- <-]; split_and!; auto|].
  destruct (bool_decide _); [by intros [= <- <-]; split_and!; auto|].
  destruct (bool_decide _); [by intros [= <- <-]; split_and!; auto|].
  intros [= <- <-]. split_and!; [done|by left|]. intros m Hm. simpl. set_solver.
Qed.

Lemma delete_membership_effect g u d r d' : delete_membership g u d = (r, d') →
  same_tables d d' ∧ (r = Ok 1 ∨ r = Ok 0 ∧ memberships d' = memberships d) ∧
  ∀ m, m ≠ (g, u) → m ∈ memberships d' ↔ m ∈ memberships d.
Proof.
  unfold delete_membership. run. intros [= <- <-]. split; [done|]. simpl. split; [|set_solver].
  case_decide; [by left|right]. split; [done|]. set_solver.
Qed.

(** A loop of single changes that counts them. *)
Lemma for_sum_effect (m : uuid → M db nat) g us d r d' :
  (∀ u d r d', m u d = (r, d') → same_tables d d' ∧ (r = Ok 1 ∨ memberships d' = memberships d) ∧
     ∀ x, x ≠ (g, u) → x ∈ memberships d' ↔ x ∈ memberships d) →
  for_sum m us d = (r, d') →
  same_tables d d' ∧ (r = Ok 0 → memberships d' = memberships d) ∧
  ∀ x, x ∉ (λ u, (g, u)) <$> us → x ∈ memberships d' ↔ x ∈ memberships d.
Proof.
  intros Hm. revert d r d'. induction us as [|u us IH]; intros d r d'; cbn [for_sum].
  { run. by intros [= <- <-]. }
  rewrite run_bind. destruct (m u d) as [r1 d1] eqn:E1.
  apply Hm in E1 as ((HA & HB & HC & HD) & Hr1 & Hx1).
  destruct r1 as [n|e].
  - rewrite run_bind. destruct (for_sum m us d1) as [r2 d2] eqn:E2.
    apply IH in E2 as ((HA' & HB' & HC' & HD') & Hr2 & Hx2).
    assert (same_tables d d2) as Ht by (split_and!; congruence).
    assert (∀ x, x ∉ (λ u, (g, u)) <$> u :: us → x ∈ memberships d2 ↔ x ∈ memberships d) as Hx.
    { intros x [Hne Hn]%not_elem_of_cons. rewrite Hx2 by done. by apply Hx1. }
    destruct r2 as [k|e]; run; intros [= <- <-]; split_and!; try apply Ht; try done.
    intros [= Hnk]. assert (n = 0 ∧ k = 0) as [-> ->] by lia.
    rewrite Hr2 by done. by destruct Hr1.
  - intros [= <- <-]. split_and!; try done.
    intros x [Hne Hn]%not_elem_of_cons. by apply Hx1.
Qed.

Lemma bulk_effect (m : uuid → M db nat) g us d r d' :
  (∀ u d r d', m u d = (r, d') → same_tables d d' ∧ (r = Ok 1 ∨ memberships d' = memberships d) ∧
     ∀ x, x ≠ (g, u) → x ∈ memberships d' ↔ x ∈ memberships d) →
  match us with [] => mret 0 | _ => transaction (for_sum (m) us) end d = (r, d') →
  same_tables d d' ∧ (r = Ok 0 → memberships d' = memberships d) ∧
  (is_ok r = false → d' = d) ∧
  ∀ x, x ∉ (λ u, (g, u)) <$> us → x ∈ memberships d' ↔ x ∈ memberships d.
Proof.
  intros Hm. destruct us as [|u us]; [run; by intros [= <- <-]|].
  unfold transaction. destruct (for_sum m (u :: us) d) as [r1 d1] eqn:E.
  eapply for_sum_effect in E as (Ht & H0 & Hx); [|exact Hm].
  destruct r1; intros [= <- <-]; split_and!; try apply Ht; done.
Qed.

(** The guards of the membership calls leave the tables alone. *)
Lemma bind_guard_effect {A B} (m : M db A) (f : A → M db B) d r d' (P : db → Prop) :
  (∀ r d', m d = (r, d') → d' = d) → (m ≫= f) d = (r, d') →
  P d → (∀ a, f a d = (r, d') → P d') → P d'.
Proof.
  intros Hg. rewrite run_bind. destruct (m d) as [[a|e] d1];
    rewrite (Hg _ _ eq_refl); [eauto|by intros [= _ <-]].
Qed.

Lemma effect_none k d : effect k d d.
Proof. left. split_and!; [done| |done]. by apply moved_none. Qed.

Lemma effect_logged k us d d1 d' e :
  same_tables d d1 → (∀ x, x ∉ (λ u, (call_group k, u)) <$> us → x ∈ memberships d1 ↔ x ∈ memberships d) →
  us ≠ [] → d' = set_events (λ l, l ++ [e]) d1 →
  get EVENT_TYPE_SCIM_TRIGGERS (ev_event_type e) = Some enqueue_membership_change_ →
  ev_artifact_id e = call_group k → resolve_ids (ev_metadata e) "user_id" "user_ids" = us →
  effect k d d'.
Proof.
  intros (HA & HB & HC & HD) Hx Hus -> Ht Ha Hr. right. exists e, us.
  split; [|by rewrite <- HD]. split_and!; [done..|]. intros g' u' Hn. by apply (Hx (g', u')).
Qed.

Ltac past_with tac :=
  intros Hrun; eapply (bind_guard_effect _ _ _ _ _ (effect _ _)); [|exact Hrun|apply effect_none|]; clear Hrun;
  [tac|].
Ltac past :=
  past_with ltac:(unfold require_admin, require_group, _require_not_idp_group;
    intros ??; run; repeat case_match; congruence).
Lemma run_add_member_effect r g u d res d' :
  add_member r g u d = (res, d') → effect (AddMember g u) d d'.
Proof.
  unfold add_member. past. intros []. past. intros grp. past. intros []. past. intros b.
  past. intros []. past. intros already. past. intros [].
  unfold add_group_member. rewrite run_bind, run_bind.
  destruct (insert_membership g u d) as [r1 d1] eqn:E.
  apply insert_membership_effect in E as (Ht & Hr & Hx).
  assert (∀ x, x ∉ (λ u, (g, u)) <$> [u] → x ∈ memberships d1 ↔ x ∈ memberships d) as Hx'.
  { intros x Hx1. apply Hx. intros ->. apply Hx1. set_solver. }
  destruct r1 as [n|e]; run; intros [= <- <-].
  - by eapply (effect_logged _ [u]).
  - left. destruct Ht as (?&?&?&?). assert (memberships d1 = memberships d) by naive_solver.
    split_and!; [done|by apply moved_none|done].
Qed.

Lemma run_remove_member_effect r g u d res d' :
  remove_member r g u d = (res, d') → effect (RemoveMember g u) d d'.
Proof.
  unfold remove_member. past. intros []. past. intros grp. past. intros [].
  unfold remove_group_member. rewrite run_bind.
  destruct (delete_membership g u d) as [r1 d1] eqn:E.
  apply delete_membership_effect in E as (Ht & Hr & Hx).
  assert (∀ x, x ∉ (λ u, (g, u)) <$> [u] → x ∈ memberships d1 ↔ x ∈ memberships d) as Hx'.
  { intros x Hx1. apply Hx. intros ->. apply Hx1. set_solver. }
  destruct Hr as [->|[-> Hm]]; run; intros [= <- <-].
  - by eapply (effect_logged _ [u]).
  - left. destruct Ht as (?&?&?&?). split_and!; [done|by apply moved_none|done].
Qed.

(** The last steps of a bulk call. *)
Lemma bulk_logged k (m : uuid → M db nat) us d r d' e :
  (∀ u d r d', m u d = (r, d') → same_tables d d' ∧ (r = Ok 1 ∨ memberships d' = memberships d) ∧
     ∀ x, x ≠ (call_group k, u) → x ∈ memberships d' ↔ x ∈ memberships d) →
  (∀ n, get EVENT_TYPE_SCIM_TRIGGERS (ev_event_type (e n)) = Some enqueue_membership_change_ ∧
        ev_artifact_id (e n) = call_group k ∧
        (us ≠ [] → resolve_ids (ev_metadata (e n)) "user_id" "user_ids" = us)) →
  (n ← match us with [] => mret 0 | _ => transaction (for_sum m us) end;
   _ ← when (bool_decide (0 < n)) (modify (set_events (λ l, l ++ [e n]))); mret n) d = (r, d') →
  effect k d d'.
Proof.
  intros Hm He. rewrite run_bind.
  destruct ((match us with [] => mret 0 | _ => transaction (for_sum m us) end : M db nat) d)
    as [r1 d1] eqn:E.
  assert (us = [] → r1 = Ok 0) as Hnil by (intros ->; revert E; run; congruence).
  eapply bulk_effect in E as (Ht & H0 & Hf & Hx); [|exact Hm].
  destruct r1 as [n|x]; [|intros [= _ <-]; rewrite Hf by done; apply effect_none].
  destruct (decide (n = 0)) as [->|Hn].
  - run. intros [= _ <-]. left. destruct Ht as (?&?&?&?).
    specialize (H0 eq_refl). split_and!; [done|by apply moved_none|done].
  - rewrite bool_decide_eq_true_2 by lia. simpl. run. intros [= _ <-].
    assert (us ≠ []) as Hus by (intros Hus; by injection (Hnil Hus)).
    destruct (He n) as (? & ? & ?). by eapply (effect_logged _ us); auto.
Qed.

Lemma bulk_metadata_ids name n us :
  us ≠ [] → resolve_ids (bulk_metadata name n us) "user_id" "user_ids" = us.
Proof. by destruct us. Qed.

Lemma run_bulk_add_effect r g us d res d' :
  bulk_add_members r g us d = (res, d') → effect (BulkAddMembers g us) d d'.
Proof.
  unfold bulk_add_members. past. intros []. past. intros grp. past. intros [].
  apply bulk_logged.
  - intros u d1 r1 d2 (Ht & Hr & Hx)%insert_membership_effect. naive_solver.
  - intros n. split_and!; [done|done|apply bulk_metadata_ids].
Qed.

Lemma run_bulk_remove_effect r g us d res d' :
  bulk_remove_members r g us d = (res, d') → effect (BulkRemoveMembers g us) d d'.
Proof.
  unfold bulk_remove_members. past. intros []. past. intros grp. past. intros [].
  apply bulk_logged.
  - intros u d1 r1 d2 (Ht & Hr & Hx)%delete_membership_effect. naive_solver.
  - intros n. split_and!; [done|done|apply bulk_metadata_ids].
Qed.

Lemma membership_call_effect r k d res d' :
  run_membership_call r k d = (res, d') → effect k d d'.
Proof.
  destruct k as [g u|g u|g us|g us]; simpl.
  - apply run_add_member_effect.
  - apply run_remove_member_effect.
  - rewrite run_bind. destruct (bulk_add_members r g us d) as [[n|e] d1] eqn:E;
      apply run_bulk_add_effect in E; run; by intros [= _ <-].
  - rewrite run_bind. destruct (bulk_remove_members r g us d) as [[n|e] d1] eqn:E;
      apply run_bulk_remove_effect in E; run; by intros [= _ <-].
Qed.

(** ** The queue *)

Section enqueue.
Context {W : Type} `{ScimIdsFresh W}.
Implicit Types s : scim W.

(** A fresh entry, due at once, for the key. *)
Definition queued (k : uuid * resource_type * uuid) s : Prop :=
  ∃ i e, sc_queue s !! i = Some e ∧ en_key e = k ∧ en_attempts e = 0 ∧
    en_next_attempt_at e = None ∧ en_enqueued_at e = sc_clock s.

(** The worker has given up on the key: its entry, and only an entry, is
    dead-lettered until an administrator revives it. *)
Definition given_up (k : uuid * resource_type * uuid) s : Prop :=
  ∃ i e, sc_queue s !! i = Some e ∧ en_key e = k ∧ en_dead_letter_at e ≠ None.
(** The worker will take the key up: a fresh entry that it lists. *)
Definition awaits (k : uuid * resource_type * uuid) s : Prop :=
  ∃ i e, sc_queue s !! i = Some e ∧ en_key e = k ∧ en_attempts e = 0 ∧ en_enqueued_at e = sc_clock s ∧
    en_dead_letter_at e = None ∧ en_next_attempt_at e = None.

(** No entry is dead-lettered that [D] does not admit. *)
Definition dead_within (D : uuid * resource_type * uuid → Prop) s : Prop :=
  ∀ i e, sc_queue s !! i = Some e → en_dead_letter_at e ≠ None → D (en_key e).

Definition tables (d : db) (T : gmap uuid target) s : Prop := sc_dir s = d ∧ sc_targets s = T.

(** A call that only adds entries, or refreshes them, and never fails. *)
Definition enqueues (m : M (scim W) ()) : Prop :=
  (∀ s, (m s).1 = Ok ()) ∧ (∀ k, keeps (queued k) m) ∧ (∀ D, keeps (dead_within D) m) ∧
  ∀ d T, keeps (tables d T) m.

Lemma find_entry_Some Q k i e : find_entry Q k = Some (i, e) → Q !! i = Some e ∧ en_key e = k.
Proof.
  unfold find_entry. intros Hh%head_Some_elem_of. apply list_elem_of_filter in Hh as [Hk Hi].
  by apply elem_of_map_to_list in Hi.
Qed.

Lemma keeps_queued_upsert k p ty x : keeps (queued k) (upsert_entry (W := W) p ty x).
Proof.
  intros s (i & e & Hi & Hk & Ha & Hn & Ht). unfold upsert_entry. run.
  destruct (bool_decide _); [by exists i, e|].
  destruct (find_entry (sc_queue s) (p, ty, x)) as [[j f]|] eqn:E; simpl.
  - apply find_entry_Some in E as [Hj Hf]. destruct (decide (i = j)) as [->|Hne].
    + exists j, (refreshed (sc_clock s) f). simpl. rewrite lookup_insert_eq.
      assert (f = e) as -> by congruence. by rewrite <- Hk.
    + exists i, e. simpl. by rewrite lookup_insert_ne.
  - run. destruct (bool_decide _) eqn:Eb; [by exists i, e|].
    apply bool_decide_eq_false in Eb. exists i, e. simpl. rewrite lookup_insert_ne; [done|].
    intros <-. by apply Eb.
Qed.

Lemma keeps_dead_upsert D p ty x : keeps (dead_within D) (upsert_entry (W := W) p ty x).
Proof.
  intros s HD. unfold upsert_entry. run. destruct (bool_decide _); [done|].
  destruct (find_entry (sc_queue s) (p, ty, x)) as [[j f]|] eqn:E; simpl.
  - apply find_entry_Some in E as [Hj Hf]. intros i e. simpl.
    rewrite lookup_insert_Some. intros [[<- <-]|[_ Hi]]; [|by eapply HD].
    intros Hd. exact (HD j f Hj Hd).
  - run. destruct (bool_decide _); [done|]. intros i e. simpl.
    rewrite lookup_insert_Some. intros [[_ <-]|[_ Hi]]; [done|by eapply HD].
Qed.

Lemma enqueues_upsert p ty x : enqueues (best_effort (upsert_entry (W := W) p ty x)).
Proof.
  assert (∀ s, (best_effort (upsert_entry p ty x) s) = (Ok (), (upsert_entry p ty x s).2)) as Hrun.
  { intros s. unfold best_effort, attempt. rewrite run_bind. by destruct (upsert_entry p ty x s). }
  assert (∀ I, keeps I (upsert_entry p ty x) → keeps I (best_effort (upsert_entry p ty x))) as Hk.
  { intros I HI s Hs. rewrite Hrun. by apply HI. }
  split_and!; intros.
  - by rewrite Hrun.
  - apply Hk, keeps_queued_upsert.
  - apply Hk, keeps_dead_upsert.
  - apply Hk. intros s Hs. unfold upsert_entry. run. destruct (bool_decide _); [done|].
    destruct (find_entry _ _) as [[j f]|]; run; [done|]. by destruct (bool_decide _).
Qed.

(** The upsert leaves a fresh entry. *)
Lemma upsert_queued p ty x d T s :
  is_Some (T !! p) → tables d T s → queued (p, ty, x) (best_effort (upsert_entry p ty x) s).2.
Proof.
  intros [t Ht] [_ HT]. unfold best_effort, attempt, upsert_entry. rewrite run_bind. run.
  rewrite HT, Ht. simpl. destruct (find_entry (sc_queue s) (p, ty, x)) as [[j f]|] eqn:E; simpl.
  - apply find_entry_Some in E as [_ Hf]. exists j, (refreshed (sc_clock s) f). simpl.
    by rewrite lookup_insert_eq.
  - rewrite fresh_queue_id, bool_decide_eq_false_2 by (by intros []). simpl.
    eexists (scim_id s), _. simpl. by rewrite lookup_insert_eq.
Qed.

Lemma enqueues_ret : enqueues (mret ()).
Proof. split_and!; intros; [done|by intros ?..]. Qed.
Lemma enqueues_bind (m n : M (scim W) ()) : enqueues m → enqueues n → enqueues (_ ← m; n).
Proof.
  intros (A1 & B1 & C1 & D1) (A2 & B2 & C2 & D2).
  split; [|split_and!; intros; apply keeps_bind; auto].
  intros s. rewrite run_bind. specialize (A1 s). destruct (m s) as [[[]|e] s']; [apply A2|done].
Qed.
Lemma enqueues_for_each {A} (m : A → M (scim W) ()) l : (∀ a, enqueues (m a)) → enqueues (for_each m l).
Proof.
  intros Hm. induction l as [|a l IH]; [apply enqueues_ret|]. by apply enqueues_bind.
Qed.
Lemma enqueues_when b m : enqueues m → enqueues (when b m).
Proof. destruct b; [done|intros _; apply enqueues_ret]. Qed.

(** What one part of a sequence queues, the sequence queues. *)
Lemma run_enqueues (m n : M (scim W) ()) s : enqueues m → (_ ← m; n) s = n (m s).2.
Proof. intros (A & _). rewrite run_bind. specialize (A s). by destruct (m s) as [[[]|e] s']; simpl in *. Qed.

Lemma for_each_queued {A} (m : A → M (scim W) ()) l a k d T s :
  (∀ a, enqueues (m a)) → a ∈ l → (∀ s, tables d T s → queued k (m a s).2) →
  tables d T s → queued k (for_each m l s).2.
Proof.
  intros Hm Hin Ha. revert s. induction l as [|b l IH]; intros s Hs; [by apply elem_of_nil in Hin|].
  cbn [for_each]. rewrite run_enqueues by done. destruct (enqueues_for_each m l Hm) as (_ & Hq & _).
  destruct (Hm b) as (_ & _ & _ & HT). apply elem_of_cons in Hin as [<-|Hin].
  - by apply Hq, Ha.
  - apply IH; [done|by apply HT].
Qed.

(** What [enqueue_membership_change] does for one provider. *)
Definition membership_push (g : uuid) (us : list uuid) (kv : uuid * target) : M (scim W) () :=
  _ ← for_each (λ u, best_effort (enqueue_user kv.1 u)) us;
  when (bool_decide (st_membership_mode kv.2 = direct)) (best_effort (enqueue_group kv.1 g)).

Lemma enqueues_membership_push g us kv : enqueues (membership_push g us kv).
Proof.
  apply enqueues_bind; [apply enqueues_for_each; intros; apply enqueues_upsert|].
  apply enqueues_when, enqueues_upsert.
Qed.

Lemma run_membership_dispatch e us s :
  get EVENT_TYPE_SCIM_TRIGGERS (ev_event_type e) = Some enqueue_membership_change_ →
  resolve_ids (ev_metadata e) "user_id" "user_ids" = us → us ≠ [] →
  (for_each scim_dispatch [e] s).2 =
  (for_each (membership_push (ev_artifact_id e) us) (scim_sps_granting_via_group s (ev_artifact_id e)) s).2.
Proof.
  intros Ht Hr Hus. cbn [for_each]. rewrite run_bind. unfold scim_dispatch. rewrite Ht.
  unfold best_effort, attempt at 1. rewrite run_bind. simpl. unfold enqueue_membership_change.
  rewrite Hr. destruct us as [|u us]; [done|]. run.
  change (λ kv : uuid * target, _) with (membership_push (ev_artifact_id e) (u :: us)).
  by destruct (for_each _ _ s).
Qed.

Lemma grants_via_group_Exists s g p :
  grants_via_group s g p = true ↔
  set_Exists (λ a : app * uuid, a.1 = (sp, p) ∧ is_Some (lineage (sc_dir s) !! (a.2, g)))
    (assignments (sc_dir s)).
Proof. apply bool_decide_eq_true. Qed.

Lemma elem_of_sps_via_group s g p t :
  sc_targets s !! p = Some t → st_scim_enabled t = true → grants_via_group s g p = true →
  (p, t) ∈ scim_sps_granting_via_group s g.
Proof.
  intros. unfold scim_sps_granting_via_group, scim_enabled_sps.
  rewrite !list_elem_of_filter. split; [done|]. split; [done|]. by apply elem_of_map_to_list.
Qed.

Lemma membership_change_queued r k s res s' p t u :
  dispatching (run_membership_call r k) s = (res, s') →
  sc_targets s !! p = Some t → st_scim_enabled t = true →
  (grants_user s' u p ≠ grants_user s u p → queued (p, user_resource, u) s') ∧
  (st_membership_mode t = direct → memberships (sc_dir s') ≠ memberships (sc_dir s) →
     grants_via_group s' (call_group k) p = true →
     queued (p, group_resource, call_group k) s') ∧
  dead_within (λ key, given_up key s) s'.
Proof.
  unfold dispatching. destruct (run_membership_call r k (sc_dir s)) as [res1 d] eqn:E.
  intros [= -> <-] Ht Hen. set (s1 := set_dir (λ _, d) s).
  assert (dead_within (λ key, given_up key s) s1) as Hdead by (intros i e; unfold given_up; eauto).
  apply membership_call_effect in E
    as [(Hm & Hmv & Hev)|(e & us & Hmv & Hus & Hev & Htr & Ha & Hr)].
  - rewrite Hev, drop_all. simpl. split_and!; [|done|done].
    intros Hne. destruct Hne. unfold grants_user, app_open_to_all. simpl.
    destruct (decide (group_grants d (sp, p) u = group_grants (sc_dir s) (sp, p) u)) as [Heq|Hne].
    + rewrite Heq. by destruct Hmv as (-> & _).
    + apply (moved_grants _ _ _ _ _ _ Hmv) in Hne as [Hne _]. by apply elem_of_nil in Hne.
  - rewrite Hev, drop_app_length. rewrite (run_membership_dispatch e us) by done.
    rewrite Ha. fold s1.
    assert (enqueues (for_each (membership_push (call_group k) us)
      (scim_sps_granting_via_group s1 (call_group k)))) as (_ & _ & HD & HT)
      by (apply enqueues_for_each; intros; apply enqueues_membership_push).
    assert (tables d (sc_targets s) s1) as Hs1 by done.
    destruct (HT _ _ _ Hs1) as [Hdir _].
    assert (∀ key, grants_via_group s1 (call_group k) p = true →
      (∀ s, tables d (sc_targets s1) s → queued key (membership_push (call_group k) us (p, t) s).2) →
      queued key (for_each (membership_push (call_group k) us)
                    (scim_sps_granting_via_group s1 (call_group k)) s1).2) as Hq.
    { intros key Hg Hkey. eapply for_each_queued; [intros; apply enqueues_membership_push| |exact Hkey|done].
      by apply elem_of_sps_via_group. }
    split_and!; [| |by apply HD].
    + unfold grants_user at 1, app_open_to_all. rewrite Hdir. intros Hne.
      assert (group_grants d (sp, p) u ≠ group_grants (sc_dir s) (sp, p) u) as Hne'.
      { intros Heq. apply Hne. unfold grants_user, app_open_to_all. rewrite Heq.
        by destruct Hmv as (-> & _). }
      destruct (moved_grants _ _ _ _ _ _ Hmv Hne') as [Hin Hg].
      apply Hq; [by apply grants_via_group_Exists|]. intros s2 Hs2. unfold membership_push.
      rewrite run_enqueues by (apply enqueues_for_each; intros; apply enqueues_upsert).
      assert (enqueues (when (bool_decide (st_membership_mode t = direct))
        (best_effort (enqueue_group p (call_group k))))) as (_ & Hk & _)
        by apply enqueues_when, enqueues_upsert.
      apply Hk. eapply for_each_queued; [intros; apply enqueues_upsert|exact Hin| |exact Hs2].
      intros s3. by apply upsert_queued.
    + intros Hdm _ Hg. apply Hq; [by unfold grants_via_group in *; rewrite Hdir in Hg|].
      intros s2 Hs2. unfold membership_push.
      pose proof (enqueues_for_each (λ u, best_effort (enqueue_user p u)) us) as Hu.
      assert (enqueues (for_each (λ u, best_effort (enqueue_user p u)) us)) as Hu'
        by (apply Hu; intros; apply enqueues_upsert).
      rewrite run_enqueues by done. rewrite bool_decide_eq_true_2 by done. simpl.
      eapply upsert_queued; [by rewrite Ht|]. by apply Hu'.
Qed.

Lemma queued_awaits k s s' : queued k s' → dead_within (λ key, given_up key s) s' → ¬ given_up k s → awaits k s'.
Proof.
  intros (i & e & Hi & <- & Ha & Hn & He) Hd Hno. exists i, e. split_and!; try done.
  destruct (en_dead_letter_at e) eqn:E; [|done]. destruct Hno. apply (Hd i e Hi). congruence.
Qed.

End enqueue.
