(* ===== verification/ScimFindings.v ===== *)
(** * Where the outbound SCIM code and its intent part

    A concrete tenant and receiver, and closed runs on them: changes of the
    group hierarchy that alter a user's scope and enqueue nothing, and a
    change that lands while its predecessor is being pushed and is lost.  Then
    the theorems with hypotheses, applied to that tenant. *)

From stdpp Require Import gmap strings pretty.
From S2P Require Import Prelude GroupDb GroupService AppAccess GroupProofs GroupFindings ScimDb ScimClient ScimWorker ScimDispatch ScimProofs ScimSync ScimEnqueue.
#[local] Open Scope Z_scope.

(** ** A concrete receiver *)
Module ScimDemo.
(** What it holds, by URL, and how many resources it has created. *)
Record server := mk_server { held : gmap string payload; created : nat }.

Definition remote_name (n : nat) : string := "u" +:+ pretty n +:+ "u".
Definition answer (code : Z) (id : option string) : reply :=
  Answer (mk_http_response code id None None None None).

#[export] Instance receiver : Receiver server := λ rq w,
  match hq_verb rq, hq_json rq with
  | POST, Some body =>
      let x := remote_name (created w) in
      (answer 201 (Some x),
       mk_server (<[hq_url rq +:+ "/" +:+ x := body]> (held w)) (S (created w)))
  | PUT, Some body =>
      match held w !! hq_url rq with
      | Some _ => (answer 200 None, mk_server (<[hq_url rq := body]> (held w)) (created w))
      | None => (answer 404 None, w)
      end
  | DELETE, _ =>
      match held w !! hq_url rq with
      | Some _ => (answer 204 None, mk_server (delete (hq_url rq) (held w)) (created w))
      | None => (answer 404 None, w)
      end
  | _, None => (answer 400 None, w)
  end.
#[export] Instance storable_answers : StorableAnswers server.
Proof.
  intros [v url token [body|]] w; unfold respond, receiver, answer; simpl; destruct v; simpl; try done;
    by destruct (held w !! url).
Qed.

(** ** Ids and a tenant *)

#[export] Instance ids : ScimIds server := λ s,
  Pos.succ (Pos.max (top (sc_queue s)) (top (sc_log s))).
#[export] Instance ids_fresh : ScimIdsFresh server.
Proof.
  assert (∀ A (m : gmap uuid A) x, (top m < x)%positive → m !! x = None) as Hnew.
  { intros A m x Hx. destruct (m !! x) eqn:E; [|done].
    assert (x <= top m)%positive by (apply top_max; by eexists). lia. }
  split; intros s; apply Hnew; unfold scim_id, ids; lia.
Qed.
#[export] Instance texts : UuidText := λ u, pretty (Npos u).
Lemma texts_ok (u : uuid) : no_nul (uuid_text u) = true.
Proof. apply (no_nul_pretty_go (Npos u)). done. Qed.

Definition base : string := "https://wiki/scim".
Definition wiki (m : membership_mode) : target := mk_target true (Some base) None m.

(** Service provider 5 is SCIM-enabled and has a credential; users 1 and 2
    have primary addresses; nothing is queued and the receiver is empty. *)
Definition tenant (m : membership_mode) (d : db) : scim server :=
  mk_scim d 0 {[5%positive := wiki m]}
    {[30%positive := mk_credential 5 (Some "token") None 0 None]}
    {[1%positive := mk_person (Some "ann@x.org") (Some "Ann") (Some "Lee") false;
      2%positive := mk_person (Some "bob@x.org") (Some "Bob") None false]}
    ∅ ∅ ∅ ∅ (mk_server ∅ 0).
End ScimDemo.
Import Tenant ScimDemo.

(** ** Changes that nothing reports

    [silent call d before after]: [call] returns, takes user 1's scope for
    provider 5 from [before] to [after], and enqueues nothing. *)
Definition silent (call : M db ()) (d : db) (before after : bool) : bool :=
  let s := tenant effective d in
  let '(r, s') := dispatching call s in
  is_ok r && eqb (grants_user s 1 5) before && eqb (grants_user s' 1 5) after &&
  bool_decide (sc_queue s' = ∅).

Definition two_groups : list (requesting_user * group_call) :=
  [(boss, CallCreate "All" None None); (boss, CallCreate "Ops" None None);
   (boss, CallAssign 5 1); (boss, CallAddMember 2 1)]%positive.
Definition apart : db := run_history two_groups Tenant.empty_tenant.
Definition nested : db := run_history (two_groups ++ [(boss, CallAddChild 1 2)%positive]) Tenant.empty_tenant.
Definition direct_grant : db := run_history (two_groups ++ [(boss, CallAddMember 1 1)%positive]) Tenant.empty_tenant.

(** Four calls of the group service change which providers a user is
    granted and enqueue no push: putting the user's group below one that is
    granted a provider, taking it out again, deleting a group that is granted
    one, and adding the user to groups from the user's page. *)
Theorem hierarchy_changes_not_pushed :
  silent (add_child boss 1 2) apart false true = true ∧
  silent (remove_child boss 1 2) nested true false = true ∧
  silent (svc_delete_group boss 1) direct_grant true false = true ∧
  silent (discard (svc_bulk_add_user_to_groups boss 1 [1%positive])) apart false true = true.
Proof. split_and!; vm_compute; reflexivity. Qed.

(** ** A change between a push and its record *)

(** User 1 is granted provider 5 and queued for it. *)
Definition queued_tenant : scim server :=
  set_queue (insert 1%positive (mk_entry 5 user_resource 1 0 0 None None None)) (tenant effective direct_grant).

(** Another process renames the user and logs it. *)
Definition rename (s : scim server) : scim server :=
  (scim_dispatch (mk_event None "user" 1 "user_updated" [])
     (set_people (insert 1%positive (mk_person (Some "ann@x.org") (Some "Eve") (Some "Lee") false)) s)).2.

(** [_process_entry] of the worker, with another process's step between the
    exchange and the record of its outcome. *)
Definition interleaved (other : scim server → scim server) (p : uuid) (t : target) (b : string)
    (i : uuid) (e : entry) (c : uuid) (token : string) (now : Z) : M (scim server) bucket :=
  log_id ← start_attempt p (en_type e) (en_resource e) (S (en_attempts e)) now;
  r ← attempt (_dispatch_push p t b (en_type e) (en_resource e) token);
  _ ← modify other;
  record_result i e log_id now (Some c) r.

Lemma interleaved_alone p t b i e c token now s :
  interleaved id p t b i e c token now s = _process_entry p t b i e (Usable c token) now s.
Proof. done. Qed.

Definition lost : outcome bucket * scim server :=
  interleaved rename 5 (wiki effective) base 1 (mk_entry 5 user_resource 1 0 0 None None None)
    30 "token" 0 queued_tenant.

(** A change of a user that is logged after the user's data was sent and
    before the worker records the success is never pushed: its queue entry is
    the one the worker deletes, and the receiver keeps the old data. *)
Theorem change_during_push_lost :
  sc_queue (rename queued_tenant) !! 1%positive ≠ None ∧
  lost.1 = Ok succeeded ∧ sc_queue lost.2 = ∅ ∧
  ∃ x old, get_one lost.2 5 user_resource 1 = Some x ∧
    held (sc_world lost.2) !! user_url base x = Some (UserPayload old) ∧
    up_given_name old = Some "Ann" ∧
    pe_first_name <$> sc_people lost.2 !! 1%positive = Some (Some "Eve").
Proof.
  split; [vm_compute; done|]. split; [vm_compute; reflexivity|]. split; [vm_compute; reflexivity|].
  eexists _, _. split; [vm_compute; reflexivity|]. split; [vm_compute; reflexivity|].
  split; vm_compute; reflexivity.
Qed.

(** ** An answer that stops the queue *)

(** A GitLab receiver whose licence refusal carries the character 0. *)
Record refusing := mk_refusing { asked : nat }.
Definition nul_text : string := "license " +:+ String.String (Ascii.ascii_of_nat 0) "".
#[local] Instance refuser : Receiver refusing := λ _ w,
  (Answer (mk_http_response 403 None None (Some nul_text) None None), mk_refusing (S (asked w))).
#[local] Instance refuser_ids : ScimIds refusing := λ s,
  Pos.succ (Pos.max (top (sc_queue s)) (top (sc_log s))).
Definition refused_tenant : scim refusing :=
  mk_scim direct_grant 0 {[5%positive := mk_target true (Some base) (Some "gitlab") effective]} ∅
    {[1%positive := mk_person (Some "ann@x.org") (Some "Ann") (Some "Lee") false;
      2%positive := mk_person (Some "bob@x.org") (Some "Bob") None false]}
    ∅ {[1%positive := mk_entry 5 user_resource 1 0 0 None None None;
        2%positive := mk_entry 5 user_resource 2 1 0 None None None]} ∅ ∅ (mk_refusing 0).
Definition stuck_drain (s : scim refusing) : outcome (list bucket) * scim refusing :=
  process_pending_pushes (λ _ _, Usable 30%positive "token") s.
Definition twice_drained : scim refusing := (stuck_drain (stuck_drain refused_tenant).2).2.

(** The reason of such a refusal is text of the receiver, and the database
    refuses it: the drain raises at the entry, leaves it and every later entry
    as they were, and does so again at every run, asking the receiver each time,
    with no attempt counted. *)
Theorem nul_answer_stops_queue :
  (stuck_drain refused_tenant).1 = Raise (PythonError "DataError") ∧
  (stuck_drain (stuck_drain refused_tenant).2).1 = Raise (PythonError "DataError") ∧
  sc_queue twice_drained = sc_queue refused_tenant ∧ asked (sc_world twice_drained) = 2%nat.
Proof. split_and!; vm_compute; reflexivity. Qed.

Import Tenant ScimDemo.

Abbreviation first_entry := (mk_entry 5 user_resource 1 0 0 None None None).
Abbreviation resolver := (λ (s : scim server) (p : uuid), Usable 30 "token").


Abbreviation pushed :=
  (_process_entry 5 (wiki effective) base 1 first_entry (Usable 30 "token") 0 queued_tenant).


Abbreviation joined := (dispatching (run_membership_call boss (AddMember 1 1)) (tenant effective apart)).

