(* ===== verification/MailDb.v ===== *)
(** * E-mail addresses and privileged domains

    The statements of app/database/user_emails.py and settings.py, the user
    columns the mail services read, and what they need of
    database/users/saml_assignment.py and database/saml/domains.py.  Groups,
    memberships, the audit log, accounts and tokens are the state of
    OAuthDb.  The address column is [citext]: it compares without regard to case.  Nonces are drawn
    one after the other; [ma_draws] counts them. *)

From stdpp Require Import gmap strings.
From S2P Require Import Prelude GroupDb OAuthDb.
#[local] Open Scope Z_scope.

Record email_row := mk_email {
  em_user : uuid;
  em_email : string;
  em_is_primary : bool;
  em_verified_at : option Z;
  em_verify_nonce : string;
  em_set_password_nonce : string;
  em_created_at : Z;
  em_domain : string;
}.

(** Of a user, the columns these services look at beside those of
    [account_row]. *)
Record login_row := mk_login {
  lo_first_name : string;
  lo_last_name : string;
  lo_password_hash : option string;
  lo_password_changed_at : option Z;
  lo_password_reset_required : bool;
  lo_hibp_prefix : option string;
  lo_hibp_check_hmac : option string;
  lo_policy_at_set : option (Z * Z);           (* length, score *)
  lo_mfa_enabled : bool;
  lo_mfa_method : option string;
  lo_saml_idp : option uuid;
}.
Definition with_credentials (hash : option string) (changed_at : option Z) (reset_required : bool)
    (prefix check_hmac : option string) (policy : option (Z * Z)) (l : login_row) : login_row :=
  mk_login (lo_first_name l) (lo_last_name l) hash changed_at reset_required prefix check_hmac policy
    (lo_mfa_enabled l) (lo_mfa_method l) (lo_saml_idp l).
Definition with_reset_required (b : bool) (l : login_row) : login_row :=
  with_credentials (lo_password_hash l) (lo_password_changed_at l) b (lo_hibp_prefix l)
    (lo_hibp_check_hmac l) (lo_policy_at_set l) l.
Definition with_mfa (enabled : bool) (method : option string) (l : login_row) : login_row :=
  mk_login (lo_first_name l) (lo_last_name l) (lo_password_hash l) (lo_password_changed_at l)
    (lo_password_reset_required l) (lo_hibp_prefix l) (lo_hibp_check_hmac l) (lo_policy_at_set l)
    enabled method (lo_saml_idp l).
Definition with_idp (idp : option uuid) (l : login_row) : login_row :=
  mk_login (lo_first_name l) (lo_last_name l) (lo_password_hash l) (lo_password_changed_at l)
    (lo_password_reset_required l) (lo_hibp_prefix l) (lo_hibp_check_hmac l) (lo_policy_at_set l)
    (lo_mfa_enabled l) (lo_mfa_method l) idp.

Record domain_row := mk_domain { do_domain : string; do_created_at : Z }.

(** The row of tenant_security_settings. *)
Record security_row := mk_security {
  session_timeout_seconds : option Z;
  persistent_sessions : bool;
  allow_users_edit_profile : bool;
  inactivity_threshold_days : option Z;
  max_certificate_lifetime_years : Z;
  certificate_rotation_window_days : Z;
  minimum_password_length : Z;
  minimum_zxcvbn_score : Z;
  group_assertion_scope : string;
  require_email_verification_for_login : bool;
  required_auth_strength : string;
}.

Record mail := mk_mail {
  ma_tenant : tenant;
  ma_draws : nat;
  ma_logins : gmap uuid login_row;
  ma_emails : gmap uuid email_row;
  ma_domains : gmap uuid domain_row;
  ma_links : gmap uuid (uuid * uuid);          (* domain, group *)
  ma_domain_idps : gmap uuid uuid;             (* domain to SAML provider *)
  ma_enabled_idps : gset uuid;
  ma_security : option security_row;
}.
Definition ma_dir (s : mail) : db := dir (ma_tenant s).
Definition ma_clock (s : mail) : Z := clock (ma_tenant s).

(** Row ids, and the [n]th of [encode(gen_random_bytes(24), 'hex')]. *)
Class MailIds := mail_id : mail → uuid.
Class Nonces := nonce : nat → string.

Section setters.
Implicit Types s : mail.
Definition set_tenant f s := mk_mail (f (ma_tenant s)) (ma_draws s) (ma_logins s)
  (ma_emails s) (ma_domains s) (ma_links s) (ma_domain_idps s) (ma_enabled_idps s)
  (ma_security s).
Definition set_draws f s := mk_mail (ma_tenant s) (f (ma_draws s)) (ma_logins s)
  (ma_emails s) (ma_domains s) (ma_links s) (ma_domain_idps s) (ma_enabled_idps s)
  (ma_security s).
Definition set_logins f s := mk_mail (ma_tenant s) (ma_draws s) (f (ma_logins s))
  (ma_emails s) (ma_domains s) (ma_links s) (ma_domain_idps s) (ma_enabled_idps s)
  (ma_security s).
Definition set_emails f s := mk_mail (ma_tenant s) (ma_draws s) (ma_logins s)
  (f (ma_emails s)) (ma_domains s) (ma_links s) (ma_domain_idps s) (ma_enabled_idps s)
  (ma_security s).
Definition set_domains f s := mk_mail (ma_tenant s) (ma_draws s) (ma_logins s)
  (ma_emails s) (f (ma_domains s)) (ma_links s) (ma_domain_idps s) (ma_enabled_idps s)
  (ma_security s).
Definition set_links f s := mk_mail (ma_tenant s) (ma_draws s) (ma_logins s)
  (ma_emails s) (ma_domains s) (f (ma_links s)) (ma_domain_idps s) (ma_enabled_idps s)
  (ma_security s).
Definition set_security f s := mk_mail (ma_tenant s) (ma_draws s) (ma_logins s)
  (ma_emails s) (ma_domains s) (ma_links s) (ma_domain_idps s) (ma_enabled_idps s)
  (f (ma_security s)).
Definition set_domain_idps f s := mk_mail (ma_tenant s) (ma_draws s) (ma_logins s)
  (ma_emails s) (ma_domains s) (ma_links s) (f (ma_domain_idps s)) (ma_enabled_idps s)
  (ma_security s).
End setters.

(** A call of the token and account code, and one of the group code. *)
Definition in_tenant {A} (m : M tenant A) : M mail A :=
  λ s, let '(r, t) := m (ma_tenant s) in (r, set_tenant (λ _, t) s).
Definition in_groups {A} (m : M db A) : M mail A :=
  λ s, let '(r, d) := m (ma_dir s) in (r, set_tenant (set_dir (λ _, d)) s).

(** ** Addresses *)

Definition at_sign : Ascii.ascii := Ascii.ascii_of_nat 64.
Definition same_email (x y : string) : bool := bool_decide (lower_string x = lower_string y).

(** [s.split("@", 1)[1] if "@" in s]. *)
Fixpoint after_at (l : list Ascii.ascii) : option (list Ascii.ascii) :=
  match l with
  | [] => None
  | c :: l => if decide (c = at_sign) then Some l else after_at l
  end.
Fixpoint until_at (l : list Ascii.ascii) : list Ascii.ascii :=
  match l with
  | [] => []
  | c :: l => if decide (c = at_sign) then [] else c :: until_at l
  end.
(** [s.split("@")[1] if "@" in s else ""]. *)
Definition email_domain (s : string) : string :=
  match after_at (chars s) with
  | Some l => String.string_of_list_ascii (until_at l)
  | None => ""
  end.

Example email_domain_ex : email_domain "ann@x.org@y" = "x.org" ∧ email_domain "ann" = "".
Proof. split; reflexivity. Qed.

(** [email like '%@' || domain], the wildcards of [domain] escaped. *)
Definition on_domain (email domain : string) : bool :=
  bool_decide (at_sign :: chars (lower_string domain) `suffix_of` chars (lower_string email)).

(** ** database/user_emails.py *)

Section reads.
Implicit Types s : mail.

Definition user_emails s (u : uuid) : list (uuid * email_row) :=
  filter (λ kv : uuid * email_row, em_user kv.2 = u) (map_to_list (ma_emails s)).
Definition primary_row s (u : uuid) : option (uuid * email_row) :=
  head (filter (λ kv : uuid * email_row, em_is_primary kv.2 = true) (user_emails s u)).

Definition get_primary_email s (u : uuid) : option string := em_email ∘ snd <$> primary_row s u.

(** [order by is_primary desc, created_at asc]. *)
Definition primary_first (x y : uuid * email_row) : Prop :=
  match em_is_primary x.2, em_is_primary y.2 with
  | true, false => True
  | false, true => False
  | _, _ => em_created_at x.2 <= em_created_at y.2
  end.
#[export] Instance primary_first_dec : RelDecision primary_first.
Proof. intros x y. unfold primary_first. repeat case_match; apply _. Defined.
Definition list_user_emails s (u : uuid) : list (uuid * email_row) :=
  merge_sort primary_first (user_emails s u).

Definition email_exists s (email : string) : bool :=
  bool_decide (map_Exists (λ _ r, same_email (em_email r) email = true) (ma_emails s)).

Definition get_email_by_id s (i u : uuid) : option email_row :=
  r ← ma_emails s !! i; if decide (em_user r = u) then Some r else None.
Definition get_email_with_nonce s (i u : uuid) : option email_row := get_email_by_id s i u.
Definition get_email_for_verification s (i : uuid) : option email_row := ma_emails s !! i.
Definition count_user_emails s (u : uuid) : nat := length (user_emails s u).
Definition get_primary_email_for_resend s (u : uuid) : option (uuid * email_row) := primary_row s u.

Definition list_emails_for_users s (us : list uuid) (primary : bool) : list (uuid * string) :=
  u ← us;
  (λ kv : uuid * email_row, (u, em_email kv.2)) <$>
    filter (λ kv : uuid * email_row, primary = true ∨ em_is_primary kv.2 = false)
      (list_user_emails s u).

(** database/users/core.py.  The row of [get_user_by_id] says whether there is
    a password, but holds neither [password_hash] nor [password_changed_at]. *)
Record user_row := mk_user {
  ur_first_name : string;
  ur_last_name : string;
  ur_role : role;
  ur_is_inactivated : bool;
  ur_is_anonymized : bool;
  ur_saml_idp_id : option uuid;
  ur_saml_idp_name : option string;
  ur_has_password : bool;
  ur_password_reset_required : bool;
  ur_mfa_enabled : bool;
  ur_mfa_method : option string;
}.
Definition get_user_row s (u : uuid) : option user_row :=
  a ← accounts (ma_tenant s) !! u;
  l ← ma_logins s !! u;
  Some (mk_user (lo_first_name l) (lo_last_name l) (us_role a) (us_is_inactivated a)
    (us_is_anonymized a) (lo_saml_idp l)
    (p ← lo_saml_idp l; providers (ma_dir s) !! (saml, p))
    (bool_decide (is_Some (lo_password_hash l))) (lo_password_reset_required l)
    (lo_mfa_enabled l) (lo_mfa_method l)).
(** [user.get(..)] of a column the row does not have. *)
Definition row_password_hash (r : user_row) : option string := None.
Definition row_password_changed_at (r : user_row) : option Z := None.

(** Active users with a password and the data to look for it in breaches. *)
Definition monitored s (kv : uuid * login_row) : option (uuid * string * string) :=
  a ← accounts (ma_tenant s) !! kv.1;
  prefix ← lo_hibp_prefix kv.2;
  check_hmac ← lo_hibp_check_hmac kv.2;
  _ ← lo_password_hash kv.2;
  if us_is_inactivated a then None else Some (kv.1, prefix, check_hmac).
Definition get_users_with_hibp_prefix s : list (uuid * string * string) :=
  omap (monitored s) (map_to_list (ma_logins s)).

Definition is_active_admin (a : account_row) : bool :=
  bool_decide (us_role a ≠ member) && negb (us_is_inactivated a).
Definition get_admin_emails s : list string :=
  omap (λ kv : uuid * account_row,
      if is_active_admin kv.2 then get_primary_email s kv.1 else None)
    (map_to_list (accounts (ma_tenant s))).

(** Active password users whose password was set under a weaker policy; a
    column that is null compares as false. *)
Definition below (policy : option Z) (minimum : Z) : bool :=
  match policy with Some x => x <? minimum | None => false end.
Definition weak_policy (new_min_length new_min_score : Z) s (kv : uuid * login_row) : option uuid :=
  a ← accounts (ma_tenant s) !! kv.1;
  _ ← lo_password_hash kv.2;
  if us_is_inactivated a || lo_password_reset_required kv.2 then None
  else if below (fst <$> lo_policy_at_set kv.2) new_min_length ||
          below (snd <$> lo_policy_at_set kv.2) new_min_score
  then Some kv.1 else None.
Definition get_users_with_weak_policy s (new_min_length new_min_score : Z) : list uuid :=
  omap (weak_policy new_min_length new_min_score s) (map_to_list (ma_logins s)).

Definition get_password_hash s (u : uuid) : option string := l ← ma_logins s !! u; lo_password_hash l.

(** By a verified address; addresses are unique. *)
Record reset_row := mk_reset {
  rr_user_id : uuid;
  rr_password_changed_at : option Z;
  rr_has_password : bool;
  rr_is_inactivated : bool;
  rr_saml_idp_id : option uuid;
}.
Definition get_user_by_email_for_reset s (email : string) : option reset_row :=
  kv ← head (filter (λ kv : uuid * email_row, same_email (em_email kv.2) email = true ∧
                       is_Some (em_verified_at kv.2)) (map_to_list (ma_emails s)));
  let u := em_user kv.2 in
  a ← accounts (ma_tenant s) !! u;
  l ← ma_logins s !! u;
  Some (mk_reset u (lo_password_changed_at l) (bool_decide (is_Some (lo_password_hash l)))
    (us_is_inactivated a) (lo_saml_idp l)).

(** Users with a verified address on a domain. *)
Definition get_users_by_email_domain s (domain : string) : list uuid :=
  elements (list_to_set (omap (λ kv : uuid * email_row,
      if on_domain (em_email kv.2) domain && bool_decide (is_Some (em_verified_at kv.2)) &&
         bool_decide (is_Some (accounts (ma_tenant s) !! em_user kv.2))
      then Some (em_user kv.2) else None) (map_to_list (ma_emails s))) : gset uuid).
End reads.

Section writes.
Context `{MailIds} `{Nonces}.

Definition draw : M mail string := update (λ s, (nonce (ma_draws s), set_draws S s)).

(** The insert of [add_email] and [add_verified_email]: the checks and the
    unique indexes of the table, and its defaults. *)
Definition insert_email (u : uuid) (email : string) (is_primary : bool)
    (verified_at : option Z) : M mail uuid :=
  s ← gets id;
  _ ← raise_if (bool_decide (320 < py_len email)%Z) (IntegrityError "chk_user_emails_email_length");
  _ ← raise_if (bool_decide (253 < py_len (email_domain email))%Z)
        (IntegrityError "chk_user_emails_domain_length");
  _ ← raise_if (email_exists s email) (IntegrityError "user_emails_tenant_id_email_key");
  _ ← raise_if (is_primary && bool_decide (is_Some (primary_row s u)))
        (IntegrityError "user_emails_primary_per_user");
  _ ← raise_if (bool_decide (accounts (ma_tenant s) !! u = None)) (IntegrityError "fk_user_emails_user_tenant");
  let i := mail_id s in
  _ ← raise_if (bool_decide (is_Some (ma_emails s !! i))) (IntegrityError "user_emails_pkey");
  v ← draw; p ← draw;
  _ ← modify (set_emails (insert i
        (mk_email u email is_primary verified_at v p (ma_clock s) (email_domain email))));
  mret i.

Definition add_email (u : uuid) (email : string) : M mail uuid := insert_email u email false None.
Definition add_verified_email (u : uuid) (email : string) (is_primary : bool) : M mail uuid :=
  s ← gets ma_clock; insert_email u email is_primary (Some s).

Definition with_nonces (verify set_password : string) (verified_at : option Z) (r : email_row) :=
  mk_email (em_user r) (em_email r) (em_is_primary r) verified_at verify set_password
    (em_created_at r) (em_domain r).
Definition with_primary (b : bool) (r : email_row) :=
  mk_email (em_user r) (em_email r) b (em_verified_at r) (em_verify_nonce r)
    (em_set_password_nonce r) (em_created_at r) (em_domain r).

Definition update_email (i : uuid) (f : email_row → email_row) : M mail nat :=
  update (λ s, match ma_emails s !! i with
               | Some r => (1%nat, set_emails (insert i (f r)) s)
               | None => (0%nat, s)
               end).

Definition db_verify_email (i : uuid) : M mail nat :=
  n ← draw; now ← gets ma_clock;
  update_email i (λ r, with_nonces n (em_set_password_nonce r) (Some now) r).
Definition regenerate_set_password_nonce (i : uuid) : M mail string :=
  n ← draw;
  k ← update_email i (λ r, with_nonces (em_verify_nonce r) n (em_verified_at r) r);
  mret (if decide (k = 0%nat) then "" else n).
Definition regenerate_verify_nonce (i : uuid) : M mail string :=
  n ← draw;
  k ← update_email i (λ r, with_nonces n (em_set_password_nonce r) (em_verified_at r) r);
  mret (if decide (k = 0%nat) then "" else n).

Definition unset_primary_emails (u : uuid) : M mail nat :=
  update (λ s, (length (filter (λ kv : uuid * email_row, em_is_primary kv.2 = true) (user_emails s u)),
                set_emails (fmap (λ r, if decide (em_user r = u) then with_primary false r else r)) s)).

(** The partial unique index allows one primary row per user. *)
Definition db_set_primary_email (i : uuid) : M mail nat :=
  s ← gets id;
  match ma_emails s !! i with
  | None => mret 0%nat
  | Some r =>
      _ ← raise_if (match primary_row s (em_user r) with Some (j, _) => bool_decide (j ≠ i) | None => false end)
            (IntegrityError "user_emails_primary_per_user");
      _ ← modify (set_emails (insert i (with_primary true r)));
      mret 1%nat
  end.

Definition delete_email (i : uuid) : M mail nat :=
  update (λ s, ((if decide (is_Some (ma_emails s !! i)) then 1%nat else 0%nat),
                set_emails (delete i) s)).

(** The placeholder address; [domain] is kept. *)
Definition anonymized (id_text : string) (r : email_row) : email_row :=
  mk_email (em_user r) ("anon-" +:+ id_text +:+ "@anonymized.example.com") (em_is_primary r) None
    (em_verify_nonce r) (em_set_password_nonce r) (em_created_at r) (em_domain r).
Context (uuid_to_text : uuid → string).
Definition anonymize_user_emails (u : uuid) : M mail nat :=
  update (λ s, (length (user_emails s u),
                set_emails (map_imap (λ i r, Some (if decide (em_user r = u)
                                                   then anonymized (uuid_to_text i) r else r))) s)).

(** ** database/users/authentication.py, saml_assignment.py *)

Definition update_login (u : uuid) (f : login_row → login_row) : M mail nat :=
  update (λ s, match ma_logins s !! u with
               | Some l => (1%nat, set_logins (insert u (f l)) s)
               | None => (0%nat, s)
               end).
Definition update_password (u : uuid) (hash : string) (prefix check_hmac : option string)
    (policy : option (Z * Z)) : M mail nat :=
  now ← gets ma_clock;
  update_login u (with_credentials (Some hash) (Some now) false prefix check_hmac policy).
Definition set_password_reset_required (u : uuid) (required : bool) : M mail nat :=
  update_login u (with_reset_required required).
Definition clear_hibp_data (u : uuid) : M mail nat :=
  update_login u (λ l, with_credentials (lo_password_hash l) (lo_password_changed_at l)
    (lo_password_reset_required l) None None (lo_policy_at_set l) l).
Definition bulk_set_password_reset_required (us : list uuid) : M mail nat :=
  update (λ s, (length (filter (λ kv : uuid * login_row, kv.1 ∈ us) (map_to_list (ma_logins s))),
    set_logins (map_imap (λ u l, Some (if decide (u ∈ us) then with_reset_required true l else l))) s)).
Definition update_mfa_status (u : uuid) (enabled : bool) : M mail nat :=
  update_login u (λ l, with_mfa enabled (lo_mfa_method l) l).
Definition update_user_saml_idp (u : uuid) (idp : option uuid) : M mail nat :=
  update_login u (with_idp idp).
End writes.

(** ** database/settings.py: privileged domains and their groups *)

Section settings.
Context `{MailIds}.
Implicit Types s : mail.

(** [order by created_at desc]. *)
Definition latest_first (x y : uuid * domain_row) : Prop := do_created_at y.2 <= do_created_at x.2.
#[export] Instance latest_first_dec : RelDecision latest_first.
Proof. intros x y. unfold latest_first. apply _. Defined.
Definition list_privileged_domains s : list (uuid * domain_row) :=
  merge_sort latest_first (map_to_list (ma_domains s)).

Definition privileged_domain_exists s (domain : string) : bool :=
  bool_decide (map_Exists (λ _ d, do_domain d = domain) (ma_domains s)).

Definition db_add_privileged_domain (domain : string) : M mail nat :=
  s ← gets id;
  _ ← raise_if (bool_decide (py_len domain = 0 ∨ 253 < py_len domain)%Z)
        (IntegrityError "tenant_privileged_domains_domain_check");
  _ ← raise_if (privileged_domain_exists s domain)
        (IntegrityError "tenant_privileged_domains_tenant_id_domain_key");
  let i := mail_id s in
  _ ← raise_if (bool_decide (is_Some (ma_domains s !! i))) (IntegrityError "tenant_privileged_domains_pkey");
  _ ← modify (set_domains (insert i (mk_domain domain (ma_clock s))));
  mret 1%nat.

(** With the cascades to the links and the provider binding. *)
Definition db_delete_privileged_domain (i : uuid) : M mail nat :=
  update (λ s, ((if decide (is_Some (ma_domains s !! i)) then 1%nat else 0%nat),
    set_domain_idps (delete i)
      (set_links (filter (λ kv : uuid * (uuid * uuid), kv.2.1 ≠ i)) (set_domains (delete i) s)))).

Definition get_privileged_domain_by_id s (i : uuid) : option domain_row := ma_domains s !! i.

(** The joins with [groups] drop a link whose group is gone. *)
Definition link_group s (kv : uuid * (uuid * uuid)) : option (uuid * (uuid * uuid) * group_row) :=
  g ← groups (ma_dir s) !! kv.2.2; Some (kv, g).
Definition get_domain_group_links s (domain : uuid) : list (uuid * (uuid * uuid) * group_row) :=
  omap (link_group s) (filter (λ kv : uuid * (uuid * uuid), kv.2.1 = domain) (map_to_list (ma_links s))).
Definition get_domain_group_link_by_id s (i : uuid) : option (uuid * (uuid * uuid) * group_row) :=
  l ← ma_links s !! i; link_group s (i, l).

(** [on conflict (domain_id, group_id) do nothing returning id]. *)
Definition db_add_domain_group_link (domain g : uuid) : M mail (option uuid) :=
  s ← gets id;
  if decide (map_Exists (λ _ l, l = (domain, g)) (ma_links s)) then mret None
  else
    _ ← raise_if (bool_decide (ma_domains s !! domain = None)) (IntegrityError "domain_group_links_domain_fkey");
    _ ← raise_if (bool_decide (groups (ma_dir s) !! g = None)) (IntegrityError "domain_group_links_group_fkey");
    let i := mail_id s in
    _ ← raise_if (bool_decide (is_Some (ma_links s !! i))) (IntegrityError "domain_group_links_pkey");
    _ ← modify (set_links (insert i (domain, g)));
    mret (Some i).

Definition db_delete_domain_group_link (i : uuid) : M mail nat :=
  update (λ s, ((if decide (is_Some (ma_links s !! i)) then 1%nat else 0%nat), set_links (delete i) s)).

(** The WeftID groups linked to a domain, with their names. *)
Definition linked_group s (domain : string) (l : uuid * uuid) : option (uuid * string) :=
  d ← ma_domains s !! l.1;
  g ← groups (ma_dir s) !! l.2;
  if decide (do_domain d = domain ∧ g_group_type g = weftid) then Some (l.2, g_name g) else None.
Definition get_group_ids_for_domain s (domain : string) : list (uuid * string) :=
  omap (λ kv : uuid * (uuid * uuid), linked_group s (lower_string domain) kv.2) (map_to_list (ma_links s)).

(** database/saml/domains.py *)
Definition domain_idp s (domain : string) (kv : uuid * uuid) : option (uuid * string) :=
  d ← ma_domains s !! kv.1;
  name ← providers (ma_dir s) !! (saml, kv.2);
  if decide (do_domain d = domain ∧ kv.2 ∈ ma_enabled_idps s) then Some (kv.2, name) else None.
Definition get_idp_for_domain s (domain : string) : option (uuid * string) :=
  head (omap (domain_idp s (lower_string domain)) (map_to_list (ma_domain_idps s))).
End settings.
