(* ===== verification/MailService.v ===== *)
(** * E-mail services

    app/services/emails.py, app/services/settings/domains.py, the two bulk
    jobs of app/jobs that add and promote addresses, and the helpers of
    app/services/users that create and re-invite users.  A returned address
    is its row; who is notified by e-mail is not modelled. *)

From stdpp Require Import gmap strings.
From S2P Require Import Prelude GroupDb GroupService OAuthDb OAuthService UserLifecycle MailDb.
#[local] Open Scope Z_scope.

Section emails.
Context `{MailIds} `{Nonces}.
Implicit Types s : mail.

Definition log_user (actor : option uuid) (u : uuid) (name : string) (md : list (string * meta)) : M mail () :=
  in_groups (log_event actor "user" u name md).

Definition _can_manage_emails (r : requesting_user) (u : uuid) : bool :=
  bool_decide (ru_role r = admin ∨ ru_role r = super_admin) || bool_decide (ru_id r = u).

Definition require_manage (r : requesting_user) (u : uuid) : M mail () :=
  raise_if (negb (_can_manage_emails r u)) (ServiceError ForbiddenError "email_access_denied").

(** The lookup that is skipped for one's own account. *)
Definition require_other_user (r : requesting_user) (u : uuid) : M mail () :=
  user ← gets (λ s, get_user_row s u);
  raise_if (bool_decide (ru_id r ≠ u) && bool_decide (user = None))
    (ServiceError NotFoundError "user_not_found").

Definition svc_list_user_emails (r : requesting_user) (u : uuid) : M mail (list (uuid * email_row)) :=
  _ ← require_manage r u;
  _ ← in_groups (track_activity (ru_id r));
  _ ← require_other_user r u;
  gets (λ s, list_user_emails s u).

(** [for e in emails: if .. : return e]. *)
Definition find_email (P : uuid * email_row → bool) (l : list (uuid * email_row)) :
    option (uuid * email_row) := head (filter (λ kv, P kv = true) l).
Definition row_of (i : uuid) (l : list (uuid * email_row)) : option (uuid * email_row) :=
  find_email (λ kv, bool_decide (kv.1 = i)) l.

(** The inserts always return a row; the address is stripped and lowered. *)
Definition add_user_email (r : requesting_user) (u : uuid) (email : string) (is_admin_action : bool) :
    M mail (option (uuid * email_row)) :=
  let email_lower := lower_string (py_strip email) in
  _ ← raise_if (negb (_can_manage_emails r u)) (ServiceError ForbiddenError "email_access_denied");
  _ ← require_other_user r u;
  taken ← gets (λ s, email_exists s email_lower);
  _ ← raise_if taken (ServiceError ConflictError "email_exists");
  i ← (if is_admin_action then add_verified_email u email_lower false else add_email u email_lower);
  emails ← gets (λ s, list_user_emails s u);
  match find_email (λ kv, bool_decide (em_email kv.2 = email_lower)) emails with
  | Some (j, e) =>
      _ ← log_user (Some (ru_id r)) u "email_added"
            [("email", MStr email_lower); ("email_id", MId j);
             ("is_admin_action", MBool is_admin_action); ("auto_verified", MBool is_admin_action)];
      mret (Some (j, e))
  | None => mret None
  end.

Definition delete_user_email (r : requesting_user) (u i : uuid) : M mail () :=
  _ ← require_manage r u;
  found ← gets (λ s, get_email_by_id s i u);
  email ← some_or found (ServiceError NotFoundError "email_not_found");
  _ ← raise_if (em_is_primary email) (ServiceError ValidationError "cannot_delete_primary");
  count ← gets (λ s, count_user_emails s u);
  _ ← raise_if (bool_decide (count <= 1)%nat) (ServiceError ValidationError "must_keep_one_email");
  _ ← delete_email i;
  log_user (Some (ru_id r)) u "email_deleted" [("email_id", MId i); ("email", MStr (em_email email))].

(** Two statements, each committed by itself. *)
Definition promote (u i : uuid) : M mail () :=
  _ ← unset_primary_emails u; _ ← db_set_primary_email i; mret ().

Definition set_primary_email (r : requesting_user) (u i : uuid) : M mail (uuid * email_row) :=
  _ ← require_manage r u;
  found ← gets (λ s, get_email_by_id s i u);
  email ← some_or found (ServiceError NotFoundError "email_not_found");
  _ ← raise_if (bool_decide (em_verified_at email = None)) (ServiceError ValidationError "email_not_verified");
  emails ← gets (λ s, list_user_emails s u);
  match (if em_is_primary email then row_of i emails else None) with
  | Some e => mret e
  | None =>
      _ ← promote u i;
      _ ← log_user (Some (ru_id r)) u "primary_email_changed"
            [("email_id", MId i); ("email", MStr (em_email email))];
      emails ← gets (λ s, list_user_emails s u);
      some_or (row_of i emails) (ServiceError ValidationError "email_retrieval_failed")
  end.

Definition verify_email (i u : uuid) (code : string) : M mail (uuid * email_row) :=
  found ← gets (λ s, get_email_for_verification s i);
  email ← some_or found (ServiceError NotFoundError "email_not_found");
  _ ← raise_if (bool_decide (em_user email ≠ u)) (ServiceError NotFoundError "email_not_found");
  _ ← raise_if (bool_decide (is_Some (em_verified_at email))) (ServiceError ValidationError "already_verified");
  _ ← raise_if (bool_decide (em_verify_nonce email ≠ code)) (ServiceError ValidationError "invalid_nonce");
  _ ← db_verify_email i;
  _ ← log_user (Some u) u "email_verified" [("email_id", MId i); ("email", MStr (em_email email))];
  emails ← gets (λ s, list_user_emails s u);
  some_or (row_of i emails) (ServiceError ValidationError "email_retrieval_failed").

Definition resend_verification (r : requesting_user) (u i : uuid) : M mail (string * string) :=
  _ ← require_manage r u;
  _ ← in_groups (track_activity (ru_id r));
  found ← gets (λ s, get_email_with_nonce s i u);
  email ← some_or found (ServiceError NotFoundError "email_not_found");
  mret (em_email email, em_verify_nonce email).

(** The names before and after, when the provider would change. *)
Definition check_routing_change s (u : uuid) (email : string) : option (string * string) :=
  user ← get_user_row s u;
  let domain := email_domain email in
  let target := if decide (domain = "") then None else get_idp_for_domain s domain in
  if decide (ur_saml_idp_id user = fst <$> target) then None
  else Some (default "Password authentication" (ur_saml_idp_name user),
             default "Password authentication" (snd <$> target)).

Definition svc_get_primary_email s (u : uuid) : option string := get_primary_email s u.
Definition get_email_address_by_id s (u i : uuid) : option string :=
  em_email ∘ snd <$> row_of i (list_user_emails s u).

(** ** settings/domains.py: auto-assignment *)

(** [add_group_member] of each linked group; the names of the new ones. *)
Fixpoint join_linked (u : uuid) (linked : list (uuid * string)) : M mail (list string) :=
  match linked with
  | [] => mret []
  | (g, name) :: linked =>
      new ← in_groups (add_group_member g u);
      names ← join_linked u linked;
      mret (if (new : bool) then name :: names else names)
  end.

Definition auto_assign_user_to_domain_groups (u : uuid) (email : string) (actor : option uuid) :
    M mail nat :=
  match after_at (chars email) with
  | None => mret 0%nat
  | Some rest =>
      let domain := lower_string (String.string_of_list_ascii rest) in
      linked ← gets (λ s, get_group_ids_for_domain s domain);
      names ← join_linked u linked;
      _ ← when (bool_decide (0 < length names)%nat)
            (log_user (Some (default u actor)) u "domain_group_auto_assigned"
               [("domain", MStr domain); ("groups", MStrs names)]);
      mret (length names)
  end.

Definition verify_email_by_nonce (i : uuid) (code : string) : M mail bool :=
  found ← gets (λ s, get_email_for_verification s i);
  match found with
  | None => mret false
  | Some email =>
      if decide (em_verify_nonce email ≠ code) then mret false
      else
        _ ← db_verify_email i;
        _ ← log_user (Some (em_user email)) (em_user email) "email_verified"
              [("email_id", MId i); ("email", MStr (em_email email)); ("flow", MStr "public_link")];
        _ ← auto_assign_user_to_domain_groups (em_user email) (em_email email) (Some (em_user email));
        mret true
  end.

(** ** services/users/utilities.py and crud.py *)

Definition add_verified_email_with_nonce (u : uuid) (email : string) (is_primary : bool) : M mail uuid :=
  i ← add_verified_email u email is_primary;
  _ ← when is_primary (_ ← db_set_primary_email i; mret ());
  mret i.
Definition add_unverified_email_with_nonce (u : uuid) (email : string) (is_primary : bool) : M mail uuid :=
  i ← add_email u email;
  _ ← when is_primary (_ ← db_set_primary_email i; mret ());
  mret i.

(** The address, the new nonce and which link it belongs to. *)
Definition resend_invitation (r : requesting_user) (u : uuid) : M mail (uuid * string * string * string) :=
  _ ← require_admin r;
  found ← gets (λ s, get_user_row s u);
  user ← some_or found (ServiceError NotFoundError "user_not_found");
  _ ← raise_if (ur_has_password user) (ServiceError ValidationError "already_onboarded");
  _ ← raise_if (ur_is_inactivated user) (ServiceError ValidationError "user_inactivated");
  _ ← raise_if (ur_is_anonymized user) (ServiceError ValidationError "user_anonymized");
  found ← gets (λ s, get_primary_email_for_resend s u);
  primary ← some_or found (ServiceError NotFoundError "no_primary_email");
  let '(i, e) := primary in
  let verified := bool_decide (is_Some (em_verified_at e)) in
  n ← (if verified then regenerate_set_password_nonce i else regenerate_verify_nonce i);
  let kind := if verified then "set_password" else "verify" in
  _ ← log_user (Some (ru_id r)) u "invitation_resent"
        [("target_user_name", MStr (ur_first_name user +:+ " " +:+ ur_last_name user));
         ("email", MStr (em_email e)); ("invitation_type", MStr kind)];
  mret (i, em_email e, n, kind).
End emails.

(** ** settings/domains.py: the domains and their links *)

Section domains.
Context `{MailIds} `{Nonces} `{UuidParse}.
Implicit Types s : mail.

Definition _normalize_domain (domain : string) : string :=
  match chars (lower_string (py_strip domain)) with
  | c :: l => if decide (c = at_sign) then String.string_of_list_ascii l
              else String.string_of_list_ascii (c :: l)
  | [] => ""
  end.

Definition has_char (c : Ascii.ascii) (s : string) : bool := bool_decide (c ∈ chars s).
Definition _validate_domain_format (domain : string) : M mail () :=
  _ ← raise_if (bool_decide (domain = "")) (ServiceError ValidationError "invalid_domain");
  _ ← raise_if (has_char (Ascii.ascii_of_nat 32) domain) (ServiceError ValidationError "invalid_domain");
  _ ← raise_if (negb (has_char (Ascii.ascii_of_nat 46) domain)) (ServiceError ValidationError "invalid_domain");
  raise_if (bool_decide (py_len domain < 3 ∨ 253 < py_len domain)%Z)
    (ServiceError ValidationError "invalid_domain_length").

Definition svc_list_privileged_domains (r : requesting_user) :
    M mail (list (uuid * domain_row * list (uuid * (uuid * uuid) * group_row))) :=
  _ ← require_admin r;
  _ ← in_groups (track_activity (ru_id r));
  gets (λ s, (λ kv : uuid * domain_row, (kv, get_domain_group_links s kv.1)) <$> list_privileged_domains s).

Definition find_domain (P : uuid * domain_row → bool) (l : list (uuid * domain_row)) :
    option (uuid * domain_row) := head (filter (λ kv, P kv = true) l).

Definition add_privileged_domain (r : requesting_user) (domain : string) : M mail (uuid * domain_row) :=
  _ ← require_admin r;
  let clean := _normalize_domain domain in
  _ ← _validate_domain_format clean;
  taken ← gets (λ s, privileged_domain_exists s clean);
  _ ← raise_if taken (ServiceError ConflictError "domain_exists");
  _ ← db_add_privileged_domain clean;
  rows ← gets list_privileged_domains;
  match find_domain (λ kv, bool_decide (do_domain kv.2 = clean)) rows with
  | Some row =>
      _ ← in_groups (log_event (Some (ru_id r)) "privileged_domain" row.1 "privileged_domain_added"
            [("domain", MStr clean)]);
      mret row
  | None => raise (ServiceError ValidationError "domain_creation_failed")
  end.

Definition delete_privileged_domain (r : requesting_user) (i : uuid) : M mail () :=
  _ ← require_admin r;
  rows ← gets list_privileged_domains;
  row ← some_or (find_domain (λ kv, bool_decide (kv.1 = i)) rows)
          (ServiceError NotFoundError "domain_not_found");
  _ ← db_delete_privileged_domain i;
  in_groups (log_event (Some (ru_id r)) "privileged_domain" i "privileged_domain_deleted"
    [("domain", MStr (do_domain row.2))]).

Definition list_domain_group_links (r : requesting_user) (i : uuid) :
    M mail (list (uuid * (uuid * uuid) * group_row)) :=
  _ ← require_admin r;
  _ ← in_groups (track_activity (ru_id r));
  found ← gets (λ s, get_privileged_domain_by_id s i);
  _ ← some_or found (ServiceError NotFoundError "domain_not_found");
  gets (λ s, get_domain_group_links s i).

Definition add_domain_group_link (r : requesting_user) (i g : uuid) :
    M mail (uuid * (uuid * uuid) * group_row) :=
  _ ← require_admin r;
  found ← gets (λ s, get_privileged_domain_by_id s i);
  domain ← some_or found (ServiceError NotFoundError "domain_not_found");
  found ← gets (λ s, get_group_by_id (ma_dir s) g);
  group ← some_or found (ServiceError NotFoundError "group_not_found");
  _ ← raise_if (bool_decide (g_group_type (gd_row group) ≠ weftid))
        (ServiceError ValidationError "invalid_group_type");
  result ← db_add_domain_group_link i g;
  l ← some_or result (ServiceError ConflictError "link_exists");
  _ ← in_groups (log_event (Some (ru_id r)) "domain_group_link" l "domain_group_link_created"
        [("domain", MStr (do_domain domain)); ("group_id", MId g); ("group_name", MStr (gd_name group))]);
  us ← gets (λ s, get_users_by_email_domain s (do_domain domain));
  added ← (match us with [] => mret 0%nat | _ => in_groups (bulk_add_group_members g us) end);
  _ ← when (bool_decide (0 < added)%nat)
        (for_each (λ u, log_user (Some (ru_id r)) u "domain_group_auto_assigned"
                          [("domain", MStr (do_domain domain)); ("groups", MStrs [gd_name group])]) us);
  rows ← gets (λ s, get_domain_group_links s i);
  some_or (head (filter (λ kv : uuid * (uuid * uuid) * group_row, kv.1.1 = l) rows))
    (ServiceError ValidationError "link_creation_failed").

Definition delete_domain_group_link (r : requesting_user) (i l : uuid) : M mail () :=
  _ ← require_admin r;
  found ← gets (λ s, get_domain_group_link_by_id s l);
  match found with
  | Some (_, (d, g), row) =>
      if decide (d ≠ i) then raise (ServiceError NotFoundError "link_not_found")
      else
        _ ← db_delete_domain_group_link l;
        in_groups (log_event (Some (ru_id r)) "domain_group_link" l "domain_group_link_deleted"
          [("group_id", MId g); ("group_name", MStr (g_name row))])
  | None => raise (ServiceError NotFoundError "link_not_found")
  end.

Definition get_privileged_domains_list s : list string :=
  do_domain ∘ snd <$> list_privileged_domains s.
Definition is_privileged_domain s (domain : string) : bool :=
  privileged_domain_exists s (lower_string domain).

(** ** jobs/bulk_add_secondary_emails.py, bulk_change_primary_email.py

    Each item is tried by itself; an exception is the item's error. *)
Inductive item_status := added | skipped_item | promoted (old_primary : string) | item_error (reason : string).

Definition each_item {A} (m : A → M mail item_status) (x : A) : M mail item_status :=
  λ s, match m x s with
       | (Ok st, s') => (Ok st, s')
       | (Raise _, s') => (Ok (item_error "Unexpected error"), s')
       end.

(** An id that comes as text is cast by the database. *)
Definition parse_id (id : string) : M mail uuid :=
  some_or (uuid_of_text id) (PythonError "InvalidTextRepresentation").

Definition add_secondary_item (actor : uuid) (x : string * string) : M mail item_status :=
  let '(user_id, email0) := x in
  let email := lower_string (py_strip email0) in
  taken ← gets (λ s, email_exists s email);
  if (taken : bool) then mret skipped_item
  else
    u ← parse_id user_id;
    user ← gets (λ s, get_user_row s u);
    match user with
    | None => mret (item_error "User not found")
    | Some _ =>
        _ ← add_verified_email u email false;
        _ ← log_user (Some actor) u "email_added"
              [("email", MStr email); ("is_admin_action", MBool true);
               ("auto_verified", MBool true); ("bulk_operation", MBool true)];
        mret added
    end.
Definition handle_bulk_add_secondary_emails (actor : uuid) (items : list (string * string)) :
    M mail (list item_status) := for_map (each_item (add_secondary_item actor)) items.

Inductive disposition := keep | switch | remove.

Definition log_idp_change (actor u : uuid) (old : option string) (new : string) : M mail () :=
  log_user (Some actor) u "user_saml_idp_assigned"
    [("old_idp", from_option MStr MNull old); ("new_idp", MStr new); ("bulk_operation", MBool true)].

Definition apply_disposition (actor u : uuid) (user : user_row) (email : string) (d : disposition) :
    M mail () :=
  let old := ur_saml_idp_name user in
  match d with
  | keep => mret ()
  | switch =>
      idp ← gets (λ s, if decide (email_domain email = "") then None
                       else get_idp_for_domain s (email_domain email));
      match idp with
      | Some (p, name) => _ ← update_user_saml_idp u (Some p); log_idp_change actor u old name
      | None => mret ()
      end
  | remove =>
      match ur_saml_idp_id user with
      | Some _ => _ ← update_user_saml_idp u None; log_idp_change actor u old "Password authentication"
      | None => mret ()
      end
  end.

(** A verified secondary address; the last one of the listing wins. *)
Definition promotable (email : string) (kv : uuid * email_row) : bool :=
  bool_decide (lower_string (em_email kv.2) = email) && negb (em_is_primary kv.2) &&
  bool_decide (is_Some (em_verified_at kv.2)).
Definition promote_item (actor : uuid) (x : string * string * disposition) : M mail item_status :=
  let '(user_id, email0, d) := x in
  let email := lower_string (py_strip email0) in
  u ← parse_id user_id;
  user ← gets (λ s, get_user_row s u);
  match user with
  | None => mret (item_error "User not found")
  | Some user =>
      emails ← gets (λ s, list_user_emails s u);
      let old := default "" (em_email ∘ snd <$> last (filter (λ kv : uuid * email_row, em_is_primary kv.2 = true) emails)) in
      match last (filter (λ kv : uuid * email_row, promotable email kv = true) emails) with
      | None => mret (item_error "Email is not a verified secondary email for this user")
      | Some (i, _) =>
          _ ← promote u i;
          _ ← log_user (Some actor) u "primary_email_changed"
                [("email_id", MId i); ("email", MStr email); ("old_email", MStr old);
                 ("bulk_operation", MBool true)];
          _ ← apply_disposition actor u user email d;
          mret (promoted old)
      end
  end.
Definition handle_bulk_primary_email_apply (actor : uuid) (items : list (string * string * disposition)) :
    M mail (list item_status) := for_map (each_item (promote_item actor)) items.
End domains.
