(* ===== verification/Tokens.v ===== *)
(** * Stateless tokens

    app/utils/tokens.py: six-digit codes and URL tokens, both an HMAC-SHA256
    over a user, a purpose, a time and optionally a state.  HMAC, base64,
    [int] and UTF-8 are those of Python's standard library.  A string is the
    sequence of its UTF-8 bytes; times are whole seconds. *)

From stdpp Require Import strings pretty list.
From S2P Require Import Prelude Sha256.
#[local] Open Scope Z_scope.

(** ** Standard library *)

Definition xor_pad (x : Z) (key : list Z) : list Z := (λ b, Z.lxor b x) <$> key.
(** [hmac.new(key, msg, sha256).digest()]. *)
Definition hmac_sha256 (key msg : list Z) : list Z :=
  let k := if decide (64 < length key)%nat then sha256 key else key in
  let k := k ++ replicate (64 - length k) 0 in
  sha256 (xor_pad 92 k ++ sha256 (xor_pad 54 k ++ msg)).

(** RFC 4231, test case 2. *)
Example hmac_ex : hexdigest (hmac_sha256 (bytes_of "Jefe") (bytes_of "what do ya want for nothing?")) =
  "5bdcc146bf60754e6a042426089575c75a003f089d2739839dec58b964ec3843".
Proof. vm_compute. reflexivity. Qed.

Definition urlsafe_b64encode (l : list Z) : list Ascii.ascii :=
  b64url l ++ replicate ((3 - length l mod 3) mod 3)%nat (byte_char 61).

(** The value of a base64 letter after [-_] are translated to [+/]. *)
Definition b64_value (c : Ascii.ascii) : option Z :=
  let n := Z.of_nat (Ascii.nat_of_ascii c) in
  if (65 <=? n) && (n <=? 90) then Some (n - 65)
  else if (97 <=? n) && (n <=? 122) then Some (n - 71)
  else if (48 <=? n) && (n <=? 57) then Some (n + 4)
  else if (n =? 45) || (n =? 43) then Some 62
  else if (n =? 95) || (n =? 47) then Some 63
  else None.
Definition is_pad (c : Ascii.ascii) : bool := bool_decide (c = byte_char 61).

(** [a2b_base64] in its lenient mode: other letters are skipped; padding that
    completes a quad ends the data.  [q] is the position in the quad, [left]
    the bits that wait. *)
Fixpoint a2b_base64 (l : list Ascii.ascii) (q pads : nat) (left : Z) : option (list Z) :=
  match l with
  | [] => if decide (q = 0%nat) then Some [] else None
  | c :: l =>
      if is_pad c then
        if decide (2 <= q)%nat then
          if decide (4 <= q + S pads)%nat then Some [] else a2b_base64 l q (S pads) left
        else a2b_base64 l q pads left
      else
        match b64_value c with
        | None => a2b_base64 l q pads left
        | Some v =>
            match q with
            | 0%nat => a2b_base64 l 1 0 v
            | 1%nat => cons (left * 4 + v / 16) <$> a2b_base64 l 2 0 (v mod 16)
            | 2%nat => cons (left * 16 + v / 4) <$> a2b_base64 l 3 0 (v mod 4)
            | _ => cons (left * 64 + v) <$> a2b_base64 l 0 0 0
            end
        end
  end.
Definition urlsafe_b64decode (l : list Ascii.ascii) : option (list Z) := a2b_base64 l 0 0 0.

(** [bytes.decode()] accepts. *)
Fixpoint utf8_valid (l : list Z) : bool :=
  match l with
  | [] => true
  | a :: l1 =>
      if a <? 128 then utf8_valid l1
      else
        match l1 with
        | [] => false
        | b :: l2 =>
            if (194 <=? a) && (a <=? 223) then is_cont b && utf8_valid l2
            else
              match l2 with
              | [] => false
              | c :: l3 =>
                  if (224 <=? a) && (a <=? 239) then
                    is_cont b && is_cont c && implb (a =? 224) (160 <=? b)
                    && implb (a =? 237) (b <=? 159) && utf8_valid l3
                  else
                    match l3 with
                    | [] => false
                    | d :: l4 =>
                        (240 <=? a) && (a <=? 244) && is_cont b && is_cont c && is_cont d
                        && implb (a =? 240) (144 <=? b) && implb (a =? 244) (b <=? 143)
                        && utf8_valid l4
                    end
              end
        end
  end.

(** [int(text)] on ASCII text, whatever the number of digits. *)
Definition digit_value (c : Ascii.ascii) : option Z :=
  let n := Z.of_nat (Ascii.nat_of_ascii c) in
  if (48 <=? n) && (n <=? 57) then Some (n - 48) else None.
Fixpoint int_digits (l : list Ascii.ascii) (acc : Z) (need : bool) : option Z :=
  match l with
  | [] => if need then None else Some acc
  | c :: l =>
      match digit_value c with
      | Some d => int_digits l (acc * 10 + d) false
      | None => if bool_decide (c = byte_char 95) && negb need then int_digits l acc true else None
      end
  end.
Definition py_int (s : string) : option Z :=
  match chars (py_strip s) with
  | c :: l => if decide (c = byte_char 45) then Z.opp <$> int_digits l 0 true
              else if decide (c = byte_char 43) then int_digits l 0 true
              else int_digits (c :: l) 0 true
  | [] => None
  end.

(** [s.split(c)]. *)
Fixpoint split_on (c : Ascii.ascii) (l : list Ascii.ascii) : list (list Ascii.ascii) :=
  match l with
  | [] => [[]]
  | x :: l =>
      if decide (x = c) then [] :: split_on c l
      else match split_on c l with
           | w :: ws => (x :: w) :: ws
           | [] => [[x]]
           end
  end.
Definition text_of (l : list Ascii.ascii) : string := String.string_of_list_ascii l.
Definition text_of_bytes (l : list Z) : string := text_of (byte_char <$> l).

Example int_ex : py_int " +1_0" = Some 10 ∧ py_int "1__0" = None ∧ py_int "-7" = Some (-7).
Proof. split_and!; vm_compute; reflexivity. Qed.

(** ** utils/tokens.py *)

Definition PURPOSE_MFA_EMAIL : string := "mfa_email".
Definition PURPOSE_PASSWORD_RESET : string := "password_reset".
Definition PURPOSE_ACCOUNT_RECOVERY : string := "account_recovery".

Section tokens.
(** The derived key, and [settings.BYPASS_OTP]. *)
Context (_token_key : list Z) (BYPASS_OTP : bool).

Definition message (user purpose : string) (time : Z) (state : option string) : string :=
  user +:+ ":" +:+ purpose +:+ ":" +:+ pretty time +:+
  match state with Some st => ":" +:+ st | None => "" end.
Definition mac (msg : string) : list Z := hmac_sha256 _token_key (bytes_of msg).

(** [struct.unpack(">I", ..)]. *)
Definition big_endian (l : list Z) : Z := fold_left (λ x b, x * 256 + b) l 0.

(** [str(n).zfill(6)]. *)
Definition zfill6 (n : Z) : string :=
  let t := pretty n in text_of (replicate (6 - String.length t) (byte_char 48)) +:+ t.

Definition truncate (digest : list Z) : Z :=
  let offset := Z.to_nat (Z.land (default 0 (last digest)) 15) in
  Z.land (big_endian (take 4 (drop offset digest))) (2 ^ 31 - 1).
Definition _compute_code (user purpose : string) (time_step : Z) (state : option string) : string :=
  zfill6 (truncate (mac (message user purpose time_step state)) mod 1000000).

Definition generate_code (now : Z) (user purpose : string) (step_seconds : Z) (state : option string) :=
  _compute_code user purpose (now / step_seconds) state.

(** [str.isdigit] on ASCII text. *)
Definition is_digits (s : string) : bool :=
  bool_decide (s ≠ "") && forallb (λ c, bool_decide (is_Some (digit_value c))) (chars s).
Definition window_steps (window : nat) : list Z :=
  (λ i, Z.of_nat i - Z.of_nat window) <$> seq 0 (2 * window + 1).

(** [hmac.compare_digest] refuses texts with letters outside ASCII. *)
Definition when_ascii {A} (s : string) (r : A) : outcome A :=
  if is_ascii s then Ok r else Raise (PythonError "TypeError").

Definition verify_code (now : Z) (code user purpose : string) (step_seconds : Z) (window : nat)
    (state : option string) : outcome bool :=
  if BYPASS_OTP && bool_decide (String.length code = 6%nat) && is_digits code then Ok true
  else when_ascii code
    (existsb (λ o, bool_decide (code = _compute_code user purpose (now / step_seconds + o) state))
       (window_steps window)).

Definition _compute_url_hmac (user purpose : string) (timestamp : Z) (state : option string) : string :=
  hexdigest (mac (message user purpose timestamp state)).

Definition dot : Ascii.ascii := Ascii.ascii_of_nat 46.
Definition generate_url_token (now : Z) (user purpose : string) (state : option string) : string :=
  let payload := user +:+ "." +:+ pretty now +:+ "." +:+ _compute_url_hmac user purpose now state in
  text_of (urlsafe_b64encode (bytes_of payload)).

(** A text with letters outside ASCII is refused by the decoder. *)
Definition _decode_url_token (token : string) : option (string * Z * string) :=
  if is_ascii token then
    let padded := chars token ++ replicate ((4 - String.length token mod 4) mod 4)%nat (byte_char 61) in
    bytes ← urlsafe_b64decode padded;
    if utf8_valid bytes then
      match text_of <$> split_on dot (chars (text_of_bytes bytes)) with
      | [user; ts; m] => timestamp ← py_int ts; Some (user, timestamp, m)
      | _ => None
      end
    else None
  else None.

Definition extract_user_id_from_url_token (token : string) : option string :=
  (λ p : string * Z * string, p.1.1) <$> _decode_url_token token.

Definition verify_url_token (now : Z) (token purpose : string) (ttl_seconds : Z) (state : option string) :
    outcome (option string) :=
  match _decode_url_token token with
  | None => Ok None
  | Some (user, timestamp, m) =>
      if ttl_seconds <? now - timestamp then Ok None
      else when_ascii m
        (if decide (m = _compute_url_hmac user purpose timestamp state) then Some user else None)
  end.
End tokens.

Example url_token_ex :
  let key := bytes_of "key" in
  let token := generate_url_token key 1000 "u-1" PURPOSE_PASSWORD_RESET (Some "none") in
  verify_url_token key 2800 token PURPOSE_PASSWORD_RESET 1800 (Some "none") = Ok (Some "u-1") ∧
  verify_url_token key 2801 token PURPOSE_PASSWORD_RESET 1800 (Some "none") = Ok None ∧
  verify_url_token key 1000 token PURPOSE_PASSWORD_RESET 1800 (Some "other") = Ok None.
Proof. split_and!; vm_compute; reflexivity. Qed.
