(* ===== verification/TokenProofs.v ===== *)
(** * URL tokens and codes: round trips, expiry, bounds *)

From stdpp Require Import strings pretty list.
From S2P Require Import Prelude Sha256 Tokens.
#[local] Open Scope Z_scope.

(** ** Base64 *)

Definition byte (b : Z) : Prop := 0 <= b < 256.

Lemma b64_digit_value n : 0 <= n < 64 → b64_value (b64_digit n) = Some n ∧ is_pad (b64_digit n) = false.
Proof.
  intros Hn.
  assert (forallb (λ n, bool_decide (b64_value (b64_digit n) = Some n ∧ is_pad (b64_digit n) = false))
    (seqZ 0 64) = true) as Hall by (vm_compute; reflexivity).
  rewrite forallb_forall in Hall. specialize (Hall n).
  apply bool_decide_eq_true in Hall; [done|]. apply list_elem_of_In, elem_of_seqZ. lia.
Qed.

(** One letter of the alphabet is consumed. *)
Lemma a2b_digit n l q pads left : 0 <= n < 64 →
  a2b_base64 (b64_digit n :: l) q pads left =
  match q with
  | 0%nat => a2b_base64 l 1 0 n
  | 1%nat => cons (left * 4 + n / 16) <$> a2b_base64 l 2 0 (n mod 16)
  | 2%nat => cons (left * 16 + n / 4) <$> a2b_base64 l 3 0 (n mod 4)
  | _ => cons (left * 64 + n) <$> a2b_base64 l 0 0 0
  end.
Proof. intros Hn. simpl. destruct (b64_digit_value n Hn) as [-> ->]. done. Qed.

Ltac bits :=
  rewrite ?Z.shiftr_div_pow2, ?Z.shiftl_mul_pow2 by lia;
  change 3 with (Z.ones 2); change 15 with (Z.ones 4); change 63 with (Z.ones 6);
  rewrite ?Z.land_ones by lia;
  change (2 ^ 2) with 4; change (2 ^ 4) with 16; change (2 ^ 6) with 64;
  Z.to_euclidean_division_equations; lia.

(** The four letters of three bytes, and the letters of what is left over. *)
Lemma quad_range a b c : byte a → byte b → byte c →
  0 <= Z.shiftr a 2 < 64 ∧ 0 <= Z.shiftl (Z.land a 3) 4 + Z.shiftr b 4 < 64 ∧
  0 <= Z.shiftl (Z.land b 15) 2 + Z.shiftr c 6 < 64 ∧ 0 <= Z.land c 63 < 64.
Proof. unfold byte. intros. split_and!; bits. Qed.

Lemma quad_bytes a b c : byte a → byte b → byte c →
  Z.shiftr a 2 * 4 + (Z.shiftl (Z.land a 3) 4 + Z.shiftr b 4) / 16 = a ∧
  (Z.shiftl (Z.land a 3) 4 + Z.shiftr b 4) mod 16 * 16 + (Z.shiftl (Z.land b 15) 2 + Z.shiftr c 6) / 4 = b ∧
  (Z.shiftl (Z.land b 15) 2 + Z.shiftr c 6) mod 4 * 64 + Z.land c 63 = c.
Proof. unfold byte. intros. split_and!; bits. Qed.

Lemma triples_ind (P : list Z → Prop) :
  P [] → (∀ a, P [a]) → (∀ a b, P [a; b]) → (∀ a b c l, P l → P (a :: b :: c :: l)) → ∀ l, P l.
Proof.
  intros H0 H1 H2 H3. fix IH 1. intros [|a [|b [|c l]]]; [done|apply H1|apply H2|apply H3, IH].
Qed.

Definition pads (l : list Z) : list Ascii.ascii :=
  replicate ((3 - length l mod 3) mod 3)%nat (byte_char 61).

Lemma pads_step a b c l : pads (a :: b :: c :: l) = pads l.
Proof.
  unfold pads. f_equal. simpl length. replace (S (S (S (length l)))) with (length l + 1 * 3)%nat by lia.
  by rewrite Nat.Div0.mod_add.
Qed.

Lemma b64url_decode l : Forall byte l → a2b_base64 (b64url l ++ pads l) 0 0 0 = Some l.
Proof.
  induction l as [|a|a b|a b c l IH] using triples_ind; intros Hl; [done|..].
  - rewrite Forall_singleton in Hl.
    assert (byte 0) as H0 by (unfold byte; lia).
    destruct (quad_range a 0 0 Hl H0 H0) as (R1 & R2 & _).
    destruct (quad_bytes a 0 0 Hl H0 H0) as (E1 & _).
    change (Z.shiftr 0 4) with 0 in *. rewrite Z.add_0_r in R2, E1.
    change (b64url [a] ++ pads [a]) with
      (b64_digit (Z.shiftr a 2) :: b64_digit (Z.shiftl (Z.land a 3) 4) :: [byte_char 61; byte_char 61]).
    rewrite !a2b_digit by done. rewrite E1. done.
  - rewrite Forall_cons, Forall_singleton in Hl. destruct Hl as [Ha Hb].
    assert (byte 0) as H0 by (unfold byte; lia).
    destruct (quad_range a b 0 Ha Hb H0) as (R1 & R2 & R3 & _).
    destruct (quad_bytes a b 0 Ha Hb H0) as (E1 & E2 & _).
    change (Z.shiftr 0 6) with 0 in *. rewrite Z.add_0_r in R3, E2.
    change (b64url [a; b] ++ pads [a; b]) with
      (b64_digit (Z.shiftr a 2) :: b64_digit (Z.shiftl (Z.land a 3) 4 + Z.shiftr b 4) ::
       b64_digit (Z.shiftl (Z.land b 15) 2) :: [byte_char 61]).
    rewrite !a2b_digit by done. rewrite E1, E2. done.
  - rewrite !Forall_cons in Hl. destruct Hl as (Ha & Hb & Hc & Hl).
    destruct (quad_range a b c Ha Hb Hc) as (R1 & R2 & R3 & R4).
    destruct (quad_bytes a b c Ha Hb Hc) as (E1 & E2 & E3).
    rewrite pads_step. cbn [b64url app]. rewrite !a2b_digit by done.
    rewrite IH by done. by rewrite E1, E2, E3.
Qed.

Lemma b64_length l : (length (urlsafe_b64encode l) mod 4 = 0)%nat.
Proof.
  unfold urlsafe_b64encode. fold (pads l). induction l as [|a|a b|a b c l IH] using triples_ind; [done..|].
  rewrite pads_step. cbn [b64url app length].
  replace (S (S (S (S (length (b64url l ++ pads l))))))
    with (length (b64url l ++ pads l) + 1 * 4)%nat by lia.
  by rewrite Nat.Div0.mod_add.
Qed.

Lemma b64_digit_ascii n : 0 <= n < 64 → (Z.of_nat (Ascii.nat_of_ascii (b64_digit n)) <? 128) = true.
Proof.
  intros Hn.
  assert (forallb (λ n, Z.of_nat (Ascii.nat_of_ascii (b64_digit n)) <? 128) (seqZ 0 64) = true) as Hall
    by (vm_compute; reflexivity).
  rewrite forallb_forall in Hall. apply Hall, list_elem_of_In, elem_of_seqZ. lia.
Qed.

Lemma b64_ascii l : Forall byte l →
  Forall (λ c, (Z.of_nat (Ascii.nat_of_ascii c) <? 128) = true) (urlsafe_b64encode l).
Proof.
  intros Hl. apply Forall_app. split; [|by apply Forall_replicate].
  induction l as [|a|a b|a b c l IH] using triples_ind; [done|..].
  - rewrite Forall_singleton in Hl. assert (byte 0) as H0 by (unfold byte; lia).
    destruct (quad_range a 0 0 Hl H0 H0) as (R1 & R2 & _).
    change (Z.shiftr 0 4) with 0 in R2. rewrite Z.add_0_r in R2.
    repeat constructor; by apply b64_digit_ascii.
  - rewrite Forall_cons, Forall_singleton in Hl. destruct Hl as [Ha Hb].
    assert (byte 0) as H0 by (unfold byte; lia).
    destruct (quad_range a b 0 Ha Hb H0) as (R1 & R2 & R3 & _).
    change (Z.shiftr 0 6) with 0 in R3. rewrite Z.add_0_r in R3.
    repeat constructor; by apply b64_digit_ascii.
  - rewrite !Forall_cons in Hl. destruct Hl as (Ha & Hb & Hc & Hl).
    destruct (quad_range a b c Ha Hb Hc) as (R1 & R2 & R3 & R4).
    repeat (constructor; [by apply b64_digit_ascii|]). by apply IH.
Qed.

(** ** Numerals *)

Lemma digit_char_value d : (d < 10)%N →
  digit_value (pretty_N_char d) = Some (Z.of_N d) ∧ is_space (pretty_N_char d) = false ∧
  pretty_N_char d ≠ byte_char 45 ∧ pretty_N_char d ≠ byte_char 43 ∧ pretty_N_char d ≠ dot ∧
  (Z.of_nat (Ascii.nat_of_ascii (pretty_N_char d)) <? 128) = true.
Proof.
  intros Hd. destruct d as [|p]; [done|].
  do 4 (try destruct p as [p|p|]); first [lia|by split_and!].
Qed.

Lemma text_of_chars s : text_of (chars s) = s.
Proof. apply String.string_of_list_ascii_of_string. Qed.
Lemma chars_text_of l : chars (text_of l) = l.
Proof. apply String.list_ascii_of_string_of_list_ascii. Qed.

(** What the letters of a numeral satisfy. *)
Definition numeral_char (c : Ascii.ascii) : Prop :=
  is_Some (digit_value c) ∧ is_space c = false ∧ c ≠ byte_char 45 ∧ c ≠ byte_char 43 ∧ c ≠ dot ∧ (Z.of_nat (Ascii.nat_of_ascii c) <? 128) = true.

Lemma pretty_N_go_chars x s : Forall numeral_char (chars s) → Forall numeral_char (chars (pretty_N_go x s)).
Proof.
  revert s. induction (N.lt_wf_0 x) as [x _ IH]. intros s Hs.
  destruct (decide (0 < x)%N) as [Hx|Hx].
  - rewrite pretty_N_go_step by done. apply IH; [apply N.div_lt; lia|].
    destruct (digit_char_value (x mod 10)) as (Hv & ?); [apply N.mod_lt; lia|].
    constructor; [by unfold numeral_char; rewrite Hv|done].
  - replace x with 0%N by lia. by rewrite pretty_N_go_0.
Qed.

Lemma pretty_N_go_int x s need :
  (0 < x)%N → int_digits (chars (pretty_N_go x s)) 0 need = int_digits (chars s) (Z.of_N x) false.
Proof.
  revert s need. induction (N.lt_wf_0 x) as [x _ IH]. intros s need Hx.
  rewrite pretty_N_go_step by done.
  destruct (digit_char_value (x mod 10)) as (Hv & _); [apply N.mod_lt; lia|].
  assert (Z.of_N x = 10 * Z.of_N (x `div` 10) + Z.of_N (x mod 10)) as Hdm.
  { rewrite N2Z.inj_div, N2Z.inj_mod. apply Z.div_mod. lia. }
  destruct (decide (0 < x `div` 10)%N) as [Hd|Hd].
  - rewrite IH by (try apply N.div_lt; lia).
    cbn [chars String.list_ascii_of_string int_digits]. rewrite Hv. f_equal. lia.
  - assert ((x `div` 10)%N = 0%N) as Hz by (destruct (x `div` 10)%N; [done|exfalso; apply Hd; done]).
    rewrite Hz in Hdm |- *. rewrite pretty_N_go_0.
    cbn [chars String.list_ascii_of_string int_digits]. rewrite Hv. f_equal. lia.
Qed.

Lemma drop_spaces_none l : Forall (λ c, is_space c = false) l → drop_spaces l = l.
Proof. destruct 1 as [|c l Hc _]; [done|]. simpl. by rewrite Hc. Qed.
Lemma py_strip_none s : Forall (λ c, is_space c = false) (chars s) → py_strip s = s.
Proof.
  intros Hs. unfold py_strip. fold (chars s). rewrite (drop_spaces_none (chars s)) by done.
  rewrite drop_spaces_none; [rewrite rev_involutive; apply text_of_chars|].
  rewrite rev_alt, <- rev_alt. by apply Forall_rev.
Qed.

Lemma pretty_nat_chars z : 0 <= z → Forall numeral_char (chars (pretty z)).
Proof.
  intros Hz. destruct z as [|p|p]; [by repeat constructor| |lia].
  change (pretty (Zpos p)) with (pretty_N_go (Npos p) ""). by apply pretty_N_go_chars.
Qed.

Lemma py_int_pretty z : 0 <= z → py_int (pretty z) = Some z.
Proof.
  intros Hz. pose proof (pretty_nat_chars z Hz) as Hc. unfold py_int. rewrite py_strip_none.
  2: { eapply Forall_impl; [exact Hc|]. by intros c (_ & ? & _). }
  destruct z as [|p|p]; [done| |lia].
  change (pretty (Zpos p)) with (pretty_N_go (Npos p) "").
  pose proof (pretty_N_go_int (Npos p) "" true eq_refl) as Hi.
  change (pretty (Zpos p)) with (pretty_N_go (Npos p) "") in Hc.
  destruct (chars (pretty_N_go (Npos p) "")) as [|c l] eqn:E; [done|].
  apply Forall_cons_1 in Hc as [(_ & _ & H1 & H2 & _) _]. by rewrite !decide_False.
Qed.

(** ** Fields of a payload *)

Lemma split_on_field c w l : c ∉ w → split_on c (w ++ c :: l) = w :: split_on c l.
Proof.
  induction w as [|x w IH]; simpl; [by rewrite decide_True|].
  intros [Hx Hw]%not_elem_of_cons. rewrite decide_False by done. by rewrite IH.
Qed.
Lemma split_on_last c w : c ∉ w → split_on c w = [w].
Proof.
  induction w as [|x w IH]; simpl; [done|].
  intros [Hx Hw]%not_elem_of_cons. rewrite decide_False by done. by rewrite IH.
Qed.

Lemma bytes_of_chars s : bytes_of s = (λ c, Z.of_nat (Ascii.nat_of_ascii c)) <$> chars s.
Proof. done. Qed.
Lemma bytes_of_byte s : Forall byte (bytes_of s).
Proof.
  rewrite bytes_of_chars. apply Forall_fmap, Forall_true. intros c. unfold byte. simpl.
  pose proof (Ascii.nat_ascii_bounded c). lia.
Qed.
Lemma text_of_bytes_of s : text_of_bytes (bytes_of s) = s.
Proof.
  unfold text_of_bytes. rewrite bytes_of_chars, <- list_fmap_compose.
  rewrite <- (text_of_chars s) at 2. f_equal. rewrite <- (list_fmap_id (chars s)) at 2.
  apply list_fmap_ext. intros _ c _. unfold byte_char. simpl.
  rewrite Nat2Z.id. apply Ascii.ascii_nat_embedding.
Qed.

Lemma is_ascii_Forall s : is_ascii s = true ↔ Forall (λ c, (Z.of_nat (Ascii.nat_of_ascii c) <? 128) = true) (chars s).
Proof.
  unfold is_ascii. rewrite bytes_of_chars, forallb_forall, Forall_forall. split.
  - intros Hs c Hc. apply Hs, list_elem_of_In, list_elem_of_fmap. by exists c.
  - intros Hs b (c & -> & Hc)%list_elem_of_In%list_elem_of_fmap. by apply Hs.
Qed.
Lemma utf8_valid_ascii s : is_ascii s = true → utf8_valid (bytes_of s) = true.
Proof.
  unfold is_ascii. induction (bytes_of s) as [|b l IH]; simpl; [done|].
  intros [-> Hl]%andb_true_iff. by apply IH.
Qed.

Definition hex_char (c : Ascii.ascii) : Prop := c ≠ dot ∧ (Z.of_nat (Ascii.nat_of_ascii c) <? 128) = true.
Lemma hex_digit_char n : 0 <= n < 16 → hex_char (hex_digit n).
Proof.
  intros Hn.
  assert (forallb (λ n, bool_decide (hex_digit n ≠ dot) && (Z.of_nat (Ascii.nat_of_ascii (hex_digit n)) <? 128))
    (seqZ 0 16) = true) as Hall by (vm_compute; reflexivity).
  rewrite forallb_forall in Hall. specialize (Hall n).
  rewrite andb_true_iff, bool_decide_eq_true in Hall. apply Hall, list_elem_of_In, elem_of_seqZ. lia.
Qed.

Lemma word_bytes_byte x : 0 <= x < 2 ^ 32 → Forall byte (word_bytes x).
Proof.
  intros Hx. change (2 ^ 32) with 4294967296 in Hx. unfold word_bytes, byte.
  rewrite !Z.shiftr_div_pow2 by lia. change 255 with (Z.ones 8). rewrite !Z.land_ones by lia.
  change (2 ^ 24) with 16777216. change (2 ^ 16) with 65536. change (2 ^ 8) with 256.
  repeat constructor; Z.to_euclidean_division_equations; lia.
Qed.

Definition word32 (x : Z) : Prop := 0 <= x < 2 ^ 32.
Lemma word_range x : word32 (word x).
Proof. unfold word32, word. apply Z.mod_pos_bound. lia. Qed.
Lemma hash_blocks_range n h ws : Forall word32 h → Forall word32 (hash_blocks n h ws).
Proof.
  revert h ws. induction n as [|n IH]; intros h ws Hh; simpl; [done|]. destruct ws; [done|].
  apply IH. unfold compress. apply Forall_forall. intros x (p & <- & _)%list_elem_of_In%in_map_iff.
  apply word_range.
Qed.
Lemma sha256_bytes l : Forall byte (sha256 l).
Proof.
  unfold sha256. apply Forall_forall. intros b (x & Hx & Hb)%list_elem_of_In%in_flat_map.
  assert (Forall word32 initial_hash) as H0.
  { repeat constructor; done. }
  pose proof (hash_blocks_range (length (words_of (pad l))) _ (words_of (pad l)) H0) as Hh.
  rewrite Forall_forall in Hh. apply list_elem_of_In, Hh, word_bytes_byte in Hx.
  rewrite Forall_forall in Hx. by apply Hx, list_elem_of_In.
Qed.

Lemma hexdigest_chars l : Forall byte l → Forall hex_char (chars (hexdigest l)).
Proof.
  intros Hl. unfold hexdigest. rewrite chars_text_of. apply Forall_forall.
  intros c (b & Hb & Hc)%list_elem_of_In%in_flat_map.
  rewrite Forall_forall in Hl. apply list_elem_of_In, Hl in Hb. unfold byte in Hb.
  assert (0 <= Z.shiftr b 4 < 16 ∧ 0 <= Z.land b 15 < 16) as [H1 H2].
  { rewrite Z.shiftr_div_pow2 by lia. change 15 with (Z.ones 4). rewrite Z.land_ones by lia.
    change (2 ^ 4) with 16. Z.to_euclidean_division_equations; lia. }
  destruct Hc as [<-|[<-|[]]]; by apply hex_digit_char.
Qed.

Lemma length_chars s : length (chars s) = String.length s.
Proof. unfold chars. induction s as [|c s IH]; [done|]. simpl. by rewrite IH. Qed.

Lemma pretty_N_go_length k x s :
  (x < 10 ^ N.of_nat k)%N → (length (chars (pretty_N_go x s)) <= k + length (chars s))%nat.
Proof.
  revert x s. induction k as [|k IH]; intros x s Hx.
  { replace x with 0%N by (simpl in Hx; lia). by rewrite pretty_N_go_0. }
  destruct (decide (0 < x)%N) as [H0|H0].
  - rewrite pretty_N_go_step by done.
    etrans; [apply IH|unfold chars; simpl; lia].
    rewrite Nat2N.inj_succ, N.pow_succ_r' in Hx. apply N.Div0.div_lt_upper_bound. exact Hx.
  - replace x with 0%N by lia. rewrite pretty_N_go_0. lia.
Qed.

(** A number below a million has six digits after filling. *)
Lemma zfill6_digits n : 0 <= n < 1000000 →
  String.length (zfill6 n) = 6%nat ∧ Forall numeral_char (chars (zfill6 n)).
Proof.
  intros Hn. assert (length (chars (pretty n)) <= 6)%nat as Hl.
  { destruct n as [|p|p]; [simpl; lia| |lia].
    change (pretty (Zpos p)) with (pretty_N_go (Npos p) "").
    apply (pretty_N_go_length 6 (Npos p) ""). simpl. lia. }
  unfold zfill6. rewrite <- length_chars, chars_app, chars_text_of, length_app, length_replicate.
  rewrite <- (length_chars (pretty n)). split; [lia|].
  apply Forall_app. split; [|apply pretty_nat_chars; lia].
  apply Forall_replicate. by unfold numeral_char.
Qed.

Section url.
Context (key : list Z).

Lemma url_hmac_chars user purpose t state :
  Forall hex_char (chars (_compute_url_hmac key user purpose t state)).
Proof. apply hexdigest_chars, sha256_bytes. Qed.

(** Decoding a generated token gives back its fields. *)
Lemma decode_generated user purpose t state :
  is_ascii user = true → dot ∉ chars user → 0 <= t →
  _decode_url_token (generate_url_token key t user purpose state) =
  Some (user, t, _compute_url_hmac key user purpose t state).
Proof.
  intros Hu Hd Ht. unfold generate_url_token.
  set (m := _compute_url_hmac key user purpose t state).
  set (payload := user +:+ "." +:+ pretty t +:+ "." +:+ m).
  pose proof (pretty_nat_chars t Ht) as Hp.
  pose proof (url_hmac_chars user purpose t state) as Hm. fold m in Hm.
  assert (chars payload = chars user ++ dot :: chars (pretty t) ++ dot :: chars m) as Hc.
  { unfold payload. by rewrite !chars_app. }
  assert (is_ascii payload = true) as Ha.
  { apply is_ascii_Forall. rewrite Hc. apply Forall_app. split; [by apply is_ascii_Forall|].
    constructor; [done|]. apply Forall_app. split.
    - eapply Forall_impl; [exact Hp|]. by intros c (_ & _ & _ & _ & _ & ?).
    - constructor; [done|]. eapply Forall_impl; [exact Hm|]. by intros c []. }
  unfold _decode_url_token.
  assert (is_ascii (text_of (urlsafe_b64encode (bytes_of payload))) = true) as ->.
  { apply is_ascii_Forall. rewrite chars_text_of. apply b64_ascii, bytes_of_byte. }
  rewrite chars_text_of.
  replace (String.length (text_of (urlsafe_b64encode (bytes_of payload))))
    with (length (urlsafe_b64encode (bytes_of payload))).
  2: { rewrite <- (chars_text_of (urlsafe_b64encode _)) at 1. unfold chars.
       generalize (text_of (urlsafe_b64encode (bytes_of payload))). intros s.
       induction s as [|x s IH]; [done|]. simpl. by rewrite IH. }
  rewrite b64_length. simpl replicate. rewrite app_nil_r.
  unfold urlsafe_b64decode, urlsafe_b64encode. fold (pads (bytes_of payload)).
  rewrite b64url_decode by apply bytes_of_byte. simpl.
  rewrite utf8_valid_ascii by done. rewrite text_of_bytes_of, Hc.
  rewrite split_on_field by done. rewrite split_on_field.
  2: { intros Hin. rewrite Forall_forall in Hp. by apply Hp in Hin as (_ & _ & _ & _ & ? & _). }
  rewrite split_on_last.
  2: { intros Hin. rewrite Forall_forall in Hm. by apply Hm in Hin as (? & _). }
  csimpl. rewrite !text_of_chars. by rewrite py_int_pretty.
Qed.

Lemma run_verify_generated now user purpose t ttl state purpose' state' :
  is_ascii user = true → dot ∉ chars user → 0 <= t →
  verify_url_token key now (generate_url_token key t user purpose state) purpose' ttl state' =
  if ttl <? now - t then Ok None
  else Ok (if decide (_compute_url_hmac key user purpose t state =
                      _compute_url_hmac key user purpose' t state') then Some user else None).
Proof.
  intros Hu Hd Ht. unfold verify_url_token. rewrite decode_generated by done.
  destruct (ttl <? now - t); [done|]. unfold when_ascii.
  assert (is_ascii (_compute_url_hmac key user purpose t state) = true) as ->; [|done].
  apply is_ascii_Forall. eapply Forall_impl; [apply url_hmac_chars|]. by intros c [].
Qed.

(** A URL token verifies as its user, with the purpose and the state it
    was made for, until it is older than its lifetime, and then no more. *)
Theorem url_token_roundtrip now user purpose t ttl state :
  is_ascii user = true → dot ∉ chars user → 0 <= t →
  verify_url_token key now (generate_url_token key t user purpose state) purpose ttl state =
  Ok (if ttl <? now - t then None else Some user).
Proof.
  intros. rewrite run_verify_generated by done. destruct (ttl <? now - t); [done|].
  by rewrite decide_True.
Qed.

Lemma elem_of_window_steps o w : o ∈ window_steps w ↔ Z.abs o <= Z.of_nat w.
Proof.
  unfold window_steps. rewrite list_elem_of_fmap. split.
  - intros (i & -> & Hi%elem_of_seq). lia.
  - intros Ho. exists (Z.to_nat (o + Z.of_nat w)). split; [lia|]. apply elem_of_seq. lia.
Qed.

Lemma generate_code_digits now user purpose step state :
  let code := generate_code key now user purpose step state in
  String.length code = 6%nat ∧ Forall numeral_char (chars code).
Proof. apply zfill6_digits, Z.mod_pos_bound. lia. Qed.

(** A code has exactly six digits; it is accepted, for the same user,
    purpose and state, as long as the clock is within the window of steps
    around the one it was made in; and without the bypass an accepted code is
    one that was made in such a step. *)
Theorem code_window bypass now t code user purpose step w state :
  let made := generate_code key t user purpose step state in
  String.length made = 6%nat ∧ Forall (λ c, is_Some (digit_value c)) (chars made) ∧
  (Z.abs (t / step - now / step) <= Z.of_nat w →
   verify_code key bypass now made user purpose step w state = Ok true) ∧
  (verify_code key false now code user purpose step w state = Ok true →
   ∃ k, Z.abs (k - now / step) <= Z.of_nat w ∧ code = _compute_code key user purpose k state).
Proof.
  intros made. destruct (generate_code_digits t user purpose step state) as [Hl Hd]. fold made in Hl, Hd.
  split; [done|]. split; [eapply Forall_impl; [exact Hd|]; by intros c (? & _)|]. split.
  - intros Hw. unfold verify_code. destruct (bypass && _ && _); [done|]. unfold when_ascii.
    assert (is_ascii made = true) as ->.
    { apply is_ascii_Forall. eapply Forall_impl; [exact Hd|]. by intros c (_ & _ & _ & _ & _ & ?). }
    f_equal. apply existsb_exists. exists (t / step - now / step).
    split; [by apply list_elem_of_In, elem_of_window_steps|].
    apply bool_decide_eq_true. unfold made, generate_code. f_equal. lia.
  - unfold verify_code. simpl. unfold when_ascii. destruct (is_ascii code); [|done].
    intros [= (o & Ho & Heq)%existsb_exists]. exists (now / step + o).
    apply list_elem_of_In, elem_of_window_steps in Ho. split; [lia|].
    by apply bool_decide_eq_true in Heq.
Qed.
End url.
