(* ===== verification/PasswordStrength.v ===== *)
(** * Password strength

    app/utils/password_strength.py: the policy check with its three issues,
    the lookup in the breach service, and the data kept to look again later.
    SHA-1, [splitlines] and [partition] are those of Python's standard
    library; the strength estimator and the breach service are arguments. *)

From stdpp Require Import strings list.
From S2P Require Import Prelude Sha256 Tokens.
#[local] Open Scope Z_scope.

(** ** SHA-1 *)

Definition rotl (n x : Z) : Z := rotr (32 - n) x.

(** The message schedule, newest word first. *)
Fixpoint schedule1 (n : nat) (w : list Z) : list Z :=
  match n with
  | O => w
  | S n =>
      let x k := nth k w 0 in
      schedule1 n (rotl 1 (Z.lxor (Z.lxor (x 2%nat) (x 7%nat)) (Z.lxor (x 13%nat) (x 15%nat))) :: w)
  end.
Definition Parity (x y z : Z) : Z := Z.lxor (Z.lxor x y) z.
(** The function and the constant of a round. *)
Definition round1 (t : nat) : (Z → Z → Z → Z) * Z :=
  if (t <? 20)%nat then (Ch, 1518500249)
  else if (t <? 40)%nat then (Parity, 1859775393)
  else if (t <? 60)%nat then (Maj, 2400959708)
  else (Parity, 3395469782).
Definition step1 (h : list Z) (tw : nat * Z) : list Z :=
  match h with
  | [a; b; c; d; e] =>
      let '(f, k) := round1 tw.1 in
      [word (rotl 5 a + f b c d + e + k + tw.2); a; rotl 30 b; c; d]
  | _ => h
  end.
Definition compress1 (h block : list Z) : list Z :=
  let w := rev (schedule1 64 (rev block)) in
  (λ p : Z * Z, word (p.1 + p.2)) <$> combine h (fold_left step1 (combine (seq 0 80) w) h).
Fixpoint hash_blocks1 (fuel : nat) (h words : list Z) : list Z :=
  match fuel with
  | O => h
  | S fuel =>
      match words with
      | [] => h
      | _ => hash_blocks1 fuel (compress1 h (take 16 words)) (drop 16 words)
      end
  end.
(** The padding is that of SHA-256; there are fewer blocks than words. *)
Definition sha1 (msg : list Z) : list Z :=
  let words := words_of (pad msg) in
  hash_blocks1 (length words) [1732584193; 4023233417; 2562383102; 271733878; 3285377520] words
    ≫= word_bytes.

Definition upper_string (s : string) : string := text_of (upper <$> chars s).

Definition sha1_hex (password : string) : string := upper_string (hexdigest (sha1 (bytes_of password))).

Example sha1_abc : sha1_hex "abc" = "A9993E364706816ABA3E25717850C26C9CD0D89D".
Proof. vm_compute. reflexivity. Qed.
Example sha1_password : sha1_hex "password" = "5BAA61E4C9B93F3F0682250B6CF8331B7EE68FD8".
Proof. vm_compute. reflexivity. Qed.
Example sha1_two_blocks :
  sha1_hex "abcdbcdecdefdefgefghfghighijhijkijkljklmklmnlmnomnopnopq" =
  "84983E441C3BD26EBAAE4AA1F95129E5E54670F1".
Proof. vm_compute. reflexivity. Qed.

(** ** Text *)

(** [str.splitlines] on the ASCII range. *)
Definition is_line_break (c : Ascii.ascii) : bool :=
  let n := Ascii.nat_of_ascii c in
  (((10 <=? n) && (n <=? 13)) || ((28 <=? n) && (n <=? 30)))%nat.
Definition cr : Ascii.ascii := Ascii.ascii_of_nat 13.
Definition lf : Ascii.ascii := Ascii.ascii_of_nat 10.
Fixpoint split_lines (l line : list Ascii.ascii) : list (list Ascii.ascii) :=
  match l with
  | [] => match line with [] => [] | _ => [rev line] end
  | c :: l1 =>
      if is_line_break c then
        match l1 with
        | d :: l2 => if decide (c = cr ∧ d = lf) then rev line :: split_lines l2 []
                     else rev line :: split_lines l1 []
        | [] => [rev line]
        end
      else split_lines l1 (c :: line)
  end.
Definition splitlines (s : string) : list string := text_of <$> split_lines (chars s) [].

(** [s.partition(c)], without the separator. *)
Definition partition (c : Ascii.ascii) (s : string) : string * string :=
  (fix go (l : list Ascii.ascii) (before : list Ascii.ascii) :=
     match l with
     | [] => (text_of (rev before), "")
     | x :: l => if decide (x = c) then (text_of (rev before), text_of l) else go l (x :: before)
     end) (chars s) [].
Definition colon : Ascii.ascii := Ascii.ascii_of_nat 58.

Example lines_ex : splitlines (String.append "A:1" (String.String cr (String.String lf "B:2"))) = ["A:1"; "B:2"].
Proof. reflexivity. Qed.
Example partition_ex : partition colon "00D4: 10 :x" = ("00D4", " 10 :x").
Proof. reflexivity. Qed.

(** ** The checks *)

(** zxcvbn's score, which may raise, and the body the breach service answers
    at a time for a prefix ([None]: a transport or status error). *)
Class Zxcvbn := zxcvbn : string → list string → outcome Z.
Class Hibp := hibp_range : Z → string → option string.

Inductive issue := password_too_short | password_too_weak | password_breached.
#[export] Instance issue_eq_dec : EqDecision issue.
Proof. solve_decision. Defined.
Definition issue_code (i : issue) : string :=
  match i with
  | password_too_short => "password_too_short"
  | password_too_weak => "password_too_weak"
  | password_breached => "password_breached"
  end.

Section strength.
Context `{Zxcvbn} `{Hibp}.

Definition sha1_prefix (password : string) : string := text_of (take 5 (chars (sha1_hex password))).
Definition sha1_suffix (password : string) : string := text_of (drop 5 (chars (sha1_hex password))).

(** The count of the first line that has the suffix. *)
Fixpoint hibp_count (suffix : string) (lines : list string) : outcome Z :=
  match lines with
  | [] => Ok 0
  | line :: lines =>
      let '(hash_suffix, count) := partition colon line in
      if decide (py_strip hash_suffix = suffix) then
        match py_int (py_strip count) with
        | Some n => Ok n
        | None => Raise (PythonError "ValueError")
        end
      else hibp_count suffix lines
  end.
Definition check_hibp (now : Z) (password : string) : outcome Z :=
  match hibp_range now (sha1_prefix password) with
  | None => Ok 0
  | Some text => hibp_count (sha1_suffix password) (splitlines text)
  end.

Definition effective_length (minimum_length : Z) (user_role : option role) : Z :=
  if decide (user_role = Some super_admin ∧ minimum_length < 14) then 14 else minimum_length.

(** The codes of the issues, in order; the advice in the messages is not
    modelled. *)
Definition validate_password (now : Z) (password : string) (minimum_length minimum_score : Z)
    (user_role : option role) (user_inputs : list string) : outcome (list issue) :=
  let short := if py_len password <? effective_length minimum_length user_role
               then [password_too_short] else [] in
  match zxcvbn password user_inputs with
  | Raise e => Raise e
  | Ok score =>
      let weak := if score <? minimum_score then [password_too_weak] else [] in
      match check_hibp now password with
      | Raise e => Raise e
      | Ok count =>
          Ok (short ++ weak ++ (if 0 <? count then [password_breached] else []))
      end
  end.

(** ** Continuous monitoring *)

Definition check_hmac (hmac_key : list Z) (sha1 : string) : string :=
  hexdigest (hmac_sha256 hmac_key (bytes_of sha1)).
Definition compute_hibp_monitoring_data (password : string) (hmac_key : list Z) : string * string :=
  (sha1_prefix password, check_hmac hmac_key (sha1_hex password)).
Definition check_hibp_suffix_against_hmac (prefix stored_hmac : string) (hmac_key : list Z)
    (suffixes : list string) : outcome bool :=
  if decide (suffixes = []) then Ok false
  else when_ascii stored_hmac
    (existsb (λ suffix, bool_decide (check_hmac hmac_key (upper_string (prefix +:+ suffix)) = stored_hmac))
       suffixes).

(** [_fetch_hibp_suffixes] of jobs/check_hibp_breaches.py. *)
Definition _fetch_hibp_suffixes (now : Z) (prefix : string) : list string :=
  match hibp_range now prefix with
  | None => []
  | Some text => (λ line, py_strip (partition colon line).1) <$> splitlines text
  end.
End strength.
