(* ===== verification/Credentials.v ===== *)
(** * Passwords and account recovery

    app/services/users/password.py, the handlers of
    app/routers/auth/password_reset.py and onboarding.py,
    app/utils/redirects.py, and the breach monitor
    app/jobs/check_hibp_breaches.py.  Argon2, the strength estimator, the
    breach service and the text of a timestamp are arguments; a call that
    sends an e-mail returns what it sends. *)

From stdpp Require Import gmap strings.
From S2P Require Import Prelude GroupDb GroupService Sha256 OAuthDb OAuthService UserLifecycle MailDb MailService Tokens PasswordStrength.
#[local] Open Scope Z_scope.

(** Argon2 draws a salt for every hash; [verify] says whether the password
    matches, or raises what [verify_password] does not catch. *)
Class Argon2Hash := argon2_hash : string → string → string.
Class Argon2Verify := argon2_verify : string → string → outcome bool.
(** [str(datetime)] of a timestamp column. *)
Class DatetimeText := datetime_text : Z → string.

(** ** utils/redirects.py *)

Definition MAX_TARGET_LEN : Z := 2048.
Definition DEFAULT_TARGET : string := "/dashboard".
Definition slash : Ascii.ascii := Ascii.ascii_of_nat 47.
Definition backslash : Ascii.ascii := Ascii.ascii_of_nat 92.
(** [ch < " " or ch == "\x7f"]. *)
Definition is_control (c : Ascii.ascii) : bool :=
  let n := Ascii.nat_of_ascii c in ((n <? 32) || (n =? 127))%nat.

(** [urlsplit(s)] has a scheme or a network location, for a text without
    control characters: a scheme starts with a letter and is followed by a
    colon, a location follows two slashes at the start. *)
Definition is_letter (c : Ascii.ascii) : bool :=
  let n := Ascii.nat_of_ascii c in (((65 <=? n) && (n <=? 90)) || ((97 <=? n) && (n <=? 122)))%nat.
Definition scheme_char (c : Ascii.ascii) : bool :=
  let n := Ascii.nat_of_ascii c in
  is_letter c || ((48 <=? n) && (n <=? 57))%nat || bool_decide (n ∈ [43; 45; 46]%nat).
Fixpoint scheme_then_colon (l : list Ascii.ascii) : bool :=
  match l with
  | [] => false
  | c :: l => bool_decide (c = colon) || (scheme_char c && scheme_then_colon l)
  end.
Definition has_scheme_or_netloc (l : list Ascii.ascii) : bool :=
  match l with
  | c :: l1 =>
      (is_letter c && scheme_then_colon l1) || bool_decide (take 2 l = [slash; slash])
  | [] => false
  end.

Definition is_safe_path (target : string) : bool :=
  let l := chars target in
  bool_decide (target ≠ "") && (py_len target <=? MAX_TARGET_LEN) &&
  bool_decide (take 1 l = [slash]) && bool_decide (take 2 l ≠ [slash; slash]) &&
  bool_decide (backslash ∉ l) && forallb (λ c, negb (is_control c)) l &&
  negb (contains "://" target) && negb (has_scheme_or_netloc l).
Definition safe_path (target default_target : string) : string :=
  if is_safe_path target then target else default_target.

(** A browser's answer: a redirect, one of the pages, or the start of the
    second factor. *)
Inductive reply :=
  | redirect (url : string)
  | reset_form (token : string) (minimum_length minimum_score : Z) (error : option string)
      (recovery_mode : bool)
  | inactivated_page (u : uuid) (r : role)
  | set_password_form (email email_id nonce : string) (minimum_length minimum_score : Z)
  | unprocessable                                                     (* 422 *)
  | mfa_pending (u : uuid) (method : option string) (mailed : option (string * string)).
#[export] Instance reply_eq_dec : EqDecision reply.
Proof. solve_decision. Defined.

(** A form is refused before its handler runs when a field is longer than its
    [max_length]. *)
Definition fits (fields : list (Z * string)) : bool := forallb (λ f : Z * string, py_len f.2 <=? f.1) fields.

Lemma fits_spec l : fits l = true ↔ Forall (λ f, py_len f.2 <= f.1) l.
Proof.
  unfold fits. rewrite forallb_forall, Forall_forall. split; intros H f Hf.
  - by apply Z.leb_le, H, list_elem_of_In.
  - by apply Z.leb_le, H, list_elem_of_In.
Qed.

Definition safe_redirect (target : string) : reply := redirect (safe_path target DEFAULT_TARGET).
(** [safe_external_redirect]; the caller decides what to do with [None]. *)
Definition safe_external_redirect (host path : string) (allowed_hosts : gset string) : option string :=
  if decide (host = "" ∨ host ∉ allowed_hosts) then None
  else if is_safe_path path then Some ("https://" +:+ host +:+ path) else None.

Section credentials.
Context `{MailIds} `{Nonces} `{UuidText} `{UuidParse} `{Zxcvbn} `{Hibp}
  `{Argon2Hash} `{Argon2Verify} `{DatetimeText}.
(** The derived keys of the tokens and of the breach data. *)
Context (token_key hibp_key : list Z).
Implicit Types s : mail.

(** ** services/users/password.py *)

Definition _get_policy s : Z * Z :=
  match ma_security s with
  | Some p => (minimum_password_length p, minimum_zxcvbn_score p)
  | None => (14, 3)
  end.

Definition hash_password (password : string) : M mail string :=
  salt ← draw; mret (argon2_hash salt password).
Definition verify_password (hash password : string) : M mail bool := lift (argon2_verify hash password).

(** [if not strength.is_valid: raise] the first issue. *)
Definition require_strength (password : string) (minimum_length minimum_score : Z) (r : option role)
    (user_inputs : list string) : M mail () :=
  now ← gets ma_clock;
  issues ← lift (validate_password now password minimum_length minimum_score r user_inputs);
  match issues with
  | i :: _ => raise (ServiceError ValidationError (issue_code i))
  | [] => mret ()
  end.

Definition store_password (u : uuid) (password : string) (minimum_length minimum_score : Z) : M mail () :=
  new_hash ← hash_password password;
  let '(prefix, hmac) := compute_hibp_monitoring_data password hibp_key in
  _ ← update_password u new_hash (Some prefix) (Some hmac) (Some (minimum_length, minimum_score));
  mret ().

(** The policy and the address go to the check, the policy to the row. *)
Definition check_and_store (u : uuid) (r : option role) (password : string) : M mail () :=
  p ← gets _get_policy;
  primary ← gets (λ s, get_primary_email s u);
  _ ← require_strength password p.1 p.2 r (option_list primary);
  store_password u password p.1 p.2.

Definition _revoke_oauth2_tokens (u : uuid) (reason : string) : M mail () :=
  revoked ← in_tenant (revoke_all_user_tokens u);
  when (bool_decide (0 < revoked)%nat)
    (log_user (Some u) u "oauth2_user_tokens_revoked"
       [("reason", MStr reason); ("tokens_revoked", MNat revoked)]).

Definition change_password (ru : requesting_user) (current_password new_password : string) : M mail () :=
  let u := ru_id ru in
  found ← gets (λ s, get_password_hash s u);
  match found with
  | None => raise (ServiceError ValidationError "no_password")
  | Some "" => raise (ServiceError ValidationError "no_password")
  | Some hash =>
      current ← verify_password hash current_password;
      _ ← raise_if (negb current) (ServiceError ValidationError "invalid_current_password");
      same ← verify_password hash new_password;
      _ ← raise_if same (ServiceError ValidationError "password_same_as_current");
      _ ← check_and_store u (Some (ru_role ru)) new_password;
      log_user (Some u) u "password_changed" []
  end.

Definition force_password_reset (ru : requesting_user) (u : uuid) : M mail () :=
  _ ← require_admin ru;
  _ ← raise_if (bool_decide (ru_id ru = u)) (ServiceError ValidationError "cannot_force_reset_self");
  found ← gets (λ s, get_user_row s u);
  user ← some_or found (ServiceError NotFoundError "user_not_found");
  _ ← raise_if (negb (ur_has_password user)) (ServiceError ValidationError "no_password");
  _ ← raise_if (ur_is_inactivated user) (ServiceError ValidationError "user_inactivated");
  _ ← set_password_reset_required u true;
  _ ← _revoke_oauth2_tokens u "admin_forced";
  log_user (Some (ru_id ru)) u "password_reset_forced"
    [("target_user_name", MStr (ur_first_name user +:+ " " +:+ ur_last_name user))].

Definition complete_forced_password_reset (u : uuid) (new_password : string) : M mail () :=
  found ← gets (λ s, get_user_row s u);
  user ← some_or found (ServiceError ValidationError "user_not_found");
  hash ← gets (λ s, get_password_hash s u);
  same ← match hash with
         | Some h => if decide (h = "") then mret false else verify_password h new_password
         | None => mret false
         end;
  _ ← raise_if same (ServiceError ValidationError "password_same_as_current");
  _ ← check_and_store u (Some (ur_role user)) new_password;
  log_user (Some u) u "password_reset_completed" [].

Definition complete_self_service_password_reset (u : uuid) (new_password : string) : M mail () :=
  found ← gets (λ s, get_user_row s u);
  user ← some_or found (ServiceError ValidationError "user_not_found");
  _ ← check_and_store u (Some (ur_role user)) new_password;
  _ ← _revoke_oauth2_tokens u "self_service_reset";
  log_user (Some u) u "password_self_reset_completed" [].

(** ** Recovery links *)

Definition bool_text (b : bool) : string := if b then "True" else "False".
Definition changed_at_text (t : option Z) : string := from_option datetime_text "none" t.
Definition recovery_state (changed_at : option Z) (is_inactivated : bool) : string :=
  changed_at_text changed_at +:+ ":" +:+ bool_text is_inactivated.

(** [int(time.time())]. *)
Definition unix_time s : Z := ma_clock s / 1000000.

(** Whether the account gets a link at all. *)
Definition recoverable (user : reset_row) : bool :=
  rr_is_inactivated user ||
  (bool_decide (rr_saml_idp_id user = None) && rr_has_password user).

(** The address and the link that are mailed, if any. *)
Definition request_password_reset (email base_url : string) (client_ip : option string) :
    M mail (option (string * string)) :=
  let email := lower_string (py_strip email) in
  found ← gets (λ s, get_user_by_email_for_reset s email);
  match found with
  | None => mret None
  | Some user =>
      if recoverable user then
        now ← gets unix_time;
        let u := rr_user_id user in
        let token := generate_url_token token_key now (uuid_text u) PURPOSE_ACCOUNT_RECOVERY
                       (Some (recovery_state (rr_password_changed_at user) (rr_is_inactivated user))) in
        _ ← log_user (Some u) u "account_recovery_requested"
              [("email", MStr email); ("ip", from_option MStr MNull client_ip);
               ("is_inactivated", MBool (rr_is_inactivated user))];
        mret (Some (email, rstrip_slash base_url +:+ "/account-recovery/" +:+ token))
      else mret None
  end.

Record token_result := mk_token_result {
  tr_user : uuid;
  tr_is_inactivated : bool;
  tr_has_password : bool;
  tr_role : role;
  tr_minimum_password_length : Z;
  tr_minimum_zxcvbn_score : Z;
}.
Definition _RESET_TTL : Z := 1800.
Definition _RECOVERY_TTL : Z := 1800.

(** What the two validations share: the user of the token, the signature over
    the user's state, and the policy the form shows. *)
Definition validate_token (token purpose : string) (ttl : Z) (state : user_row → string) :
    M mail (option token_result) :=
  match extract_user_id_from_url_token token with
  | None => mret None
  | Some id =>
      if decide (id = "") then mret None
      else
        u ← parse_id id;
        found ← gets (λ s, get_user_row s u);
        match found with
        | None => mret None
        | Some user =>
            now ← gets unix_time;
            verified ← lift (verify_url_token token_key now token purpose ttl (Some (state user)));
            match verified with
            | None => mret None
            | Some _ =>
                p ← gets _get_policy;
                let min_length := if decide (ur_role user = super_admin) then Z.max p.1 20 else p.1 in
                mret (Some (mk_token_result u (ur_is_inactivated user) (ur_has_password user)
                              (ur_role user) min_length p.2))
            end
        end
  end.
Definition validate_reset_token (token : string) : M mail (option token_result) :=
  validate_token token PURPOSE_PASSWORD_RESET _RESET_TTL
    (λ user, from_option datetime_text "" (row_password_changed_at user)).
Definition validate_recovery_token (token : string) : M mail (option token_result) :=
  validate_token token PURPOSE_ACCOUNT_RECOVERY _RECOVERY_TTL
    (λ user, recovery_state (row_password_changed_at user) (ur_is_inactivated user)).

(** ** routers/auth/password_reset.py *)

Definition invalid_link : reply := redirect "/forgot-password?error=invalid_or_expired".

Definition _render_reset_form_with_error (token : string) (result : token_result) (error : string)
    (recovery_mode : bool) : reply :=
  reset_form token (tr_minimum_password_length result) (tr_minimum_zxcvbn_score result) (Some error)
    recovery_mode.

(** [try: complete_self_service_password_reset(..) except ValidationError]. *)
Definition submit_new_password (token : string) (result : token_result) (new_password : string)
    (recovery_mode : bool) : M mail reply := λ s,
  match complete_self_service_password_reset (tr_user result) new_password s with
  | (Ok _, s') => (Ok (redirect "/login?success=password_reset"), s')
  | (Raise (ServiceError ValidationError code), s') =>
      (Ok (_render_reset_form_with_error token result code recovery_mode), s')
  | (Raise e, s') => (Raise e, s')
  end.

Definition reset_password_page (token : string) : M mail reply :=
  result ← validate_reset_token token;
  mret match result with
       | None => invalid_link
       | Some r => reset_form token (tr_minimum_password_length r) (tr_minimum_zxcvbn_score r) None false
       end.
Definition reset_password_submit (token new_password new_password_confirm : string) : M mail reply :=
  if negb (fits [(255, new_password); (255, new_password_confirm)]) then mret unprocessable else
  result ← validate_reset_token token;
  match result with
  | None => mret invalid_link
  | Some r =>
      if decide (new_password ≠ new_password_confirm) then
        mret (_render_reset_form_with_error token r "passwords_dont_match" false)
      else submit_new_password token r new_password false
  end.
Definition account_recovery_page (token : string) : M mail reply :=
  result ← validate_recovery_token token;
  mret match result with
       | None => invalid_link
       | Some r =>
           if tr_is_inactivated r then inactivated_page (tr_user r) (tr_role r)
           else reset_form token (tr_minimum_password_length r) (tr_minimum_zxcvbn_score r) None true
       end.
Definition account_recovery_submit (token new_password new_password_confirm : string) : M mail reply :=
  if negb (fits [(255, new_password); (255, new_password_confirm)]) then mret unprocessable else
  result ← validate_recovery_token token;
  match result with
  | None => mret invalid_link
  | Some r =>
      if tr_is_inactivated r then mret invalid_link
      else if decide (new_password ≠ new_password_confirm) then
        mret (_render_reset_form_with_error token r "passwords_dont_match" true)
      else submit_new_password token r new_password true
  end.

(** ** routers/auth/onboarding.py *)

Definition set_password_url (email_id nonce : string) : string :=
  "/set-password?email_id=" +:+ email_id +:+ "&nonce=" +:+ nonce.

(** Where a verified address leads a user: [user.get("password_hash")] reads
    the row of [get_user_by_id]. *)
Definition after_verification s (email : email_row) (email_id done : string) : reply :=
  match get_user_row s (em_user email) with
  | Some user =>
      if decide (row_password_hash user = None) then
        match ur_saml_idp_id user with
        | Some _ => redirect "/login?success=email_verified_idp"
        | None => safe_redirect (set_password_url email_id (em_set_password_nonce email))
        end
      else redirect done
  | None => redirect done
  end.

Definition verify_email_public (email_id nonce : string) : M mail reply :=
  i ← parse_id email_id;
  found ← gets (λ s, get_email_for_verification s i);
  match found with
  | None => mret (redirect "/login?error=verification_failed")
  | Some email =>
      if decide (is_Some (em_verified_at email)) then
        gets (λ s, after_verification s email email_id "/login?success=already_verified")
      else if decide (em_verify_nonce email ≠ nonce) then
        mret (redirect "/login?error=invalid_verification_link")
      else
        _ ← verify_email_by_nonce i nonce;
        gets (λ s, after_verification s email email_id "/login?success=email_verified")
  end.

(** What the page and the form of a set-password link check first. *)
Definition open_set_password s (email : option email_row) (nonce : string) :
    reply + (email_row * user_row) :=
  match email with
  | None => inl (redirect "/login?error=invalid_link")
  | Some email =>
      if decide (em_verified_at email = None) then inl (redirect "/login?error=email_not_verified")
      else if decide (em_set_password_nonce email ≠ nonce) then inl (redirect "/login?error=invalid_link")
      else
        match get_user_row s (em_user email) with
        | None => inl (redirect "/login")
        | Some user =>
            if decide (is_Some (row_password_hash user)) then inl (redirect "/login")
            else
              match ur_saml_idp_id user with
              | Some _ => inl (redirect "/login?success=email_verified_idp")
              | None => inr (email, user)
              end
        end
  end.

Definition set_password_page (email_id nonce : option string) : M mail reply :=
  match email_id, nonce with
  | Some email_id, Some nonce =>
      if decide (email_id = "" ∨ nonce = "") then mret (redirect "/login")
      else
        i ← parse_id email_id;
        opened ← gets (λ s, open_set_password s (get_email_for_verification s i) nonce);
        match opened with
        | inl r => mret r
        | inr (email, user) =>
            p ← gets _get_policy;
            mret (set_password_form (em_email email) email_id nonce
                    (effective_length p.1 (Some (ur_role user))) p.2)
        end
  | _, _ => mret (redirect "/login")
  end.

Definition set_password_error (email_id nonce error : string) : reply :=
  safe_redirect (set_password_url email_id nonce +:+ "&error=" +:+ error).

(** The new password, and the second factor that follows. *)
Definition finish_set_password (i : uuid) (password : string) (p : Z * Z) (email : email_row)
    (user : user_row) : M mail reply :=
  let u := em_user email in
  _ ← store_password u password p.1 p.2;
  _ ← regenerate_set_password_nonce i;
  _ ← log_user (Some u) u "password_set" [];
  if decide (ur_mfa_method user = Some "email") then
    s ← gets id;
    mret (mfa_pending u (ur_mfa_method user)
      (to ← get_primary_email s u;
       Some (to, generate_code token_key (unix_time s) (uuid_text u) PURPOSE_MFA_EMAIL 300 None)))
  else mret (mfa_pending u (ur_mfa_method user) None).

Definition set_password (email_id nonce password password_confirm : string) : M mail reply :=
  if negb (fits [(50, email_id); (100, nonce); (255, password); (255, password_confirm)]) then mret unprocessable else
  i ← parse_id email_id;
  opened ← gets (λ s, open_set_password s (get_email_for_verification s i) nonce);
  match opened with
  | inl r => mret r
  | inr (email, user) =>
      if decide (password ≠ password_confirm) then
        mret (set_password_error email_id nonce "passwords_dont_match")
      else
        p ← gets _get_policy;
        now ← gets ma_clock;
        issues ← lift (validate_password now password p.1 p.2 (Some (ur_role user)) [em_email email]);
        match issues with
        | i :: _ => mret (set_password_error email_id nonce (issue_code i))
        | [] => finish_set_password i password p email user
        end
  end.

(** ** jobs/check_hibp_breaches.py *)

Definition prefix_cache := gmap string (list string).

(** One user of [_process_tenant]; whether the password was found. *)
Definition check_user (cache : prefix_cache) (x : uuid * string * string) : M mail (bool * prefix_cache) :=
  let '(u, prefix, stored_hmac) := x in
  now ← gets ma_clock;
  let suffixes := default (_fetch_hibp_suffixes now prefix) (cache !! prefix) in
  let cache := <[prefix := suffixes]> cache in
  found ← lift (check_hibp_suffix_against_hmac prefix stored_hmac hibp_key suffixes);
  if (found : bool) then
    _ ← set_password_reset_required u true;
    _ ← clear_hibp_data u;
    revoked ← in_tenant (revoke_all_user_tokens u);
    _ ← when (bool_decide (0 < revoked)%nat)
          (log_user None u "oauth2_user_tokens_revoked"
             [("reason", MStr "hibp_breach"); ("tokens_revoked", MNat revoked)]);
    _ ← log_user None u "password_breach_detected" [];
    mret (true, cache)
  else mret (false, cache).
Fixpoint check_users (cache : prefix_cache) (us : list (uuid * string * string)) :
    M mail (list uuid * prefix_cache) :=
  match us with
  | [] => mret ([], cache)
  | x :: us =>
      r ← check_user cache x;
      rest ← check_users r.2 us;
      mret ((if (r.1 : bool) then [x.1.1] else []) ++ rest.1, rest.2)
  end.

(** The users whose password was found, and the admins who are told. *)
Definition _notify_admins s : list string := get_admin_emails s.
Definition _process_tenant (cache : prefix_cache) : M mail (list uuid * list string * prefix_cache) :=
  us ← gets get_users_with_hibp_prefix;
  r ← check_users cache us;
  match r.1 with
  | [] => mret ([], [], r.2)
  | _ => admins ← gets _notify_admins; mret (r.1, admins, r.2)
  end.

(** A tenant's pass of [check_hibp_breaches]: a failure is logged; what was
    committed before it stays. *)
Definition check_hibp_breaches (cache : prefix_cache) : M mail (option (list uuid * list string)) := λ s,
  match _process_tenant cache s with
  | (Ok (us, admins, _), s') => (Ok (Some (us, admins)), s')
  | (Raise _, s') => (Ok None, s')
  end.
End credentials.
