(* ===== verification/SecuritySettings.v ===== *)
(** * Tenant security settings

    app/services/settings/security.py over the row of
    tenant_security_settings of MailDb: the merge of a partial update, the
    audit events, and the enforcement of a tightened password policy on the
    accounts and their tokens. *)

From stdpp Require Import gmap strings pretty.
From S2P Require Import Prelude GroupDb GroupService OAuthDb OAuthService UserLifecycle MailDb MailService Credentials.
#[local] Open Scope Z_scope.

(** The fields of a request; [None] is a field that is absent or null. *)
Record settings_update := mk_settings_update {
  su_session_timeout_seconds : option Z;
  su_persistent_sessions : option bool;
  su_allow_users_edit_profile : option bool;
  su_inactivity_threshold_days : option Z;
  su_max_certificate_lifetime_years : option Z;
  su_certificate_rotation_window_days : option Z;
  su_minimum_password_length : option Z;
  su_minimum_zxcvbn_score : option Z;
  su_group_assertion_scope : option string;
  su_require_email_verification_for_login : option bool;
  su_required_auth_strength : option string;
}.

(** The defaults of [_SETTINGS_FIELDS], which are those of the readers too. *)
Definition settings_defaults : security_row :=
  mk_security None true true None 10 90 14 3 "access_relevant" false "baseline".
Definition current_settings (row : option security_row) : security_row := default settings_defaults row.

Definition or_else {A} (x y : option A) : option A := match x with Some _ => x | None => y end.

Definition _merge_security_update (row : option security_row) (u : settings_update) : security_row :=
  let c := current_settings row in
  mk_security
    (or_else (su_session_timeout_seconds u) (session_timeout_seconds c))
    (default (persistent_sessions c) (su_persistent_sessions u))
    (default (allow_users_edit_profile c) (su_allow_users_edit_profile u))
    (or_else (su_inactivity_threshold_days u) (inactivity_threshold_days c))
    (default (max_certificate_lifetime_years c) (su_max_certificate_lifetime_years u))
    (default (certificate_rotation_window_days c) (su_certificate_rotation_window_days u))
    (default (minimum_password_length c) (su_minimum_password_length u))
    (default (minimum_zxcvbn_score c) (su_minimum_zxcvbn_score u))
    (default (group_assertion_scope c) (su_group_assertion_scope u))
    (default (require_email_verification_for_login c) (su_require_email_verification_for_login u))
    (default (required_auth_strength c) (su_required_auth_strength u)).

(** A field that was sent and differs; values are logged as text. *)
Definition change {A} `{EqDecision A} (show : A → option string) (name : string) (sent : bool)
    (old new : A) : list (string * option string * option string) :=
  if sent && bool_decide (old ≠ new) then [(name, show old, show new)] else [].
Definition show_int (z : Z) : option string := Some (pretty z).
Definition show_bool (b : bool) : option string := Some (bool_text b).
Definition show_opt (z : option Z) : option string := pretty <$> z.
Definition sent {A} (x : option A) : bool := bool_decide (is_Some x).

Definition _build_changes_metadata (row : option security_row) (u : settings_update)
    (resolved : security_row) : list (string * option string * option string) :=
  let c := current_settings row in
  let r := resolved in
  change show_opt "session_timeout_seconds" (sent (su_session_timeout_seconds u))
    (session_timeout_seconds c) (session_timeout_seconds r) ++
  change show_bool "persistent_sessions" (sent (su_persistent_sessions u))
    (persistent_sessions c) (persistent_sessions r) ++
  change show_bool "allow_users_edit_profile" (sent (su_allow_users_edit_profile u))
    (allow_users_edit_profile c) (allow_users_edit_profile r) ++
  change show_opt "inactivity_threshold_days" (sent (su_inactivity_threshold_days u))
    (inactivity_threshold_days c) (inactivity_threshold_days r) ++
  change show_int "max_certificate_lifetime_years" (sent (su_max_certificate_lifetime_years u))
    (max_certificate_lifetime_years c) (max_certificate_lifetime_years r) ++
  change show_int "certificate_rotation_window_days" (sent (su_certificate_rotation_window_days u))
    (certificate_rotation_window_days c) (certificate_rotation_window_days r) ++
  change show_int "minimum_password_length" (sent (su_minimum_password_length u))
    (minimum_password_length c) (minimum_password_length r) ++
  change show_int "minimum_zxcvbn_score" (sent (su_minimum_zxcvbn_score u))
    (minimum_zxcvbn_score c) (minimum_zxcvbn_score r) ++
  change Some "group_assertion_scope" (sent (su_group_assertion_scope u))
    (group_assertion_scope c) (group_assertion_scope r) ++
  change show_bool "require_email_verification_for_login" (sent (su_require_email_verification_for_login u))
    (require_email_verification_for_login c) (require_email_verification_for_login r) ++
  change Some "required_auth_strength" (sent (su_required_auth_strength u))
    (required_auth_strength c) (required_auth_strength r).

(** The check constraints of the table. *)
Definition settings_ok (r : security_row) : bool :=
  bool_decide (default 1 (session_timeout_seconds r) > 0) &&
  bool_decide (default 1 (inactivity_threshold_days r) > 0) &&
  bool_decide (max_certificate_lifetime_years r ∈ [1; 2; 3; 5; 10]) &&
  bool_decide (certificate_rotation_window_days r ∈ [14; 30; 60; 90]) &&
  bool_decide (minimum_password_length r ∈ [8; 10; 12; 14; 16; 18; 20]) &&
  bool_decide (minimum_zxcvbn_score r ∈ [3; 4]) &&
  bool_decide (group_assertion_scope r ∈ ["all"; "trunk"; "access_relevant"]) &&
  bool_decide (required_auth_strength r ∈ ["baseline"; "enhanced"]).

Section settings.
Context (tenant_id : uuid).
Implicit Types s : mail.

(** database/security.py: [insert .. on conflict (tenant_id) do update]. *)
Definition db_update_security_settings (r : security_row) : M mail nat :=
  _ ← raise_if (negb (settings_ok r)) (IntegrityError "tenant_security_settings_check");
  _ ← modify (set_security (λ _, Some r)); mret 1%nat.

Definition get_security_settings (ru : requesting_user) : M mail security_row :=
  _ ← require_super_admin ru;
  _ ← in_groups (track_activity (ru_id ru));
  gets (λ s, current_settings (ma_security s)).

(** The readers without authorization. *)
Definition get_session_settings s : option (option Z * bool) :=
  (λ r, (session_timeout_seconds r, persistent_sessions r)) <$> ma_security s.
Definition can_user_edit_profile s : bool := allow_users_edit_profile (current_settings (ma_security s)).
Definition get_inactivity_threshold s : option Z := r ← ma_security s; inactivity_threshold_days r.
Definition get_certificate_lifetime s : Z := max_certificate_lifetime_years (current_settings (ma_security s)).
Definition get_certificate_rotation_window s : Z :=
  certificate_rotation_window_days (current_settings (ma_security s)).
Definition get_password_policy s : Z * Z :=
  let c := current_settings (ma_security s) in (minimum_password_length c, minimum_zxcvbn_score c).
Definition get_group_assertion_scope s : string := group_assertion_scope (current_settings (ma_security s)).
Definition get_required_auth_strength s : string := required_auth_strength (current_settings (ma_security s)).
Definition requires_email_verification_for_login s : bool :=
  require_email_verification_for_login (current_settings (ma_security s)).

Definition log_settings (ru : requesting_user) (event : string) (md : list (string * meta)) : M mail () :=
  in_groups (log_event (Some (ru_id ru)) "tenant_settings" tenant_id event md).
Definition MInt (z : Z) : meta := MStr (pretty z).

Definition _enforce_password_policy_compliance (ru : requesting_user) (new_min_length new_min_score : Z) :
    M mail nat :=
  us ← gets (λ s, get_users_with_weak_policy s new_min_length new_min_score);
  match us with
  | [] => mret 0%nat
  | _ =>
      _ ← bulk_set_password_reset_required us;
      _ ← for_each (λ u, _ ← in_tenant (revoke_all_user_tokens u); mret ()) us;
      _ ← log_settings ru "password_policy_compliance_enforced"
            [("affected_users", MNat (length us));
             ("new_minimum_password_length", MInt new_min_length);
             ("new_minimum_zxcvbn_score", MInt new_min_score)];
      mret (length us)
  end.

(** The events of one field: sent and different. *)
Definition when_changed {A} `{EqDecision A} (sent : bool) (old new : A) (m : M mail ()) : M mail () :=
  when (sent && bool_decide (old ≠ new)) m.

Definition password_policy_step (ru : requesting_user) (c : security_row) (u : settings_update)
    (r : security_row) : M mail () :=
  when ((sent (su_minimum_password_length u) && bool_decide (minimum_password_length c ≠ minimum_password_length r))
        || (sent (su_minimum_zxcvbn_score u) && bool_decide (minimum_zxcvbn_score c ≠ minimum_zxcvbn_score r)))
    (_ ← log_settings ru "password_policy_updated"
           [("minimum_password_length", MInt (minimum_password_length r));
            ("minimum_zxcvbn_score", MInt (minimum_zxcvbn_score r))];
     when (bool_decide (minimum_password_length c < minimum_password_length r) ||
           bool_decide (minimum_zxcvbn_score c < minimum_zxcvbn_score r))
       (_ ← _enforce_password_policy_compliance ru (minimum_password_length r) (minimum_zxcvbn_score r);
        mret ())).

Definition update_security_settings (ru : requesting_user) (u : settings_update) : M mail security_row :=
  _ ← require_super_admin ru;
  _ ← raise_if (match su_session_timeout_seconds u with Some t => t <=? 0 | None => false end)
        (ServiceError ValidationError "invalid_timeout");
  row ← gets ma_security;
  let c := current_settings row in
  let r := _merge_security_update row u in
  let changes := _build_changes_metadata row u r in
  _ ← db_update_security_settings r;
  _ ← when (bool_decide (changes ≠ []))
        (log_settings ru "tenant_settings_updated" [("changes", MChanges changes)]);
  _ ← when_changed (sent (su_max_certificate_lifetime_years u))
        (max_certificate_lifetime_years c) (max_certificate_lifetime_years r)
        (log_settings ru "tenant_certificate_lifetime_updated"
           [("old_years", MInt (max_certificate_lifetime_years c));
            ("new_years", MInt (max_certificate_lifetime_years r))]);
  _ ← when_changed (sent (su_certificate_rotation_window_days u))
        (certificate_rotation_window_days c) (certificate_rotation_window_days r)
        (log_settings ru "tenant_certificate_rotation_window_updated"
           [("old_days", MInt (certificate_rotation_window_days c));
            ("new_days", MInt (certificate_rotation_window_days r))]);
  _ ← password_policy_step ru c u r;
  _ ← when_changed (sent (su_required_auth_strength u))
        (required_auth_strength c) (required_auth_strength r)
        (log_settings ru "tenant_auth_policy_updated"
           [("old_policy", MStr (required_auth_strength c));
            ("new_policy", MStr (required_auth_strength r))]);
  _ ← when_changed (sent (su_group_assertion_scope u))
        (group_assertion_scope c) (group_assertion_scope r)
        (log_settings ru "group_assertion_scope_updated"
           [("old_scope", MStr (group_assertion_scope c)); ("new_scope", MStr (group_assertion_scope r))]);
  mret r.
End settings.
