(* ===== verification/Jobs.v ===== *)
(** * Bulk and idle-account jobs

    app/jobs: bulk_inactivate_users.py, bulk_reactivate_users.py,
    bulk_group_assignment.py and inactivate_idle_users.py.  Every item is
    tried by itself; an exception is the item's error and what the item
    committed stays.  The totals are counts over the items. *)

From stdpp Require Import gmap strings.
From S2P Require Import Prelude GroupDb GroupService OAuthDb OAuthService UserLifecycle MailDb MailService.
#[local] Open Scope Z_scope.

Inductive job_status := job_done | job_skipped | job_error.
#[export] Instance job_status_eq_dec : EqDecision job_status.
Proof. solve_decision. Defined.
Record job_detail := mk_detail {
  jd_user : string;
  jd_name : string;
  jd_status : job_status;
  jd_reason : string;
}.
Definition count_status (st : job_status) (l : list job_detail) : nat :=
  length (filter (λ d, jd_status d = st) l).

Section jobs.
Context `{UuidText} `{UuidParse} (issuer : string).
Implicit Types s : mail.

Definition unknown (u : string) (st : job_status) (reason : string) : job_detail :=
  mk_detail u "Unknown" st reason.
Definition full_name (r : user_row) : string := ur_first_name r +:+ " " +:+ ur_last_name r.

(** [try: .. except Exception: errors += 1]. *)
Definition try_item (m : string → M mail job_detail) (u : string) : M mail job_detail := λ s,
  match m u s with
  | (Ok d, s') => (Ok d, s')
  | (Raise _, s') => (Ok (unknown u job_error "Unexpected error"), s')
  end.

(** What all three ways of inactivating an account run. *)
Definition inactivate_account (u : uuid) : M mail () :=
  in_tenant (_ ← inactivate_user_row u; cut_access issuer u).

Definition bulk_inactivate_item (created_by : uuid) (user_id : string) : M mail job_detail :=
  u ← parse_id user_id;
  found ← gets (λ s, get_user_row s u);
  match found with
  | None => mret (unknown user_id job_error "User not found")
  | Some user =>
      s ← gets id;
      let skip reason := mret (mk_detail user_id (full_name user) job_skipped reason) in
      if decide (user_id = uuid_text created_by) then skip "Cannot deactivate yourself"
      else if ur_is_inactivated user then skip "Already deactivated"
      else if is_service_user (ma_tenant s) u then skip "Service user"
      else if bool_decide (ur_role user = super_admin) &&
              bool_decide (count_active_super_admins (ma_tenant s) <= 1)%nat
      then skip "Last super admin"
      else
        _ ← inactivate_account u;
        _ ← log_user (Some created_by) u "user_inactivated" [("bulk_operation", MBool true)];
        mret (mk_detail user_id (full_name user) job_done "Deactivated and tokens revoked")
  end.
Definition handle_bulk_inactivate_users (created_by : uuid) (us : list string) : M mail (list job_detail) :=
  for_map (try_item (bulk_inactivate_item created_by)) us.

(** [clear_reactivation_denied] writes a column outside the state. *)
Definition bulk_reactivate_item (created_by : uuid) (user_id : string) : M mail job_detail :=
  u ← parse_id user_id;
  found ← gets (λ s, get_user_row s u);
  match found with
  | None => mret (unknown user_id job_error "User not found")
  | Some user =>
      if ur_is_anonymized user then mret (mk_detail user_id (full_name user) job_skipped "Anonymized user")
      else if negb (ur_is_inactivated user) then
        mret (mk_detail user_id (full_name user) job_skipped "Not deactivated")
      else
        _ ← in_tenant (reactivate_user_row u);
        _ ← log_user (Some created_by) u "user_reactivated" [("bulk_operation", MBool true)];
        mret (mk_detail user_id (full_name user) job_done "Reactivated")
  end.
Definition handle_bulk_reactivate_users (created_by : uuid) (us : list string) : M mail (list job_detail) :=
  for_map (try_item (bulk_reactivate_item created_by)) us.

Definition bulk_group_item (created_by g : uuid) (group_name : string) (user_id : string) : M mail job_detail :=
  u ← parse_id user_id;
  found ← gets (λ s, get_user_row s u);
  match found with
  | None => mret (unknown user_id job_skipped "User not found")
  | Some user =>
      already ← gets (λ s, is_group_member (ma_dir s) g u);
      if (already : bool) then mret (mk_detail user_id (full_name user) job_skipped "Already a member")
      else
        _ ← in_groups (add_group_member g u);
        _ ← in_groups (log_event (Some created_by) "group_membership" g "group_member_added"
              [("user_id", MId u); ("user_name", MStr (full_name user));
               ("group_name", MStr group_name); ("bulk_operation", MBool true)]);
        mret (mk_detail user_id (full_name user) job_done ("Added to " +:+ group_name))
  end.
Definition handle_bulk_group_assignment (created_by : uuid) (group_id : string) (us : list string) :
    M mail (list job_detail) :=
  g ← parse_id group_id;
  found ← gets (λ s, get_group_by_id (ma_dir s) g);
  match found with
  | None => mret ((λ u, unknown u job_error "Group not found") <$> us)
  | Some group =>
      if decide (g_group_type (gd_row group) = idp) then
        mret ((λ u, unknown u job_error "IdP group (read-only)") <$> us)
      else for_map (try_item (bulk_group_item created_by g (gd_name group))) us
  end.

(** ** jobs/inactivate_idle_users.py

    [last_activity] is the table user_activity; [isoformat] the text of its
    column. *)
Context (last_activity : gmap uuid Z) (isoformat : Z → string).

Definition b2b_service_user (t : tenant) (u : uuid) : bool :=
  bool_decide (map_Exists (λ _ c, cl_service_user_id c = Some u ∧ cl_type c = b2b) (clients t)).
Definition days (n : Z) : Z := n * 86400 * 1000000.
Definition idle s (threshold_days : Z) (kv : uuid * account_row) : bool :=
  negb (us_is_inactivated kv.2) && negb (us_is_anonymized kv.2) &&
  match last_activity !! kv.1 with
  | Some t => t <? ma_clock s - days threshold_days
  | None => true
  end && negb (b2b_service_user (ma_tenant s) kv.1).
Definition get_idle_users_for_tenant s (threshold_days : Z) : list uuid :=
  (filter (λ kv, idle s threshold_days kv = true) (map_to_list (accounts (ma_tenant s)))).*1.

Definition inactivate_idle (threshold_days : Z) (u : uuid) : M mail () :=
  _ ← inactivate_account u;
  log_user None u "user_auto_inactivated"
    [("reason", MStr "inactivity"); ("threshold_days", MNat (Z.to_nat threshold_days));
     ("last_activity_at", from_option MStr MNull (isoformat <$> last_activity !! u))].
(** Whether the account was inactivated; an exception is logged. *)
Definition try_idle (threshold_days : Z) (u : uuid) : M mail (list uuid) := λ s,
  match inactivate_idle threshold_days u s with
  | (Ok _, s') => (Ok [u], s')
  | (Raise _, s') => (Ok [], s')
  end.
Definition idle_process_tenant (threshold_days : Z) : M mail (list uuid) :=
  us ← gets (λ s, get_idle_users_for_tenant s threshold_days);
  done ← for_map (try_idle threshold_days) us;
  mret (concat done).
(** The tenant's part of [inactivate_idle_users]; tenants without a threshold
    are not visited. *)
Definition inactivate_idle_users : M mail (list uuid) :=
  row ← gets ma_security;
  match r ← row; inactivity_threshold_days r with
  | Some d => idle_process_tenant d
  | None => mret []
  end.
End jobs.
