(* ===== verification/MailProofs.v ===== *)
(** * What the mail services keep

    The invariant of the address table: addresses are unique whatever their
    case, a user has at most one primary address, and every nonce in the table
    has been drawn.  Over it: a user who has a primary address keeps one, and
    a nonce that was replaced never opens a link again. *)

From stdpp Require Import gmap strings.
From S2P Require Import Prelude GroupDb GroupService OAuthDb OAuthService UserLifecycle MailDb MailService.
#[local] Open Scope nat_scope.


Lemma raise_if_Ok {S} b e (s : S) x s' : raise_if b e s = (Ok x, s') → b = false ∧ s' = s.
Proof. rewrite run_raise_if. by destruct b; intros [= _ <-]. Qed.

(** Calls of the token and group code change the tenant alone. *)
Section lenses.
Lemma keeps_in_tenant {A} (I : tenant → Prop) (m : M tenant A) :
  keeps I m → keeps (λ s, I (ma_tenant s)) (in_tenant m).
Proof. intros Hm s Hs. unfold in_tenant. specialize (Hm _ Hs). by destruct (m (ma_tenant s)). Qed.
Lemma keeps_in_groups_tenant {A} (I : tenant → Prop) (m : M db A) :
  (∀ t d, I t → I (OAuthDb.set_dir (λ _, d) t)) → keeps (λ s, I (ma_tenant s)) (in_groups m).
Proof. intros Hd s Hs. unfold in_groups. destruct (m (ma_dir s)) as [r d]. by apply Hd. Qed.
Lemma in_tenant_frame {A} (m : M tenant A) s : ∃ r t, in_tenant m s = (r, set_tenant (λ _, t) s).
Proof. unfold in_tenant. destruct (m (ma_tenant s)) as [r t]. by exists r, t. Qed.
Lemma in_groups_frame {A} (m : M db A) s : ∃ r t, in_groups m s = (r, set_tenant t s).
Proof. unfold in_groups. destruct (m (ma_dir s)) as [r d]. by eexists r, _. Qed.
Lemma run_in_groups_log a ty x e md s :
  in_groups (log_event a ty x e md) s =
  (Ok (), set_tenant (OAuthDb.set_dir (λ _, set_events (λ l, l ++ [mk_event a ty x e md]) (ma_dir s))) s).
Proof. done. Qed.
End lenses.

(** ** The invariant *)

Section mailbox.
Context `{MailIds} `{Nonces}.
Implicit Types s : mail.

Definition addresses_unique (E : gmap uuid email_row) : Prop :=
  ∀ i j r q, E !! i = Some r → E !! j = Some q → same_email (em_email r) (em_email q) = true → i = j.
Definition one_primary (E : gmap uuid email_row) : Prop :=
  ∀ i j r q, E !! i = Some r → E !! j = Some q → em_user r = em_user q →
    em_is_primary r = true → em_is_primary q = true → i = j.
Definition drawn (n : nat) (x : string) : Prop := ∃ k, k < n ∧ x = nonce k.
Definition nonces_drawn (E : gmap uuid email_row) (n : nat) : Prop :=
  ∀ i r, E !! i = Some r → drawn n (em_verify_nonce r) ∧ drawn n (em_set_password_nonce r).
Definition has_primary (E : gmap uuid email_row) (u : uuid) : Prop :=
  ∃ i r, E !! i = Some r ∧ em_user r = u ∧ em_is_primary r = true.

(** The invariant, with users [U] who have a primary address and nonces that
    are no longer those of a row: [V] for verification, [P] for passwords. *)
Record mailbox (U : uuid → Prop) (V P : uuid → string → Prop) s : Prop := mk_mailbox {
  mb_unique : addresses_unique (ma_emails s);
  mb_primary : one_primary (ma_emails s);
  mb_drawn : nonces_drawn (ma_emails s) (ma_draws s);
  mb_users : ∀ u, U u → has_primary (ma_emails s) u;
  mb_verify : ∀ i x, V i x → drawn (ma_draws s) x ∧
                (∀ r, ma_emails s !! i = Some r → em_verify_nonce r ≠ x);
  mb_password : ∀ i x, P i x → drawn (ma_draws s) x ∧
                (∀ r, ma_emails s !! i = Some r → em_set_password_nonce r ≠ x);
}.
Definition mail_ok : mail → Prop := mailbox (λ _, False) (λ _ _, False) (λ _ _, False).

Lemma drawn_S n x : drawn n x → drawn (S n) x.
Proof. intros (k & Hk & ->). exists k. split; [lia|done]. Qed.
Lemma drawn_last n : drawn (S n) (nonce n).
Proof. exists n. split; [lia|done]. Qed.
#[local] Hint Resolve drawn_S drawn_last : core.

Lemma same_email_refl x : same_email x x = true.
Proof. by apply bool_decide_eq_true. Qed.

Lemma email_exists_false s x : email_exists s x = false →
  ∀ i r, ma_emails s !! i = Some r → same_email (em_email r) x ≠ true.
Proof.
  unfold email_exists. intros Hx%bool_decide_eq_false i r Hi Hs. apply Hx.
  by exists i, r.
Qed.

Lemma elem_of_user_emails s u i r :
  (i, r) ∈ user_emails s u ↔ ma_emails s !! i = Some r ∧ em_user r = u.
Proof. unfold user_emails. rewrite list_elem_of_filter, elem_of_map_to_list. simpl. tauto. Qed.
Lemma elem_of_list_user_emails s u i r :
  (i, r) ∈ list_user_emails s u ↔ ma_emails s !! i = Some r ∧ em_user r = u.
Proof. unfold list_user_emails. by rewrite merge_sort_Permutation, elem_of_user_emails. Qed.
Lemma primary_row_Some s u i r : primary_row s u = Some (i, r) →
  ma_emails s !! i = Some r ∧ em_user r = u ∧ em_is_primary r = true.
Proof.
  unfold primary_row. intros Hi%head_Some_elem_of.
  rewrite list_elem_of_filter, elem_of_user_emails in Hi. naive_solver.
Qed.
Lemma primary_row_None s u : primary_row s u = None →
  ∀ i r, ma_emails s !! i = Some r → em_user r = u → em_is_primary r ≠ true.
Proof.
  unfold primary_row. intros Hn%head_None i r Hi Hu Hp.
  assert ((i, r) ∈ @nil (uuid * email_row)) as []%not_elem_of_nil.
  rewrite <-Hn, list_elem_of_filter, elem_of_user_emails. done.
Qed.

Section kept.
Context (inj : ∀ j k, nonce j = nonce k → j = k).
Context (U : uuid → Prop) (V P : uuid → string → Prop).
Abbreviation inv := (mailbox U V P).

Lemma fresh_nonce n x : drawn n x → nonce n ≠ x.
Proof. intros (k & Hk & ->) E. apply inj in E. lia. Qed.

(** The invariant sees addresses and draws only. *)
Lemma mailbox_frame s s' : ma_emails s' = ma_emails s → ma_draws s' = ma_draws s → inv s → inv s'.
Proof. intros HE Hd []. split; rewrite ?HE, ?Hd; auto. Qed.
Lemma keeps_mailbox_modify f :
  (∀ s, ma_emails (f s) = ma_emails s) → (∀ s, ma_draws (f s) = ma_draws s) →
  keeps inv (modify f).
Proof. intros HE Hd s. exact (mailbox_frame s (f s) (HE s) (Hd s)). Qed.
Lemma keeps_mailbox_update {A} (f : mail → A * mail) :
  (∀ s, ma_emails (f s).2 = ma_emails s) → (∀ s, ma_draws (f s).2 = ma_draws s) →
  keeps inv (update f).
Proof. intros HE Hd s Hs. rewrite run_update. exact (mailbox_frame s _ (HE s) (Hd s) Hs). Qed.
Lemma keeps_mailbox_in_tenant {A} (m : M tenant A) : keeps inv (in_tenant m).
Proof.
  intros s Hs. destruct (in_tenant_frame m s) as (r & t & ->). by apply (mailbox_frame s).
Qed.
Lemma keeps_mailbox_in_groups {A} (m : M db A) : keeps inv (in_groups m).
Proof.
  intros s Hs. destruct (in_groups_frame m s) as (r & t & ->). by apply (mailbox_frame s).
Qed.
Lemma keeps_mailbox_log a u e md : keeps inv (log_user a u e md).
Proof. apply keeps_mailbox_in_groups. Qed.

(** ** Draws and updates of a row *)

Lemma mailbox_draw s : inv s → inv (set_draws S s).
Proof.
  intros []. split; simpl; auto.
  - intros i r Hi. destruct (mb_drawn0 i r Hi). auto.
  - intros i x Hx. destruct (mb_verify0 i x Hx). auto.
  - intros i x Hx. destruct (mb_password0 i x Hx). auto.
Qed.
Lemma keeps_mailbox_draw : keeps inv draw.
Proof. intros s Hs. unfold draw. rewrite run_update. by apply mailbox_draw. Qed.

(** Rewriting a row keeps its user, its address and whether it is primary. *)
Lemma mailbox_rewrite s i r r' :
  inv s → ma_emails s !! i = Some r →
  em_user r' = em_user r → em_email r' = em_email r → em_is_primary r' = em_is_primary r →
  drawn (ma_draws s) (em_verify_nonce r') → drawn (ma_draws s) (em_set_password_nonce r') →
  (∀ x, V i x → em_verify_nonce r' ≠ x) → (∀ x, P i x → em_set_password_nonce r' ≠ x) →
  inv (set_emails (insert i r') s).
Proof.
  intros [Hu Hp Hn HU HV HP] Hi Eu Ee Ep Hv' Hs' HVi HPi.
  assert (∀ j q, <[i := r']> (ma_emails s) !! j = Some q → ∃ q0, ma_emails s !! j = Some q0 ∧
    em_user q = em_user q0 ∧ em_email q = em_email q0 ∧ em_is_primary q = em_is_primary q0) as Hold.
  { intros j q [[-> <-]|[_ Hq]]%lookup_insert_Some; [by exists r|by exists q]. }
  split; simpl.
  - intros j k q q' (q0 & ? & _ & -> & _)%Hold (q1 & ? & _ & -> & _)%Hold. by apply Hu.
  - intros j k q q' (q0 & ? & -> & _ & ->)%Hold (q1 & ? & -> & _ & ->)%Hold. by apply Hp.
  - intros j q [[-> <-]|[_ Hq]]%lookup_insert_Some; [done|by apply (Hn j)].
  - intros u (j & q & Hj & Hq & Hpr)%HU. destruct (decide (j = i)) as [->|Hji].
    + exists i, r'. rewrite lookup_insert_eq. simplify_eq. naive_solver.
    + exists j, q. by rewrite lookup_insert_ne.
  - intros j x HVx. split; [by destruct (HV _ _ HVx)|].
    intros q [[-> <-]|[_ Hq]]%lookup_insert_Some; [by apply HVi|by apply (HV _ _ HVx)].
  - intros j x HPx. split; [by destruct (HP _ _ HPx)|].
    intros q [[-> <-]|[_ Hq]]%lookup_insert_Some; [by apply HPi|by apply (HP _ _ HPx)].
Qed.

(** A row gets a nonce that was just drawn. *)
Lemma mailbox_renonce s i r at_ (verify : bool) : inv s → ma_emails s !! i = Some r →
  inv (set_emails (insert i
         (with_nonces (if verify then nonce (ma_draws s) else em_verify_nonce r)
            (if verify then em_set_password_nonce r else nonce (ma_draws s)) at_ r)) (set_draws S s)).
Proof.
  intros Hs Hi. pose proof (mailbox_draw _ Hs) as Hs'. destruct (mb_drawn _ _ _ _ Hs' i r Hi) as [Hv Hp].
  apply (mailbox_rewrite _ _ r); try done; destruct verify; simpl; auto; intros x Hx.
  - apply fresh_nonce. by apply (mb_verify _ _ _ _ Hs i).
  - by apply (mb_verify _ _ _ _ Hs i).
  - by apply (mb_password _ _ _ _ Hs i).
  - apply fresh_nonce. by apply (mb_password _ _ _ _ Hs i).
Qed.

Lemma keeps_mailbox_verify i : keeps inv (db_verify_email i).
Proof.
  intros s Hs. unfold db_verify_email, draw, update_email. run.
  destruct (ma_emails s !! i) as [r|] eqn:Hi; simpl; [|by apply mailbox_draw].
  by apply (mailbox_renonce _ _ _ _ true).
Qed.
Lemma keeps_mailbox_regenerate_verify i : keeps inv (regenerate_verify_nonce i).
Proof.
  intros s Hs. unfold regenerate_verify_nonce, draw, update_email. run.
  destruct (ma_emails s !! i) as [r|] eqn:Hi; simpl; [|by apply mailbox_draw].
  by apply (mailbox_renonce _ _ _ _ true).
Qed.
Lemma keeps_mailbox_regenerate_password i : keeps inv (regenerate_set_password_nonce i).
Proof.
  intros s Hs. unfold regenerate_set_password_nonce, draw, update_email. run.
  destruct (ma_emails s !! i) as [r|] eqn:Hi; simpl; [|by apply mailbox_draw].
  by apply (mailbox_renonce _ _ _ _ false).
Qed.
(** ** New rows, primaries and deletions *)

Lemma mailbox_insert s i r : inv s → ma_emails s !! i = None →
  (∀ j q, ma_emails s !! j = Some q → same_email (em_email q) (em_email r) ≠ true) →
  (em_is_primary r = true → ∀ j q, ma_emails s !! j = Some q → em_user q = em_user r → em_is_primary q ≠ true) →
  em_verify_nonce r = nonce (ma_draws s) → em_set_password_nonce r = nonce (S (ma_draws s)) →
  inv (set_emails (insert i r) (set_draws S (set_draws S s))).
Proof.
  intros Hs Hi Hx Hp Hv Hn. pose proof (mailbox_draw _ (mailbox_draw _ Hs)) as Hs'.
  split; simpl.
  - assert (∀ q, same_email (em_email r) q = same_email q (em_email r)) as Hsym.
    { intros q. unfold same_email. by apply bool_decide_ext; split. }
    intros j k q q' [[-> <-]|[_ Hq]]%lookup_insert_Some [[-> <-]|[_ Hq']]%lookup_insert_Some E;
      [done|rewrite Hsym in E; by destruct (Hx _ _ Hq')|by destruct (Hx _ _ Hq)|
       by eapply (mb_unique _ _ _ _ Hs)].
  - intros j k q q' [[-> <-]|[_ Hq]]%lookup_insert_Some [[-> <-]|[_ Hq']]%lookup_insert_Some E P1 P2;
      [done|by destruct (Hp P1 _ _ Hq' (eq_sym E))|by destruct (Hp P2 _ _ Hq E)|
       by eapply (mb_primary _ _ _ _ Hs)].
  - intros j q [[-> <-]|[_ Hq]]%lookup_insert_Some; [|by apply (mb_drawn _ _ _ _ Hs' j)].
    rewrite Hv, Hn. split; [apply drawn_S|]; apply drawn_last.
  - intros u (j & q & Hj & Hq)%(mb_users _ _ _ _ Hs). exists j, q.
    rewrite lookup_insert_ne by congruence. done.
  - intros j x Hjx. split; [by apply (mb_verify _ _ _ _ Hs' j)|].
    intros q [[-> <-]|[_ Hq]]%lookup_insert_Some; [|by apply (mb_verify _ _ _ _ Hs j)].
    rewrite Hv. apply fresh_nonce. by apply (mb_verify _ _ _ _ Hs j).
  - intros j x Hjx. split; [by apply (mb_password _ _ _ _ Hs' j)|].
    intros q [[-> <-]|[_ Hq]]%lookup_insert_Some; [|by apply (mb_password _ _ _ _ Hs j)].
    rewrite Hn. apply fresh_nonce, drawn_S. by apply (mb_password _ _ _ _ Hs j).
Qed.

Lemma keeps_mailbox_insert u email prim at_ : keeps inv (insert_email u email prim at_).
Proof.
  intros s Hs. unfold insert_email, draw. run.
  destruct (bool_decide (320 < _)%Z); [done|]. destruct (bool_decide (253 < _)%Z); [done|].
  destruct (email_exists s email) eqn:Hx; [done|].
  destruct (prim && _) eqn:Hp; [done|]. destruct (bool_decide (_ = None)); [done|].
  destruct (bool_decide (is_Some (ma_emails s !! _))) eqn:Hi; [done|]. simpl.
  apply bool_decide_eq_false, eq_None_not_Some in Hi.
  apply mailbox_insert; try done.
  - by apply email_exists_false.
  - simpl. intros ->. simpl in Hp. apply primary_row_None.
    apply bool_decide_eq_false in Hp. by apply eq_None_not_Some.
Qed.

Lemma mailbox_delete s i : inv s →
  (∀ r, ma_emails s !! i = Some r → em_is_primary r = true → ¬ U (em_user r)) →
  inv (set_emails (delete i) s).
Proof.
  intros [Hu Hp Hn HU HV HP] Hi. split; simpl.
  - intros j k q q' [_ Hq]%lookup_delete_Some [_ Hq']%lookup_delete_Some. by apply Hu.
  - intros j k q q' [_ Hq]%lookup_delete_Some [_ Hq']%lookup_delete_Some. by apply Hp.
  - intros j q [_ Hq]%lookup_delete_Some. by apply (Hn j).
  - intros u Hus. destruct (HU _ Hus) as (j & q & Hj & <- & Hq). exists j, q.
    destruct (decide (i = j)) as [->|Hij]; [by destruct (Hi q)|].
    by rewrite lookup_delete_ne.
  - intros j x HVx. split; [by destruct (HV _ _ HVx)|].
    intros q [_ Hq]%lookup_delete_Some. by apply (HV _ _ HVx).
  - intros j x HPx. split; [by destruct (HP _ _ HPx)|].
    intros q [_ Hq]%lookup_delete_Some. by apply (HP _ _ HPx).
Qed.

(** A row becomes primary when the user has no other primary row. *)
Lemma mailbox_set_primary s i r : inv s → ma_emails s !! i = Some r →
  (∀ j q, ma_emails s !! j = Some q → em_user q = em_user r → em_is_primary q = true → j = i) →
  inv (set_emails (insert i (with_primary true r)) s).
Proof.
  intros [Hu Hp Hn HU HV HP] Hi Hone. split; simpl.
  - intros j k q q' [[-> <-]|[_ Hq]]%lookup_insert_Some [[-> <-]|[_ Hq']]%lookup_insert_Some;
      intros E; [done|by apply (Hu j k r q')|by apply (Hu j k q r)|by apply (Hu j k q q')].
  - intros j k q q' [[-> <-]|[_ Hq]]%lookup_insert_Some [[-> <-]|[_ Hq']]%lookup_insert_Some;
      simpl; intros E P1 P2.
    + done.
    + exact (eq_sym (Hone k q' Hq' (eq_sym E) P2)).
    + exact (Hone j q Hq E P1).
    + by apply (Hp j k q q').
  - intros j q [[-> <-]|[_ Hq]]%lookup_insert_Some; [exact (Hn j r Hi)|by apply (Hn j)].
  - intros u (j & q & Hj & Hq & Hpr)%HU. destruct (decide (j = i)) as [->|Hji].
    + exists i, (with_primary true r). rewrite lookup_insert_eq. simplify_eq. naive_solver.
    + exists j, q. by rewrite lookup_insert_ne.
  - intros j x HVx. split; [by destruct (HV _ _ HVx)|].
    intros q [[-> <-]|[_ Hq]]%lookup_insert_Some; [exact (proj2 (HV _ _ HVx) r Hi)|by apply (HV _ _ HVx)].
  - intros j x HPx. split; [by destruct (HP _ _ HPx)|].
    intros q [[-> <-]|[_ Hq]]%lookup_insert_Some; [exact (proj2 (HP _ _ HPx) r Hi)|by apply (HP _ _ HPx)].
Qed.

Lemma keeps_mailbox_db_set_primary i : keeps inv (db_set_primary_email i).
Proof.
  intros s Hs. unfold db_set_primary_email. run.
  destruct (ma_emails s !! i) as [r|] eqn:Hi; [|done]. run.
  destruct (primary_row s (em_user r)) as [[j q]|] eqn:Hrow; simpl.
  - destruct (bool_decide (j ≠ i)) eqn:Hji; [done|]. simpl.
    apply bool_decide_eq_false, dec_stable in Hji as ->.
    apply primary_row_Some in Hrow as (Hj & Hq & Hpr).
    apply mailbox_set_primary; [done..|]. intros k q' Hk Hu Hpk.
    apply (mb_primary _ _ _ _ Hs k i q' q); [done..|by rewrite Hu, Hq|done|done].
  - apply mailbox_set_primary; [done..|]. intros k q' Hk Hu Hpk.
    by destruct (primary_row_None _ _ Hrow k q').
Qed.

(** Unsetting a user's primary row and setting another of theirs. *)
Lemma mailbox_promote s u i r : inv s → ma_emails s !! i = Some r → em_user r = u →
  ∃ s', promote u i s = (Ok (), s') ∧ inv s' ∧
    ma_emails s' = <[i := with_primary true r]>
      ((λ q, if decide (em_user q = u) then with_primary false q else q) <$> ma_emails s).
Proof.
  intros Hs Hi <-. unfold promote, unset_primary_emails, db_set_primary_email. run.
  rewrite lookup_fmap, Hi. simpl. rewrite decide_True by done. run.
  set (s1 := set_emails _ s).
  assert (∀ j q, ma_emails s1 !! j = Some q → ∃ q0, ma_emails s !! j = Some q0 ∧
    q = if decide (em_user q0 = em_user r) then with_primary false q0 else q0) as Hold.
  { intros j q. simpl. rewrite lookup_fmap_Some. naive_solver. }
  assert (∀ j q, ma_emails s1 !! j = Some q → em_user q = em_user r → em_is_primary q ≠ true) as Hnone.
  { intros j q (q0 & _ & ->)%Hold. case_decide; [by intros _ ?|done]. }
  destruct (primary_row s1 (em_user r)) as [[j q]|] eqn:Hrow.
  { apply primary_row_Some in Hrow as (Hj & Hu & Hp). by destruct (Hnone j q). }
  eexists. simpl. split; [reflexivity|]. split; [|done].
  destruct Hs as [HE Hp Hn HU HV HP]. split; simpl.
  - intros j k q q' [[-> <-]|[_ Hq]]%lookup_insert_Some [[-> <-]|[_ Hq']]%lookup_insert_Some; [done|..].
    + apply Hold in Hq' as (q1 & Hq1 & ->). intros E. apply (HE j k r q1); try done. by case_decide.
    + apply Hold in Hq as (q1 & Hq1 & ->). intros E. apply (HE j k q1 r); try done. by case_decide.
    + apply Hold in Hq as (q1 & Hq1 & ->), Hq' as (q2 & Hq2 & ->). intros E.
      apply (HE j k q1 q2); try done. by repeat case_decide.
  - intros j k q q' [[-> <-]|[_ Hq]]%lookup_insert_Some [[-> <-]|[_ Hq']]%lookup_insert_Some; [done|..].
    + intros E _ Hpr. by destruct (Hnone k q' Hq' (eq_sym E)).
    + intros E Hpr. by destruct (Hnone j q Hq E).
    + apply Hold in Hq as (q1 & Hq1 & ->), Hq' as (q2 & Hq2 & ->).
      repeat case_decide; simpl; try done. by apply Hp.
  - intros j q [[-> <-]|[_ (q1 & Hq1 & ->)%Hold]]%lookup_insert_Some; [exact (Hn j r Hi)|].
    case_decide; exact (Hn j q1 Hq1).
  - intros v Hv. destruct (decide (v = em_user r)) as [->|Hvr].
    + exists i, (with_primary true r). by rewrite lookup_insert_eq.
    + destruct (HU _ Hv) as (j & q & Hj & Hq & Hpr). exists j, q.
      rewrite lookup_insert_ne by congruence. rewrite lookup_fmap, Hj. simpl.
      by rewrite decide_False by congruence.
  - intros j x HVx. split; [by destruct (HV _ _ HVx)|].
    intros q [[-> <-]|[_ (q1 & Hq1 & ->)%Hold]]%lookup_insert_Some; [exact (proj2 (HV _ _ HVx) r Hi)|].
    case_decide; exact (proj2 (HV _ _ HVx) q1 Hq1).
  - intros j x HPx. split; [by destruct (HP _ _ HPx)|].
    intros q [[-> <-]|[_ (q1 & Hq1 & ->)%Hold]]%lookup_insert_Some; [exact (proj2 (HP _ _ HPx) r Hi)|].
    case_decide; exact (proj2 (HP _ _ HPx) q1 Hq1).
Qed.
End kept.
End mailbox.
