(* ===== verification/MailHistory.v ===== *)
(** * Histories of the mail and password services

    Every call of the mail, password, settings and job services as one step;
    the invariant of MailProofs over any sequence of them, and what follows
    for primary addresses and for the links that were mailed. *)

From stdpp Require Import gmap strings.
From S2P Require Import Prelude GroupDb GroupService OAuthDb OAuthService UserLifecycle MailDb MailService MailProofs Tokens PasswordStrength Credentials SecuritySettings Jobs.
#[local] Open Scope nat_scope.

Section services.
Context `{MailIds} `{Nonces} `{UuidText} `{UuidParse}.
Context (inj : ∀ j k, nonce j = nonce k → j = k).
Context (U : uuid → Prop) (V P : uuid → string → Prop).
Abbreviation inv := (mailbox U V P).
Implicit Types s : mail.

#[local] Hint Resolve keeps_mailbox_in_tenant keeps_mailbox_in_groups keeps_mailbox_log
  keeps_mailbox_draw keeps_mailbox_verify keeps_mailbox_regenerate_verify
  keeps_mailbox_regenerate_password keeps_mailbox_insert keeps_mailbox_db_set_primary : keeps.
#[local] Hint Extern 4 (keeps (mailbox _ _ _) (modify _)) => apply keeps_mailbox_modify; done : keeps.
#[local] Hint Extern 4 (keeps (mailbox _ _ _) (update _)) => apply keeps_mailbox_update; done : keeps.

Lemma keeps_inv_add r u email b : keeps inv (add_user_email r u email b).
Proof. unfold add_user_email, require_other_user, add_verified_email, add_email. keeps_auto. Qed.

Lemma get_email_by_id_Some s i u e :
  get_email_by_id s i u = Some e → ma_emails s !! i = Some e ∧ em_user e = u.
Proof.
  unfold get_email_by_id. intros (r & Hr & He)%bind_Some. by case_decide; simplify_eq.
Qed.
Lemma keeps_inv_delete r u i : keeps inv (delete_user_email r u i).
Proof.
  intros s Hs. unfold delete_user_email, require_manage, delete_email. run.
  destruct (negb _); [done|]. destruct (get_email_by_id s i u) as [e|] eqn:He; [|done]. run.
  destruct (em_is_primary e) eqn:Hp; [done|]. destruct (bool_decide _); [done|].
  apply keeps_mailbox_log. apply mailbox_delete; [done|]. intros q Hq Hpq.
  apply get_email_by_id_Some in He as [He _]. congruence.
Qed.

Lemma row_of_Some i l e : row_of i l = Some e → e ∈ l ∧ e.1 = i.
Proof.
  unfold row_of, find_email. intros He%head_Some_elem_of.
  apply list_elem_of_filter in He as [Hi He]. by apply bool_decide_eq_true in Hi.
Qed.

Lemma keeps_inv_set_primary r u i : keeps inv (set_primary_email r u i).
Proof.
  intros s Hs. unfold set_primary_email, require_manage. run.
  destruct (negb _); [done|]. destruct (get_email_by_id s i u) as [e|] eqn:He; [|done]. run.
  destruct (bool_decide _); [done|]. destruct (if em_is_primary e then _ else _); [done|].
  apply get_email_by_id_Some in He as [Hi Hu].
  destruct (mailbox_promote U V P s u i e Hs Hi Hu) as (s' & Hr & Hs' & _).
  rewrite run_bind, Hr.
  refine (keeps_bind inv _ _ (keeps_mailbox_log _ _ _ _ _ _ _) _ s' Hs'). intros []. keeps_auto.
Qed.

Lemma keeps_inv_verify i u code : keeps inv (verify_email i u code).
Proof. unfold verify_email. keeps_auto. Qed.

Lemma keeps_inv_join u l : keeps inv (join_linked u l).
Proof. induction l as [|[g name] l IH]; simpl; keeps_auto. Qed.
#[local] Hint Resolve keeps_inv_join : keeps.
Lemma keeps_inv_auto_assign u email actor : keeps inv (auto_assign_user_to_domain_groups u email actor).
Proof. unfold auto_assign_user_to_domain_groups. keeps_auto. Qed.
#[local] Hint Resolve keeps_inv_auto_assign : keeps.
Lemma keeps_inv_verify_by_nonce i code : keeps inv (verify_email_by_nonce i code).
Proof. unfold verify_email_by_nonce. keeps_auto. Qed.
#[local] Hint Resolve keeps_inv_verify_by_nonce : keeps.

Lemma keeps_inv_invite verified u email b :
  keeps inv (if (verified : bool) then add_verified_email_with_nonce u email b
             else add_unverified_email_with_nonce u email b).
Proof.
  unfold add_verified_email_with_nonce, add_unverified_email_with_nonce, add_verified_email, add_email.
  keeps_auto.
Qed.
Lemma keeps_inv_resend r u : keeps inv (resend_invitation r u).
Proof. unfold resend_invitation. keeps_auto. Qed.

Lemma keeps_inv_domains :
  (∀ r d, keeps inv (add_privileged_domain r d)) ∧ (∀ r i, keeps inv (delete_privileged_domain r i)) ∧
  (∀ r i g, keeps inv (add_domain_group_link r i g)) ∧
  (∀ r i l, keeps inv (delete_domain_group_link r i l)).
Proof.
  split_and!; intros; unfold add_privileged_domain, _validate_domain_format, db_add_privileged_domain,
    delete_privileged_domain, db_delete_privileged_domain, add_domain_group_link,
    db_add_domain_group_link, delete_domain_group_link, db_delete_domain_group_link; keeps_auto.
Qed.

Lemma keeps_inv_each {A} (m : A → M mail item_status) x : keeps inv (m x) → keeps inv (each_item m x).
Proof. intros Hm s Hs. unfold each_item. specialize (Hm s Hs). by destruct (m x s) as [[]]. Qed.
Lemma keeps_inv_bulk_add actor l : keeps inv (handle_bulk_add_secondary_emails actor l).
Proof.
  apply keeps_for_map. intros [u email]. apply keeps_inv_each.
  unfold add_secondary_item, add_verified_email, parse_id. keeps_auto.
Qed.

Lemma keeps_inv_login u f : keeps inv (update_login u f).
Proof. apply keeps_mailbox_update; intros s; by destruct (ma_logins s !! u). Qed.
#[local] Hint Resolve keeps_inv_login : keeps.
Lemma keeps_inv_disposition actor u user email d : keeps inv (apply_disposition actor u user email d).
Proof. unfold apply_disposition, update_user_saml_idp, log_idp_change. keeps_auto. Qed.

Lemma keeps_inv_promote_item actor x : keeps inv (promote_item actor x).
Proof.
  destruct x as [[x email] d]. intros s Hs. unfold promote_item, parse_id. run.
  destruct (uuid_of_text x) as [u|]; [|done]. run. destruct (get_user_row s u) as [user|]; [|done]. run.
  destruct (last _) as [[i e]|] eqn:Hl; [|done].
  apply last_Some_elem_of, list_elem_of_filter in Hl as [_ [Hi Hu]%elem_of_list_user_emails].
  destruct (mailbox_promote U V P s u i e Hs Hi Hu) as (s' & Hr & Hs' & _).
  rewrite run_bind, Hr.
  refine (keeps_bind inv _ _ (keeps_mailbox_log _ _ _ _ _ _ _) _ s' Hs').
  intros []. apply keeps_bind; [apply keeps_inv_disposition|]. intros []. apply keeps_ret.
Qed.
Lemma keeps_inv_bulk_promote actor l : keeps inv (handle_bulk_primary_email_apply actor l).
Proof. apply keeps_for_map. intros x. apply keeps_inv_each, keeps_inv_promote_item. Qed.

(** ** Passwords, settings and jobs *)

Lemma keeps_inv_settings tenant_id ru u : keeps inv (update_security_settings tenant_id ru u).
Proof.
  unfold update_security_settings, when_changed, password_policy_step, log_settings,
    db_update_security_settings, _enforce_password_policy_compliance,
    bulk_set_password_reset_required. keeps_auto.
Qed.

Lemma keeps_inv_try_item m u : keeps inv (m u) → keeps inv (try_item m u).
Proof. intros Hm s Hs. unfold try_item. specialize (Hm s Hs). by destruct (m u s) as [[]]. Qed.
Lemma keeps_inv_jobs :
  (∀ issuer a us, keeps inv (handle_bulk_inactivate_users issuer a us)) ∧
  (∀ a us, keeps inv (handle_bulk_reactivate_users a us)) ∧
  (∀ a g us, keeps inv (handle_bulk_group_assignment a g us)).
Proof.
  split_and!; intros.
  - apply keeps_for_map. intros u. apply keeps_inv_try_item.
    unfold bulk_inactivate_item, inactivate_account, parse_id. keeps_auto.
  - apply keeps_for_map. intros u. apply keeps_inv_try_item. unfold bulk_reactivate_item, parse_id. keeps_auto.
  - unfold handle_bulk_group_assignment, parse_id. keeps_auto. apply keeps_inv_try_item.
    unfold bulk_group_item, parse_id. keeps_auto.
Qed.
Lemma keeps_inv_try_idle issuer seen iso d u : keeps inv (try_idle issuer seen iso d u).
Proof.
  assert (keeps inv (inactivate_idle issuer seen iso d u)) as Hk.
  { unfold inactivate_idle, inactivate_account. keeps_auto. }
  intros s Hs. unfold try_idle. specialize (Hk s Hs). by destruct (inactivate_idle _ _ _ _ _ s) as [[]].
Qed.
Lemma keeps_inv_idle issuer seen iso : keeps inv (inactivate_idle_users issuer seen iso).
Proof.
  unfold inactivate_idle_users, idle_process_tenant. keeps_auto. apply keeps_inv_try_idle.
Qed.

Context `{UuidText} `{UuidParse} `{Zxcvbn} `{Hibp} `{Argon2Hash} `{Argon2Verify} `{DatetimeText}.
Context (token_key hibp_key : list Z).

Lemma keeps_inv_store u pw l sc : keeps inv (store_password hibp_key u pw l sc).
Proof. unfold store_password, hash_password, update_password. keeps_auto. Qed.
#[local] Hint Resolve keeps_inv_store : keeps.
Lemma keeps_inv_check_and_store u r pw : keeps inv (check_and_store hibp_key u r pw).
Proof. unfold check_and_store, require_strength. keeps_auto. Qed.
Lemma keeps_inv_revoke u reason : keeps inv (_revoke_oauth2_tokens u reason).
Proof. unfold _revoke_oauth2_tokens. keeps_auto. Qed.
#[local] Hint Resolve keeps_inv_check_and_store keeps_inv_revoke : keeps.
Lemma keeps_inv_self_service u pw : keeps inv (complete_self_service_password_reset hibp_key u pw).
Proof. unfold complete_self_service_password_reset. keeps_auto. Qed.
Lemma keeps_inv_passwords :
  (∀ ru old pw, keeps inv (change_password hibp_key ru old pw)) ∧
  (∀ ru u, keeps inv (force_password_reset ru u)) ∧
  (∀ u pw, keeps inv (complete_forced_password_reset hibp_key u pw)).
Proof.
  split_and!; intros; [unfold change_password, verify_password|
    unfold force_password_reset, set_password_reset_required|
    unfold complete_forced_password_reset, verify_password]; keeps_auto.
Qed.

Lemma keeps_inv_request email url ip : keeps inv (request_password_reset token_key email url ip).
Proof. unfold request_password_reset. keeps_auto. Qed.
Lemma keeps_inv_validate token purpose ttl state :
  keeps inv (validate_token token_key token purpose ttl state).
Proof. unfold validate_token, parse_id. keeps_auto. Qed.
Lemma keeps_inv_submit token r pw b : keeps inv (submit_new_password hibp_key token r pw b).
Proof.
  intros s Hs. unfold submit_new_password. pose proof (keeps_inv_self_service (tr_user r) pw s Hs).
  by destruct (complete_self_service_password_reset _ _ _ s) as [[|[[]| | | |]]].
Qed.
#[local] Hint Resolve keeps_inv_validate keeps_inv_submit : keeps.
Lemma keeps_inv_recovery :
  (∀ token pw pw', keeps inv (reset_password_submit token_key hibp_key token pw pw')) ∧
  (∀ token pw pw', keeps inv (account_recovery_submit token_key hibp_key token pw pw')).
Proof.
  split; intros; [unfold reset_password_submit, validate_reset_token|
    unfold account_recovery_submit, validate_recovery_token]; keeps_auto.
Qed.
Lemma keeps_inv_onboarding :
  (∀ i n, keeps inv (verify_email_public i n)) ∧
  (∀ i n pw pw', keeps inv (set_password token_key hibp_key i n pw pw')).
Proof. split; intros; [unfold verify_email_public, parse_id|unfold set_password, finish_set_password, parse_id]; keeps_auto. Qed.

Lemma keeps_inv_breaches cache : keeps inv (check_hibp_breaches hibp_key cache).
Proof.
  intros s Hs. unfold check_hibp_breaches.
  assert (keeps inv (_process_tenant hibp_key cache)) as Hk.
  { unfold _process_tenant. apply keeps_bind; [apply keeps_gets|]. intros us.
    apply keeps_bind; [|intros; keeps_auto].
    revert cache. induction us as [|[[u prefix] h] us IH]; intros cache; simpl; [apply keeps_ret|].
    unfold check_user, set_password_reset_required, clear_hibp_data. keeps_auto. }
  specialize (Hk s Hs). by destruct (_process_tenant _ _ s) as [[[[] ]|]].
Qed.
End services.

(** ** Nonces that are replaced *)

Section burning.
Context `{MailIds} `{Nonces}.
Context (inj : ∀ j k, nonce j = nonce k → j = k).
Context (U : uuid → Prop) (V P : uuid → string → Prop).
Implicit Types s : mail.

(** Every nonce drawn before is refused at the row from now on. *)
Definition burnt (n : nat) (i j : uuid) (x : string) : Prop := j = i ∧ drawn n x.

Lemma fresh_nonce_drawn n x : drawn n x → nonce n ≠ x.
Proof. intros (k & Hk & ->) E. apply inj in E. lia. Qed.

Lemma burn_verify s i : mailbox U V P s →
  mailbox U (λ j x, V j x ∨ burnt (ma_draws s) i j x) P (db_verify_email i s).2.
Proof.
  intros Hs. pose proof (keeps_mailbox_verify inj U V P i s Hs) as Hs'.
  destruct Hs' as [H1 H2 H3 H4 H5 H6]. split; [done..| |done].
  intros j x [Hx|[-> Hx]]; [by apply H5|].
  revert H5. unfold db_verify_email, draw, update_email. run.
  destruct (ma_emails s !! i) as [r|] eqn:Hi; simpl; intros _.
  - split; [by apply drawn_S|]. intros q. rewrite lookup_insert_eq. intros [= <-]. simpl.
    by apply fresh_nonce_drawn.
  - split; [by apply drawn_S|]. intros q. by rewrite Hi.
Qed.
Lemma burn_password s i : mailbox U V P s →
  mailbox U V (λ j x, P j x ∨ burnt (ma_draws s) i j x) (regenerate_set_password_nonce i s).2.
Proof.
  intros Hs. pose proof (keeps_mailbox_regenerate_password inj U V P i s Hs) as Hs'.
  destruct Hs' as [H1 H2 H3 H4 H5 H6]. split; [done..|].
  intros j x [Hx|[-> Hx]]; [by apply H6|].
  revert H6. unfold regenerate_set_password_nonce, draw, update_email. run.
  destruct (ma_emails s !! i) as [r|] eqn:Hi; simpl; intros _.
  - split; [by apply drawn_S|]. intros q. rewrite lookup_insert_eq. intros [= <-]. simpl.
    by apply fresh_nonce_drawn.
  - split; [by apply drawn_S|]. intros q. by rewrite Hi.
Qed.
End burning.

(** ** Histories *)

Inductive mail_call :=
  | AddEmail (r : requesting_user) (u : uuid) (email : string) (is_admin_action : bool)
  | DeleteEmail (r : requesting_user) (u i : uuid)
  | SetPrimary (r : requesting_user) (u i : uuid)
  | VerifyEmail (i u : uuid) (code : string)
  | Invite (verified : bool) (u : uuid) (email : string) (is_primary : bool)
  | ResendInvitation (r : requesting_user) (u : uuid)
  | AddDomain (r : requesting_user) (domain : string)
  | DeleteDomain (r : requesting_user) (i : uuid)
  | LinkGroup (r : requesting_user) (i g : uuid)
  | UnlinkGroup (r : requesting_user) (i l : uuid)
  | BulkAdd (actor : uuid) (items : list (string * string))
  | BulkPromote (actor : uuid) (items : list (string * string * disposition))
  | BulkInactivate (actor : uuid) (us : list string)
  | BulkReactivate (actor : uuid) (us : list string)
  | BulkAssign (actor : uuid) (g : string) (us : list string)
  | IdleSweep (seen : gmap uuid Z)
  | ChangePassword (r : requesting_user) (current new : string)
  | ForceReset (r : requesting_user) (u : uuid)
  | CompleteForced (u : uuid) (new : string)
  | RequestRecovery (email url : string) (ip : option string)
  | SubmitReset (token new confirm : string)
  | SubmitRecovery (token new confirm : string)
  | VerifyPublic (email_id nonce : string)
  | SetPassword (email_id nonce password confirm : string)
  | BreachSweep (cache : prefix_cache)
  | UpdateSettings (r : requesting_user) (u : settings_update)
  | Elsewhere (f : tenant → tenant).    (* time, and calls of the other services *)

Section histories.
Context `{MailIds} `{Nonces} `{UuidText} `{UuidParse} `{Zxcvbn} `{Hibp} `{Argon2Hash}
  `{Argon2Verify} `{DatetimeText}.
Context (issuer : string) (isoformat : Z → string) (tenant_id : uuid) (token_key hibp_key : list Z).
Implicit Types s : mail.

Definition void {A} (m : M mail A) : M mail () := _ ← m; mret ().
Definition run_call (c : mail_call) : M mail () :=
  match c with
  | AddEmail r u e b => void (add_user_email r u e b)
  | DeleteEmail r u i => delete_user_email r u i
  | SetPrimary r u i => void (set_primary_email r u i)
  | VerifyEmail i u code => void (verify_email i u code)
  | Invite verified u e b =>
      void (if verified then add_verified_email_with_nonce u e b else add_unverified_email_with_nonce u e b)
  | ResendInvitation r u => void (resend_invitation r u)
  | AddDomain r d => void (add_privileged_domain r d)
  | DeleteDomain r i => delete_privileged_domain r i
  | LinkGroup r i g => void (add_domain_group_link r i g)
  | UnlinkGroup r i l => delete_domain_group_link r i l
  | BulkAdd a l => void (handle_bulk_add_secondary_emails a l)
  | BulkPromote a l => void (handle_bulk_primary_email_apply a l)
  | BulkInactivate a l => void (handle_bulk_inactivate_users issuer a l)
  | BulkReactivate a l => void (handle_bulk_reactivate_users a l)
  | BulkAssign a g l => void (handle_bulk_group_assignment a g l)
  | IdleSweep seen => void (inactivate_idle_users issuer seen isoformat)
  | ChangePassword r c n => change_password hibp_key r c n
  | ForceReset r u => force_password_reset r u
  | CompleteForced u n => complete_forced_password_reset hibp_key u n
  | RequestRecovery e url ip => void (request_password_reset token_key e url ip)
  | SubmitReset t n c => void (reset_password_submit token_key hibp_key t n c)
  | SubmitRecovery t n c => void (account_recovery_submit token_key hibp_key t n c)
  | VerifyPublic i n => void (verify_email_public i n)
  | SetPassword i n p c => void (set_password token_key hibp_key i n p c)
  | BreachSweep cache => void (check_hibp_breaches hibp_key cache)
  | UpdateSettings r u => void (update_security_settings tenant_id r u)
  | Elsewhere f => modify (set_tenant f)
  end.
Definition run_mail (cs : list mail_call) s : mail := fold_left (λ s c, (run_call c s).2) cs s.

Context (inj : ∀ j k, nonce j = nonce k → j = k).

Lemma keeps_inv_call U V P c : keeps (mailbox U V P) (run_call c).
Proof.
  destruct (keeps_inv_passwords U V P hibp_key) as (? & ? & ?).
  destruct (keeps_inv_domains U V P) as (? & ? & ? & ?).
  destruct (keeps_inv_jobs U V P) as (? & ? & ?).
  destruct (keeps_inv_recovery U V P token_key hibp_key).
  destruct (keeps_inv_onboarding inj U V P token_key hibp_key).
  assert (∀ A (m : M mail A), keeps (mailbox U V P) m → keeps (mailbox U V P) (void m)) as Hv.
  { intros A m Hm. apply keeps_bind; [done|]. intros. apply keeps_ret. }
  destruct c; simpl; try apply Hv.
  all: first [by apply keeps_inv_add|by apply keeps_inv_delete|by apply keeps_inv_set_primary|
    by apply keeps_inv_verify|by apply keeps_inv_invite|by apply keeps_inv_resend|
    by apply keeps_inv_bulk_add|by apply keeps_inv_bulk_promote|by apply keeps_inv_idle|
    by apply keeps_inv_request|by apply keeps_inv_breaches|by apply keeps_inv_settings|
    by apply keeps_mailbox_modify|idtac].
  all: auto.
Qed.
Lemma mailbox_history U V P cs s : mailbox U V P s → mailbox U V P (run_mail cs s).
Proof.
  unfold run_mail. revert s. induction cs as [|c cs IH]; intros s Hs; [done|].
  simpl. apply IH. by apply keeps_inv_call.
Qed.

Lemma mail_ok_with s U : mail_ok s → (∀ u, U u → has_primary (ma_emails s) u) →
  mailbox U (λ _ _, False) (λ _ _, False) s.
Proof. intros [] HU. by split. Qed.
End histories.

(** ** Links *)

Section links.
Context `{MailIds} `{Nonces}.
Context (inj : ∀ j k, nonce j = nonce k → j = k).
Context (U : uuid → Prop) (V P : uuid → string → Prop).
Implicit Types s : mail.

Lemma run_verify_by_nonce i n s :
  verify_email_by_nonce i n s =
  match ma_emails s !! i with
  | Some r =>
      if decide (em_verify_nonce r = n) then
        (_ ← db_verify_email i;
         _ ← log_user (Some (em_user r)) (em_user r) "email_verified"
               [("email_id", MId i); ("email", MStr (em_email r)); ("flow", MStr "public_link")];
         _ ← auto_assign_user_to_domain_groups (em_user r) (em_email r) (Some (em_user r));
         mret true) s
      else (Ok false, s)
  | None => (Ok false, s)
  end.
Proof.
  unfold verify_email_by_nonce, get_email_for_verification. rewrite run_gets_bind.
  destruct (ma_emails s !! i); [|done]. by destruct (decide (_ = n)); destruct (decide (_ ≠ n)).
Qed.

Lemma verify_by_nonce_burns s i n s1 : mailbox U V P s → verify_email_by_nonce i n s = (Ok true, s1) →
  drawn (ma_draws s) n ∧ mailbox U (λ j x, V j x ∨ burnt (ma_draws s) i j x) P s1.
Proof.
  intros Hs. rewrite run_verify_by_nonce. destruct (ma_emails s !! i) as [r|] eqn:Hi; [|done].
  case_decide as Hn; [subst n|done]. intros Hrun. split; [by apply (mb_drawn _ _ _ _ Hs i)|].
  pose proof (burn_verify inj _ _ _ s i Hs) as Hb. rewrite run_bind in Hrun.
  destruct (db_verify_email i s) as [[k|e] s2]; [|done]. simpl in Hb.
  match type of Hrun with ?m s2 = _ => assert (keeps (mailbox U
    (λ j x, V j x ∨ burnt (ma_draws s) i j x) P) m) as Hk end.
  { apply keeps_bind; [apply keeps_mailbox_log|intros _].
    apply keeps_bind; [apply keeps_inv_auto_assign|intros _; apply keeps_ret]. }
  specialize (Hk s2 Hb). by rewrite Hrun in Hk.
Qed.

Lemma run_update_login u f s :
  ∃ n, update_login u f s = (Ok n, set_logins (alter f u) s).
Proof.
  unfold update_login. rewrite run_update. destruct (ma_logins s !! u) as [l|] eqn:Hl; simpl.
  - exists 1. unfold set_logins. do 3 f_equal. apply map_eq. intros v.
    destruct (decide (u = v)) as [<-|Hv].
    + by rewrite lookup_insert_eq, lookup_alter_eq, Hl.
    + by rewrite lookup_insert_ne, lookup_alter_ne.
  - exists 0. f_equal. destruct s. unfold set_logins. simpl in *. f_equal. apply map_eq. intros v.
    destruct (decide (u = v)) as [<-|Hv]; [by rewrite lookup_alter_eq, Hl|by rewrite lookup_alter_ne].
Qed.

Context `{UuidText} `{UuidParse} `{Zxcvbn} `{Hibp} `{Argon2Hash}.
Context (token_key hibp_key : list Z).

(** The row that a new password leaves. *)
Definition new_credentials (s : mail) (pw : string) (p : Z * Z) : login_row → login_row :=
  with_credentials (Some (argon2_hash (nonce (ma_draws s)) pw)) (Some (ma_clock s)) false
    (Some (sha1_prefix pw)) (Some (check_hmac hibp_key (sha1_hex pw))) (Some p).
Lemma run_store_password u pw l sc s :
  store_password hibp_key u pw l sc s =
  (Ok (), set_logins (alter (new_credentials s pw (l, sc)) u) (set_draws S s)).
Proof.
  unfold store_password, hash_password, draw, update_password. run. rewrite run_bind.
  change (with_credentials _ _ _ _ _ _) with (new_credentials s pw (l, sc)).
  by destruct (run_update_login u (new_credentials s pw (l, sc)) (set_draws S s)) as [n ->].
Qed.

Lemma finish_burns s i n pw p email user r s1 :
  mailbox U V P s → drawn (ma_draws s) n →
  finish_set_password token_key hibp_key i pw p email user s = (Ok r, s1) →
  mailbox U V (λ j x, P j x ∨ burnt (S (ma_draws s)) i j x) s1.
Proof.
  intros Hs Hn. unfold finish_set_password. rewrite run_bind, run_store_password.
  set (s2 := set_logins _ _).
  assert (mailbox U V P s2) as Hs2 by (apply (mailbox_frame _ _ _ (set_draws S s)); [done..|by apply mailbox_draw]).
  pose proof (burn_password inj _ _ _ s2 i Hs2) as Hb. change (ma_draws s2) with (S (ma_draws s)) in Hb.
  rewrite run_bind. destruct (regenerate_set_password_nonce i s2) as [[k|e] s3]; [|done].
  intros Hrun. simpl in Hb.
  match type of Hrun with ?m s3 = _ => assert (keeps (mailbox U V
    (λ j x, P j x ∨ burnt (S (ma_draws s)) i j x)) m) as Hk end.
  { apply keeps_bind; [apply keeps_mailbox_log|intros _]. keeps_auto. }
  specialize (Hk s3 Hb). by rewrite Hrun in Hk.
Qed.

(** An accepted set-password form went through a row with its nonce. *)
Lemma set_password_accepted id n pw pw' s u m x s1 :
  set_password token_key hibp_key id n pw pw' s = (Ok (mfa_pending u m x), s1) →
  (py_len id <= 50)%Z ∧ (py_len n <= 100)%Z ∧
  ∃ i email user, uuid_of_text id = Some i ∧ ma_emails s !! i = Some email ∧
    em_set_password_nonce email = n ∧
    finish_set_password token_key hibp_key i pw (_get_policy s) email user s =
    (Ok (mfa_pending u m x), s1).
Proof.
  unfold set_password, parse_id, open_set_password, get_email_for_verification.
  destruct (fits _) eqn:Hfits; [|done]. apply fits_spec in Hfits. rewrite !Forall_cons in Hfits.
  destruct Hfits as (F1 & F2 & _). simpl in F1, F2. cbn [negb].
  rewrite run_some_or_bind. destruct (uuid_of_text id) as [i|]; [|done]. rewrite run_gets_bind.
  destruct (ma_emails s !! i) as [email|] eqn:Hi; [|done].
  case_decide; [done|]. case_decide as Hn; [done|].
  destruct (get_user_row s (em_user email)) as [user|]; [|done].
  case_decide; [done|]. destruct (ur_saml_idp_id user); [done|].
  case_decide; [done|]. rewrite !run_gets_bind.
  destruct (validate_password _ _ _ _ _ _) as [[|]|]; [|done|done].
  intros Hr. split; [done|]. split; [done|]. by exists i, email, user.
Qed.
End links.

Section history_properties.
Context `{MailIds} `{Nonces} `{UuidText} `{UuidParse} `{Zxcvbn} `{Hibp} `{Argon2Hash}
  `{Argon2Verify} `{DatetimeText}.
Context (issuer : string) (isoformat : Z → string) (tenant_id : uuid) (token_key hibp_key : list Z).
Implicit Types s : mail.
Abbreviation run_hist := (run_mail issuer isoformat tenant_id token_key hibp_key).

(** C22. Whatever calls of the mail, password, settings and job services
    follow, no two addresses are equal up to case, no user has two primary
    addresses, and a user who had a primary address has one. *)
Theorem primary_address_kept cs s u :
  (∀ j k, nonce j = nonce k → j = k) →
  mail_ok s → has_primary (ma_emails s) u →
  addresses_unique (ma_emails (run_hist cs s)) ∧ one_primary (ma_emails (run_hist cs s)) ∧
  has_primary (ma_emails (run_hist cs s)) u.
Proof.
  intros inj Hs Hu. assert (mailbox (eq u) (λ _ _, False) (λ _ _, False) (run_hist cs s)) as [].
  { apply mailbox_history; [done|]. apply mail_ok_with; [done|]. by intros ? <-. }
  auto.
Qed.

(** A verification link works once: after it verified its address it is
    refused, whatever calls come in between, re-sent links included. *)
Theorem verification_link_once cs s i n s1 :
  (∀ j k, nonce j = nonce k → j = k) →
  mail_ok s → verify_email_by_nonce i n s = (Ok true, s1) →
  verify_email_by_nonce i n (run_hist cs s1) = (Ok false, run_hist cs s1).
Proof.
  intros inj Hs Hrun. apply (verify_by_nonce_burns inj _ _ _ _ _ _ _ Hs) in Hrun as [Hn Hs1].
  eapply mailbox_history in Hs1; [|done]. rewrite run_verify_by_nonce.
  destruct (ma_emails _ !! i) as [r|] eqn:Hi; [|done]. rewrite decide_False; [done|].
  eapply (mb_verify _ _ _ _ Hs1 i n); [right; by split|exact Hi].
Qed.

(** A set-password link works once: after a password was set through it,
    the same form only redirects to the sign-in page and changes nothing,
    whatever calls come in between. *)
Theorem set_password_link_once cs s id n pw pw' u m x s1 new :
  (∀ j k, nonce j = nonce k → j = k) →
  mail_ok s → set_password token_key hibp_key id n pw pw' s = (Ok (mfa_pending u m x), s1) → (py_len new <= 255)%Z →
  ∃ url, set_password token_key hibp_key id n new new (run_hist cs s1) =
         (Ok (redirect url), run_hist cs s1).
Proof.
  intros inj Hs Hrun Hnew. apply set_password_accepted in Hrun as (F1 & F2 & i & email & user & Hid & Hi & Hn & Hrun).
  assert (drawn (ma_draws s) n) as Hd by (subst n; by apply (mb_drawn _ _ _ _ Hs i)).
  pose proof (finish_burns inj _ _ _ token_key hibp_key s i n _ _ _ _ _ _ Hs Hd Hrun) as Hs1.
  eapply mailbox_history in Hs1; [|done].
  unfold set_password, parse_id, open_set_password, get_email_for_verification.
  rewrite (proj2 (fits_spec _)) by (repeat constructor; done). cbn [negb].
  rewrite run_some_or_bind, Hid, run_gets_bind.
  destruct (ma_emails (run_hist cs s1) !! i) as [r|] eqn:Hr; [|by eexists].
  case_decide; [by eexists|]. rewrite decide_True; [by eexists|].
  eapply (mb_password _ _ _ _ Hs1 i n); [right; split; [done|by apply drawn_S]|exact Hr].
Qed.
End history_properties.
