(* ===== verification/CredentialProofs.v ===== *)
(** * What the password services do

    Exactly when a password changes and what a change leaves behind; which
    tokens a reset takes away; what a tightened policy does; what the breach
    monitor finds; where a redirect may lead. *)

From stdpp Require Import gmap strings.
From S2P Require Import Prelude GroupDb GroupService Sha256 OAuthDb OAuthService UserLifecycle OAuthTokens OAuthHistory OAuthProofs OAuthRevocation UserProofs MailDb MailService MailProofs Tokens TokenProofs PasswordStrength Credentials SecuritySettings Jobs MailHistory.
#[local] Open Scope Z_scope.

Section passwords.
Context `{MailIds} `{Nonces} `{UuidText} `{UuidParse} `{Zxcvbn} `{Hibp} `{Argon2Hash}
  `{Argon2Verify} `{DatetimeText}.
Context (token_key hibp_key : list Z).
Implicit Types s : mail.

(** The password meets the policy of the moment and is in no known breach. *)
Definition acceptable s (u : uuid) (r : role) (pw : string) : Prop :=
  validate_password (ma_clock s) pw (_get_policy s).1 (_get_policy s).2 (Some r)
    (option_list (get_primary_email s u)) = Ok [].

(** [s'] is [s] with a new password for [u], apart from the tenant's tables. *)
Record password_set s s' (u : uuid) (pw : string) : Prop := mk_password_set {
  ps_logins : ma_logins s' = alter (new_credentials hibp_key s pw (_get_policy s)) u (ma_logins s);
  ps_emails : ma_emails s' = ma_emails s;
  ps_draws : ma_draws s' = S (ma_draws s);
  ps_accounts : accounts (ma_tenant s') = accounts (ma_tenant s);
}.

Lemma run_check_and_store u r pw s :
  (acceptable s u r pw ∧
   check_and_store hibp_key u (Some r) pw s =
   (Ok (), set_logins (alter (new_credentials hibp_key s pw (_get_policy s)) u) (set_draws S s))) ∨
  (¬ acceptable s u r pw ∧ ∃ e, check_and_store hibp_key u (Some r) pw s = (Raise e, s)).
Proof.
  unfold acceptable, check_and_store, require_strength. run.
  destruct (validate_password _ _ _ _ _ _) as [[|i l]|e]; run.
  - left. split; [done|]. rewrite run_store_password. by destruct (_get_policy s).
  - right. split; [done|by eexists].
  - right. split; [done|by eexists].
Qed.

(** What the breach service answers for a suffix: [says now pw count] when the
    first line of its answer with the password's suffix has that count. *)
Definition hash_of (line : string) : string := py_strip (partition colon line).1.
Definition says (now : Z) (pw count : string) : Prop :=
  ∃ text l1 line l2, hibp_range now (sha1_prefix pw) = Some text ∧ splitlines text = l1 ++ line :: l2 ∧
    Forall (λ x, hash_of x ≠ sha1_suffix pw) l1 ∧ hash_of line = sha1_suffix pw ∧
    (partition colon line).2 = count.

Lemma hibp_count_first suffix l1 line l2 : Forall (λ x, hash_of x ≠ suffix) l1 → hash_of line = suffix →
  hibp_count suffix (l1 ++ line :: l2) =
    match py_int (py_strip (partition colon line).2) with Some n => Ok n | None => Raise (PythonError "ValueError") end.
Proof.
  unfold hash_of. intros Hl Hline. induction Hl as [|x l1 Hx _ IH]; simpl.
  - destruct (partition colon line) as [h c]. by rewrite decide_True.
  - destruct (partition colon x) as [h c]. by rewrite decide_False.
Qed.
Lemma hibp_count_none suffix l : Forall (λ x, hash_of x ≠ suffix) l → hibp_count suffix l = Ok 0.
Proof.
  unfold hash_of. induction 1 as [|x l Hx _ IH]; simpl; [done|].
  destruct (partition colon x) as [h c]. by rewrite decide_False.
Qed.
Lemma first_line suffix l : Forall (λ x, hash_of x ≠ suffix) l ∨
  ∃ l1 line l2, l = l1 ++ line :: l2 ∧ Forall (λ x, hash_of x ≠ suffix) l1 ∧ hash_of line = suffix.
Proof.
  induction l as [|x l IH]; [by left|]. destruct (decide (hash_of x = suffix)) as [Hx|Hx].
  - right. by exists [], x, l.
  - destruct IH as [IH|(l1 & line & l2 & -> & Hl & Hline)]; [left; by constructor|right].
    exists (x :: l1), line, l2. split_and!; [done|by constructor|done].
Qed.
(** The count the check goes by, from the answer. *)
Lemma check_hibp_spec now pw :
  (∃ count, says now pw count ∧ check_hibp now pw =
     match py_int (py_strip count) with Some n => Ok n | None => Raise (PythonError "ValueError") end) ∨
  ((∀ count, ¬ says now pw count) ∧ check_hibp now pw = Ok 0).
Proof.
  unfold says, check_hibp. destruct (hibp_range now (sha1_prefix pw)) as [text|] eqn:Ht.
  2:{ right. split; [|done]. by intros c (? & ? & ? & ? & ? & _). }
  destruct (first_line (sha1_suffix pw) (splitlines text)) as [Hn|(l1 & line & l2 & Hl & Hn & Hline)].
  - right. split; [|by apply hibp_count_none]. intros c (text' & l1 & line & l2 & [= <-] & Hl & _ & Hline & _).
    rewrite Hl in Hn. apply Forall_app in Hn as [_ Hn]. by apply Forall_inv in Hn.
  - left. exists (partition colon line).2. split; [by exists text, l1, line, l2|].
    rewrite Hl. by apply hibp_count_first.
Qed.
Lemma says_functional now pw c c' : says now pw c → says now pw c' → c = c'.
Proof.
  intros (t & l1 & x & l2 & Ht & Hl & Hn & Hx & <-) (t' & l1' & x' & l2' & Ht' & Hl' & Hn' & Hx' & <-).
  assert (t' = t) as -> by congruence. rewrite Hl in Hl'. clear Hl Ht Ht'. revert l1' Hn' Hl'.
  induction Hn as [|y l1 Hy _ IH]; intros [|y' l1'] Hn' Hl'; simplify_eq/=; [done|..].
  - by apply Forall_inv in Hn'.
  - apply Forall_cons in Hn' as [_ Hn']. by eapply IH.
Qed.

(** The password meets the tenant's policy and is not in a known breach: it is
    long enough (14 characters for a super administrator whatever the tenant
    says), strong enough given the account's address, and the breach service,
    if it answers with the password's suffix, gives a count that is not
    positive. *)
Definition policy_of s : Z * Z :=
  match ma_security s with Some p => (minimum_password_length p, minimum_zxcvbn_score p) | None => (14, 3) end.
Definition sound_password s (u : uuid) (r : role) (pw : string) : Prop :=
  (policy_of s).1 <= py_len pw ∧ (r = super_admin → 14 <= py_len pw) ∧
  (∃ score, zxcvbn pw (option_list (get_primary_email s u)) = Ok score ∧ (policy_of s).2 <= score) ∧
  (∀ count, says (ma_clock s) pw count → ∃ n, py_int (py_strip count) = Some n ∧ n <= 0).
Lemma sound_acceptable s u r pw : acceptable s u r pw ↔ sound_password s u r pw.
Proof.
  unfold acceptable, sound_password, validate_password, effective_length. change (_get_policy s) with (policy_of s).
  assert (∀ b, (if b : bool then [password_too_short] else []) = [] ↔ b = false) as Hb1 by by intros [].
  assert ((py_len pw <? (if decide (Some r = Some super_admin ∧ (policy_of s).1 < 14) then 14 else (policy_of s).1)) = false
    ↔ (policy_of s).1 <= py_len pw ∧ (r = super_admin → 14 <= py_len pw)) as Hlen.
  { rewrite Z.ltb_ge. destruct (decide _) as [[[= ->] Hlt]|Hn]; [split; [lia|intros [_ Hr]; by apply Hr]|].
    split; [|tauto]. intros Hle. split; [done|]. intros ->. destruct (decide ((policy_of s).1 < 14)); [by destruct Hn|lia]. }
  destruct (zxcvbn pw _) as [score|e]; [|split; [done|by intros (_ & _ & (? & ? & _) & _)]].
  destruct (check_hibp_spec (ma_clock s) pw) as [(count & Hsays & ->)|[Hno ->]].
  - destruct (py_int (py_strip count)) as [n|] eqn:Hn.
    2:{ split; [done|]. intros (_ & _ & _ & Hc). destruct (Hc count Hsays) as (n & ? & _). congruence. }
    split.
    + intros [= [E1%Hb1 [E2 E3]%app_nil]%app_nil]. apply Hlen in E1 as [L1 L2]. split_and!; [done..| |].
      * exists score. split; [done|]. destruct (score <? _) eqn:E; [done|]. by apply Z.ltb_ge.
      * intros c Hc. rewrite (says_functional _ _ _ _ Hc Hsays). exists n. split; [done|].
        destruct (0 <? n) eqn:E; [done|]. by apply Z.ltb_ge.
    + intros (L1 & L2 & (sc & [= <-] & Hsc) & Hc). destruct (Hc count Hsays) as (n' & Hn' & Hle).
      assert (n' = n) as -> by congruence.
      rewrite (proj2 Hlen) by done. rewrite (proj2 (Z.ltb_ge _ _)) by done. by rewrite (proj2 (Z.ltb_ge _ _)).
  - split.
    + intros [= [E1%Hb1 E2]%app_nil]. apply Hlen in E1 as [L1 L2]. rewrite app_nil_r in E2. split_and!; [done..| |].
      * exists score. split; [done|]. destruct (score <? _) eqn:E; [done|]. by apply Z.ltb_ge.
      * by intros c Hc%Hno.
    + intros (L1 & L2 & (sc & [= <-] & Hsc) & _).
      rewrite (proj2 Hlen) by done. by rewrite (proj2 (Z.ltb_ge _ _)).
Qed.

(** When a user may replace their own password by a new one. *)
Definition may_change s (ru : requesting_user) (current new : string) : Prop :=
  ∃ h, get_password_hash s (ru_id ru) = Some h ∧ h ≠ "" ∧
    argon2_verify h current = Ok true ∧ argon2_verify h new = Ok false ∧
    sound_password s (ru_id ru) (ru_role ru) new.

(** C32. change_password succeeds exactly when the account has a password, the
    current one is right, the new one does not match it as well, is long and
    strong enough for the tenant and the role, and is not listed by the breach
    service.  Then the state after it is known in full: the row has a freshly
    salted hash, the time, no pending reset, the prefix and HMAC of the breach
    monitor and the policy, and its other columns as before; one audit event
    was written; one nonce was drawn; nothing else changed.  Otherwise the call
    raises and nothing changed. *)
Theorem change_password_outcome ru current new s :
  let u := ru_id ru in
  (may_change s ru current new → ∃ row,
     ma_logins s !! u = Some row ∧
     change_password hibp_key ru current new s = (Ok (),
       mk_mail (set_dir (set_events (λ l, l ++ [mk_event (Some u) "user" u "password_changed" []])) (ma_tenant s))
         (S (ma_draws s))
         (<[u := mk_login (lo_first_name row) (lo_last_name row)
                   (Some (argon2_hash (nonce (ma_draws s)) new)) (Some (ma_clock s)) false
                   (Some (text_of (take 5 (chars (sha1_hex new)))))
                   (Some (hexdigest (hmac_sha256 hibp_key (bytes_of (sha1_hex new)))))
                   (Some (policy_of s)) (lo_mfa_enabled row) (lo_mfa_method row) (lo_saml_idp row)]> (ma_logins s))
         (ma_emails s) (ma_domains s) (ma_links s) (ma_domain_idps s) (ma_enabled_idps s) (ma_security s))) ∧
  (¬ may_change s ru current new →
     ∃ e, change_password hibp_key ru current new s = (Raise e, s)).
Proof.
  intros u. unfold may_change, change_password, verify_password. run. setoid_rewrite <- sound_acceptable.
  destruct (get_password_hash s (ru_id ru)) as [[|c h]|] eqn:Hh.
  1,3: split; [naive_solver|by eexists].
  set (hash := String.String c h) in *. run.
  destruct (argon2_verify hash current) as [[]|e] eqn:Hc; run.
  2-3: split; [naive_solver congruence|by eexists].
  destruct (argon2_verify hash new) as [[]|e] eqn:Hn; run.
  1,3: split; [naive_solver congruence|by eexists].
  rewrite run_bind. destruct (run_check_and_store (ru_id ru) (ru_role ru) new s) as [[Ha ->]|[Ha [e ->]]].
  - split; [|intros []; by exists hash]. intros _.
    unfold get_password_hash in Hh. apply bind_Some in Hh as (row & Hrow & _). exists row. split; [done|].
    unfold log_user. rewrite run_in_groups_log. f_equal. unfold set_tenant, set_logins, ma_dir. simpl. f_equal.
    apply map_eq. intros v. destruct (decide (v = u)) as [->|Hv].
    + rewrite lookup_alter_eq, lookup_insert_eq. unfold u. by rewrite Hrow.
    + by rewrite lookup_alter_ne, lookup_insert_ne.
  - split; [naive_solver|by eexists].
Qed.
(** ** Resets and tokens *)

(** The tokens and approvals of the users [us] are gone, nobody else's. *)
Record tokens_gone (us : uuid → Prop) (t t' : tenant) : Prop := mk_tokens_gone {
  tg_tokens : ∀ y k, tokens t' !! y = Some k ↔ tokens t !! y = Some k ∧ ¬ us (tk_user k);
  tg_devices : ∀ x r, device_codes t' !! x = Some r ↔
    device_codes t !! x = Some r ∧ ¬ (∃ u, us u ∧ dc_user r = Some u ∧ dc_status r = approved);
  tg_codes : codes t' = codes t;
  tg_accounts : accounts t' = accounts t;
  tg_clock : clock t' = clock t;
}.

Lemma tokens_gone_family us t t' : tokens_gone us t t' → family_ok t → family_ok t'.
Proof.
  intros [Hk _ _ _ _] [Hf Hu]. split.
  - intros x r p [Hx Hr]%Hk Hp. destruct (Hf _ _ _ Hx Hp) as (q & Hq & Hd). exists q. split; [|done].
    apply Hk. split; [done|]. by destruct Hd as (_ & _ & _ & _ & <- & _).
  - intros x y r q [Hx _]%Hk [Hy _]%Hk. by apply Hu.
Qed.

Lemma run_revoke_all u t : family_ok t →
  ∃ n t', revoke_all_user_tokens u t = (Ok n, t') ∧ tokens_gone (eq u) t t'.
Proof.
  intros Ht. destruct (revoke_all_user_tokens u t) as [[n|e] t'] eqn:E; [|done].
  exists n, t'. split; [done|].
  assert (accounts t' = accounts t ∧ clock t' = clock t) as [Ha Hcl].
  { revert E. unfold revoke_all_user_tokens. run. by intros [= _ <-]. }
  apply revoke_all_tokens in E as (Hk & Hd & Hc); [|done]. split; [..|done|done|done].
  - intros y k. rewrite Hk. naive_solver.
  - intros x r. rewrite Hd. naive_solver.
Qed.

Lemma run_revoke_loop us t : family_ok t →
  ∃ t', ∀ s, ma_tenant s = t →
    for_each (λ u, _ ← in_tenant (revoke_all_user_tokens u); mret ()) us s =
      (Ok (), set_tenant (λ _, t') s) ∧ tokens_gone (λ u, u ∈ us) t t'.
Proof.
  revert t. induction us as [|u us IH]; intros t Ht.
  - exists t. intros s Hs. split.
    + simpl. unfold set_tenant. rewrite <-Hs. by destruct s.
    + split; try done; intros; [|]; split; try tauto; [|]; intros ?; (split; [done|]).
      * intros []%elem_of_nil.
      * by intros (u & []%elem_of_nil & _).
  - destruct (run_revoke_all u t Ht) as (n & t1 & Hr & Hg).
    destruct (IH t1) as [t2 Ht2]; [by eapply tokens_gone_family|]. exists t2. intros s Hs.
    destruct (Ht2 (set_tenant (λ _, t1) s) eq_refl) as [Hrun Hg2]. split.
    + simpl. rewrite run_bind_assoc, run_bind. unfold in_tenant at 1. rewrite Hs, Hr. simpl.
      rewrite run_ret_bind. exact Hrun.
    + destruct Hg as [Hk Hd Hc Ha Hl], Hg2 as [Hk2 Hd2 Hc2 Ha2 Hl2]. split; [..|congruence|congruence|congruence].
      * intros y k. rewrite Hk2, Hk, elem_of_cons. naive_solver.
      * intros x r. rewrite Hd2, Hd. setoid_rewrite elem_of_cons. naive_solver.
Qed.

Lemma run_revoke_oauth2 u reason s : family_ok (ma_tenant s) →
  ∃ t, _revoke_oauth2_tokens u reason s = (Ok (), set_tenant (λ _, t) s) ∧
    tokens_gone (eq u) (ma_tenant s) t.
Proof.
  intros Ht. destruct (run_revoke_all u _ Ht) as (n & t & Hr & Hg).
  unfold _revoke_oauth2_tokens. rewrite run_bind. unfold in_tenant at 1. rewrite Hr. simpl.
  unfold when. case_bool_decide.
  - eexists. split; [reflexivity|]. by destruct Hg.
  - by exists t.
Qed.

Definition may_reset s (u : uuid) (pw : string) : Prop :=
  ∃ user, get_user_row s u = Some user ∧ acceptable s u (ur_role user) pw.
Lemma run_self_service u pw s : family_ok (ma_tenant s) →
  (may_reset s u pw ∧ ∃ s', complete_self_service_password_reset hibp_key u pw s = (Ok (), s') ∧
     password_set s s' u pw ∧ tokens_gone (eq u) (ma_tenant s) (ma_tenant s')) ∨
  (¬ may_reset s u pw ∧ ∃ e, complete_self_service_password_reset hibp_key u pw s = (Raise e, s)).
Proof.
  intros Ht. unfold may_reset, complete_self_service_password_reset. run.
  destruct (get_user_row s u) as [user|]; [|right; split; [naive_solver|by eexists]]. run.
  rewrite run_bind.
  destruct (run_check_and_store u (ur_role user) pw s) as [[Ha ->]|[Ha [e ->]]].
  2:{ right. split; [naive_solver|by eexists]. }
  left. split; [by exists user|]. set (s1 := set_logins _ _).
  destruct (run_revoke_oauth2 u "self_service_reset" s1) as (t & Hr & Hg); [done|].
  rewrite run_bind, Hr. eexists. split; [reflexivity|].
  assert (accounts t = accounts (ma_tenant s)) as Hacc by apply Hg.
  split; [by split|]. by destruct Hg.
Qed.

(** A self-service reset succeeds exactly for an existing account and a
    password that is acceptable for its role; then the password is set, and
    every token and device approval of the account is gone, those of others
    are untouched and authorization codes too.  Otherwise nothing changes. *)
Theorem self_service_reset_outcome u pw s :
  family_ok (ma_tenant s) →
  (may_reset s u pw → ∃ s',
     complete_self_service_password_reset hibp_key u pw s = (Ok (), s') ∧
     password_set s s' u pw ∧ tokens_gone (eq u) (ma_tenant s) (ma_tenant s')) ∧
  (¬ may_reset s u pw → ∃ e, complete_self_service_password_reset hibp_key u pw s = (Raise e, s)).
Proof. intros Ht. destruct (run_self_service u pw s Ht) as [[? ?]|[? ?]]; tauto. Qed.

(** ** The breach monitor *)

Lemma chars_inj x y : chars x = chars y → x = y.
Proof. intros E. by rewrite <- (text_of_chars x), <- (text_of_chars y), E. Qed.
Lemma upper_idemp c : upper (upper c) = upper c.
Proof. by destruct c as [[] [] [] [] [] [] [] []]. Qed.
Lemma upper_string_app x y : upper_string (x +:+ y) = upper_string x +:+ upper_string y.
Proof. apply chars_inj. unfold upper_string. by rewrite chars_text_of, !chars_app, !chars_text_of, fmap_app. Qed.
Lemma upper_string_idemp x : upper_string (upper_string x) = upper_string x.
Proof.
  unfold upper_string. rewrite chars_text_of, <- list_fmap_compose. f_equal.
  apply list_fmap_ext. intros _ c _. apply upper_idemp.
Qed.
Lemma string_app_inj x y z : x +:+ y = x +:+ z → y = z.
Proof. intros E. apply (f_equal chars) in E. rewrite !chars_app in E. by apply (inj (chars x ++.)), chars_inj in E. Qed.

Lemma sha1_split pw : sha1_prefix pw +:+ sha1_suffix pw = sha1_hex pw.
Proof. apply chars_inj. unfold sha1_prefix, sha1_suffix. by rewrite chars_app, !chars_text_of, take_drop. Qed.
Lemma upper_sha1_parts pw :
  upper_string (sha1_prefix pw) = sha1_prefix pw ∧ upper_string (sha1_suffix pw) = sha1_suffix pw.
Proof.
  assert (upper <$> chars (sha1_hex pw) = chars (sha1_hex pw)) as E.
  { unfold sha1_hex. rewrite <- (chars_text_of (upper <$> _)). f_equal.
    exact (upper_string_idemp (hexdigest (sha1 (bytes_of pw)))). }
  unfold sha1_prefix, sha1_suffix, upper_string. rewrite !chars_text_of.
  split; f_equal; [rewrite fmap_take|rewrite fmap_drop]; by rewrite E.
Qed.

Lemma check_hmac_ascii key x : is_ascii (check_hmac key x) = true.
Proof.
  apply is_ascii_Forall. eapply Forall_impl; [apply hexdigest_chars, sha256_bytes|]. by intros c [].
Qed.

Lemma run_monitor pw suffixes :
  check_hibp_suffix_against_hmac (sha1_prefix pw) (check_hmac hibp_key (sha1_hex pw)) hibp_key suffixes =
  Ok (existsb (λ x, bool_decide (check_hmac hibp_key (upper_string (sha1_prefix pw +:+ x)) =
                                 check_hmac hibp_key (sha1_hex pw))) suffixes).
Proof.
  unfold check_hibp_suffix_against_hmac, when_ascii. rewrite check_hmac_ascii.
  by case_decide as E; [rewrite E|].
Qed.
Lemma listed_is_found pw suffixes x : x ∈ suffixes → upper_string x = sha1_suffix pw →
  check_hibp_suffix_against_hmac (sha1_prefix pw) (check_hmac hibp_key (sha1_hex pw)) hibp_key suffixes =
  Ok true.
Proof.
  intros Hx E. rewrite run_monitor. f_equal. apply existsb_exists. exists x.
  split; [by apply list_elem_of_In|]. apply bool_decide_eq_true.
  by rewrite upper_string_app, (proj1 (upper_sha1_parts pw)), E, sha1_split.
Qed.

(** The lines of the service's answer for the password's prefix. *)
Definition answer_line (now : Z) (pw line : string) : Prop :=
  ∃ text, hibp_range now (sha1_prefix pw) = Some text ∧ line ∈ splitlines text.
Lemma elem_of_suffixes now pw x :
  x ∈ _fetch_hibp_suffixes now (sha1_prefix pw) ↔ ∃ line, answer_line now pw line ∧ x = hash_of line.
Proof.
  unfold _fetch_hibp_suffixes, answer_line. destruct (hibp_range now (sha1_prefix pw)) as [text|].
  - rewrite list_elem_of_fmap. split.
    + intros (line & -> & Hl). exists line. split; [by exists text|done].
    + intros (line & (? & [= <-] & Hl) & ->). by exists line.
  - split; [by intros ?%elem_of_nil|]. by intros (line & (? & ? & _) & _).
Qed.
Lemma says_answered now pw count : says now pw count → ∃ line, answer_line now pw line ∧ hash_of line = sha1_suffix pw.
Proof.
  intros (text & l1 & line & l2 & Ht & Hl & _ & Hline & _). exists line. split; [|done].
  exists text. split; [done|]. rewrite Hl. apply elem_of_app. right. by left.
Qed.


(** ** A tightened policy *)

(** An active account, with a password set under a weaker policy, that is not
    already due for a reset. *)
Definition set_under_weaker s (min_length min_score : Z) (u : uuid) : Prop :=
  ∃ a l p, accounts (ma_tenant s) !! u = Some a ∧ ma_logins s !! u = Some l ∧
    is_Some (lo_password_hash l) ∧ us_is_inactivated a = false ∧ lo_password_reset_required l = false ∧
    lo_policy_at_set l = Some p ∧ (p.1 < min_length ∨ p.2 < min_score).

Lemma elem_of_weak s L S u : u ∈ get_users_with_weak_policy s L S ↔ set_under_weaker s L S u.
Proof.
  unfold get_users_with_weak_policy, set_under_weaker. rewrite list_elem_of_omap. split.
  - intros ([v l] & Hl%elem_of_map_to_list & Hw). unfold weak_policy in Hw. simpl in Hw.
    apply bind_Some in Hw as (a & Ha & (h & Hh & Hw)%bind_Some).
    destruct (us_is_inactivated a) eqn:Hi; [done|]. destruct (lo_password_reset_required l) eqn:Hr; [done|].
    destruct (lo_policy_at_set l) as [p|] eqn:Hp; [|done]. simpl in Hw.
    destruct ((_ <? _) || _) eqn:Hlt; [|done]. injection Hw as <-.
    exists a, l, p. split_and!; try done.
    apply orb_true_iff in Hlt as [?%Z.ltb_lt|?%Z.ltb_lt]; auto.
  - intros (a & l & p & Ha & Hl & [h Hh] & Hi & Hr & Hp & Hlt). exists (u, l).
    split; [by apply elem_of_map_to_list|]. unfold weak_policy. simpl. rewrite Ha. simpl.
    rewrite Hh. simpl. rewrite Hi, Hr, Hp. simpl.
    assert ((p.1 <? L) || (p.2 <? S) = true) as ->; [|done].
    apply orb_true_iff. rewrite !Z.ltb_lt. done.
Qed.

(** Steps that write the settings or the audit log only. *)
Record quiet s s' : Prop := mk_quiet {
  qu_logins : ma_logins s' = ma_logins s;
  qu_tokens : tokens (ma_tenant s') = tokens (ma_tenant s);
  qu_devices : device_codes (ma_tenant s') = device_codes (ma_tenant s);
  qu_codes : codes (ma_tenant s') = codes (ma_tenant s);
  qu_accounts : accounts (ma_tenant s') = accounts (ma_tenant s);
  qu_clock : clock (ma_tenant s') = clock (ma_tenant s);
}.
Lemma quiet_log s0 tid ru e md : keeps (quiet s0) (log_settings tid ru e md).
Proof. by intros s []. Qed.
Lemma quiet_db s0 r : keeps (quiet s0) (db_update_security_settings r).
Proof. unfold db_update_security_settings. keeps_auto. by intros s []. Qed.
Lemma quiet_when_changed `{EqDecision A} s0 b (x y : A) m :
  keeps (quiet s0) m → keeps (quiet s0) (when_changed b x y m).
Proof. intros. by apply keeps_when. Qed.
#[local] Hint Resolve quiet_log quiet_db quiet_when_changed : keeps.

Lemma run_enforce tid ru L S s : family_ok (ma_tenant s) →
  ∃ n s', _enforce_password_policy_compliance tid ru L S s = (Ok n, s') ∧
    (∀ u, ma_logins s' !! u = (λ l, if decide (u ∈ get_users_with_weak_policy s L S)
                                    then with_reset_required true l else l) <$> ma_logins s !! u) ∧
    tokens_gone (λ u, u ∈ get_users_with_weak_policy s L S) (ma_tenant s) (ma_tenant s').
Proof.
  intros Ht. unfold _enforce_password_policy_compliance. rewrite run_gets_bind.
  set (W := get_users_with_weak_policy s L S). destruct W as [|w W'] eqn:HW.
  - exists 0%nat, s. split; [done|]. split.
    + intros u. by destruct (ma_logins s !! u).
    + split; [| |done..]; intros; (split; [|tauto]); intros ?; (split; [done|]).
      * by intros ?%elem_of_nil.
      * by intros (? & ?%elem_of_nil & _).
  - unfold bulk_set_password_reset_required. rewrite run_update_bind. cbn [fst snd].
    set (s1 := set_logins _ s). destruct (run_revoke_loop (w :: W') (ma_tenant s) Ht) as [t Hloop].
    destruct (Hloop s1 eq_refl) as [Hrun Hg]. rewrite run_bind, Hrun. eexists _, _.
    split; [reflexivity|]. split; [|by destruct Hg].
    intros u. simpl. rewrite map_lookup_imap. by destruct (ma_logins s !! u).
Qed.

Lemma quiet_step {A} s0 (m : M mail A) s x s' :
  keeps (quiet s0) m → quiet s0 s → m s = (Ok x, s') → quiet s0 s'.
Proof. intros Hm Hs Hr. specialize (Hm s Hs). by rewrite Hr in Hm. Qed.

Lemma run_policy_step tid ru row u s :
  let c := current_settings row in
  let r := _merge_security_update row u in
  minimum_password_length c < minimum_password_length r ∨ minimum_zxcvbn_score c < minimum_zxcvbn_score r →
  password_policy_step tid ru c u r s =
  (_ ← log_settings tid ru "password_policy_updated"
         [("minimum_password_length", MInt (minimum_password_length r));
          ("minimum_zxcvbn_score", MInt (minimum_zxcvbn_score r))];
   _ ← _enforce_password_policy_compliance tid ru (minimum_password_length r) (minimum_zxcvbn_score r);
   mret ()) s.
Proof.
  intros c r Hlt. unfold password_policy_step, when.
  assert ((sent (su_minimum_password_length u) &&
             bool_decide (minimum_password_length c ≠ minimum_password_length r)) ||
          (sent (su_minimum_zxcvbn_score u) &&
             bool_decide (minimum_zxcvbn_score c ≠ minimum_zxcvbn_score r)) = true) as ->.
  { apply orb_true_iff. rewrite !andb_true_iff, !bool_decide_eq_true. unfold sent, r, _merge_security_update in *.
    simpl in *. fold c in Hlt |- *.
    destruct Hlt; [left|right]; (split; [apply bool_decide_eq_true|lia]).
    - destruct (su_minimum_password_length u); [by eexists|simpl in *; lia].
    - destruct (su_minimum_zxcvbn_score u); [by eexists|simpl in *; lia]. }
  assert (bool_decide (minimum_password_length c < minimum_password_length r) ||
          bool_decide (minimum_zxcvbn_score c < minimum_zxcvbn_score r) = true) as ->; [|done].
  by rewrite orb_true_iff, !bool_decide_eq_true.
Qed.

(** When an update tightens the password policy, exactly the active
    accounts whose password was set under a weaker policy must reset it and
    lose all their tokens; every other account keeps its row and its tokens. *)
Theorem tightened_policy_enforced tid ru u s r s' :
  family_ok (ma_tenant s) →
  update_security_settings tid ru u s = (Ok r, s') →
  minimum_password_length (current_settings (ma_security s)) < minimum_password_length r ∨
  minimum_zxcvbn_score (current_settings (ma_security s)) < minimum_zxcvbn_score r →
  let weaker := set_under_weaker s (minimum_password_length r) (minimum_zxcvbn_score r) in
  (∀ v l, ma_logins s !! v = Some l →
     (weaker v → ma_logins s' !! v = Some (with_reset_required true l)) ∧
     (¬ weaker v → ma_logins s' !! v = Some l)) ∧
  tokens_gone weaker (ma_tenant s) (ma_tenant s').
Proof.
  intros Ht Hrun Hlt weaker. unfold update_security_settings in Hrun.
  apply bind_Ok in Hrun as ([] & s0 & [_ ->]%raise_if_Ok & Hrun).
  apply bind_Ok in Hrun as ([] & s0 & [_ ->]%raise_if_Ok & Hrun). rewrite run_gets_bind in Hrun.
  apply bind_Ok in Hrun as (n & s1 & H1s & Hrun). apply bind_Ok in Hrun as ([] & s2 & H2s & Hrun).
  apply bind_Ok in Hrun as ([] & s3 & H3s & Hrun). apply bind_Ok in Hrun as ([] & s4 & H4s & Hrun).
  apply bind_Ok in Hrun as ([] & s5 & H5s & Hrun). apply bind_Ok in Hrun as ([] & s6 & H6s & Hrun).
  apply bind_Ok in Hrun as ([] & s7 & H7s & Hrun). injection Hrun as <- <-.
  assert (quiet s s4) as Hs4.
  { eapply quiet_step; [|eapply quiet_step; [|eapply quiet_step; [|eapply quiet_step; [| |exact H1s]|
      exact H2s]|exact H3s]|exact H4s]; eauto with keeps. by split. }
  rewrite run_policy_step in H5s by done.
  apply bind_Ok in H5s as ([] & s5' & Hlog & H5s).
  assert (quiet s s5') as Hs5 by (eapply quiet_step; [|exact Hs4|exact Hlog]; eauto with keeps).
  set (L := minimum_password_length _) in *. set (S' := minimum_zxcvbn_score _) in *.
  destruct (run_enforce tid ru L S' s5') as (k & s5'' & Hr & Hl & Hg).
  { unfold family_ok. by rewrite (qu_tokens _ _ Hs5). }
  rewrite run_bind, Hr in H5s. injection H5s as <-.
  assert (quiet s5'' s7) as Hs7.
  { eapply quiet_step; [|eapply quiet_step; [| |exact H6s]|exact H7s]; eauto with keeps. by split. }
  assert (∀ v, v ∈ get_users_with_weak_policy s5' L S' ↔ weaker v) as HW.
  { intros v. rewrite elem_of_weak. unfold weaker, set_under_weaker.
    by rewrite (qu_logins _ _ Hs5), (qu_accounts _ _ Hs5). }
  split.
  - intros v l Hv. rewrite (qu_logins _ _ Hs7), Hl, (qu_logins _ _ Hs5), Hv. simpl.
    split; intros Hw; rewrite <- HW in Hw; [by rewrite decide_True|by rewrite decide_False].
  - destruct Hg as [Hk Hd Hc Ha Hcl]. split.
    + intros y x. by rewrite (qu_tokens _ _ Hs7), Hk, (qu_tokens _ _ Hs5), HW.
    + intros y x. rewrite (qu_devices _ _ Hs7), Hd, (qu_devices _ _ Hs5). by setoid_rewrite HW.
    + by rewrite (qu_codes _ _ Hs7), Hc, (qu_codes _ _ Hs5).
    + by rewrite (qu_accounts _ _ Hs7), Ha, (qu_accounts _ _ Hs5).
    + by rewrite (qu_clock _ _ Hs7), Hcl, (qu_clock _ _ Hs5).
Qed.
End passwords.
