(* ===== verification/JobProofs.v ===== *)
(** * What the account jobs do

    A bulk inactivation reports on every account, inactivates the ones it
    says it did and never the last active super admin; the daily sweep for
    idle accounts does not look. *)

From stdpp Require Import gmap strings.
From S2P Require Import Prelude GroupDb GroupService OAuthDb OAuthService UserLifecycle OAuthTokens OAuthHistory OAuthProofs OAuthRevocation UserProofs MailDb MailService MailProofs Jobs.
#[local] Open Scope nat_scope.

Section jobs.
Context `{UuidText} `{UuidParse} (issuer : string).
Implicit Types s : mail.

Definition inactivated (u : uuid) s : Prop :=
  ∃ a, accounts (ma_tenant s) !! u = Some a ∧ us_is_inactivated a = true.

Lemma cut_access_accounts u t : accounts (cut_access issuer u t).2 = accounts t.
Proof.
  assert (keeps (λ t', accounts t' = accounts t) (cut_access issuer u)) as Hk; [|by apply Hk].
  unfold cut_access, revoke_all_user_tokens, delete_consent_grants_for_user, delete_consents,
    end_user_oidc_sessions, consume_user_session_clients, consume_sessions, delete_tokens.
  keeps_auto; intros t' Ht'; try exact Ht'; rewrite run_update; exact Ht'.
Qed.
Lemma inactivate_accounts u t a : accounts t !! u = Some a → us_is_inactivated a = false →
  accounts ((_ ← inactivate_user_row u; cut_access issuer u) t).2 =
  <[u := set_inactivated true a]> (accounts t).
Proof.
  intros Ha Hi. unfold inactivate_user_row, update_account. rewrite run_update_bind, Ha, Hi.
  change (negb false) with true. cbn [fst snd]. by rewrite cut_access_accounts.
Qed.

Lemma get_user_row_Some s u r : get_user_row s u = Some r →
  ∃ a, accounts (ma_tenant s) !! u = Some a ∧ ur_role r = us_role a ∧
    ur_is_inactivated r = us_is_inactivated a.
Proof.
  unfold get_user_row. intros (a & Ha & (l & Hl & [= <-])%bind_Some)%bind_Some. by exists a.
Qed.

(** What one item does to the accounts. *)
Lemma bulk_item_accounts by_ x s :
  let '(r, s') := try_item (bulk_inactivate_item issuer by_) x s in
  ∃ d, r = Ok d ∧ jd_user d = x ∧
    ((jd_status d ≠ job_done ∧ accounts (ma_tenant s') = accounts (ma_tenant s)) ∨
     ∃ u a, uuid_of_text x = Some u ∧ accounts (ma_tenant s) !! u = Some a ∧
       accounts (ma_tenant s') = <[u := set_inactivated true a]> (accounts (ma_tenant s)) ∧
       (us_role a = super_admin → 2 ≤ count_active_super_admins (ma_tenant s))).
Proof.
  unfold try_item, bulk_inactivate_item, parse_id. run.
  destruct (uuid_of_text x) as [u|]; [|eexists; split_and!; [done..|by left]]. run.
  destruct (get_user_row s u) as [user|] eqn:Hu; run.
  2:{ eexists. split_and!; [done..|by left]. }
  destruct (get_user_row_Some _ _ _ Hu) as (a & Ha & Hrole & Hin).
  destruct (decide (x = uuid_text by_)); [eexists; split_and!; [done..|by left]|].
  destruct (ur_is_inactivated user) eqn:Hi; [eexists; split_and!; [done..|by left]|].
  destruct (is_service_user (ma_tenant s) u); [eexists; split_and!; [done..|by left]|].
  destruct (bool_decide (ur_role user = super_admin) && _) eqn:Hlast;
    [eexists; split_and!; [done..|by left]|].
  assert (us_role a = super_admin → 2 ≤ count_active_super_admins (ma_tenant s)) as Hcount.
  { intros Hs. rewrite Hrole, Hs in Hlast. simpl in Hlast. apply bool_decide_eq_false in Hlast. lia. }
  rewrite run_bind. unfold inactivate_account, in_tenant at 1.
  pose proof (inactivate_accounts u (ma_tenant s) a Ha (eq_sym Hin)) as Hacc.
  destruct ((_ ← inactivate_user_row u; cut_access issuer u) (ma_tenant s)) as [[[]|e] t]; simpl in *.
  - eexists. split_and!; [done..|]. right. by exists u, a.
  - eexists. split_and!; [done..|]. right. by exists u, a.
Qed.

Lemma inactivated_kept u v a s s' :
  accounts (ma_tenant s) !! v = Some a →
  accounts (ma_tenant s') = <[v := set_inactivated true a]> (accounts (ma_tenant s)) →
  inactivated v s' ∧ (inactivated u s → inactivated u s').
Proof.
  intros Hv E. unfold inactivated. rewrite E. split.
  - eexists. by rewrite lookup_insert_eq.
  - intros (b & Hb & Hi). destruct (decide (v = u)) as [->|Hn].
    + eexists. by rewrite lookup_insert_eq.
    + exists b. by rewrite lookup_insert_ne.
Qed.

Lemma super_kept u a s s' : accounts (ma_tenant s) !! u = Some a →
  accounts (ma_tenant s') = <[u := set_inactivated true a]> (accounts (ma_tenant s)) →
  (us_role a = super_admin → 2 ≤ count_active_super_admins (ma_tenant s)) →
  has_super_admin (ma_tenant s) → has_super_admin (ma_tenant s').
Proof.
  intros Ha E Hn Hs. unfold has_super_admin, count_active_super_admins in *. rewrite E.
  destruct (decide (us_role a = super_admin)) as [Hr|Hr].
  - pose proof (supers_insert_le (accounts (ma_tenant s)) u (set_inactivated true a)). specialize (Hn Hr). lia.
  - etrans; [exact Hs|]. apply (supers_insert_kept _ _ a); [done|]. by intros [].
Qed.

(** A bulk inactivation always finishes with one report per account, in
    order; an account reported as done is inactivated, an inactivated account
    stays so, and an active super admin remains. *)
Theorem bulk_inactivation_outcome by_ us s :
  has_super_admin (ma_tenant s) →
  ∃ ds s', handle_bulk_inactivate_users issuer by_ us s = (Ok ds, s') ∧
    jd_user <$> ds = us ∧ has_super_admin (ma_tenant s') ∧
    (∀ d, d ∈ ds → jd_status d = job_done → ∃ u, uuid_of_text (jd_user d) = Some u ∧ inactivated u s') ∧
    (∀ v, inactivated v s → inactivated v s').
Proof.
  unfold handle_bulk_inactivate_users. revert s. induction us as [|x us IH]; intros s Hs.
  { exists [], s. split_and!; try done. by intros d ?%elem_of_nil. }
  pose proof (bulk_item_accounts by_ x s) as Hitem. simpl. rewrite run_bind.
  destruct (try_item _ x s) as [r s1]. destruct Hitem as (d & -> & Hd & Hcase).
  assert (has_super_admin (ma_tenant s1) ∧
          (jd_status d = job_done → ∃ u, uuid_of_text x = Some u ∧ inactivated u s1) ∧
          (∀ v, inactivated v s → inactivated v s1)) as (Hs1 & Hdone & Hkeep).
  { destruct Hcase as [[Hn E]|(u & a & Hu & Ha & E & Hcount)].
    - unfold has_super_admin, count_active_super_admins, inactivated in *. rewrite E. by split_and!.
    - split_and!; [by eapply super_kept|intros _; exists u; split; [done|exact (proj1 (inactivated_kept u u a s s1 Ha E))]|].
      intros v. exact (proj2 (inactivated_kept v u a s s1 Ha E)). }
  destruct (IH s1 Hs1) as (ds & s2 & Hr & Hds & Hs2 & Hdd & Hk2).
  rewrite run_bind, Hr. exists (d :: ds), s2. split_and!; [done|by csimpl; rewrite Hd, Hds|done|..].
  - intros d' [->|Hd']%elem_of_cons Hst; [|by apply Hdd]. rewrite Hd.
    destruct (Hdone Hst) as (u & Hu & Hi). exists u. split; [done|]. by apply Hk2.
  - intros v Hv. by apply Hk2, Hkeep.
Qed.

(** ** The sweep for idle accounts *)

Context (seen : gmap uuid Z) (isoformat : Z → string).

Lemma inactivate_alter u t :
  ∃ t', (_ ← inactivate_user_row u; cut_access issuer u) t = (Ok (), t') ∧
    accounts t' = alter (set_inactivated true) u (accounts t).
Proof.
  assert (∀ t, ∃ t', cut_access issuer u t = (Ok (), t') ∧ accounts t' = accounts t) as Hcut.
  { intros t0. pose proof (cut_access_accounts u t0) as Hacc.
    destruct (cut_access issuer u t0) as [r t1] eqn:E. simpl in Hacc. exists t1. split; [|done].
    f_equal. revert E. unfold cut_access, revoke_all_user_tokens, delete_consent_grants_for_user,
      delete_consents, end_user_oidc_sessions, consume_user_session_clients, consume_sessions. run.
    by intros [= <- _]. }
  unfold inactivate_user_row, update_account. rewrite run_update_bind.
  destruct (accounts t !! u) as [a|] eqn:Ha; [destruct (us_is_inactivated a) eqn:Hi|].
  all: cbn [negb fst snd]; match goal with |- context [cut_access _ _ ?x] => destruct (Hcut x) as (t' & -> & E) end.
  all: exists t'; split; [done|]; rewrite E; apply map_eq; intros v; simpl.
  all: destruct (decide (u = v)) as [<-|Hv];
    [rewrite lookup_alter_eq, Ha|rewrite lookup_alter_ne by done].
  all: try by rewrite ?lookup_insert_eq, ?lookup_insert_ne.
  destruct a. simpl in Hi. by subst.
Qed.

Lemma try_idle_accounts d u s :
  ∃ s', try_idle issuer seen isoformat d u s = (Ok [u], s') ∧
    accounts (ma_tenant s') = alter (set_inactivated true) u (accounts (ma_tenant s)).
Proof.
  unfold try_idle, inactivate_idle, inactivate_account. rewrite run_bind. unfold in_tenant at 1.
  destruct (inactivate_alter u (ma_tenant s)) as (t & -> & E). by eexists.
Qed.

Lemma idle_loop_accounts d us s :
  ∃ l s', for_map (try_idle issuer seen isoformat d) us s = (Ok l, s') ∧ concat l = us ∧
    ∀ v, accounts (ma_tenant s') !! v =
      (λ a, if decide (v ∈ us) then set_inactivated true a else a) <$> accounts (ma_tenant s) !! v.
Proof.
  revert s. induction us as [|u us IH]; intros s.
  - exists [], s. split_and!; [done..|]. intros v. by destruct (accounts (ma_tenant s) !! v).
  - destruct (try_idle_accounts d u s) as (s1 & H1 & E1). destruct (IH s1) as (l & s2 & H2 & Hl & E2).
    simpl. rewrite run_bind, H1, run_bind, H2. eexists _, _. split; [reflexivity|].
    split; [by simpl; rewrite Hl|]. intros v. rewrite E2, E1.
    destruct (decide (u = v)) as [<-|Hv].
    + rewrite lookup_alter_eq. destruct (accounts (ma_tenant s) !! u) as [[]|]; simpl; [|done].
      rewrite (decide_True (P := u ∈ u :: us)) by left. by case_decide.
    + rewrite lookup_alter_ne by done. destruct (accounts (ma_tenant s) !! v); simpl; [|done].
      f_equal. apply decide_ext. rewrite elem_of_cons. naive_solver.
Qed.

(** The daily sweep of a tenant with a threshold always finishes and
    inactivates exactly the idle accounts: active ones not seen for that many
    days, or never.  It has no test for the last super admin: when every active
    super admin is idle, none is left. *)
Theorem idle_sweep_outcome r d s :
  ma_security s = Some r → inactivity_threshold_days r = Some d →
  ∃ us s', inactivate_idle_users issuer seen isoformat s = (Ok us, s') ∧
    (∀ v, accounts (ma_tenant s') !! v =
       (λ a, if idle seen s d (v, a) then set_inactivated true a else a) <$> accounts (ma_tenant s) !! v) ∧
    ((∀ v a, accounts (ma_tenant s) !! v = Some a → active_super_admin a → idle seen s d (v, a) = true) →
     count_active_super_admins (ma_tenant s') = 0).
Proof.
  intros Hr Hd. unfold inactivate_idle_users, idle_process_tenant. run. rewrite Hr. simpl. rewrite Hd. run.
  destruct (idle_loop_accounts d (get_idle_users_for_tenant seen s d) s) as (l & s' & Hl & Hc & E).
  rewrite run_bind, Hl. exists (concat l), s'. split; [done|].
  assert (∀ v a, accounts (ma_tenant s) !! v = Some a →
    v ∈ get_idle_users_for_tenant seen s d ↔ idle seen s d (v, a) = true) as Hin.
  { intros v a Ha. unfold get_idle_users_for_tenant. rewrite list_elem_of_fmap. split.
    - intros ([v' a'] & -> & [Hi Ha']%list_elem_of_filter). apply elem_of_map_to_list in Ha'.
      simpl in *. by simplify_eq.
    - intros Hi. exists (v, a). split; [done|]. apply list_elem_of_filter.
      split; [done|]. by apply elem_of_map_to_list. }
  assert (∀ v, accounts (ma_tenant s') !! v =
       (λ a, if idle seen s d (v, a) then set_inactivated true a else a) <$> accounts (ma_tenant s) !! v) as E'.
  { intros v. rewrite E. destruct (accounts (ma_tenant s) !! v) as [a|] eqn:Ha; [|done]. simpl. f_equal.
    pose proof (Hin v a Ha) as Hva. destruct (idle seen s d (v, a)).
    - rewrite decide_True; [done|]. by apply Hva.
    - rewrite decide_False; [done|]. by intros ?%Hva. }
  split; [done|]. intros Hall. unfold count_active_super_admins. apply map_size_empty_iff, map_empty.
  intros v. apply map_lookup_filter_None. right. intros a Hv [Hs Hi]. simpl in Hs, Hi. rewrite E' in Hv.
  destruct (accounts (ma_tenant s) !! v) as [b|] eqn:Hb; [|done]. simpl in Hv.
  destruct (idle seen s d (v, b)) eqn:Hidle; injection Hv as <-; [done|].
  rewrite Hall in Hidle; done.
Qed.
End jobs.
