(* ===== verification/MailFindings.v ===== *)
(** * Links that open too much or too little

    An already verified address hands out its set-password link to anyone, and
    the form behind it replaces an existing password; a recovery link is
    refused when the account has ever changed its password and can be used
    again when it has not; where a validated redirect may lead. *)

From stdpp Require Import gmap strings.
From S2P Require Import Prelude GroupDb GroupService Sha256 OAuthDb OAuthService UserLifecycle OAuthTokens MailDb MailService MailProofs Tokens TokenProofs PasswordStrength Credentials MailHistory CredentialProofs.
#[local] Open Scope Z_scope.

Section redirects.

(** A target is accepted exactly when it starts with one slash that is
    followed by neither a slash nor, anywhere, a backslash or a control
    character, is not too long and has no scheme separator; so the final test
    with [urlsplit] never refuses anything, and a redirect stays on the site. *)
Theorem safe_path_exact target :
  (is_safe_path target = true ↔
   py_len target <= MAX_TARGET_LEN ∧ contains "://" target = false ∧
   ∃ rest, chars target = slash :: rest ∧ head rest ≠ Some slash ∧
     Forall (λ c, is_control c = false ∧ c ≠ backslash) rest) ∧
  ∃ rest, chars (safe_path target DEFAULT_TARGET) = slash :: rest ∧ head rest ≠ Some slash ∧
    Forall (λ c, is_control c = false ∧ c ≠ backslash) rest.
Proof.
  assert (is_safe_path target = true ↔
   py_len target <= MAX_TARGET_LEN ∧ contains "://" target = false ∧
   ∃ rest, chars target = slash :: rest ∧ head rest ≠ Some slash ∧
     Forall (λ c, is_control c = false ∧ c ≠ backslash) rest) as E.
  { unfold is_safe_path.
    rewrite !andb_true_iff, !bool_decide_eq_true, Z.leb_le, !negb_true_iff, forallb_forall.
    assert (target ≠ "" ↔ chars target ≠ []) as ->.
    { split; intros Hn E; apply Hn; [by apply chars_inj|by rewrite E]. }
    destruct (chars target) as [|c l] eqn:Hc.
    { split; [by intros [[[[[[[? _] _] _] _] _] _] _]|by intros (_ & _ & rest & ? & _)]. }
    split.
    - intros [[[[[[[_ Hl] H1] H2] Hb] Hctl] Hs] _]. split; [done|]. split; [done|].
      injection H1 as ->. exists l. split; [done|]. split.
      + intros Hh. apply H2. destruct l; simpl in *; by simplify_eq.
      + apply Forall_forall. intros x Hx. split.
        * apply negb_true_iff, Hctl, list_elem_of_In. by right.
        * intros ->. apply Hb. by right.
    - intros (Hl & Hs & rest & [= -> ->] & Hh & Hall). rewrite Forall_forall in Hall. split_and!; try done.
      + destruct rest; simpl in *; [done|]. intros [= ->]. done.
      + intros [?|Hb]%elem_of_cons; [done|]. by destruct (Hall _ Hb).
      + intros x [->|Hx%Hall]%list_elem_of_In%elem_of_cons; [done|]. apply negb_true_iff. by destruct Hx.
      + unfold has_scheme_or_netloc. apply orb_false_iff. split; [done|].
        apply bool_decide_eq_false. destruct rest; simpl in *; [done|]. intros [= ->]. done. }
  split; [exact E|]. unfold safe_path. destruct (is_safe_path target) eqn:Hsafe.
  - by destruct (proj1 E eq_refl) as (_ & _ & ?).
  - eexists. split; [reflexivity|]. split; [done|]. repeat constructor; done.
Qed.
End redirects.

Section links.
Context `{MailIds} `{Nonces} `{UuidText} `{UuidParse} `{Zxcvbn} `{Hibp} `{Argon2Hash}
  `{Argon2Verify} `{DatetimeText}.
Context (token_key hibp_key : list Z).
Implicit Types s : mail.

(** C31. Anyone who knows the id of a verified address of an account without a
    SAML provider can set its password: the verification page answers any
    guess of the nonce with the link of the set-password form, and the form
    replaces the password whether or not the account already has one (the
    fields being within the bounds of the form). *)
Theorem verified_address_opens_password guess pw s i email user :
  ma_emails s !! i = Some email → is_Some (em_verified_at email) →
  get_user_row s (em_user email) = Some user → ur_saml_idp_id user = None →
  uuid_of_text (uuid_text i) = Some i →
  is_safe_path (set_password_url (uuid_text i) (em_set_password_nonce email)) = true →
  validate_password (ma_clock s) pw (_get_policy s).1 (_get_policy s).2 (Some (ur_role user))
    [em_email email] = Ok [] →
  py_len (uuid_text i) <= 50 → py_len (em_set_password_nonce email) <= 100 → py_len pw <= 255 →
  let nonce := em_set_password_nonce email in
  verify_email_public (uuid_text i) guess s =
    (Ok (redirect (set_password_url (uuid_text i) nonce)), s) ∧
  ∃ m mailed s', set_password token_key hibp_key (uuid_text i) nonce pw pw s =
    (Ok (mfa_pending (em_user email) m mailed), s') ∧
    ma_logins s' = alter (new_credentials hibp_key s pw (_get_policy s)) (em_user email) (ma_logins s).
Proof.
  intros Hi Hv Hu Hsaml Hid Hsafe Hpw L1 L2 L3 nonce'. split.
  - unfold verify_email_public, parse_id, get_email_for_verification.
    rewrite run_some_or_bind, Hid, run_gets_bind, Hi, decide_True by done. rewrite run_gets. do 2 f_equal.
    unfold after_verification. rewrite Hu. simpl. rewrite Hsaml. unfold safe_redirect, safe_path.
    by rewrite Hsafe.
  - unfold set_password, parse_id, get_email_for_verification, open_set_password.
    rewrite (proj2 (fits_spec _)) by (repeat constructor; done). cbn [negb].
    rewrite run_some_or_bind, Hid, run_gets_bind, Hi. destruct (em_verified_at email) as [t|]; [|by destruct Hv].
    rewrite decide_False by done. rewrite decide_False by auto. rewrite Hu. simpl. rewrite Hsaml.
    rewrite decide_False by auto. rewrite !run_gets_bind, run_lift_bind, Hpw.
    unfold finish_set_password. rewrite run_bind, run_store_password.
    unfold regenerate_set_password_nonce, draw, update_email. run.
    rewrite Hi. simpl. destruct (_get_policy s).
    case_decide; do 3 eexists; (split; [reflexivity|done]).
Qed.

(** A recovery link that was made at time [t] for a row of the reset query. *)
Definition recovery_token (t : Z) (r : reset_row) : string :=
  generate_url_token token_key t (uuid_text (rr_user_id r)) PURPOSE_ACCOUNT_RECOVERY
    (Some (recovery_state (rr_password_changed_at r) (rr_is_inactivated r))).
Definition recovery_mac (u : uuid) (t : Z) (state : string) : string :=
  _compute_url_hmac token_key (uuid_text u) PURPOSE_ACCOUNT_RECOVERY t (Some state).

(** Ids print as ASCII without a dot and are read back. *)
Definition readable (u : uuid) : Prop :=
  is_ascii (uuid_text u) = true ∧ dot ∉ chars (uuid_text u) ∧ uuid_text u ≠ "" ∧
  uuid_of_text (uuid_text u) = Some u.

Lemma run_validate_recovery t r s user :
  readable (rr_user_id r) → 0 <= t → unix_time s - t <= _RECOVERY_TTL →
  get_user_row s (rr_user_id r) = Some user →
  ∃ result, validate_recovery_token token_key (recovery_token t r) s =
    (Ok (if decide (recovery_mac (rr_user_id r) t
                      (recovery_state (rr_password_changed_at r) (rr_is_inactivated r)) =
                    recovery_mac (rr_user_id r) t (recovery_state None (ur_is_inactivated user)))
         then Some result else None), s) ∧
    tr_user result = rr_user_id r ∧ tr_is_inactivated result = ur_is_inactivated user.
Proof.
  intros (Ha & Hd & Hne & Hid) Ht Httl Hu. eexists (mk_token_result _ _ _ _ _ _). split; [|by split].
  unfold validate_recovery_token, validate_token, extract_user_id_from_url_token, recovery_token.
  rewrite decode_generated by done. simpl. rewrite decide_False by done. unfold parse_id. run.
  rewrite Hid. run. rewrite Hu. run. rewrite run_verify_generated by done.
  assert (_RECOVERY_TTL <? unix_time s - t = false) as -> by (apply Z.ltb_ge; lia).
  unfold recovery_mac, recovery_state, row_password_changed_at, changed_at_text. simpl.
  destruct (decide (_ = _)); by run.
Qed.

(** The link of an account that has ever changed its password is refused,
    in every state that knows the account as active, unless two different
    states have the same signature: the link is signed over the time of the
    change, and checked against a row that does not have it. *)
Theorem recovery_link_refused t r c s user pw :
  readable (rr_user_id r) → 0 <= t → unix_time s - t <= _RECOVERY_TTL →
  rr_password_changed_at r = Some c →
  get_user_row s (rr_user_id r) = Some user →
  recovery_mac (rr_user_id r) t (recovery_state (Some c) (rr_is_inactivated r)) ≠
  recovery_mac (rr_user_id r) t (recovery_state None (ur_is_inactivated user)) →
  py_len pw <= 255 →
  account_recovery_page token_key (recovery_token t r) s = (Ok invalid_link, s) ∧
  account_recovery_submit token_key hibp_key (recovery_token t r) pw pw s = (Ok invalid_link, s).
Proof.
  intros Hr Ht Httl Hc Hu Hmac Hlen.
  destruct (run_validate_recovery t r s user Hr Ht Httl Hu) as (res & Hv & _).
  rewrite Hc, decide_False in Hv by done.
  unfold account_recovery_page, account_recovery_submit.
  rewrite (proj2 (fits_spec _)) by (repeat constructor; done). cbn [negb]. by rewrite !run_bind, Hv.
Qed.

(** A new password keeps what the recovery pages look at. *)
Lemma password_set_row s s' u pw user : password_set hibp_key s s' u pw →
  get_user_row s u = Some user → ∃ user', get_user_row s' u = Some user' ∧
    ur_role user' = ur_role user ∧ ur_is_inactivated user' = ur_is_inactivated user.
Proof.
  intros [Hl _ _ Ha]. unfold get_user_row. rewrite Ha, Hl, lookup_alter_eq.
  intros (a & -> & (l & -> & [= <-])%bind_Some)%bind_Some. simpl. by eexists.
Qed.

Lemma run_submit_new_password token res pw b s s1 : family_ok (ma_tenant s) →
  submit_new_password hibp_key token res pw b s = (Ok (redirect "/login?success=password_reset"), s1) →
  password_set hibp_key s s1 (tr_user res) pw ∧ tokens_gone (eq (tr_user res)) (ma_tenant s) (ma_tenant s1).
Proof.
  intros Ht. unfold submit_new_password.
  destruct (run_self_service hibp_key (tr_user res) pw s Ht) as [[_ (s' & -> & Hp & Hg)]|[_ [e ->]]].
  - by intros [= <-].
  - by destruct e as [[]| | | |].
Qed.

(** The link of an account that never changed its password is not used
    up: after it set a password it sets another one, for as long as it lives. *)
Theorem recovery_link_reusable t r s user pw1 pw2 s1 :
  family_ok (ma_tenant s) → readable (rr_user_id r) → 0 <= t → unix_time s - t <= _RECOVERY_TTL →
  rr_password_changed_at r = None → rr_is_inactivated r = false →
  get_user_row s (rr_user_id r) = Some user → ur_is_inactivated user = false →
  account_recovery_submit token_key hibp_key (recovery_token t r) pw1 pw1 s =
    (Ok (redirect "/login?success=password_reset"), s1) →
  acceptable s1 (rr_user_id r) (ur_role user) pw2 → py_len pw2 <= 255 →
  ∃ s2, account_recovery_submit token_key hibp_key (recovery_token t r) pw2 pw2 s1 =
    (Ok (redirect "/login?success=password_reset"), s2) ∧
    password_set hibp_key s1 s2 (rr_user_id r) pw2.
Proof.
  intros Hf Hr Ht Httl Hc Hin Hu Hact Hrun Hok Hlen.
  destruct (run_validate_recovery t r s user Hr Ht Httl Hu) as (res & Hv & Hres & Hri).
  rewrite Hc, Hin, Hact, decide_True in Hv by done. rewrite Hact in Hri.
  unfold account_recovery_submit in Hrun |- *.
  rewrite (proj2 (fits_spec _)) by (repeat constructor; done). destruct (fits _); [|done]. cbn [negb] in Hrun |- *.
  rewrite run_bind, Hv, Hri, decide_False in Hrun by auto.
  apply run_submit_new_password in Hrun as [Hp Hg]; [|done]. rewrite Hres in Hp, Hg.
  destruct (password_set_row _ _ _ _ _ Hp Hu) as (user' & Hu' & Hrole & Hact'). rewrite Hact in Hact'.
  assert (unix_time s1 = unix_time s) as Htime.
  { unfold unix_time, ma_clock. by rewrite (tg_clock _ _ _ Hg). }
  destruct (run_validate_recovery t r s1 user' Hr Ht) as (res' & Hv' & Hres' & Hri'); [by rewrite Htime|done|].
  rewrite Hc, Hin, Hact', decide_True in Hv' by done. rewrite Hact' in Hri'.
  rewrite run_bind, Hv', Hri', decide_False by auto. unfold submit_new_password. rewrite Hres'.
  destruct (run_self_service hibp_key (rr_user_id r) pw2 s1) as [[_ (s2 & -> & Hp2 & _)]|[Hno _]].
  - by eapply tokens_gone_family.
  - by eexists.
  - destruct Hno. exists user'. by rewrite Hrole.
Qed.
End links.
