(* ===== verification/MailWitness.v ===== *)
(** * The mail and password theorems at work

    Each theorem with hypotheses applied to one small tenant, so that its
    hypotheses are seen to hold together. *)

From stdpp Require Import gmap strings pretty.
From S2P Require Import Prelude GroupDb GroupService Sha256 OAuthDb OAuthService UserLifecycle OAuthTokens UserProofs MailDb MailService MailProofs Tokens TokenProofs PasswordStrength Credentials SecuritySettings Jobs MailHistory CredentialProofs JobProofs MailFindings.
#[local] Open Scope Z_scope.

Module MailDemo.
#[export] Instance demo_mail_ids : MailIds := λ s, Pos.succ (Pos.max (top (ma_emails s))
  (Pos.max (top (ma_domains s)) (top (ma_links s)))).
#[export] Instance demo_nonces : Nonces := λ n, "n" +:+ pretty n.
#[export] Instance demo_uuid_text : UuidText := λ u, pretty (Npos u).
#[export] Instance demo_uuid_parse : UuidParse := λ t,
  match py_int t with Some (Zpos p) => Some p | _ => None end.
#[export] Instance demo_zxcvbn : Zxcvbn := λ _ _, Ok 4.
#[export] Instance demo_hibp : Hibp := λ _ _, None.
Definition dollar : Ascii.ascii := Ascii.ascii_of_nat 36.
#[export] Instance demo_argon2_hash : Argon2Hash := λ salt pw, salt +:+ "$" +:+ pw.
#[export] Instance demo_argon2_verify : Argon2Verify := λ h pw,
  Ok (bool_decide ((partition dollar h).2 = pw)).
#[export] Instance demo_datetime : DatetimeText := λ t, pretty t.

Lemma nonce_inj j k : nonce j = nonce k → j = k.
Proof. intros E. by apply string_app_inj, pretty_nat_inj in E. Qed.

Definition key : list Z := [107; 101; 121].

(** 1 is the super admin, 2 a member with a token. *)
Definition people : tenant :=
  mk_tenant (mk_db ∅ ∅ ∅ ∅ {[1; 2]}%positive ∅ ∅ ∅ [] []) (100 * 86400 * 1000000) ∅ ∅
    {[7%positive := mk_token "h" "l" access 1 2 0 0 None None None None]} ∅ ∅ ∅ [] ∅ ∅
    {[1%positive := mk_account super_admin false false; 2%positive := mk_account member false false]}.
Definition row (u : uuid) (email : string) (primary : bool) (at_ : option Z) (n : nat) : email_row :=
  mk_email u email primary at_ (nonce n) (nonce (S n)) 0 (email_domain email).
Definition login (hash : option string) (at_ : option Z) (p : option (Z * Z)) : login_row :=
  mk_login "A" "B" hash at_ false None None p false (Some "email") None.
Definition demo : mail :=
  mk_mail people 6
    {[1%positive := login (Some "s$boss-password-1") (Some 1000) (Some (14, 3));
      2%positive := login (Some "s$old-password-22") None (Some (8, 3))]}
    {[10%positive := row 2 "b@x.org" true (Some 0) 0;
      11%positive := row 2 "b@y.org" false None 2;
      12%positive := row 1 "a@x.org" true (Some 0) 4]}
    ∅ ∅ ∅ ∅
    (Some (mk_security None true true (Some 30) 10 90 14 3 "all" false "baseline")).
Definition boss : requesting_user := {| ru_id := 1; ru_role := super_admin |}.
Definition ann : requesting_user := {| ru_id := 2; ru_role := member |}.

Definition mail_check (s : mail) : bool :=
  let E := ma_emails s in
  let drawn_list := nonce <$> seq 0 (ma_draws s) in
  bool_decide (map_Forall (λ i r, map_Forall (λ j q,
    (same_email (em_email r) (em_email q) = true → i = j) ∧
    (em_user r = em_user q → em_is_primary r = true → em_is_primary q = true → i = j)) E) E) &&
  bool_decide (map_Forall (λ _ r, em_verify_nonce r ∈ drawn_list ∧ em_set_password_nonce r ∈ drawn_list) E).
Lemma mail_check_ok s : mail_check s = true → mail_ok s.
Proof.
  unfold mail_check. intros [H1%bool_decide_eq_true H2%bool_decide_eq_true]%andb_true_iff.
  assert (∀ x, x ∈ nonce <$> seq 0 (ma_draws s) → drawn (ma_draws s) x) as Hd.
  { intros x (k & -> & Hk%elem_of_seq)%list_elem_of_fmap. exists k. split; [lia|done]. }
  split; try done.
  - intros i j r q Hi Hj. by apply (H1 i r Hi j q Hj).
  - intros i j r q Hi Hj. by apply (H1 i r Hi j q Hj).
  - intros i r Hi. destruct (H2 i r Hi). auto.
Qed.
Lemma demo_ok : mail_ok demo.
Proof. apply mail_check_ok. vm_compute. reflexivity. Qed.
Lemma demo_family : family_ok people.
Proof.
  unfold family_ok, people. cbn [tokens]. split.
  - intros x r p [<- <-]%lookup_singleton_Some Hp. discriminate.
  - intros x y r q [<- _]%lookup_singleton_Some [<- _]%lookup_singleton_Some. done.
Qed.
End MailDemo.
Import MailDemo.

Ltac computed := vm_compute; reflexivity.
Ltac decided :=
  match goal with
  | |- ?P =>
      let D := constr:(_ : Decision P) in
      apply (proj1 (@bool_decide_eq_true P D)); computed
  end.

Lemma url_token_roundtrip_witness :
  dot ∉ chars "u-1" ∧
  verify_url_token key 50 (generate_url_token key 20 "u-1" "p" None) "p" 1800 None = Ok (Some "u-1").
Proof.
  assert (dot ∉ chars "u-1") as Hd by decided.
  split; [exact Hd|]. apply (url_token_roundtrip key 50 "u-1" "p" 20 1800 None); [computed|exact Hd|lia].
Defined.

Lemma primary_address_kept_witness :
  has_primary (ma_emails (run_mail "iss" pretty 9 key key
    [DeleteEmail ann 2 10; SetPrimary ann 2 11; VerifyEmail 11 2 "n2"; SetPrimary ann 2 11;
     DeleteEmail ann 2 10; AddEmail ann 2 "c@x.org" false] demo)) 2 ∧
  get_primary_email (run_mail "iss" pretty 9 key key
    [DeleteEmail ann 2 10; SetPrimary ann 2 11; VerifyEmail 11 2 "n2"; SetPrimary ann 2 11;
     DeleteEmail ann 2 10; AddEmail ann 2 "c@x.org" false] demo) 2 = Some "b@y.org".
Proof.
  split; [|computed]. refine (proj2 (proj2 (primary_address_kept "iss" pretty 9 key key _ demo 2
    nonce_inj demo_ok _))).
  eexists 10%positive, _. split; [reflexivity|]. split; reflexivity.
Defined.

Lemma verification_link_once_witness :
  let s1 := (verify_email_by_nonce 11 "n2" demo).2 in
  let s2 := run_mail "iss" pretty 9 key key [ResendInvitation boss 2] s1 in
  verify_email_by_nonce 11 "n2" s2 = (Ok false, s2).
Proof.
  apply (verification_link_once "iss" pretty 9 key key [ResendInvitation boss 2] demo 11 "n2" _
    nonce_inj demo_ok). computed.
Defined.

Abbreviation opened := (set_password key key "10" "n1" "a-new-password-1" "a-new-password-1" demo).
Lemma set_password_link_once_witness :
  ∃ url, set_password key key "10" "n1" "another-password" "another-password"
           (run_mail "iss" pretty 9 key key [VerifyPublic "10" "guess"] opened.2) =
         (Ok (redirect url), run_mail "iss" pretty 9 key key [VerifyPublic "10" "guess"] opened.2).
Proof.
  destruct opened as [r s1] eqn:E.
  assert (∃ u m x, r = Ok (mfa_pending u m x)) as (u & m & x & Hr).
  { assert (r = opened.1) as -> by (by rewrite E). vm_compute. by eexists _, _, _. }
  subst r. exact (set_password_link_once "iss" pretty 9 key key [VerifyPublic "10" "guess"] demo "10" "n1"
    _ _ u m x s1 "another-password" nonce_inj demo_ok E ltac:(by vm_compute)).
Defined.

Lemma self_service_reset_outcome_witness :
  ∃ s', complete_self_service_password_reset key 2 "a-new-password-1" demo = (Ok (), s') ∧
    tokens (ma_tenant demo) !! 7%positive ≠ None ∧ tokens (ma_tenant s') !! 7%positive = None.
Proof.
  destruct (self_service_reset_outcome key 2 "a-new-password-1" demo demo_family) as [Hok _].
  destruct Hok as (s' & Hr & _ & Hg).
  { eexists. split; [reflexivity|]. vm_compute. reflexivity. }
  exists s'. split; [exact Hr|]. split; [discriminate|].
  destruct (tokens (ma_tenant s') !! 7%positive) as [k|] eqn:Hk; [exfalso|reflexivity].
  apply (tg_tokens _ _ _ Hg) in Hk as [Hk Hu].
  assert (tk_user k = 2%positive) as Htk by (vm_compute in Hk; injection Hk as <-; reflexivity).
  apply Hu. rewrite Htk. reflexivity.
Defined.

Definition stronger : settings_update :=
  mk_settings_update None None None None None None (Some 16) None None None None.
Lemma tightened_policy_enforced_witness :
  ∃ r s', update_security_settings 9 boss stronger demo = (Ok r, s') ∧
    (∃ l, ma_logins s' !! 2%positive = Some l ∧ lo_password_reset_required l = true) ∧
    tokens (ma_tenant s') !! 7%positive = None.
Proof.
  destruct (update_security_settings 9 boss stronger demo) as [[r|e] s'] eqn:E.
  2:{ assert (Raise e = (update_security_settings 9 boss stronger demo).1) as He by (by rewrite E).
      vm_compute in He. discriminate. }
  assert (minimum_password_length r = 16) as Hr.
  { assert (Ok r = (update_security_settings 9 boss stronger demo).1) as He by (by rewrite E).
    vm_compute in He. injection He as ->. reflexivity. }
  destruct (tightened_policy_enforced 9 boss stronger demo r s' demo_family E) as [Hl Hg].
  { left. rewrite Hr. computed. }
  assert (set_under_weaker demo (minimum_password_length r) (minimum_zxcvbn_score r) 2) as Hw.
  { rewrite Hr. eexists _, _, _. split; [reflexivity|]. split; [reflexivity|]. split; [by eexists|].
    split; [reflexivity|]. split; [reflexivity|]. split; [reflexivity|]. left. computed. }
  exists r, s'. split; [reflexivity|]. split.
  - eexists. split; [exact (proj1 (Hl 2%positive _ eq_refl) Hw)|reflexivity].
  - destruct (tokens (ma_tenant s') !! 7%positive) as [k|] eqn:Hk; [exfalso|reflexivity].
    apply (tg_tokens _ _ _ Hg) in Hk as [Hk Hu].
    assert (tk_user k = 2%positive) as Htk by (vm_compute in Hk; injection Hk as <-; reflexivity).
    apply Hu. rewrite Htk. exact Hw.
Defined.

Lemma bulk_inactivation_outcome_witness :
  ∃ ds s', handle_bulk_inactivate_users "iss" 3 ["2"; "1"; "5"] demo = (Ok ds, s') ∧
    has_super_admin (ma_tenant s') ∧ jd_status <$> ds = [job_done; job_skipped; job_error].
Proof.
  assert (has_super_admin (ma_tenant demo)) as Hs by (vm_compute; lia).
  destruct (bulk_inactivation_outcome "iss" 3 ["2"; "1"; "5"] demo Hs) as (ds & s' & Hr & _ & Hs' & _).
  exists ds, s'. split; [exact Hr|]. split; [exact Hs'|].
  assert (Ok ds = (handle_bulk_inactivate_users "iss" 3 ["2"; "1"; "5"] demo).1) as He by (by rewrite Hr).
  vm_compute in He. injection He as ->. reflexivity.
Defined.

(** The super admin was not seen for 31 days. *)
Definition seen : gmap uuid Z :=
  {[1%positive := 69 * 86400 * 1000000; 2%positive := 99 * 86400 * 1000000]}.
Lemma idle_sweep_outcome_witness :
  ∃ us s', inactivate_idle_users "iss" seen pretty demo = (Ok us, s') ∧
    count_active_super_admins (ma_tenant demo) = 1%nat ∧ count_active_super_admins (ma_tenant s') = 0%nat.
Proof.
  destruct (idle_sweep_outcome "iss" seen pretty _ 30 demo eq_refl eq_refl) as (us & s' & Hr & _ & Hz).
  exists us, s'. split; [exact Hr|]. split; [computed|]. apply Hz.
  intros v a Hv [Hs _]. unfold demo, people in Hv. cbn [ma_tenant accounts] in Hv. apply lookup_insert_Some in Hv as [[<- <-]|[_ [<- <-]%lookup_singleton_Some]].
  - computed.
  - discriminate.
Defined.

Lemma verified_address_opens_password_witness :
  get_password_hash demo 2 = Some "s$old-password-22" ∧
  verify_email_public "10" "no-idea" demo = (Ok (redirect "/set-password?email_id=10&nonce=n1"), demo) ∧
  ∃ m mailed s', set_password key key "10" "n1" "chosen-by-others" "chosen-by-others" demo =
    (Ok (mfa_pending 2 m mailed), s') ∧
    get_password_hash s' 2 = Some "n6$chosen-by-others".
Proof.
  split; [reflexivity|].
  destruct (verified_address_opens_password key key "no-idea" "chosen-by-others" demo 10
    (row 2 "b@x.org" true (Some 0) 0) (mk_user "A" "B" member false false None None true false false (Some "email")))
    as [H1 (m & mailed & s' & H2 & H3)]; [reflexivity|by eexists|reflexivity|reflexivity|computed|computed|computed|by vm_compute|by vm_compute|by vm_compute|].
  split; [exact H1|]. exists m, mailed, s'. split; [exact H2|].
  unfold get_password_hash. rewrite H3. computed.
Defined.

(** The links mailed to the two accounts a minute ago. *)
Definition minute_ago : Z := 100 * 86400 - 60.
Definition boss_row : reset_row := mk_reset 1 (Some 1000) true false None.
Definition ann_row : reset_row := mk_reset 2 None true false None.
Lemma demo_readable u : u = 1%positive ∨ u = 2%positive → readable u.
Proof.
  intros [-> | ->]; (split; [computed|]; split; [decided|];
    split; [by vm_compute|computed]).
Qed.

Lemma recovery_link_refused_witness :
  get_user_by_email_for_reset demo "a@x.org" = Some boss_row ∧
  account_recovery_submit key key (recovery_token key minute_ago boss_row) "pw" "pw" demo =
    (Ok invalid_link, demo).
Proof.
  split; [computed|].
  apply (recovery_link_refused key key minute_ago boss_row 1000 demo
    (mk_user "A" "B" super_admin false false None None true false false (Some "email")) "pw").
  - apply demo_readable. by left.
  - by vm_compute.
  - by vm_compute.
  - reflexivity.
  - reflexivity.
  - vm_compute. discriminate.
  - by vm_compute.
Defined.

Abbreviation once := (account_recovery_submit key key (recovery_token key minute_ago ann_row)
  "first-password-1" "first-password-1" demo).
Lemma recovery_link_reusable_witness :
  get_user_by_email_for_reset demo "b@x.org" = Some ann_row ∧
  ∃ s2, account_recovery_submit key key (recovery_token key minute_ago ann_row)
    "second-password-2" "second-password-2" once.2 =
    (Ok (redirect "/login?success=password_reset"), s2) ∧
    get_password_hash s2 2 = Some "n7$second-password-2".
Proof.
  split; [computed|].
  assert (once = (Ok (redirect "/login?success=password_reset"), once.2)) as Honce.
  { rewrite (surjective_pairing once) at 1. apply (f_equal2 pair); [computed|reflexivity]. }
  destruct (recovery_link_reusable key key minute_ago ann_row demo
    (mk_user "A" "B" member false false None None true false false (Some "email"))
    "first-password-1" "second-password-2" once.2) as (s2 & Hr & Hp).
  - exact demo_family.
  - apply demo_readable. by right.
  - by vm_compute.
  - by vm_compute.
  - reflexivity.
  - reflexivity.
  - reflexivity.
  - reflexivity.
  - exact Honce.
  - computed.
  - by vm_compute.
  - exists s2. split; [exact Hr|]. unfold get_password_hash. rewrite (ps_logins _ _ _ _ _ Hp). computed.
Defined.
