(* ===== verification/MfaDb.v ===== *)
(** * Second factors

    The statements of app/database/mfa.py, the calls of app/services/mfa.py and the functions of
    app/utils/mfa.py.  [factors] adds to [mail] the tables mfa_totp and
    mfa_backup_codes, the credentials of webauthn_credentials (only whose they
    are), what a sign-in writes to a user's row, and who asked to be
    reactivated or was refused.  TOTP, the cipher of stored secrets and the
    random generators are arguments; [fa_draws] counts what was drawn. *)

From stdpp Require Import gmap strings.
From S2P Require Import Prelude GroupDb Sha256 OAuthDb MailDb MailService Tokens PasswordStrength SecuritySettings.
#[local] Open Scope Z_scope.

Record totp_row := mk_totp {
  tt_secret_encrypted : string;
  tt_verified_at : option Z;
}.
Record backup_row := mk_backup {
  bc_user : uuid;
  bc_code_hash : string;
  bc_used_at : option Z;
  bc_created_at : Z;
}.
Record profile_row := mk_profile {
  pr_tz : option string;
  pr_locale : option string;
  pr_last_login : option Z;
}.

Record factors := mk_factors {
  fa_mail : mail;
  fa_draws : nat;
  fa_totp : gmap (uuid * string) totp_row;        (* unique (user_id, method) *)
  fa_backup : gmap uuid backup_row;
  fa_passkeys : gmap uuid uuid;                   (* credential to user *)
  fa_profiles : gmap uuid profile_row;
  fa_denied : gset uuid;                          (* reactivation_denied_at is set *)
  fa_requests : gset uuid;                        (* a reactivation request is open *)
}.
Definition fa_logins (s : factors) : gmap uuid login_row := ma_logins (fa_mail s).
Definition fa_clock (s : factors) : Z := ma_clock (fa_mail s).

Section setters.
Implicit Types s : factors.
Definition set_mail f s := mk_factors (f (fa_mail s)) (fa_draws s) (fa_totp s) (fa_backup s)
  (fa_passkeys s) (fa_profiles s) (fa_denied s) (fa_requests s).
Definition set_fa_draws f s := mk_factors (fa_mail s) (f (fa_draws s)) (fa_totp s) (fa_backup s)
  (fa_passkeys s) (fa_profiles s) (fa_denied s) (fa_requests s).
Definition set_totp f s := mk_factors (fa_mail s) (fa_draws s) (f (fa_totp s)) (fa_backup s)
  (fa_passkeys s) (fa_profiles s) (fa_denied s) (fa_requests s).
Definition set_backup f s := mk_factors (fa_mail s) (fa_draws s) (fa_totp s) (f (fa_backup s))
  (fa_passkeys s) (fa_profiles s) (fa_denied s) (fa_requests s).
Definition set_profiles f s := mk_factors (fa_mail s) (fa_draws s) (fa_totp s) (fa_backup s)
  (fa_passkeys s) (f (fa_profiles s)) (fa_denied s) (fa_requests s).
End setters.

(** A call of the mail and password code. *)
Definition in_mail {A} (m : M mail A) : M factors A :=
  λ s, let '(r, t) := m (fa_mail s) in (r, set_mail (λ _, t) s).
Definition mfa_log (actor : option uuid) (u : uuid) (name : string) (md : list (string * meta)) :
    M factors () := in_mail (log_user actor u name md).

(** [secrets.token_hex(4)], [pyotp.random_base32()], [pyotp.TOTP(secret)
    .verify(code, valid_window=1)] at a time, [provisioning_uri]; the cipher,
    which draws an initialisation vector; row ids. *)
Class TokenHex := token_hex4 : nat → string.
Class Pyotp := {
  random_base32 : nat → string;
  totp_verify : string → string → Z → bool;       (* secret, code, seconds *)
  provisioning_uri : string → string → string → string;  (* secret, name, issuer *)
}.
Class Fernet := {
  fernet_encrypt : nat → string → string;
  fernet_decrypt : string → option string;        (* [None]: InvalidToken *)
}.
Class FernetLaws `{Fernet} := fernet_roundtrip n x : fernet_decrypt (fernet_encrypt n x) = Some x.
Class FactorIds := factor_id : factors → uuid.
Class FactorIdsLaws `{FactorIds} := factor_id_fresh s : fa_backup s !! factor_id s = None.

Definition draw_nat : M factors nat := update (λ s, (fa_draws s, set_fa_draws S s)).

(** ** database/mfa.py *)

Section database.
Context `{FactorIds}.
Implicit Types s : factors.

Definition user_known s (u : uuid) : bool := bool_decide (is_Some (accounts (ma_tenant (fa_mail s)) !! u)).

(** The check of the column. *)
Definition mfa_methods : list string := ["passcode"; "totp"; "email"].
Definition set_method (u : uuid) (method : string) (f : login_row → login_row) : M factors nat :=
  s ← gets id;
  _ ← raise_if (bool_decide (is_Some (fa_logins s !! u) ∧ method ∉ mfa_methods))
        (IntegrityError "users_mfa_method_check");
  in_mail (update_login u f).
Definition enable_mfa (u : uuid) (method : string) : M factors nat :=
  set_method u method (with_mfa true (Some method)).
Definition set_mfa_method (u : uuid) (method : string) : M factors nat :=
  set_method u method (λ l, with_mfa (lo_mfa_enabled l) (Some method) l).

(** [on conflict (user_id, method) do update]: a new secret is unverified. *)
Definition create_totp_secret (u : uuid) (secret_encrypted : string) : M factors nat :=
  s ← gets id;
  _ ← raise_if (negb (user_known s u)) (IntegrityError "fk_mfa_totp_user_tenant");
  _ ← raise_if (bool_decide (16000 < py_len secret_encrypted))
        (IntegrityError "chk_mfa_totp_secret_enc_length");
  _ ← modify (set_totp (insert (u, "totp") (mk_totp secret_encrypted None)));
  mret 1%nat.
Definition db_get_totp_secret s (u : uuid) (method : string) : option string :=
  tt_secret_encrypted <$> fa_totp s !! (u, method).
Definition get_verified_totp_secret s (u : uuid) (method : string) : option string :=
  r ← fa_totp s !! (u, method); _ ← tt_verified_at r; Some (tt_secret_encrypted r).
Definition verify_totp_secret (u : uuid) (method : string) : M factors nat :=
  update (λ s, ((if decide (is_Some (fa_totp s !! (u, method))) then 1%nat else 0%nat),
    set_totp (alter (λ r, mk_totp (tt_secret_encrypted r) (Some (fa_clock s))) (u, method)) s)).
Definition delete_totp_secrets (u : uuid) : M factors nat :=
  update (λ s, (size (filter (λ kv : uuid * string * totp_row, kv.1.1 = u) (fa_totp s)),
    set_totp (filter (λ kv : uuid * string * totp_row, kv.1.1 ≠ u)) s)).

(** [order by created_at asc]. *)
Definition earlier_code (x y : uuid * backup_row) : Prop := bc_created_at x.2 <= bc_created_at y.2.
#[export] Instance earlier_code_dec : RelDecision earlier_code.
Proof. intros x y. unfold earlier_code. apply _. Defined.
Definition codes_of s (u : uuid) : gmap uuid backup_row :=
  filter (λ kv : uuid * backup_row, bc_user kv.2 = u) (fa_backup s).
Definition list_backup_codes s (u : uuid) : list (uuid * backup_row) :=
  merge_sort earlier_code (map_to_list (codes_of s u)).
Definition create_backup_code (u : uuid) (code_hash : string) : M factors nat :=
  s ← gets id;
  _ ← raise_if (negb (user_known s u)) (IntegrityError "fk_mfa_backup_codes_user_tenant");
  _ ← raise_if (bool_decide (512 < py_len code_hash))
        (IntegrityError "chk_mfa_backup_code_hash_length");
  let i := factor_id s in
  _ ← raise_if (bool_decide (is_Some (fa_backup s !! i))) (IntegrityError "mfa_backup_codes_pkey");
  _ ← modify (set_backup (insert i (mk_backup u code_hash None (fa_clock s))));
  mret 1%nat.

(** The two statements of [verify_backup_code], each by itself: the update
    does not look at [used_at] again. *)
Definition unused (u : uuid) (code_hash : string) (r : backup_row) : Prop :=
  bc_user r = u ∧ bc_code_hash r = code_hash ∧ bc_used_at r = None.
#[export] Instance unused_dec u h r : Decision (unused u h r).
Proof. unfold unused. apply _. Defined.
Definition find_unused s (u : uuid) (code_hash : string) : option uuid :=
  fst <$> head (filter (λ kv : uuid * backup_row, unused u code_hash kv.2) (map_to_list (fa_backup s))).
Definition mark_used (i : uuid) : M factors () :=
  modify (λ s, set_backup (alter (λ r, mk_backup (bc_user r) (bc_code_hash r) (Some (fa_clock s))
                                        (bc_created_at r)) i) s).
Definition db_verify_backup_code (u : uuid) (code_hash : string) : M factors bool :=
  found ← gets (λ s, find_unused s u code_hash);
  match found with
  | None => mret false
  | Some i => _ ← mark_used i; mret true
  end.
Definition delete_backup_codes (u : uuid) : M factors nat :=
  update (λ s, (size (codes_of s u),
    set_backup (filter (λ kv : uuid * backup_row, bc_user kv.2 ≠ u)) s)).
Definition delete_all_user_mfa_data (u : uuid) : M factors () :=
  _ ← delete_totp_secrets u; _ ← delete_backup_codes u; mret ().

(** database/webauthn_credentials.py, [count_credentials]. *)
Definition count_credentials s (u : uuid) : nat :=
  size (filter (λ kv : uuid * uuid, kv.2 = u) (fa_passkeys s)).
End database.

(** ** utils/mfa.py *)

Section utils.
Context `{TokenHex} `{Pyotp} `{Fernet} `{UuidText}.
Context (token_key : list Z) (BYPASS_OTP : bool).

Definition generate_totp_secret : M factors string := n ← draw_nat; mret (random_base32 n).
Definition encrypt_secret (secret : string) : M factors string :=
  n ← draw_nat; mret (fernet_encrypt n secret).
Definition decrypt_secret (encrypted_secret : string) : outcome string :=
  match fernet_decrypt encrypted_secret with
  | Some x => Ok x
  | None => Raise (PythonError "InvalidToken")
  end.

Definition verify_totp_code (now : Z) (secret code : string) : bool :=
  (BYPASS_OTP && bool_decide (String.length code = 6%nat) && is_digits code) ||
  totp_verify secret code now.
Definition generate_totp_uri (secret email : string) : string :=
  provisioning_uri secret email "PageLoom".

(** ["-".join(secret[i : i + 4] for i in range(0, len(secret), 4))]. *)
Fixpoint dash_quads (i : nat) (l : list Ascii.ascii) : list Ascii.ascii :=
  match l with
  | [] => []
  | c :: l => match i with
              | 4%nat => Ascii.ascii_of_nat 45 :: c :: dash_quads 1 l
              | _ => c :: dash_quads (S i) l
              end
  end.
Definition format_secret_for_display (secret : string) : string := text_of (dash_quads 0 (chars secret)).

(** [s.replace(c, "")]. *)
Definition remove_char (n : nat) (s : string) : string :=
  text_of (filter (λ c, c ≠ Ascii.ascii_of_nat n) (chars s)).
Definition remove_dashes : string → string := remove_char 45.
(** [code.replace(" ", "").replace("-", "")]. *)
Definition code_clean (code : string) : string := remove_dashes (remove_char 32 code).

(** One iteration of the loop. *)
Definition backup_code : M factors string :=
  n ← draw_nat;
  let code := upper_string (token_hex4 n) in
  mret (String.substring 0 4 code +:+ "-" +:+ String.substring 4 (String.length code - 4) code).
Definition generate_backup_codes (count : nat) : M factors (list string) :=
  for_map (λ _, backup_code) (seq 0 count).
Definition hash_code (code : string) : string := hexdigest (sha256 (bytes_of code)).

Definition verify_backup_code (u : uuid) (code : string) : M factors bool :=
  db_verify_backup_code u (hash_code (remove_dashes (upper_string code))).

Definition fa_time (s : factors) : Z := fa_clock s / 1000000.
Definition create_email_otp (u : uuid) : M factors string :=
  gets (λ s, generate_code token_key (fa_time s) (uuid_text u) PURPOSE_MFA_EMAIL 300 None).
Definition email_otp_ok (now : Z) (u : uuid) (code : string) : outcome bool :=
  verify_code token_key BYPASS_OTP now code (uuid_text u) PURPOSE_MFA_EMAIL 300 1 None.
Definition verify_email_otp (u : uuid) (code : string) : M factors bool :=
  now ← gets fa_time; lift (email_otp_ok now u code).

(** The secret of a verified authenticator. *)
Definition get_totp_secret (u : uuid) (method : string) : M factors (option string) :=
  found ← gets (λ s, get_verified_totp_secret s u method);
  match found with
  | None => mret None
  | Some e => secret ← lift (decrypt_secret e); mret (Some secret)
  end.
End utils.

Example display_ex : format_secret_for_display "ABCDEFGHIJKLMNOP" = "ABCD-EFGH-IJKL-MNOP" ∧
  format_secret_for_display "ABCDEF" = "ABCD-EF" ∧ code_clean "12 3-4 56" = "123456".
Proof. split_and!; reflexivity. Qed.

Record mfa_status := mk_mfa_status {
  ms_enabled : bool;
  ms_method : option string;
  ms_has_backup_codes : bool;
  ms_backup_codes_remaining : nat;
}.
Record backup_codes_status := mk_codes_status { cs_total : nat; cs_used : nat; cs_remaining : nat }.
Record totp_setup := mk_totp_setup { ts_secret : string; ts_uri : string }.
Record backup_codes_response := mk_codes_response { cr_codes : list string; cr_count : nat }.
(** Enabled at once, or a code to send first. *)
Inductive enable_response :=
  | mfa_enabled (st : mfa_status)
  | pending_verification (email code : string).

Definition is_unused (kv : uuid * backup_row) : bool := bool_decide (bc_used_at kv.2 = None).
Definition remaining_codes (l : list (uuid * backup_row)) : nat := length (filter (λ kv, is_unused kv = true) l).

Section mfa.
Context `{FactorIds} `{TokenHex} `{Pyotp} `{Fernet} `{UuidText}.
Context (token_key : list Z) (BYPASS_OTP : bool).
Implicit Types s : factors.

Definition fa_user s (u : uuid) : option user_row := get_user_row (fa_mail s) u.

Definition _build_mfa_status (u : uuid) (user : user_row) : M factors mfa_status :=
  backup_codes ← gets (λ s, list_backup_codes s u);
  mret (mk_mfa_status (ur_mfa_enabled user) (ur_mfa_method user)
          (bool_decide (0 < length backup_codes)%nat) (remaining_codes backup_codes)).
Definition _get_refreshed_user (u : uuid) : M factors user_row :=
  found ← gets (λ s, fa_user s u);
  some_or found (ServiceError ValidationError "user_retrieval_failed").
Definition refreshed_status (u : uuid) : M factors mfa_status :=
  updated_user ← _get_refreshed_user u; _build_mfa_status u updated_user.

Definition stored_hash (code : string) : string := hash_code (remove_dashes code).
Definition _generate_and_store_backup_codes (u : uuid) : M factors (list string) :=
  _ ← delete_backup_codes u;
  backup_codes ← generate_backup_codes 10;
  _ ← for_each (λ code, _ ← create_backup_code u (stored_hash code); mret ()) backup_codes;
  mret backup_codes.

Definition fa_track (u : uuid) : M factors () := in_mail (in_groups (track_activity u)).
Definition get_mfa_status (ru : requesting_user) (u : uuid) (user : user_row) : M factors mfa_status :=
  _ ← fa_track (ru_id ru); _build_mfa_status u user.
Definition get_backup_codes_status (ru : requesting_user) (u : uuid) : M factors backup_codes_status :=
  _ ← fa_track (ru_id ru);
  backup_codes ← gets (λ s, list_backup_codes s u);
  let total := length backup_codes in
  let used := length (filter (λ kv, is_unused kv = false) backup_codes) in
  mret (mk_codes_status total used (total - used)).

(** The address in the QR code, with the fallback of the code. *)
Definition uri_email s (u : uuid) : string :=
  default "user@example.com" (get_primary_email (fa_mail s) u).

Definition setup_totp (u : uuid) (user : user_row) : M factors totp_setup :=
  _ ← raise_if (bool_decide (ur_mfa_method user = Some "totp"))
        (ServiceError ValidationError "totp_already_active");
  secret ← generate_totp_secret;
  secret_encrypted ← encrypt_secret secret;
  email ← gets (λ s, uri_email s u);
  _ ← create_totp_secret u secret_encrypted;
  _ ← mfa_log (Some u) u "totp_setup_initiated" [];
  mret (mk_totp_setup (format_secret_for_display secret) (generate_totp_uri secret email)).

Definition verify_totp_and_enable (u : uuid) (code : string) : M factors backup_codes_response :=
  found ← gets (λ s, db_get_totp_secret s u "totp");
  row ← some_or found (ServiceError ValidationError "no_totp_pending");
  secret ← lift (decrypt_secret row);
  now ← gets fa_time;
  _ ← raise_if (negb (verify_totp_code BYPASS_OTP now secret (code_clean code)))
        (ServiceError ValidationError "invalid_totp_code");
  _ ← verify_totp_secret u "totp";
  _ ← enable_mfa u "totp";
  backup_codes ← _generate_and_store_backup_codes u;
  _ ← mfa_log (Some u) u "mfa_totp_enabled" [];
  mret (mk_codes_response backup_codes (length backup_codes)).

Definition enable_email_mfa (u : uuid) (user : user_row) : M factors enable_response :=
  if decide (ur_mfa_method user = Some "totp") then
    found ← gets (λ s, get_primary_email (fa_mail s) u);
    email ← some_or found (ServiceError ValidationError "no_primary_email");
    code ← create_email_otp token_key u;
    mret (pending_verification email code)
  else
    _ ← enable_mfa u "email";
    _ ← mfa_log (Some u) u "mfa_email_enabled" [];
    st ← refreshed_status u;
    mret (mfa_enabled st).

Definition verify_mfa_downgrade (u : uuid) (user : user_row) (code : string) : M factors mfa_status :=
  _ ← raise_if (bool_decide (ur_mfa_method user ≠ Some "totp"))
        (ServiceError ValidationError "invalid_mfa_state");
  ok ← verify_email_otp token_key BYPASS_OTP u (code_clean code);
  _ ← raise_if (negb ok) (ServiceError ValidationError "invalid_email_otp");
  _ ← set_mfa_method u "email";
  _ ← delete_totp_secrets u;
  _ ← mfa_log (Some u) u "mfa_downgraded_to_email" [];
  refreshed_status u.

Definition method_meta (user : user_row) : string * meta :=
  ("previous_method", from_option MStr MNull (ur_mfa_method user)).
(** What disabling and the administrator's reset share. *)
Definition remove_factors (u : uuid) : M factors () :=
  _ ← in_mail (update_mfa_status u false);
  _ ← delete_totp_secrets u;
  _ ← delete_backup_codes u;
  mret ().
Definition disable_mfa (u : uuid) (user : user_row) : M factors mfa_status :=
  _ ← enable_mfa u "email";
  _ ← remove_factors u;
  _ ← mfa_log (Some u) u "mfa_disabled" [method_meta user];
  refreshed_status u.

Definition regenerate_backup_codes (u : uuid) (user : user_row) : M factors backup_codes_response :=
  _ ← raise_if (negb (ur_mfa_enabled user)) (ServiceError ValidationError "mfa_not_enabled");
  backup_codes ← _generate_and_store_backup_codes u;
  _ ← mfa_log (Some u) u "mfa_backup_codes_regenerated" [];
  mret (mk_codes_response backup_codes (length backup_codes)).

Definition reset_user_mfa (ru : requesting_user) (target : uuid) : M factors mfa_status :=
  _ ← require_admin ru;
  found ← gets (λ s, fa_user s target);
  user ← some_or found (ServiceError NotFoundError "user_not_found");
  _ ← remove_factors target;
  _ ← mfa_log (Some (ru_id ru)) target "mfa_reset_by_admin"
        [method_meta user; ("was_enabled", MBool (ur_mfa_enabled user))];
  refreshed_status target.

Definition list_backup_codes_raw s (u : uuid) : list (uuid * backup_row) := list_backup_codes s u.

(** The stored secret, verified or not. *)
Definition get_pending_totp_setup (u : uuid) : M factors (option (string * string)) :=
  found ← gets (λ s, db_get_totp_secret s u "totp");
  match found with
  | None => mret None
  | Some row =>
      secret ← lift (decrypt_secret row);
      email ← gets (λ s, uri_email s u);
      mret (Some (format_secret_for_display secret, generate_totp_uri secret email))
  end.
Definition generate_initial_backup_codes (u : uuid) : M factors (list string) :=
  _generate_and_store_backup_codes u.

(** ** services/users/auth_policy.py *)

(** Must this user enrol in a strong factor now?  [login_mfa_method] is the
    factor this sign-in used. *)
Definition user_must_enroll_enhanced s (u : uuid) (user : user_row) (login_mfa_method : option string) : bool :=
  bool_decide (get_required_auth_strength (fa_mail s) = "enhanced") &&
  (bool_decide (login_mfa_method = Some "email") ||
   (bool_decide (ur_mfa_method user ≠ Some "totp") && bool_decide (count_credentials s u = 0%nat))).
End mfa.
