(* ===== verification/SignIn.v ===== *)
(** * Signing in

    The browser's session (app/utils/session.py), the password check of
    app/utils/auth.py, the password routes of app/routers/auth/login.py, the
    second factor of app/routers/mfa.py, the enrolment of
    app/routers/auth/enhanced_enrollment.py (its authenticator half) and the
    completion of app/routers/auth/_login_completion.py.  A session is the
    content of a signed cookie.  A handler reads and writes the session and the
    tables and answers a [page]; mails are collected in order.  The rate
    limiters in front of the handlers, request metadata and the template
    context are left out. *)

From stdpp Require Import gmap strings.
From S2P Require Import Prelude GroupDb Sha256 OAuthDb MailDb MailService Tokens PasswordStrength Credentials SecuritySettings MfaDb.
#[local] Open Scope Z_scope.

(** ** utils/session.py *)

(** A stashed upstream sign-in: whose, when, and its texts. *)
Record stash := mk_stash { st_user : uuid; st_at : Z; st_data : gmap string string }.

(** Keys that hold a text are in [se_texts]; an absent key and [None] are the
    same to the code. *)
Record session := mk_session {
  se_user_id : option uuid;
  se_session_start : option Z;
  se_max_age : option Z;
  se_sid : option string;
  se_pending_mfa_user_id : option uuid;
  se_pending_mfa_method : option string;
  se_pending_password_reset_user_id : option uuid;
  se_pending_enhanced_enrollment_user_id : option uuid;
  se_pending_sso_user_id : option uuid;
  se_upstream_oidc : option stash;
  se_upstream_saml : option stash;
  se_texts : gmap string string;
}.
Definition empty_session : session := mk_session None None None None None None None None None None None ∅.

Section session_setters.
Implicit Types c : session.
Definition with_sid x c := mk_session (se_user_id c) (se_session_start c) (se_max_age c) x
  (se_pending_mfa_user_id c) (se_pending_mfa_method c) (se_pending_password_reset_user_id c)
  (se_pending_enhanced_enrollment_user_id c) (se_pending_sso_user_id c) (se_upstream_oidc c)
  (se_upstream_saml c) (se_texts c).
Definition with_pending_mfa u m c := mk_session (se_user_id c) (se_session_start c) (se_max_age c)
  (se_sid c) u m (se_pending_password_reset_user_id c)
  (se_pending_enhanced_enrollment_user_id c) (se_pending_sso_user_id c) (se_upstream_oidc c)
  (se_upstream_saml c) (se_texts c).
Definition with_pending_reset u c := mk_session (se_user_id c) (se_session_start c) (se_max_age c)
  (se_sid c) (se_pending_mfa_user_id c) (se_pending_mfa_method c) u
  (se_pending_enhanced_enrollment_user_id c) (se_pending_sso_user_id c) (se_upstream_oidc c)
  (se_upstream_saml c) (se_texts c).
Definition with_pending_enrollment u c := mk_session (se_user_id c) (se_session_start c) (se_max_age c)
  (se_sid c) (se_pending_mfa_user_id c) (se_pending_mfa_method c) (se_pending_password_reset_user_id c)
  u (se_pending_sso_user_id c) (se_upstream_oidc c) (se_upstream_saml c) (se_texts c).
Definition with_sso_user u c := mk_session (se_user_id c) (se_session_start c) (se_max_age c)
  (se_sid c) (se_pending_mfa_user_id c) (se_pending_mfa_method c) (se_pending_password_reset_user_id c)
  (se_pending_enhanced_enrollment_user_id c) u (se_upstream_oidc c) (se_upstream_saml c) (se_texts c).
Definition with_upstream o p c := mk_session (se_user_id c) (se_session_start c) (se_max_age c)
  (se_sid c) (se_pending_mfa_user_id c) (se_pending_mfa_method c) (se_pending_password_reset_user_id c)
  (se_pending_enhanced_enrollment_user_id c) (se_pending_sso_user_id c) o p (se_texts c).
Definition with_texts f c := mk_session (se_user_id c) (se_session_start c) (se_max_age c)
  (se_sid c) (se_pending_mfa_user_id c) (se_pending_mfa_method c) (se_pending_password_reset_user_id c)
  (se_pending_enhanced_enrollment_user_id c) (se_pending_sso_user_id c) (se_upstream_oidc c)
  (se_upstream_saml c) (f (se_texts c)).
End session_setters.

(** [secrets.token_urlsafe(24)]. *)
Class TokenUrlsafe := new_session_id : nat → string.

(** What a browser sees. *)
Inductive page :=
  | go (url : string)
  | login_form (error : string) (prefill_email : string)
  | inactivated_form (u : uuid) (status : string) (can_request : bool)
  | forced_reset_form (minimum_length minimum_score : Z)
  | verify_form (method : option string) (error : option string)
  | enroll_form (secret uri : string)
  | refused_form.                                                     (* 422 *)
#[export] Instance page_eq_dec : EqDecision page.
Proof. solve_decision. Defined.

Record web := mk_web {
  we_db : factors;
  we_session : session;
  we_mailed : list (string * string);
}.
Definition set_db f w := mk_web (f (we_db w)) (we_session w) (we_mailed w).
Definition set_session f w := mk_web (we_db w) (f (we_session w)) (we_mailed w).
Definition send to code w := mk_web (we_db w) (we_session w) (we_mailed w ++ [(to, code)]).

(** A call that uses the tables only. *)
Definition on_db {A} (m : M factors A) : M web A :=
  λ w, let '(r, t) := m (we_db w) in (r, set_db (λ _, t) w).
(** [try: m except ValidationError: .. except ServiceError: ..]; any other
    exception escapes. *)
Definition catch_service {S A B} (m : M S A) (ok : A → M S B) (failed : error_kind → string → M S B) : M S B := λ s,
  match m s with
  | (Ok a, s') => ok a s'
  | (Raise (ServiceError k code), s') => failed k code s'
  | (Raise e, s') => (Raise e, s')
  end.

(** ** Keys that survive the sign-in, routers/saml_idp/_helpers.py *)

Definition PENDING_SSO_KEYS : list string :=
  ["pending_sso_sp_id"; "pending_sso_sp_entity_id"; "pending_sso_authn_request_id";
   "pending_sso_relay_state"; "pending_sso_sp_name"].
Definition PENDING_RETURN_PREFIXES : list (string * string) :=
  [("pending_forward_auth_authorize", "/forward-auth/authorize");
   ("pending_oauth2_authorize", "/oauth2/authorize");
   ("pending_device_verification", "/device")].

(** [session.get(key, "")], and its truth. *)
Definition text (c : session) (key : string) : string := default "" (se_texts c !! key).
Definition extract_pending_sso (c : session) : option (gmap string string) :=
  if decide (text c "pending_sso_sp_entity_id" = "") then None
  else Some (list_to_map ((λ k, (k, text c k)) <$> PENDING_SSO_KEYS)).
Definition extract_pending_returns (c : session) : gmap string string :=
  filter (λ kv : string * string, kv.1 ∈ PENDING_RETURN_PREFIXES.*1 ∧ kv.2 ≠ "") (se_texts c).

Definition _is_safe_return_path (target prefix : string) : bool :=
  bool_decide (chars prefix `prefix_of` chars target) &&
  negb (bool_decide (take 2 (chars target) = [slash; slash])) &&
  negb (contains "://" target) &&
  bool_decide (Ascii.ascii_of_nat 13 ∉ chars target) &&
  bool_decide (Ascii.ascii_of_nat 10 ∉ chars target).

(** The loop over the return keys pops each key it looks at. *)
Fixpoint pop_return (l : list (string * string)) (t : gmap string string) :
    option string * gmap string string :=
  match l with
  | [] => (None, t)
  | (key, prefix) :: l =>
      match t !! key with
      | Some target =>
          if _is_safe_return_path target prefix then (Some target, delete key t)
          else pop_return l (delete key t)
      | None => pop_return l t
      end
  end.
Definition get_post_auth_redirect : M web string :=
  c ← gets we_session;
  if decide (text c "pending_sso_sp_entity_id" ≠ "") then mret "/saml/idp/consent"
  else
    let '(target, t) := pop_return PENDING_RETURN_PREFIXES (se_texts c) in
    _ ← modify (set_session (with_texts (λ _, t)));
    mret (default "/dashboard" target).

Section sign_in.
Context `{MailIds} `{Nonces} `{UuidText} `{UuidParse} `{Zxcvbn} `{Hibp} `{Argon2Hash} `{Argon2Verify}
  `{DatetimeText} `{FactorIds} `{TokenHex} `{Pyotp} `{Fernet} `{TokenUrlsafe}.
(** The keys of the tokens and of the breach data, the OTP bypass switch, and
    the tenant's id. *)
Context (token_key hibp_key : list Z) (BYPASS_OTP : bool) (tenant_id : uuid).
Implicit Types w : web.

Definition web_time w : Z := fa_time (we_db w).

(** [session["pending.."] = u]; [session.pop(..)]. *)
Definition assign (f : session → session) : M web () := modify (set_session f).

(** Starts from an empty session; [additional] never holds a core key, and
    would not overwrite one. *)
Definition regenerate_session (u : uuid) (max_age : option Z) (additional : gmap string string) : M web () :=
  now ← gets web_time;
  n ← on_db draw_nat;
  assign (λ _, mk_session (Some u) (Some now) max_age (Some (new_session_id n)) None None None None
                 None None None additional).
Definition ensure_session_id : M web string :=
  c ← gets we_session;
  match se_sid c with
  | Some sid => if decide (sid = "") then n ← on_db draw_nat;
                                          let sid := new_session_id n in
                                          _ ← assign (with_sid (Some sid)); mret sid
                else mret sid
  | None => n ← on_db draw_nat;
            let sid := new_session_id n in _ ← assign (with_sid (Some sid)); mret sid
  end.

(** ** utils/auth.py *)

(** An id with its row. *)
Abbreviation user := (uuid * user_row)%type.
Inductive login_result :=
  | invalid_credentials
  | refused (status : string) (u : user) (can_request_reactivation : bool)
  | success (u : option user).

(** By a verified address. *)
Definition get_user_by_email (s : factors) (email : string) : option (uuid * option string) :=
  kv ← head (filter (λ kv : uuid * email_row, same_email (em_email kv.2) email = true ∧
                       is_Some (em_verified_at kv.2)) (map_to_list (ma_emails (fa_mail s))));
  l ← fa_logins s !! em_user kv.2;
  Some (em_user kv.2, lo_password_hash l).
Definition user_with_id (s : factors) (u : uuid) : option user := pair u <$> fa_user s u.
Definition is_inactivated (s : factors) (u : uuid) : bool :=
  match fa_user s u with Some r => ur_is_inactivated r | None => false end.

Definition update_profile (u : uuid) (f : profile_row → profile_row) : M factors () :=
  modify (λ s, if user_known s u
               then set_profiles (λ p, <[u := f (default (mk_profile None None None) (p !! u))]> p) s
               else s).
Definition update_last_login (u : uuid) : M factors () :=
  now ← gets fa_clock; update_profile u (λ p, mk_profile (pr_tz p) (pr_locale p) (Some now)).

Definition verify_login_with_status (email password : string) : M factors login_result :=
  found ← gets (λ s, get_user_by_email s email);
  match found with
  | Some (u, Some hash) =>
      if decide (hash = "") then mret invalid_credentials
      else
        ok ← in_mail (verify_password hash password);
        if negb ok then mret invalid_credentials
        else
          s ← gets id;
          match user_with_id s u with
          | Some (u, row) =>
              if ur_is_inactivated row then
                if decide (u ∈ fa_denied s) then mret (refused "denied" (u, row) false)
                else if decide (u ∈ fa_requests s) then mret (refused "pending" (u, row) false)
                else mret (refused "inactivated" (u, row) true)
              else _ ← update_last_login u; s ← gets id; mret (success (user_with_id s u))
          | None => _ ← update_last_login u; s ← gets id; mret (success (user_with_id s u))
          end
  | _ => mret invalid_credentials
  end.

Definition session_timeout (s : factors) : option Z :=
  p ← ma_security (fa_mail s); session_timeout_seconds p.
(** More seconds since the start than the tenant allows; zero counts as not
    set. *)
Definition timed_out (now : Z) (start timeout : option Z) : bool :=
  match start, timeout with
  | Some t, Some limit => negb (t =? 0) && negb (limit =? 0) && (limit <? now - t)
  | _, _ => false
  end.
Definition clear_session : M web () := assign (λ _, empty_session).
(** The listed session, or an identifier for a session without one. *)
Definition check_sid : M web bool :=
  w ← gets id;
  match se_sid (we_session w) with
  | Some sid =>
      if decide (sid = "") then _ ← ensure_session_id; mret false
      else mret (is_session_revoked (ma_tenant (fa_mail (we_db w))) sid)
  | None => _ ← ensure_session_id; mret false
  end.

Definition get_current_user : M web (option user) :=
  w ← gets id;
  match se_user_id (we_session w) with
  | None => mret None
  | Some u =>
      if timed_out (web_time w) (se_session_start (we_session w)) (session_timeout (we_db w)) then
        _ ← clear_session; mret None
      else
        revoked ← check_sid;
        if (revoked : bool) then _ ← clear_session; mret None
        else
          found ← gets (λ w, user_with_id (we_db w) u);
          match found with
          | Some (u, row) =>
              if ur_is_inactivated row || ur_password_reset_required row then
                _ ← clear_session; mret None
              else mret (Some (u, row))
          | None => mret None
          end
  end.

(** ** routers/auth/login.py *)

(** The mailed code of a user whose factor is the mailbox. *)
Definition mail_code (u : uuid) : M web () :=
  code ← on_db (create_email_otp token_key u);
  to ← gets (λ w, get_primary_email (fa_mail (we_db w)) u);
  match to with
  | Some to => when (bool_decide (to ≠ "")) (modify (send to code))
  | None => mret ()
  end.
(** The password is right: on to the second factor. *)
Definition start_mfa (u : user) : M web page :=
  _ ← assign (with_pending_mfa (Some u.1) (ur_mfa_method u.2));
  _ ← when (bool_decide (ur_mfa_method u.2 = Some "email")) (mail_code u.1);
  mret (go "/mfa/verify").

Definition set_text (key value : string) : M web () :=
  when (bool_decide (value ≠ "")) (assign (with_texts (insert key value))).

Definition login (email password timezone locale : string) : M web page :=
  if negb (fits [(320, email); (255, password); (50, timezone); (10, locale)]) then mret refused_form else
  let email_normalized := lower_string (py_strip email) in
  result ← on_db (verify_login_with_status email password);
  match result with
  | invalid_credentials =>
      found ← gets (λ w, get_user_by_email (we_db w) email_normalized);
      let artifact_id := from_option fst tenant_id found in
      _ ← on_db (mfa_log (Some artifact_id) artifact_id "login_failed"
            [("email_attempted", MStr email_normalized); ("failure_reason", MStr "invalid_credentials")]);
      mret (login_form "Invalid email or password" email)
  | refused status u can_request =>
      _ ← on_db (mfa_log (Some u.1) u.1 "login_failed"
            [("email_attempted", MStr email_normalized); ("failure_reason", MStr status)]);
      mret (inactivated_form u.1 status can_request)
  | success None => raise (PythonError "AttributeError")
  | success (Some u) =>
      if ur_password_reset_required u.2 then
        _ ← assign (with_pending_reset (Some u.1)); mret (go "/login/reset-password")
      else
        _ ← set_text "pending_timezone" timezone;
        _ ← set_text "pending_locale" locale;
        start_mfa u
  end.

Definition forced_password_reset_page : M web page :=
  w ← gets id;
  match se_pending_password_reset_user_id (we_session w) with
  | None => mret (go "/login")
  | Some u =>
      let p := _get_policy (fa_mail (we_db w)) in
      mret (forced_reset_form
        (match fa_user (we_db w) u with
         | Some row => if decide (ur_role row = super_admin) then Z.max p.1 14 else p.1
         | None => p.1
         end) p.2)
  end.

Definition forced_password_reset (new_password new_password_confirm : string) : M web page :=
  if negb (fits [(255, new_password); (255, new_password_confirm)]) then mret refused_form else
  c ← gets we_session;
  match se_pending_password_reset_user_id c with
  | None => mret (go "/login")
  | Some u =>
      if decide (new_password ≠ new_password_confirm) then
        mret (go "/login/reset-password?error=passwords_dont_match")
      else
        catch_service (on_db (in_mail (complete_forced_password_reset hibp_key u new_password)))
          (λ _,
            _ ← assign (with_pending_reset None);
            found ← gets (λ w, user_with_id (we_db w) u);
            match found with
            | None => mret (go "/login")
            | Some u => start_mfa u
            end)
          (λ _ code, mret (go (safe_path ("/login/reset-password?error=" +:+ code) DEFAULT_TARGET)))
  end.

(** The set-password link of app/routers/auth/onboarding.py ends at the second
    factor as well. *)
Definition set_password_route (email_id nonce password password_confirm : string) : M web page :=
  r ← on_db (in_mail (set_password token_key hibp_key email_id nonce password password_confirm));
  match r with
  | mfa_pending u method mailed =>
      _ ← assign (with_pending_mfa (Some u) method);
      _ ← match mailed with Some (to, code) => modify (send to code) | None => mret () end;
      mret (go "/mfa/verify")
  | redirect url => mret (go url)
  | unprocessable => mret refused_form
  | _ => mret (go "")
  end.

(** ** routers/auth/_login_completion.py *)

Definition PENDING_UPSTREAM_OIDC_SESSION_MAX_AGE : Z := 15 * 60.
(** [time.time() - at > ..] with the fraction of a second. *)
Definition fresh_stash (now_us : Z) (u : uuid) (p : option stash) : option stash :=
  p ← p;
  if decide (st_user p ≠ u ∨ PENDING_UPSTREAM_OIDC_SESSION_MAX_AGE * 1000000 < now_us - st_at p * 1000000)
  then None else Some p.
Definition SAML_SESSION_KEYS : list string :=
  ["saml_idp_id"; "saml_name_id"; "saml_name_id_format"; "saml_session_index"; "saml_slo_url"].
Definition _pending_upstream_oidc_session (now_us : Z) (u : uuid) (c : session) : option (gmap string string) :=
  p ← fresh_stash now_us u (se_upstream_oidc c);
  _ ← st_data p !! "connection_id"; _ ← st_data p !! "sub"; Some (st_data p).
Definition _pending_upstream_saml_session (now_us : Z) (u : uuid) (c : session) : gmap string string :=
  match (p ← fresh_stash now_us u (se_upstream_saml c); _ ← st_data p !! "saml_idp_id"; Some (st_data p)) with
  | Some d => filter (λ kv : string * string, kv.1 ∈ SAML_SESSION_KEYS) d
  | None => ∅
  end.

(** services/oidc_upstream: the session is linked unless an identifier is too
    long to be kept. *)
Definition record_upstream_session (sid : string) (d : gmap string string) : M factors () :=
  let long k := match d !! k with Some x => 255 <? py_len x | None => false end in
  if long "sub" || long "sid" then mret ()
  else modify (set_mail (set_tenant (λ t, mk_tenant (dir t) (clock t) (clients t) (codes t) (tokens t)
    (device_codes t) (consents t) (session_clients t) (deliveries t) (revoked_sids t)
    ({[sid]} ∪ idp_sessions t) (accounts t)))).

Definition session_max_age (s : factors) : option Z :=
  match ma_security (fa_mail s) with
  | Some p =>
      if persistent_sessions p then
        match session_timeout_seconds p with
        | Some timeout => if timeout =? 0 then Some (30 * 24 * 3600) else Some timeout
        | None => Some (30 * 24 * 3600)
        end
      else None
  | None => Some (30 * 24 * 3600)
  end.

(** [tz_to_update and user.tz != tz_to_update]. *)
Definition changed (value : string) (old : option string) : bool :=
  bool_decide (value ≠ "") && bool_decide (old ≠ Some value).
Definition update_timezone_locale (u : uuid) (tz locale : string) : M factors () :=
  now ← gets fa_clock;
  s ← gets id;
  let old := default (mk_profile None None None) (fa_profiles s !! u) in
  update_profile u (λ p, mk_profile
    (if changed tz (pr_tz old) then Some tz else pr_tz p)
    (if changed locale (pr_locale old) then Some locale else pr_locale p) (Some now)).

Definition complete_authenticated_login (u : uuid) (mfa_method timezone locale : string) : M web page :=
  w ← gets id;
  let c := we_session w in
  let now_us := fa_clock (we_db w) in
  let tz_to_update := if decide (timezone ≠ "") then timezone else text c "pending_timezone" in
  let locale_to_update := if decide (locale ≠ "") then locale else text c "pending_locale" in
  let pending_sso := extract_pending_sso c in
  let pending_returns := extract_pending_returns c in
  let pending_upstream := _pending_upstream_oidc_session now_us u c in
  let pending_saml := _pending_upstream_saml_session now_us u c in
  _ ← on_db (mfa_log (Some u) u "user_signed_in" [("mfa_method", MStr mfa_method)]);
  max_age ← gets (λ w, session_max_age (we_db w));
  _ ← regenerate_session u max_age (default ∅ pending_sso ∪ pending_returns ∪ pending_saml);
  sid ← gets (λ w, default "" (se_sid (we_session w)));
  _ ← match pending_upstream with Some d => on_db (record_upstream_session sid d) | None => mret () end;
  _ ← when (bool_decide (is_Some pending_sso)) (assign (with_sso_user (Some u)));
  _ ← on_db (update_timezone_locale u tz_to_update locale_to_update);
  url ← get_post_auth_redirect;
  mret (go (safe_path url DEFAULT_TARGET)).

(** ** routers/mfa.py *)

Definition mfa_verify_page : M web page :=
  c ← gets we_session;
  mret match se_pending_mfa_user_id c with
       | None => go "/login"
       | Some _ => verify_form (se_pending_mfa_method c) None
       end.

(** The factors a submitted code is tried as, in order. *)
Definition try_totp (u : uuid) (method : option string) (code : string) : M factors bool :=
  if decide (method = Some "totp") then
    secret ← get_totp_secret u "totp";
    now ← gets fa_time;
    mret match secret with
         | Some x => bool_decide (x ≠ "") && verify_totp_code BYPASS_OTP now x code
         | None => false
         end
  else mret false.
Definition verified_via (u : uuid) (method : option string) (code : string) : M factors (option string) :=
  totp ← try_totp u method code;
  if (totp : bool) then mret (Some "totp")
  else
    mailed ← verify_email_otp token_key BYPASS_OTP u code;
    if (mailed : bool) then mret (Some "email")
    else
      backup ← verify_backup_code u code;
      mret (if (backup : bool) then Some "backup_code" else None).

Definition mfa_verify (code timezone locale : string) : M web page :=
  if negb (fits [(100, code); (50, timezone); (10, locale)]) then mret refused_form else
  c ← gets we_session;
  match se_pending_mfa_user_id c with
  | None => mret (go "/login")
  | Some u =>
      via ← on_db (verified_via u (se_pending_mfa_method c) (code_clean code));
      match via with
      | None => mret (verify_form (se_pending_mfa_method c) (Some "Invalid or expired code"))
      | Some v =>
          s ← gets we_db;
          if match fa_user s u with
             | Some row => user_must_enroll_enhanced s u row (Some v)
             | None => false
             end
          then
            _ ← set_text "pending_timezone" timezone;
            _ ← set_text "pending_locale" locale;
            _ ← assign (with_pending_enrollment (Some u));
            mret (go "/login/enroll-enhanced-auth")
          else
            let m := default "" (se_pending_mfa_method c) in
            complete_authenticated_login u (if decide (m = "") then "email" else m) timezone locale
      end
  end.

Definition mfa_send_email_code : M web page :=
  c ← gets we_session;
  match se_pending_mfa_user_id c with
  | None => mret (go "/login")
  | Some u =>
      if decide (se_pending_mfa_method c = Some "totp") then mret (go "/mfa/verify")
      else _ ← mail_code u; mret (go "/mfa/verify?email_sent=1")
  end.

(** ** routers/auth/enhanced_enrollment.py *)

Definition end_enrollment : M web () :=
  assign (λ c, with_pending_enrollment None (with_pending_mfa None None c)).

Definition enroll_enhanced_auth_page : M web page :=
  w ← gets id;
  match se_pending_enhanced_enrollment_user_id (we_session w) with
  | None => mret (go "/login")
  | Some u =>
      match fa_user (we_db w) u with
      | None => _ ← assign (with_pending_enrollment None); mret (go "/login")
      | Some row =>
          catch_service (on_db (setup_totp u row))
            (λ st, mret (enroll_form (ts_secret st) (ts_uri st)))
            (λ kind code,
              if decide (kind = ValidationError) then
                pending ← on_db (get_pending_totp_setup u);
                match pending with
                | Some (secret_display, uri) => mret (enroll_form secret_display uri)
                | None => _ ← end_enrollment; complete_authenticated_login u "totp" "" ""
                end
              else raise (ServiceError kind code))
      end
  end.

Definition enroll_enhanced_auth_verify (code : string) : M web page :=
  if negb (fits [(100, code)]) then mret refused_form else
  w ← gets id;
  match se_pending_enhanced_enrollment_user_id (we_session w) with
  | None => mret (go "/login")
  | Some u =>
      match fa_user (we_db w) u with
      | None => _ ← assign (with_pending_enrollment None); mret (go "/login")
      | Some row =>
          catch_service (on_db (verify_totp_and_enable BYPASS_OTP u code))
            (λ _,
              _ ← on_db (mfa_log (Some u) u "user_enhanced_auth_enrolled" [("method", MStr "totp")]);
              _ ← end_enrollment;
              complete_authenticated_login u "totp" "" "")
            (λ kind code,
              if decide (kind = ValidationError) then
                mret (go "/login/enroll-enhanced-auth?error=invalid_code")
              else raise (ServiceError kind code))
      end
  end.
End sign_in.
