(* ===== verification/MfaProofs.v ===== *)
(** * What second factors guarantee

    Backup codes are used at most once and every generated one works; a user
    whose method is an authenticator has a verified secret, whatever users do
    to their own factors. *)

From stdpp Require Import gmap strings.
From S2P Require Import Prelude GroupDb Sha256 OAuthDb MailDb MailService Tokens TokenProofs PasswordStrength CredentialProofs SecuritySettings MfaDb.
#[local] Open Scope Z_scope.

Lemma length_flat_map_const {A B} (f : A → list B) k l :
  (∀ x, length (f x) = k) → length (flat_map f l) = (k * length l)%nat.
Proof. intros Hf. induction l as [|x l IH]; simpl; [lia|]. rewrite length_app, Hf, IH. lia. Qed.

(** An audit row: nothing else changes. *)
Lemma run_mfa_log actor u name md s : ∃ d, mfa_log actor u name md s =
    (Ok (), set_mail (set_tenant (set_dir (λ _, d))) s) ∧ providers d = providers (ma_dir (fa_mail s)).
Proof. eexists. split; [reflexivity|]. done. Qed.

Section backup_codes.
Context `{FactorIds} `{TokenHex}.
Implicit Types s : factors.

Definition open_code (u : uuid) (r : backup_row) : Prop := bc_user r = u ∧ bc_used_at r = None.
#[export] Instance open_code_dec u r : Decision (open_code u r).
Proof. unfold open_code. apply _. Defined.
(** How many codes of a user are not used yet. *)
Definition open_codes s (u : uuid) : nat :=
  size (filter (λ kv : uuid * backup_row, open_code u kv.2) (fa_backup s)).

(** The state once code [i] is used. *)
Definition used i s : factors :=
  set_backup (alter (λ r, mk_backup (bc_user r) (bc_code_hash r) (Some (fa_clock s)) (bc_created_at r)) i) s.

Lemma find_unused_Some s u h i :
  find_unused s u h = Some i → ∃ r, fa_backup s !! i = Some r ∧ unused u h r.
Proof.
  unfold find_unused. intros ([j r] & Hh & [= <-])%fmap_Some.
  apply head_Some_elem_of, list_elem_of_filter in Hh as [Hu Hm]. exists r. split; [|done].
  by apply elem_of_map_to_list.
Qed.
Lemma find_unused_is_Some s u h :
  is_Some (find_unused s u h) ↔ map_Exists (λ _ r, unused u h r) (fa_backup s).
Proof.
  split.
  - intros [i (r & Hi & Hr)%find_unused_Some]. by exists i, r.
  - intros (i & r & Hi & Hr). unfold find_unused.
    assert ((i, r) ∈ filter (λ kv : uuid * backup_row, unused u h kv.2) (map_to_list (fa_backup s))) as Hin.
    { apply list_elem_of_filter. split; [done|]. by apply elem_of_map_to_list. }
    destruct (filter _ _) as [|kv l]; [by apply not_elem_of_nil in Hin|]. by exists kv.1.
Qed.

Lemma run_db_verify u h s :
  db_verify_backup_code u h s =
    match find_unused s u h with Some i => (Ok true, used i s) | None => (Ok false, s) end.
Proof. unfold db_verify_backup_code, mark_used. run. destruct (find_unused s u h); by run. Qed.

Lemma open_codes_used s u h i v :
  find_unused s u h = Some i →
  open_codes s v = (open_codes (used i s) v + if decide (u = v) then 1 else 0)%nat.
Proof.
  intros (r & Hi & Hu & Hh & Hn)%find_unused_Some. unfold open_codes, used. simpl.
  rewrite <- (insert_delete_id (fa_backup s) i r) by done. rewrite alter_insert_eq.
  rewrite !map_filter_insert. simpl.
  rewrite (decide_False (P := open_code v (mk_backup _ _ (Some _) _))) by by intros [].
  rewrite delete_delete_eq. destruct (decide (u = v)) as [->|Hne].
  - rewrite decide_True by done. rewrite map_size_insert_None; [lia|].
    apply map_lookup_filter_None. left. apply lookup_delete_eq.
  - rewrite decide_False by (intros [? _]; congruence). lia.
Qed.

(** Redeeming codes one after the other; how many were accepted. *)
Definition redeem_all (u : uuid) (codes : list string) : M factors nat :=
  for_sum (λ c, ok ← verify_backup_code u c; mret (if (ok : bool) then 1%nat else 0%nat)) codes.

Lemma run_verify_backup u c s :
  verify_backup_code u c s =
    match find_unused s u (hash_code (remove_dashes (upper_string c))) with
    | Some i => (Ok true, used i s) | None => (Ok false, s) end.
Proof. apply run_db_verify. Qed.
Lemma redeem_all_count u codes s :
  ∃ n s', redeem_all u codes s = (Ok n, s') ∧ (n + open_codes s' u = open_codes s u)%nat.
Proof.
  revert s. induction codes as [|c codes IH]; intros s; [by exists 0%nat, s|].
  unfold redeem_all. simpl. rewrite run_bind, run_bind, run_verify_backup. destruct (find_unused _ _ _) as [i|] eqn:Hf; run.
  - destruct (IH (used i s)) as (n & s' & Hr & Hn). rewrite run_bind. fold (redeem_all u codes). rewrite Hr.
    run. exists (S n), s'. split; [done|]. apply (open_codes_used _ _ _ _ u) in Hf.
    rewrite decide_True in Hf by done. lia.
  - destruct (IH s) as (n & s' & Hr & Hn). rewrite run_bind. fold (redeem_all u codes). rewrite Hr. run. by exists n, s'.
Qed.

(** ** Generated codes *)

Definition is_upper (x : string) : Prop := Forall (λ c, upper c = c) (chars x).
Lemma is_upper_upper x : is_upper x → upper_string x = x.
Proof.
  intros Hx. unfold upper_string. transitivity (text_of (chars x)); [|apply text_of_chars]. f_equal.
  rewrite <- (list_fmap_id (chars x)) at 2. by apply list_fmap_ext; intros; eapply Forall_lookup_1 in Hx.
Qed.
Lemma upper_is_upper x : is_upper (upper_string x).
Proof.
  unfold is_upper. pose proof (upper_string_idemp x) as E. apply (f_equal chars) in E.
  unfold upper_string in E at 1. rewrite chars_text_of in E.
  apply Forall_lookup. intros i c Hc. assert ((upper <$> chars (upper_string x)) !! i = Some c) as Hu by by rewrite E.
  rewrite list_lookup_fmap, Hc in Hu. simpl in Hu. congruence.
Qed.
Lemma chars_substring n m x : chars (String.substring n m x) = take m (drop n (chars x)).
Proof.
  revert n m. induction x as [|c x IH]; intros [|n] [|m]; try done; simpl.
  - f_equal. apply IH.
  - apply IH.
  - apply IH.
Qed.
Lemma is_upper_app a b : is_upper a → is_upper b → is_upper (a +:+ b).
Proof. intros ??. unfold is_upper. rewrite chars_app. by apply Forall_app. Qed.
Lemma is_upper_substring n m x : is_upper x → is_upper (String.substring n m x).
Proof. intros ?. unfold is_upper. rewrite chars_substring. by apply Forall_take, Forall_drop. Qed.

Lemma run_backup_code s :
  ∃ c, backup_code s = (Ok c, set_fa_draws S s) ∧ is_upper c.
Proof.
  unfold backup_code, draw_nat. run. eexists. split; [done|].
  repeat apply is_upper_app; try apply is_upper_substring, upper_is_upper. by repeat constructor.
Qed.
Lemma run_generate k s :
  ∃ codes, generate_backup_codes k s = (Ok codes, set_fa_draws (λ n, (k + n)%nat) s) ∧
    length codes = k ∧ Forall is_upper codes.
Proof.
  unfold generate_backup_codes. revert s. generalize 0%nat. induction k as [|k IH]; intros i s.
  { exists []. by destruct s. }
  simpl. destruct (run_backup_code s) as (c & Hc1 & Hc2). rewrite run_bind, Hc1.
  destruct (IH (S i) (set_fa_draws S s)) as (codes & Hr & Hl & Hc).
  rewrite run_bind, Hr. run. eexists. split; [|split].
  - unfold set_fa_draws. simpl. by rewrite Nat.add_succ_r.
  - simpl. by rewrite Hl.
  - by constructor.
Qed.

Lemma compress_length h b : (length (compress h b) <= length h)%nat.
Proof. unfold compress. rewrite length_map, length_combine. lia. Qed.
Lemma hash_blocks_length n h ws : (length (hash_blocks n h ws) <= length h)%nat.
Proof.
  revert h ws. induction n as [|n IH]; intros h ws; simpl; [done|]. destruct ws; [done|].
  etrans; [apply IH|apply compress_length].
Qed.
Lemma hash_code_length c : (String.length (hash_code c) <= 64)%nat.
Proof.
  unfold hash_code, hexdigest. rewrite <- length_chars, chars_text_of, (length_flat_map_const _ 2) by done.
  unfold sha256. rewrite (length_flat_map_const _ 4) by done.
  pose proof (hash_blocks_length (length (words_of (pad (bytes_of c)))) initial_hash (words_of (pad (bytes_of c)))) as Hl.
  change (length initial_hash) with 8%nat in Hl. lia.
Qed.

Context `{!FactorIdsLaws}.

Definition issued u h s : factors :=
  set_backup (insert (factor_id s) (mk_backup u h None (fa_clock s))) s.
Lemma run_create u h s :
  user_known s u = true → (String.length h <= 64)%nat →
  create_backup_code u h s = (Ok 1%nat, issued u h s).
Proof.
  intros Hu Hl. unfold create_backup_code. run. rewrite Hu. simpl.
  rewrite bool_decide_eq_false_2 by (pose proof (py_len_le h); lia). rewrite bool_decide_eq_false_2; [done|].
  rewrite factor_id_fresh. by intros [].
Qed.
Lemma open_codes_issued u h s : open_codes (issued u h s) u = S (open_codes s u).
Proof.
  unfold open_codes, issued. simpl. rewrite map_filter_insert. simpl. rewrite decide_True by done.
  rewrite map_size_insert_None; [done|]. apply map_lookup_filter_None. left. apply factor_id_fresh.
Qed.

Lemma store_codes u codes s :
  user_known s u = true →
  ∃ s', for_each (λ code, _ ← create_backup_code u (stored_hash code); mret ()) codes s = (Ok (), s') ∧
    user_known s' u = true ∧ open_codes s' u = (length codes + open_codes s u)%nat ∧
    fa_backup s ⊆ fa_backup s' ∧
    Forall (λ code, map_Exists (λ _ r, unused u (stored_hash code) r) (fa_backup s')) codes.
Proof.
  revert s. induction codes as [|c codes IH]; intros s Hu; [by exists s|]. simpl.
  rewrite run_bind, run_bind, run_create by (try apply hash_code_length; done). run.
  destruct (IH (issued u (stored_hash c) s)) as (s' & Hr & Hk & Ho & Hsub & Hall); [done|].
  exists s'. rewrite Hr. split; [done|]. split; [done|]. rewrite open_codes_issued in Ho.
  split; [lia|]. split.
  - etrans; [|done]. simpl. apply insert_subseteq, factor_id_fresh.
  - constructor; [|done]. exists (factor_id s), (mk_backup u (stored_hash c) None (fa_clock s)). split; [|done].
    eapply lookup_weaken; [|done]. simpl. apply lookup_insert_eq.
Qed.

Lemma run_delete_codes u s :
  delete_backup_codes u s = (Ok (size (codes_of s u)),
    set_backup (filter (λ kv : uuid * backup_row, bc_user kv.2 ≠ u)) s).
Proof. done. Qed.
Lemma open_codes_deleted u s :
  open_codes (set_backup (filter (λ kv : uuid * backup_row, bc_user kv.2 ≠ u)) s) u = 0%nat.
Proof.
  unfold open_codes. apply map_size_empty_iff. apply map_empty. intros i. apply map_lookup_filter_None.
  right. intros r [_ Hr]%map_lookup_filter_Some [? _]. simpl in *. done.
Qed.

Lemma generate_and_store u s :
  user_known s u = true →
  ∃ codes s', _generate_and_store_backup_codes u s = (Ok codes, s') ∧
    length codes = 10%nat ∧ open_codes s' u = 10%nat ∧
    Forall (λ code, is_Some (find_unused s' u (hash_code (remove_dashes (upper_string code))))) codes.
Proof.
  intros Hu. unfold _generate_and_store_backup_codes. rewrite run_bind, run_delete_codes, run_bind.
  set (s1 := set_backup _ s). destruct (run_generate 10 s1) as (codes & Hr & Hl & Hup). rewrite Hr.
  destruct (store_codes u codes (set_fa_draws (λ n, (10 + n)%nat) s1)) as (s' & Hs & _ & Ho & _ & Hall); [done|].
  rewrite run_bind, Hs. run. exists codes, s'. split_and!; [done..| |].
  - rewrite Ho, Hl. change (open_codes (set_fa_draws _ s1) u) with (open_codes s1 u).
    unfold s1. by rewrite open_codes_deleted.
  - rewrite Forall_forall in Hup, Hall |- *. intros c Hc.
    rewrite is_upper_upper by auto. by apply find_unused_is_Some, Hall.
Qed.

End backup_codes.

(** ** Authenticators *)

Section authenticators.
Context `{FactorIds} `{TokenHex} `{Pyotp} `{Fernet} `{UuidText}.
Context (token_key : list Z) (BYPASS_OTP : bool).
Implicit Types s : factors.

(** Whoever's method is the authenticator has a verified secret. *)
Definition totp_ready s : Prop := ∀ u l, fa_logins s !! u = Some l →
  lo_mfa_method l = Some "totp" → is_Some (get_verified_totp_secret s u "totp").
(** The same, and [u]'s method is another. *)
Definition ready_without u s : Prop :=
  totp_ready s ∧ ∀ l, fa_logins s !! u = Some l → lo_mfa_method l ≠ Some "totp".

(** What a call leaves alone that touches neither methods nor secrets. *)
Definition same_methods s s' : Prop :=
  fa_totp s' = fa_totp s ∧ (λ l, lo_mfa_method l) <$> fa_logins s' = (λ l, lo_mfa_method l) <$> fa_logins s.
Lemma same_methods_lookup s s' u l :
  same_methods s s' → fa_logins s' !! u = Some l →
  ∃ l0, fa_logins s !! u = Some l0 ∧ lo_mfa_method l0 = lo_mfa_method l.
Proof.
  intros [_ E] Hl. assert ((λ l, lo_mfa_method l) <$> fa_logins s' !! u = Some (lo_mfa_method l)) as Hm by by rewrite Hl.
  rewrite <- lookup_fmap, E, lookup_fmap in Hm. by apply fmap_Some in Hm as (l0 & ? & ?); exists l0.
Qed.
Lemma ready_same s s' : totp_ready s → same_methods s s' → totp_ready s'.
Proof.
  intros Hs E u l Hl Hm. destruct (same_methods_lookup _ _ _ _ E Hl) as (l0 & Hl0 & Hm0).
  unfold get_verified_totp_secret. rewrite (proj1 E). apply (Hs u l0 Hl0). congruence.
Qed.
Lemma without_same u s s' : ready_without u s → same_methods s s' → ready_without u s'.
Proof.
  intros [Hs Hu] E. split; [by eapply ready_same|]. intros l Hl.
  destruct (same_methods_lookup _ _ _ _ E Hl) as (l0 & Hl0 & <-). by apply Hu.
Qed.

(** A call that keeps both, and its rules. *)
Definition frames {A} (m : M factors A) : Prop := ∀ s, same_methods s (m s).2.
Lemma keeps_frames {A} (m : M factors A) : frames m → keeps totp_ready m.
Proof. intros Hm s Hs. by eapply ready_same. Qed.
Lemma keeps_frames_without {A} u (m : M factors A) : frames m → keeps (ready_without u) m.
Proof. intros Hm s Hs. by eapply without_same. Qed.
Lemma frames_modify f : (∀ s, same_methods s (f s)) → frames (modify f).
Proof. intros Hf s. apply Hf. Qed.
Lemma frames_update {A} (f : factors → A * factors) : (∀ s, same_methods s (f s).2) → frames (update f).
Proof. intros Hf s. rewrite run_update. apply Hf. Qed.
Lemma frames_keeps {A} (m : M factors A) : (∀ s0, keeps (same_methods s0) m) → frames m.
Proof. intros Hm s. by apply (Hm s s). Qed.
Lemma same_trans s0 s s' : same_methods s0 s → same_methods s s' → same_methods s0 s'.
Proof. intros [A B] [C D]. split; congruence. Qed.
Lemma keeps_same {A} s0 (m : M factors A) : frames m → keeps (same_methods s0) m.
Proof. intros Hm s Hs. by eapply same_trans. Qed.

Lemma frames_log actor u name md : frames (mfa_log actor u name md).
Proof. by intros s. Qed.
Lemma frames_track u : frames (fa_track u).
Proof. by intros s. Qed.
Lemma frames_draw : frames draw_nat.
Proof. by apply frames_update. Qed.
Lemma frames_status u : frames (in_mail (update_mfa_status u false)).
Proof.
  intros s. unfold in_mail, update_mfa_status, update_login. rewrite run_update.
  destruct (ma_logins (fa_mail s) !! u) as [l|] eqn:Hl; [|done]. split; [done|]. simpl. unfold fa_logins. simpl.
  rewrite fmap_insert. apply insert_id. by rewrite lookup_fmap, Hl.
Qed.
Lemma frames_delete_codes u : frames (delete_backup_codes u).
Proof. by apply frames_update. Qed.
Lemma frames_create_code u h : frames (create_backup_code u h).
Proof. intros s. unfold create_backup_code. run. by repeat (destruct (bool_decide _) || destruct (negb _); run). Qed.
Lemma frames_redeem u h : frames (db_verify_backup_code u h).
Proof. intros s. rewrite run_db_verify. by destruct (find_unused s u h). Qed.
#[local] Hint Resolve keeps_same frames_log frames_track frames_draw frames_delete_codes
  frames_create_code frames_redeem frames_status : keeps.

Lemma frames_codes u : frames (_generate_and_store_backup_codes u).
Proof.
  apply frames_keeps. intros s0. unfold _generate_and_store_backup_codes, generate_backup_codes, backup_code. keeps_auto.
Qed.
Lemma frames_refreshed u : frames (refreshed_status u).
Proof. apply frames_keeps. intros s0. unfold refreshed_status, _get_refreshed_user, _build_mfa_status. keeps_auto. Qed.
#[local] Hint Resolve frames_codes frames_refreshed keeps_frames keeps_frames_without : keeps.

Lemma keeps_delete_secrets u : keeps (ready_without u) (delete_totp_secrets u).
Proof.
  intros s [Hs Hu]. unfold delete_totp_secrets. rewrite run_update. simpl. split; [|done].
  intros v l Hl Hm. specialize (Hs v l Hl Hm). unfold get_verified_totp_secret in *. simpl.
  destruct (decide (v = u)) as [->|Hne]; [by destruct (Hu l)|].
  destruct Hs as [x Hx]. exists x. destruct (fa_totp s !! (v, "totp")) as [r|] eqn:Hr; [|done].
  by erewrite (proj2 (map_lookup_filter_Some _ _ _ _)).
Qed.
Lemma keeps_create_secret u e : keeps (ready_without u) (create_totp_secret u e).
Proof.
  intros s [Hs Hu]. unfold create_totp_secret. run. destruct (negb _); [done|]. destruct (bool_decide _); [done|].
  split; [|done]. intros v l Hl Hm. destruct (decide (v = u)) as [->|Hne]; [by destruct (Hu l)|].
  unfold get_verified_totp_secret. simpl. rewrite lookup_insert_ne by congruence. by apply (Hs v l).
Qed.

Lemma ready_insert u l l' s :
  totp_ready s → fa_logins s !! u = Some l → (lo_mfa_method l' = Some "totp" →
  is_Some (get_verified_totp_secret s u "totp")) →
  totp_ready (set_mail (set_logins (insert u l')) s).
Proof.
  intros Hs Hl Hl' v lv. unfold fa_logins. simpl. intros [[<- <-]|[Hne Hv]]%lookup_insert_Some Hm; [by apply Hl'|].
  by apply (Hs v lv).
Qed.
Lemma run_set_method u method f s :
  method ∈ mfa_methods →
  set_method u method f s = match fa_logins s !! u with
    | Some l => (Ok 1%nat, set_mail (set_logins (insert u (f l))) s) | None => (Ok 0%nat, s) end.
Proof.
  intros Hm. unfold set_method. run. rewrite bool_decide_eq_false_2 by (intros [_ ?]; done).
  unfold in_mail, update_login. rewrite run_update. unfold fa_logins.
  destruct (ma_logins (fa_mail s) !! u); simpl; [done|]. by destruct s.
Qed.

Lemma keeps_email_method {A} u f (m : nat → M factors A) :
  (∀ l, lo_mfa_method (f l) = Some "email") → (∀ n, keeps (ready_without u) (m n)) →
  keeps totp_ready (n ← set_method u "email" f; m n).
Proof.
  intros Hf Hm s Hs. rewrite run_bind, run_set_method by set_solver.
  destruct (fa_logins s !! u) as [l|] eqn:Hl; apply Hm; (split; [|intros l'; unfold fa_logins; simpl]).
  - eapply ready_insert; [done..|]. rewrite Hf. done.
  - rewrite lookup_insert_eq. intros [= <-]. by rewrite Hf.
  - done.
  - fold (fa_logins s). by rewrite Hl.
Qed.

Lemma fa_user_method s u row :
  fa_user s u = Some row → ∃ l, fa_logins s !! u = Some l ∧ ur_mfa_method row = lo_mfa_method l.
Proof.
  unfold fa_user, get_user_row. intros (a & _ & (l & Hl & [= <-])%bind_Some)%bind_Some. by exists l.
Qed.

Lemma setup_totp_ready s u row : totp_ready s → fa_user s u = Some row →
  totp_ready (setup_totp u row s).2.
Proof.
  intros Hs Hu. unfold setup_totp. run. case_bool_decide as Hm; [done|].
  assert (ready_without u s) as Hw.
  { split; [done|]. intros l Hl. destruct (fa_user_method _ _ _ Hu) as (l' & Hl' & E). congruence. }
  revert Hw. match goal with |- ready_without u s → totp_ready (?m s).2 => enough (keeps (ready_without u) m) as Hk by (intros Hw; apply (Hk s Hw)) end.
  unfold generate_totp_secret, encrypt_secret.
  pose proof keeps_create_secret. keeps_auto.
Qed.

Lemma enable_ready u code : keeps totp_ready (verify_totp_and_enable BYPASS_OTP u code).
Proof.
  intros s Hs. unfold verify_totp_and_enable, db_get_totp_secret. run.
  destruct (fa_totp s !! (u, "totp")) as [r|] eqn:Hr; [|done]. simpl.
  destruct (decrypt_secret _) as [x|]; [|done]. run. destruct (negb _); [done|].
  unfold verify_totp_secret. rewrite run_update_bind. simpl. rewrite run_bind. unfold enable_mfa.
  rewrite run_set_method by set_solver.
  set (s1 := set_totp _ s).
  assert (totp_ready s1 ∧ is_Some (get_verified_totp_secret s1 u "totp")) as [A1 A2].
  { unfold get_verified_totp_secret. split; [|simpl; by rewrite lookup_alter_eq, Hr].
    intros v l Hl Hm. specialize (Hs v l Hl Hm). unfold get_verified_totp_secret in *. simpl.
    destruct (decide (v = u)) as [->|Hne]; [by rewrite lookup_alter_eq, Hr|].
    by rewrite lookup_alter_ne by congruence. }
  assert (∀ n : nat, keeps totp_ready (backup_codes ← _generate_and_store_backup_codes u;
    _ ← mfa_log (Some u) u "mfa_totp_enabled" [];
    mret (mk_codes_response backup_codes (length backup_codes)))) as Hk.
  { intros n. keeps_auto. }
  destruct (fa_logins s1 !! u) as [l|] eqn:Hl; apply (Hk 0%nat); [|done]. by eapply ready_insert.
Qed.

(** What a signed-in user can call on their own factors, the row of the user
    being read when the request is authenticated, and the use of a backup code. *)
Inductive mfa_call :=
  | call_status
  | call_setup
  | call_enable (code : string)
  | call_email
  | call_downgrade (code : string)
  | call_disable
  | call_regenerate
  | call_initial
  | call_redeem (code : string).
Definition run_mfa_call (u : uuid) (c : mfa_call) : M factors () :=
  found ← gets (λ s, fa_user s u);
  match found with
  | None => mret ()
  | Some row =>
      match c with
      | call_status => _ ← get_mfa_status {| ru_id := u; ru_role := ur_role row |} u row; mret ()
      | call_setup => _ ← setup_totp u row; mret ()
      | call_enable code => _ ← verify_totp_and_enable BYPASS_OTP u code; mret ()
      | call_email => _ ← enable_email_mfa token_key u row; mret ()
      | call_downgrade code => _ ← verify_mfa_downgrade token_key BYPASS_OTP u row code; mret ()
      | call_disable => _ ← disable_mfa u row; mret ()
      | call_regenerate => _ ← regenerate_backup_codes u row; mret ()
      | call_initial => _ ← generate_initial_backup_codes u; mret ()
      | call_redeem code => _ ← verify_backup_code u code; mret ()
      end
  end.

Lemma keeps_bind_unit {A} I (m : M factors A) s : I (m s).2 → I ((_ ← m; mret ()) s).2.
Proof. rewrite run_bind. by destruct (m s) as [[]]. Qed.

Lemma call_keeps_ready u c : keeps totp_ready (run_mfa_call u c).
Proof.
  intros s Hs. unfold run_mfa_call. run. destruct (fa_user s u) as [row|] eqn:Hu; [|done].
  pose proof keeps_delete_secrets.
  destruct c; apply keeps_bind_unit; try (by apply setup_totp_ready); try (by apply enable_ready); revert s Hs Hu.
  - intros s Hs _. revert s Hs. fold (keeps totp_ready (get_mfa_status {| ru_id := u; ru_role := ur_role row |} u row)).
    unfold get_mfa_status, _build_mfa_status. keeps_auto.
  - intros s Hs _. revert s Hs. fold (keeps totp_ready (enable_email_mfa token_key u row)).
    unfold enable_email_mfa, enable_mfa, create_email_otp. case_decide; [keeps_auto|].
    apply keeps_email_method; [done|]. intros n. keeps_auto.
  - intros s Hs _. revert s Hs. fold (keeps totp_ready (verify_mfa_downgrade token_key BYPASS_OTP u row code)).
    unfold verify_mfa_downgrade, verify_email_otp, set_mfa_method. apply keeps_bind; [auto with keeps|]. intros [].
    apply keeps_bind; [keeps_auto|]. intros ok. apply keeps_bind; [auto with keeps|]. intros [].
    apply keeps_email_method; [done|]. intros n. keeps_auto.
  - intros s Hs _. revert s Hs. fold (keeps totp_ready (disable_mfa u row)).
    unfold disable_mfa, enable_mfa, remove_factors. apply keeps_email_method; [done|]. intros n. keeps_auto.
  - intros s Hs _. revert s Hs. fold (keeps totp_ready (regenerate_backup_codes u row)).
    unfold regenerate_backup_codes. keeps_auto.
  - intros s Hs _. revert s Hs. fold (keeps totp_ready (generate_initial_backup_codes u)).
    unfold generate_initial_backup_codes. keeps_auto.
  - intros s Hs _. revert s Hs. fold (keeps totp_ready (verify_backup_code u code)). unfold verify_backup_code. keeps_auto.
Qed.

(** A user whose method is the authenticator always has a verified secret
    to sign in with: setting up, enabling, moving back to the mailbox,
    disabling, new backup codes and their use keep it so, in any order, by any
    users, and whether or not a call raises half-way. *)
Theorem totp_users_have_secret (calls : list (uuid * mfa_call)) s :
  totp_ready s → totp_ready (foldl (λ s uc, (run_mfa_call uc.1 uc.2 s).2) s calls).
Proof.
  revert s. induction calls as [|[u c] calls IH]; intros s Hs; [done|]. apply IH. by apply call_keeps_ready.
Qed.
End authenticators.
