(* ===== verification/SignInProofs.v ===== *)
(** * What signing in guarantees

    A browser holds the cookies it was given and may present any of them
    again, since a session is its signed cookie; between requests anything may
    happen to the tables, and other routes (SAML, an upstream OIDC provider, a
    passkey) may set cookies of their own.  Whoever is signed in was named by
    such a cookie, or has given a password, or opened a set-password link, and
    after that a second factor; and a signed-in session is honoured exactly
    while nothing speaks against it. *)

From stdpp Require Import gmap strings.
From S2P Require Import Prelude GroupDb Sha256 OAuthDb MailDb MailService Tokens PasswordStrength Credentials SecuritySettings MfaDb MfaProofs SignIn.
#[local] Open Scope Z_scope.

Section sign_in.
Context `{MailIds} `{Nonces} `{UuidText} `{UuidParse} `{Zxcvbn} `{Hibp} `{Argon2Hash} `{Argon2Verify}
  `{DatetimeText} `{FactorIds} `{TokenHex} `{Pyotp} `{Fernet} `{TokenUrlsafe}.
Context (token_key hibp_key : list Z) (BYPASS_OTP : bool) (tenant_id : uuid).
Implicit Types (s : factors) (w : web) (c : session).

Inductive request :=
  | r_login (email password timezone locale : string)
  | r_forced_reset_page
  | r_forced_reset (new_password new_password_confirm : string)
  | r_set_password (email_id nonce password password_confirm : string)
  | r_verify_page
  | r_verify (code timezone locale : string)
  | r_send_code
  | r_enroll_page
  | r_enroll_verify (code : string)
  | r_authenticated.                               (* any page behind [get_current_user] *)
Definition handle (r : request) : M web page :=
  match r with
  | r_login email pw tz loc => login token_key tenant_id email pw tz loc
  | r_forced_reset_page => forced_password_reset_page
  | r_forced_reset pw pw' => forced_password_reset token_key hibp_key pw pw'
  | r_set_password i n pw pw' => set_password_route token_key hibp_key i n pw pw'
  | r_verify_page => mfa_verify_page
  | r_verify code tz loc => mfa_verify token_key BYPASS_OTP code tz loc
  | r_send_code => mfa_send_email_code token_key
  | r_enroll_page => enroll_enhanced_auth_page
  | r_enroll_verify code => enroll_enhanced_auth_verify BYPASS_OTP code
  | r_authenticated => u ← get_current_user; mret (match u with Some _ => go "" | None => go "/login" end)
  end.

(** ** What a request proves *)

(** The password of an active account with that verified address, or the
    nonce of its set-password link. *)
Definition password_given s (r : request) (u : uuid) : Prop :=
  match r with
  | r_login email pw _ _ => ∃ hash, get_user_by_email s email = Some (u, Some hash) ∧
      argon2_verify hash pw = Ok true ∧ is_inactivated s u = false
  | r_set_password id nonce _ _ => ∃ i e, uuid_of_text id = Some i ∧ ma_emails (fa_mail s) !! i = Some e ∧
      em_user e = u ∧ is_Some (em_verified_at e) ∧ em_set_password_nonce e = nonce
  | _ => False
  end.
(** A code of the user's verified authenticator, of their mailbox, or an unused
    backup code. *)
Definition factor_ok s (u : uuid) (code : string) : Prop :=
  (∃ e x, get_verified_totp_secret s u "totp" = Some e ∧ fernet_decrypt e = Some x ∧
     verify_totp_code BYPASS_OTP (fa_time s) x code = true) ∨
  email_otp_ok token_key BYPASS_OTP (fa_time s) u code = Ok true ∨
  is_Some (find_unused s u (hash_code (remove_dashes (upper_string code)))).
Definition factor_given s (r : request) (u : uuid) : Prop :=
  match r with r_verify code _ _ => factor_ok s u (code_clean code) | _ => False end.

(** ** What a handler may do to the session *)

Definition allowed c (P F : uuid → Prop) c' : Prop := ∀ u,
  (se_user_id c' = Some u → se_user_id c = Some u ∨ (se_pending_mfa_user_id c = Some u ∧ F u) ∨
     se_pending_enhanced_enrollment_user_id c = Some u) ∧
  (se_pending_mfa_user_id c' = Some u → se_pending_mfa_user_id c = Some u ∨ P u ∨
     se_pending_password_reset_user_id c = Some u) ∧
  (se_pending_enhanced_enrollment_user_id c' = Some u →
     se_pending_enhanced_enrollment_user_id c = Some u ∨ (se_pending_mfa_user_id c = Some u ∧ F u)) ∧
  (se_pending_password_reset_user_id c' = Some u → se_pending_password_reset_user_id c = Some u ∨ P u).
Definition within c P F w : Prop := allowed c P F (we_session w).

Section rules.
Context (c : session) (P F : uuid → Prop).
Abbreviation I := (within c P F).

Lemma starts_within w : c = we_session w → I w.
Proof. intros ->. repeat split; auto. Qed.
Lemma keeps_on_db {A} (m : M factors A) : keeps I (on_db m).
Proof. intros w Hw. unfold on_db. by destruct (m (we_db w)). Qed.
Lemma keeps_send to code : keeps I (modify (send to code)).
Proof. by apply keeps_modify. Qed.
Lemma keeps_assign f : (∀ c', allowed c P F c' → allowed c P F (f c')) → keeps I (assign f).
Proof. intros Hf. apply keeps_modify. intros w. apply Hf. Qed.
Lemma keeps_catch {A B} (m : M web A) (ok : A → M web B) failed :
  keeps I m → (∀ a, keeps I (ok a)) → (∀ k e, keeps I (failed k e)) → keeps I (catch_service m ok failed).
Proof.
  intros Hm Hok Hfail w Hw. unfold catch_service. specialize (Hm w Hw).
  destruct (m w) as [[a|[]] w']; simpl in *; auto; [by apply Hok|by apply Hfail].
Qed.
#[local] Hint Resolve keeps_on_db keeps_send : keeps.

Lemma keeps_assign_texts f : keeps I (assign (with_texts f)).
Proof. by apply keeps_assign. Qed.
Lemma keeps_clear : keeps I clear_session.
Proof. apply keeps_assign. intros c' _. by repeat split. Qed.
Lemma keeps_assign_sid x : keeps I (assign (with_sid x)).
Proof. by apply keeps_assign. Qed.
Lemma keeps_assign_sso x : keeps I (assign (with_sso_user x)).
Proof. by apply keeps_assign. Qed.
Lemma keeps_drop_reset : keeps I (assign (with_pending_reset None)).
Proof. apply keeps_assign. intros c' Hc' u. by destruct (Hc' u) as (?&?&?&?). Qed.
Lemma keeps_drop_enrollment : keeps I (assign (with_pending_enrollment None)).
Proof. apply keeps_assign. intros c' Hc' u. by destruct (Hc' u) as (?&?&?&?). Qed.
Lemma keeps_end_enrollment : keeps I end_enrollment.
Proof. apply keeps_assign. intros c' Hc' u. by destruct (Hc' u) as (?&?&?&?). Qed.
#[local] Hint Resolve keeps_assign_texts keeps_clear keeps_assign_sid keeps_assign_sso keeps_drop_reset
  keeps_drop_enrollment keeps_end_enrollment : keeps.

Lemma keeps_mail_code u : keeps I (mail_code token_key u).
Proof. unfold mail_code. keeps_auto. Qed.
#[local] Hint Resolve keeps_mail_code : keeps.
Lemma keeps_assign_mfa u m :
  (P u ∨ se_pending_password_reset_user_id c = Some u) → keeps I (assign (with_pending_mfa (Some u) m)).
Proof.
  intros Hu. apply keeps_assign. intros c' Hc' v. destruct (Hc' v) as (?&?&?&?). repeat split; auto.
  simpl. intros [= <-]. naive_solver.
Qed.
Lemma keeps_start_mfa x :
  (P x.1 ∨ se_pending_password_reset_user_id c = Some x.1) → keeps I (start_mfa token_key x).
Proof. intros Hx. pose proof keeps_assign_mfa. unfold start_mfa. keeps_auto. Qed.
Lemma keeps_set_text k v : keeps I (set_text k v).
Proof. unfold set_text. keeps_auto. Qed.
Lemma keeps_ensure : keeps I ensure_session_id.
Proof. unfold ensure_session_id. keeps_auto. Qed.
Lemma keeps_redirect_target : keeps I get_post_auth_redirect.
Proof. unfold get_post_auth_redirect. apply keeps_bind; [auto with keeps|]. intros c'. case_decide; [auto with keeps|].
  destruct (pop_return _ _) as [t ts]. apply keeps_bind; [apply keeps_assign_texts|]. auto with keeps. Qed.
#[local] Hint Resolve keeps_set_text keeps_ensure keeps_redirect_target : keeps.

Lemma keeps_complete u m tz loc :
  (se_pending_mfa_user_id c = Some u ∧ F u) ∨ se_pending_enhanced_enrollment_user_id c = Some u →
  keeps I (complete_authenticated_login u m tz loc).
Proof.
  intros Hu. assert (∀ a t, keeps I (regenerate_session u a t)) as Hr.
  { intros a t. unfold regenerate_session. apply keeps_bind; [auto with keeps|]. intros now.
    apply keeps_bind; [auto with keeps|]. intros n. apply keeps_assign. intros c' _ v.
    repeat split; simpl; try done. intros [= <-]. tauto. }
  unfold complete_authenticated_login. keeps_auto.
Qed.
Lemma keeps_current : keeps I get_current_user.
Proof. unfold get_current_user, check_sid. keeps_auto. Qed.
End rules.

#[local] Hint Resolve keeps_on_db keeps_send keeps_assign_texts keeps_clear keeps_assign_sid keeps_assign_sso
  keeps_drop_reset keeps_drop_enrollment keeps_end_enrollment keeps_mail_code keeps_set_text keeps_ensure
  keeps_redirect_target keeps_current : keeps.

(** ** The handlers *)

Lemma run_on_db {A} (m : M factors A) w r s' :
  m (we_db w) = (r, s') → on_db m w = (r, set_db (λ _, s') w).
Proof. unfold on_db. by intros ->. Qed.

Lemma run_last_login u s : ∃ s', update_last_login u s = (Ok (), s') ∧ fa_mail s' = fa_mail s.
Proof. unfold update_last_login, update_profile. run. eexists. split; [done|]. by destruct (user_known s u). Qed.
Lemma user_with_id_same s s' u : fa_mail s' = fa_mail s → user_with_id s' u = user_with_id s u.
Proof. unfold user_with_id, fa_user. by intros ->. Qed.

Lemma verify_login_success email pw s x s' :
  verify_login_with_status email pw s = (Ok (success (Some x)), s') →
  ∃ hash, get_user_by_email s email = Some (x.1, Some hash) ∧ argon2_verify hash pw = Ok true ∧
    is_inactivated s x.1 = false ∧ user_with_id s x.1 = Some x ∧ fa_mail s' = fa_mail s.
Proof.
  unfold verify_login_with_status. run. destruct (get_user_by_email s email) as [[u [hash|]]|]; [|done..].
  case_decide; [done|]. unfold verify_password, in_mail. rewrite run_bind. unfold lift.
  destruct (argon2_verify hash pw) as [[]|] eqn:Hv; [|done..]. simpl. run.
  replace (set_mail _ s) with s by by destruct s. destruct (run_last_login u s) as (s1 & Hl & Hm).
  assert (∀ x, (Ok (success (user_with_id s1 u)), s1) = (Ok (success (Some x)), s') →
    user_with_id s u = Some x ∧ s' = s1) as Hx.
  { intros y [= E <-]. by rewrite (user_with_id_same _ _ _ Hm) in E. }
  unfold is_inactivated. destruct (user_with_id s u) as [[u' row]|] eqn:Hu.
  - assert (u' = u ∧ fa_user s u = Some row) as [-> Hrow].
    { unfold user_with_id in Hu. by destruct (fa_user s u); simplify_eq/=. }
    destruct (ur_is_inactivated row) eqn:Hi; [by repeat case_decide|].
    rewrite run_bind, Hl. run. intros [[= <-] ->]%Hx. exists hash. simpl. by rewrite Hrow.
  - rewrite run_bind, Hl. run. by intros [[=] _]%Hx.
Qed.

Lemma login_allowed email pw tz loc w :
  let r := r_login email pw tz loc in
  within (we_session w) (password_given (we_db w) r) (factor_given (we_db w) r) (handle r w).2.
Proof.
  intros r. set (c := we_session w). simpl. unfold login. destruct (fits _); cbn [negb]; [|by apply starts_within]. rewrite run_bind.
  destruct (verify_login_with_status email pw (we_db w)) as [res s'] eqn:Hv.
  rewrite (run_on_db _ _ _ _ Hv).
  assert (within c (password_given (we_db w) r) (factor_given (we_db w) r) (set_db (λ _, s') w)) as Hw
    by by apply starts_within.
  destruct res as [[|status x can|[x|]]|e]; [| | | |done]; revert Hw; generalize (set_db (λ _, s') w) as w';
    intros w'; revert w';
    match goal with |- ∀ w', within _ _ _ w' → within _ _ _ (?m w').2 => fold (keeps (within c (password_given (we_db w) r) (factor_given (we_db w) r)) m) end.
  - keeps_auto.
  - keeps_auto.
  - apply verify_login_success in Hv as (hash & Hv1 & Hv2 & Hv3 & _). case_match.
    + apply keeps_bind; [|auto with keeps]. apply keeps_assign. intros c' Hc' v.
      destruct (Hc' v) as (?&?&?&?). repeat split; auto. simpl. intros [= <-]. right. by exists hash.
    + apply keeps_bind; [auto with keeps|]. intros []. apply keeps_bind; [auto with keeps|]. intros [].
      apply keeps_start_mfa. left. by exists hash.
  - auto with keeps.
Qed.

(** A handler that reads the session first. *)
Lemma within_keeps {A} (m : M web A) w P F :
  keeps (within (we_session w) P F) m → within (we_session w) P F (m w).2.
Proof. intros Hm. apply Hm. by apply starts_within. Qed.
Lemma session_on_db {A} (m : M factors A) w : we_session (on_db m w).2 = we_session w.
Proof. unfold on_db. by destruct (m (we_db w)). Qed.

Lemma forced_reset_allowed pw pw' w P F :
  within (we_session w) P F (forced_password_reset token_key hibp_key pw pw' w).2.
Proof.
  unfold forced_password_reset. destruct (fits _); cbn [negb]; [|by apply starts_within]. run. destruct (se_pending_password_reset_user_id (we_session w)) as [u|] eqn:Hu;
    [|by apply starts_within]. apply within_keeps. case_decide; [auto with keeps|].
  apply keeps_catch; [auto with keeps| |keeps_auto]. intros []. apply keeps_bind; [auto with keeps|]. intros [].
  intros w0 Hw0. run. destruct (user_with_id (we_db w0) u) as [x|] eqn:Hx; [|done].
  refine (keeps_start_mfa _ _ _ _ _ w0 Hw0). right. rewrite Hu. unfold user_with_id in Hx.
  by destruct (fa_user _ u); simplify_eq/=.
Qed.

Lemma set_password_pending id nonce pw pw' (s s' : mail) u m mailed :
  set_password token_key hibp_key id nonce pw pw' s = (Ok (mfa_pending u m mailed), s') →
  ∃ i e, uuid_of_text id = Some i ∧ ma_emails s !! i = Some e ∧ em_user e = u ∧
    is_Some (em_verified_at e) ∧ em_set_password_nonce e = nonce.
Proof.
  unfold set_password, parse_id, get_email_for_verification, open_set_password.
  destruct (fits _); cbn [negb]; [|done]. run.
  destruct (uuid_of_text id) as [i|]; [|done]. run. destruct (ma_emails s !! i) as [e|] eqn:He; [|done].
  repeat (case_decide; [done|]). destruct (get_user_row s (em_user e)) as [row|]; [|done].
  destruct (ur_saml_idp_id row); [done|]. case_decide; [done|]. run.
  destruct (validate_password _ _ _ _ _ _) as [[|x l]|]; [|done..]. unfold finish_set_password.
  intros Hr. exists i, e. split; [done|]. split; [done|]. split; [|split; [by apply not_eq_None_Some|done]].
  revert Hr. rewrite run_bind. destruct (store_password _ _ _ _ _ _) as [[[]|] s1]; [|done].
  rewrite run_bind. destruct (regenerate_set_password_nonce i s1) as [[x|] s2]; [|done].
  rewrite run_bind. destruct (log_user _ _ _ _ s2) as [[[]|] s3]; [|done].
  case_decide; run; by intros [= ?].
Qed.
Lemma set_password_allowed id nonce pw pw' w :
  let r := r_set_password id nonce pw pw' in
  within (we_session w) (password_given (we_db w) r) (factor_given (we_db w) r) (handle r w).2.
Proof.
  intros r. simpl. unfold set_password_route. rewrite run_bind.
  destruct (on_db _ w) as [res w1] eqn:Hr.
  assert (we_session w1 = we_session w) as Hs by (rewrite <- (session_on_db (in_mail (set_password token_key hibp_key id nonce pw pw')) w); by rewrite Hr).
  assert (within (we_session w) (password_given (we_db w) r) (factor_given (we_db w) r) w1) as Hw by by apply starts_within.
  destruct res as [res|]; [|done]. destruct res; try done.
  refine (keeps_bind _ _ _ _ _ w1 Hw).
  - apply keeps_assign_mfa. left. unfold on_db, in_mail in Hr.
    destruct (set_password _ _ _ _ _ _ _) as [res t] eqn:Hp. injection Hr as -> _.
    apply set_password_pending in Hp. exact Hp.
  - intros []. destruct mailed as [[to code]|]; keeps_auto.
Qed.

(** The mailbox and the backup codes, once the authenticator did not match. *)
Definition other_factors u code : M factors (option string) :=
  mailed ← verify_email_otp token_key BYPASS_OTP u code;
  if (mailed : bool) then mret (Some "email")
  else
    backup ← verify_backup_code u code;
    mret (if (backup : bool) then Some "backup_code" else None).
Lemma run_other_factors u code s :
  other_factors u code s =
    match email_otp_ok token_key BYPASS_OTP (fa_time s) u code with
    | Ok true => (Ok (Some "email"), s)
    | Ok false =>
        match find_unused s u (hash_code (remove_dashes (upper_string code))) with
        | Some i => (Ok (Some "backup_code"), used i s)
        | None => (Ok None, s)
        end
    | Raise e => (Raise e, s)
    end.
Proof.
  unfold other_factors, verify_email_otp. run. destruct (email_otp_ok _ _ _ _ _) as [[]|]; run; [done| |done].
  rewrite run_bind, run_verify_backup. by destruct (find_unused _ _ _).
Qed.
Lemma run_try_totp u m code s :
  (try_totp BYPASS_OTP u m code s).2 = s ∧
  ((try_totp BYPASS_OTP u m code s).1 = Ok true → ∃ e x, get_verified_totp_secret s u "totp" = Some e ∧
     fernet_decrypt e = Some x ∧ verify_totp_code BYPASS_OTP (fa_time s) x code = true).
Proof.
  unfold try_totp. case_decide; [|done]. unfold get_totp_secret, decrypt_secret. run.
  destruct (get_verified_totp_secret s u "totp") as [e|]; run; [|done].
  destruct (fernet_decrypt e) as [x|] eqn:Hx; run; [|done]. split; [done|].
  intros [= [_ Ht]%andb_true_iff]. by exists e, x.
Qed.
Lemma run_verified_via u m code s :
  verified_via token_key BYPASS_OTP u m code s =
    match try_totp BYPASS_OTP u m code s with
    | (Ok true, s') => (Ok (Some "totp"), s')
    | (Ok false, s') => other_factors u code s'
    | (Raise e, s') => (Raise e, s')
    end.
Proof. unfold verified_via. rewrite run_bind. by destruct (try_totp _ _ _ _ s) as [[[]|] s']. Qed.

Lemma via_factor s u m code v s' :
  verified_via token_key BYPASS_OTP u m code s = (Ok (Some v), s') → factor_ok s u code.
Proof.
  rewrite run_verified_via. destruct (run_try_totp u m code s) as [Hs Ht].
  destruct (try_totp _ _ _ _ s) as [[[]|] s1]; simpl in *; [by left; apply Ht| |done]. subst s1.
  rewrite run_other_factors. destruct (email_otp_ok _ _ _ _ _) as [[]|] eqn:Ho; [by right; left| |done].
  destruct (find_unused _ _ _) eqn:Hf; [|done]. intros _. right. right. by rewrite Hf.
Qed.

Lemma verify_allowed code tz loc w :
  let r := r_verify code tz loc in
  within (we_session w) (password_given (we_db w) r) (factor_given (we_db w) r) (handle r w).2.
Proof.
  intros r. simpl. unfold mfa_verify. destruct (fits _); cbn [negb]; [|by apply starts_within]. run.
  destruct (se_pending_mfa_user_id (we_session w)) as [u|] eqn:Hu; [|by apply starts_within]. rewrite run_bind.
  destruct (verified_via token_key BYPASS_OTP u (se_pending_mfa_method (we_session w)) (code_clean code) (we_db w))
    as [res s'] eqn:Hv. rewrite (run_on_db _ _ _ _ Hv).
  assert (within (we_session w) (password_given (we_db w) r) (factor_given (we_db w) r) (set_db (λ _, s') w)) as Hw
    by by apply starts_within.
  destruct res as [[v|]|]; [|done..]. apply via_factor in Hv. run.
  match goal with |- within _ _ _ ((if ?b then _ else _) _).2 => destruct b end.
  - revert Hw. generalize (set_db (λ _, s') w). refine (_ : keeps _ _).
    apply keeps_bind; [auto with keeps|]. intros []. apply keeps_bind; [auto with keeps|]. intros [].
    apply keeps_bind; [|auto with keeps]. apply keeps_assign. intros c' Hc' x. destruct (Hc' x) as (?&?&?&?).
    repeat split; auto. simpl. intros [= <-]. by right.
  - revert Hw. generalize (set_db (λ _, s') w). refine (_ : keeps _ _). apply keeps_complete. by left.
Qed.

Lemma enrollment_allowed r w : r = r_enroll_page ∨ (∃ code, r = r_enroll_verify code) →
  within (we_session w) (password_given (we_db w) r) (factor_given (we_db w) r) (handle r w).2.
Proof.
  intros Hr. pose proof (λ u m tz loc, keeps_complete (we_session w) (password_given (we_db w) r)
    (factor_given (we_db w) r) u m tz loc) as Hc.
  destruct Hr as [->|[code ->]]; simpl; unfold enroll_enhanced_auth_page, enroll_enhanced_auth_verify;
    try (destruct (fits _); cbn [negb]; [|by apply starts_within]); run;
    (destruct (se_pending_enhanced_enrollment_user_id (we_session w)) as [u|] eqn:Hu; [|by apply starts_within]);
    apply within_keeps; (destruct (fa_user _ u) as [row|]; [|keeps_auto]);
    (apply keeps_catch; [auto with keeps|..]).
  - keeps_auto.
  - intros k e. case_decide; [|auto with keeps]. apply keeps_bind; [auto with keeps|]. intros [[]|]; [auto with keeps|].
    apply keeps_bind; [auto with keeps|]. intros []. apply Hc. by right.
  - intros a. apply keeps_bind; [auto with keeps|]. intros []. apply keeps_bind; [auto with keeps|]. intros [].
    apply Hc. by right.
  - keeps_auto.
Qed.

(** Whatever a handler answers, the session it leaves says of a user only what
    the old session said or what the request has just proved. *)
Lemma handle_allowed r w :
  within (we_session w) (password_given (we_db w) r) (factor_given (we_db w) r) (handle r w).2.
Proof.
  destruct r.
  - apply login_allowed.
  - simpl. unfold forced_password_reset_page. run. by destruct (se_pending_password_reset_user_id _); apply starts_within.
  - apply forced_reset_allowed.
  - apply set_password_allowed.
  - by apply starts_within.
  - apply verify_allowed.
  - simpl. unfold mfa_send_email_code. run. destruct (se_pending_mfa_user_id _); [|by apply starts_within].
    apply within_keeps. keeps_auto.
  - apply enrollment_allowed. by left.
  - apply enrollment_allowed. right. by eexists.
  - apply within_keeps. simpl. keeps_auto.
Qed.

(** ** Every cookie that was ever set *)

(** A request with the tables it found, or an answer of a route that is not
    here (routers/saml/authentication.py, routers/oidc_upstream/authentication.py,
    routers/auth/webauthn.py) with the cookie it sets. *)
Inductive event :=
  | mk_request_event (s : factors) (r : request)
  | set_elsewhere (c : session).
(** [world h s cs]: after the events [h], with the tables [s], browsers hold
    the cookies [cs].  Anything else may change the tables, put other texts or
    an upstream sign-in into a session, or do nothing to it.  A request presents a cookie or none; its answer sets a new
    one unless an exception escapes. *)
Inductive world : list event → factors → list session → Prop :=
  | world_start s : world [] s []
  | world_other h s s' cs : world h s cs → world h s' cs
  | world_texts h s cs c f o p : world h s cs → c ∈ empty_session :: cs →
      world h s (with_texts f (with_upstream o p c) :: cs)
  | world_elsewhere h s cs c : world h s cs → world (h ++ [set_elsewhere c]) s (c :: cs)
  | world_request h s cs c r page w : world h s cs → c ∈ empty_session :: cs →
      handle r (mk_web s c []) = (Ok page, w) →
      world (h ++ [mk_request_event s r]) (we_db w) (we_session w :: cs).

(** A cookie speaks of a user as signed in or on the way there. *)
Definition names c (u : uuid) : Prop :=
  se_user_id c = Some u ∨ se_pending_mfa_user_id c = Some u ∨
  se_pending_enhanced_enrollment_user_id c = Some u ∨ se_pending_password_reset_user_id c = Some u.
Definition vouched (h : list event) (u : uuid) : Prop := ∃ c, set_elsewhere c ∈ h ∧ names c u.
Definition proved_password (e : event) (u : uuid) : Prop :=
  match e with mk_request_event s r => password_given s r u | set_elsewhere _ => False end.
Definition proved_factor (e : event) (u : uuid) : Prop :=
  match e with mk_request_event s r => factor_given s r u | set_elsewhere _ => False end.

Definition gave_password (h : list event) (u : uuid) : Prop :=
  vouched h u ∨ ∃ h1 e h2, h = h1 ++ e :: h2 ∧ proved_password e u.
Definition gave_both (h : list event) (u : uuid) : Prop :=
  vouched h u ∨ ∃ h1 e h2, h = h1 ++ e :: h2 ∧ gave_password h1 u ∧ proved_factor e u.
Definition cookie_ok (h : list event) c : Prop := ∀ u,
  (se_user_id c = Some u → gave_both h u) ∧
  (se_pending_mfa_user_id c = Some u → gave_password h u) ∧
  (se_pending_enhanced_enrollment_user_id c = Some u → gave_both h u) ∧
  (se_pending_password_reset_user_id c = Some u → gave_password h u).

Lemma vouched_app h h' u : vouched h u → vouched (h ++ h') u.
Proof. intros (c & Hc & Hu). exists c. split; [apply elem_of_app; by left|done]. Qed.
Lemma gave_password_app h e u : gave_password h u → gave_password (h ++ [e]) u.
Proof.
  intros [Hv|(h1 & e1 & h2 & -> & ?)]; [left; by apply vouched_app|right].
  exists h1, e1, (h2 ++ [e]). by rewrite <- app_assoc.
Qed.
Lemma gave_both_app h e u : gave_both h u → gave_both (h ++ [e]) u.
Proof.
  intros [Hv|(h1 & e1 & h2 & -> & ?)]; [left; by apply vouched_app|right].
  exists h1, e1, (h2 ++ [e]). by rewrite <- app_assoc.
Qed.
Lemma gave_password_now h e u : proved_password e u → gave_password (h ++ [e]) u.
Proof. intros ?. right. by exists h, e, []. Qed.
Lemma gave_both_now h e u : gave_password h u → proved_factor e u → gave_both (h ++ [e]) u.
Proof. intros ??. right. by exists h, e, []. Qed.
Lemma cookie_ok_app h e c : cookie_ok h c → cookie_ok (h ++ [e]) c.
Proof.
  intros Hc u. destruct (Hc u) as (?&?&?&?). repeat split; intros Hu; eauto using gave_password_app, gave_both_app.
Qed.
Lemma cookie_ok_empty h : cookie_ok h empty_session.
Proof. by repeat split. Qed.

Lemma cookie_ok_step h e c c' : cookie_ok h c →
  allowed c (proved_password e) (proved_factor e) c' →
  cookie_ok (h ++ [e]) c'.
Proof.
  intros Hc Hstep u. destruct (cookie_ok_app h e c Hc u) as (A1 & A2 & A3 & A4).
  destruct (Hc u) as (_ & B2 & _), (Hstep u) as (S1 & S2 & S3 & S4). repeat split.
  - intros [?|[[? ?]|?]]%S1; [auto| |auto]. apply gave_both_now; auto.
  - intros [?|[?|?]]%S2; auto using gave_password_now.
  - intros [?|[? ?]]%S3; [auto|]. apply gave_both_now; auto.
  - intros [?|?]%S4; auto using gave_password_now.
Qed.

Lemma world_cookies h s cs : world h s cs → Forall (cookie_ok h) cs.
Proof.
  assert (∀ h c cs, Forall (cookie_ok h) cs → c ∈ empty_session :: cs → cookie_ok h c) as Hin.
  { intros h0 c cs0 Hcs [->|Hc]%elem_of_cons; [apply cookie_ok_empty|]. rewrite Forall_forall in Hcs. auto. }
  induction 1 as [s|h s s' cs _ IH|h s cs c f o p _ IH Hc|h s cs c _ IH|h s cs c r page w _ IH Hc Hr]; [done|done| | |].
  - constructor; [|done]. specialize (Hin _ _ _ IH Hc). exact Hin.
  - assert (∀ u, names c u → vouched (h ++ [set_elsewhere c]) u) as Hv.
    { intros u Hu. exists c. split; [|done]. apply elem_of_app. right. by left. }
    constructor; [|eapply Forall_impl; [exact IH|]; apply cookie_ok_app].
    intros u. unfold names in Hv. split_and!; intros Hu; left; apply Hv; tauto.
  - constructor.
    + eapply cookie_ok_step; [by eapply Hin|]. pose proof (handle_allowed r (mk_web s c [])) as Ha.
      rewrite Hr in Ha. exact Ha.
    + eapply Forall_impl; [exact IH|]. apply cookie_ok_app.
Qed.


(** ** The session behind a page *)

(** What speaks against a session: more seconds have passed since it began than
    the tenant allows (where a limit and a beginning are recorded, zero counting
    as neither), its identifier is among the revoked ones, or its user is
    inactivated or has to change the password. *)
Definition void_session s c u : Prop :=
  (∃ start p limit, se_session_start c = Some start ∧ start ≠ 0 ∧
     ma_security (fa_mail s) = Some p ∧ session_timeout_seconds p = Some limit ∧ limit ≠ 0 ∧
     start + limit < fa_time s) ∨
  (∃ sid, se_sid c = Some sid ∧ sid ≠ "" ∧ sid ∈ revoked_sids (ma_tenant (fa_mail s))) ∨
  (∃ row, fa_user s u = Some row ∧ (ur_is_inactivated row = true ∨ ur_password_reset_required row = true)).
Lemma timed_out_spec s c : timed_out (fa_time s) (se_session_start c) (session_timeout s) = true ↔
  ∃ start p limit, se_session_start c = Some start ∧ start ≠ 0 ∧
     ma_security (fa_mail s) = Some p ∧ session_timeout_seconds p = Some limit ∧ limit ≠ 0 ∧
     start + limit < fa_time s.
Proof.
  unfold timed_out, session_timeout. split.
  - destruct (se_session_start c) as [start|]; [|done]. destruct (ma_security (fa_mail s)) as [p|]; [|done]. simpl.
    destruct (session_timeout_seconds p) as [limit|] eqn:Hl; [|done].
    intros [[Hs%negb_true_iff%Z.eqb_neq Hn%negb_true_iff%Z.eqb_neq]%andb_true_iff Ht%Z.ltb_lt]%andb_true_iff.
    exists start, p, limit. split_and!; [done..|lia].
  - intros (start & p & limit & -> & Hs & -> & Hl & Hn & Ht). simpl. rewrite Hl.
    rewrite (proj2 (Z.eqb_neq _ _) Hs), (proj2 (Z.eqb_neq _ _) Hn). simpl. apply Z.ltb_lt. lia.
Qed.

(** Only the generator moved. *)
Definition only_drew s s' : Prop := s' = set_fa_draws (λ _, fa_draws s') s.
Lemma only_drew_refl s : only_drew s s.
Proof. by destruct s. Qed.
Lemma only_drew_draw s : only_drew s (set_fa_draws S s).
Proof. by destruct s. Qed.
#[local] Hint Resolve only_drew_refl only_drew_draw : core.
Lemma only_drew_user s s' u : only_drew s s' → fa_user s' u = fa_user s u.
Proof. by intros ->. Qed.

Lemma run_check_sid w :
  ∃ b w1, check_sid w = (Ok b, w1) ∧ only_drew (we_db w) (we_db w1) ∧
    (∃ sid, we_session w1 = with_sid sid (we_session w)) ∧
    (b = true ↔ ∃ sid, se_sid (we_session w) = Some sid ∧ sid ≠ "" ∧ sid ∈ revoked_sids (ma_tenant (fa_mail (we_db w)))).
Proof.
  unfold check_sid, is_session_revoked, ensure_session_id, draw_nat, on_db, assign. run.
  destruct (se_sid (we_session w)) as [sid|] eqn:Hs; [case_decide|]; run; rewrite ?Hs; run.
  - rewrite decide_True by done. run. rewrite run_bind. unfold update. run. eexists _, _. split; [done|].
    split; [apply only_drew_draw|]. split; [by eexists|]. split; [done|]. by intros (? & [= <-] & ? & _).
  - eexists _, _. split; [done|]. split; [done|]. split; [exists (Some sid); rewrite <- Hs; by destruct (we_session w)|].
    rewrite bool_decide_eq_true. split; [intros Hr; by exists sid|by intros (? & [= <-] & _ & ?)].
  - rewrite run_bind. unfold update. run. eexists _, _. split; [done|]. split; [apply only_drew_draw|].
    split; [by eexists|]. split; [done|]. by intros (? & ? & _).
Qed.


(** ** Runs of the handlers *)

Lemma run_mail_code u w : ∃ l, mail_code token_key u w = (Ok (), mk_web (we_db w) (we_session w) (we_mailed w ++ l)).
Proof.
  assert (w = mk_web (we_db w) (we_session w) (we_mailed w ++ [])) as E by (rewrite app_nil_r; by destruct w).
  unfold mail_code, create_email_otp, on_db. rewrite run_bind, run_gets. simpl. run.
  replace (set_db (λ _, we_db w) w) with w by by destruct w.
  destruct (get_primary_email _ u) as [to|]; [|by exists []; rewrite <- E].
  case_bool_decide; simpl; [by eexists|]. exists []. by rewrite <- E.
Qed.
Lemma run_start_mfa x w :
  ∃ l, start_mfa token_key x w = (Ok (go "/mfa/verify"),
    mk_web (we_db w) (with_pending_mfa (Some x.1) (ur_mfa_method x.2) (we_session w)) (we_mailed w ++ l)) ∧
    (ur_mfa_method x.2 ≠ Some "email" → l = []).
Proof.
  unfold start_mfa, assign. run. case_bool_decide as Hm; simpl.
  - destruct (run_mail_code x.1 (set_session (with_pending_mfa (Some x.1) (ur_mfa_method x.2)) w)) as [l Hl].
    rewrite run_bind, Hl. exists l. split; [done|by intros []].
  - run. exists []. rewrite app_nil_r. split; [|done]. by destruct w.
Qed.

(** A password that is right leads to the second factor of its user. *)
Lemma login_pending email pw tz loc w p w' :
  login token_key tenant_id email pw tz loc w = (Ok p, w') →
  se_pending_mfa_user_id (we_session w') = se_pending_mfa_user_id (we_session w) ∨
  ∃ x, user_with_id (we_db w) x.1 = Some x ∧ se_pending_mfa_user_id (we_session w') = Some x.1 ∧
    se_pending_mfa_method (we_session w') = ur_mfa_method x.2 ∧
    (ur_mfa_method x.2 ≠ Some "email" → we_mailed w' = we_mailed w).
Proof.
  unfold login. destruct (fits _); cbn [negb]; [|intros [= _ <-]; by left].
  rewrite run_bind. destruct (verify_login_with_status email pw (we_db w)) as [res s'] eqn:Hv.
  rewrite (run_on_db _ _ _ _ Hv). destruct res as [[|status x can|[x|]]|e]; [| | | |done].
  - run. unfold on_db. simpl. intros [= _ <-]. by left.
  - run. unfold on_db. simpl. intros [= _ <-]. by left.
  - apply verify_login_success in Hv as (hash & _ & _ & _ & Hx & _). case_match; [intros [= _ <-]; by left|].
    rewrite !run_bind. unfold set_text.
    assert (∀ k v w, ∃ t, when (bool_decide (v ≠ "")) (assign (with_texts <[k:=v]>)) w = (Ok (), set_session (with_texts t) w)) as Ht.
    { intros k v w0. case_bool_decide; [by eexists|]. exists id. by destruct w0 as [? [] ?]. }
    destruct (Ht "pending_timezone" tz (set_db (λ _, s') w)) as [t1 ->].
    destruct (Ht "pending_locale" loc (set_session (with_texts t1) (set_db (λ _, s') w))) as [t2 E2].
    rewrite run_bind, E2.
    destruct (run_start_mfa x (set_session (with_texts t2) (set_session (with_texts t1) (set_db (λ _, s') w)))) as (l & -> & Hl).
    intros [= _ <-]. right. exists x. split; [done|]. split; [done|]. split; [done|].
    intros Hm. simpl. by rewrite (Hl Hm), app_nil_r.
  - done.
Qed.

(** Completing a sign-in always succeeds, for that user. *)
Lemma run_target w : ∃ url t, get_post_auth_redirect w = (Ok url, set_session (with_texts t) w).
Proof.
  assert (∀ w, w = set_session (with_texts id) w) as E by by intros [? [] ?].
  unfold get_post_auth_redirect. rewrite run_gets_bind. case_decide.
  - exists "/saml/idp/consent", id. by rewrite <- E.
  - destruct (pop_return PENDING_RETURN_PREFIXES _) as [t ts]. unfold assign. by eexists _, _.
Qed.
(** A call that returns, and takes [I] to [J]. *)
Definition total {A} (I J : web → Prop) (m : M web A) : Prop := ∀ w, I w → ∃ a w', m w = (Ok a, w') ∧ J w'.
Lemma total_bind {A B} I J K (m : M web A) (f : A → M web B) :
  total I J m → (∀ a, total J K (f a)) → total I K (m ≫= f).
Proof. intros Hm Hf w Hw. destruct (Hm w Hw) as (a & w1 & Hr & Hj). rewrite run_bind, Hr. by apply Hf. Qed.
Lemma total_gets {A} (I : web → Prop) (g : web → A) : total I I (gets g).
Proof. intros w Hw. by eexists _, _. Qed.
Lemma total_ret {A} (I : web → Prop) (a : A) : total I I (mret a).
Proof. intros w Hw. by eexists _, _. Qed.
Lemma total_modify I J f : (∀ w, I w → J (f w)) → total I J (modify f).
Proof. intros Hf w Hw. eexists _, _. split; [done|]. by apply Hf. Qed.
Lemma total_on_db {A} I (m : M factors A) :
  (∀ w s, I w → I (set_db (λ _, s) w)) → (∀ s, is_ok (m s).1 = true) → total I I (on_db m).
Proof.
  intros HI Hm w Hw. unfold on_db. specialize (Hm (we_db w)). destruct (m (we_db w)) as [[a|] s']; [|done].
  eexists _, _. split; [done|]. by apply HI.
Qed.
Lemma total_when I b m : total I I m → total I I (when b m).
Proof. destruct b; [done|]. intros _. apply total_ret. Qed.

Lemma complete_ok u m tz loc w :
  ∃ p w', complete_authenticated_login u m tz loc w = (Ok p, w') ∧ se_user_id (we_session w') = Some u.
Proof.
  set (J := λ w, se_user_id (we_session w) = Some u). set (I := λ _ : web, True).
  assert (total I J (complete_authenticated_login u m tz loc)) as Ht.
  { unfold complete_authenticated_login.
    eapply total_bind; [apply total_gets|]. intros w0.
    eapply total_bind; [by apply total_on_db|]. intros [].
    eapply total_bind; [apply total_gets|]. intros age.
    eapply (total_bind _ J).
    { unfold regenerate_session, draw_nat. eapply total_bind; [apply total_gets|]. intros now.
      eapply total_bind; [by apply total_on_db|]. intros n. by apply total_modify. }
    intros []. eapply total_bind; [apply total_gets|]. intros sid.
    eapply total_bind.
    { destruct (_pending_upstream_oidc_session _ _ _) as [d|]; [|apply total_ret].
      apply total_on_db; [done|]. intros s. unfold record_upstream_session. by destruct (_ || _). }
    intros []. eapply total_bind; [by apply total_when, total_modify|].
    intros []. eapply total_bind; [by apply total_on_db|].
    intros []. eapply total_bind; [|intros; apply total_ret].
    intros w1 Hw1. destruct (run_target w1) as (url & t & ->). by eexists _, _. }
  by destruct (Ht w Logic.I) as (p & w' & Hr & Hj); exists p, w'.
Qed.
End sign_in.
