(* ===== verification/MfaFindings.v ===== *)
(** * Second factors that lock out or give away too much

    An administrator's reset keeps the method "totp" while it deletes the
    authenticator, so the next sign-in waits for a code nobody can produce; and
    under the enhanced policy the enrolment page shows a user who came in with
    a mailed code the secret of the authenticator they already have.  Then the sign-in
    theorems with hypotheses, applied to a small tenant. *)

From stdpp Require Import gmap strings pretty.
From S2P Require Import Prelude GroupDb Sha256 OAuthDb MailDb MailService Tokens PasswordStrength Credentials SecuritySettings MailWitness MfaDb SignIn MfaProofs SignInProofs.
#[local] Open Scope Z_scope.

Section findings.
Context `{MailIds} `{Nonces} `{UuidText} `{UuidParse} `{Zxcvbn} `{Hibp} `{Argon2Hash} `{Argon2Verify}
  `{DatetimeText} `{FactorIds} `{TokenHex} `{Pyotp} `{Fernet} `{TokenUrlsafe}.
Context (token_key hibp_key : list Z) (BYPASS_OTP : bool) (tenant_id : uuid).
Implicit Types (s : factors) (w : web) (c : session).

(** ** The reset *)

(** Neither secrets nor codes of [u], the method as it was. *)
Definition reset_state u s s' : Prop :=
  fa_totp s' = filter (λ kv : uuid * string * totp_row, kv.1.1 ≠ u) (fa_totp s) ∧
  fa_backup s' = filter (λ kv : uuid * backup_row, bc_user kv.2 ≠ u) (fa_backup s) ∧
  ∃ row, fa_user s u = Some row ∧ fa_user s' u = Some (mk_user (ur_first_name row) (ur_last_name row)
    (ur_role row) (ur_is_inactivated row) (ur_is_anonymized row) (ur_saml_idp_id row)
    (ur_saml_idp_name row) (ur_has_password row) (ur_password_reset_required row) false (ur_mfa_method row)).

Lemma run_reset ru u s row :
  is_admin ru → fa_user s u = Some row →
  ∃ st s', reset_user_mfa ru u s = (Ok st, s') ∧ reset_state u s s' ∧
    ms_enabled st = false ∧ ms_method st = ur_mfa_method row.
Proof.
  intros Hru Hu. unfold reset_user_mfa. rewrite run_require_admin_bind by done. run. rewrite Hu. run.
  pose proof Hu as Hg. unfold fa_user, get_user_row in Hg.
  apply bind_Some in Hg as (a & Ha & (l & Hl & Hrow)%bind_Some).
  unfold remove_factors, delete_totp_secrets, delete_backup_codes, in_mail, update_mfa_status, update_login.
  rewrite !run_bind, run_update, Hl. run.
  match goal with |- context [(mfa_log ?a ?v ?n ?md ≫= _) ?t] => destruct (run_mfa_log a v n md t) as (d & Hd & Hp) end.
  rewrite run_bind, Hd. unfold refreshed_status, _get_refreshed_user, _build_mfa_status.
  run. unfold fa_user, get_user_row. simpl. unfold ma_dir. simpl. rewrite Hp.
  rewrite Ha. simpl. rewrite lookup_insert_eq. simpl. eexists _, _. split; [done|].
  injection Hrow as <-. split; [|done]. split; [done|]. split; [done|].
  eexists. split; [done|]. unfold fa_user, get_user_row, ma_dir. simpl. rewrite Ha, Hp. simpl. by rewrite lookup_insert_eq.
Qed.

Lemma reset_no_secret u s s' : reset_state u s s' → db_get_totp_secret s' u "totp" = None ∧
  get_verified_totp_secret s' u "totp" = None ∧ ∀ h, find_unused s' u h = None.
Proof.
  intros (Ht & Hb & _). unfold db_get_totp_secret, get_verified_totp_secret. rewrite Ht.
  assert (filter (λ kv : uuid * string * totp_row, kv.1.1 ≠ u) (fa_totp s) !! (u, "totp") = None) as ->.
  { apply map_lookup_filter_None. right. by intros x _ []. }
  split; [done|]. split; [done|]. intros h. destruct (find_unused s' u h) as [i|] eqn:Hf; [|done].
  apply find_unused_Some in Hf as (r & Hr & Hu & _). rewrite Hb in Hr.
  by apply map_lookup_filter_Some in Hr as [_ []].
Qed.

(** An administrator's reset of a user whose method is the authenticator
    deletes the secret and the backup codes and disables the factor, but the
    method stays "totp", although the documentation says the user reverts to
    mailed codes.  Setting up an authenticator is then refused as already
    active; a sign-in mails no code and asks for an authenticator's; the page
    that mails one on request declines; and only a mailed code would be
    accepted. *)
Theorem admin_reset_locks_out ru u row s :
  is_admin ru → fa_user s u = Some row → ur_mfa_method row = Some "totp" →
  ∃ st s', reset_user_mfa ru u s = (Ok st, s') ∧ ms_enabled st = false ∧ ms_method st = Some "totp" ∧
    (∃ row', fa_user s' u = Some row' ∧
       setup_totp u row' s' = (Raise (ServiceError ValidationError "totp_already_active"), s')) ∧
    (∀ email pw tz loc w p w', we_db w = s' → login token_key tenant_id email pw tz loc w = (Ok p, w') →
       se_pending_mfa_user_id (we_session w) ≠ Some u → se_pending_mfa_user_id (we_session w') = Some u →
       se_pending_mfa_method (we_session w') = Some "totp" ∧ we_mailed w' = we_mailed w) ∧
    (∀ w, se_pending_mfa_user_id (we_session w) = Some u → se_pending_mfa_method (we_session w) = Some "totp" →
       mfa_send_email_code token_key w = (Ok (go "/mfa/verify"), w)) ∧
    (∀ code via s2, verified_via token_key BYPASS_OTP u (Some "totp") code s' = (Ok (Some via), s2) → via = "email").
Proof.
  intros Hru Hu Hm. destruct (run_reset ru u s row Hru Hu) as (st & s' & Hr & Hs & He & Hst).
  exists st, s'. rewrite Hm in Hst. split_and!; [done..| | | |].
  - destruct Hs as (_ & _ & row0 & Hu0 & Hu'). eexists. split; [exact Hu'|].
    assert (row0 = row) as -> by congruence. unfold setup_totp. run. by rewrite Hm.
  - intros email pw tz loc w p w' <- Hl Hn Hp. apply login_pending in Hl as [E|(x & Hx & E & Em & Hmail)]; [congruence|].
    assert (x.1 = u) as Ex by congruence. rewrite Ex in Hx. destruct Hs as (_ & _ & row0 & Hu0 & Hu').
    unfold user_with_id in Hx. rewrite Hu' in Hx. assert (row0 = row) as -> by congruence.
    injection Hx as <-. simpl in *. rewrite Em, Hmail by by rewrite Hm. done.
  - intros w Hp Hmeth. unfold mfa_send_email_code. run. rewrite Hp, Hmeth. by rewrite decide_True.
  - intros code via s2. destruct (reset_no_secret _ _ _ Hs) as (_ & Hv & Hf).
    rewrite run_verified_via. unfold try_totp, get_totp_secret. rewrite decide_True by done. run. rewrite Hv. run.
    rewrite run_other_factors, Hf. by destruct (email_otp_ok _ _ _ _ _) as [[]|]; intros [= <-].
Qed.

(** ** The enrolment page *)

Lemma run_setup_refused u row s : ur_mfa_method row = Some "totp" →
  setup_totp u row s = (Raise (ServiceError ValidationError "totp_already_active"), s).
Proof. intros Hm. unfold setup_totp. run. by rewrite Hm. Qed.
Lemma run_pending u e x s : db_get_totp_secret s u "totp" = Some e → fernet_decrypt e = Some x →
  get_pending_totp_setup u s = (Ok (Some (format_secret_for_display x, generate_totp_uri x (uri_email s u))), s).
Proof. intros He Hx. unfold get_pending_totp_setup, decrypt_secret. run. rewrite He. run. by rewrite Hx. Qed.
Lemma fa_user_known s u row : fa_user s u = Some row → user_known s u = true ∧ is_Some (fa_logins s !! u).
Proof.
  unfold fa_user, get_user_row, user_known, fa_logins. intros (a & Ha & (l & Hl & _)%bind_Some)%bind_Some.
  split; [|by eexists]. apply bool_decide_eq_true. by eexists.
Qed.

Context `{!FactorIdsLaws}.
Lemma enable_ok u row e x code s :
  fa_user s u = Some row → db_get_totp_secret s u "totp" = Some e → fernet_decrypt e = Some x →
  verify_totp_code BYPASS_OTP (fa_time s) x (code_clean code) = true →
  ∃ codes s', verify_totp_and_enable BYPASS_OTP u code s = (Ok codes, s').
Proof.
  intros [Hk [l Hl]]%fa_user_known He Hx Ht. unfold verify_totp_and_enable, decrypt_secret, verify_totp_secret, enable_mfa.
  run. rewrite He. run. rewrite Hx. run. rewrite Ht. simpl. rewrite run_bind, run_set_method by set_solver.
  match goal with |- context [fa_logins ?t !! u] => change (fa_logins t !! u) with (fa_logins s !! u) end. rewrite Hl.
  match goal with |- context [(_generate_and_store_backup_codes u ≫= _) ?t] =>
    destruct (generate_and_store u t) as (codes & s' & Hg & _); [exact Hk|] end.
  rewrite run_bind, Hg.
  destruct (run_mfa_log (Some u) u "mfa_totp_enabled" [] s') as (d & Hd & _). rewrite run_bind, Hd. run. by eexists _, _.
Qed.

(** C24. Where the policy asks for an authenticator or a passkey, a user who
    has an authenticator and came in with a mailed code is sent to enrol, and
    the enrolment page, which takes the stored secret for an unfinished setup,
    shows the secret in use; a code made from it then signs in.  So password
    and mailbox are enough, and the authenticator is disclosed. *)
Theorem enrollment_discloses_authenticator u row e x code w :
  py_len code <= 100 →
  se_pending_mfa_user_id (we_session w) = Some u → fa_user (we_db w) u = Some row →
  ur_mfa_method row = Some "totp" → db_get_totp_secret (we_db w) u "totp" = Some e → fernet_decrypt e = Some x →
  get_required_auth_strength (fa_mail (we_db w)) = "enhanced" →
  verified_via token_key BYPASS_OTP u (se_pending_mfa_method (we_session w)) (code_clean code) (we_db w) =
    (Ok (Some "email"), we_db w) →
  ∃ w1, mfa_verify token_key BYPASS_OTP code "" "" w = (Ok (go "/login/enroll-enhanced-auth"), w1) ∧
    enroll_enhanced_auth_page w1 =
      (Ok (enroll_form (format_secret_for_display x) (generate_totp_uri x (uri_email (we_db w) u))), w1) ∧
    ∀ code2, py_len code2 <= 100 → verify_totp_code BYPASS_OTP (web_time w) x (code_clean code2) = true →
      ∃ p w2, enroll_enhanced_auth_verify BYPASS_OTP code2 w1 = (Ok p, w2) ∧ se_user_id (we_session w2) = Some u.
Proof.
  intros Hlen Hp Hu Hm He Hx Hpol Hv. exists (set_session (with_pending_enrollment (Some u)) w). split_and!.
  - unfold mfa_verify. rewrite (proj2 (fits_spec _)) by (repeat constructor; done). cbn [negb]. run. rewrite Hp, run_bind. rewrite (run_on_db _ _ _ _ Hv). run.
    replace (set_db (λ _, we_db w) w) with w by by destruct w. rewrite Hu.
    assert (user_must_enroll_enhanced (we_db w) u row (Some "email") = true) as ->
      by (unfold user_must_enroll_enhanced; by rewrite Hpol).
    unfold set_text, assign. by run.
  - unfold enroll_enhanced_auth_page. run. rewrite Hu. unfold catch_service, on_db. simpl.
    rewrite run_setup_refused by done. rewrite decide_True by done. rewrite run_bind. simpl.
    rewrite (run_pending _ _ _ _ He Hx). by destruct w.
  - intros code2 Hlen2 Ht. unfold enroll_enhanced_auth_verify.
    rewrite (proj2 (fits_spec _)) by (repeat constructor; done). cbn [negb]. run. rewrite Hu. unfold catch_service.
    destruct (enable_ok u row e x code2 (we_db w) Hu He Hx Ht) as (codes & s' & Hen).
    erewrite run_on_db by exact Hen.
    destruct (run_mfa_log (Some u) u "user_enhanced_auth_enrolled" [("method", MStr "totp")] s') as (d & Hd & _).
    rewrite run_bind. erewrite run_on_db by exact Hd. unfold end_enrollment, assign. rewrite run_modify_bind.
    apply complete_ok.
Qed.
End findings.

Import MailDemo.

Module MfaDemo.
#[export] Instance demo_factor_ids : FactorIds := λ s, Pos.succ (top (fa_backup s)).
#[export] Instance demo_factor_laws : FactorIdsLaws.
Proof.
  intros s. unfold factor_id, demo_factor_ids. destruct (fa_backup s !! _) as [r|] eqn:Hr; [|done].
  exfalso. pose proof (top_max (fa_backup s) _ (mk_is_Some _ _ Hr)). lia.
Qed.
#[export] Instance demo_token_hex : TokenHex := λ n, "abcd" +:+ pretty (1000 + n)%nat.
#[export] Instance demo_pyotp : Pyotp := {|
  random_base32 n := "BASE" +:+ pretty n;
  totp_verify secret code now := bool_decide (code = "code" +:+ secret +:+ pretty (now / 30));
  provisioning_uri secret name issuer := "otpauth://totp/" +:+ issuer +:+ ":" +:+ name +:+ "?secret=" +:+ secret |}.
#[export] Instance demo_fernet : Fernet := {|
  fernet_encrypt n x := "e" +:+ x;
  fernet_decrypt x := match x with String.String c y => if decide (c = Ascii.ascii_of_nat 101) then Some y else None | _ => None end |}.
#[export] Instance demo_fernet_laws : FernetLaws.
Proof. by intros n x. Qed.
#[export] Instance demo_sids : TokenUrlsafe := λ n, "sid" +:+ pretty n.

Definition staff_login (method : string) (hash : string) : login_row :=
  mk_login "A" "B" (Some hash) (Some 1000) false None None (Some (14, 3)) true (Some method) None.
Definition staff : tenant :=
  mk_tenant (dir people) (clock people) ∅ ∅ ∅ ∅ ∅ ∅ [] ∅ ∅
    {[1%positive := mk_account super_admin false false; 2%positive := mk_account member false false;
      3%positive := mk_account member false false]}.
Definition office : mail :=
  mk_mail staff 6
    {[1%positive := staff_login "email" "s$boss-password-1"; 2%positive := staff_login "totp" "s$ann-password-1";
      3%positive := staff_login "email" "s$bob-password-1"]}
    {[10%positive := row 2 "ann@x.org" true (Some 0) 0;
      11%positive := row 3 "bob@x.org" true (Some 0) 2;
      12%positive := row 1 "boss@x.org" true (Some 0) 4]}
    ∅ ∅ ∅ ∅
    (Some (mk_security None true true (Some 30) 10 90 14 3 "all" false "enhanced")).
Definition desk : factors :=
  mk_factors office 0 {[(2%positive, "totp") := mk_totp "eANNSECRET" (Some 5)]}
    {[100%positive := mk_backup 2 (hash_code "ABCD1234") None 7]} ∅ ∅ ∅ ∅.
(** The same tenant without the policy. *)
Definition relaxed : factors :=
  set_mail (set_security (λ _, None)) desk.
Definition mailed_code (u : uuid) : string :=
  generate_code key (fa_time desk) (uuid_text u) PURPOSE_MFA_EMAIL 300 None.
End MfaDemo.
Import MfaDemo.


Lemma desk_ready : totp_ready desk.
Proof.
  intros u l Hl Hm. assert (u = 2%positive) as ->.
  { unfold fa_logins in Hl. cbn in Hl. repeat (apply lookup_insert_Some in Hl as [[<- <-]|[? Hl]]; [try done|]).
    apply lookup_singleton_Some in Hl as [<- <-]. done. }
  by eexists.
Qed.
Lemma totp_users_have_secret_witness :
  totp_ready (foldl (λ s uc, (run_mfa_call key false uc.1 uc.2 s).2) desk
    [(3%positive, call_setup); (3%positive, call_enable ("codeBASE0" +:+ pretty (fa_time desk / 30)));
     (2%positive, call_downgrade (mailed_code 2))]) ∧
  lo_mfa_method <$> fa_logins (foldl (λ s uc, (run_mfa_call key false uc.1 uc.2 s).2) desk
    [(3%positive, call_setup); (3%positive, call_enable ("codeBASE0" +:+ pretty (fa_time desk / 30)));
     (2%positive, call_downgrade (mailed_code 2))]) !! 3%positive = Some (Some "totp").
Proof.
  split; [apply (totp_users_have_secret key false); exact desk_ready|computed].
Defined.

Lemma world_run h s cs c r page :
  world key key false 9 h s cs → c ∈ empty_session :: cs →
  (handle key key false 9 r (mk_web s c [])).1 = Ok page →
  world key key false 9 (h ++ [mk_request_event s r]) (we_db (handle key key false 9 r (mk_web s c [])).2)
    (we_session (handle key key false 9 r (mk_web s c [])).2 :: cs).
Proof.
  intros Hw Hc Hr. eapply world_request; [exact Hw|exact Hc|].
  rewrite <- Hr. apply surjective_pairing.
Qed.

Abbreviation step1 := (handle key key false 9 (r_login "bob@x.org" "bob-password-1" "" "") (mk_web relaxed empty_session [])).2.
Abbreviation step2 := (handle key key false 9 (r_verify (mailed_code 3) "" "") (mk_web (we_db step1) (we_session step1) [])).2.

Definition signed_in : session :=
  mk_session (Some 3%positive) (Some 100) None (Some "sid7") None None None None None None None ∅.

Lemma admin_reset_locks_out_witness :
  ∃ st s', reset_user_mfa boss 2 desk = (Ok st, s') ∧ ms_method st = Some "totp" ∧
    let w := mk_web s' (with_pending_mfa (Some 2%positive) (Some "totp") empty_session) [] in
    mfa_send_email_code key w = (Ok (go "/mfa/verify"), w).
Proof.
  destruct (admin_reset_locks_out key false 9 boss 2
    (default (mk_user "" "" member false false None None false false false None) (fa_user desk 2)) desk)
    as (st & s' & Hr & _ & Hm & _ & _ & Hsend & _); [right; reflexivity|computed|computed|].
  exists st, s'. split; [exact Hr|]. split; [exact Hm|]. apply Hsend; reflexivity.
Defined.

Lemma enrollment_discloses_authenticator_witness :
  let w := mk_web desk (with_pending_mfa (Some 2%positive) (Some "email") empty_session) [] in
  ∃ w1, mfa_verify key false (mailed_code 2) "" "" w = (Ok (go "/login/enroll-enhanced-auth"), w1) ∧
    enroll_enhanced_auth_page w1 =
      (Ok (enroll_form "ANNS-ECRE-T" "otpauth://totp/PageLoom:ann@x.org?secret=ANNSECRET"), w1).
Proof.
  intros w.
  destruct (enrollment_discloses_authenticator key false 2
    (default (mk_user "" "" member false false None None false false false None) (fa_user desk 2))
    "eANNSECRET" "ANNSECRET" (mailed_code 2) w) as (w1 & H1 & H2 & _); [by vm_compute|computed..|].
  exists w1. split; [exact H1|exact H2].
Defined.
