(* ===== verification/Json.v ===== *)
(** * JSON bodies, as the handlers of inbound SCIM see them

    The value [json.loads] builds, with what the handlers do to it: truth,
    [get], [str], [strip], [split], and the error of a method the value does
    not have.  An object is a list of pairs in the order of the text, a float
    its [repr].  Texts are ASCII. *)

From stdpp Require Import strings pretty list.
From S2P Require Import Prelude Tokens PasswordStrength ScimClient.
#[local] Open Scope Z_scope.

#[warnings="-register-all"]
Inductive json :=
  | JNull
  | JBool (b : bool)
  | JInt (n : Z)
  | JFloat (repr : string)
  | JStr (s : string)
  | JList (l : list json)
  | JDict (d : list (string * json)).
Abbreviation dict := (list (string * json)).

Definition char (n : nat) : Ascii.ascii := Ascii.ascii_of_nat n.

(** [bool(x)]. *)
Definition truthy (x : json) : bool :=
  match x with
  | JNull => false
  | JBool b => b
  | JInt n => negb (n =? 0)
  | JFloat r => bool_decide (r ∉ ["0.0"; "-0.0"])
  | JStr s => bool_decide (s ≠ "")
  | JList l => match l with [] => false | _ => true end
  | JDict d => match d with [] => false | _ => true end
  end.

(** [k in d], [d.get(k)], [d[k] = v] and [d.setdefault(k, {})[k'] = v]. *)
Fixpoint dict_lookup (k : string) (d : dict) : option json :=
  match d with
  | [] => None
  | (k', v) :: d => if decide (k' = k) then Some v else dict_lookup k d
  end.
Definition has_key (k : string) (d : dict) : bool := bool_decide (is_Some (dict_lookup k d)).
Definition get (k : string) (d : dict) : json := default JNull (dict_lookup k d).
Fixpoint dict_set (k : string) (v : json) (d : dict) : dict :=
  match d with
  | [] => [(k, v)]
  | (k', v') :: d => if decide (k' = k) then (k, v) :: d else (k', v') :: dict_set k v d
  end.
Definition attribute_error {A} : outcome A := Raise (PythonError "AttributeError").
Definition type_error {A} : outcome A := Raise (PythonError "TypeError").
Definition set_nested (k k' : string) (v : json) (d : dict) : outcome dict :=
  match dict_lookup k d with
  | None => Ok (dict_set k (JDict [(k', v)]) d)
  | Some (JDict inner) => Ok (dict_set k (JDict (dict_set k' v inner)) d)
  | Some _ => type_error
  end.

(** [isinstance(x, str) and x.strip()], and [(x or "")] when a text method
    is called on it. *)
Definition stripped_str (x : json) : option string :=
  match x with
  | JStr s => let t := py_strip s in if decide (t = "") then None else Some t
  | _ => None
  end.
Definition text_or_blank (x : json) : outcome string :=
  if truthy x then match x with JStr s => Ok s | _ => attribute_error end else Ok "".

(** ** [repr] and [str] *)

Definition hex_char (n : nat) : Ascii.ascii := if (n <? 10)%nat then char (48 + n) else char (87 + n).
Definition repr_char (quote c : Ascii.ascii) : list Ascii.ascii :=
  let n := Ascii.nat_of_ascii c in
  let backslash := char 92 in
  if decide (c = quote) then [backslash; c]
  else if decide (n = 92%nat) then [backslash; backslash]
  else if decide (n = 9%nat) then [backslash; char 116]
  else if decide (n = 10%nat) then [backslash; char 110]
  else if decide (n = 13%nat) then [backslash; char 114]
  else if (n <? 32)%nat || (n =? 127)%nat then
    [backslash; char 120; hex_char (n / 16); hex_char (n mod 16)]
  else [c].
Definition repr_str (s : string) : string :=
  let single := char 39 in let double := char 34 in
  let quote := if bool_decide (single ∈ chars s) && bool_decide (double ∉ chars s) then double else single in
  text_of (quote :: (chars s ≫= repr_char quote) ++ [quote]).

Fixpoint py_repr (x : json) : string :=
  match x with
  | JNull => "None"
  | JBool b => if b then "True" else "False"
  | JInt n => if n <? 0 then "-" +:+ pretty (- n) else pretty n
  | JFloat r => r
  | JStr s => repr_str s
  | JList l => "[" +:+ join ", " (List.map py_repr l) +:+ "]"
  | JDict d => "{" +:+ join ", " (List.map (λ kv, repr_str kv.1 +:+ ": " +:+ py_repr kv.2) d) +:+ "}"
  end.
Definition py_str (x : json) : string := match x with JStr s => s | _ => py_repr x end.

Example py_str_ex :
  py_str (JList [JInt (-5); JStr "it's"; JDict [("k", JBool true); ("n", JNull)]]) =
  text_of (chars "[-5, " ++ [char 34] ++ chars "it's" ++ [char 34] ++ chars ", {'k': True, 'n': None}]").
Proof. vm_compute. reflexivity. Qed.

(** ** Splitting *)

Fixpoint span_word (l : list Ascii.ascii) : list Ascii.ascii * list Ascii.ascii :=
  match l with
  | [] => ([], [])
  | c :: l' => if is_space c then ([], l) else let '(w, rest) := span_word l' in (c :: w, rest)
  end.
(** [s.split(None, n)]. *)
Fixpoint split_max (n : nat) (l : list Ascii.ascii) : list string :=
  match drop_spaces l with
  | [] => []
  | (_ :: _) as l1 =>
      match n with
      | O => [text_of l1]
      | S n => let '(w, rest) := span_word l1 in text_of w :: split_max n rest
      end
  end.
(** [s.rsplit(c, 1)[-1]], [s.count(c)]. *)
Definition after_last (c : Ascii.ascii) (s : string) : string :=
  text_of (default [] (last (split_on c (chars s)))).
Definition count_char (c : Ascii.ascii) (s : string) : nat :=
  length (filter (λ d, d = c) (chars s)).

(** [s.replace(w, "")] for a word that is not empty. *)
Fixpoint drop_prefix (w l : list Ascii.ascii) : option (list Ascii.ascii) :=
  match w, l with
  | [], _ => Some l
  | c :: w, d :: l => if decide (c = d) then drop_prefix w l else None
  | _ :: _, [] => None
  end.
Definition remove_word (w : string) (l : list Ascii.ascii) : list Ascii.ascii :=
  substitute (length l) (drop_prefix (chars w)) [] l.

Example split_ex : split_max 1 (chars "  ann b  c") = ["ann"; "b  c"] ∧ split_max 1 (chars "ann ") = ["ann"] ∧
  after_last (char 58) "urn:a:b:c" = "c" ∧ text_of (remove_word "urn:" (chars "urn:x")) = "x".
Proof. split_and!; reflexivity. Qed.


(** ** utils/validate.py *)

Definition is_email_like (value : string) : bool :=
  let s := py_strip value in
  let at_ := char 64 in let dot := char 46 in
  let '(local, domain) := partition at_ s in
  bool_decide (value ≠ "") && (count_char at_ s =? 1)%nat &&
  bool_decide (local ≠ "") && bool_decide (domain ≠ "") &&
  forallb (λ w, bool_decide (w ≠ [])) (split_on dot (chars domain)) &&
  bool_decide (dot ∈ chars domain).

Example email_like_ex : is_email_like "ann@x.org" = true ∧ is_email_like "ann.smith" = false ∧
  is_email_like "ann@x" = false ∧ is_email_like "a@b@x.org" = false ∧ is_email_like "ann@x..org" = false.
Proof. split_and!; reflexivity. Qed.

(** ** [uuid.UUID(value)]

    The prefixes, braces and dashes are dropped in that order; then 32 characters
    have to read as a number in base 16. *)

Definition hex_digit (c : Ascii.ascii) : bool :=
  let n := Ascii.nat_of_ascii (lower c) in
  (((48 <=? n) && (n <=? 57)) || ((97 <=? n) && (n <=? 102)))%nat.
(** [int(l, 16)], which cannot be negative here: there are no dashes. *)
Definition int16_ok (l : list Ascii.ascii) : bool :=
  let l := rev (drop_spaces (rev (drop_spaces l))) in
  let l := match l with c :: l' => if decide (c = char 43) then l' else l | [] => [] end in
  let l := match l with
           | z :: x :: l' =>
               if bool_decide (z = char 48) && bool_decide (lower x = char 120) then
                 match l' with u :: l'' => if decide (u = char 95) then l'' else l' | [] => [] end
               else l
           | _ => l
           end in
  forallb (λ w, bool_decide (w ≠ []) && forallb hex_digit w) (split_on (char 95) l).
Fixpoint drop_braces (l : list Ascii.ascii) : list Ascii.ascii :=
  match l with
  | c :: l' => if decide (c = char 123 ∨ c = char 125) then drop_braces l' else l
  | [] => []
  end.
Definition _looks_like_uuid (value : string) : bool :=
  let l := remove_word "uuid:" (remove_word "urn:" (chars value)) in
  let l := rev (drop_braces (rev (drop_braces l))) in
  let l := filter (λ c, c ≠ char 45) l in
  (length l =? 32)%nat && int16_ok l.

Example uuid_ex : _looks_like_uuid "{6f9619ff-8b86-d011-b42d-00c04fc964ff}" = true ∧
  _looks_like_uuid "urn:uuid:6f9619ff-8b86-d011-b42d-00c04fc964ff" = true ∧
  _looks_like_uuid "00u1abcd" = false ∧ _looks_like_uuid "6f9619ff-8b86-d011-b42d-00c04fc964fg" = false.
Proof. split_and!; vm_compute; reflexivity. Qed.
