(* ===== verification/AttrDb.v ===== *)
(** * User attributes and the directory

    app/constants/user_attributes.py and the statements of
    app/database/user_attributes.py, user_idp_attributes.py,
    tenant_attribute_config.py, and of database/users and database/saml that
    inbound SCIM runs.  [directory] adds to [factors] the dates of user and
    group rows, the flag that forces a profile to be completed, the
    attributes of a user (canonical, and as each identity provider last sent
    them), and the tenant's configuration of each attribute. *)

From stdpp Require Import gmap strings.
From S2P Require Import Prelude GroupDb OAuthDb UserLifecycle MailDb MailService Tokens PasswordStrength ScimClient MfaDb Json.
#[local] Open Scope Z_scope.

(** ** constants/user_attributes.py *)

Inductive value_type := string_value | country_value | locale_value | phone_value | postal_code_value.
Record standard_attribute := mk_standard {
  sa_key : string;
  sa_category : string;
  sa_value_type : value_type;
  sa_max_length : nat;
}.
Definition STANDARD_ATTRIBUTES : list standard_attribute := [
  mk_standard "phone_work" "contact" phone_value 50;
  mk_standard "phone_mobile" "contact" phone_value 50;
  mk_standard "display_name" "professional" string_value 255;
  mk_standard "job_title" "professional" string_value 255;
  mk_standard "department" "professional" string_value 255;
  mk_standard "organization" "professional" string_value 255;
  mk_standard "employee_id" "professional" string_value 255;
  mk_standard "street_address" "location" string_value 255;
  mk_standard "city" "location" string_value 255;
  mk_standard "state" "location" string_value 255;
  mk_standard "postal_code" "location" postal_code_value 20;
  mk_standard "country" "location" country_value 2;
  mk_standard "preferred_language" "profile" locale_value 10;
  mk_standard "description" "profile" string_value 2000].
Definition registered (key : string) : option standard_attribute :=
  head (filter (λ a, sa_key a = key) STANDARD_ATTRIBUTES).
Definition is_standard_attribute (key : string) : bool := bool_decide (is_Some (registered key)).
Definition CATEGORIES : list string := ["contact"; "professional"; "location"; "profile"].

Definition is_alpha (c : Ascii.ascii) : bool :=
  let n := Ascii.nat_of_ascii (lower c) in ((97 <=? n) && (n <=? 122))%nat.
Definition is_digit (c : Ascii.ascii) : bool :=
  let n := Ascii.nat_of_ascii c in ((48 <=? n) && (n <=? 57))%nat.
Definition is_alnum (c : Ascii.ascii) : bool := is_alpha c || is_digit c.
Definition dash : Ascii.ascii := char 45.

(** The patterns, on a value without surrounding space (so that [$] is the
    end).  The [.] of the look-ahead does not match a line feed. *)
Definition length_in (m n : nat) (l : list Ascii.ascii) : bool := ((m <=? length l) && (length l <=? n))%nat.
Definition _COUNTRY_RE (l : list Ascii.ascii) : bool := (length l =? 2)%nat && forallb is_alpha l.
Definition _LOCALE_RE (l : list Ascii.ascii) : bool :=
  match split_on dash l with
  | w :: ws => length_in 2 3 w && forallb is_alpha w &&
               forallb (λ w, length_in 2 4 w && forallb is_alnum w) ws
  | [] => false
  end.
Fixpoint first_line (l : list Ascii.ascii) : list Ascii.ascii :=
  match l with
  | [] => []
  | c :: l => if decide (c = char 10) then [] else c :: first_line l
  end.
Definition phone_char (c : Ascii.ascii) : bool :=
  is_digit c || is_space c || bool_decide (c ∈ chars "+-().x").
Definition _PHONE_RE (l : list Ascii.ascii) : bool :=
  existsb is_digit (first_line l) && bool_decide (l ≠ []) && forallb phone_char l.
Definition _POSTAL_RE (l : list Ascii.ascii) : bool :=
  bool_decide (l ≠ []) && forallb (λ c, is_alnum c || is_space c || bool_decide (c = dash)) l.

(** ["-".join(l)]. *)
Fixpoint join_dashes (l : list (list Ascii.ascii)) : list Ascii.ascii :=
  match l with
  | [] => []
  | [w] => w
  | w :: ws => w ++ dash :: join_dashes ws
  end.
(** Language lower, region upper. *)
Definition canonical_region (w : list Ascii.ascii) : list Ascii.ascii :=
  if length_in 2 3 w && forallb is_alpha w then upper <$> w else w.
Definition canonical_locale (l : list Ascii.ascii) : list Ascii.ascii :=
  join_dashes (match split_on dash l with
               | w :: region :: ws => (lower <$> w) :: canonical_region region :: ws
               | [w] => [lower <$> w]
               | [] => []
               end).

Definition value_error {A} : outcome A := Raise (PythonError "AttributeValueError").
Definition normalize_value (t : value_type) (normalized : string) : outcome string :=
  let l := chars normalized in
  match t with
  | country_value => if _COUNTRY_RE l then Ok (upper_string normalized) else value_error
  | locale_value => if _LOCALE_RE l then Ok (text_of (canonical_locale l)) else value_error
  | phone_value => if _PHONE_RE l then Ok normalized else value_error
  | postal_code_value => if _POSTAL_RE l then Ok normalized else value_error
  | string_value => Ok normalized
  end.
Definition serialize (key value : string) : outcome string :=
  match registered key with
  | None => Raise (PythonError "KeyError")
  | Some attr =>
      let normalized := py_strip value in
      if decide (normalized = "") then value_error
      else if decide (Z.of_nat (sa_max_length attr) < py_len normalized)%Z then value_error
      else normalize_value (sa_value_type attr) normalized
  end.
Definition deserialize (key raw : string) : outcome string := serialize key raw.

Example serialize_ex :
  serialize "country" " se" = Ok "SE" ∧ serialize "preferred_language" "PT-br" = Ok "pt-BR" ∧
  serialize "phone_work" "+++" = value_error ∧ serialize "phone_work" "+1 (555) 1-4 x42" = Ok "+1 (555) 1-4 x42" ∧
  serialize "preferred_language" "zh-Hant-TW" = Ok "zh-Hant-TW" ∧ serialize "city" "  " = value_error ∧
  serialize "shoe_size" "42" = Raise (PythonError "KeyError").
Proof. split_and!; reflexivity. Qed.

(** ** The tables *)

Inductive source := from_idp | from_admin | from_self.
#[export] Instance source_eq_dec : EqDecision source.
Proof. solve_decision. Defined.

Record attr_row := mk_attr { at_value : string; at_source : source; at_updated_at : Z }.
Record config_row := mk_config {
  cf_id : uuid;
  cf_category : string;
  cf_enabled : bool;
  cf_required : bool;
  cf_mirror_from_idp : bool;
  cf_locked_for_users : bool;
  cf_send_to_sps_default : bool;
  cf_allow_self_sourced_to_sp : bool;
}.
Record dates := mk_dates { created_at : Z; updated_at : Z }.

Record directory := mk_directory {
  di_factors : factors;
  di_dates : gmap uuid dates;                      (* of users *)
  di_group_dates : gmap uuid dates;
  di_force : gset uuid;                            (* users.force_profile_completion *)
  di_attrs : gmap (uuid * string) attr_row;        (* unique (user_id, attribute_key) *)
  di_mirror : gmap (uuid * uuid * string) string;  (* (user_id, idp_id, attribute_key) *)
  di_config : gmap string config_row;              (* by attribute_key *)
}.
Definition di_mail (s : directory) : mail := fa_mail (di_factors s).
Definition di_tenant (s : directory) : tenant := ma_tenant (di_mail s).
Definition di_dir (s : directory) : db := ma_dir (di_mail s).
Definition di_clock (s : directory) : Z := fa_clock (di_factors s).

Section setters.
Implicit Types s : directory.
Definition set_factors f s := mk_directory (f (di_factors s)) (di_dates s) (di_group_dates s)
  (di_force s) (di_attrs s) (di_mirror s) (di_config s).
Definition set_dates f s := mk_directory (di_factors s) (f (di_dates s)) (di_group_dates s)
  (di_force s) (di_attrs s) (di_mirror s) (di_config s).
Definition set_group_dates f s := mk_directory (di_factors s) (di_dates s) (f (di_group_dates s))
  (di_force s) (di_attrs s) (di_mirror s) (di_config s).
Definition set_force f s := mk_directory (di_factors s) (di_dates s) (di_group_dates s)
  (f (di_force s)) (di_attrs s) (di_mirror s) (di_config s).
Definition set_attrs f s := mk_directory (di_factors s) (di_dates s) (di_group_dates s)
  (di_force s) (f (di_attrs s)) (di_mirror s) (di_config s).
Definition set_mirror f s := mk_directory (di_factors s) (di_dates s) (di_group_dates s)
  (di_force s) (di_attrs s) (f (di_mirror s)) (di_config s).
Definition set_config f s := mk_directory (di_factors s) (di_dates s) (di_group_dates s)
  (di_force s) (di_attrs s) (di_mirror s) (f (di_config s)).
Definition set_denied (f : gset uuid → gset uuid) (s : factors) : factors :=
  mk_factors (fa_mail s) (fa_draws s) (fa_totp s) (fa_backup s) (fa_passkeys s) (fa_profiles s)
    (f (fa_denied s)) (fa_requests s).
End setters.

(** Calls of the code below. *)
Definition in_factors {A} (m : M factors A) : M directory A :=
  λ s, let '(r, t) := m (di_factors s) in (r, set_factors (λ _, t) s).
Definition di_in_mail {A} (m : M mail A) : M directory A := in_factors (in_mail m).
Definition di_in_tenant {A} (m : M tenant A) : M directory A := di_in_mail (in_tenant m).
Definition di_in_groups {A} (m : M db A) : M directory A := di_in_mail (in_groups m).
Definition di_log (actor : option uuid) (artifact_type : string) (i : uuid) (name : string)
    (md : list (string * meta)) : M directory () := di_in_groups (log_event actor artifact_type i name md).

Class DirectoryIds := directory_id : directory → uuid.

(** [UniqueViolation]: the unique indexes among the constraints, and
    [Exception], which a statement that never ends is not. *)
Definition unique_indexes : list string :=
  ["users_pkey"; "user_emails_pkey"; "user_emails_tenant_id_email_key"; "user_emails_primary_per_user";
   "user_idp_external_id_unique"; "groups_pkey"; "idx_groups_name_unique"].
Definition unique_violation (e : exn) : bool :=
  match e with IntegrityError c => bool_decide (c ∈ unique_indexes) | _ => false end.
Definition any_exception (e : exn) : bool :=
  match e with StatementDiverges => false | _ => true end.

Section database.
Context `{Collation} `{DirectoryIds}.
Implicit Types s : directory.

(** ** database/users and database/saml *)

Definition user_exists_row s (u : uuid) : bool := bool_decide (is_Some (accounts (di_tenant s) !! u)).
Definition idp_exists s (idp : uuid) : bool := bool_decide (is_Some (providers (di_dir s) !! (saml, idp))).

(** Every update of a user's row sets [updated_at]: the trigger
    [trg_users_updated_at]. *)
Definition touch (u : uuid) : M directory () :=
  modify (λ s, set_dates (alter (λ d, mk_dates (created_at d) (di_clock s)) u) s).
Definition update_users (u : uuid) (m : M directory nat) : M directory nat :=
  n ← m; _ ← when (negb (n =? 0)%nat) (touch u); mret n.

Definition name_too_long (x : string) : bool := bool_decide (200 < py_len x)%Z.
(** The row [insert into users] makes with its defaults; no password. *)
Definition new_login (first_name last_name : string) : login_row :=
  mk_login first_name last_name None None false None None None true (Some "email") None.
Definition db_create_user (first_name last_name : string) (r : role) : M directory uuid :=
  s ← gets id;
  _ ← raise_if (name_too_long first_name) (IntegrityError "users_first_name_check");
  _ ← raise_if (name_too_long last_name) (IntegrityError "users_last_name_check");
  let u := directory_id s in
  _ ← raise_if (user_exists_row s u) (IntegrityError "users_pkey");
  _ ← di_in_tenant (modify (λ t, set_dir (λ d, mk_db (groups d) (relationships d) (lineage d)
        (memberships d) ({[u]} ∪ users d) (providers d) (apps d) (assignments d) (events d) (activity d))
        (set_accounts (insert u (mk_account r false false)) t)));
  _ ← di_in_mail (modify (set_logins (insert u (new_login first_name last_name))));
  _ ← in_factors (modify (set_profiles (insert u (mk_profile None None None))));
  _ ← modify (set_dates (insert u (mk_dates (di_clock s) (di_clock s))));
  mret u.

Definition with_names (first_name last_name : string) (l : login_row) : login_row :=
  mk_login first_name last_name (lo_password_hash l) (lo_password_changed_at l)
    (lo_password_reset_required l) (lo_hibp_prefix l) (lo_hibp_check_hmac l) (lo_policy_at_set l)
    (lo_mfa_enabled l) (lo_mfa_method l) (lo_saml_idp l).
Definition update_user_profile (u : uuid) (first_name last_name : string) : M directory nat :=
  s ← gets id;
  _ ← raise_if (user_exists_row s u && name_too_long first_name) (IntegrityError "users_first_name_check");
  _ ← raise_if (user_exists_row s u && name_too_long last_name) (IntegrityError "users_last_name_check");
  update_users u (di_in_mail (update_login u (with_names first_name last_name))).
Definition set_user_idp (u idp : uuid) : M directory nat :=
  s ← gets id;
  _ ← raise_if (user_exists_row s u && negb (idp_exists s idp)) (IntegrityError "users_saml_idp_id_fkey");
  update_users u (di_in_mail (update_login u (with_idp (Some idp)))).
Definition di_inactivate_user_row (u : uuid) : M directory nat :=
  update_users u (di_in_tenant (inactivate_user_row u)).
Definition di_reactivate_user_row (u : uuid) : M directory nat :=
  update_users u (di_in_tenant (reactivate_user_row u)).
Definition clear_reactivation_denied (u : uuid) : M directory nat :=
  update_users u (s ← gets id;
    _ ← in_factors (modify (set_denied (λ d, d ∖ {[u]})));
    mret (if user_exists_row s u then 1%nat else 0%nat)).
Definition set_force_profile_completion (u : uuid) (required : bool) : M directory nat :=
  update_users u (s ← gets id;
    _ ← modify (set_force (λ f, if required then (if user_exists_row s u then {[u]} ∪ f else f) else f ∖ {[u]}));
    mret (if user_exists_row s u then 1%nat else 0%nat)).
Definition user_row_of s (u : uuid) : option user_row := get_user_row (di_mail s) u.
Definition force_profile_completion s (u : uuid) : bool := bool_decide (u ∈ di_force s).

(** ** database/user_attributes.py *)

Definition db_list_attributes s (u : uuid) : list (string * attr_row) :=
  order_by_name fst
    (omap (λ kv : uuid * string * attr_row, if decide (kv.1.1 = u) then Some (kv.1.2, kv.2) else None)
       (map_to_list (di_attrs s))).
Definition db_get_attribute s (u : uuid) (key : string) : option attr_row := di_attrs s !! (u, key).
Definition too_long_value (value : string) : bool := bool_decide (2000 < py_len value)%Z.
Definition upsert_attribute (u : uuid) (key value : string) (src : source) : M directory attr_row :=
  s ← gets id;
  _ ← raise_if (negb (no_nul value)) (PythonError "DataError");
  _ ← raise_if (too_long_value value) (IntegrityError "user_attributes_value_length_check");
  _ ← raise_if (negb (user_exists_row s u)) (IntegrityError "user_attributes_user_tenant_fkey");
  let row := mk_attr value src (di_clock s) in
  _ ← modify (set_attrs (insert (u, key) row));
  mret row.
Definition delete_attribute (u : uuid) (key : string) : M directory nat :=
  update (λ s, ((if decide (is_Some (di_attrs s !! (u, key))) then 1%nat else 0%nat),
                set_attrs (delete (u, key)) s)).

(** [ua.value is null or btrim(ua.value) = '']. *)
Definition blank_value (r : option attr_row) : bool :=
  match r with
  | Some r => forallb (λ c, bool_decide (c = char 32)) (chars (at_value r))
  | None => true
  end.
Record missing_row := mk_missing {
  mi_user : uuid;
  mi_first_name : string;
  mi_last_name : string;
  mi_email : option string;
  mi_key : string;
  mi_locked : bool;
}.
(** [order by u.last_name, u.first_name, c.attribute_key]. *)
Definition missing_before (x y : missing_row) : Prop :=
  if decide (mi_last_name x = mi_last_name y) then
    if decide (mi_first_name x = mi_first_name y) then collate_le (mi_key x) (mi_key y) = true
    else collate_le (mi_first_name x) (mi_first_name y) = true
  else collate_le (mi_last_name x) (mi_last_name y) = true.
#[export] Instance missing_before_dec : RelDecision missing_before.
Proof. intros x y. unfold missing_before. repeat case_match; apply _. Defined.
Definition missing_of s (kc : string * config_row) (ua : uuid * account_row) : option missing_row :=
  l ← ma_logins (di_mail s) !! ua.1;
  if cf_enabled kc.2 && cf_required kc.2 && negb (us_is_inactivated ua.2) && negb (us_is_anonymized ua.2) &&
     negb (is_service_user (di_tenant s) ua.1) && blank_value (di_attrs s !! (ua.1, kc.1))
  then Some (mk_missing ua.1 (lo_first_name l) (lo_last_name l) (get_primary_email (di_mail s) ua.1)
               kc.1 (cf_locked_for_users kc.2))
  else None.
Definition list_missing_required_for_tenant s : list missing_row :=
  merge_sort missing_before
    (kc ← map_to_list (di_config s); omap (missing_of s kc) (map_to_list (accounts (di_tenant s)))).
Definition db_count_users_with_missing_required s : nat :=
  size (list_to_set (mi_user <$> list_missing_required_for_tenant s) : gset uuid).

(** ** database/user_idp_attributes.py *)

Definition EXTERNAL_ID_KEY : string := "__external_id".
(** [order by idp_id, attribute_key], whatever the order of ids. *)
Definition list_idp_attributes s (u : uuid) : list (uuid * string * string) :=
  omap (λ kv : uuid * uuid * string * string,
      if decide (kv.1.1.1 = u) then Some (kv.1.1.2, kv.1.2, kv.2) else None)
    (map_to_list (di_mirror s)).
(** [attribute_key <> all(keys)]; no keys: every row of the user and provider. *)
Definition delete_mirror_except (u idp : uuid) (keys : list string) : M directory () :=
  modify (set_mirror (filter (λ kv : uuid * uuid * string * string,
    ¬ (kv.1.1 = (u, idp) ∧ kv.1.2 ∉ keys)))).
Definition external_id_taken s (u idp : uuid) (external_id : string) : bool :=
  bool_decide (map_Exists (λ (k : uuid * uuid * string) v,
    k.1.2 = idp ∧ k.2 = EXTERNAL_ID_KEY ∧ v = external_id ∧ k.1.1 ≠ u) (di_mirror s)).
Definition upsert_mirror (u idp : uuid) (key value : string) : M directory () :=
  s ← gets id;
  _ ← raise_if (negb (no_nul value)) (PythonError "DataError");
  _ ← raise_if (too_long_value value) (IntegrityError "user_idp_attributes_value_length_check");
  _ ← raise_if (bool_decide (key = EXTERNAL_ID_KEY) && external_id_taken s u idp value)
        (IntegrityError "user_idp_external_id_unique");
  _ ← raise_if (negb (user_exists_row s u)) (IntegrityError "user_idp_attributes_user_tenant_fkey");
  _ ← raise_if (negb (idp_exists s idp)) (IntegrityError "user_idp_attributes_idp_fkey");
  modify (set_mirror (insert (u, idp, key) value)).
Definition set_external_id (u idp : uuid) (external_id : string) : M directory () :=
  upsert_mirror u idp EXTERNAL_ID_KEY external_id.
Definition get_external_id s (u idp : uuid) : option string := di_mirror s !! (u, idp, EXTERNAL_ID_KEY).
Definition get_user_id_by_external_id s (idp : uuid) (external_id : string) : option uuid :=
  (λ kv : uuid * uuid * string * string, kv.1.1.1) <$>
    head (filter (λ kv : uuid * uuid * string * string,
        kv.1.1.2 = idp ∧ kv.1.2 = EXTERNAL_ID_KEY ∧ kv.2 = external_id) (map_to_list (di_mirror s))).
Definition delete_for_user (u : uuid) : M directory nat :=
  update (λ s, (size (filter (λ kv : uuid * uuid * string * string, kv.1.1.1 = u) (di_mirror s)),
    set_mirror (filter (λ kv : uuid * uuid * string * string, kv.1.1.1 ≠ u)) s)).
Definition delete_for_user_idp (u idp : uuid) : M directory nat :=
  update (λ s, (size (filter (λ kv : uuid * uuid * string * string, kv.1.1 = (u, idp)) (di_mirror s)),
    set_mirror (filter (λ kv : uuid * uuid * string * string, kv.1.1 ≠ (u, idp))) s)).

(** ** database/tenant_attribute_config.py *)

Definition category_rank (c : string) : nat :=
  default 99%nat (list_find (c =.) CATEGORIES ≫= λ kv, Some (S kv.1)).
Definition config_before (x y : string * config_row) : Prop :=
  if decide (category_rank (cf_category x.2) = category_rank (cf_category y.2))
  then collate_le x.1 y.1 = true
  else (category_rank (cf_category x.2) < category_rank (cf_category y.2))%nat.
#[export] Instance config_before_dec : RelDecision config_before.
Proof. intros x y. unfold config_before. case_decide; apply _. Defined.
Definition list_config s : list (string * config_row) := merge_sort config_before (map_to_list (di_config s)).
Definition get_config s (key : string) : option config_row := di_config s !! key.
Definition update_config (key : string)
    (enabled required mirror_from_idp locked_for_users send_to_sps_default allow_self_sourced_to_sp : bool) :
    M directory nat :=
  update (λ s, ((if decide (is_Some (di_config s !! key)) then 1%nat else 0%nat),
    set_config (alter (λ r, mk_config (cf_id r) (cf_category r) enabled required mirror_from_idp
      locked_for_users send_to_sps_default allow_self_sourced_to_sp) key) s)).
(** [on conflict do nothing]. *)
Definition insert_config_row (key category : string) : M directory nat :=
  update (λ s, match di_config s !! key with
               | Some _ => (0%nat, s)
               | None => (1%nat, set_config (insert key
                   (mk_config (directory_id s) category false false true false true false)) s)
               end).
End database.
