(* ===== verification/Attributes.v ===== *)
(** * Attribute services

    app/services/users/attributes.py, app/services/settings/attributes.py,
    and what app/services/service_providers/sso.py puts into an assertion.
    Invalidating the cached badge is not modelled. *)

From stdpp Require Import gmap strings.
From S2P Require Import Prelude GroupDb AppAccess OAuthDb UserLifecycle MailDb SecuritySettings MfaDb Json AttrDb.
#[local] Open Scope Z_scope.

Definition admin_role (ru : requesting_user) : bool :=
  bool_decide (ru_role ru = admin ∨ ru_role ru = super_admin).
(** The [changes] of an event: what happened to which key, not the values. *)
Definition change_meta (l : list (string * string)) : meta :=
  MStrs ((λ kv, kv.1 +:+ ": " +:+ kv.2) <$> l).

Section services.
Context `{Collation} `{DirectoryIds}.
Implicit Types s : directory.

Definition di_track (u : uuid) : M directory () := di_in_groups (track_activity u).

Definition _require_known_attribute (key : string) : M directory () :=
  raise_if (negb (is_standard_attribute key)) (ServiceError ValidationError "unknown_attribute_key").
Definition _require_enabled (key : string) : M directory config_row :=
  found ← gets (λ s, get_config s key);
  match found with
  | Some c => if cf_enabled c then mret c
              else raise (ServiceError ValidationError "attribute_not_enabled")
  | None => raise (ServiceError ValidationError "attribute_not_enabled")
  end.
Definition _enforce_self_edit_policy (ru : requesting_user) (target : uuid) (locked_for_users : bool) :
    M directory () :=
  if admin_role ru then mret ()
  else
    _ ← raise_if (bool_decide (ru_id ru ≠ target)) (ServiceError ForbiddenError "forbidden");
    allowed ← gets (λ s, can_user_edit_profile (di_mail s));
    _ ← raise_if (negb allowed) (ServiceError ForbiddenError "profile_editing_disabled");
    raise_if locked_for_users (ServiceError ForbiddenError "attribute_locked").

(** ** Reads *)

Definition may_read (ru : requesting_user) (u : uuid) : M directory () :=
  raise_if (bool_decide (ru_id ru ≠ u) && negb (admin_role ru)) (ServiceError ForbiddenError "forbidden").
Definition list_user_attributes (ru : requesting_user) (u : uuid) : M directory (list (string * attr_row)) :=
  _ ← di_track (ru_id ru); _ ← may_read ru u; gets (λ s, db_list_attributes s u).
Definition get_user_attribute (ru : requesting_user) (u : uuid) (key : string) : M directory (option attr_row) :=
  _ ← di_track (ru_id ru); _ ← may_read ru u; _ ← _require_known_attribute key;
  gets (λ s, db_get_attribute s u key).
Definition list_user_idp_attributes (ru : requesting_user) (u : uuid) :
    M directory (list (uuid * string * string)) :=
  _ ← di_track (ru_id ru);
  _ ← raise_if (negb (admin_role ru)) (ServiceError ForbiddenError "admin_required");
  gets (λ s, list_idp_attributes s u).

(** ** Required attributes *)

(** The keys that are required and enabled and have no value, with whether
    the user may not fill them. *)
Definition has_value s (u : uuid) (key : string) : bool :=
  match di_attrs s !! (u, key) with
  | Some r => bool_decide (at_value r ≠ "") && bool_decide (py_strip (at_value r) ≠ "")
  | None => false
  end.
Definition compute_missing_required s (u : uuid) : list (string * bool) :=
  omap (λ kc : string * config_row,
    if cf_enabled kc.2 && cf_required kc.2 && negb (has_value s u kc.1)
    then Some (kc.1, cf_locked_for_users kc.2) else None) (list_config s).
Definition user_fixable_missing s (u : uuid) : list string :=
  fst <$> filter (λ kl : string * bool, kl.2 = false) (compute_missing_required s u).

Definition _maybe_clear_force_profile_completion (u : uuid) : M directory () :=
  s ← gets id;
  when (user_exists_row s u && force_profile_completion s u &&
        bool_decide (user_fixable_missing s u = []))
    (_ ← set_force_profile_completion u false; mret ()).

Definition list_users_with_missing_required (ru : requesting_user) :
    M directory (list (missing_row * bool)) :=
  _ ← require_admin ru;
  _ ← di_track (ru_id ru);
  gets (λ s, (λ r, (r, force_profile_completion s (mi_user r))) <$> list_missing_required_for_tenant s).
Definition count_users_with_missing_required (ru : requesting_user) : M directory nat :=
  _ ← require_admin ru; _ ← di_track (ru_id ru); gets db_count_users_with_missing_required.

Record force_result := mk_force_result {
  flagged : list uuid;
  skipped_locked : list uuid;
  skipped_complete : list uuid;
}.
Fixpoint force_loop (actor : uuid) (us : list uuid) (acc : force_result) : M directory force_result :=
  match us with
  | [] => mret acc
  | u :: us =>
      missing ← gets (λ s, compute_missing_required s u);
      if decide (missing = []) then
        force_loop actor us (mk_force_result (flagged acc) (skipped_locked acc) (skipped_complete acc ++ [u]))
      else if existsb snd missing then
        force_loop actor us (mk_force_result (flagged acc) (skipped_locked acc ++ [u]) (skipped_complete acc))
      else
        _ ← set_force_profile_completion u true;
        _ ← di_log (Some actor) "user" u "user_force_profile_completion_set"
              [("missing_keys", MStrs (missing.*1))];
        force_loop actor us (mk_force_result (flagged acc ++ [u]) (skipped_locked acc) (skipped_complete acc))
  end.
Definition bulk_set_force_profile_completion (ru : requesting_user) (us : list uuid) :
    M directory force_result :=
  _ ← require_admin ru;
  all_known ← gets (λ s, forallb (user_exists_row s) us);
  _ ← raise_if (negb all_known) (ServiceError NotFoundError "not_found");
  force_loop (ru_id ru) us (mk_force_result [] [] []).

(** ** Writes of users and administrators *)

Definition edit_cause (ru : requesting_user) (u : uuid) : string :=
  if decide (ru_id ru = u) then "self_edit" else "admin_edit".
Definition log_attribute (ru : requesting_user) (u : uuid) (key action : string) : M directory () :=
  di_log (Some (ru_id ru)) "user" u "user_profile_updated"
    [("cause", MStr (edit_cause ru u)); ("idp_id", MNull); ("changes", change_meta [(key, action)])].

Definition set_user_attribute (ru : requesting_user) (u : uuid) (key value : string) : M directory attr_row :=
  _ ← _require_known_attribute key;
  config ← _require_enabled key;
  _ ← _enforce_self_edit_policy ru u (cf_locked_for_users config);
  serialized ← lift (serialize key value);
  old ← gets (λ s, at_value <$> db_get_attribute s u key);
  row ← upsert_attribute u key serialized (if admin_role ru then from_admin else from_self);
  _ ← when (bool_decide (old ≠ Some serialized))
        (log_attribute ru u key (match old with None => "added" | Some _ => "updated" end));
  _ ← _maybe_clear_force_profile_completion u;
  mret row.

Definition clear_user_attribute (ru : requesting_user) (u : uuid) (key : string) : M directory bool :=
  _ ← _require_known_attribute key;
  config ← gets (λ s, get_config s key);
  _ ← _enforce_self_edit_policy ru u (match config with Some c => cf_locked_for_users c | None => false end);
  existing ← gets (λ s, db_get_attribute s u key);
  match existing with
  | None => mret false
  | Some _ =>
      n ← delete_attribute u key;
      if decide (n = 0%nat) then mret false
      else _ ← log_attribute ru u key "cleared"; mret true
  end.

Definition list_tenant_attribute_config (ru : requesting_user) : M directory (list (string * config_row)) :=
  _ ← di_track (ru_id ru); gets list_config.

Record form_result := mk_form_result {
  error_code : option string;
  set_keys : list string;
  cleared_keys : list string;
  skipped_locked_keys : list string;
}.
(** The except clauses: [None] lets the exception escape. *)
Definition form_error (key : string) (e : exn) : option string :=
  match e with
  | ServiceError NotFoundError _ => Some "user_not_found"
  | ServiceError ValidationError _ | PythonError "AttributeValueError" => Some ("invalid_" +:+ key)
  | ServiceError _ _ => Some "save_failed"
  | _ => None
  end.
Definition with_error (code : string) (r : form_result) : form_result :=
  mk_form_result (Some (default code (error_code r))) (set_keys r) (cleared_keys r) (skipped_locked_keys r).
Definition try_form (key : string) (acc : form_result) (m : M directory form_result) : M directory form_result :=
  λ s, match m s with
       | (Raise e, s') => match form_error key e with
                          | Some code => (Ok (with_error code acc), s')
                          | None => (Raise e, s')
                          end
       | r => r
       end.
Fixpoint form_value (key : string) (form : list (string * option string)) : option (option string) :=
  match form with
  | [] => None
  | (k, v) :: form => if decide (k = key) then Some v else form_value key form
  end.
Definition form_item (ru : requesting_user) (u : uuid) (form : list (string * option string))
    (enforce_user_lock : bool) (kc : string * config_row) (acc : form_result) : M directory form_result :=
  let key := kc.1 in
  match (if cf_enabled kc.2 then form_value key form else None) with
  | None => mret acc
  | Some raw_value =>
      if enforce_user_lock && cf_locked_for_users kc.2 then
        mret (mk_form_result (error_code acc) (set_keys acc) (cleared_keys acc) (skipped_locked_keys acc ++ [key]))
      else
        let raw := match raw_value with Some v => py_strip v | None => "" end in
        try_form key acc
          (if decide (raw = "") then
             _ ← clear_user_attribute ru u key;
             mret (mk_form_result (error_code acc) (set_keys acc) (cleared_keys acc ++ [key]) (skipped_locked_keys acc))
           else
             _ ← set_user_attribute ru u key raw;
             mret (mk_form_result (error_code acc) (set_keys acc ++ [key]) (cleared_keys acc) (skipped_locked_keys acc)))
  end.
Fixpoint form_loop (ru : requesting_user) (u : uuid) (form : list (string * option string))
    (enforce_user_lock : bool) (configs : list (string * config_row)) (acc : form_result) :
    M directory form_result :=
  match configs with
  | [] => mret acc
  | kc :: configs =>
      acc ← form_item ru u form enforce_user_lock kc acc;
      form_loop ru u form enforce_user_lock configs acc
  end.
Definition apply_attribute_form_updates (ru : requesting_user) (u : uuid)
    (form : list (string * option string)) (enforce_user_lock : bool) : M directory form_result :=
  _ ← di_track (ru_id ru);
  configs ← list_tenant_attribute_config ru;
  form_loop ru u form enforce_user_lock configs (mk_form_result None [] [] []).

(** ** What an identity provider sends *)

(** Unknown keys, blank values and values that do not serialize are dropped. *)
Definition serialized_attributes (attributes : list (string * string)) : list (string * string) :=
  omap (λ kv : string * string,
    if is_standard_attribute kv.1 && bool_decide (py_strip kv.2 ≠ "") then
      match serialize kv.1 kv.2 with Ok v => Some (kv.1, v) | Raise _ => None end
    else None) attributes.
Definition mirrored s (key : string) : bool :=
  match get_config s key with Some c => cf_enabled c && cf_mirror_from_idp c | None => false end.
Definition change_of s (u : uuid) (kv : string * string) : option (string * string) :=
  match at_value <$> db_get_attribute s u kv.1 with
  | None => Some (kv.1, "added")
  | Some old => if decide (old = kv.2) then None else Some (kv.1, "updated")
  end.
Definition apply_idp_attributes (u idp : uuid) (attributes : list (string * string)) (actor : option uuid) :
    M directory () :=
  known ← gets (λ s, idp_exists s idp);
  _ ← raise_if (negb known) (ServiceError NotFoundError "idp_not_found");
  let serialized := serialized_attributes attributes in
  changes ← transaction (s ← gets id;
    let mirror_writes := filter (λ kv : string * string, mirrored s kv.1 = true) serialized in
    let changes := omap (change_of s u) mirror_writes in
    _ ← delete_mirror_except u idp (serialized.*1);
    _ ← for_each (λ kv : string * string, upsert_mirror u idp kv.1 kv.2) serialized;
    _ ← for_each (λ kv : string * string, _ ← upsert_attribute u kv.1 kv.2 from_idp; mret ()) mirror_writes;
    mret changes);
  when (bool_decide (changes ≠ []))
    (di_log actor "user" u "user_profile_updated"
       [("cause", MStr "idp_mirror"); ("idp_id", MId idp); ("changes", change_meta changes)]).

(** Canonical values that equal what the provider last sent. *)
Definition scrub_hits s (idp : uuid) (only : option uuid) : list (uuid * string) :=
  omap (λ kv : uuid * string * attr_row,
    if bool_decide (di_mirror s !! (kv.1.1, idp, kv.1.2) = Some (at_value kv.2)) &&
       match only with Some u => bool_decide (u = kv.1.1) | None => true end
    then Some kv.1 else None) (map_to_list (di_attrs s)).
Definition scrub_canonical_matches_mirror (idp : uuid) (actor only : option uuid) : M directory nat :=
  hits ← update (λ s, let hits := scrub_hits s idp only in
           (hits, set_attrs (filter (λ kv : uuid * string * attr_row, kv.1 ∉ hits)) s));
  _ ← for_each (λ u, di_log actor "user" u "user_profile_updated"
        [("cause", MStr "idp_disconnect_scrub"); ("idp_id", MId idp);
         ("cleared_keys", MStrs (snd <$> filter (λ h : uuid * string, h.1 = u) hits))])
      (remove_dups (hits.*1));
  mret (length hits).

(** ** services/settings/attributes.py *)

Definition flag_change (name : string) (old new : bool) : list (string * option string * option string) :=
  if Bool.eqb old new then []
  else let text (b : bool) := Some (if b then "true" else "false") in [(name, text old, text new)].
Definition config_changes (r r' : config_row) : list (string * option string * option string) :=
  flag_change "enabled" (cf_enabled r) (cf_enabled r') ++
  flag_change "required" (cf_required r) (cf_required r') ++
  flag_change "mirror_from_idp" (cf_mirror_from_idp r) (cf_mirror_from_idp r') ++
  flag_change "locked_for_users" (cf_locked_for_users r) (cf_locked_for_users r') ++
  flag_change "send_to_sps_default" (cf_send_to_sps_default r) (cf_send_to_sps_default r') ++
  flag_change "allow_self_sourced_to_sp" (cf_allow_self_sourced_to_sp r) (cf_allow_self_sourced_to_sp r').
Definition update_tenant_attribute_config (ru : requesting_user) (key : string)
    (enabled required mirror_from_idp locked_for_users send_to_sps_default allow_self_sourced_to_sp : bool) :
    M directory config_row :=
  _ ← require_super_admin ru;
  _ ← raise_if (negb (is_standard_attribute key)) (ServiceError ValidationError "unknown_attribute_key");
  existing ← gets (λ s, get_config s key);
  existing ← some_or existing (ServiceError NotFoundError "attribute_config_missing");
  n ← update_config key enabled required mirror_from_idp locked_for_users send_to_sps_default
        allow_self_sourced_to_sp;
  _ ← raise_if (bool_decide (n = 0%nat)) (ServiceError NotFoundError "attribute_config_missing");
  updated ← gets (λ s, get_config s key);
  updated ← some_or updated (PythonError "AssertionError");
  let changes := config_changes existing updated in
  _ ← when (bool_decide (changes ≠ []))
        (di_log (Some (ru_id ru)) "tenant_attribute_config" (cf_id updated) "tenant_attribute_config_updated"
           [("attribute_key", MStr key); ("changes", MChanges changes)]);
  mret updated.
Definition seed_tenant_attribute_config : M directory nat :=
  for_sum (λ a, insert_config_row (sa_key a) (sa_category a)) STANDARD_ATTRIBUTES.

(** ** services/service_providers/sso.py *)

(** [sp_row] is given by the three columns that are read. *)
Definition get_groups_for_assertion s (u sp_id : uuid) (include_group_claims : bool)
    (scope_override : option string) (available_to_all : bool) : list string :=
  if negb include_group_claims then []
  else
    let scope := match scope_override with
                 | Some "" | None => get_group_assertion_scope (di_mail s)
                 | Some x => x
                 end in
    if decide (scope = "all") then get_effective_group_names (di_dir s) u
    else if decide (scope = "trunk") then get_trunk_group_names (di_dir s) u
    else if available_to_all then get_trunk_group_names (di_dir s) u
    else get_access_relevant_group_names (di_dir s) u sp_id.

Inductive assertion_value := AText (v : string) | ATexts (v : list string).
Abbreviation assertion := (list (string * assertion_value)).
Definition text_field (key v : string) : assertion := if decide (v = "") then [] else [(key, AText v)].
Definition fixed_attributes (email first_name last_name : string) (group_names : list string) : assertion :=
  text_field "email" email ++ text_field "firstName" first_name ++ text_field "lastName" last_name ++
  text_field "displayName" (py_strip (first_name +:+ " " +:+ last_name)) ++
  match group_names with [] => [] | _ => [("groups", ATexts group_names)] end.

(** Whether one row of user_attributes enters, and as what. *)
Definition config_flag (configs : list (string * config_row)) (key : string) (f : config_row → bool) : bool :=
  existsb (λ kc, bool_decide (kc.1 = key) && f kc.2) configs.
Definition emitted (configs : list (string * config_row)) (mapping : option (list (string * string)))
    (row : string * attr_row) : option (string * assertion_value) :=
  let key := row.1 in
  let raw := at_value row.2 in
  if bool_decide (key = "") || bool_decide (raw = "") then None
  else if negb (is_standard_attribute key) then None
  else if match mapping with Some m => bool_decide (key ∉ m.*1) | None => false end then None
  else if bool_decide (configs ≠ []) && negb (config_flag configs key cf_enabled) then None
  else if bool_decide (at_source row.2 = from_self) && negb (config_flag configs key cf_allow_self_sourced_to_sp)
  then None
  else match deserialize key raw with
       | Ok typed => Some (key, AText typed)
       | Raise _ => None
       end.
Definition assertion_of (configs : list (string * config_row)) (rows : list (string * attr_row))
    (fixed : assertion) (mapping : option (list (string * string))) : assertion :=
  let eav := omap (emitted configs mapping) rows in
  if decide ("display_name" ∈ eav.*1)
  then filter (λ kv : string * assertion_value, kv.1 ≠ "displayName") fixed ++ eav
  else fixed ++ eav.

(** Each of the two reads may fail, which is logged (if that does not fail
    too); the assertion is then built without its rows. *)
Definition read_failed (log_fails : bool) (u i : uuid) (artifact_type phase : string) : M directory () :=
  when (negb log_fails)
    (di_log (Some u) artifact_type i "tenant_attribute_config_read_failed" [("phase", MStr phase)]).
Definition _build_assertion_attributes (tenant_id u : uuid) (email first_name last_name : string)
    (group_names : list string) (mapping : option (list (string * string)))
    (config_fails attributes_fail log_fails : bool) : M directory assertion :=
  let fixed := fixed_attributes email first_name last_name group_names in
  configs ← (if config_fails
             then _ ← read_failed log_fails u tenant_id "tenant" "config"; mret []
             else gets list_config);
  rows ← (if attributes_fail
          then _ ← read_failed log_fails u u "user" "user_attributes"; mret []
          else gets (λ s, db_list_attributes s u));
  mret (assertion_of configs rows fixed mapping).
End services.
