(* ===== verification/ScimBody.v ===== *)
(** * Inbound SCIM: request bodies

    What app/services/scim/inbound_write.py reads from a body before it
    writes anything, the accumulation of PATCH operations, and
    app/routers/scim/inbound/_query.py.  [ScimWriteError] also stands for the
    exception the router makes of it, which has the same status and type. *)

From stdpp Require Import gmap strings.
From S2P Require Import Prelude MailDb Tokens ScimClient Json AttrDb.
#[local] Open Scope Z_scope.

Definition USER_SCHEMA : string := "urn:ietf:params:scim:schemas:core:2.0:User".
Definition ENTERPRISE_USER_SCHEMA : string := "urn:ietf:params:scim:schemas:extension:enterprise:2.0:User".
Definition LIST_RESPONSE_SCHEMA : string := "urn:ietf:params:scim:api:messages:2.0:ListResponse".

(** ** routers/scim/inbound/_query.py *)

Definition scim_error {A} (status : Z) (scim_type : string) : outcome A :=
  Raise (ScimWriteError status (Some scim_type)).
Definition quote_char : Ascii.ascii := char 34.
Definition ident_start (c : Ascii.ascii) : bool := is_alpha c.
Definition ident_char (c : Ascii.ascii) : bool := is_alnum c || bool_decide (c = char 95).
Fixpoint span (p : Ascii.ascii → bool) (l : list Ascii.ascii) : list Ascii.ascii * list Ascii.ascii :=
  match l with
  | [] => ([], [])
  | c :: l' => if p c then let '(w, rest) := span p l' in (c :: w, rest) else ([], l)
  end.
(** [_FILTER_PATTERN]: every piece ends where the next one starts, so there
    is one way to match. *)
Definition match_filter (raw : string) : option (string * string) :=
  let '(attr, l1) := span ident_char (drop_spaces (chars raw)) in
  c ← head attr;
  if negb (ident_start c) then None
  else
    l2 ← eat_spaces1 l1;
    l3 ← drop_prefix (chars "eq") l2;
    l4 ← eat_spaces1 l3;
    l5 ← drop_prefix [quote_char] l4;
    let '(value, l6) := span (λ c, bool_decide (c ≠ quote_char)) l5 in
    l7 ← drop_prefix [quote_char] l6;
    if decide (drop_spaces l7 = []) then Some (text_of attr, text_of value) else None.
Definition parse_eq_filter (raw : option string) (allowed_attributes : list string) :
    outcome (option (string * string)) :=
  match raw with
  | None => Ok None
  | Some raw =>
      if decide (py_strip raw = "") then Ok None
      else match match_filter raw with
           | None => scim_error 400 "invalidFilter"
           | Some (attr, value) =>
               if decide (attr ∈ allowed_attributes) then Ok (Some (attr, value))
               else scim_error 400 "invalidFilter"
           end
  end.
Definition DEFAULT_COUNT : Z := 100.
Definition MAX_COUNT : Z := 200.
Definition parse_pagination (start_index count : option Z) : Z * Z :=
  (match start_index with Some i => if i <? 1 then 1 else i | None => 1 end,
   match count with
   | None => DEFAULT_COUNT
   | Some c => if c <? 0 then 0 else if MAX_COUNT <? c then MAX_COUNT else c
   end).

Example filter_ex :
  parse_eq_filter (Some (text_of (chars " userName  eq " ++ [quote_char] ++ chars "a b@x" ++ [quote_char]))) ["userName"]
    = Ok (Some ("userName", "a b@x")) ∧
  parse_eq_filter (Some "userName co x") ["userName"] = scim_error 400 "invalidFilter".
Proof. split; vm_compute; reflexivity. Qed.

(** ** Reading a payload *)

Definition _PATCH_ALLOWED_SIMPLE_PATHS : list string :=
  ["username"; "active"; "externalid"; "displayname"; "name.givenname"; "name.familyname"; "name.formatted";
   "emails"; "title"; "jobtitle"; "preferredlanguage"; "phonenumbers"; "enterprise.department";
   "enterprise.organization"; "enterprise.employeenumber"].
Definition _FORBIDDEN_PATHS : list string :=
  ["roles"; "role"; "groups"; "password"; "mfa"; "mfa_enabled"; "mfaenabled"].

Definition _canonical_email (email : json) : outcome (option string) :=
  match email with
  | JNull => Ok None
  | JStr s => let s := py_strip s in Ok (if decide (s = "") then None else Some (lower_string s))
  | _ => attribute_error
  end.
Definition as_dict (x : json) : option dict := match x with JDict d => Some d | _ => None end.
Definition chosen_email (emails : json) : outcome (option dict) :=
  match emails with
  | JList l =>
      Ok (match head (filter (λ d : dict, truthy (get "primary" d) = true) (omap as_dict l)) with
          | Some d => Some d
          | None => e ← head l; as_dict e
          end)
  | JStr _ => Ok None
  | JDict _ => Raise (PythonError "KeyError")
  | _ => type_error
  end.
Definition _extract_primary_email_candidate (payload : dict) : outcome (option string) :=
  let emails := get "emails" payload in
  chosen ← (if truthy emails then chosen_email emails else Ok None);
  match chosen with
  | Some d => if truthy (get "value" d) then _canonical_email (get "value" d)
              else _canonical_email (get "userName" payload)
  | None => _canonical_email (get "userName" payload)
  end.
Definition _extract_primary_email (payload : dict) : outcome (option string) :=
  candidate ← _extract_primary_email_candidate payload;
  Ok (e ← candidate; if is_email_like e then Some e else None).

Definition nonblank (s : string) : option string :=
  let t := py_strip s in if decide (t = "") then None else Some t.
(** [display.strip().split(None, 1)] of a text that is not blank. *)
Definition split_display (display : string) : string * option string :=
  match split_max 1 (chars (py_strip display)) with
  | first :: rest => (first, head rest)
  | [] => ("", None)
  end.
Definition display_names (payload : dict) : option (string * option string) :=
  match get "displayName" payload with
  | JStr display => if decide (py_strip display = "") then None else Some (split_display display)
  | _ => None
  end.
Definition _extract_names (payload : dict) : outcome (option string * option string) :=
  let display := match display_names payload with
                 | Some (first, last) => (Some first, last)
                 | None => (None, None)
                 end in
  match get "name" payload with
  | JDict name =>
      given ← text_or_blank (get "givenName" name);
      family ← text_or_blank (get "familyName" name);
      Ok (match nonblank given, nonblank family with
          | None, None => display
          | first, last => (first, last)
          end)
  | _ => Ok display
  end.

(** [(raw or "").strip() if isinstance(raw, str) else ""]. *)
Definition replaced_name (name_block : dict) (key existing : string) : string :=
  match dict_lookup key name_block with
  | Some (JStr raw) => py_strip raw
  | Some _ => ""
  | None => existing
  end.
Definition _resolve_replace_names (payload : dict) (existing : user_row) : string * string :=
  match get "name" payload with
  | JDict name_block =>
      (replaced_name name_block "givenName" (ur_first_name existing),
       replaced_name name_block "familyName" (ur_last_name existing))
  | _ =>
      match display_names payload with
      | Some (first, Some last) => (first, last)
      | Some (first, None) => (first, ur_last_name existing)
      | None => (ur_first_name existing, ur_last_name existing)
      end
  end.

(** [out[key] = value] on the dictionary that is built. *)
Fixpoint put (key value : string) (out : list (string * string)) : list (string * string) :=
  match out with
  | [] => [(key, value)]
  | (k, v) :: out => if decide (k = key) then (k, value) :: out else (k, v) :: put key value out
  end.
Definition put_opt (key : string) (value : option string) (out : list (string * string)) :=
  match value with Some v => put key v out | None => out end.
Definition enterprise_mapping : list (string * string) :=
  [("employeeNumber", "employee_id"); ("department", "department"); ("organization", "organization")].
Definition direct_mappings : list (string * string) :=
  [("displayName", "display_name"); ("title", "job_title"); ("jobTitle", "job_title");
   ("preferredLanguage", "preferred_language")].
Definition mapped (mapping : list (string * string)) (d : dict) (out : list (string * string)) :=
  foldl (λ out kw, put_opt kw.2 (stripped_str (get kw.1 d)) out) out mapping.
Definition has_text (key : string) (out : list (string * string)) : bool := bool_decide (key ∈ out.*1).
Fixpoint phone_entries (entries : list json) (out : list (string * string)) : outcome (list (string * string)) :=
  match entries with
  | [] => Ok out
  | JDict entry :: entries =>
      if negb (truthy (get "value" entry)) then phone_entries entries out
      else
        t ← text_or_blank (get "type" entry);
        let ptype := lower_string t in
        let value := py_strip (py_str (get "value" entry)) in
        if decide (value = "") then phone_entries entries out
        else if bool_decide (ptype = "mobile") && negb (has_text "phone_mobile" out) then
          phone_entries entries (put "phone_mobile" value out)
        else if bool_decide (ptype = "work") && negb (has_text "phone_work" out) then
          phone_entries entries (put "phone_work" value out)
        else phone_entries entries out
  | _ :: entries => phone_entries entries out
  end.
Definition _extract_standard_attributes (payload : dict) : outcome (list (string * string)) :=
  let out := match get ENTERPRISE_USER_SCHEMA payload with
             | JDict enterprise => mapped enterprise_mapping enterprise []
             | _ => []
             end in
  let out := mapped (filter (λ kw : string * string, is_standard_attribute kw.2 = true) direct_mappings) payload out in
  match get "phoneNumbers" payload with
  | JList phones => phone_entries phones out
  | _ => Ok out
  end.

Definition _ensure_no_mutability_violation (payload : dict) : outcome () :=
  if existsb (λ kv, bool_decide (lower_string kv.1 ∈ _FORBIDDEN_PATHS)) payload
  then scim_error 400 "mutability" else Ok ().

(** [active] of a payload: null or absent, or a boolean. *)
Definition active_of (payload : dict) : outcome (option bool) :=
  match get "active" payload with
  | JNull => Ok None
  | JBool b => Ok (Some b)
  | _ => scim_error 400 "invalidValue"
  end.

Example names_ex :
  _extract_names [("name", JDict [("givenName", JStr " Ann ")]); ("displayName", JStr "A B")] = Ok (Some "Ann", None) ∧
  _extract_names [("displayName", JStr " Ann van Dyk ")] = Ok (Some "Ann", Some "van Dyk") ∧
  _extract_names [("name", JDict [("givenName", JInt 5)])] = attribute_error.
Proof. split_and!; reflexivity. Qed.
Example attributes_ex :
  _extract_standard_attributes
    [("title", JStr "Clerk"); ("jobTitle", JStr "Boss");
     ("phoneNumbers", JList [JDict [("value", JInt 5551); ("type", JStr "WORK")]; JStr "x"])]
  = Ok [("job_title", "Boss"); ("phone_work", "5551")].
Proof. reflexivity. Qed.

(** ** Paths of PATCH *)

(** [<attr> eq <value>], the value perhaps in quotes. *)
Definition unquoted (raw : string) : string :=
  let l := chars raw in
  match l, last l with
  | c :: _ :: _, Some d =>
      if bool_decide (c = d) && bool_decide (c = quote_char ∨ c = char 39)
      then String.substring 1 (String.length raw - 2) raw else raw
  | _, _ => raw
  end.
Definition _parse_eq_filter (body : string) : option (string * string) :=
  match split_max 2 (chars body) with
  | [attr; op; raw_value] =>
      if decide (lower_string op = "eq") then Some (attr, unquoted (py_strip raw_value)) else None
  | _ => None
  end.
Definition until (c : Ascii.ascii) (l : list Ascii.ascii) : option (list Ascii.ascii * list Ascii.ascii) :=
  let '(before, rest) := span (λ d, bool_decide (d ≠ c)) l in
  match rest with [] => None | _ :: rest => Some (before, rest) end.
Definition starts_with (prefix s : string) : bool := bool_decide (is_Some (drop_prefix (chars prefix) (chars s))).
Definition _normalise_patch_path_with_filter (path : string) : string * option (string * string) :=
  let stripped := py_strip path in
  let enterprise_prefix := ENTERPRISE_USER_SCHEMA +:+ ":" in
  match drop_prefix (chars (lower_string enterprise_prefix)) (chars (lower_string stripped)) with
  | Some suffix => ("enterprise." +:+ text_of suffix, None)
  | None =>
      let stripped := if (3 <=? count_char (char 58) stripped)%nat then after_last (char 58) stripped
                      else stripped in
      match until (char 91) (chars stripped) with
      | None => (lower_string stripped, None)
      | Some (prefix, rest) =>
          (lower_string (text_of prefix),
           '(body, _) ← until (char 93) rest; _parse_eq_filter (py_strip (text_of body)))
      end
  end.
Definition _normalise_patch_path (path : string) : string := (_normalise_patch_path_with_filter path).1.

Example path_ex :
  _normalise_patch_path_with_filter (text_of (chars "members[value eq " ++ [quote_char] ++ chars "7" ++ [quote_char] ++ chars "]"))
    = ("members", Some ("value", "7")) ∧
  _normalise_patch_path "name.givenName" = "name.givenname" ∧
  _normalise_patch_path (ENTERPRISE_USER_SCHEMA +:+ ":Department") = "enterprise.department" ∧
  _normalise_patch_path ENTERPRISE_USER_SCHEMA = "user".
Proof. split_and!; vm_compute; reflexivity. Qed.

(** ** PATCH operations, accumulated into a payload *)

(** [op], [path] (null and the empty text are no path) and [value]. *)
Definition _parse_patch_op (op : json) : outcome (string * option string * json) :=
  match op with
  | JDict op =>
      raw ← text_or_blank (get "op" op);
      let op_str := lower_string (py_strip raw) in
      if decide (op_str ∉ ["add"; "replace"; "remove"]) then scim_error 400 "invalidSyntax"
      else
        match get "path" op with
        | JNull => Ok (op_str, None, get "value" op)
        | JStr p => Ok (op_str, if decide (p = "") then None else Some p, get "value" op)
        | _ => scim_error 400 "invalidPath"
        end
  | _ => scim_error 400 "invalidSyntax"
  end.

Definition patched_active (value : json) : json :=
  match value with
  | JStr s => let lowered := lower_string (py_strip s) in
              if decide (lowered = "true") then JBool true
              else if decide (lowered = "false") then JBool false else value
  | JNull => JNull
  | _ => JBool (truthy value)
  end.
Definition camel_case (ext_key : string) : string :=
  if decide (ext_key = "employeenumber") then "employeeNumber" else ext_key.
(** [path.split(".", 1)[1]]. *)
Definition after_dot (path : string) : string :=
  match until (char 46) (chars path) with Some (_, rest) => text_of rest | None => "" end.
Definition _patch_assign (acc : dict) (path : string) (value : json) : outcome dict :=
  if decide (path = "username") then Ok (dict_set "userName" value acc)
  else if decide (path = "active") then Ok (dict_set "active" (patched_active value) acc)
  else if decide (path = "externalid") then Ok (dict_set "externalId" value acc)
  else if decide (path = "displayname") then Ok (dict_set "displayName" value acc)
  else if decide (path = "name.givenname") then set_nested "name" "givenName" value acc
  else if decide (path = "name.familyname") then set_nested "name" "familyName" value acc
  else if decide (path = "name.formatted") then set_nested "name" "formatted" value acc
  else if decide (path = "name") then
    Ok (match value with JDict _ => dict_set "name" value acc | _ => acc end)
  else if decide (path = "emails") then
    Ok (match value with
        | JList _ => dict_set "emails" value acc
        | JStr _ => dict_set "emails" (JList [JDict [("value", value); ("primary", JBool true)]]) acc
        | _ => acc
        end)
  else if starts_with "enterprise." path then
    set_nested ENTERPRISE_USER_SCHEMA (camel_case (after_dot path)) value acc
  else if decide (path = "title" ∨ path = "jobtitle") then Ok (dict_set "jobTitle" value acc)
  else if decide (path = "preferredlanguage") then Ok (dict_set "preferredLanguage" value acc)
  else if decide (path = "phonenumbers") then
    Ok (match value with JList _ => dict_set "phoneNumbers" value acc | _ => acc end)
  else Ok (if decide (path ∈ _PATCH_ALLOWED_SIMPLE_PATHS) then dict_set path value acc else acc).

(** An operation without a path: every member of the value. *)
Fixpoint patch_members (acc value : dict) : outcome dict :=
  match value with
  | [] => Ok acc
  | (sub_key, sub_value) :: value =>
      let sub_path := _normalise_patch_path sub_key in
      if decide (sub_path ∈ _FORBIDDEN_PATHS) then scim_error 400 "mutability"
      else acc ← _patch_assign acc sub_path sub_value; patch_members acc value
  end.
Definition patch_remove (acc : dict) (norm : string) : outcome dict :=
  if decide (norm = "active") then _patch_assign acc norm (JBool false)
  else if decide (norm = "externalid") then Ok (dict_set "externalId" (JStr "") acc)
  else if decide (norm = "displayname") then Ok (dict_set "displayName" (JStr "") acc)
  else if starts_with "name." norm then set_nested "name" (after_dot norm) (JStr "") acc
  else if decide (norm = "emails") then Ok (dict_set "emails" (JList []) acc)
  else Ok (dict_set norm JNull acc).
Definition _process_patch_operation (acc : dict) (raw_op : json) : outcome dict :=
  '(op, raw_path, value) ← _parse_patch_op raw_op;
  match raw_path with
  | None =>
      if decide (op = "remove") then scim_error 400 "noTarget"
      else match value with
           | JDict value => _ ← _ensure_no_mutability_violation value; patch_members acc value
           | _ => scim_error 400 "invalidValue"
           end
  | Some path =>
      let norm := _normalise_patch_path path in
      if decide (norm ∈ _FORBIDDEN_PATHS) then scim_error 400 "mutability"
      else if bool_decide (norm ∉ _PATCH_ALLOWED_SIMPLE_PATHS) && bool_decide (norm ≠ "name") &&
              negb (starts_with "enterprise." norm) then scim_error 400 "invalidPath"
      else if decide (op = "remove") then patch_remove acc norm
      else _patch_assign acc norm value
  end.
Fixpoint process_operations (acc : dict) (ops : list json) : outcome dict :=
  match ops with
  | [] => Ok acc
  | raw_op :: ops => acc ← _process_patch_operation acc raw_op; process_operations acc ops
  end.
(** [body.get("Operations") or body.get("operations")], a list that is not empty. *)
Definition operations_of (body : dict) : outcome (list json) :=
  let ops := get "Operations" body in
  match (if truthy ops then ops else get "operations" body) with
  | JList (o :: l) => Ok (o :: l)
  | _ => scim_error 400 "invalidSyntax"
  end.
