(* ===== verification/ScimUsers.v ===== *)
(** * Inbound SCIM: users

    The writes of app/services/scim/inbound_write.py, the user half of
    inbound_read.py, app/database/users/scim_reads.py and
    app/routers/scim/inbound/users.py.  A path parameter has been read as an
    id; [location] is the router's [location_builder]. *)

From stdpp Require Import gmap strings sorting.
From S2P Require Import Prelude GroupDb OAuthDb OAuthService UserLifecycle MailDb ScimClient Credentials MfaDb Json AttrDb Attributes ScimBody.
#[local] Open Scope Z_scope.

Section users.
Context `{Collation} `{DirectoryIds} `{MailIds} `{Nonces} `{UuidText} `{DatetimeText}.
Context (issuer : string) (location : uuid → string).
Implicit Types s : directory.

(** ** database/users/scim_reads.py *)

Record scim_user := mk_scim_user {
  su_id : uuid;
  su_row : user_row;
  su_dates : option dates;
  su_email : option string;
  su_external_id : option string;
}.
Definition get_user_for_idp s (idp u : uuid) : option scim_user :=
  row ← user_row_of s u;
  if decide (ur_saml_idp_id row = Some idp)
  then Some (mk_scim_user u row (di_dates s !! u) (get_primary_email (di_mail s) u) (get_external_id s u idp))
  else None.
Definition matches_user_name (user_name : option string) (x : scim_user) : bool :=
  match user_name with
  | None => true
  | Some n => match su_email x with Some e => same_email e n | None => false end
  end.
Definition matches_external_id (external_id : option string) (x : scim_user) : bool :=
  match external_id with
  | None => true
  | Some e => bool_decide (su_external_id x = Some e) || bool_decide (uuid_text (su_id x) = e)
  end.
(** [order by u.created_at asc, u.id asc]. *)
Definition created (x : scim_user) : Z := default 0 (created_at <$> su_dates x).
Definition older (x y : scim_user) : Prop :=
  created x < created y ∨ created x = created y ∧ (su_id x <= su_id y)%positive.
#[export] Instance older_dec : RelDecision older.
Proof. intros x y. unfold older. apply _. Defined.
Definition matching_users s (idp : uuid) (user_name external_id : option string) : list scim_user :=
  merge_sort older
    (filter (λ x, matches_user_name user_name x && matches_external_id external_id x = true)
       (omap (λ kv : uuid * account_row, get_user_for_idp s idp kv.1) (map_to_list (accounts (di_tenant s))))).
Definition count_users_for_idp s (idp : uuid) (user_name external_id : option string) : nat :=
  length (matching_users s idp user_name external_id).
Definition page {A} (start_index count : Z) (l : list A) : list A :=
  take (Z.to_nat count) (drop (Z.to_nat (Z.max (start_index - 1) 0)) l).
Definition list_users_for_idp s (idp : uuid) (user_name external_id : option string) (start_index count : Z) :
    list scim_user := page start_index count (matching_users s idp user_name external_id).

(** ** services/scim/inbound_read.py *)

Definition full_name (first last : string) : option string :=
  match filter (λ p, p ≠ "") [first; last] with [] => None | parts => Some (join " " parts) end.
Definition str_field (key : string) (v : option string) : dict :=
  match v with Some v => if decide (v = "") then [] else [(key, JStr v)] | None => [] end.
Definition _user_payload (x : scim_user) : dict :=
  let first := ur_first_name (su_row x) in
  let last := ur_last_name (su_row x) in
  let full := full_name first last in
  let email := match su_email x with Some "" => None | e => e end in
  let name_obj := str_field "givenName" (Some first) ++ str_field "familyName" (Some last) ++ str_field "formatted" full in
  [("schemas", JList [JStr USER_SCHEMA]);
   ("id", JStr (uuid_text (su_id x)));
   ("userName", JStr (default (uuid_text (su_id x)) email));
   ("active", JBool (negb (ur_is_inactivated (su_row x) || ur_is_anonymized (su_row x))))] ++
  (match name_obj with [] => [] | _ => [("name", JDict name_obj)] end) ++
  str_field "displayName" full ++
  (match email with
   | Some e => [("emails", JList [JDict [("value", JStr e); ("type", JStr "work"); ("primary", JBool true)]])]
   | None => []
   end) ++
  str_field "externalId" (su_external_id x).
Definition meta_dict (resource : string) (loc : string) (d : option dates) : json :=
  JDict ([("resourceType", JStr resource); ("location", JStr loc)] ++
         match d with
         | Some d => [("created", JStr (datetime_text (created_at d)));
                      ("lastModified", JStr (datetime_text (updated_at d)))]
         | None => []
         end).
Definition _user_with_metadata (x : scim_user) : dict :=
  _user_payload x ++ [("meta", meta_dict "User" (location (su_id x)) (su_dates x))].
Definition inbound_list_users (idp : uuid) (user_name external_id : option string) (start_index count : Z) :
    M directory (list dict * nat) :=
  rows ← gets (λ s, list_users_for_idp s idp user_name external_id start_index count);
  total ← gets (λ s, count_users_for_idp s idp user_name external_id);
  mret (_user_with_metadata <$> rows, total).
Definition inbound_get_user (idp u : uuid) : M directory (option dict) :=
  gets (λ s, _user_with_metadata <$> get_user_for_idp s idp u).

(** ** services/scim/inbound_write.py *)

Definition _resolve_user_payload (idp u : uuid) : M directory dict :=
  payload ← inbound_get_user idp u; some_or payload (ScimWriteError 500 None).
Definition _bump_updated_at (u : uuid) : M directory () := touch u.

Definition _create_user_from_scim (idp : uuid) (canonical_email first_name last_name external_id : option string) :
    M directory uuid :=
  email ← some_or canonical_email (ScimWriteError 400 (Some "invalidValue"));
  u ← db_create_user (default "SCIM" first_name) (default "User" last_name) member;
  _ ← di_in_mail (add_verified_email u email true);
  _ ← set_user_idp u idp;
  _ ← (match external_id with Some x => set_external_id u idp x | None => mret () end);
  mret u.

(** [apply_idp_attributes] under [except Exception]. *)
Definition mirror_attributes (idp u : uuid) (attributes : list (string * string)) : M directory () :=
  try_except any_exception (apply_idp_attributes u idp attributes None) (mret ()).
Definition write_external_id (idp u : uuid) (payload : dict) : M directory () :=
  match stripped_str (get "externalId" payload) with
  | Some x => set_external_id u idp x
  | None => mret ()
  end.
Definition write_names (u : uuid) (first last : option string) : M directory () :=
  match first, last with
  | None, None => mret ()
  | _, _ =>
      current ← gets (λ s, user_row_of s u);
      let new_first := match first with Some x => x | None => default "" (ur_first_name <$> current) end in
      let new_last := match last with Some x => x | None => default "" (ur_last_name <$> current) end in
      _ ← update_user_profile u new_first new_last;
      mret ()
  end.
Definition _apply_payload_writes (idp u : uuid) (payload : dict) (update_names : bool) : M directory () :=
  _ ← (if update_names then '(first, last) ← lift (_extract_names payload); write_names u first last
       else mret ());
  _ ← write_external_id idp u payload;
  extra_attrs ← lift (_extract_standard_attributes payload);
  match extra_attrs with
  | [] => mret ()
  | _ => mirror_attributes idp u extra_attrs
  end.

Definition scim_log (u : uuid) (name : string) (md : list (string * meta)) : M directory () :=
  di_log None "user" u name md.
Definition deactivate (u : uuid) : M directory () :=
  _ ← di_inactivate_user_row u; di_in_tenant (cut_access issuer u).
Definition _handle_active_transition (idp u : uuid) (new_active : option bool) : M directory () :=
  match new_active with
  | None => mret ()
  | Some active =>
      found ← gets (λ s, user_row_of s u);
      match found with
      | None => mret ()
      | Some current =>
          if negb active && negb (ur_is_inactivated current) then
            _ ← deactivate u;
            scim_log u "scim_user_deactivated" [("idp_id", MId idp); ("cause", MStr "scim_active_false")]
          else if active && ur_is_inactivated current && negb (ur_is_anonymized current) then
            _ ← di_reactivate_user_row u;
            _ ← clear_reactivation_denied u;
            scim_log u "scim_user_reactivated" [("idp_id", MId idp); ("cause", MStr "scim_active_true")]
          else mret ()
      end
  end.

(** The two lookups: by the upstream id, then by the primary address. *)
Definition user_by_primary_email s (email : string) : option uuid :=
  (λ kv : uuid * email_row, em_user kv.2) <$>
    head (filter (λ kv : uuid * email_row,
        (same_email (em_email kv.2) email && em_is_primary kv.2 && user_exists_row s (em_user kv.2)) = true)
      (map_to_list (ma_emails (di_mail s)))).
Definition find_existing s (idp : uuid) (external_id canonical_email : option string) : option uuid :=
  match external_id ≫= get_user_id_by_external_id s idp with
  | Some u => Some u
  | None => canonical_email ≫= user_by_primary_email s
  end.
Definition opt_text (x : option string) : meta := match x with Some x => MStr x | None => MNull end.
Definition rebind (idp u : uuid) (canonical_email : option string) : M directory () :=
  existing ← gets (λ s, user_row_of s u);
  match existing with
  | None => mret ()
  | Some row =>
      if decide (ur_saml_idp_id row = Some idp) then mret ()
      else
        _ ← set_user_idp u idp;
        scim_log u "scim_user_rebound"
          [("idp_id", MId idp);
           ("previous_idp_id", match ur_saml_idp_id row with Some i => MId i | None => MNull end);
           ("canonical_email", opt_text canonical_email)]
  end.
Definition _create_or_merge_user_attempt (idp : uuid) (payload : dict) : M directory (dict * bool) :=
  _ ← lift (_ensure_no_mutability_violation payload);
  canonical_email ← lift (_extract_primary_email payload);
  let external_id := stripped_str (get "externalId" payload) in
  '(first_name, last_name) ← lift (_extract_names payload);
  active ← lift (active_of payload);
  found ← gets (λ s, find_existing s idp external_id canonical_email);
  '(u, created) ← (match found with
                   | None => u ← _create_user_from_scim idp canonical_email first_name last_name external_id;
                             mret (u, true)
                   | Some u => _ ← rebind idp u canonical_email; mret (u, false)
                   end);
  _ ← _apply_payload_writes idp u payload (negb created);
  _ ← _handle_active_transition idp u active;
  _ ← _bump_updated_at u;
  _ ← scim_log u "scim_user_received"
        [("idp_id", MId idp); ("merged", MBool (negb created)); ("external_id", opt_text external_id);
         ("canonical_email", opt_text canonical_email)];
  resource ← _resolve_user_payload idp u;
  mret (resource, created).
Definition create_or_merge_user (idp : uuid) (payload : dict) : M directory (dict * bool) :=
  try_except unique_violation (_create_or_merge_user_attempt idp payload)
    (_create_or_merge_user_attempt idp payload).

Definition bound_user (idp u : uuid) : M directory user_row :=
  found ← gets (λ s, user_row_of s u);
  match found with
  | Some row => if decide (ur_saml_idp_id row = Some idp) then mret row else raise (ScimWriteError 404 None)
  | None => raise (ScimWriteError 404 None)
  end.
Definition replace_user (idp u : uuid) (payload : dict) : M directory dict :=
  _ ← lift (_ensure_no_mutability_violation payload);
  existing ← bound_user idp u;
  active ← lift (active_of payload);
  let '(new_first, new_last) := _resolve_replace_names payload existing in
  _ ← update_user_profile u new_first new_last;
  _ ← write_external_id idp u payload;
  extras ← lift (_extract_standard_attributes payload);
  _ ← mirror_attributes idp u extras;
  _ ← _handle_active_transition idp u active;
  _ ← _bump_updated_at u;
  _ ← scim_log u "scim_user_updated" [("idp_id", MId idp); ("verb", MStr "PUT")];
  _resolve_user_payload idp u.

Definition patch_user (idp u : uuid) (patch_body : dict) : M directory dict :=
  _ ← bound_user idp u;
  ops ← lift (operations_of patch_body);
  payload_acc ← lift (process_operations [] ops);
  match payload_acc with
  | [] => _resolve_user_payload idp u
  | _ =>
      _ ← _apply_payload_writes idp u payload_acc true;
      active ← lift (active_of payload_acc);
      _ ← _handle_active_transition idp u active;
      _ ← _bump_updated_at u;
      _ ← scim_log u "scim_user_updated"
            [("idp_id", MId idp); ("verb", MStr "PATCH"); ("ops", MNat (length ops))];
      _resolve_user_payload idp u
  end.

Definition soft_delete_user (idp u : uuid) : M directory () :=
  existing ← bound_user idp u;
  if ur_is_inactivated existing then mret ()
  else
    _ ← deactivate u;
    _ ← _bump_updated_at u;
    scim_log u "scim_user_deactivated" [("idp_id", MId idp); ("cause", MStr "scim_delete")].

(** ** routers/scim/inbound/users.py: status and body *)

Definition list_users_endpoint (idp : uuid) (filter_ : option string) (startIndex count : option Z) :
    M directory (Z * dict) :=
  parsed ← lift (parse_eq_filter filter_ ["userName"; "externalId"]);
  let user_name := match parsed with Some ("userName", v) => Some v | _ => None end in
  let external_id := match parsed with Some ("externalId", v) => Some v | _ => None end in
  let '(si, c) := parse_pagination startIndex count in
  '(payloads, total) ← inbound_list_users idp user_name external_id si c;
  mret (200, [("schemas", JList [JStr LIST_RESPONSE_SCHEMA]); ("totalResults", JInt (Z.of_nat total));
              ("startIndex", JInt si); ("itemsPerPage", JInt (Z.of_nat (length payloads)));
              ("Resources", JList (JDict <$> payloads))]).
Definition get_user_endpoint (idp u : uuid) : M directory (Z * dict) :=
  payload ← inbound_get_user idp u;
  body ← some_or payload (ScimWriteError 404 None);
  mret (200, body).
Definition create_user_endpoint (idp : uuid) (payload : dict) : M directory (Z * dict) :=
  '(resource, created) ← create_or_merge_user idp payload;
  mret (if (created : bool) then 201 else 200, resource).
Definition replace_user_endpoint (idp u : uuid) (payload : dict) : M directory (Z * dict) :=
  body ← replace_user idp u payload; mret (200, body).
Definition patch_user_endpoint (idp u : uuid) (payload : dict) : M directory (Z * dict) :=
  body ← patch_user idp u payload; mret (200, body).
Definition delete_user_endpoint (idp u : uuid) : M directory Z :=
  _ ← soft_delete_user idp u; mret 204.
End users.
