(* ===== verification/ScimGroups.v ===== *)
(** * Inbound SCIM: groups

    app/services/scim/inbound_group_write.py, the group half of
    inbound_read.py, app/database/groups/scim_reads.py and
    app/routers/scim/inbound/groups.py. *)

From stdpp Require Import gmap strings sorting.
From S2P Require Import Prelude GroupDb GroupService OAuthDb MailDb Credentials MfaDb Json AttrDb Attributes ScimBody ScimUsers.
#[local] Open Scope Z_scope.

Definition GROUP_SCHEMA : string := "urn:ietf:params:scim:schemas:core:2.0:Group".
Definition _MAX_MEMBERS_PER_REQUEST : Z := 5000.

Section groups.
Context `{Collation} `{UuidGen} `{UuidText} `{UuidParse} `{DatetimeText}.
Context (group_location : uuid → string) (members_base_url : string).
Implicit Types s : directory.

(** ** database/groups/scim_reads.py *)

Definition scim_group (idp : uuid) (g : group_row) : Prop :=
  g_idp_id g = Some idp ∧ g_group_type g = GroupDb.idp ∧ g_is_valid g = true.
#[export] Instance scim_group_dec idp g : Decision (scim_group idp g).
Proof. unfold scim_group. apply _. Defined.
Definition get_group_for_idp s (idp x : uuid) : option group_row :=
  g ← GroupDb.groups (di_dir s) !! x; if decide (scim_group idp g) then Some g else None.
Definition group_created s (x : uuid) : Z := default 0 (created_at <$> di_group_dates s !! x).
Definition older_group s (x y : uuid * group_row) : Prop :=
  group_created s x.1 < group_created s y.1 ∨
  group_created s x.1 = group_created s y.1 ∧ (x.1 <= y.1)%positive.
#[export] Instance older_group_dec s : RelDecision (older_group s).
Proof. intros x y. unfold older_group. apply _. Defined.
Definition display_matches (display_name : option string) (g : group_row) : bool :=
  match display_name with Some n => bool_decide (g_name g = n) | None => true end.
Definition matching_groups s (idp : uuid) (display_name : option string) : list (uuid * group_row) :=
  merge_sort (older_group s)
    (filter (λ kv : uuid * group_row, scim_group idp kv.2 ∧ display_matches display_name kv.2 = true)
      (map_to_list (GroupDb.groups (di_dir s)))).
Definition count_groups_for_idp s (idp : uuid) (display_name : option string) : nat :=
  length (matching_groups s idp display_name).
Definition list_groups_for_idp s (idp : uuid) (display_name : option string) (start_index count : Z) :
    list (uuid * group_row) := page start_index count (matching_groups s idp display_name).

Record scim_member := mk_scim_member {
  sm_id : uuid;
  sm_first_name : string;
  sm_last_name : string;
  sm_email : option string;
}.
(** [order by u.last_name, u.first_name, u.id]. *)
Definition member_before (x y : scim_member) : Prop :=
  if decide (sm_last_name x = sm_last_name y) then
    if decide (sm_first_name x = sm_first_name y) then (sm_id x <= sm_id y)%positive
    else collate_le (sm_first_name x) (sm_first_name y) = true
  else collate_le (sm_last_name x) (sm_last_name y) = true.
#[export] Instance member_before_dec : RelDecision member_before.
Proof. intros x y. unfold member_before. repeat case_match; apply _. Defined.
Definition member_of s (g : uuid) (m : uuid * uuid) : option scim_member :=
  l ← ma_logins (di_mail s) !! m.2;
  if decide (m.1 = g)
  then Some (mk_scim_member m.2 (lo_first_name l) (lo_last_name l) (get_primary_email (di_mail s) m.2))
  else None.
Definition list_group_members_for_scim s (g : uuid) : list scim_member :=
  merge_sort member_before (omap (member_of s g) (elements (memberships (di_dir s)))).

(** ** services/scim/inbound_read.py *)

Definition _member_display (m : scim_member) : option string :=
  match full_name (sm_first_name m) (sm_last_name m) with
  | Some full => Some full
  | None => sm_email m
  end.
Definition member_entry (m : scim_member) : json :=
  let value := uuid_text (sm_id m) in
  JDict ([("value", JStr value); ("$ref", JStr (members_base_url +:+ "/" +:+ value)); ("type", JStr "User")] ++
         str_field "display" (_member_display m)).
Definition _group_with_metadata s (x : uuid) (g : group_row) (members : list scim_member) : dict :=
  [("schemas", JList [JStr GROUP_SCHEMA]); ("id", JStr (uuid_text x)); ("displayName", JStr (g_name g));
   ("members", JList (member_entry <$> members));
   ("meta", meta_dict "Group" (group_location x) (di_group_dates s !! x))].
Definition inbound_list_groups (idp : uuid) (display_name : option string) (start_index count : Z) :
    M directory (list dict * nat) :=
  s ← gets id;
  mret ((λ kv : uuid * group_row, _group_with_metadata s kv.1 kv.2 (list_group_members_for_scim s kv.1)) <$>
          list_groups_for_idp s idp display_name start_index count,
        count_groups_for_idp s idp display_name).
Definition inbound_get_group (idp x : uuid) : M directory (option dict) :=
  gets (λ s, (λ g, _group_with_metadata s x g (list_group_members_for_scim s x)) <$> get_group_for_idp s idp x).

(** ** services/scim/inbound_group_write.py *)

Definition invalid_value {A} : M directory A := raise (ScimWriteError 400 (Some "invalidValue")).
Definition _idp_name s (idp : uuid) : string := default (uuid_text idp) (providers (di_dir s) !! (saml, idp)).

(** A text that Python reads as a UUID and the database does not ends the
    statement. *)
Definition user_with_id_text (candidate : string) : M directory (option (uuid * user_row)) :=
  match uuid_of_text candidate with
  | None => raise (PythonError "InvalidTextRepresentation")
  | Some u => gets (λ s, (λ row, (u, row)) <$> user_row_of s u)
  end.
Definition bound_to (idp : uuid) (found : option (uuid * user_row)) : option uuid :=
  '(u, row) ← found; if decide (ur_saml_idp_id row = Some idp) then Some u else None.
Definition _resolve_member_ref (idp : uuid) (value : string) : M directory uuid :=
  let candidate := py_strip value in
  if decide (candidate = "") then invalid_value
  else
    by_id ← (if _looks_like_uuid candidate then user_with_id_text candidate else mret None);
    match bound_to idp by_id with
    | Some u => mret u
    | None =>
        by_external ← gets (λ s, u ← get_user_id_by_external_id s idp candidate;
                              row ← user_row_of s u; Some (u, row));
        match bound_to idp by_external with
        | Some u => mret u
        | None => invalid_value
        end
    end.
Definition resolve_entry (idp : uuid) (entry : json) : M directory uuid :=
  match entry with
  | JDict d => match get "value" d with JStr value => _resolve_member_ref idp value | _ => invalid_value end
  | _ => invalid_value
  end.
Definition _resolve_members (idp : uuid) (members : json) : M directory (list uuid) :=
  if negb (truthy members) then mret []
  else match members with
       | JList l =>
           if decide (_MAX_MEMBERS_PER_REQUEST < Z.of_nat (length l)) then raise (ScimWriteError 413 None)
           else us ← for_map (resolve_entry idp) l; mret (remove_dups us)
       | _ => invalid_value
       end.

(** [None]: absent, null or blank. *)
Definition _extract_display_name (payload : dict) : outcome (option string) :=
  match get "displayName" payload with
  | JNull => Ok None
  | JStr raw => Ok (nonblank raw)
  | _ => scim_error 400 "invalidValue"
  end.
Definition _ensure_group_for_idp (idp x : uuid) : M directory group_row :=
  found ← gets (λ s, get_group_for_idp s idp x); some_or found (ScimWriteError 404 None).
Definition _check_display_name_unique (idp : uuid) (name : string) (excluding : option uuid) : M directory () :=
  _ ← raise_if (negb (no_nul name)) (PythonError "DataError");
  existing ← gets (λ s, get_group_by_idp_and_name (di_dir s) idp name saml);
  raise_if (match existing with Some x => bool_decide (excluding ≠ Some x) | None => false end)
    (ScimWriteError 409 (Some "uniqueness")).
Definition _group_payload (idp x : uuid) : M directory dict :=
  payload ← inbound_get_group idp x; some_or payload (ScimWriteError 500 None).

(** The columns [created_at] and [updated_at] of groups; [updated_at] is
    written by statements only. *)
Definition _bump_group (x : uuid) : M directory () :=
  modify (λ s, set_group_dates (alter (λ d, mk_dates (created_at d) (di_clock s)) x) s).
Definition create_group_row (idp : uuid) (name : string) : M directory uuid :=
  x ← di_in_groups (create_idp_group idp name None saml);
  _ ← modify (λ s, set_group_dates (insert x (mk_dates (di_clock s) (di_clock s))) s);
  mret x.
(** [except UniqueViolation] around a write of a name. *)
Definition or_name_taken {A} (m : M directory A) : M directory A :=
  try_except unique_violation m (raise (ScimWriteError 409 (Some "uniqueness"))).

Definition email_of s (u : uuid) : string :=
  match user_row_of s u with Some _ => default "" (get_primary_email (di_mail s) u) | None => "" end.
Definition sync_source : string := "saml_authentication".
Definition add_one (idp : uuid) (idp_name : string) (x u : uuid) : M directory () :=
  email ← gets (λ s, email_of s u);
  _ ← di_in_groups (apply_membership_additions u email idp idp_name {[x]} sync_source saml);
  mret ().
Definition drop_one (idp : uuid) (idp_name : string) (x u : uuid) : M directory () :=
  email ← gets (λ s, email_of s u);
  _ ← di_in_groups (apply_membership_removals u email idp idp_name {[x]} sync_source saml);
  mret ().
Definition current_members s (x : uuid) : gset uuid := list_to_set (sm_id <$> list_group_members_for_scim s x).
Definition _apply_membership_diff (idp x : uuid) (target : gset uuid) : M directory (list uuid * list uuid) :=
  current ← gets (λ s, current_members s x);
  let to_add := elements (target ∖ current) in
  let to_remove := elements (current ∖ target) in
  idp_name ← gets (λ s, _idp_name s idp);
  _ ← for_each (add_one idp idp_name x) to_add;
  _ ← for_each (drop_one idp idp_name x) to_remove;
  mret (to_add, to_remove).

Definition group_log (x : uuid) (name : string) (md : list (string * meta)) : M directory () :=
  di_log None "group" x name md.

Definition create_group (idp : uuid) (payload : dict) : M directory dict :=
  display_name ← lift (_extract_display_name payload);
  name ← some_or display_name (ScimWriteError 400 (Some "invalidValue"));
  _ ← _check_display_name_unique idp name None;
  members ← _resolve_members idp (get "members" payload);
  let target : gset uuid := list_to_set members in
  x ← or_name_taken (create_group_row idp name);
  _ ← (if decide (target = ∅) then mret () else _ ← _apply_membership_diff idp x target; mret ());
  _ ← group_log x "scim_group_received"
        [("idp_id", MId idp); ("display_name", MStr name); ("initial_member_count", MNat (size target))];
  _group_payload idp x.

Definition rename_group (idp x : uuid) (name : string) : M directory () :=
  _ ← _check_display_name_unique idp name (Some x);
  _ ← or_name_taken (di_in_groups (update_group x (Some name) None None));
  _bump_group x.
Definition replace_group (idp x : uuid) (payload : dict) : M directory dict :=
  existing ← _ensure_group_for_idp idp x;
  display_name ← lift (_extract_display_name payload);
  let new_name := default (g_name existing) display_name in
  _ ← when (bool_decide (new_name ≠ g_name existing)) (rename_group idp x new_name);
  _ ← (match get "members" payload with
       | JNull => mret ()
       | raw_members =>
           members ← _resolve_members idp raw_members;
           _ ← _apply_membership_diff idp x (list_to_set members);
           mret ()
       end);
  _ ← _bump_group x;
  _ ← group_log x "scim_group_updated"
        [("idp_id", MId idp); ("verb", MStr "PUT"); ("display_name", MStr new_name)];
  _group_payload idp x.

Definition _patch_assert_path (raw_path : json) : outcome (string * option (string * string)) :=
  match raw_path with
  | JNull => scim_error 400 "noTarget"
  | JStr path =>
      let '(normalised, filter_kv) := _normalise_patch_path_with_filter path in
      if decide (normalised ∉ ["members"; "displayname"; "externalid"]) then scim_error 400 "invalidPath"
      else Ok (normalised, filter_kv)
  | _ => scim_error 400 "invalidPath"
  end.
Definition value_or_empty (value : json) : json := if truthy value then value else JList [].
Definition _patch_op_members (idp x : uuid) (op : string) (value : json) (filter_kv : option (string * string)) :
    M directory (list uuid * list uuid) :=
  current ← gets (λ s, current_members s x);
  if decide (op = "replace") then
    members ← _resolve_members idp (value_or_empty value);
    _apply_membership_diff idp x (list_to_set members)
  else if decide (op = "add") then
    members ← _resolve_members idp (value_or_empty value);
    _apply_membership_diff idp x (current ∪ list_to_set members)
  else
    match filter_kv with
    | Some (attr, ref_value) =>
        _ ← raise_if (bool_decide (lower_string attr ≠ "value")) (ScimWriteError 400 (Some "invalidFilter"));
        u ← _resolve_member_ref idp ref_value;
        _apply_membership_diff idp x (current ∖ {[u]})
    | None =>
        match value with
        | JNull | JList [] => _apply_membership_diff idp x ∅
        | JList _ =>
            members ← _resolve_members idp value;
            _apply_membership_diff idp x (current ∖ list_to_set members)
        | _ => invalid_value
        end
    end.

(** The name to set, and how many members were added and removed. *)
Record patch_acc := mk_patch_acc { pa_name : option string; pa_added : nat; pa_removed : nat }.
Definition display_name_value (value : json) : outcome string :=
  let value := match value with JDict d => get "displayName" d | v => v end in
  match stripped_str value with Some t => Ok t | None => scim_error 400 "invalidValue" end.
Definition group_op (idp x : uuid) (raw_op : json) (acc : patch_acc) : M directory patch_acc :=
  match raw_op with
  | JDict op =>
      raw ← lift (text_or_blank (get "op" op));
      let op_str := lower_string (py_strip raw) in
      _ ← raise_if (bool_decide (op_str ∉ ["add"; "replace"; "remove"])) (ScimWriteError 400 (Some "invalidSyntax"));
      '(path, filter_kv) ← lift (_patch_assert_path (get "path" op));
      if decide (path = "displayname") then
        _ ← raise_if (bool_decide (op_str = "remove")) (ScimWriteError 400 (Some "invalidValue"));
        name ← lift (display_name_value (get "value" op));
        mret (mk_patch_acc (Some name) (pa_added acc) (pa_removed acc))
      else if decide (path = "externalid") then mret acc
      else
        '(added, removed) ← _patch_op_members idp x op_str (get "value" op) filter_kv;
        mret (mk_patch_acc (pa_name acc) (pa_added acc + length added) (pa_removed acc + length removed))
  | _ => raise (ScimWriteError 400 (Some "invalidSyntax"))
  end.
Fixpoint group_ops (idp x : uuid) (ops : list json) (acc : patch_acc) : M directory patch_acc :=
  match ops with
  | [] => mret acc
  | op :: ops => acc ← group_op idp x op acc; group_ops idp x ops acc
  end.
Definition patch_group (idp x : uuid) (patch_body : dict) : M directory dict :=
  _ ← _ensure_group_for_idp idp x;
  ops ← lift (operations_of patch_body);
  acc ← group_ops idp x ops (mk_patch_acc None 0 0);
  _ ← (match pa_name acc with
       | None => mret ()
       | Some new_name =>
           existing ← gets (λ s, get_group_for_idp s idp x);
           match existing with
           | Some g => when (bool_decide (new_name ≠ g_name g)) (rename_group idp x new_name)
           | None => mret ()
           end
       end);
  _ ← _bump_group x;
  _ ← group_log x "scim_group_updated"
        [("idp_id", MId idp); ("verb", MStr "PATCH"); ("ops", MNat (length ops));
         ("added", MNat (pa_added acc)); ("removed", MNat (pa_removed acc))];
  _group_payload idp x.

Definition delete_group (idp x : uuid) : M directory () :=
  existing ← _ensure_group_for_idp idp x;
  _ ← _apply_membership_diff idp x ∅;
  _ ← di_in_groups (delete_group_row x);
  _ ← modify (set_group_dates (delete x));
  group_log x "scim_group_deleted" [("idp_id", MId idp); ("display_name", MStr (g_name existing))].

(** ** routers/scim/inbound/groups.py *)

Definition list_groups_endpoint (idp : uuid) (filter_ : option string) (startIndex count : option Z) :
    M directory (Z * dict) :=
  parsed ← lift (parse_eq_filter filter_ ["displayName"]);
  let '(si, c) := parse_pagination startIndex count in
  '(payloads, total) ← inbound_list_groups idp (snd <$> parsed) si c;
  mret (200, [("schemas", JList [JStr LIST_RESPONSE_SCHEMA]); ("totalResults", JInt (Z.of_nat total));
              ("startIndex", JInt si); ("itemsPerPage", JInt (Z.of_nat (length payloads)));
              ("Resources", JList (JDict <$> payloads))]).
Definition get_group_endpoint (idp x : uuid) : M directory (Z * dict) :=
  payload ← inbound_get_group idp x;
  body ← some_or payload (ScimWriteError 404 None);
  mret (200, body).
Definition create_group_endpoint (idp : uuid) (payload : dict) : M directory (Z * dict) :=
  body ← create_group idp payload; mret (201, body).
Definition replace_group_endpoint (idp x : uuid) (payload : dict) : M directory (Z * dict) :=
  body ← replace_group idp x payload; mret (200, body).
Definition patch_group_endpoint (idp x : uuid) (payload : dict) : M directory (Z * dict) :=
  body ← patch_group idp x payload; mret (200, body).
Definition delete_group_endpoint (idp x : uuid) : M directory Z := _ ← delete_group idp x; mret 204.
End groups.
