(* ===== verification/ScimTokens.v ===== *)
(** * Inbound SCIM: tokens and requests

    app/services/scim/inbound_credentials.py with
    app/database/scim_inbound_tokens.py, [require_inbound_scim_auth] of
    app/api_dependencies.py, and a request as the application serves it:
    authentication first, then the endpoint with the provider of the token.
    [inbound] adds the table scim_inbound_tokens to [directory].  Whether the
    rate limiter refuses is an argument. *)

From stdpp Require Import gmap strings sorting.
From S2P Require Import Prelude GroupDb Sha256 OAuthDb MailDb Tokens ScimClient Credentials Json AttrDb Attributes ScimBody ScimUsers ScimGroups.
#[local] Open Scope Z_scope.

Record inbound_token := mk_inbound_token {
  it_idp : uuid;
  it_token_hash : string;
  it_name : option string;
  it_created_by : uuid;
  it_created_at : Z;
  it_revoked_at : option Z;
  it_last_used_at : option Z;
}.
Record inbound := mk_inbound {
  ib_directory : directory;
  ib_tokens : gmap uuid inbound_token;
  ib_draws : nat;
}.
Definition ib_clock (s : inbound) : Z := di_clock (ib_directory s).
Definition set_inbound_tokens f (s : inbound) : inbound := mk_inbound (ib_directory s) (f (ib_tokens s)) (ib_draws s).
Definition in_directory {A} (m : M directory A) : M inbound A :=
  λ s, let '(r, d) := m (ib_directory s) in (r, mk_inbound d (ib_tokens s) (ib_draws s)).

(** [secrets.token_urlsafe(32)], and the ids of rows. *)
Class InboundEntropy := {
  urlsafe32 : nat → string;
  inbound_token_id : inbound → uuid;
}.

(** ** database/scim_inbound_tokens.py *)

Section database.
Context `{InboundEntropy}.
Implicit Types s : inbound.

Definition find_by_hash s (token_hash : string) : option (uuid * inbound_token) :=
  head (filter (λ kv : uuid * inbound_token, it_token_hash kv.2 = token_hash) (map_to_list (ib_tokens s))).
Definition db_create_token (idp : uuid) (token_hash : string) (name : option string) (created_by : uuid) :
    M inbound (uuid * inbound_token) :=
  s ← gets id;
  _ ← raise_if (match name with Some n => bool_decide (255 < py_len n)%Z | None => false end)
        (IntegrityError "chk_scim_inbound_tokens_name_length");
  _ ← raise_if (bool_decide (is_Some (find_by_hash s token_hash)))
        (IntegrityError "scim_inbound_tokens_token_hash_key");
  _ ← raise_if (negb (idp_exists (ib_directory s) idp)) (IntegrityError "scim_inbound_tokens_idp_id_fkey");
  _ ← raise_if (negb (user_exists_row (ib_directory s) created_by))
        (IntegrityError "scim_inbound_tokens_created_by_user_id_fkey");
  let i := inbound_token_id s in
  _ ← raise_if (bool_decide (is_Some (ib_tokens s !! i))) (IntegrityError "scim_inbound_tokens_pkey");
  let row := mk_inbound_token idp token_hash name created_by (ib_clock s) None None in
  _ ← modify (set_inbound_tokens (insert i row));
  mret (i, row).
(** [order by created_at desc]. *)
Definition newest_token (x y : uuid * inbound_token) : Prop := it_created_at y.2 <= it_created_at x.2.
#[export] Instance newest_token_dec : RelDecision newest_token.
Proof. intros x y. unfold newest_token. apply _. Defined.
Definition db_list_tokens s (idp : uuid) : list (uuid * inbound_token) :=
  merge_sort newest_token (filter (λ kv : uuid * inbound_token, it_idp kv.2 = idp) (map_to_list (ib_tokens s))).
Definition db_revoke (i : uuid) : M inbound nat :=
  update (λ s, match ib_tokens s !! i with
               | Some r => match it_revoked_at r with
                           | None => (1%nat, set_inbound_tokens (insert i (mk_inbound_token (it_idp r) (it_token_hash r)
                               (it_name r) (it_created_by r) (it_created_at r) (Some (ib_clock s)) (it_last_used_at r))) s)
                           | Some _ => (0%nat, s)
                           end
               | None => (0%nat, s)
               end).
Definition touch_last_used (i : uuid) : M inbound nat :=
  update (λ s, ((if decide (is_Some (ib_tokens s !! i)) then 1%nat else 0%nat),
    set_inbound_tokens (alter (λ r, mk_inbound_token (it_idp r) (it_token_hash r) (it_name r) (it_created_by r)
      (it_created_at r) (it_revoked_at r) (Some (ib_clock s))) i) s)).
End database.

(** ** services/scim/inbound_credentials.py *)

Section services.
Context `{InboundEntropy}.

Definition _TOKEN_PREFIX : string := "wid_inbound_".
Definition token_digest (plaintext : string) : string := hexdigest (sha256 (bytes_of plaintext)).
Definition _generate_token : M inbound (string * string) :=
  plaintext ← update (λ s, (_TOKEN_PREFIX +:+ urlsafe32 (ib_draws s),
                            mk_inbound (ib_directory s) (ib_tokens s) (S (ib_draws s))));
  mret (plaintext, token_digest plaintext).
Definition _require_idp (idp : uuid) : M inbound () :=
  known ← gets (λ s, idp_exists (ib_directory s) idp);
  raise_if (negb known) (ServiceError NotFoundError "idp_not_found").
Definition token_log (ru : requesting_user) (idp : uuid) (name : string) (md : list (string * meta)) : M inbound () :=
  in_directory (di_log (Some (ru_id ru)) "saml_identity_provider" idp name md).

(** The id of the token, its row and its plain text. *)
Definition create_token (ru : requesting_user) (idp : uuid) (name : option string) :
    M inbound (uuid * inbound_token * string) :=
  _ ← require_super_admin ru;
  _ ← _require_idp idp;
  '(plaintext, digest) ← _generate_token;
  let cleaned_name := n ← name; nonblank n in
  '(i, row) ← db_create_token idp digest cleaned_name (ru_id ru);
  _ ← token_log ru idp "scim_inbound_token_created" [("token_id", MId i); ("name", opt_text cleaned_name)];
  mret (i, row, plaintext).
Definition list_tokens (ru : requesting_user) (idp : uuid) : M inbound (list (uuid * inbound_token)) :=
  _ ← require_super_admin ru;
  _ ← in_directory (di_track (ru_id ru));
  _ ← _require_idp idp;
  gets (λ s, db_list_tokens s idp).
Definition revoke_token (ru : requesting_user) (idp i : uuid) : M inbound () :=
  _ ← require_super_admin ru;
  _ ← _require_idp idp;
  row ← gets (λ s, ib_tokens s !! i);
  _ ← raise_if (match row with Some r => bool_decide (it_idp r ≠ idp) | None => true end)
        (ServiceError NotFoundError "scim_inbound_token_not_found");
  n ← db_revoke i;
  _ ← raise_if (bool_decide (n = 0%nat)) (ServiceError NotFoundError "scim_inbound_token_not_found");
  token_log ru idp "scim_inbound_token_revoked" [("token_id", MId i)].
End services.

(** ** api_dependencies.py *)

Definition _MAX_BEARER_TOKEN_LEN : nat := 512.
Definition unauthenticated {A} : M inbound A := raise (ScimWriteError 401 None).
(** What follows ["Bearer "], stripped. *)
Definition bearer_text (authorization : option string) : option string :=
  header ← authorization;
  rest ← drop_prefix (chars "Bearer ") (chars header);
  let token := py_strip (text_of rest) in
  if decide (token = "") then None
  else if decide (Z.of_nat _MAX_BEARER_TOKEN_LEN < py_len token)%Z then None else Some token.
Definition live_token (s : inbound) (idp : uuid) (token : string) : option uuid :=
  '(i, r) ← find_by_hash s (token_digest token);
  if decide (it_revoked_at r = None ∧ it_idp r = idp) then Some i else None.
Definition require_inbound_scim_auth (rate_limited : bool) (idp : uuid) (authorization : option string) :
    M inbound uuid :=
  _ ← raise_if rate_limited (ScimWriteError 429 None);
  match bearer_text authorization with
  | None => unauthenticated
  | Some token =>
      found ← gets (λ s, live_token s idp token);
      match found with
      | None => unauthenticated
      | Some i => _ ← touch_last_used i; mret i
      end
  end.

(** ** A request *)

Inductive scim_request :=
  | GetUsers (filter_ : option string) (startIndex count : option Z)
  | GetUser (u : uuid)
  | PostUser (payload : dict)
  | PutUser (u : uuid) (payload : dict)
  | PatchUser (u : uuid) (body : dict)
  | DeleteUser (u : uuid)
  | GetGroups (filter_ : option string) (startIndex count : option Z)
  | GetGroup (x : uuid)
  | PostGroup (payload : dict)
  | PutGroup (x : uuid) (payload : dict)
  | PatchGroup (x : uuid) (body : dict)
  | DeleteGroup (x : uuid).

Section requests.
Context `{Collation} `{DirectoryIds} `{MailIds} `{Nonces} `{UuidGen} `{UuidText} `{UuidParse} `{DatetimeText} `{InboundEntropy}.
(** [tenant_base_url(request)] with the path of the provider. *)
Context (issuer : string) (base : uuid → string).

Definition _users_base (idp : uuid) : string := base idp +:+ "/Users".
Definition _groups_base (idp : uuid) : string := base idp +:+ "/Groups".
Definition user_location (idp u : uuid) : string := _users_base idp +:+ "/" +:+ uuid_text u.
Definition group_location (idp x : uuid) : string := _groups_base idp +:+ "/" +:+ uuid_text x.
Definition no_content (m : M directory Z) : M directory (Z * dict) := status ← m; mret (status, []).
Definition serve (idp : uuid) (rq : scim_request) : M directory (Z * dict) :=
  match rq with
  | GetUsers f i c => list_users_endpoint (user_location idp) idp f i c
  | GetUser u => get_user_endpoint (user_location idp) idp u
  | PostUser p => create_user_endpoint issuer (user_location idp) idp p
  | PutUser u p => replace_user_endpoint issuer (user_location idp) idp u p
  | PatchUser u p => patch_user_endpoint issuer (user_location idp) idp u p
  | DeleteUser u => no_content (delete_user_endpoint issuer idp u)
  | GetGroups f i c => list_groups_endpoint (group_location idp) (_users_base idp) idp f i c
  | GetGroup x => get_group_endpoint (group_location idp) (_users_base idp) idp x
  | PostGroup p => create_group_endpoint (group_location idp) (_users_base idp) idp p
  | PutGroup x p => replace_group_endpoint (group_location idp) (_users_base idp) idp x p
  | PatchGroup x p => patch_group_endpoint (group_location idp) (_users_base idp) idp x p
  | DeleteGroup x => no_content (delete_group_endpoint idp x)
  end.
Definition scim_call (rate_limited : bool) (authorization : option string) (idp : uuid) (rq : scim_request) :
    M inbound (Z * dict) :=
  _ ← require_inbound_scim_auth rate_limited idp authorization;
  in_directory (serve idp rq).
End requests.
