(* ===== verification/AttrProofs.v ===== *)
(** * Attributes: proofs

    Stored values are canonical, what a provider sends replaces exactly its
    snapshot, and what may enter an assertion. *)

From stdpp Require Import gmap strings list.
From S2P Require Import Prelude GroupDb OAuthDb UserLifecycle MailDb Tokens TokenProofs PasswordStrength CredentialProofs MfaDb Json AttrDb Attributes.
#[local] Open Scope Z_scope.

(** ** Texts *)

Lemma drop_spaces_head l :
  match drop_spaces l with c :: _ => is_space c = false | [] => True end.
Proof. induction l as [|c l IH]; simpl; [done|]. destruct (is_space c) eqn:E; done. Qed.
Lemma drop_spaces_id l :
  match l with c :: _ => is_space c = false | [] => True end → drop_spaces l = l.
Proof. destruct l as [|c l]; [done|]. simpl. by intros ->. Qed.
Lemma drop_spaces_snoc l c : is_space c = false → ∃ l', drop_spaces (l ++ [c]) = l' ++ [c].
Proof.
  intros Hc. induction l as [|d l [l' IH]]; simpl.
  - rewrite Hc. by exists [].
  - destruct (is_space d); [by exists l'|by exists (d :: l)].
Qed.
Definition no_margin (l : list Ascii.ascii) : Prop :=
  match l with c :: _ => is_space c = false | [] => True end.
Lemma no_margin_strip l : no_margin (rev (drop_spaces (rev (drop_spaces l)))).
Proof.
  pose proof (drop_spaces_head l) as Hl. destruct (drop_spaces l) as [|c l']; [done|]. simpl.
  destruct (drop_spaces_snoc (rev l') c Hl) as [l'' ->]. by rewrite rev_app_distr.
Qed.
Lemma chars_py_strip s : chars (py_strip s) = rev (drop_spaces (rev (drop_spaces (chars s)))).
Proof. apply chars_text_of. Qed.
Lemma py_strip_idemp s : py_strip (py_strip s) = py_strip s.
Proof.
  apply chars_inj. rewrite !chars_py_strip. set (l := rev (drop_spaces (chars s))).
  rewrite (drop_spaces_id (rev (drop_spaces l))) by apply no_margin_strip.
  by rewrite rev_involutive, (drop_spaces_id (drop_spaces l)) by apply drop_spaces_head.
Qed.

(** ** Serialization *)

Lemma length_upper_string s : String.length (upper_string s) = String.length s.
Proof. unfold upper_string. by rewrite <- !length_chars, chars_text_of, length_fmap. Qed.
Lemma forallb_fmap_ext {A} (p : A → bool) (f : A → A) l :
  (∀ x, p x = true → p (f x) = true) → forallb p l = true → forallb p (f <$> l) = true.
Proof. intros Hf. rewrite !forallb_forall. intros Hl x [y [<- Hy]]%in_map_iff. auto. Qed.
Lemma forallb_impl {A} (p q : A → bool) l :
  (∀ x, p x = true → q x = true) → forallb p l = true → forallb q l = true.
Proof. intros Hpq. rewrite !forallb_forall. auto. Qed.
Lemma is_alpha_upper c : is_alpha (upper c) = is_alpha c.
Proof. by destruct c as [[] [] [] [] [] [] [] []]. Qed.
Lemma is_alpha_lower c : is_alpha (lower c) = is_alpha c.
Proof. by destruct c as [[] [] [] [] [] [] [] []]. Qed.
Lemma is_alnum_upper c : is_alnum (upper c) = is_alnum c.
Proof. by destruct c as [[] [] [] [] [] [] [] []]. Qed.
Lemma lower_idemp c : lower (lower c) = lower c.
Proof. by destruct c as [[] [] [] [] [] [] [] []]. Qed.
Lemma is_alnum_no_space c : is_alnum c = true → is_space c = false ∧ c ≠ dash.
Proof. by destruct c as [[] [] [] [] [] [] [] []]. Qed.
Lemma is_alpha_alnum c : is_alpha c = true → is_alnum c = true.
Proof. unfold is_alnum. by intros ->. Qed.

(** Words without dashes. *)
Definition no_dash (w : list Ascii.ascii) : Prop := Forall (λ c, c ≠ dash) w.
Lemma no_dash_alnum w : forallb is_alnum w = true → no_dash w.
Proof.
  rewrite forallb_forall. intros Hw. apply Forall_forall. intros c Hc%list_elem_of_In.
  apply is_alnum_no_space. auto.
Qed.
Lemma split_on_no_dash w : no_dash w → split_on dash w = [w].
Proof. induction 1 as [|c w Hc _ IH]; [done|]. cbn [split_on]. rewrite decide_False by done. by rewrite IH. Qed.
Lemma split_on_word w l : no_dash w → split_on dash (w ++ dash :: l) = w :: split_on dash l.
Proof.
  induction 1 as [|c w Hc _ IH]; cbn [app split_on]; [by rewrite decide_True|].
  rewrite decide_False by done. by rewrite IH.
Qed.
Lemma join_cons w x ws : join_dashes (w :: x :: ws) = w ++ dash :: join_dashes (x :: ws).
Proof. done. Qed.
Lemma split_join w ws :
  no_dash w → Forall no_dash ws → split_on dash (join_dashes (w :: ws)) = w :: ws.
Proof.
  intros Hw Hws. revert w Hw. induction Hws as [|w' ws Hw' _ IH]; intros w Hw.
  - by apply split_on_no_dash.
  - rewrite join_cons, split_on_word by done. f_equal. by apply IH.
Qed.

Lemma length_in_fmap m n f l : length_in m n (f <$> l) = length_in m n l.
Proof. unfold length_in. by rewrite length_fmap. Qed.
Lemma canonical_region_ok w :
  length_in 2 4 w && forallb is_alnum w = true →
  length_in 2 4 (canonical_region w) && forallb is_alnum (canonical_region w) = true.
Proof.
  unfold canonical_region. case_match; [|done]. rewrite length_in_fmap.
  intros [-> Hw]%andb_true_iff. simpl. apply forallb_fmap_ext; [|done].
  intros c. by rewrite is_alnum_upper.
Qed.
Lemma canonical_region_idemp w : canonical_region (canonical_region w) = canonical_region w.
Proof.
  unfold canonical_region. destruct (length_in 2 3 w && forallb is_alpha w) eqn:E; [|by rewrite E].
  rewrite length_in_fmap. apply andb_true_iff in E as [-> Hw]. simpl.
  rewrite (forallb_fmap_ext is_alpha upper) by (done || intros c; by rewrite is_alpha_upper).
  rewrite <- list_fmap_compose. apply list_fmap_ext. intros _ c _. apply upper_idemp.
Qed.
Lemma split_on_cons c l : ∃ w ws, split_on c l = w :: ws.
Proof.
  destruct l as [|d l]; cbn [split_on]; [by eauto|]. case_decide; [by eauto|].
  destruct (split_on c l); by eauto.
Qed.
Lemma join_split l : join_dashes (split_on dash l) = l.
Proof.
  induction l as [|c l IH]; [done|]. cbn [split_on].
  destruct (split_on_cons dash l) as (w & ws & E). rewrite E in *.
  case_decide as Hc; [subst c; change (dash :: join_dashes (w :: ws) = dash :: l); by rewrite IH|].
  destruct ws as [|w' ws]; cbn [join_dashes app] in *; by rewrite <- IH.
Qed.
Lemma length_join ws ws' : length <$> ws = length <$> ws' → length (join_dashes ws) = length (join_dashes ws').
Proof.
  revert ws'. induction ws as [|w ws IH]; intros [|w' ws'] E; [done..|].
  rewrite !fmap_cons in E. injection E as Ew Ews.
  destruct ws as [|x ws], ws' as [|x' ws']; try discriminate; [done|].
  rewrite !join_cons, !length_app. cbn [length]. by rewrite Ew, (IH (x' :: ws')).
Qed.

(** The words of a canonical tag. *)
Definition canonical_words (ws : list (list Ascii.ascii)) : list (list Ascii.ascii) :=
  match ws with
  | w :: region :: ws => (lower <$> w) :: canonical_region region :: ws
  | [w] => [lower <$> w]
  | [] => []
  end.
Definition tag_words (ws : list (list Ascii.ascii)) : bool :=
  match ws with
  | w :: ws => length_in 2 3 w && forallb is_alpha w && forallb (λ w, length_in 2 4 w && forallb is_alnum w) ws
  | [] => false
  end.
Lemma locale_re_words l : _LOCALE_RE l = tag_words (split_on dash l).
Proof. done. Qed.
Lemma canonical_locale_words l : canonical_locale l = join_dashes (canonical_words (split_on dash l)).
Proof. done. Qed.
Lemma tag_words_no_dash ws : tag_words ws = true → Forall no_dash ws.
Proof.
  destruct ws as [|w ws]; [done|]. simpl. intros [[_ Hw]%andb_true_iff Hws]%andb_true_iff.
  constructor.
  - apply no_dash_alnum. revert Hw. apply forallb_impl, is_alpha_alnum.
  - rewrite forallb_forall in Hws. apply Forall_forall. intros x Hx%list_elem_of_In.
    apply no_dash_alnum. by apply Hws in Hx as [_ Hx]%andb_true_iff.
Qed.
Lemma canonical_words_ok ws : tag_words ws = true → tag_words (canonical_words ws) = true.
Proof.
  destruct ws as [|w [|region ws]]; cbn [canonical_words tag_words forallb]; [done|..];
    rewrite length_in_fmap; intros [[-> Hw]%andb_true_iff Hws]%andb_true_iff;
    rewrite (forallb_fmap_ext is_alpha lower) by (done || intros c; by rewrite is_alpha_lower); [done|].
  apply andb_true_iff in Hws as [Hr ->]. by rewrite canonical_region_ok.
Qed.
Lemma canonical_words_idemp ws : canonical_words (canonical_words ws) = canonical_words ws.
Proof.
  assert (Hl : ∀ w : list Ascii.ascii, lower <$> (lower <$> w) = lower <$> w).
  { intros w. rewrite <- list_fmap_compose. apply list_fmap_ext. intros _ c _. apply lower_idemp. }
  destruct ws as [|w [|region ws]]; cbn [canonical_words]; [done|by rewrite Hl|].
  by rewrite Hl, canonical_region_idemp.
Qed.
Lemma canonical_words_length ws : length <$> canonical_words ws = length <$> ws.
Proof.
  destruct ws as [|w [|region ws]]; cbn [canonical_words]; rewrite ?fmap_cons, ?length_fmap; [done..|].
  unfold canonical_region. case_match; by rewrite ?length_fmap.
Qed.
Lemma split_canonical l :
  _LOCALE_RE l = true → split_on dash (canonical_locale l) = canonical_words (split_on dash l).
Proof.
  rewrite locale_re_words, canonical_locale_words. intros Hl%canonical_words_ok.
  destruct (canonical_words _) as [|w ws]; [done|].
  apply tag_words_no_dash, Forall_cons in Hl as [Hw Hws]. by apply split_join.
Qed.
Lemma canonical_locale_ok l :
  _LOCALE_RE l = true →
  _LOCALE_RE (canonical_locale l) = true ∧ canonical_locale (canonical_locale l) = canonical_locale l ∧
  length (canonical_locale l) = length l.
Proof.
  intros Hl. pose proof (split_canonical l Hl) as Hs. split_and!.
  - rewrite locale_re_words, Hs. by apply canonical_words_ok.
  - rewrite (canonical_locale_words (canonical_locale l)), Hs, canonical_words_idemp. done.
  - rewrite canonical_locale_words. rewrite <- (join_split l) at 2.
    apply length_join, canonical_words_length.
Qed.

(** Tags and country codes hold no space. *)
Definition tag_char (c : Ascii.ascii) : bool := is_alnum c || bool_decide (c = dash).
Lemma tag_char_no_space c : tag_char c = true → is_space c = false.
Proof. by destruct c as [[] [] [] [] [] [] [] []]. Qed.
Lemma join_tag_chars ws :
  forallb (forallb is_alnum) ws = true → forallb tag_char (join_dashes ws) = true.
Proof.
  induction ws as [|w ws IH]; [done|]. cbn [forallb]. intros [Hw Hws]%andb_true_iff.
  assert (Ht : forallb tag_char w = true).
  { revert Hw. apply forallb_impl. intros c. unfold tag_char. by intros ->. }
  destruct ws as [|w' ws]; [done|]. rewrite join_cons, forallb_app. cbn [forallb].
  by rewrite Ht, IH.
Qed.
Lemma locale_no_space l : forallb tag_char l = true → Forall (λ c, is_space c = false) l.
Proof.
  rewrite forallb_forall. intros Hl.
  apply Forall_forall. intros c Hc%list_elem_of_In. by apply tag_char_no_space, Hl.
Qed.
Lemma alpha_no_space l : forallb is_alpha l = true → Forall (λ c, is_space c = false) l.
Proof.
  rewrite forallb_forall. intros Hl. apply Forall_forall. intros c Hc%list_elem_of_In.
  by apply is_alnum_no_space, is_alpha_alnum, Hl.
Qed.
Lemma upper_country s :
  _COUNTRY_RE (chars s) = true →
  _COUNTRY_RE (chars (upper_string s)) = true ∧ py_strip (upper_string s) = upper_string s.
Proof.
  intros [Hn Ha]%andb_true_iff. unfold upper_string. rewrite chars_text_of.
  assert (Ha' : forallb is_alpha (upper <$> chars s) = true).
  { apply forallb_fmap_ext; [|done]. intros c. by rewrite is_alpha_upper. }
  split; [unfold _COUNTRY_RE; by rewrite length_fmap, Hn, Ha'|].
  apply py_strip_none. rewrite chars_text_of. by apply alpha_no_space.
Qed.

(** ** Lengths and the characters of normalized values *)

Definition plain (c : Ascii.ascii) : bool :=
  negb (is_cont (Z.of_nat (Ascii.nat_of_ascii c))) && negb (Ascii.nat_of_ascii c =? 0)%nat.
Lemma plain_tag c : tag_char c = true → plain c = true.
Proof. by destruct c as [[] [] [] [] [] [] [] []]. Qed.
Lemma plain_text s : forallb tag_char (chars s) = true →
  py_len s = Z.of_nat (length (chars s)) ∧ no_nul s = true.
Proof.
  unfold py_len, no_nul. induction (chars s) as [|c l IH]; [done|]. cbn [forallb].
  intros [[Hc Hz]%plain_tag%andb_true_iff Hl]%andb_true_iff. destruct (IH Hl) as [H1 H2].
  rewrite filter_cons_True by (by destruct (is_cont _)). rewrite Hz, H2. split; [|done]. simpl. lia.
Qed.
Lemma alpha_tag l : forallb is_alpha l = true → forallb tag_char l = true.
Proof. apply forallb_impl. intros c Hc. unfold tag_char. by rewrite (is_alpha_alnum c Hc). Qed.
Lemma locale_tag l : _LOCALE_RE l = true → forallb tag_char l = true.
Proof.
  rewrite locale_re_words. intros Hl. rewrite <- (join_split l). apply join_tag_chars.
  destruct (split_on dash l) as [|w ws]; [done|]. cbn [forallb tag_words] in *.
  apply andb_true_iff in Hl as [[_ Hw]%andb_true_iff Hws]. apply andb_true_iff. split.
  - revert Hw. apply forallb_impl, is_alpha_alnum.
  - revert Hws. apply forallb_impl. by intros x [_ ?]%andb_true_iff.
Qed.

(** ** What the property about values needs *)
Lemma normalize_value_stable t n w :
  normalize_value t n = Ok w → py_strip n = n →
  normalize_value t w = Ok w ∧ py_strip w = w ∧ py_len w = py_len n ∧ (no_nul n = true → no_nul w = true).
Proof.
  destruct t; simpl; [by intros [= <-]|..]; case_match eqn:E; try discriminate; intros [= <-] Hn.
  - destruct (upper_country n E) as [E' Hs].
    destruct (plain_text n) as [L1 _]; [apply alpha_tag; by apply andb_true_iff in E as [_ ?]|].
    destruct (plain_text (upper_string n)) as [L2 N2]; [apply alpha_tag; by apply andb_true_iff in E' as [_ ?]|].
    rewrite E', upper_string_idemp, L1, L2, N2. unfold upper_string. by rewrite chars_text_of, length_fmap.
  - destruct (canonical_locale_ok (chars n) E) as (E' & Hi & Hl).
    destruct (plain_text n) as [L1 _]; [by apply locale_tag|].
    destruct (plain_text (text_of (canonical_locale (chars n)))) as [L2 N2];
      [rewrite chars_text_of; by apply locale_tag|].
    rewrite L1, L2, N2, !chars_text_of, E', Hi, Hl. split_and!; [done| |done|done].
    apply py_strip_none. rewrite chars_text_of. by apply locale_no_space, locale_tag.
  - by rewrite E.
  - by rewrite E.
Qed.
Lemma normalize_nonempty t n w : normalize_value t n = Ok w → n ≠ "" → w ≠ "".
Proof.
  destruct t; simpl; [by intros [= <-]|..]; case_match eqn:E; try discriminate; intros [= <-] Hn.
  - unfold upper_string. intros Hw. apply (f_equal chars) in Hw. rewrite chars_text_of in Hw.
    destruct n as [|c n]; [done|]. discriminate Hw.
  - intros Hw. apply (f_equal (λ s, length (chars s))) in Hw. rewrite chars_text_of in Hw.
    destruct (canonical_locale_ok (chars n) E) as (_ & _ & Hl). rewrite Hl in Hw. by destruct n.
  - done.
  - done.
Qed.
Lemma no_nul_strip v : no_nul v = true → no_nul (py_strip v) = true.
Proof.
  assert (∀ l, forallb (λ c, negb (Ascii.nat_of_ascii c =? 0)%nat) l = true →
    forallb (λ c, negb (Ascii.nat_of_ascii c =? 0)%nat) (drop_spaces l) = true) as Hd.
  { induction l as [|c l IH]; [done|]. cbn [drop_spaces]. destruct (is_space c); [|done].
    intros [_ Hl]%andb_true_iff. by apply IH. }
  assert (∀ l : list Ascii.ascii, forallb (λ c, negb (Ascii.nat_of_ascii c =? 0)%nat) (rev l) =
    forallb (λ c, negb (Ascii.nat_of_ascii c =? 0)%nat) l) as Hr.
  { intros l. induction l as [|c l IH]; [done|]. cbn [rev forallb]. rewrite forallb_app, IH. simpl.
    by rewrite andb_true_r, andb_comm. }
  unfold no_nul. rewrite chars_py_strip, Hr. intros Hv. apply Hd. rewrite Hr. by apply Hd.
Qed.

Lemma serialize_ok_inv key v w :
  serialize key v = Ok w →
  ∃ a, registered key = Some a ∧ py_strip v ≠ "" ∧ (py_len (py_strip v) <= Z.of_nat (sa_max_length a))%Z ∧
       normalize_value (sa_value_type a) (py_strip v) = Ok w.
Proof.
  unfold serialize. destruct (registered key) as [a|]; [|done].
  repeat case_decide; try done. intros Hw. exists a. split_and!; [done..|lia|done].
Qed.
Lemma serialize_stable key v w : serialize key v = Ok w → serialize key w = Ok w ∧ py_strip w = w ∧ w ≠ "".
Proof.
  intros (a & Ha & Hne & Hl & Hw)%serialize_ok_inv.
  destruct (normalize_value_stable _ _ _ Hw (py_strip_idemp v)) as (Hst & Hs & Hlen & _).
  assert (w ≠ "") by (exact (normalize_nonempty _ _ _ Hw Hne)).
  unfold serialize. rewrite Ha, Hs, decide_False, decide_False by (done || lia). done.
Qed.

Lemma registered_limit key a : registered key = Some a → (sa_max_length a <= 2000)%nat.
Proof.
  unfold registered. intros Ha. apply head_Some_elem_of, list_elem_of_filter in Ha as [_ Ha].
  revert Ha. unfold STANDARD_ATTRIBUTES. rewrite !elem_of_cons, elem_of_nil.
  intros Ha. repeat destruct Ha as [->|Ha]; simpl; lia || done.
Qed.
Lemma stored_length key v w : serialize key v = Ok w → too_long_value w = false.
Proof.
  intros Hw. destruct (serialize_stable key v w Hw) as (Hs & Hp & _).
  destruct (serialize_ok_inv key w w Hs) as (a & Ha & _ & Hl & _). rewrite Hp in Hl.
  apply bool_decide_eq_false_2. apply registered_limit in Ha. lia.
Qed.
Lemma stored_no_nul key v w : serialize key v = Ok w → no_nul v = true → no_nul w = true.
Proof.
  intros (a & _ & _ & _ & Hw)%serialize_ok_inv Hv.
  destruct (normalize_value_stable _ _ _ Hw (py_strip_idemp v)) as (_ & _ & _ & Hn). by apply Hn, no_nul_strip.
Qed.
Lemma serialize_standard key v w : serialize key v = Ok w → is_standard_attribute key = true.
Proof. intros (a & Ha & _)%serialize_ok_inv. unfold is_standard_attribute. by rewrite Ha. Qed.

(** A value that serializes is stored in a form that every later read
    returns unchanged: [deserialize] of the stored text, [serialize] again,
    and the strip of the attribute services; and it fits the column. *)
Theorem stored_value_roundtrip key v w :
  serialize key v = Ok w →
  deserialize key w = Ok w ∧ serialize key w = Ok w ∧ py_strip w = w ∧ w ≠ "" ∧
  is_standard_attribute key = true ∧ too_long_value w = false.
Proof.
  intros Hw. destruct (serialize_stable key v w Hw) as (Hs & Hp & Hne).
  unfold deserialize. split_and!; [done..| |]; eauto using serialize_standard, stored_length.
Qed.

(** ** What a provider sends *)

Section writes.
Context {K V : Type} `{Countable K} (f : string → K) `{!Inj (=) (=) f} {A : Type} (g : A → V).
(** Inserting the pairs of a dictionary, in order. *)
Definition insert_all (l : list (string * A)) (m : gmap K V) : gmap K V :=
  foldl (λ m kv, <[f kv.1 := g kv.2]> m) m l.
Lemma insert_all_other l m i : (∀ k, k ∈ l.*1 → i ≠ f k) → insert_all l m !! i = m !! i.
Proof.
  revert m. induction l as [|[k v] l IH]; intros m Hi; [done|]. simpl. rewrite IH.
  - apply lookup_insert_ne. intros <-. by apply (Hi k); [left|].
  - intros k' Hk'. apply Hi. by right.
Qed.
Lemma insert_all_lookup l m k :
  NoDup (l.*1) →
  insert_all l m !! f k = match (list_to_map l : gmap string A) !! k with Some v => Some (g v) | None => m !! f k end.
Proof.
  revert m. induction l as [|[k' v] l IH]; intros m; cbn [fmap list_fmap fst];
    [by rewrite list_to_map_nil, lookup_empty|].
  intros [Hk Hl]%NoDup_cons. rewrite list_to_map_cons. simpl.
  destruct (decide (k = k')) as [->|Hne].
  - rewrite lookup_insert_eq. fold (insert_all l (<[f k' := g v]> m)).
    rewrite insert_all_other, lookup_insert_eq; [done|]. intros k2 Hk2 ->%(inj f). done.
  - rewrite lookup_insert_ne by done. fold (insert_all l (<[f k' := g v]> m)). rewrite IH by done.
    case_match; [done|]. apply lookup_insert_ne. by intros ->%(inj f).
Qed.
End writes.
#[export] Instance mirror_key_inj (u idp : uuid) : Inj (=) (=) (λ k : string, (u, idp, k)).
Proof. by intros x y [=]. Qed.
#[export] Instance attr_key_inj (u : uuid) : Inj (=) (=) (λ k : string, (u, k)).
Proof. by intros x y [=]. Qed.

Lemma NoDup_fmap_filter {A B} (f : A → B) (P : A → Prop) `{∀ x, Decision (P x)} (l : list A) :
  NoDup (f <$> l) → NoDup (f <$> filter P l).
Proof. intros Hl. eapply sublist_NoDup; [exact Hl|]. apply fmap_sublist, sublist_filter. Qed.

Section apply_rules.
Context `{Collation} `{DirectoryIds}.
Implicit Types s : directory.

Lemma run_di_log actor t i name md s :
  di_log actor t i name md s =
  (Ok (), set_factors (set_mail (set_tenant (set_dir (set_events (λ l, l ++ [mk_event actor t i name md]))))) s).
Proof. done. Qed.

(** The reserved key of the upstream id is no attribute. *)
Lemma external_key_not_standard : is_standard_attribute EXTERNAL_ID_KEY = false.
Proof. reflexivity. Qed.

Lemma serialized_elem attrs k w :
  (k, w) ∈ serialized_attributes attrs →
  is_standard_attribute k = true ∧ ∃ v, (k, v) ∈ attrs ∧ serialize k v = Ok w.
Proof.
  unfold serialized_attributes. rewrite list_elem_of_omap. intros ([k' v] & Hin & E). simpl in E.
  destruct (is_standard_attribute k') eqn:Hk; [|done]. case_bool_decide; [|done].
  destruct (serialize k' v) eqn:Es; [|done]. injection E as -> ->. eauto.
Qed.
Lemma serialized_keys attrs : NoDup (attrs.*1) → NoDup ((serialized_attributes attrs).*1).
Proof.
  induction attrs as [|[k v] l IH]; [done|]. rewrite fmap_cons. intros [Hk Hl]%NoDup_cons.
  specialize (IH Hl).
  assert (Hs : ∀ w, NoDup (((k, w) :: serialized_attributes l).*1)).
  { intros w. rewrite fmap_cons. apply NoDup_cons. split; [|done]. simpl.
    intros ([k' w'] & -> & Hin)%list_elem_of_fmap. apply serialized_elem in Hin as (_ & v' & Hin & _).
    apply Hk. apply list_elem_of_fmap. by exists (k', v'). }
  unfold serialized_attributes. cbn [omap list_omap fst snd]. fold (serialized_attributes l).
  case_match eqn:E; [|done]. case_match; [|discriminate]. case_match; [|discriminate].
  injection E as <-. apply Hs.
Qed.
Lemma serialized_not_external attrs k w : (k, w) ∈ serialized_attributes attrs → k ≠ EXTERNAL_ID_KEY.
Proof. intros (Hk & _)%serialized_elem ->. by rewrite external_key_not_standard in Hk. Qed.

(** Texts with which the statements run. *)
Definition storable (l : list (string * string)) : Prop :=
  ∀ k v, (k, v) ∈ l → (too_long_value v = false ∧ no_nul v = true) ∧ k ≠ EXTERNAL_ID_KEY.
Lemma storable_cons k v l : storable ((k, v) :: l) →
  (too_long_value v = false ∧ no_nul v = true) ∧ k ≠ EXTERNAL_ID_KEY ∧ storable l.
Proof.
  intros Hl. destruct (Hl k v) as [Hv Hk]; [by left|]. split; [done|]. split; [done|].
  intros k' v' Hin. apply Hl. by right.
Qed.
Lemma serialized_storable attrs : Forall (λ kv : string * string, no_nul kv.2 = true) attrs →
  storable (serialized_attributes attrs).
Proof.
  rewrite Forall_forall. intros Hz k w Hin. split; [|by eapply serialized_not_external].
  apply serialized_elem in Hin as (_ & v & Hin & Hs). split; [by apply (stored_length k v)|].
  apply (stored_no_nul k v); [done|]. exact (Hz _ Hin).
Qed.
Lemma run_upsert_mirror s u idp k v :
  user_exists_row s u = true → idp_exists s idp = true → too_long_value v = false ∧ no_nul v = true → k ≠ EXTERNAL_ID_KEY →
  upsert_mirror u idp k v s = (Ok (), set_mirror (insert (u, idp, k) v) s).
Proof.
  intros Hu Hi [Hv Hz] Hk. unfold upsert_mirror. run. by rewrite Hz, Hv, Hu, Hi, (bool_decide_eq_false_2 _ Hk).
Qed.
Lemma run_each_mirror u idp l s :
  user_exists_row s u = true → idp_exists s idp = true → storable l →
  for_each (λ kv : string * string, upsert_mirror u idp kv.1 kv.2) l s =
  (Ok (), set_mirror (insert_all (λ k, (u, idp, k)) id l) s).
Proof.
  intros Hu Hi Hl. revert s Hu Hi. induction l as [|[k v] l IH]; intros s Hu Hi; [by destruct s|].
  apply storable_cons in Hl as (Hv & Hk & Hl). cbn [for_each].
  rewrite run_bind. cbn [fst snd]. rewrite run_upsert_mirror by done. by rewrite (IH Hl) by done.
Qed.
Lemma run_upsert_attribute s u k v src :
  user_exists_row s u = true → too_long_value v = false ∧ no_nul v = true →
  upsert_attribute u k v src s =
  (Ok (mk_attr v src (di_clock s)), set_attrs (insert (u, k) (mk_attr v src (di_clock s))) s).
Proof. intros Hu [Hv Hz]. unfold upsert_attribute. run. by rewrite Hz, Hv, Hu. Qed.
Lemma run_each_attribute u l s :
  user_exists_row s u = true → storable l →
  for_each (λ kv : string * string, _ ← upsert_attribute u kv.1 kv.2 from_idp; mret ()) l s =
  (Ok (), set_attrs (insert_all (λ k, (u, k)) (λ v, mk_attr v from_idp (di_clock s)) l) s).
Proof.
  intros Hu Hl. revert s Hu. induction l as [|[k v] l IH]; intros s Hu; [by destruct s|].
  apply storable_cons in Hl as (Hv & _ & Hl). cbn [for_each].
  rewrite run_bind, run_bind. cbn [fst snd]. rewrite run_upsert_attribute by done. run.
  by rewrite (IH Hl) by done.
Qed.

(** The state after the transaction, and the changes it reports. *)
Definition mirror_writes s (attrs : list (string * string)) : list (string * string) :=
  filter (λ kv : string * string, mirrored s kv.1 = true) (serialized_attributes attrs).
Definition idp_applied s (u idp : uuid) (attrs : list (string * string)) : directory :=
  set_attrs (insert_all (λ k, (u, k)) (λ v, mk_attr v from_idp (di_clock s)) (mirror_writes s attrs))
    (set_mirror (λ m, insert_all (λ k, (u, idp, k)) id (serialized_attributes attrs)
       (filter (λ kv : uuid * uuid * string * string,
          ¬ (kv.1.1 = (u, idp) ∧ kv.1.2 ∉ (serialized_attributes attrs).*1)) m)) s).
Definition idp_changes s (u : uuid) (attrs : list (string * string)) : list (string * string) :=
  omap (change_of s u) (mirror_writes s attrs).
Lemma applied_mirror s u idp attrs k :
  NoDup ((serialized_attributes attrs).*1) →
  di_mirror (idp_applied s u idp attrs) !! (u, idp, k) =
  (list_to_map (serialized_attributes attrs) : gmap string string) !! k.
Proof.
  intros Hk. unfold idp_applied. simpl. rewrite insert_all_lookup; [|apply _|done].
  destruct (list_to_map _ !! k) eqn:E; [done|]. apply map_lookup_filter_None_2. right.
  intros x _ Hn. apply Hn. split; [done|]. by apply not_elem_of_list_to_map.
Qed.
Lemma applied_mirror_other s u idp attrs u' idp' k :
  (u', idp') ≠ (u, idp) → di_mirror (idp_applied s u idp attrs) !! (u', idp', k) = di_mirror s !! (u', idp', k).
Proof.
  intros Hne. unfold idp_applied. simpl. rewrite insert_all_other by (intros k' _; congruence).
  destruct (di_mirror s !! (u', idp', k)) eqn:E.
  - apply map_lookup_filter_Some_2; [done|]. intros [[=] _]. by subst.
  - apply map_lookup_filter_None_2. by left.
Qed.
Lemma lookup_filtered_list (P : string → bool) (l : list (string * string)) k :
  (list_to_map (filter (λ kv : string * string, P kv.1 = true) l) : gmap string string) !! k =
  if P k then (list_to_map l : gmap string string) !! k else None.
Proof.
  induction l as [|[k' v] l IH]; [rewrite list_to_map_nil, lookup_empty; by destruct (P k)|].
  rewrite filter_cons. simpl. destruct (decide (k' = k)) as [->|Hne].
  - destruct (P k) eqn:E; simpl; [by rewrite !lookup_insert_eq|]. by rewrite IH.
  - destruct (P k'); simpl; rewrite ?lookup_insert_ne by done; done.
Qed.
Lemma applied_attrs s u idp attrs k :
  NoDup ((serialized_attributes attrs).*1) →
  di_attrs (idp_applied s u idp attrs) !! (u, k) =
  match (list_to_map (serialized_attributes attrs) : gmap string string) !! k with
  | Some v => if mirrored s k then Some (mk_attr v from_idp (di_clock s)) else di_attrs s !! (u, k)
  | None => di_attrs s !! (u, k)
  end.
Proof.
  intros Hk. unfold idp_applied. simpl. rewrite insert_all_lookup; [|apply _|].
  - unfold mirror_writes. rewrite (lookup_filtered_list (mirrored s)).
    destruct (list_to_map _ !! k), (mirrored s k); done.
  - unfold mirror_writes. revert Hk. apply NoDup_fmap_filter.
Qed.
Lemma applied_attrs_other s u idp attrs u' k :
  u' ≠ u → di_attrs (idp_applied s u idp attrs) !! (u', k) = di_attrs s !! (u', k).
Proof. intros Hne. unfold idp_applied. simpl. apply insert_all_other. intros k' _. congruence. Qed.
Lemma run_apply_idp_attributes s u idp attrs actor :
  Forall (λ kv : string * string, no_nul kv.2 = true) attrs →
  user_exists_row s u = true → idp_exists s idp = true →
  apply_idp_attributes u idp attrs actor s =
  when (bool_decide (idp_changes s u attrs ≠ []))
    (di_log actor "user" u "user_profile_updated"
       [("cause", MStr "idp_mirror"); ("idp_id", MId idp); ("changes", change_meta (idp_changes s u attrs))])
    (idp_applied s u idp attrs).
Proof.
  intros Hz Hu Hi. unfold apply_idp_attributes. run. rewrite Hi. simpl. rewrite run_bind.
  pose proof (serialized_storable attrs Hz) as Hst.
  assert (Hst' : storable (mirror_writes s attrs)).
  { intros k v [_ Hin]%list_elem_of_filter. by apply Hst. }
  unfold transaction. rewrite run_gets_bind. unfold delete_mirror_except. rewrite run_modify_bind.
  rewrite run_bind, run_each_mirror by done. rewrite run_bind.
  fold (mirror_writes s attrs). unfold id at 1. fold (mirror_writes s attrs).
  rewrite run_each_attribute by done. done.
Qed.
Lemma apply_unknown_idp s u idp attrs actor :
  idp_exists s idp = false → apply_idp_attributes u idp attrs actor s = (Raise (ServiceError NotFoundError "idp_not_found"), s).
Proof. intros Hi. unfold apply_idp_attributes. run. by rewrite Hi. Qed.

(** The value under which the provider's [attrs] give key [k]. *)
Definition sent (attrs : list (string * string)) (k w : string) : Prop :=
  ∃ v, (k, v) ∈ attrs ∧ serialize k v = Ok w.
(** The tenant's configuration has the key enabled and mirrored. *)
Definition takes s (k : string) : Prop :=
  ∃ c, di_config s !! k = Some c ∧ cf_enabled c = true ∧ cf_mirror_from_idp c = true.

Lemma sent_elem attrs k w : sent attrs k w ↔ (k, w) ∈ serialized_attributes attrs.
Proof.
  split; [|intros (_ & v & Hin & Hs)%serialized_elem; by exists v].
  intros (v & Hin & Hs). unfold serialized_attributes. apply list_elem_of_omap. exists (k, v). split; [done|].
  cbn [fst snd]. rewrite (serialize_standard _ _ _ Hs), Hs.
  apply serialize_ok_inv in Hs as (_ & _ & Hne & _). by rewrite bool_decide_eq_true_2.
Qed.
Lemma sent_lookup attrs k w : NoDup (attrs.*1) →
  (list_to_map (serialized_attributes attrs) : gmap string string) !! k = Some w ↔ sent attrs k w.
Proof.
  intros Hnd. rewrite sent_elem. symmetry. apply elem_of_list_to_map. by apply serialized_keys.
Qed.
Lemma takes_mirrored s k : takes s k ↔ mirrored s k = true.
Proof.
  unfold takes, mirrored, get_config. destruct (di_config s !! k) as [c|]; [|split; [by intros (c & ? & _)|done]].
  rewrite andb_true_iff. split; [by intros (c' & [= ->] & ? & ?)|intros [? ?]; by exists c].
Qed.
Lemma mirror_write_elem s attrs k w : (k, w) ∈ mirror_writes s attrs ↔ sent attrs k w ∧ takes s k.
Proof. unfold mirror_writes. rewrite list_elem_of_filter, sent_elem, takes_mirrored. simpl. tauto. Qed.
Lemma change_elem s u attrs k how : (k, how) ∈ idp_changes s u attrs ↔
  ∃ w, sent attrs k w ∧ takes s k ∧
    match di_attrs s !! (u, k) with
    | None => how = "added" | Some r => at_value r ≠ w ∧ how = "updated" end.
Proof.
  unfold idp_changes. rewrite list_elem_of_omap. split.
  - intros ([k' w] & Hin & E). apply mirror_write_elem in Hin as [Hs Ht]. revert E.
    unfold change_of, db_get_attribute. cbn [fst snd]. destruct (di_attrs s !! (u, k')) as [r|] eqn:Er; simpl.
    + case_decide; [done|]. intros [= -> <-]. exists w. by rewrite Er.
    + intros [= -> <-]. exists w. by rewrite Er.
  - intros (w & Hs & Ht & Ho). exists (k, w). split; [by apply mirror_write_elem|].
    unfold change_of, db_get_attribute. cbn [fst snd]. destruct (di_attrs s !! (u, k)) as [r|]; simpl; [|by subst].
    destruct Ho as [? ->]. by rewrite decide_False.
Qed.
Lemma change_of_key s u kv c : change_of s u kv = Some c → c.1 = kv.1.
Proof. unfold change_of. repeat case_match; by intros [= <-]. Qed.
Lemma change_keys s u attrs : NoDup (attrs.*1) → NoDup ((idp_changes s u attrs).*1).
Proof.
  intros Hnd%serialized_keys. assert (NoDup ((mirror_writes s attrs).*1)) as Hm by (by apply NoDup_fmap_filter).
  unfold idp_changes. revert Hm. induction (mirror_writes s attrs) as [|[k w] l IH]; [done|].
  rewrite fmap_cons. intros [Hk Hl]%NoDup_cons. specialize (IH Hl). cbn [omap list_omap].
  destruct (change_of s u (k, w)) as [[k' h]|] eqn:E; [|done].
  apply change_of_key in E. simpl in E. subst k'.
  rewrite fmap_cons. apply NoDup_cons. split; [|done]. simpl. intros ([k2 h2] & -> & Hin)%list_elem_of_fmap.
  apply list_elem_of_omap in Hin as ([k3 w3] & Hin & E3). apply Hk, list_elem_of_fmap. exists (k3, w3). split; [|done].
  by apply change_of_key in E3.
Qed.

(** C29. What a provider sends becomes, exactly, its snapshot of the user: the
    standard keys it sent with a value that serializes, and no other, the
    upstream id among those that are gone.  The canonical attributes change
    exactly at the keys among them that the tenant's configuration has enabled
    and mirrored; other users, other providers and everything else stay.  The
    one event, if anything changed, names each changed key as added or
    updated.  The values are taken not to hold the character 0, on which the
    database fails. *)
Theorem apply_idp_attributes_exact s u idp attrs actor :
  user_exists_row s u = true → idp_exists s idp = true → NoDup (attrs.*1) →
  Forall (λ kv : string * string, no_nul kv.2 = true) attrs →
  let run_ := apply_idp_attributes u idp attrs actor s in
  let s' := run_.2 in
  run_.1 = Ok () ∧
  (∀ k w, di_mirror s' !! (u, idp, k) = Some w ↔ sent attrs k w) ∧
  (∀ u' idp' k, (u', idp') ≠ (u, idp) → di_mirror s' !! (u', idp', k) = di_mirror s !! (u', idp', k)) ∧
  (∀ k w, sent attrs k w → takes s k → di_attrs s' !! (u, k) = Some (mk_attr w from_idp (di_clock s))) ∧
  (∀ k, (∀ w, ¬ sent attrs k w) ∨ ¬ takes s k → di_attrs s' !! (u, k) = di_attrs s !! (u, k)) ∧
  (∀ u' k, u' ≠ u → di_attrs s' !! (u', k) = di_attrs s !! (u', k)) ∧
  get_external_id s' u idp = None ∧
  di_config s' = di_config s ∧ di_force s' = di_force s ∧
  ∃ changes, NoDup changes.*1 ∧
    (∀ k how, (k, how) ∈ changes ↔ ∃ w, sent attrs k w ∧ takes s k ∧
       match di_attrs s !! (u, k) with
       | None => how = "added" | Some r => at_value r ≠ w ∧ how = "updated" end) ∧
    events (di_dir s') = events (di_dir s) ++
      (if bool_decide (changes = []) then []
       else [mk_event actor "user" u "user_profile_updated"
               [("cause", MStr "idp_mirror"); ("idp_id", MId idp); ("changes", change_meta changes)]]).
Proof.
  intros Hu Hi Hnd Hz run_ s'. pose proof (serialized_keys attrs Hnd) as Hk.
  assert (Hrun : run_.1 = Ok () ∧ di_mirror s' = di_mirror (idp_applied s u idp attrs) ∧
                 di_attrs s' = di_attrs (idp_applied s u idp attrs) ∧
                 di_config s' = di_config s ∧ di_force s' = di_force s ∧
                 events (di_dir s') = events (di_dir s) ++
                   (if bool_decide (idp_changes s u attrs = []) then []
                    else [mk_event actor "user" u "user_profile_updated"
                            [("cause", MStr "idp_mirror"); ("idp_id", MId idp);
                             ("changes", change_meta (idp_changes s u attrs))]])).
  { unfold s', run_. rewrite run_apply_idp_attributes by done.
    destruct (decide (idp_changes s u attrs = [])) as [E|E].
    - rewrite (bool_decide_eq_false_2 (_ ≠ [])), (bool_decide_eq_true_2 (_ = [])) by naive_solver.
      by rewrite app_nil_r.
    - rewrite (bool_decide_eq_true_2 (_ ≠ [])), (bool_decide_eq_false_2 (_ = [])) by done. done. }
  destruct Hrun as (Hok & Hm & Ha & Hc & Hf & He). unfold get_external_id. rewrite Hm, Ha.
  split_and!; try done.
  - intros k w. rewrite applied_mirror by done. by apply sent_lookup.
  - intros u' idp' k Hne. by apply applied_mirror_other.
  - intros k w Hs Ht. rewrite applied_attrs by done. apply (sent_lookup attrs k w Hnd) in Hs as ->.
    by apply takes_mirrored in Ht as ->.
  - intros k Hno. rewrite applied_attrs by done. destruct (_ !! k) as [w|] eqn:Ew; [|done].
    apply (sent_lookup attrs k w Hnd) in Ew. destruct Hno as [Hno|Hno]; [by destruct (Hno w)|].
    destruct (mirrored s k) eqn:Em; [|done]. by destruct Hno; apply takes_mirrored.
  - intros u' k Hne. by apply applied_attrs_other.
  - rewrite applied_mirror by done. destruct (_ !! _) as [w|] eqn:Ew; [|done].
    apply (sent_lookup attrs _ w Hnd), sent_elem in Ew. by apply serialized_not_external in Ew.
  - exists (idp_changes s u attrs). split_and!; [by apply change_keys|apply change_elem|done].
Qed.
End apply_rules.
