(* ===== verification/AttrHistory.v ===== *)
(** * Attributes over time

    What any history of attribute calls leaves: who vouches for a value that
    may enter an assertion, and when a user who has to complete the profile
    gets out of it, or cannot. *)

From stdpp Require Import gmap strings list sorting.
From S2P Require Import Prelude GroupDb OAuthDb UserLifecycle MailDb SecuritySettings MfaDb Json AttrDb Attributes AttrProofs.
#[local] Open Scope Z_scope.

Lemma keeps_for_each_in {S A} (I : S → Prop) (m : A → M S ()) l :
  (∀ x, x ∈ l → keeps I (m x)) → keeps I (for_each m l).
Proof.
  induction l as [|x l IH]; intros Hm; [apply keeps_ret|].
  apply keeps_bind; [apply Hm; left|intros []]. apply IH. intros y Hy. apply Hm. by right.
Qed.

Lemma keeps_bind_lift {S A B} (I : S → Prop) (r : outcome A) (f : A → M S B) :
  (∀ a, r = Ok a → keeps I (f a)) → keeps I (lift r ≫= f).
Proof. intros Hf s Hs. rewrite run_lift_bind. destruct r; [by apply Hf|done]. Qed.

Section history.
Context `{Collation} `{DirectoryIds}.
Implicit Types s : directory.

(** ** Calls *)

Inductive attr_call :=
  | CSet (ru : requesting_user) (u : uuid) (key value : string)
  | CClear (ru : requesting_user) (u : uuid) (key : string)
  | CForm (ru : requesting_user) (u : uuid) (form : list (string * option string)) (enforce_user_lock : bool)
  | CIdp (u idp : uuid) (attributes : list (string * string)) (actor : option uuid)
  | CScrub (idp : uuid) (actor only : option uuid)
  | CConfig (ru : requesting_user) (key : string) (enabled required mirror locked send allow_self : bool)
  | CForce (ru : requesting_user) (us : list uuid)
  | CSeed.
Definition ignore {A} (m : M directory A) : M directory () := _ ← m; mret ().
Definition run_attr_call (c : attr_call) : M directory () :=
  match c with
  | CSet ru u key value => ignore (set_user_attribute ru u key value)
  | CClear ru u key => ignore (clear_user_attribute ru u key)
  | CForm ru u form lock => ignore (apply_attribute_form_updates ru u form lock)
  | CIdp u i attributes actor => apply_idp_attributes u i attributes actor
  | CScrub i actor only => ignore (scrub_canonical_matches_mirror i actor only)
  | CConfig ru key e r m l sd a => ignore (update_tenant_attribute_config ru key e r m l sd a)
  | CForce ru us => ignore (bulk_set_force_profile_completion ru us)
  | CSeed => ignore seed_tenant_attribute_config
  end.
(** A call that raises leaves what it has written. *)
Fixpoint run_attr_calls (cs : list attr_call) s : directory :=
  match cs with [] => s | c :: cs => run_attr_calls cs (run_attr_call c s).2 end.

(** An administrator wrote the value, or a provider sent it. *)
Definition vouches (u : uuid) (key w : string) (c : attr_call) : Prop :=
  match c with
  | CSet ru u' key' value => admin_role ru = true ∧ u' = u ∧ key' = key ∧ serialize key value = Ok w
  | CForm ru u' form _ => admin_role ru = true ∧ u' = u ∧
      ∃ raw, form_value key form = Some (Some raw) ∧ serialize key (py_strip raw) = Ok w
  | CIdp u' _ attributes _ => u' = u ∧ ∃ v, (key, v) ∈ attributes ∧ serialize key v = Ok w
  | _ => False
  end.

(** ** Provenance *)

Definition vouched (cs : list attr_call) s : Prop := ∀ u key r,
  di_attrs s !! (u, key) = Some r →
  (∃ v, serialize key v = Ok (at_value r)) ∧
  (at_source r ≠ from_self → ∃ c, c ∈ cs ∧ vouches u key (at_value r) c).

Lemma vouched_ext cs s s' : di_attrs s' = di_attrs s → vouched cs s → vouched cs s'.
Proof. unfold vouched. by intros ->. Qed.
Lemma keeps_vouched_modify cs f : (∀ s, di_attrs (f s) = di_attrs s) → keeps (vouched cs) (modify f).
Proof. intros Hf. apply keeps_modify. intros s. by apply vouched_ext. Qed.
Lemma keeps_vouched_in_factors {A} cs (m : M factors A) : keeps (vouched cs) (in_factors m).
Proof. intros s Hs. unfold in_factors. by destruct (m (di_factors s)). Qed.
Lemma keeps_vouched_log cs actor t i name md : keeps (vouched cs) (di_log actor t i name md).
Proof. apply keeps_vouched_in_factors. Qed.
Lemma keeps_vouched_track cs u : keeps (vouched cs) (di_track u).
Proof. apply keeps_vouched_in_factors. Qed.
Lemma keeps_vouched_touch cs u : keeps (vouched cs) (touch u).
Proof. by apply keeps_vouched_modify. Qed.
Hint Resolve keeps_vouched_log keeps_vouched_track keeps_vouched_touch : keeps.
Lemma keeps_vouched_force cs u b : keeps (vouched cs) (set_force_profile_completion u b).
Proof.
  unfold set_force_profile_completion, update_users. keeps_auto; by apply keeps_vouched_modify.
Qed.
Lemma keeps_vouched_maybe_clear cs u : keeps (vouched cs) (_maybe_clear_force_profile_completion u).
Proof. pose proof keeps_vouched_force. unfold _maybe_clear_force_profile_completion. keeps_auto. Qed.
Lemma keeps_vouched_mirror_except cs u idp keys : keeps (vouched cs) (delete_mirror_except u idp keys).
Proof. by apply keeps_vouched_modify. Qed.
Lemma keeps_vouched_upsert_mirror cs u idp key v : keeps (vouched cs) (upsert_mirror u idp key v).
Proof. unfold upsert_mirror. keeps_auto. by apply keeps_vouched_modify. Qed.
Hint Resolve keeps_vouched_force keeps_vouched_maybe_clear keeps_vouched_mirror_except
  keeps_vouched_upsert_mirror : keeps.

Lemma keeps_vouched_upsert cs u key w src :
  (∃ v, serialize key v = Ok w) → (src ≠ from_self → ∃ c, c ∈ cs ∧ vouches u key w c) →
  keeps (vouched cs) (upsert_attribute u key w src).
Proof.
  intros Hw Hc. unfold upsert_attribute. keeps_auto. apply keeps_modify.
  intros s' Hs u' key' r. simpl. rewrite lookup_insert_Some.
  intros [[[= <- <-] <-]|[_ Hr]]; [done|]. by apply (Hs _ _ _ Hr).
Qed.
Lemma keeps_vouched_delete_attribute cs u key : keeps (vouched cs) (delete_attribute u key).
Proof.
  intros s Hs u' key' r. unfold delete_attribute. run. rewrite lookup_delete_Some.
  intros [_ Hr]. by apply (Hs _ _ _ Hr).
Qed.
Hint Resolve keeps_vouched_delete_attribute : keeps.

Lemma keeps_vouched_set cs ru u key value :
  (∀ w, admin_role ru = true → serialize key value = Ok w → ∃ c, c ∈ cs ∧ vouches u key w c) →
  keeps (vouched cs) (set_user_attribute ru u key value).
Proof.
  intros Hc. unfold set_user_attribute.
  apply keeps_bind; [unfold _require_known_attribute; keeps_auto|intros _].
  apply keeps_bind; [unfold _require_enabled; keeps_auto|intros config].
  apply keeps_bind; [unfold _enforce_self_edit_policy; keeps_auto|intros _].
  apply keeps_bind_lift. intros w Hw. apply keeps_bind; [keeps_auto|intros old].
  apply keeps_bind; [|unfold log_attribute; keeps_auto].
  apply keeps_vouched_upsert; [by eauto|]. destruct (admin_role ru); [by auto|done].
Qed.
Lemma keeps_vouched_clear cs ru u key : keeps (vouched cs) (clear_user_attribute ru u key).
Proof.
  unfold clear_user_attribute, _require_known_attribute, _enforce_self_edit_policy, log_attribute.
  keeps_auto.
Qed.
Hint Resolve keeps_vouched_clear : keeps.

Lemma keeps_try_form (I : directory → Prop) key acc m : keeps I m → keeps I (try_form key acc m).
Proof.
  intros Hm s Hs. unfold try_form. specialize (Hm s Hs). destruct (m s) as [[a|e] s']; [done|].
  by destruct (form_error key e).
Qed.
Lemma keeps_vouched_form cs ru u form lock :
  CForm ru u form lock ∈ cs → keeps (vouched cs) (apply_attribute_form_updates ru u form lock).
Proof.
  intros Hin. unfold apply_attribute_form_updates, list_tenant_attribute_config. keeps_auto.
  generalize (mk_form_result None [] [] []). induction a0 as [|kc configs IH]; intros acc; simpl; [keeps_auto|].
  apply keeps_bind; [|intros; apply IH]. unfold form_item. destruct (cf_enabled kc.2); [|keeps_auto].
  destruct (form_value kc.1 form) as [raw|] eqn:Hf; [|keeps_auto]. case_match; [keeps_auto|].
  apply keeps_try_form. case_decide as Hr; [keeps_auto|].
  apply keeps_bind; [|keeps_auto]. destruct raw as [raw|]; [|done].
  apply keeps_vouched_set. intros w Ha Hw. exists (CForm ru u form lock). simpl. eauto 10.
Qed.
Lemma keeps_vouched_apply cs u i attrs actor :
  CIdp u i attrs actor ∈ cs → keeps (vouched cs) (apply_idp_attributes u i attrs actor).
Proof.
  intros Hin. unfold apply_idp_attributes. apply keeps_bind; [keeps_auto|intros known].
  apply keeps_bind; [keeps_auto|intros _]. apply keeps_bind; [|keeps_auto]. apply keeps_transaction.
  apply keeps_bind; [keeps_auto|intros s].
  apply keeps_bind; [keeps_auto|intros _]. apply keeps_bind; [keeps_auto|intros _].
  apply keeps_bind; [|keeps_auto]. apply keeps_for_each_in.
  intros [k w] [_ (_ & v & Hkv & Hw)%serialized_elem]%list_elem_of_filter. simpl.
  apply keeps_bind; [|keeps_auto]. apply keeps_vouched_upsert; [by eauto|]. intros _. exists (CIdp u i attrs actor). simpl. eauto.
Qed.
Lemma keeps_vouched_scrub cs i actor only : keeps (vouched cs) (scrub_canonical_matches_mirror i actor only).
Proof.
  unfold scrub_canonical_matches_mirror. apply keeps_bind; [|keeps_auto].
  intros s Hs u key r [Hr _]%map_lookup_filter_Some. by apply (Hs _ _ _ Hr).
Qed.
Lemma keeps_vouched_force_loop cs actor us acc : keeps (vouched cs) (force_loop actor us acc).
Proof. revert acc. induction us as [|u us IH]; intros acc; simpl; keeps_auto. Qed.
Lemma keeps_vouched_update_config cs key e r m l sd a : keeps (vouched cs) (update_config key e r m l sd a).
Proof. intros s Hs. unfold update_config. run. by apply (vouched_ext _ s). Qed.
Lemma keeps_vouched_insert_config cs key c : keeps (vouched cs) (insert_config_row key c).
Proof. intros s Hs. unfold insert_config_row. run. by case_match. Qed.
Hint Resolve keeps_vouched_force_loop keeps_vouched_scrub keeps_vouched_update_config
  keeps_vouched_insert_config keeps_vouched_form keeps_vouched_apply : keeps.

Lemma keeps_vouched_call cs c : c ∈ cs → keeps (vouched cs) (run_attr_call c).
Proof.
  intros Hin. destruct c; simpl; unfold ignore.
  - apply keeps_bind; [|keeps_auto]. apply keeps_vouched_set. intros w Ha Hw. eexists. split; [done|].
    simpl. eauto.
  - keeps_auto.
  - keeps_auto.
  - keeps_auto.
  - keeps_auto.
  - unfold update_tenant_attribute_config. keeps_auto.
  - unfold bulk_set_force_profile_completion. keeps_auto.
  - unfold seed_tenant_attribute_config. keeps_auto.
Qed.
Lemma vouched_run cs cs' s : cs' ⊆ cs → vouched cs s → vouched cs (run_attr_calls cs' s).
Proof.
  revert s. induction cs' as [|c cs' IH]; intros s Hsub Hs; [done|]. simpl. apply IH; [set_solver|].
  apply keeps_vouched_call; [set_solver|done].
Qed.

(** ** Assertions *)

Lemma elem_of_list_attributes s u key r :
  (key, r) ∈ db_list_attributes s u → di_attrs s !! (u, key) = Some r.
Proof.
  unfold db_list_attributes. rewrite elem_of_order_by_name, list_elem_of_omap.
  intros ([[u' k] r'] & Hin & E). simpl in E. case_decide as Hu; [|done]. injection E as <- <-. subst u'.
  by apply elem_of_map_to_list in Hin.
Qed.
Lemma config_flag_true s key f :
  config_flag (list_config s) key f = true → ∃ c, get_config s key = Some c ∧ f c = true.
Proof.
  unfold config_flag, list_config. rewrite existsb_exists. intros ([k c] & Hin & [Hk Hf]%andb_true_iff).
  apply bool_decide_eq_true in Hk. simpl in *. subst k.
  apply list_elem_of_In in Hin. rewrite merge_sort_Permutation in Hin. apply elem_of_map_to_list in Hin. eauto.
Qed.
Lemma fixed_not_standard email first_name last_name gs key v :
  (key, v) ∈ fixed_attributes email first_name last_name gs → is_standard_attribute key = false.
Proof.
  unfold fixed_attributes, text_field. intros Hin.
  assert (Hk : key ∈ ["email"; "firstName"; "lastName"; "displayName"; "groups"]).
  { revert Hin. repeat case_decide; destruct gs; rewrite ?elem_of_app, ?elem_of_cons, ?elem_of_nil;
      simpl; naive_solver. }
  rewrite !elem_of_cons, elem_of_nil in Hk. by destruct Hk as [->|[->|[->|[->|[->|[]]]]]].
Qed.
Lemma assertion_standard configs rows fixed mapping key v :
  (∀ k v, (k, v) ∈ fixed → is_standard_attribute k = false) → is_standard_attribute key = true →
  (key, v) ∈ assertion_of configs rows fixed mapping →
  ∃ r, (key, r) ∈ rows ∧ emitted configs mapping (key, r) = Some (key, v).
Proof.
  intros Hfixed Hk Hin.
  assert (Hin' : (key, v) ∈ omap (emitted configs mapping) rows).
  { unfold assertion_of in Hin. case_decide; apply elem_of_app in Hin as [Hin|Hin]; try done.
    - apply list_elem_of_filter in Hin as [_ Hin]. by rewrite (Hfixed _ _ Hin) in Hk.
    - by rewrite (Hfixed _ _ Hin) in Hk. }
  apply list_elem_of_omap in Hin' as ([k r] & Hr & E). exists r.
  assert (k = key) as ->; [|done]. unfold emitted in E. simpl in E.
  repeat case_match; try discriminate; by injection E.
Qed.
Lemma emitted_inv configs mapping key r w :
  emitted configs mapping (key, r) = Some (key, AText w) →
  deserialize key (at_value r) = Ok w ∧
  (at_source r = from_self → config_flag configs key cf_allow_self_sourced_to_sp = true).
Proof.
  unfold emitted. simpl. intros He.
  do 2 (case_match; [discriminate|]). destruct (match mapping with Some _ => _ | None => _ end); [discriminate|].
  case_match; [discriminate|].
  destruct (bool_decide (at_source r = from_self) && _) eqn:Hs; [discriminate|].
  case_match; [|discriminate]. injection He as ->. split; [done|]. intros Hself.
  rewrite (bool_decide_eq_true_2 _ Hself) in Hs. simpl in Hs.
  by destruct (config_flag configs key cf_allow_self_sourced_to_sp).
Qed.
Lemma run_build tenant_id u e f l gs mapping cf af lf s result s' :
  _build_assertion_attributes tenant_id u e f l gs mapping cf af lf s = (Ok result, s') →
  ∃ configs rows, result = assertion_of configs rows (fixed_attributes e f l gs) mapping ∧
    (configs = [] ∨ cf = false ∧ configs = list_config s) ∧
    (∀ k r, (k, r) ∈ rows → di_attrs s !! (u, k) = Some r).
Proof.
  unfold _build_assertion_attributes, read_failed. intros Hrun.
  exists (if cf then [] else list_config s), (if af then [] else db_list_attributes s u).
  destruct cf, af, lf; run in Hrun; injection Hrun as <- <-;
    split_and!; try (by auto); intros k r Hin; try (by apply elem_of_nil in Hin);
    by apply elem_of_list_attributes.
Qed.

(** C28. Whatever users, administrators and providers do: a standard attribute
    that enters an assertion, for a tenant that does not let users' own
    values out (or when its configuration could not be read), was written by
    an administrator or sent by a provider with exactly that value. *)
Theorem self_values_withheld s0 calls tenant_id u e f l gs mapping config_fails attributes_fail log_fails
    result s' key w :
  di_attrs s0 = ∅ →
  _build_assertion_attributes tenant_id u e f l gs mapping config_fails attributes_fail log_fails
    (run_attr_calls calls s0) = (Ok result, s') →
  is_standard_attribute key = true → (key, AText w) ∈ result →
  (config_fails = true ∨
   ∀ c, get_config (run_attr_calls calls s0) key = Some c → cf_allow_self_sourced_to_sp c = false) →
  ∃ c, c ∈ calls ∧ vouches u key w c.
Proof.
  intros H0' Hrun Hk Hin Hpolicy. set (s := run_attr_calls calls s0) in *.
  assert (Hv : vouched calls s).
  { apply vouched_run; [done|]. intros u' k' r'. by rewrite H0', lookup_empty. }
  apply run_build in Hrun as (configs & rows & -> & Hconf & Hrows).
  apply assertion_standard in Hin as (r & Hr & He); [|apply fixed_not_standard|done].
  apply emitted_inv in He as [Hd Hself]. destruct (Hv u key r (Hrows _ _ Hr)) as [[v Hser] Hvouch].
  destruct (serialize_stable key v _ Hser) as [Hst _]. unfold deserialize in Hd.
  assert (at_value r = w) as <- by congruence. apply Hvouch. intros Hs.
  specialize (Hself Hs). destruct Hconf as [->|[Hcf ->]]; [done|].
  apply config_flag_true in Hself as (c & Hc & Hallow). destruct Hpolicy as [Hpolicy|Hpolicy]; [congruence|].
  by rewrite (Hpolicy c Hc) in Hallow.
Qed.
End history.
