(* ===== verification/ProfileGate.v ===== *)
(** * The profile completion gate

    [force_profile_completion] sends a user to the profile page until the
    required attributes are filled.  A user who may edit the profile gets out
    by filling them; one whose tenant does not let users edit never does. *)

From stdpp Require Import gmap strings list sorting.
From S2P Require Import Prelude GroupDb OAuthDb UserLifecycle MailDb SecuritySettings MfaDb Json AttrDb Attributes AttrProofs AttrHistory.
#[local] Open Scope Z_scope.

Section gate.
Context `{Collation} `{DirectoryIds}.
Implicit Types s : directory.

Lemma elem_of_list_config s key c : (key, c) ∈ list_config s ↔ di_config s !! key = Some c.
Proof. unfold list_config. rewrite merge_sort_Permutation. apply elem_of_map_to_list. Qed.
Lemma elem_of_fixable s u key :
  key ∈ user_fixable_missing s u ↔
  ∃ c, di_config s !! key = Some c ∧ cf_enabled c = true ∧ cf_required c = true ∧
       cf_locked_for_users c = false ∧ has_value s u key = false.
Proof.
  unfold user_fixable_missing, compute_missing_required. rewrite list_elem_of_fmap. split.
  - intros ([k b] & -> & [Hb Hin]%list_elem_of_filter). simpl in *.
    apply list_elem_of_omap in Hin as ([k' c] & Hin & E). apply elem_of_list_config in Hin. simpl in E.
    case_match eqn:Hc; [|done]. injection E as <- <-. exists c.
    apply andb_true_iff in Hc as [[??]%andb_true_iff ?%negb_true_iff]. done.
  - intros (c & Hc & He & Hr & Hl & Hv). exists (key, false). split; [done|].
    apply list_elem_of_filter. split; [done|]. apply list_elem_of_omap. exists (key, c).
    split; [by apply elem_of_list_config|]. simpl. by rewrite He, Hr, Hl, Hv.
Qed.

(** ** Filling an attribute *)

Definition editable s (me : requesting_user) : Prop :=
  user_exists_row s (ru_id me) = true ∧ can_user_edit_profile (di_mail s) = true.
Definition fillable s (key value : string) : Prop :=
  (∃ c, di_config s !! key = Some c ∧ cf_enabled c = true ∧ cf_locked_for_users c = false) ∧
  (∃ w, serialize key value = Ok w) ∧ no_nul value = true.

Lemma run_maybe_clear u s :
  user_exists_row s u = true →
  ∃ s', _maybe_clear_force_profile_completion u s = (Ok (), s') ∧
    di_attrs s' = di_attrs s ∧ di_config s' = di_config s ∧ di_factors s' = di_factors s ∧
    (user_fixable_missing s u = [] → u ∉ di_force s').
Proof.
  intros Hu. unfold _maybe_clear_force_profile_completion. run. rewrite Hu. simpl.
  destruct (force_profile_completion s u) eqn:Hf; simpl; unfold id.
  - destruct (decide (user_fixable_missing s u = [])) as [E|E].
    + rewrite (bool_decide_eq_true_2 _ E). simpl. unfold set_force_profile_completion, update_users. run.
      rewrite Hu. simpl. eexists. split; [done|]. split_and!; [done..|]. set_solver.
    + rewrite (bool_decide_eq_false_2 _ E). simpl. exists s. by split_and!.
  - exists s. split_and!; [done..|]. intros _. by apply bool_decide_eq_false in Hf.
Qed.

Lemma run_set_own s me key value :
  editable s me → fillable s key value →
  ∃ w s', (set_user_attribute me (ru_id me) key value s).1 = Ok (mk_attr w (if admin_role me then from_admin else from_self) (di_clock s)) ∧
    (set_user_attribute me (ru_id me) key value s).2 = s' ∧
    di_attrs s' = <[(ru_id me, key) := mk_attr w (if admin_role me then from_admin else from_self) (di_clock s)]> (di_attrs s) ∧
    di_config s' = di_config s ∧ editable s' me ∧ w ≠ "" ∧ py_strip w = w ∧
    (user_fixable_missing s' (ru_id me) = [] → ru_id me ∉ di_force s').
Proof.
  intros [Hu Hedit] [(c & Hc & He & Hl) [[w Hw] Hz]].
  destruct (serialize_stable key value w Hw) as (_ & Hp & Hne).
  unfold set_user_attribute, _require_known_attribute. run. rewrite (serialize_standard _ _ _ Hw). simpl.
  rewrite run_bind. unfold _require_enabled. run. unfold get_config. rewrite Hc, He. run.
  assert (Hpol : ∀ s, can_user_edit_profile (di_mail s) = true →
            _enforce_self_edit_policy me (ru_id me) (cf_locked_for_users c) s = (Ok (), s)).
  { intros s1 Hs1. unfold _enforce_self_edit_policy. destruct (admin_role me); [done|]. run.
    rewrite bool_decide_eq_false_2 by naive_solver. by rewrite Hs1, Hl. }
  rewrite run_bind, Hpol by done. run. rewrite Hw. run. rewrite run_bind.
  pose proof (stored_length key value w Hw) as Hshort. pose proof (stored_no_nul key value w Hw Hz) as Hnn.
  rewrite run_upsert_attribute by done.
  set (row := mk_attr w _ _). set (s1 := set_attrs _ s). rewrite run_bind.
  set (log := when _ _).
  assert (Hlog : ∃ t, log s1 = (Ok (), set_factors (λ _, t) s1) ∧
            accounts (ma_tenant (fa_mail t)) = accounts (di_tenant s1) ∧ ma_security (fa_mail t) = ma_security (di_mail s1)).
  { unfold log. destruct (bool_decide _).
    - eexists. split; [apply run_di_log|done].
    - exists (di_factors s1). by destruct s1. }
  destruct Hlog as (t & -> & Ht & Hsec). set (s2 := set_factors _ s1).
  assert (Hu2 : user_exists_row s2 (ru_id me) = true).
  { revert Hu. unfold user_exists_row, di_tenant, di_mail, s2. simpl. rewrite Ht. done. }
  rewrite run_bind. destruct (run_maybe_clear (ru_id me) s2 Hu2) as (s3 & -> & Ha3 & Hc3 & Hf3 & Hforce).
  exists w, s3. split_and!; try done.
  - split.
    + revert Hu2. unfold user_exists_row, di_tenant, di_mail. by rewrite Hf3.
    + revert Hedit. unfold can_user_edit_profile, di_mail. rewrite Hf3. simpl. by rewrite Hsec.
  - intros E. apply Hforce. rewrite <- E. unfold user_fixable_missing, compute_missing_required, list_config, has_value.
    by rewrite Ha3, Hc3.
Qed.

(** After the write the key has a value and no other key lost its. *)
Lemma fixable_after s s' u key w src t :
  di_attrs s' = <[(u, key) := mk_attr w src t]> (di_attrs s) → di_config s' = di_config s →
  w ≠ "" → py_strip w = w →
  ∀ k, k ∈ user_fixable_missing s' u → k ∈ user_fixable_missing s u ∧ k ≠ key.
Proof.
  intros Ha Hc Hne Hp k. rewrite !elem_of_fixable, Hc. intros (c & Hk & He & Hr & Hl & Hv).
  unfold has_value in *. rewrite Ha in Hv.
  destruct (decide (k = key)) as [->|Hkey].
  - rewrite lookup_insert_eq in Hv. simpl in Hv. rewrite Hp in Hv.
    by rewrite !bool_decide_eq_true_2 in Hv.
  - rewrite lookup_insert_ne in Hv by congruence. eauto 10.
Qed.
Lemma fillable_config s s' key value : di_config s' = di_config s → fillable s key value → fillable s' key value.
Proof. unfold fillable. by intros ->. Qed.

Definition fill (me : requesting_user) (values : list (string * string)) : M directory () :=
  for_each (λ kv : string * string, _ ← set_user_attribute me (ru_id me) kv.1 kv.2; mret ()) values.

(** The tenant requires the attribute of the user, lets users write it, and
    the user has no value other than spaces. *)
Definition asked_of s (u : uuid) (key : string) : Prop :=
  (∃ c, di_config s !! key = Some c ∧ cf_enabled c = true ∧ cf_required c = true ∧ cf_locked_for_users c = false) ∧
  ∀ r, di_attrs s !! (u, key) = Some r → py_strip (at_value r) = "".
Lemma asked_fixable s u key : asked_of s u key ↔ key ∈ user_fixable_missing s u.
Proof.
  rewrite elem_of_fixable. unfold asked_of, has_value. split.
  - intros ((c & Hc & He & Hr & Hl) & Hv). exists c. split_and!; try done.
    destruct (di_attrs s !! (u, key)) as [r|]; [|done]. rewrite (Hv r eq_refl). apply andb_false_r.
  - intros (c & Hc & He & Hr & Hl & Hv). split; [by exists c|]. intros r Hr'. rewrite Hr' in Hv.
    destruct (decide (py_strip (at_value r) = "")) as [|Hn]; [done|].
    rewrite (bool_decide_eq_true_2 _ Hn), andb_true_r in Hv. apply bool_decide_eq_false, dec_stable in Hv.
    by rewrite Hv.
Qed.

(** C30. A user who may edit the profile and fills, in any order and with any
    acceptable values, at least the attributes that the tenant requires, that
    are not locked for users and that have no value, gets through: every write
    succeeds and the flag is gone, whatever locked attributes are missing. *)
Theorem profile_gate_opens s me values :
  editable s me → values ≠ [] → Forall (λ kv, fillable s kv.1 kv.2) values →
  (∀ key, asked_of s (ru_id me) key → key ∈ values.*1) →
  (fill me values s).1 = Ok () ∧ force_profile_completion (fill me values s).2 (ru_id me) = false.
Proof.
  intros Hed Hne Hfill Hcover. setoid_rewrite asked_fixable in Hcover. unfold fill. revert s Hed Hfill Hcover.
  induction values as [|[key value] values IH]; intros s Hed Hfill Hcover; [done|]. clear Hne.
  apply Forall_cons in Hfill as [Hk Hrest]. cbn [for_each]. rewrite run_bind, run_bind. cbn [fst snd] in *.
  destruct (run_set_own s me key value Hed Hk) as (w & s' & Hr & Hs' & Ha & Hc & Hed' & Hw & Hp & Hopen).
  destruct (set_user_attribute me (ru_id me) key value s) as [r s1]. simpl in Hr, Hs'. subst r s1. run.
  pose proof (fixable_after s s' _ _ _ _ _ Ha Hc Hw Hp) as Hmiss.
  destruct values as [|kv values].
  - simpl. split; [done|]. apply bool_decide_eq_false_2, Hopen.
    destruct (user_fixable_missing s' (ru_id me)) as [|k l] eqn:E; [done|].
    destruct (Hmiss k) as [Hin Hkey]; [by left|]. apply Hcover, list_elem_of_singleton in Hin. done.
  - apply IH; [done|done| |].
    + eapply Forall_impl; [exact Hrest|]. intros ?. by apply fillable_config.
    + intros k [Hin Hkey]%Hmiss. apply Hcover in Hin. simpl in Hin. apply elem_of_cons in Hin as [->|Hin]; done.
Qed.

(** ** A gate that does not open *)

Inductive own_call :=
  | OSet (key value : string)
  | OClear (key : string)
  | OForm (form : list (string * option string)) (enforce_user_lock : bool).
Definition run_own (me : requesting_user) (c : own_call) : M directory () :=
  match c with
  | OSet key value => ignore (set_user_attribute me (ru_id me) key value)
  | OClear key => ignore (clear_user_attribute me (ru_id me) key)
  | OForm form lock => ignore (apply_attribute_form_updates me (ru_id me) form lock)
  end.
Fixpoint run_owns (me : requesting_user) (cs : list own_call) s : directory :=
  match cs with [] => s | c :: cs => run_owns me cs (run_own me c s).2 end.

(** Flagged, in a tenant that does not let users edit. *)
Definition trapped (u : uuid) s : Prop :=
  u ∈ di_force s ∧ can_user_edit_profile (di_mail s) = false.
Lemma keeps_trapped_log u actor t i name md : keeps (trapped u) (di_log actor t i name md).
Proof. by intros s. Qed.
Lemma keeps_trapped_track u v : keeps (trapped u) (di_track v).
Proof. by intros s. Qed.
Hint Resolve keeps_trapped_log keeps_trapped_track : keeps.
Lemma policy_refuses {B} me u locked (f : () → M directory B) s :
  admin_role me = false → can_user_edit_profile (di_mail s) = false →
  ∃ e, (_enforce_self_edit_policy me u locked ≫= f) s = (Raise e, s).
Proof.
  intros Hm Hs. unfold _enforce_self_edit_policy. rewrite Hm. run. case_match; [by eauto|]. rewrite Hs. by eauto.
Qed.
Lemma set_refused me u key value s :
  admin_role me = false → can_user_edit_profile (di_mail s) = false →
  ∃ e, set_user_attribute me u key value s = (Raise e, s).
Proof.
  intros Hm Hs. unfold set_user_attribute, _require_known_attribute, _require_enabled. run. case_match; [by eauto|].
  destruct (get_config s key) as [c|]; [|run; by eauto]. destruct (cf_enabled c); run; [|by eauto].
  by apply policy_refuses.
Qed.
Lemma clear_refused me u key s :
  admin_role me = false → can_user_edit_profile (di_mail s) = false →
  ∃ e, clear_user_attribute me u key s = (Raise e, s).
Proof.
  intros Hm Hs. unfold clear_user_attribute, _require_known_attribute. run. case_match; [by eauto|].
  by apply policy_refuses.
Qed.
Lemma keeps_trapped_own me c :
  admin_role me = false → keeps (trapped (ru_id me)) (run_own me c).
Proof.
  intros Hm. assert (Hset : ∀ key value, keeps (trapped (ru_id me)) (set_user_attribute me (ru_id me) key value)).
  { intros key value s Hs. destruct (set_refused me (ru_id me) key value s Hm) as [e ->]; [apply Hs|done]. }
  assert (Hclear : ∀ key, keeps (trapped (ru_id me)) (clear_user_attribute me (ru_id me) key)).
  { intros key s Hs. destruct (clear_refused me (ru_id me) key s Hm) as [e ->]; [apply Hs|done]. }
  destruct c as [key value|key|form lock]; simpl; unfold ignore; [keeps_auto..|].
  apply keeps_bind; [|keeps_auto]. unfold apply_attribute_form_updates, list_tenant_attribute_config. keeps_auto.
  generalize (mk_form_result None [] [] []). induction a0 as [|kc configs IH]; intros acc; simpl; [keeps_auto|].
  apply keeps_bind; [|intros; apply IH]. unfold form_item. keeps_auto; apply keeps_try_form; keeps_auto.
Qed.

Lemma force_loop_flags actor us acc s :
  (∀ u, u ∈ flagged acc → u ∈ di_force s) → can_user_edit_profile (di_mail s) = false →
  forallb (user_exists_row s) us = true →
  match force_loop actor us acc s with
  | (Ok r, s') => (∀ u, u ∈ flagged r → u ∈ di_force s') ∧ can_user_edit_profile (di_mail s') = false
  | _ => True
  end.
Proof.
  revert acc s. induction us as [|u us IH]; intros acc s Hacc Hs; cbn [force_loop forallb]; [done|].
  intros [Hu Hus]%andb_true_iff. run.
  case_decide; [by apply IH|]. destruct (existsb snd _); [by apply IH|].
  rewrite run_bind. unfold set_force_profile_completion, update_users. run.
  rewrite Hu. run. rewrite run_bind, run_di_log. apply IH; [|done|done]. simpl.
  intros v [Hv|Hv%list_elem_of_singleton]%elem_of_app; set_solver.
Qed.

(** In a tenant that does not let users edit their profile, the bulk action
    still flags whoever misses an unlocked attribute; whatever such a user
    then does to the own attributes, the flag stays. *)
Theorem profile_gate_trap s ru us r s1 me calls :
  can_user_edit_profile (di_mail s) = false →
  bulk_set_force_profile_completion ru us s = (Ok r, s1) →
  ru_id me ∈ flagged r → admin_role me = false →
  force_profile_completion (run_owns me calls s1) (ru_id me) = true.
Proof.
  intros Hs Hrun Hflag Hm. assert (Ht : trapped (ru_id me) s1).
  { revert Hrun. unfold bulk_set_force_profile_completion. unfold require_admin. rewrite run_raise_if_bind.
    case_match; [discriminate|]. run. case_match eqn:Hall; [discriminate|]. apply negb_false_iff in Hall.
    intros Hrun. pose proof (force_loop_flags (ru_id ru) us (mk_force_result [] [] []) s) as Hl.
    rewrite Hrun in Hl. destruct Hl as [Hin Hedit]; [by intros u ?%elem_of_nil|done|done|].
    split; [by apply Hin|done]. }
  assert (Hrest : trapped (ru_id me) (run_owns me calls s1)).
  { clear Hrun. revert s1 Ht. induction calls as [|c calls IH]; intros s1 Ht; [done|]. simpl. apply IH.
    by apply keeps_trapped_own. }
  apply bool_decide_eq_true_2, Hrest.
Qed.
End gate.
