(* ===== verification/InboundProofs.v ===== *)
(** * Inbound SCIM: what a provider's token can reach

    [within]: the state against the one a request found.  No request changes
    a role, a secret, a second factor or an address of a user that exists,
    and none but POST /Users reaches a user of another provider. *)

From stdpp Require Import gmap strings list.
From S2P Require Import Prelude GroupDb GroupService GroupProofs OAuthDb OAuthService UserLifecycle MailDb Credentials JobProofs MfaDb Json AttrDb Attributes AttrProofs AttrHistory ScimBody ScimUsers ScimGroups ScimTokens.
#[local] Open Scope Z_scope.

Lemma keeps_bind_result {S A B} (I : S → Prop) (P : A → Prop) (m : M S A) (f : A → M S B) :
  keeps I m → (∀ s a s', I s → m s = (Ok a, s') → P a) → (∀ a, P a → keeps I (f a)) → keeps I (m ≫= f).
Proof.
  intros Hm HP Hf s Hs. rewrite run_bind. specialize (Hm s Hs). specialize (HP s).
  destruct (m s) as [[a|e] s'] eqn:E; [|done]. apply Hf; [by eapply HP|done].
Qed.

Lemma cut_access_frame issuer u t :
  accounts (cut_access issuer u t).2 = accounts t ∧ dir (cut_access issuer u t).2 = dir t.
Proof.
  assert (keeps (λ t', accounts t' = accounts t ∧ dir t' = dir t) (cut_access issuer u)) as Hk; [|by apply Hk].
  unfold cut_access, revoke_all_user_tokens, delete_consent_grants_for_user, delete_consents,
    end_user_oidc_sessions, consume_user_session_clients, consume_sessions, delete_tokens.
  keeps_auto; intros t' Ht'; try exact Ht'; rewrite run_update; exact Ht'.
Qed.

Section inbound.
Context `{Collation} `{DirectoryIds} `{MailIds} `{Nonces} `{UuidGen} `{UuidText} `{UuidParse} `{DatetimeText}.
Implicit Types s : directory.

(** ** The relation *)

Definition bound s (idp u : uuid) : Prop :=
  ∃ l, is_Some (accounts (di_tenant s) !! u) ∧ ma_logins (di_mail s) !! u = Some l ∧ lo_saml_idp l = Some idp.

#[export] Instance bound_dec s idp u : Decision (bound s idp u).
Proof.
  unfold bound. destruct (accounts (di_tenant s) !! u) as [a|]; [|right; by intros (l & [? [=]] & _)].
  destruct (ma_logins (di_mail s) !! u) as [l|]; [|right; naive_solver].
  destruct (decide (lo_saml_idp l = Some idp)); [left|right]; naive_solver.
Defined.

(** Everything but the names and the provider. *)
Definition same_secrets (l l' : login_row) : Prop :=
  with_names "" "" (with_idp None l) = with_names "" "" (with_idp None l').
Definition plain_user (a : account_row) (l : option login_row) : Prop :=
  us_role a = member ∧ ∃ l', l = Some l' ∧ lo_password_hash l' = None ∧ lo_mfa_method l' = Some "email".
Definition second_factors s :=
  (fa_totp (di_factors s), fa_backup (di_factors s), fa_passkeys (di_factors s), di_config s, di_force s).

(** [mine]: the users the request may reach. *)
Context (mine : uuid → Prop) (idp : uuid) (s0 : directory).
Record within_users (a : gmap uuid account_row) (l : gmap uuid login_row) (e : gmap uuid email_row) : Prop := {
  wi_role u x : accounts (di_tenant s0) !! u = Some x →
    ∃ x', a !! u = Some x' ∧ us_role x' = us_role x ∧ us_is_anonymized x' = us_is_anonymized x;
  wi_secrets u x y : accounts (di_tenant s0) !! u = Some x → ma_logins (di_mail s0) !! u = Some y →
    ∃ y', l !! u = Some y' ∧ same_secrets y y';
  wi_new u x : accounts (di_tenant s0) !! u = None → a !! u = Some x → plain_user x (l !! u);
  wi_addresses i r : ma_emails (di_mail s0) !! i = Some r → e !! i = Some r;
  wi_new_addresses i r : ma_emails (di_mail s0) !! i = None → e !! i = Some r →
    accounts (di_tenant s0) !! em_user r = None;
  wi_others u : ¬ mine u → a !! u = accounts (di_tenant s0) !! u ∧ l !! u = ma_logins (di_mail s0) !! u;
}.
Record within_attrs (at_ : gmap (uuid * string) attr_row) (mi : gmap (uuid * uuid * string) string) : Prop := {
  wi_attrs u k : ¬ mine u → at_ !! (u, k) = di_attrs s0 !! (u, k);
  wi_mirror u i k : ¬ (mine u ∧ i = idp) → mi !! (u, i, k) = di_mirror s0 !! (u, i, k);
}.
(** Groups that are not of this provider stay as they are. *)
Definition foreign (x : uuid) : Prop := ∃ g, groups (di_dir s0) !! x = Some g ∧ ¬ scim_group idp g.
Record within_groups (gs : gmap uuid group_row) (ms : gset (uuid * uuid)) : Prop := {
  wi_groups x : foreign x → gs !! x = groups (di_dir s0) !! x;
  wi_members x u : foreign x → (x, u) ∈ ms ↔ (x, u) ∈ memberships (di_dir s0);
  wi_joined x u : (x, u) ∈ ms → (x, u) ∉ memberships (di_dir s0) → mine u;
}.
Record within s : Prop := {
  wi_u : within_users (accounts (di_tenant s)) (ma_logins (di_mail s)) (ma_emails (di_mail s));
  wi_a : within_attrs (di_attrs s) (di_mirror s);
  wi_g : within_groups (groups (di_dir s)) (memberships (di_dir s));
  wi_f : second_factors s = second_factors s0;
}.
Lemma within_refl : within s0.
Proof. split; [split; naive_solver|by split|split; naive_solver|done]. Qed.

(** ** Calls of other components *)

Lemma within_ext s s' :
  accounts (di_tenant s') = accounts (di_tenant s) → ma_logins (di_mail s') = ma_logins (di_mail s) →
  ma_emails (di_mail s') = ma_emails (di_mail s) → di_attrs s' = di_attrs s → di_mirror s' = di_mirror s →
  groups (di_dir s') = groups (di_dir s) → memberships (di_dir s') = memberships (di_dir s) →
  second_factors s' = second_factors s → within s → within s'.
Proof. intros E1 E2 E3 E4 E5 E6 E7 E8 [Hu Ha Hg Hf]. split; congruence. Qed.
Lemma within_log actor t i name md : keeps within (di_log actor t i name md).
Proof. intros s. rewrite run_di_log. by apply within_ext. Qed.
Lemma within_touch u : keeps within (touch u).
Proof. intros s. by apply within_ext. Qed.
Lemma within_bump x : keeps within (_bump_group x).
Proof. intros s. by apply within_ext. Qed.
Lemma within_in_groups {A} (m : M db A) :
  keeps (λ d, within_groups (groups d) (memberships d)) m → keeps within (di_in_groups m).
Proof.
  intros Hm s [Hu Ha Hg Hf]. specialize (Hm (di_dir s) Hg).
  unfold di_in_groups, di_in_mail, in_factors, in_mail, in_groups.
  change (ma_dir (fa_mail (di_factors s))) with (di_dir s).
  destruct (m (di_dir s)) as [r d]. by split.
Qed.
Lemma within_cut_access issuer u : keeps within (di_in_tenant (cut_access issuer u)).
Proof.
  intros s. set (t := di_tenant s). pose proof (cut_access_frame issuer u t) as Hk.
  unfold di_in_tenant, di_in_mail, in_factors, in_mail, in_tenant.
  change (ma_tenant (fa_mail (di_factors s))) with t. destruct (cut_access issuer u t) as [r t'].
  destruct Hk as [Ha Hd]. apply within_ext; try done; unfold di_dir, ma_dir; simpl in *; by rewrite Hd.
Qed.
Hint Resolve within_log within_touch within_bump within_cut_access : keeps.
Lemma within_update_users u m : keeps within m → keeps within (update_users u m).
Proof. intros Hm. unfold update_users. keeps_auto. Qed.

(** ** Writes to users *)

Lemma within_account u a f s :
  mine u → accounts (di_tenant s) !! u = Some a → us_role (f a) = us_role a →
  us_is_anonymized (f a) = us_is_anonymized a →
  within s → within (set_factors (set_mail (set_tenant (set_accounts (insert u (f a))))) s).
Proof.
  intros Hm Ha Hr Hz [[] Hat Hg Hf]. split; [|done..]. split; simpl; [| |  |done..| ].
  - intros v x Hx. destruct (decide (v = u)) as [->|Hv]; [|rewrite lookup_insert_ne by done; auto].
    rewrite lookup_insert_eq. destruct (wi_role0 u x Hx) as (x' & Hx' & E1 & E2). exists (f a).
    split; [done|]. assert (x' = a) as -> by congruence. split; congruence.
  - done.
  - intros v x Hx. destruct (decide (v = u)) as [->|Hv]; [|rewrite lookup_insert_ne by done; auto].
    rewrite lookup_insert_eq. intros [= <-]. destruct (wi_new0 u a Hx Ha) as [E1 E2]. split; [congruence|done].
  - intros v Hv. rewrite lookup_insert_ne by (by intros ->). auto.
Qed.
Lemma within_login u l f s :
  mine u → ma_logins (di_mail s) !! u = Some l → same_secrets l (f l) →
  lo_password_hash (f l) = lo_password_hash l → lo_mfa_method (f l) = lo_mfa_method l →
  within s → within (set_factors (set_mail (set_logins (insert u (f l)))) s).
Proof.
  intros Hm Hl Hsec Hp Hmf [[] Hat Hg Hf]. split; [|done..]. split; simpl; [done| | |done..| ].
  - intros v x y Hx Hy. destruct (decide (v = u)) as [->|Hv]; [|rewrite lookup_insert_ne by done; eauto].
    rewrite lookup_insert_eq. destruct (wi_secrets0 u x y Hx Hy) as (y' & Hy' & E). exists (f l).
    split; [done|]. assert (y' = l) as -> by congruence. unfold same_secrets in *. congruence.
  - intros v x Hx Hv. destruct (wi_new0 v x Hx Hv) as [E1 (l' & E2 & E3 & E4)]. split; [done|].
    destruct (decide (v = u)) as [->|Hvu]; [|rewrite lookup_insert_ne by done; eauto].
    rewrite lookup_insert_eq. assert (l' = l) as -> by congruence. exists (f l). split; [done|]. split; congruence.
  - intros v Hv. rewrite lookup_insert_ne by (by intros ->). auto.
Qed.
Lemma within_update_account u p f :
  mine u → (∀ a, us_role (f a) = us_role a) → (∀ a, us_is_anonymized (f a) = us_is_anonymized a) →
  keeps within (di_in_tenant (update_account u p f)).
Proof.
  intros Hm Hr Hz s Hs. unfold di_in_tenant, di_in_mail, in_factors, in_mail, in_tenant, update_account, update.
  change (accounts (ma_tenant (fa_mail (di_factors s)))) with (accounts (di_tenant s)).
  destruct (accounts (di_tenant s) !! u) as [a|] eqn:Ha; [|by revert Hs; apply within_ext].
  destruct (p a); [|by revert Hs; apply within_ext]. generalize (within_account u a f s Hm Ha (Hr a) (Hz a) Hs).
  by apply within_ext.
Qed.
Lemma within_update_login u f :
  mine u → (∀ l, same_secrets l (f l)) → (∀ l, lo_password_hash (f l) = lo_password_hash l) →
  (∀ l, lo_mfa_method (f l) = lo_mfa_method l) → keeps within (di_in_mail (update_login u f)).
Proof.
  intros Hm Hs1 Hp Hf s Hs. unfold di_in_mail, in_factors, in_mail, update_login, update.
  change (ma_logins (fa_mail (di_factors s))) with (ma_logins (di_mail s)).
  destruct (ma_logins (di_mail s) !! u) as [l|] eqn:Hl; [|by revert Hs; apply within_ext].
  by apply (within_login u l f s).
Qed.
Lemma within_profile u first last : mine u → keeps within (update_user_profile u first last).
Proof.
  intros Hm. unfold update_user_profile. do 3 (apply keeps_bind; [by keeps_auto|intros]).
  by apply within_update_users, within_update_login.
Qed.
Lemma within_set_user_idp u i : mine u → keeps within (set_user_idp u i).
Proof.
  intros Hm. unfold set_user_idp. do 2 (apply keeps_bind; [by keeps_auto|intros]).
  by apply within_update_users, within_update_login.
Qed.
Lemma within_clear_denied u : keeps within (clear_reactivation_denied u).
Proof. apply within_update_users. keeps_auto. intros s. by apply within_ext. Qed.
Lemma within_deactivate issuer u : mine u → keeps within (deactivate issuer u).
Proof.
  intros Hm. unfold deactivate. apply keeps_bind; [|keeps_auto].
  by apply within_update_users, within_update_account.
Qed.
Lemma within_reactivate u : mine u → keeps within (di_reactivate_user_row u).
Proof. intros Hm. by apply within_update_users, within_update_account. Qed.
Hint Resolve within_profile within_set_user_idp within_clear_denied within_deactivate within_reactivate : keeps.
Lemma within_transition issuer i u active : mine u → keeps within (_handle_active_transition issuer i u active).
Proof. intros Hm. unfold _handle_active_transition, scim_log. keeps_auto. Qed.

(** ** Writes to attributes *)

Lemma within_upsert_mirror u k v : mine u → keeps within (upsert_mirror u idp k v).
Proof.
  intros Hm. unfold upsert_mirror. keeps_auto. intros s [Hu [] Hg Hf]. split; [done| |done..].
  split; [done|]. intros v' i k' Hn. simpl. rewrite lookup_insert_ne; [auto|]. intros [= <- <- <-]. by apply Hn.
Qed.
Lemma within_mirror_except u ks : mine u → keeps within (delete_mirror_except u idp ks).
Proof.
  intros Hm s [Hu [] Hg Hf]. split; [done| |done..]. split; [done|].
  intros v' i k' Hn. simpl. rewrite <- wi_mirror0 by done.
  destruct (di_mirror s !! (v', i, k')) as [x|] eqn:E.
  - apply map_lookup_filter_Some. split; [done|]. simpl. intros [[= -> ->] _]. by apply Hn.
  - apply map_lookup_filter_None. by left.
Qed.
Lemma within_upsert_attribute u k v src : mine u → keeps within (upsert_attribute u k v src).
Proof.
  intros Hm. unfold upsert_attribute. keeps_auto. intros s [Hu [] Hg Hf]. split; [done| |done..].
  split; [|done]. intros v' k' Hn. simpl. rewrite lookup_insert_ne; [auto|]. by intros [= <- <-].
Qed.
Hint Resolve within_upsert_mirror within_mirror_except within_upsert_attribute within_transition : keeps.
Lemma within_mirror_attributes u attrs : mine u → keeps within (mirror_attributes idp u attrs).
Proof.
  intros Hm. unfold mirror_attributes, apply_idp_attributes. apply keeps_try_except; keeps_auto.
Qed.
Hint Resolve within_mirror_attributes : keeps.
Lemma within_writes u payload b : mine u → keeps within (_apply_payload_writes idp u payload b).
Proof.
  intros Hm. unfold _apply_payload_writes, write_names, write_external_id, set_external_id. keeps_auto.
Qed.
Hint Resolve within_writes : keeps.
Lemma within_resolve location u : keeps within (_resolve_user_payload location idp u).
Proof. unfold _resolve_user_payload, inbound_get_user. keeps_auto. Qed.
Hint Resolve within_resolve : keeps.

(** ** Requests that name a user *)

Hypothesis bound_mine : ∀ s u, within s → bound s idp u → mine u.

Lemma user_row_bound s u r : user_row_of s u = Some r → ur_saml_idp_id r = Some idp → bound s idp u.
Proof.
  unfold user_row_of, get_user_row, bound. intros (a & Ha & (l & Hl & [= <-])%bind_Some)%bind_Some Hi.
  exists l. by eauto.
Qed.
Lemma run_bound_user s u row s' : bound_user idp u s = (Ok row, s') → s' = s ∧ bound s idp u ∧ user_row_of s u = Some row.
Proof.
  unfold bound_user. rewrite run_gets_bind. destruct (user_row_of s u) as [r|] eqn:Hr; [|done].
  case_decide; [|done]. intros [= -> ->]. split; [done|]. by eauto using user_row_bound.
Qed.
(** What follows [bound_user] may assume that the user is within reach. *)
Lemma within_bound {B} u (f : user_row → M directory B) :
  (mine u → ∀ row, keeps within (f row)) → keeps within (bound_user idp u ≫= f).
Proof.
  intros Hf. apply (keeps_bind_result _ (λ _, mine u)); [unfold bound_user; keeps_auto| |auto].
  intros s row s' Hs (-> & Hb & _)%run_bound_user. by eapply bound_mine.
Qed.
Context (issuer : string) (location : uuid → string).
Lemma within_replace u payload : keeps within (replace_user issuer location idp u payload).
Proof.
  unfold replace_user. apply keeps_bind; [keeps_auto|intros _]. apply within_bound. intros Hm row.
  unfold write_external_id, set_external_id, scim_log. keeps_auto.
Qed.
Lemma within_patch u body : keeps within (patch_user issuer location idp u body).
Proof. unfold patch_user. apply within_bound. intros Hm row. unfold scim_log. keeps_auto. Qed.
Lemma within_delete u : keeps within (soft_delete_user issuer idp u).
Proof. unfold soft_delete_user. apply within_bound. intros Hm row. unfold scim_log, _bump_updated_at. keeps_auto. Qed.

(** ** POST /Users *)

Lemma run_db_create_user first last r s u s' :
  db_create_user first last r s = (Ok u, s') → accounts (di_tenant s) !! u = None.
Proof.
  unfold db_create_user. run. unfold raise_if. do 3 (case_match; [done|]; run). intros [= <- _].
  by apply bool_decide_eq_false, eq_None_not_Some in H9.
Qed.
(** New users are within the request's reach. *)
Definition reaches_new : Prop := ∀ u, accounts (di_tenant s0) !! u = None → mine u.
Lemma within_create first last : reaches_new → keeps within (db_create_user first last member).
Proof.
  intros Hall s Hs. unfold db_create_user. rewrite run_gets_bind. rewrite !run_raise_if_bind.
  unfold id. do 2 (case_match; [done|]). destruct (user_exists_row s (directory_id s)) eqn:Hex; [done|]. set (u := directory_id s) in *.
  apply bool_decide_eq_false, eq_None_not_Some in Hex. destruct Hs as [[] Hat Hg Hf].
  assert (H0u : accounts (di_tenant s0) !! u = None).
  { destruct (accounts (di_tenant s0) !! u) as [x|] eqn:E; [|done].
    destruct (wi_role0 u x E) as (x' & Hx' & _). congruence. }
  split; [|done..]. split; simpl; [| |  |done..| ].
  - intros v x Hx. rewrite lookup_insert_ne by (intros <-; congruence). auto.
  - intros v x y Hx Hy. rewrite lookup_insert_ne by (intros <-; congruence). eauto.
  - intros v x Hx. destruct (decide (v = u)) as [->|Hv].
    + rewrite !lookup_insert_eq. intros [= <-]. split; [done|]. by exists (new_login first last).
    + rewrite !lookup_insert_ne by done. auto.
  - intros v Hv. assert (v ≠ u) as Hvu by (intros ->; by apply Hv, Hall).
    rewrite !lookup_insert_ne by done. auto.
Qed.
Lemma within_address u email :
  accounts (di_tenant s0) !! u = None → keeps within (di_in_mail (add_verified_email u email true)).
Proof.
  intros Hu s Hs. unfold di_in_mail, in_factors, in_mail, add_verified_email, insert_email.
  set (m := fa_mail (di_factors s)) in *. run.
  repeat (match goal with |- context [if ?b then _ else _] => destruct b eqn:? end;
    [by revert Hs; apply within_ext|]).
  destruct Hs as [[] Hat Hg Hf]. split; [|done..]. split; simpl; [done..| | |done].
  - intros i r Hi. rewrite lookup_insert_ne; [auto|]. intros E.
    apply bool_decide_eq_false, eq_None_not_Some in Heqb4. rewrite E in Heqb4.
    pose proof (wi_addresses0 i r Hi) as Hr. change (di_mail s) with m in Hr. congruence.
  - intros i r Hi. rewrite lookup_insert_Some. intros [[_ <-]|[_ Hr]]; [done|eauto].
Qed.
(** The two lookups find only users within reach. *)
Definition reaches_found (payload : dict) : Prop := ∀ s e u, within s →
  _extract_primary_email payload = Ok e →
  find_existing s idp (stripped_str (get "externalId" payload)) e = Some u → mine u.
Lemma keeps_lift_bind {A B} (I : directory → Prop) (r : outcome A) (f : A → M directory B) :
  (∀ a, r = Ok a → keeps I (f a)) → keeps I (lift r ≫= f).
Proof. intros Hf s Hs. destruct r as [a|e]; [by apply Hf|done]. Qed.
Lemma within_attempt payload : reaches_new → reaches_found payload →
  keeps within (_create_or_merge_user_attempt issuer location idp payload).
Proof.
  intros Hall Hfound. unfold _create_or_merge_user_attempt. apply keeps_bind; [keeps_auto|intros _].
  apply keeps_lift_bind. intros e He.
  apply keeps_bind; [keeps_auto|intros [first last]].
  apply keeps_bind; [keeps_auto|intros active]. apply keeps_bind_gets. intros s Hs.
  assert (∀ u, find_existing s idp (stripped_str (get "externalId" payload)) e = Some u → mine u) as Hmine by eauto.
  revert s Hs Hmine. intros s Hs. generalize (find_existing s idp (stripped_str (get "externalId" payload)) e).
  intros found Hmine.
  match goal with |- within (?m s).2 => enough (keeps within m) by auto end.
  apply (keeps_bind_result _ (λ uc : uuid * bool, mine uc.1)).
  - destruct found as [u|].
    + pose proof (Hmine u eq_refl). unfold rebind, scim_log. keeps_auto.
    + apply keeps_bind; [|keeps_auto]. unfold _create_user_from_scim, set_external_id.
      apply keeps_bind; [keeps_auto|intros email].
      apply (keeps_bind_result _ (λ u, accounts (di_tenant s0) !! u = None)); [by apply within_create| |].
      * intros s1 u s' Hs1 Hu%run_db_create_user. destruct Hs1 as [[] _ _ _].
        destruct (accounts (di_tenant s0) !! u) as [x|] eqn:E; [|done].
        destruct (wi_role0 u x E) as (x' & Hx' & _). congruence.
      * intros u Hu. pose proof (Hall u Hu). pose proof within_address. keeps_auto.
  - intros s1 [u c] s2 Hs1. destruct found as [v|].
    + rewrite bind_Ok. intros (_ & s3 & _ & [= <- _ _]). by apply Hmine.
    + rewrite bind_Ok. intros (w & s3 & Hw & [= <- _ _]). revert Hw. unfold _create_user_from_scim.
      rewrite bind_Ok. intros (email & s4 & Hem & Hw). revert Hw. rewrite bind_Ok.
      intros (v & s5 & Hv & Hw). apply run_db_create_user in Hv.
      assert (v = w) as ->.
      { revert Hw. rewrite bind_Ok. intros (? & ? & _ & Hw). revert Hw. rewrite bind_Ok. intros (? & ? & _ & Hw).
        revert Hw. rewrite bind_Ok. by intros (? & ? & _ & [= -> _]). }
      assert (s4 = s1) as -> by (revert Hem; unfold some_or; destruct e; by intros [= _ <-]).
      apply Hall. destruct Hs1 as [[] _ _ _].
      destruct (accounts (di_tenant s0) !! w) as [x|] eqn:E; [|done].
      destruct (wi_role0 w x E) as (x' & Hx' & _). congruence.
  - intros [u c] Hu. simpl in Hu. unfold _bump_updated_at, scim_log. keeps_auto.
Qed.
Lemma within_post payload : reaches_new → reaches_found payload →
  keeps within (create_or_merge_user issuer location idp payload).
Proof. intros Hall Hf. by apply keeps_try_except; apply within_attempt. Qed.

(** ** Groups *)

Lemma ensured_own s x g s' : within s → _ensure_group_for_idp idp x s = (Ok g, s') → ¬ foreign x.
Proof.
  intros [_ _ [] _]. unfold _ensure_group_for_idp. rewrite run_gets_bind. unfold get_group_for_idp.
  intros Hrun Hf. rewrite (wi_groups0 x Hf) in Hrun. destruct Hf as (g' & Hg' & Hn). rewrite Hg' in Hrun. simpl in Hrun.
  by rewrite decide_False in Hrun.
Qed.
Lemma within_own_group {B} x (f : group_row → M directory B) :
  (¬ foreign x → ∀ g, keeps within (f g)) → keeps within (_ensure_group_for_idp idp x ≫= f).
Proof.
  intros Hf. apply (keeps_bind_result _ (λ _, ¬ foreign x)); [unfold _ensure_group_for_idp; keeps_auto| |auto].
  intros s g s' Hs Hrun. by eapply ensured_own.
Qed.

Definition in_reach (d : db) : Prop := within_groups (groups d) (memberships d).
Lemma reach_ext d d' : groups d' = groups d → memberships d' = memberships d → in_reach d → in_reach d'.
Proof. unfold in_reach. by intros -> ->. Qed.
Lemma reach_log actor t i name md : keeps in_reach (log_event actor t i name md).
Proof. intros d. by apply reach_ext. Qed.
Hint Resolve reach_log : keeps.
Lemma reach_insert x u : ¬ foreign x → mine u → keeps in_reach (insert_membership x u).
Proof.
  intros Hx Hu. unfold insert_membership. keeps_auto. intros d []. split; simpl; [done| |].
  - intros y v Hy. rewrite elem_of_union, elem_of_singleton, wi_members0 by done. split; [|by right].
    by intros [[= -> ->]|Hin].
  - intros y v. rewrite elem_of_union, elem_of_singleton. intros [[= -> ->]|Hin]; eauto.
Qed.
Lemma reach_remove x u : ¬ foreign x → keeps in_reach (bulk_remove_user_from_groups u [x]).
Proof.
  intros Hx d []. simpl. split; simpl; [done| |].
  - intros y v Hy. rewrite elem_of_difference, elem_of_filter, wi_members0 by done. split; [by intros []|].
    intros Hin. split; [done|]. simpl. intros [[_ ->%list_elem_of_singleton] _]. done.
  - intros y v [Hin _]%elem_of_difference. eauto.
Qed.
Lemma reach_additions u email i name x src k : ¬ foreign x → mine u →
  keeps in_reach (apply_membership_additions u email i name {[x]} src k).
Proof.
  intros Hx Hu. pose proof (reach_insert x u Hx Hu). unfold apply_membership_additions.
  rewrite elements_singleton. unfold bulk_add_user_to_groups. cbn [for_sum for_map]. keeps_auto.
Qed.
Lemma reach_removals u email i name x src k : ¬ foreign x →
  keeps in_reach (apply_membership_removals u email i name {[x]} src k).
Proof.
  intros Hx. pose proof (reach_remove x u Hx). unfold apply_membership_removals.
  rewrite elements_singleton. keeps_auto.
Qed.
Lemma within_add i name x u : ¬ foreign x → mine u → keeps within (add_one i name x u).
Proof. intros Hx Hu. unfold add_one. keeps_auto. by apply within_in_groups, reach_additions. Qed.
Lemma within_drop i name x u : ¬ foreign x → keeps within (drop_one i name x u).
Proof. intros Hx. unfold drop_one. keeps_auto. by apply within_in_groups, reach_removals. Qed.
Lemma within_diff x target s : ¬ foreign x → (∀ u, u ∈ target → u ∉ current_members s x → mine u) →
  within s → within (_apply_membership_diff idp x target s).2.
Proof.
  intros Hx Ht. unfold _apply_membership_diff. rewrite run_gets_bind.
  set (current := current_members s x) in *. clearbody current.
  match goal with |- within s → within (?m s).2 => enough (keeps within m) by auto end.
  apply keeps_bind; [keeps_auto|intros name]. apply keeps_bind; [|intros _; apply keeps_bind; [|keeps_auto]].
  - apply keeps_for_each_in. intros u [Hu Hn]%elem_of_elements%elem_of_difference. by apply within_add; auto.
  - apply keeps_for_each. intros u. by apply within_drop.
Qed.

(** What a members array resolves to is bound to the provider. *)
Lemma run_user_with_id_text c s :
  (user_with_id_text c s).2 = s ∧ ∀ v, (user_with_id_text c s).1 = Ok v → ∀ u, bound_to idp v = Some u → bound s idp u.
Proof.
  unfold user_with_id_text. destruct (uuid_of_text c) as [w|]; [|done]. run. split; [done|].
  intros v [= <-] u. unfold bound_to. destruct (user_row_of s w) as [row|] eqn:Hw; [|done]. simpl.
  case_decide; [|done]. intros [= <-]. by eapply user_row_bound.
Qed.
Lemma run_resolve_ref v s u s' : _resolve_member_ref idp v s = (Ok u, s') → s' = s ∧ bound s idp u.
Proof.
  unfold _resolve_member_ref. case_decide; [done|]. rewrite run_bind.
  assert (Hid : ∃ r, (if _looks_like_uuid (py_strip v) then user_with_id_text (py_strip v) else mret None) s = (r, s) ∧
    ∀ w, r = Ok w → ∀ u, bound_to idp w = Some u → bound s idp u).
  { case_match; [|by eexists; split; [done|]; intros w [= <-]].
    destruct (run_user_with_id_text (py_strip v) s) as [E Hw]. exists (user_with_id_text (py_strip v) s).1.
    split; [|done]. rewrite <- E at 3. by destruct (user_with_id_text _ _). }
  destruct Hid as (r & -> & Hr). destruct r as [w|e]; [|done].
  destruct (bound_to idp w) as [u'|] eqn:Hb; [intros [= <- <-]; eauto|].
  rewrite run_gets_bind. case_match eqn:Hx; [|done]. intros [= <- <-]. split; [done|].
  unfold bound_to in Hx. apply bind_Some in Hx as ([w' row] & Hrow & Hd).
  apply bind_Some in Hrow as (w'' & _ & (row' & Hrow & [= -> ->])%bind_Some).
  case_decide; [|done]. injection Hd as <-. by eapply user_row_bound.
Qed.
Lemma keeps_resolve_ref I v : keeps I (_resolve_member_ref idp v).
Proof. unfold _resolve_member_ref, user_with_id_text, invalid_value. keeps_auto. Qed.
Lemma keeps_resolve_members I v : keeps I (_resolve_members idp v).
Proof.
  pose proof (keeps_resolve_ref I). unfold _resolve_members, resolve_entry, invalid_value. keeps_auto.
Qed.
Hint Resolve keeps_resolve_ref keeps_resolve_members : keeps.
Lemma run_resolve_entries l s us s' : for_map (resolve_entry idp) l s = (Ok us, s') → s' = s ∧ ∀ u, u ∈ us → bound s idp u.
Proof.
  revert us s'. induction l as [|e l IH]; intros us s'; cbn [for_map].
  { intros [= <- <-]. split; [done|]. by intros u ?%elem_of_nil. }
  rewrite run_bind. destruct (resolve_entry idp e s) as [[u|x] s1] eqn:E; [|done].
  assert (s1 = s ∧ bound s idp u) as [-> Hu].
  { revert E. unfold resolve_entry, invalid_value. repeat case_match; try done. apply run_resolve_ref. }
  rewrite run_bind. destruct (for_map _ l s) as [[us'|x] s2]; [|done].
  destruct (IH us' s2 eq_refl) as [-> Hus]. intros [= <- <-]. split; [done|].
  intros v [->|Hv]%elem_of_cons; auto.
Qed.
Lemma run_resolve_members v s us s' : _resolve_members idp v s = (Ok us, s') → s' = s ∧ ∀ u, u ∈ us → bound s idp u.
Proof.
  unfold _resolve_members, invalid_value. case_match; [intros [= <- <-]; split; [done|by intros u ?%elem_of_nil]|].
  destruct v; try done. case_decide; [done|]. rewrite run_bind.
  destruct (for_map _ l s) as [[us'|x] s2] eqn:E; [|done]. apply run_resolve_entries in E as [-> Hus].
  intros [= <- <-]. split; [done|]. intros u Hu. apply Hus. by apply elem_of_remove_dups.
Qed.
(** A diff towards what an array resolves to, with the members it had. *)
Lemma within_resolved x v (target : list uuid → gset uuid) s : ¬ foreign x →
  (∀ us u, u ∈ target us → u ∉ current_members s x → u ∈ us) → within s →
  within ((members ← _resolve_members idp v; _apply_membership_diff idp x (target members)) s).2.
Proof.
  intros Hx Ht Hs. rewrite run_bind. pose proof (keeps_resolve_members (λ s', s' = s) v s eq_refl) as Es.
  destruct (_resolve_members idp v s) as [[us|e] s'] eqn:E; simpl in Es; subst s'; [|done].
  apply run_resolve_members in E as [_ Hus]. apply within_diff; [done| |done].
  intros u Hu Hn. eapply bound_mine; [done|]. apply Hus. by eapply Ht.
Qed.
Lemma within_patch_members x op v f : ¬ foreign x → keeps within (_patch_op_members idp x op v f).
Proof.
  intros Hx. unfold _patch_op_members, invalid_value. apply keeps_bind_gets. intros s Hs.
  case_decide; [|case_decide].
  - apply (within_resolved x _ list_to_set s); [done| |done]. by intros us u Hu%elem_of_list_to_set.
  - apply (within_resolved x _ (λ us, current_members s x ∪ list_to_set us) s); [done| |done].
    intros us u [Hu|Hu%elem_of_list_to_set]%elem_of_union; done.
  - destruct f as [[attr ref]|].
    + rewrite run_raise_if_bind. case_match; [done|]. rewrite run_bind.
      pose proof (keeps_resolve_ref (λ s', s' = s) ref s eq_refl) as Es.
      destruct (_resolve_member_ref idp ref s) as [[u|e] s'] eqn:E; simpl in Es; subst s'; [|done].
      apply within_diff; [done| |done]. set_solver.
    + assert (within (_apply_membership_diff idp x ∅ s).2) by (apply within_diff; [done|set_solver|done]).
      destruct v as [| | | | |[|y l]|]; try done.
      apply (within_resolved x _ (λ us, current_members s x ∖ list_to_set us) s); [done|set_solver|done].
Qed.
Hint Resolve within_patch_members : keeps.
Lemma within_group_op x op acc : ¬ foreign x → keeps within (group_op idp x op acc).
Proof. intros Hx. unfold group_op. keeps_auto. Qed.
Hint Resolve within_group_op : keeps.
Lemma within_group_ops x ops acc : ¬ foreign x → keeps within (group_ops idp x ops acc).
Proof. intros Hx. revert acc. induction ops as [|op ops IH]; intros acc; simpl; keeps_auto. Qed.
Hint Resolve within_group_ops : keeps.

Lemma reach_update x name d a : ¬ foreign x → keeps in_reach (update_group x name d a).
Proof.
  intros Hx. unfold update_group. case_decide; [keeps_auto|]. apply keeps_bind_gets. intros s Hs.
  case_match; [|done]. rewrite run_check_group_row_bind. case_match; [done|]. rewrite run_raise_if_bind. case_match; [done|]. destruct Hs.
  split; simpl; [|done..]. intros y Hy. rewrite lookup_insert_ne by (by intros ->). auto.
Qed.
Lemma within_rename x name : ¬ foreign x → keeps within (rename_group idp x name).
Proof.
  intros Hx. unfold rename_group, _check_display_name_unique, or_name_taken. keeps_auto.
  by apply within_in_groups, reach_update.
Qed.
Hint Resolve within_rename : keeps.
Context (gloc : uuid → string) (mbase : string).
Lemma within_group_payload x : keeps within (_group_payload gloc mbase idp x).
Proof. unfold _group_payload, inbound_get_group. keeps_auto. Qed.
Hint Resolve within_group_payload : keeps.
Lemma within_replace_group x payload : keeps within (replace_group gloc mbase idp x payload).
Proof.
  unfold replace_group, group_log. apply within_own_group. intros Hx g.
  apply keeps_bind; [keeps_auto|intros name]. apply keeps_bind; [keeps_auto|intros _].
  apply keeps_bind; [|keeps_auto].
  assert (Hd : ∀ v, keeps within (members ← _resolve_members idp v; _ ← _apply_membership_diff idp x (list_to_set members); mret ())).
  { intros v s Hs. generalize (within_resolved x v list_to_set s Hx). rewrite !run_bind.
    destruct (_resolve_members idp v s) as [[us|e] s']; intros Hw.
    - rewrite run_bind. destruct (_apply_membership_diff _ _ _ _) as [[]]; (apply Hw; [|done]);
        by intros ?? ?%elem_of_list_to_set.
    - apply Hw; [|done]. by intros ?? ?%elem_of_list_to_set. }
  case_match; [keeps_auto|apply Hd..].
Qed.
Lemma within_patch_group x body : keeps within (patch_group gloc mbase idp x body).
Proof. unfold patch_group, group_log. apply within_own_group. intros Hx g. keeps_auto. Qed.
Lemma within_delete_group x : keeps within (delete_group idp x).
Proof.
  unfold delete_group, group_log. apply within_own_group. intros Hx g.
  apply keeps_bind. { intros s Hs. by apply within_diff; [|set_solver|]. } intros _.
  apply keeps_bind; [|intros _; apply keeps_bind; [by intros s; apply within_ext|keeps_auto]].
  apply within_in_groups. intros d []. simpl. split; simpl.
  - intros y Hy. rewrite <- wi_groups0 by done. destruct (groups d !! y) as [r|] eqn:E.
    + apply map_lookup_filter_Some. split; [done|]. simpl. by intros ->%elem_of_singleton.
    + apply map_lookup_filter_None. by left.
  - intros y u Hy. rewrite elem_of_filter, wi_members0 by done. simpl. split; [by intros []|].
    intros Hin. split; [|done]. by intros ->%elem_of_singleton.
  - intros y u [_ Hin]%elem_of_filter. eauto.
Qed.
Lemma run_insert_group g d : insert_group g d =
  let x := gen_random_uuid d in
  match group_column_error g with Some e => (Raise e, d) | None =>
  if bool_decide (is_Some (groups d !! x)) then (Raise (IntegrityError "groups_pkey"), d)
  else if name_taken d x g then (Raise (IntegrityError "idx_groups_name_unique"), d)
  else (Ok x, set_lineage (insert (x, x) 0%nat) (set_groups (insert x g) d)) end.
Proof.
  unfold insert_group, transaction. run. destruct (group_column_error g); [done|]. run.
  destruct (bool_decide _); [done|]. run. by destruct (name_taken _ _ _).
Qed.
Lemma inserted_group_new g d x d' : insert_group g d = (Ok x, d') → groups d !! x = None.
Proof.
  rewrite run_insert_group. simpl. case_match; [done|]. case_bool_decide as Hx; [done|]. case_match; [done|]. intros [= <- _].
  by apply eq_None_not_Some.
Qed.
Lemma reach_insert_group g : keeps in_reach (insert_group g).
Proof.
  intros d Hd. rewrite run_insert_group. simpl. case_match; [done|]. case_bool_decide as Hx; [done|]. case_match; [done|].
  apply eq_None_not_Some in Hx. destruct Hd. split; simpl; [|done..]. intros y Hy. rewrite lookup_insert_ne; [auto|].
  intros <-. rewrite wi_groups0 in Hx by done. destruct Hy as (? & ? & _). congruence.
Qed.
Lemma within_create_row name : keeps within (create_group_row idp name).
Proof.
  unfold create_group_row. apply keeps_bind; [|intros x; apply keeps_bind; [by intros s; apply within_ext|keeps_auto]].
  apply within_in_groups. pose proof reach_insert_group. unfold create_idp_group. keeps_auto.
Qed.
Lemma run_create_row name s x s' : within s → or_name_taken (create_group_row idp name) s = (Ok x, s') → ¬ foreign x.
Proof.
  intros [_ _ [] _]. unfold or_name_taken, try_except.
  destruct (create_group_row idp name s) as [[y|e] s1] eqn:E; [|by case_match].
  intros [= -> _]. revert E. unfold create_group_row. rewrite run_bind.
  unfold di_in_groups, di_in_mail, in_factors, in_mail, in_groups.
  change (ma_dir (fa_mail (di_factors s))) with (di_dir s). unfold create_idp_group. run.
  destruct (bool_decide (providers _ !! _ = None)); [done|]. run. destruct (insert_group _ (di_dir s)) as [[z|e] d'] eqn:Ei; [|done].
  run. intros [= -> _] Hf. apply inserted_group_new in Ei. rewrite wi_groups0 in Ei by done.
  destruct Hf as (g & Hg & _). congruence.
Qed.
Lemma within_create_group payload : keeps within (create_group gloc mbase idp payload).
Proof.
  unfold create_group, _check_display_name_unique, group_log. do 3 (apply keeps_bind; [keeps_auto|intros]).
  intros s Hs. rewrite run_bind.
  pose proof (keeps_resolve_members (λ s', s' = s) (get "members" payload) s eq_refl) as Es.
  destruct (_resolve_members idp _ s) as [[us|e] s'] eqn:E; simpl in Es; subst s'; [|done].
  apply run_resolve_members in E as [_ Hus].
  assert (Hmine : ∀ u, u ∈ us → mine u) by eauto.
  match goal with |- within (?m s).2 => enough (keeps within m) by auto end.
  apply (keeps_bind_result _ (λ x, ¬ foreign x)).
  - unfold or_name_taken. apply keeps_try_except; [apply within_create_row|keeps_auto].
  - intros s1 x s2 Hs1. by apply run_create_row.
  - intros x Hx. apply keeps_bind; [|keeps_auto]. case_decide; [keeps_auto|]. apply keeps_bind; [|keeps_auto].
    intros s1 Hs1. apply within_diff; [done| |done]. intros u Hu%elem_of_list_to_set. auto.
Qed.
End inbound.

(** ** Requests *)

Section requests.
Context `{Collation} `{DirectoryIds} `{MailIds} `{Nonces} `{UuidGen} `{UuidText} `{UuidParse} `{DatetimeText} `{InboundEntropy}.
Context (issuer : string) (base : uuid → string).

Lemma within_serve mine idp s0 rq :
  match rq with
  | PostUser payload => reaches_new mine s0 ∧ reaches_found mine idp s0 payload
  | _ => ∀ s u, within mine idp s0 s → bound s idp u → mine u
  end → keeps (within mine idp s0) (serve issuer base idp rq).
Proof.
  intros Hp. destruct rq; simpl; unfold list_users_endpoint, get_user_endpoint, create_user_endpoint,
    replace_user_endpoint, patch_user_endpoint, delete_user_endpoint, list_groups_endpoint, get_group_endpoint,
    create_group_endpoint, replace_group_endpoint, patch_group_endpoint, delete_group_endpoint, no_content,
    inbound_list_users, inbound_list_groups, inbound_get_user, inbound_get_group;
  pose proof within_post; pose proof within_replace; pose proof within_patch; pose proof within_delete;
  pose proof within_create_group; pose proof within_replace_group; pose proof within_patch_group;
  pose proof within_delete_group; try destruct Hp; keeps_auto.
Qed.

(** Whom the body of a POST names: a user that does not exist yet, the one
    with its [externalId] among what this provider sent before, or one with
    its address as primary address. *)
Definition named_in (s : directory) (idp : uuid) (payload : dict) (u : uuid) : Prop :=
  accounts (di_tenant s) !! u = None ∨
  (∃ x, stripped_str (get "externalId" payload) = Some x ∧ di_mirror s !! (u, idp, EXTERNAL_ID_KEY) = Some x) ∨
  (∃ e i r, _extract_primary_email payload = Ok (Some e) ∧ ma_emails (di_mail s) !! i = Some r ∧
     em_user r = u ∧ em_is_primary r = true ∧ same_email (em_email r) e = true).
(** Whom a request may reach: a POST those it names, every other request the
    users bound to the provider. *)
Definition reachable (s : directory) (idp : uuid) (rq : scim_request) (u : uuid) : Prop :=
  match rq with PostUser payload => named_in s idp payload u | _ => bound s idp u end.

#[export] Instance map_exists_dec {K A} `{Countable K} (m : gmap K A) (P : A → Prop) `{∀ x, Decision (P x)} :
  Decision (∃ i r, m !! i = Some r ∧ P r).
Proof.
  refine (cast_if (decide (Exists (λ kv : K * A, P kv.2) (map_to_list m)))); rewrite Exists_exists in *.
  - destruct e as ([i r] & Hin%elem_of_map_to_list & Hp). by exists i, r.
  - intros (i & r & Hi%elem_of_map_to_list & Hp). apply n. by exists (i, r).
Defined.
#[export] Instance named_in_dec s idp payload u : Decision (named_in s idp payload u).
Proof.
  unfold named_in. apply or_dec; [apply _|]. apply or_dec.
  - destruct (stripped_str _) as [x|]; [|right; by intros (x & ? & _)].
    destruct (decide (di_mirror s !! (u, idp, EXTERNAL_ID_KEY) = Some x)); [left; by exists x|right; by intros (y & [= <-] & ?)].
  - destruct (_extract_primary_email payload) as [[e|]|]; [|right; by intros (? & ? & ? & ? & _)..].
    destruct (decide (∃ i r, ma_emails (di_mail s) !! i = Some r ∧
      em_user r = u ∧ em_is_primary r = true ∧ same_email (em_email r) e = true)) as [Hd|Hd].
    + left. destruct Hd as (i & r & Hd). by exists e, i, r.
    + right. intros (e' & i & r & [= <-] & Hr). apply Hd. by exists i, r.
Defined.

Lemma within_found s idp payload : reaches_found (named_in s idp payload) idp s payload.
Proof.
  intros s' e u [[] [] _ _] He. unfold find_existing.
  destruct (stripped_str (get "externalId" payload) ≫= get_user_id_by_external_id s' idp) as [v|] eqn:Ex.
  - intros [= ->]. apply bind_Some in Ex as (x & Hx & Hu). unfold get_user_id_by_external_id in Hu.
    apply fmap_Some in Hu as ([[[w i] k] y] & Hh & ->). apply head_Some_elem_of in Hh.
    apply list_elem_of_filter in Hh as [(E1 & E2 & E3) Hin%elem_of_map_to_list]. simpl in *. subst i k y.
    destruct (decide (di_mirror s !! (w, idp, EXTERNAL_ID_KEY) = Some x)) as [Hm|Hm]; [right; left; by exists x|].
    destruct (decide (named_in s idp payload w)) as [|Hn]; [done|].
    rewrite wi_mirror0 in Hin by (by intros [? _]). done.
  - intros Hu. apply bind_Some in Hu as (m & -> & Hu). unfold user_by_primary_email in Hu.
    apply fmap_Some in Hu as ([i r] & Hh & ->). apply head_Some_elem_of in Hh.
    apply list_elem_of_filter in Hh as [Hc Hin%elem_of_map_to_list]. simpl in *.
    apply andb_true_iff in Hc as [[Hs Hp]%andb_true_iff _].
    destruct (ma_emails (di_mail s) !! i) as [r0|] eqn:E0.
    + pose proof (wi_addresses0 i r0 E0) as Hr. assert (r0 = r) as -> by congruence.
      right. right. by exists m, i, r.
    + left. by eapply wi_new_addresses0.
Qed.
Lemma within_reachable s idp rq :
  within (reachable s idp rq) idp s (serve issuer base idp rq s).2.
Proof.
  apply within_serve; [|apply within_refl]. destruct rq; try (split; [by intros u Hu; left|apply within_found]).
  all: intros s1 v Hw Hb; destruct Hw as [[] _ _ _]; simpl in *.
  all: destruct (decide (bound s idp v)) as [?|Hn]; [done|].
  all: destruct (wi_others0 v Hn) as [Ea El]; destruct Hb as (l & Hb1 & Hb2 & Hb3); exists l; by rewrite <- Ea, <- El.
Qed.

Lemma run_in_directory {A} (m : M directory A) (s : inbound) :
  in_directory m s = ((m (ib_directory s)).1, mk_inbound (m (ib_directory s)).2 (ib_tokens s) (ib_draws s)).
Proof. unfold in_directory. by destruct (m (ib_directory s)). Qed.
(** Authentication: a live token of the provider, or no call at all. *)
Definition presents (s : inbound) (idp : uuid) (authorization : option string) : Prop :=
  ∃ token i r, bearer_text authorization = Some token ∧ ib_tokens s !! i = Some r ∧
    it_token_hash r = token_digest token ∧ it_revoked_at r = None ∧ it_idp r = idp.
Lemma run_auth limited idp authorization s :
  (∃ e, require_inbound_scim_auth limited idp authorization s = (Raise e, s)) ∨
  ∃ i s', require_inbound_scim_auth limited idp authorization s = (Ok i, s') ∧
    ib_directory s' = ib_directory s ∧ limited = false ∧ presents s idp authorization.
Proof.
  unfold require_inbound_scim_auth, unauthenticated. destruct limited; [by left; eexists|]. run.
  destruct (bearer_text authorization) as [token|] eqn:Hb; [|by left; eexists]. run.
  destruct (live_token s idp token) as [i|] eqn:Hl; [|by left; eexists]. right. run.
  eexists i, _. split; [done|]. split; [done|]. split; [done|].
  unfold live_token in Hl. apply bind_Some in Hl as ([j r] & Hf & Hd). case_decide as Hr; [|done]. injection Hd as ->.
  unfold find_by_hash in Hf. apply head_Some_elem_of, list_elem_of_filter in Hf as [Hh Hin%elem_of_map_to_list].
  destruct Hr. by exists token, i, r.
Qed.
Lemma scim_call_cases limited authorization idp rq s :
  (∃ e, scim_call issuer base limited authorization idp rq s = (Raise e, s)) ∨
  (presents s idp authorization ∧ limited = false ∧
   (scim_call issuer base limited authorization idp rq s).1 = (serve issuer base idp rq (ib_directory s)).1 ∧
   ib_directory (scim_call issuer base limited authorization idp rq s).2 =
     (serve issuer base idp rq (ib_directory s)).2).
Proof.
  unfold scim_call. destruct (run_auth limited idp authorization s) as [[e E]|(i & s' & E & Ed & Hl & Hp)].
  - left. exists e. by rewrite run_bind, E.
  - right. split; [done|]. split; [done|]. rewrite run_bind, E, run_in_directory. by rewrite Ed.
Qed.

(** ** The two properties *)

(** C26. A provider as the caller.  A POST /Users touches, of the users that
    exist, none but the one with its external id among what this provider sent
    before and those whose primary address it gives; every other request none
    but users bound to the provider: of everybody else the account, the login,
    the attributes and every provider's snapshot stay.  No request touches what
    another provider sent; groups that are not this provider's, and their
    members, stay; and only users within reach join a group.  Without a live
    token of this provider, nothing at all moves. *)
Theorem inbound_scim_isolation limited authorization idp rq (s : inbound) :
  let '(r, s') := scim_call issuer base limited authorization idp rq s in
  let d := ib_directory s in
  let d' := ib_directory s' in
  (presents s idp authorization ∧ limited = false ∨ is_ok r = false ∧ s' = s) ∧
  (∀ u, ¬ reachable d idp rq u →
     accounts (di_tenant d') !! u = accounts (di_tenant d) !! u ∧
     ma_logins (di_mail d') !! u = ma_logins (di_mail d) !! u ∧
     (∀ key, di_attrs d' !! (u, key) = di_attrs d !! (u, key)) ∧
     ∀ i key, di_mirror d' !! (u, i, key) = di_mirror d !! (u, i, key)) ∧
  (∀ u i key, i ≠ idp → di_mirror d' !! (u, i, key) = di_mirror d !! (u, i, key)) ∧
  (∀ x g, groups (di_dir d) !! x = Some g → ¬ scim_group idp g →
     groups (di_dir d') !! x = Some g ∧
     ∀ u, (x, u) ∈ memberships (di_dir d') ↔ (x, u) ∈ memberships (di_dir d)) ∧
  (∀ x u, (x, u) ∈ memberships (di_dir d') → (x, u) ∉ memberships (di_dir d) → reachable d idp rq u).
Proof.
  pose proof (within_reachable (ib_directory s) idp rq) as Hw.
  destruct (scim_call_cases limited authorization idp rq s) as [[e ->]|(Hp & Hl & Er & Ed)].
  { clear Hw. split_and!; auto. intros x u Hin Hn. by destruct Hn. }
  destruct (scim_call _ _ _ _ _ _ _) as [r s']. simpl in Ed. rewrite Ed. destruct Hw as [[] [] [] Hf].
  split; [by left|]. split_and!; [|auto 10| |auto].
  - intros u Hu. destruct (wi_others0 u Hu). split_and!; [done..|auto|].
    intros i key. apply wi_mirror0. by intros [].
  - intros u i key Hi. apply wi_mirror0. by intros [_ ->].
  - intros x g Hx Hg. assert (foreign idp (ib_directory s) x) as Hforeign by (by exists g).
    split; [rewrite <- Hx; auto|auto].
Qed.

(** ** Any history of requests *)

Record scim_attempt := mk_scim_attempt {
  sc_limited : bool;
  sc_authorization : option string;
  sc_idp : uuid;
  sc_request : scim_request;
}.
Fixpoint run_scim_attempts (l : list scim_attempt) (s : inbound) : inbound :=
  match l with
  | [] => s
  | c :: l => run_scim_attempts l
      (scim_call issuer base (sc_limited c) (sc_authorization c) (sc_idp c) (sc_request c) s).2
  end.

Definition users_grow (d d' : directory) : Prop :=
  within_users (λ _, True) d (accounts (di_tenant d')) (ma_logins (di_mail d')) (ma_emails (di_mail d')) ∧
  second_factors d' = second_factors d.
Lemma users_grow_refl d : users_grow d d.
Proof. split; [apply (wi_u _ xH d d), within_refl|done]. Qed.
Lemma users_grow_trans d d1 d2 : users_grow d d1 → users_grow d1 d2 → users_grow d d2.
Proof.
  intros [[] F1] [[] F2]. split; [|congruence]. split.
  - intros u x Hx. destruct (wi_role0 u x Hx) as (x1 & Hx1 & E1 & E2).
    destruct (wi_role1 u x1 Hx1) as (x2 & Hx2 & E3 & E4). exists x2. split; [done|]. split; congruence.
  - intros u x y Hx Hy. destruct (wi_role0 u x Hx) as (x1 & Hx1 & _).
    destruct (wi_secrets0 u x y Hx Hy) as (y1 & Hy1 & E1).
    destruct (wi_secrets1 u x1 y1 Hx1 Hy1) as (y2 & Hy2 & E2). exists y2. split; [done|]. unfold same_secrets in *. congruence.
  - intros u x Hx Hx2. destruct (accounts (di_tenant d1) !! u) as [x1|] eqn:Hx1; [|auto].
    destruct (wi_new0 u x1 Hx Hx1) as (E1 & y1 & Hy1 & E2 & E3).
    destruct (wi_role1 u x1 Hx1) as (x2 & Hx2' & E4 & _). assert (x2 = x) as -> by congruence.
    destruct (wi_secrets1 u x1 y1 Hx1 Hy1) as (y2 & Hy2 & E5). split; [congruence|]. exists y2. split; [done|].
    destruct y1, y2. injection E5 as ->. simpl in *. by subst.
  - auto.
  - intros i r Hi Hr. destruct (ma_emails (di_mail d1) !! i) as [r1|] eqn:Hr1.
    + assert (r1 = r) as -> by (apply wi_addresses1 in Hr1; congruence). eauto.
    + destruct (accounts (di_tenant d) !! em_user r) as [x|] eqn:Hx; [|done].
      destruct (wi_role0 _ x Hx) as (x1 & Hx1 & _). by rewrite (wi_new_addresses1 i r Hr1 Hr) in Hx1.
  - by intros u [].
Qed.
Lemma users_grow_call limited authorization idp rq s :
  users_grow (ib_directory s) (ib_directory (scim_call issuer base limited authorization idp rq s).2).
Proof.
  destruct (scim_call_cases limited authorization idp rq s) as [[e ->]|(_ & _ & _ & ->)]; [apply users_grow_refl|].
  assert (within (λ _, True) idp (ib_directory s) (serve issuer base idp rq (ib_directory s)).2) as [Hu _ _ Hf].
  { apply within_serve; [by destruct rq|apply within_refl]. }
  by split.
Qed.
Lemma users_grow_run l s : users_grow (ib_directory s) (ib_directory (run_scim_attempts l s)).
Proof.
  revert s. induction l as [|c l IH]; intros s; [apply users_grow_refl|].
  simpl. eapply users_grow_trans; [apply users_grow_call|apply IH].
Qed.

(** C25. Whatever providers send over SCIM, and whoever holds their tokens: a
    user that exists keeps the role, the password and all that goes with it,
    the second factors and every address; no address is added to the user.
    A user that is new is a plain member without a password. *)
Theorem inbound_scim_no_privilege calls (s : inbound) :
  let d := ib_directory s in
  let d' := ib_directory (run_scim_attempts calls s) in
  (∀ u a, accounts (di_tenant d) !! u = Some a →
     (∃ a', accounts (di_tenant d') !! u = Some a' ∧ us_role a' = us_role a ∧ us_is_anonymized a' = us_is_anonymized a) ∧
     ∀ l, ma_logins (di_mail d) !! u = Some l →
       ∃ first last provider, ma_logins (di_mail d') !! u = Some (with_names first last (with_idp provider l))) ∧
  (∀ u a, accounts (di_tenant d) !! u = None → accounts (di_tenant d') !! u = Some a →
     us_role a = member ∧ ∃ l, ma_logins (di_mail d') !! u = Some l ∧ lo_password_hash l = None) ∧
  (∀ i r, ma_emails (di_mail d) !! i = Some r → ma_emails (di_mail d') !! i = Some r) ∧
  (∀ i r, ma_emails (di_mail d) !! i = None → ma_emails (di_mail d') !! i = Some r →
     accounts (di_tenant d) !! em_user r = None) ∧
  second_factors d' = second_factors d.
Proof.
  destruct (users_grow_run calls s) as [[] Hf]. split_and!; [|  |auto|eauto|done].
  - intros u a Ha. split; [auto|]. intros l Hl. destruct (wi_secrets0 u a l Ha Hl) as (l' & Hl' & E).
    exists (lo_first_name l'), (lo_last_name l'), (lo_saml_idp l'). rewrite Hl'. f_equal.
    destruct l, l'. unfold same_secrets, with_names, with_idp in *. simpl in *. injection E. intros. by subst.
  - intros u a Hn Ha. destruct (wi_new0 u a Hn Ha) as (? & l & ? & ? & _). eauto.
Qed.
End requests.
