(* ===== verification/InboundGroups.v ===== *)
(** * Inbound SCIM: group members

    Member operations of PATCH and PUT against their specification: each is
    an operation on a set, and a request that fails has done exactly the
    operations before the one that failed. *)

From stdpp Require Import gmap strings list.
From S2P Require Import Prelude GroupDb GroupService GroupProofs OAuthDb MailDb Credentials MfaDb Json AttrDb Attributes AttrProofs ScimBody ScimUsers ScimGroups InboundProofs.
#[local] Open Scope Z_scope.

(** ** The specification *)

Inductive member_op :=
  | MReplace (us : gset uuid)
  | MAdd (us : gset uuid)
  | MRemove (us : gset uuid).
Definition apply_op (o : member_op) (ms : gset uuid) : gset uuid :=
  match o with MReplace us => us | MAdd us => ms ∪ us | MRemove us => ms ∖ us end.

Section groups.
Context `{Collation} `{UuidGen} `{UuidText} `{UuidParse} `{DatetimeText}.
Context (group_location : uuid → string) (members_base_url : string).
Implicit Types s : directory.

Definition members_of s (x : uuid) : gset uuid :=
  set_map snd (filter (λ m : uuid * uuid, m.1 = x) (memberships (di_dir s))).
Lemma elem_of_members s x u : u ∈ members_of s x ↔ (x, u) ∈ memberships (di_dir s).
Proof.
  unfold members_of. rewrite elem_of_map. split.
  - intros ([y v] & -> & [Hx Hin]%elem_of_filter). simpl in *. by subst.
  - intros Hin. exists (x, u). split; [done|]. by apply elem_of_filter.
Qed.

(** What an array, or a reference, names in [s]. *)
Definition named s (idp : uuid) (v : json) : outcome (gset uuid) :=
  us ← (_resolve_members idp v s).1; Ok (list_to_set us).
Definition members_meaning s (idp : uuid) (op : string) (value : json) (filter_kv : option (string * string)) :
    outcome member_op :=
  if decide (op = "replace") then us ← named s idp (value_or_empty value); Ok (MReplace us)
  else if decide (op = "add") then us ← named s idp (value_or_empty value); Ok (MAdd us)
  else match filter_kv with
       | Some (attr, ref_value) =>
           if bool_decide (lower_string attr ≠ "value") then scim_error 400 "invalidFilter"
           else u ← (_resolve_member_ref idp ref_value s).1; Ok (MRemove {[u]})
       | None =>
           match value with
           | JNull | JList [] => Ok (MReplace ∅)
           | JList _ => us ← named s idp value; Ok (MRemove us)
           | _ => scim_error 400 "invalidValue"
           end
       end.
(** Operations on the name and on [externalId] leave the members. *)
Definition op_meaning s (idp : uuid) (raw_op : json) : outcome (option member_op) :=
  match raw_op with
  | JDict op =>
      raw ← text_or_blank (get "op" op);
      let op_str := lower_string (py_strip raw) in
      if bool_decide (op_str ∉ ["add"; "replace"; "remove"]) then scim_error 400 "invalidSyntax"
      else '(path, filter_kv) ← _patch_assert_path (get "path" op);
           if decide (path = "displayname") then
             if bool_decide (op_str = "remove") then scim_error 400 "invalidValue"
             else _ ← display_name_value (get "value" op); Ok None
           else if decide (path = "externalid") then Ok None
           else o ← members_meaning s idp op_str (get "value" op) filter_kv; Ok (Some o)
  | _ => scim_error 400 "invalidSyntax"
  end.
(** How far a list of operations gets, and the members it leaves. *)
Fixpoint spec_ops s (idp : uuid) (ops : list json) (ms : gset uuid) : outcome () * gset uuid :=
  match ops with
  | [] => (Ok (), ms)
  | op :: ops =>
      match op_meaning s idp op with
      | Raise e => (Raise e, ms)
      | Ok None => spec_ops s idp ops ms
      | Ok (Some o) => spec_ops s idp ops (apply_op o ms)
      end
  end.

(** ** Rows *)

Definition with_members (ms : gset (uuid * uuid)) (ev : list event) s : directory :=
  set_factors (set_mail (set_tenant (set_dir (λ d, set_events (λ _, ev) (set_memberships (λ _, ms) d))))) s.
Definition regrouped (x : uuid) s s' : Prop :=
  ∃ ms ev, s' = with_members ms ev s ∧ ∀ y u, y ≠ x → (y, u) ∈ ms ↔ (y, u) ∈ memberships (di_dir s).
Lemma regrouped_refl x s : regrouped x s s.
Proof.
  exists (memberships (di_dir s)), (events (di_dir s)). split; [|done].
  destruct s as [[[[[]]]]]. done.
Qed.
Lemma regrouped_trans x s s1 s2 : regrouped x s s1 → regrouped x s1 s2 → regrouped x s s2.
Proof.
  intros (ms & ev & -> & H1') (ms2 & ev2 & -> & H2'). exists ms2, ev2. split; [done|].
  intros y u Hy. rewrite H2' by done. by apply H1'.
Qed.

(** The tables the calls below rely on. *)
Definition ready s (x : uuid) : Prop :=
  is_Some (groups (di_dir s) !! x) ∧
  (∀ u, is_Some (accounts (di_tenant s) !! u) → u ∈ users (di_dir s)) ∧
  (∀ u, (x, u) ∈ memberships (di_dir s) → u ∈ users (di_dir s) ∧ is_Some (ma_logins (di_mail s) !! u)).

Lemma run_insert x u (d : db) : is_Some (groups d !! x) → u ∈ users d →
  ∃ n, insert_membership x u d = (Ok n, set_memberships (λ _, {[(x, u)]} ∪ memberships d) d).
Proof.
  intros [g Hg] Hu. unfold insert_membership. run. case_decide as Hin.
  - exists 0%nat. replace ({[(x, u)]} ∪ memberships d) with (memberships d) by set_solver. by destruct d.
  - exists 1%nat. rewrite Hg, (bool_decide_eq_false_2 (Some g = None)) by done.
    rewrite (bool_decide_eq_false_2 (u ∉ users d)) by (intros Hn; by apply Hn). done.
Qed.
Lemma run_addition u email i name x src k (d : db) :
  is_Some (groups d !! x) → u ∈ users d →
  ∃ names ev, apply_membership_additions u email i name {[x]} src k d =
    (Ok names, set_events (λ _, ev) (set_memberships (λ _, {[(x, u)]} ∪ memberships d) d)).
Proof.
  intros Hx Hu. unfold apply_membership_additions. rewrite decide_False by set_solver.
  rewrite elements_singleton. unfold bulk_add_user_to_groups, transaction. cbn [for_sum for_map].
  destruct (run_insert x u d Hx Hu) as [n E]. eexists _, _. rewrite run_bind, run_bind, E. run. done.
Qed.
Lemma run_removal u email i name x src k (d : db) :
  ∃ names ev, apply_membership_removals u email i name {[x]} src k d =
    (Ok names, set_events (λ _, ev) (set_memberships (λ _, memberships d ∖ {[(x, u)]}) d)).
Proof.
  unfold apply_membership_removals. rewrite decide_False by set_solver.
  rewrite elements_singleton. unfold bulk_remove_user_from_groups. cbn [for_map]. run. unfold set_memberships at 1.
  replace (memberships d ∖ filter (λ m : uuid * uuid, m.2 = u ∧ m.1 ∈ [x]) (memberships d))
    with (memberships d ∖ {[(x, u)]}).
  - eexists _, _. run. done.
  - apply set_eq. intros [y v]. rewrite !elem_of_difference, elem_of_filter, elem_of_singleton, list_elem_of_singleton.
    simpl. naive_solver.
Qed.
Lemma run_di_in_groups {A} (m : M db A) s r ev ms :
  m (di_dir s) = (r, set_events (λ _, ev) (set_memberships (λ _, ms) (di_dir s))) →
  di_in_groups m s = (r, with_members ms ev s).
Proof.
  intros E. unfold di_in_groups, di_in_mail, in_factors, in_mail, in_groups.
  change (ma_dir (fa_mail (di_factors s))) with (di_dir s). rewrite E. done.
Qed.
Lemma run_add_one i name x u s : is_Some (groups (di_dir s) !! x) → u ∈ users (di_dir s) →
  ∃ ev, add_one i name x u s = (Ok (), with_members ({[(x, u)]} ∪ memberships (di_dir s)) ev s).
Proof.
  intros Hx Hu. unfold add_one. rewrite run_gets_bind.
  destruct (run_addition u (email_of s u) i name x sync_source saml (di_dir s) Hx Hu) as (names & ev & E).
  exists ev. rewrite run_bind. by rewrite (run_di_in_groups _ _ _ _ _ E).
Qed.
Lemma run_drop_one i name x u s :
  ∃ ev, drop_one i name x u s = (Ok (), with_members (memberships (di_dir s) ∖ {[(x, u)]}) ev s).
Proof.
  unfold drop_one. rewrite run_gets_bind.
  destruct (run_removal u (email_of s u) i name x sync_source saml (di_dir s)) as (names & ev & E).
  exists ev. rewrite run_bind. by rewrite (run_di_in_groups _ _ _ _ _ E).
Qed.
Lemma run_adds i name x l s : is_Some (groups (di_dir s) !! x) → (∀ u, u ∈ l → u ∈ users (di_dir s)) →
  ∃ ms ev, for_each (add_one i name x) l s = (Ok (), with_members ms ev s) ∧
    ∀ y u, (y, u) ∈ ms ↔ (y = x ∧ u ∈ l) ∨ (y, u) ∈ memberships (di_dir s).
Proof.
  revert s. induction l as [|v l IH]; intros s Hx Hl; cbn [for_each].
  - exists (memberships (di_dir s)), (events (di_dir s)). rewrite run_ret. split; [by destruct s as [[[[[]]]]]|].
    intros y u. rewrite elem_of_nil. naive_solver.
  - destruct (run_add_one i name x v s Hx) as [ev E]; [apply Hl; by left|].
    rewrite run_bind, E. edestruct (IH (with_members ({[(x, v)]} ∪ memberships (di_dir s)) ev s))
      as (ms & ev' & E' & Hms); [done|intros u Hu; apply Hl; by right|].
    exists ms, ev'. rewrite E'. split; [done|]. intros y u. rewrite Hms. simpl.
    rewrite elem_of_cons, elem_of_union, elem_of_singleton. naive_solver.
Qed.
Lemma run_drops i name x l s :
  ∃ ms ev, for_each (drop_one i name x) l s = (Ok (), with_members ms ev s) ∧
    ∀ y u, (y, u) ∈ ms ↔ ¬ (y = x ∧ u ∈ l) ∧ (y, u) ∈ memberships (di_dir s).
Proof.
  revert s. induction l as [|v l IH]; intros s; cbn [for_each].
  - exists (memberships (di_dir s)), (events (di_dir s)). rewrite run_ret. split; [by destruct s as [[[[[]]]]]|].
    intros y u. rewrite elem_of_nil. naive_solver.
  - destruct (run_drop_one i name x v s) as [ev E]. rewrite run_bind, E.
    destruct (IH (with_members (memberships (di_dir s) ∖ {[(x, v)]}) ev s)) as (ms & ev' & E' & Hms).
    exists ms, ev'. rewrite E'. split; [done|]. intros y u. rewrite Hms. simpl.
    rewrite elem_of_cons, elem_of_difference, elem_of_singleton. naive_solver.
Qed.
Lemma current_members_exact s x : ready s x → current_members s x = members_of s x.
Proof.
  intros (_ & _ & Hl). apply set_eq. intros u. rewrite elem_of_members. unfold current_members.
  rewrite elem_of_list_to_set, list_elem_of_fmap. unfold list_group_members_for_scim. split.
  - intros (m & -> & Hm). rewrite merge_sort_Permutation, list_elem_of_omap in Hm.
    destruct Hm as ([y v] & Hin%elem_of_elements & E). unfold member_of in E. simpl in E.
    apply bind_Some in E as (l & _ & E). case_decide; [|done]. injection E as <-. simpl. by subst.
  - intros Hin. destruct (Hl u Hin) as [_ [l E]].
    exists (mk_scim_member u (lo_first_name l) (lo_last_name l) (get_primary_email (di_mail s) u)).
    split; [done|]. rewrite merge_sort_Permutation, list_elem_of_omap. exists (x, u).
    split; [by apply elem_of_elements|]. unfold member_of. simpl. rewrite E. simpl. by rewrite decide_True.
Qed.
(** The diff reaches its target, and nothing but rows of this group moves. *)
Lemma run_diff i x target s : ready s x → (∀ u, u ∈ target → u ∈ users (di_dir s)) →
  ∃ changes s', _apply_membership_diff i x target s = (Ok changes, s') ∧
    regrouped x s s' ∧ members_of s' x = target ∧
    list_to_set changes.1 = target ∖ members_of s x ∧ list_to_set changes.2 = members_of s x ∖ target.
Proof.
  intros Hr Ht. unfold _apply_membership_diff. rewrite !run_gets_bind, current_members_exact by done.
  destruct (run_adds i (_idp_name s i) x (elements (target ∖ members_of s x)) s) as (ms & ev & E & Hms);
    [by destruct Hr|intros u; rewrite elem_of_elements; set_solver|].
  rewrite run_bind, E.
  destruct (run_drops i (_idp_name s i) x (elements (members_of s x ∖ target)) (with_members ms ev s))
    as (ms' & ev' & E' & Hms'). rewrite run_bind, E', run_ret. eexists _, _. split; [done|].
  simpl in Hms'. split; [|split].
  - exists ms', ev'. split; [done|]. intros y u Hy. rewrite Hms', Hms. naive_solver.
  - apply set_eq. intros u. rewrite elem_of_members. simpl. rewrite Hms', Hms, !elem_of_elements, !elem_of_difference.
    rewrite <- elem_of_members. destruct (decide (u ∈ target)), (decide (u ∈ members_of s x)); naive_solver.
  - simpl. by rewrite !list_to_set_elements_L.
Qed.

(** ** Reading an operation *)

(** A read: the same outcome in every state of the group's rows. *)
Definition reads {A} (m : M directory A) : Prop :=
  ∀ s ms ev, m (with_members ms ev s) = ((m s).1, with_members ms ev s) ∧ (m s).2 = s.
Lemma reads_bind {A B} (m : M directory A) (f : A → M directory B) :
  reads m → (∀ a, reads (f a)) → reads (m ≫= f).
Proof.
  intros Hm Hf s ms ev. destruct (Hm s ms ev) as [E1 E2]. rewrite !run_bind, E1.
  destruct (m s) as [[a|e] s1]; simpl in *; subst; [apply Hf|done].
Qed.
Lemma reads_gets {A} (f : directory → A) : (∀ s ms ev, f (with_members ms ev s) = f s) → reads (gets f).
Proof. intros Hf s ms ev. rewrite !run_gets. by rewrite Hf. Qed.
Lemma reads_ret {A} (a : A) : reads (mret a).
Proof. done. Qed.
Lemma reads_raise {A} e : reads (raise e : M directory A).
Proof. done. Qed.
Lemma reads_for_map {A B} (f : A → M directory B) l : (∀ a, reads (f a)) → reads (for_map f l).
Proof.
  intros Hf. induction l as [|a l IH]; [apply reads_ret|]. apply reads_bind; [done|intros b].
  apply reads_bind; [done|intros bs]. apply reads_ret.
Qed.
Lemma reads_resolve_ref i v : reads (_resolve_member_ref i v).
Proof.
  unfold _resolve_member_ref, invalid_value. case_decide; [apply reads_raise|].
  apply reads_bind.
  - case_match; [|apply reads_ret]. unfold user_with_id_text. case_match; [by apply reads_gets|apply reads_raise].
  - intros found. case_match; [apply reads_ret|]. apply reads_bind; [by apply reads_gets|].
    intros by_external. case_match; [apply reads_ret|apply reads_raise].
Qed.
Lemma reads_resolve i v : reads (_resolve_members i v).
Proof.
  unfold _resolve_members, invalid_value. case_match; [apply reads_ret|].
  destruct v; try apply reads_raise. case_decide; [apply reads_raise|].
  apply reads_bind; [|intros us; apply reads_ret]. apply reads_for_map. intros a.
  unfold resolve_entry, invalid_value. repeat case_match; try apply reads_raise; apply reads_resolve_ref.
Qed.
Lemma members_meaning_regrouped x i op v f s s' : regrouped x s s' → members_meaning s' i op v f = members_meaning s i op v f.
Proof.
  intros (ms & ev & -> & _). unfold members_meaning, named.
  repeat case_match; try done; by rewrite ?(proj1 (reads_resolve i _ s ms ev)), ?(proj1 (reads_resolve_ref i _ s ms ev)).
Qed.
Lemma op_meaning_regrouped x i op s s' : regrouped x s s' → op_meaning s' i op = op_meaning s i op.
Proof.
  intros Hr. unfold op_meaning. destruct op; try done. destruct (text_or_blank _) as [raw|e]; [|done]. simpl.
  case_match; [done|]. destruct (_patch_assert_path _) as [[path f]|e]; [|done]. simpl.
  by rewrite (members_meaning_regrouped x i _ _ _ s s' Hr).
Qed.
Lemma ready_regrouped x s s' : regrouped x s s' →
  (∀ u, u ∈ members_of s' x → u ∈ members_of s x ∨ ∃ i, bound s i u) → ready s x → ready s' x.
Proof.
  intros (ms & ev & -> & _) Hm (Hx & Hu & Hl). split; [done|]. split; [done|].
  intros u Hin%elem_of_members. destruct (Hm u Hin) as [Hs%elem_of_members|(i & l & Ha & Hb & _)]; [auto|].
  split; [by apply Hu|by exists l].
Qed.

(** ** The refinement *)

(** The call does what [o] says, with users of the provider only. *)
Definition meets {A} (i x : uuid) s (r : outcome A * directory) (o : outcome member_op) : Prop :=
  match o with
  | Raise e => r = (Raise e, s)
  | Ok o => ∃ a s', r = (Ok a, s') ∧ regrouped x s s' ∧ members_of s' x = apply_op o (members_of s x) ∧
      ∀ u, u ∈ members_of s' x → u ∈ members_of s x ∨ bound s i u
  end.
Lemma run_resolve_gathers s i v :
  _resolve_members i v s = ((_resolve_members i v s).1, s) ∧
  ∀ us, named s i v = Ok us → ∀ u, u ∈ us → bound s i u.
Proof.
  split.
  - rewrite <- (proj2 (reads_resolve i v s (memberships (di_dir s)) [])) at 3. by destruct (_resolve_members i v s).
  - unfold named. destruct (_resolve_members i v s) as [[l|e] s'] eqn:E; [|done]. simpl. intros us [= <-].
    apply run_resolve_members in E as [_ Hl]. intros u. rewrite elem_of_list_to_set. auto.
Qed.
Lemma meets_diff i x s o target : ready s x → (∀ u, u ∈ target → u ∈ members_of s x ∨ bound s i u) →
  target = apply_op o (members_of s x) → meets i x s (_apply_membership_diff i x target s) (Ok o).
Proof.
  intros Hr Ht ->. destruct (run_diff i x (apply_op o (members_of s x)) s Hr) as (c & s' & E & Hreg & Hm & _).
  - destruct Hr as (_ & Hacc & Hmem). intros u [Hu%elem_of_members|(l & Ha & _)]%Ht; [by apply Hmem|by apply Hacc].
  - exists c, s'. split_and!; [done..|]. by rewrite Hm.
Qed.
Lemma meets_resolved i x s v (mk : gset uuid → member_op) (target : list uuid → gset uuid) : ready s x →
  (∀ us ms u, u ∈ apply_op (mk us) ms → u ∈ us ∨ u ∈ ms) →
  (∀ l, target l = apply_op (mk (list_to_set l)) (members_of s x)) →
  meets i x s ((members ← _resolve_members i v; _apply_membership_diff i x (target members)) s)
    (us ← named s i v; Ok (mk us)).
Proof.
  intros Hr Hmk Ht. rewrite run_bind. destruct (run_resolve_gathers s i v) as [E Hn]. rewrite E.
  unfold named in *. destruct (_resolve_members i v s).1 as [l|e]; [|done]. rewrite Ht.
  simpl in Hn. apply meets_diff; [done| |done]. intros u [Hu|Hu]%Hmk; [|by left]. right. by apply (Hn (list_to_set l)).
Qed.
Lemma patch_op_meets i x op v f s : ready s x →
  meets i x s (_patch_op_members i x op v f s) (members_meaning s i op v f).
Proof.
  intros Hr. unfold _patch_op_members, members_meaning. rewrite run_gets_bind, current_members_exact by done.
  case_decide; [|case_decide].
  - apply (meets_resolved i x s _ MReplace); [done| |done]. intros us ms u. simpl. auto.
  - apply (meets_resolved i x s _ MAdd); [done| |done]. intros us ms u. simpl. set_solver.
  - destruct f as [[attr ref]|].
    + rewrite run_raise_if_bind. case_match; [done|]. rewrite run_bind.
      pose proof (proj2 (reads_resolve_ref i ref s (memberships (di_dir s)) [])) as Es.
      destruct (_resolve_member_ref i ref s) as [[u|e] s'] eqn:E; simpl in Es; subst s'; [|done].
      apply meets_diff; [done|set_solver|done].
    + assert (meets i x s (_apply_membership_diff i x ∅ s) (Ok (MReplace ∅))) by (apply meets_diff; [done|set_solver|done]).
      destruct v as [| | | | |[|y l]|]; try done.
      apply (meets_resolved i x s _ MRemove); [done| |done]. intros us ms u. simpl. set_solver.
Qed.

(** One operation, then a list of them. *)
Lemma group_op_meets i x op acc s : ready s x →
  match op_meaning s i op with
  | Raise e => group_op i x op acc s = (Raise e, s)
  | Ok None => ∃ acc', group_op i x op acc s = (Ok acc', s)
  | Ok (Some o) => meets i x s (group_op i x op acc s) (Ok o)
  end.
Proof.
  intros Hr. unfold group_op, op_meaning. destruct op as [| | | | | |op]; try done. rewrite run_lift_bind.
  destruct (text_or_blank _) as [raw|e]; [|done]. simpl. rewrite run_raise_if_bind.
  destruct (bool_decide (_ ∉ _)); [done|]. rewrite run_lift_bind. destruct (_patch_assert_path _) as [[path f]|e]; [|done]. simpl.
  case_decide.
  - rewrite run_raise_if_bind. destruct (bool_decide (_ = "remove")); [done|]. rewrite run_lift_bind.
    destruct (display_name_value _); [|done]. by eexists.
  - case_decide; [by eexists|].
    pose proof (patch_op_meets i x (lower_string (py_strip raw)) (get "value" op) f s Hr) as Hm.
    destruct (members_meaning _ _ _ _ _) as [o|e]; simpl in *.
    + destruct Hm as ([added removed] & s' & E & Hm). eexists _, s'. rewrite run_bind, E. done.
    + by rewrite run_bind, Hm.
Qed.
Lemma group_ops_refine i x ops acc s : ready s x →
  ∃ s', regrouped x s s' ∧ members_of s' x = (spec_ops s i ops (members_of s x)).2 ∧
    (∀ u, u ∈ members_of s' x → u ∈ members_of s x ∨ bound s i u) ∧
    match (spec_ops s i ops (members_of s x)).1 with
    | Ok _ => ∃ acc', group_ops i x ops acc s = (Ok acc', s')
    | Raise e => group_ops i x ops acc s = (Raise e, s')
    end.
Proof.
  revert acc s. induction ops as [|op ops IH]; intros acc s Hr; cbn [group_ops spec_ops].
  { exists s. split_and!; [apply regrouped_refl|done|auto|by eexists]. }
  pose proof (group_op_meets i x op acc s Hr) as Hop. rewrite run_bind.
  destruct (op_meaning s i op) as [[o|]|e].
  - destruct Hop as (acc' & s1 & -> & Hreg & Hm & Hb). rewrite <- Hm.
    destruct (IH acc' s1) as (s' & Hreg' & Hm' & Hb' & Hrun).
    { eapply ready_regrouped; [done| |done]. intros u Hu. destruct (Hb u Hu); eauto. }
    assert (Es : spec_ops s i ops (members_of s1 x) = spec_ops s1 i ops (members_of s1 x)).
    { generalize (members_of s1 x). clear -Hreg. induction ops as [|op ops IH]; intros ms; [done|]. simpl.
      rewrite (op_meaning_regrouped x i op s s1 Hreg). repeat case_match; auto. }
    rewrite Es. exists s'. split_and!; [by eapply regrouped_trans|done| |done].
    intros u [Hu|Hu]%Hb'; [auto|]. right. destruct Hreg as (ms & ev & -> & _). done.
  - destruct Hop as [acc' ->]. by apply IH.
  - rewrite Hop. exists s. split_and!; [apply regrouped_refl|done|auto|done].
Qed.

(** ** The whole request *)

Definition memberships_are (ms : gset (uuid * uuid)) s : Prop := memberships (di_dir s) = ms.
Lemma keeps_memberships_groups {A} ms (m : M db A) :
  keeps (λ d, memberships d = ms) m → keeps (memberships_are ms) (di_in_groups m).
Proof.
  intros Hm s Hs. specialize (Hm (di_dir s) Hs). unfold di_in_groups, di_in_mail, in_factors, in_mail, in_groups.
  change (ma_dir (fa_mail (di_factors s))) with (di_dir s). by destruct (m (di_dir s)).
Qed.
Lemma keeps_memberships_log ms actor t i name md : keeps (memberships_are ms) (di_log actor t i name md).
Proof. by intros s. Qed.
Lemma keeps_memberships_rename ms i x name : keeps (memberships_are ms) (rename_group i x name).
Proof.
  unfold rename_group, _check_display_name_unique, or_name_taken, _bump_group.
  apply keeps_bind; [keeps_auto|intros _]. apply keeps_bind; [|by intros _ s].
  apply keeps_try_except; [|keeps_auto]. apply keeps_memberships_groups. unfold update_group. by keeps_auto; intros d.
Qed.
Hint Resolve keeps_memberships_rename keeps_memberships_log : keeps.

(** C27. PATCH of a group refines a sequence of operations on the set of its
    members: what each operation names is replaced, added or removed, in
    order.  When an operation is refused the request answers with its error
    and the members are what the operations before it made them, since
    nothing is rolled back.  No other group gains or loses a member, and only
    users bound to the provider are added. *)
Theorem patch_group_refines idp x body ops g s :
  ready s x → get_group_for_idp s idp x = Some g → operations_of body = Ok ops →
  let '(r, s') := patch_group group_location members_base_url idp x body s in
  let '(outcome_, ms) := spec_ops s idp ops (members_of s x) in
  members_of s' x = ms ∧
  (∀ e, outcome_ = Raise e → r = Raise e) ∧
  (∀ y u, y ≠ x → (y, u) ∈ memberships (di_dir s') ↔ (y, u) ∈ memberships (di_dir s)) ∧
  (∀ u, u ∈ ms → u ∈ members_of s x ∨ bound s idp u).
Proof.
  intros Hr Hg Hops.
  destruct (group_ops_refine idp x ops (mk_patch_acc None 0 0) s Hr) as (s1 & Hreg & Hm & Hb & Hrun).
  unfold patch_group, _ensure_group_for_idp. rewrite run_bind, run_gets_bind, Hg. simpl.
  rewrite run_lift_bind, Hops, run_bind.
  assert (Hother : ∀ y u, y ≠ x → (y, u) ∈ memberships (di_dir s1) ↔ (y, u) ∈ memberships (di_dir s)).
  { destruct Hreg as (ms & ev & -> & Hms). done. }
  destruct (spec_ops s idp ops (members_of s x)) as [[[]|e] ms]; simpl in *.
  - destruct Hrun as [acc ->]. match goal with |- context [?m s1] => set (rest := m) end.
    assert (keeps (memberships_are (memberships (di_dir s1))) rest) as Hk.
    { unfold rest, _bump_group, group_log, _group_payload, inbound_get_group.
      apply keeps_bind; [keeps_auto|intros _]. apply keeps_bind; [by intros s'|intros _]. keeps_auto. }
    specialize (Hk s1 eq_refl). destruct (rest s1) as [r s']. unfold memberships_are in Hk. simpl in Hk.
    assert (members_of s' x = members_of s1 x) as -> by (unfold members_of; by rewrite Hk).
    rewrite Hk, <- Hm. by split_and!.
  - rewrite Hrun, <- Hm. split_and!; [done| |done..]. by intros ? [= ->].
Qed.
End groups.
