(* ===== verification/InboundFindings.v ===== *)
(** * Inbound SCIM: what goes wrong

    A PUT loses the upstream id it was sent with, and deactivation over SCIM
    has none of the guards that the administrators' services have. *)

From stdpp Require Import gmap strings list.
From S2P Require Import Prelude GroupDb OAuthDb UserLifecycle OAuthTokens UserProofs MailDb Credentials MfaDb Json AttrDb Attributes AttrProofs ScimBody ScimUsers InboundProofs.
#[local] Open Scope Z_scope.

(** A call that returns from a state in [P] meets [Q]. *)
Definition yields {S A} (P : S → Prop) (m : M S A) (Q : A → S → Prop) : Prop :=
  ∀ s a s', P s → m s = (Ok a, s') → Q a s'.
Lemma yields_bind {S A B} (P Q : S → Prop) (R : B → S → Prop) (m : M S A) (f : A → M S B) :
  yields P m (λ _, Q) → (∀ a, yields Q (f a) R) → yields P (m ≫= f) R.
Proof.
  intros Hm Hf s b s'' Hs. rewrite run_bind. destruct (m s) as [[a|e] s'] eqn:E; [|done].
  intros E'. eapply Hf; [|done]. by eapply Hm.
Qed.
Lemma keeps_yields {S A} (I : S → Prop) (m : M S A) : keeps I m → yields I m (λ _, I).
Proof. intros Hm s a s' Hs E. specialize (Hm s Hs). by rewrite E in Hm. Qed.

Section put.
Context `{Collation} `{DirectoryIds} `{MailIds} `{Nonces} `{UuidText} `{DatetimeText}.
Context (issuer : string) (location : uuid → string).
Implicit Types s : directory.

(** What the attribute tables of the state do not hold is out of reach of
    the calls of other components. *)
Lemma keeps_tables_in_factors {A} (I : directory → Prop) (m : M factors A) :
  (∀ s t, I s → I (set_factors (λ _, t) s)) → keeps I (in_factors m).
Proof. intros HI s Hs. unfold in_factors. destruct (m (di_factors s)). by apply HI. Qed.
Definition no_external_id (u i : uuid) s : Prop := get_external_id s u i = None.
Lemma keeps_none_in_factors {A} u i (m : M factors A) : keeps (no_external_id u i) (in_factors m).
Proof. by apply keeps_tables_in_factors. Qed.
Lemma keeps_none_touch u i v : keeps (no_external_id u i) (touch v).
Proof. by intros s. Qed.
Lemma keeps_none_log u i actor t j name md : keeps (no_external_id u i) (di_log actor t j name md).
Proof. apply keeps_none_in_factors. Qed.
Hint Resolve keeps_none_in_factors keeps_none_touch keeps_none_log : keeps.
Lemma keeps_none_update_users u i v m : keeps (no_external_id u i) m → keeps (no_external_id u i) (update_users v m).
Proof. intros Hm. unfold update_users. keeps_auto. Qed.
Lemma keeps_none_rows u i v :
  keeps (no_external_id u i) (di_inactivate_user_row v) ∧ keeps (no_external_id u i) (di_reactivate_user_row v) ∧
  keeps (no_external_id u i) (clear_reactivation_denied v).
Proof. split_and!; apply keeps_none_update_users; keeps_auto; apply keeps_none_in_factors. Qed.
Lemma keeps_none_transition u i j v active : keeps (no_external_id u i) (_handle_active_transition issuer j v active).
Proof.
  destruct (keeps_none_rows u i v) as (? & ? & ?). unfold _handle_active_transition, deactivate, scim_log, di_in_tenant, di_in_mail.
  keeps_auto.
Qed.
Hint Resolve keeps_none_transition : keeps.

(** The rows a snapshot needs. *)
Definition known (u i : uuid) s : Prop := user_exists_row s u = true ∧ idp_exists s i = true.
Lemma known_login u i v f : keeps (known u i) (di_in_mail (update_login v f)).
Proof.
  intros s Hs. unfold di_in_mail, in_factors, in_mail, update_login, update.
  by destruct (ma_logins (fa_mail (di_factors s)) !! v).
Qed.
Lemma known_profile u i v first last : keeps (known u i) (update_user_profile v first last).
Proof.
  pose proof (known_login u i v (with_names first last)). unfold update_user_profile, update_users. keeps_auto; by intros s.
Qed.
Lemma known_external_id u i v j payload : keeps (known u i) (write_external_id j v payload).
Proof. unfold write_external_id, set_external_id, upsert_mirror. keeps_auto. by intros ?. Qed.
Lemma external_id_not_serialized attrs : EXTERNAL_ID_KEY ∉ (serialized_attributes attrs).*1.
Proof. intros ([k w] & Hk & Hne%serialized_not_external)%list_elem_of_fmap. by subst. Qed.
Lemma applied_clears u i attrs s : no_external_id u i (idp_applied s u i attrs).
Proof.
  unfold no_external_id, get_external_id, idp_applied. simpl. rewrite insert_all_other.
  - apply map_lookup_filter_None_2. right. intros x _ Hn. apply Hn. split; [done|]. apply external_id_not_serialized.
  - intros k Hk [= <-]. by apply external_id_not_serialized in Hk.
Qed.
Lemma mirror_clears u i attrs : Forall (λ kv : string * string, no_nul kv.2 = true) attrs →
  yields (known u i) (mirror_attributes i u attrs) (λ _, no_external_id u i).
Proof.
  intros Hz s [] s' [Hu Hi]. unfold mirror_attributes, try_except. rewrite run_apply_idp_attributes by done.
  destruct (bool_decide _); [unfold when; rewrite run_di_log|unfold when; rewrite run_ret]; intros [= <-];
    apply (applied_clears u i attrs s).
Qed.

(** The representation says so too. *)
Lemma get_absent key (d : dict) : Forall (λ kv, kv.1 ≠ key) d → get key d = JNull.
Proof.
  unfold get. induction 1 as [|[k v] d Hk _ IH]; [done|]. simpl in *. by rewrite decide_False.
Qed.
Lemma Forall_str_field key k v : k ≠ key → Forall (λ kv : string * json, kv.1 ≠ key) (str_field k v).
Proof. intros Hk. unfold str_field. repeat case_match; repeat constructor; done. Qed.
Lemma payload_without_external_id x : su_external_id x = None → get "externalId" (_user_with_metadata location x) = JNull.
Proof.
  intros Hx. apply get_absent. unfold _user_with_metadata, _user_payload. rewrite Hx.
  repeat (apply Forall_app; split); try by repeat constructor.
  all: try by apply Forall_str_field.
  all: repeat case_match; by repeat constructor.
Qed.
Lemma run_resolve_payload u i s body s' :
  _resolve_user_payload location i u s = (Ok body, s') → s' = s ∧ (no_external_id u i s → get "externalId" body = JNull).
Proof.
  unfold _resolve_user_payload, inbound_get_user. rewrite run_gets_bind.
  destruct (get_user_for_idp s i u) as [x|] eqn:Hx; [|done]. simpl. rewrite run_ret. intros [= <- <-]. split; [done|].
  intros Hn. apply payload_without_external_id. unfold get_user_for_idp in Hx.
  apply bind_Some in Hx as (row & _ & Hx). case_decide; [|done]. by injection Hx as <-.
Qed.

(** PUT /Users/{id} loses the upstream id, whatever the body says: the row
    [set_external_id] has just written is a key that the snapshot of standard
    attributes, which follows, does not have, and the snapshot deletes every
    such key of the user and provider.  From then on the provider's own id
    finds the user neither for a POST nor as a member of a group.  (An attribute
    with the character 0 makes the snapshot fail, which is swallowed.) *)
Theorem put_drops_external_id i u payload s body s' :
  (∀ attrs, _extract_standard_attributes payload = Ok attrs →
     Forall (λ kv : string * string, no_nul kv.2 = true) attrs) →
  idp_exists s i = true → replace_user issuer location i u payload s = (Ok body, s') →
  get_external_id s' u i = None ∧ get "externalId" body = JNull.
Proof.
  intros Hz Hi. unfold replace_user. rewrite run_lift_bind. destruct (_ensure_no_mutability_violation payload); [|done].
  rewrite run_bind. destruct (bound_user i u s) as [[row|e] s1] eqn:Hb; [|done].
  apply run_bound_user in Hb as (-> & (l & [? ?] & _) & _).
  assert (Hk : known u i s) by (split; [by apply bool_decide_eq_true_2; eexists|done]).
  rewrite run_lift_bind. destruct (active_of payload) as [active|e]; [|done].
  destruct (_resolve_replace_names payload row) as [first last]. revert Hk. generalize s as s1.
  match goal with |- ∀ s1, _ → ?m s1 = _ → _ =>
    enough (yields (known u i) m (λ b s', get_external_id s' u i = None ∧ get "externalId" b = JNull)) by eauto end.
  eapply yields_bind; [apply keeps_yields, known_profile|intros _].
  eapply yields_bind; [apply keeps_yields, known_external_id|intros _].
  destruct (_extract_standard_attributes payload) as [extras|e]; [|by intros ? ? ? ?].
  intros s2 b s3 Hn. rewrite run_lift_bind. revert s2 b s3 Hn.
  match goal with |- ∀ s1 b s', _ → ?m s1 = _ → _ =>
    enough (yields (known u i) m (λ b s', get_external_id s' u i = None ∧ get "externalId" b = JNull)) by eauto end.
  eapply yields_bind; [by apply mirror_clears, Hz|intros _].
  eapply yields_bind; [apply keeps_yields, keeps_none_transition|intros _].
  eapply yields_bind; [apply keeps_yields, keeps_none_touch|intros _].
  eapply yields_bind; [apply keeps_yields, keeps_none_log|intros _].
  intros s2 b s3 Hn Hr. apply (run_resolve_payload u i) in Hr as [-> Hg]. auto.
Qed.

(** ** Deactivation *)

Lemma run_deactivate u s a : family_ok (di_tenant s) →
  accounts (di_tenant s) !! u = Some a → us_is_inactivated a = false →
  ∃ t dates', deactivate issuer u s =
      (Ok (), set_dates (λ _, dates') (set_factors (set_mail (set_tenant (λ _, t))) s)) ∧
    accounts t = <[u := set_inactivated true a]> (accounts (di_tenant s)) ∧ dir t = dir (di_tenant s) ∧
    cut_off u (di_tenant s) t.
Proof.
  intros Hf Ha Hi. unfold deactivate, di_inactivate_user_row, update_users.
  set (t0 := di_tenant s) in *. set (t1 := set_accounts (insert u (set_inactivated true a)) t0).
  assert (E : di_in_tenant (inactivate_user_row u) s = (Ok 1%nat, set_factors (set_mail (set_tenant (λ _, t1))) s)).
  { unfold di_in_tenant, di_in_mail, in_factors, in_mail, in_tenant, inactivate_user_row, update_account, update.
    change (ma_tenant (fa_mail (di_factors s))) with t0. by rewrite Ha, Hi. }
  rewrite run_bind_assoc, run_bind, E. change (negb (1 =? 0)%nat) with true. unfold when, touch. run.
  destruct (run_cut_access issuer u t1 Hf) as (t2 & Hcut & Hacc & Hoff).
  destruct (cut_access_frame issuer u t1) as [_ Hdir]. rewrite Hcut in Hdir. simpl in Hdir.
  exists t2. eexists. split.
  { unfold di_in_tenant, di_in_mail, in_factors, in_mail, in_tenant.
    change (ma_tenant (fa_mail (di_factors _))) with t1. rewrite Hcut. reflexivity. }
  split; [by rewrite Hacc|]. split; [by rewrite Hdir|]. by destruct Hoff.
Qed.

(** DELETE of a user bound to the provider inactivates it and takes away its
    tokens, approvals and consents, whoever it is: nothing asks whether it is
    the last super administrator or a service user, as the administrators'
    own service does.  Memberships, factors, addresses, attributes and the
    provider's snapshot stay, as documented.  A second DELETE changes
    nothing, and other users are not found. *)
Theorem scim_delete_outcome i u s :
  family_ok (di_tenant s) →
  (bound s i u → ∀ a, accounts (di_tenant s) !! u = Some a → us_is_inactivated a = false →
     ∃ s', soft_delete_user issuer i u s = (Ok (), s') ∧
       accounts (di_tenant s') = <[u := set_inactivated true a]> (accounts (di_tenant s)) ∧
       cut_off u (di_tenant s) (di_tenant s') ∧
       memberships (di_dir s') = memberships (di_dir s) ∧ second_factors s' = second_factors s ∧
       ma_logins (di_mail s') = ma_logins (di_mail s) ∧ ma_emails (di_mail s') = ma_emails (di_mail s) ∧
       di_attrs s' = di_attrs s ∧ di_mirror s' = di_mirror s ∧
       events (di_dir s') = events (di_dir s) ++ [mk_event None "user" u "scim_user_deactivated"
         [("idp_id", MId i); ("cause", MStr "scim_delete")]]) ∧
  (bound s i u → ∀ a, accounts (di_tenant s) !! u = Some a → us_is_inactivated a = true →
     soft_delete_user issuer i u s = (Ok (), s)) ∧
  (¬ bound s i u → soft_delete_user issuer i u s = (Raise (ScimWriteError 404 None), s)).
Proof.
  intros Hf.
  assert (Hb : bound s i u → ∀ a, accounts (di_tenant s) !! u = Some a →
            ∃ row, bound_user i u s = (Ok row, s) ∧ ur_is_inactivated row = us_is_inactivated a).
  { intros (l & _ & Hl & Hi) a Ha. unfold bound_user. rewrite run_gets_bind. unfold user_row_of, get_user_row.
    change (accounts (ma_tenant (di_mail s))) with (accounts (di_tenant s)). rewrite Ha, Hl. simpl.
    rewrite decide_True by done. by eexists. }
  split; [|split].
  - intros Hbound a Ha Hi. destruct (Hb Hbound a Ha) as (row & E & Er). unfold soft_delete_user.
    rewrite run_bind, E, Er, Hi, run_bind.
    destruct (run_deactivate u s a Hf Ha Hi) as (t & d & -> & Hacc & Hdir & Hoff).
    unfold _bump_updated_at, touch. rewrite run_modify_bind. unfold scim_log. rewrite run_di_log.
    eexists. split; [reflexivity|]. simpl. unfold di_dir, ma_dir. simpl. rewrite Hdir. split_and!; try done.
    by destruct Hoff.
  - intros Hbound a Ha Hi. destruct (Hb Hbound a Ha) as (row & E & Er). unfold soft_delete_user.
    by rewrite run_bind, E, Er, Hi.
  - intros Hn. unfold soft_delete_user. rewrite run_bind.
    assert (bound_user i u s = (Raise (ScimWriteError 404 None), s)) as ->; [|done].
    unfold bound_user. rewrite run_gets_bind. destruct (user_row_of s u) as [row|] eqn:Hr; [|done].
    case_decide as Hi; [|done]. destruct Hn. by eapply user_row_bound.
Qed.
End put.
