(* ===== verification/InboundWitness.v ===== *)
(** * Attributes and inbound SCIM at work

    Each theorem with hypotheses applied to one small tenant, and closed runs
    of what inbound SCIM gets wrong.  Two providers (50 and 51); Ann (1), the
    only super administrator, belongs to 51, Bob (2) and Cat (3) to 50. *)

From stdpp Require Import gmap strings list pretty.
From S2P Require Import Prelude GroupDb OAuthDb UserLifecycle MailDb Tokens PasswordStrength ScimClient Credentials SecuritySettings MfaDb Json AttrDb Attributes AttrProofs AttrHistory ProfileGate ScimBody ScimUsers ScimGroups ScimTokens InboundProofs InboundGroups InboundFindings MailFindings MailWitness.
Import MailDemo.
#[local] Open Scope Z_scope.

Module ScimDemo.
#[export] Instance demo_collation : Collation := String.leb.
#[export] Instance demo_groups : UuidGen := λ d, Pos.succ (top (groups d)).
#[export] Instance demo_directory : DirectoryIds := λ s, Pos.succ (top (accounts (di_tenant s))).
Definition zeros (n : nat) : string := text_of (repeat (char 48) n).
#[export] Instance scim_uuid_text : UuidText := λ u,
  let t := pretty (Npos u) in "00000000-0000-0000-0000-" +:+ zeros (12 - String.length t) +:+ t.
#[export] Instance scim_uuid_parse : UuidParse := λ t,
  digits ← drop_prefix (chars "00000000-0000-0000-0000-") (chars t);
  match py_int (text_of digits) with Some (Zpos p) => Some p | _ => None end.

Definition employee (first last : string) (provider : uuid) : login_row :=
  mk_login first last None None false None None None true (Some "email") (Some provider).
Definition team : group_row := mk_group "Team" None None idp (Some 50%positive) None true None.
Definition crew : group_row := mk_group "Staff" None None weftid None None true None.
Definition folk : tenant :=
  mk_tenant (mk_db {[60%positive := team; 61%positive := crew]} ∅ ∅ {[(60, 2); (61, 1)]}%positive {[1; 2; 3]}%positive
      {[(saml, 50%positive) := "Okta"; (saml, 51%positive) := "Entra"]} ∅ ∅ [] []) 1000 ∅ ∅
    {[7%positive := mk_token "h" "l" access 1 2 0 0 None None None None]} ∅ ∅ ∅ [] ∅ ∅
    {[1%positive := mk_account super_admin false false; 2%positive := mk_account member false false;
      3%positive := mk_account member false false]}.
Definition bureau (users_edit : bool) : mail :=
  mk_mail folk 8
    {[1%positive := employee "Ann" "Lee" 51; 2%positive := employee "Bob" "Roe" 50; 3%positive := employee "Cat" "Poe" 50]}
    {[10%positive := row 1 "ann@x.org" true (Some 0) 0; 11%positive := row 2 "bob@x.org" true (Some 0) 2;
      12%positive := row 3 "cat@x.org" true (Some 0) 4; 13%positive := row 3 "cat@y.org" false (Some 0) 6]}
    ∅ ∅ ∅ ∅ (Some (mk_security None true users_edit (Some 30) 10 90 14 3 "all" false "baseline")).
Definition config (required : bool) : config_row :=
  mk_config 80 "professional" true required true false true false.
Definition campus_ (users_edit : bool) : directory :=
  mk_directory (mk_factors (bureau users_edit) 0 ∅ ∅ ∅ ∅ ∅ ∅)
    {[1%positive := mk_dates 0 0; 2%positive := mk_dates 0 0; 3%positive := mk_dates 0 0]}
    {[60%positive := mk_dates 0 0]} ∅
    {[(2%positive, "city") := mk_attr "Oslo" from_self 5]}
    {[(2%positive, 50%positive, EXTERNAL_ID_KEY) := "00u2"; (2%positive, 50%positive, "job_title") := "Clerk";
      (2%positive, 50%positive, "department") := "Sales"; (3%positive, 50%positive, EXTERNAL_ID_KEY) := "00u3"]}
    {["city" := config true; "job_title" := config false; "department" := config false]}.
Definition campus : directory := campus_ true.
Definition strict : directory := campus_ false.
Definition home_ (i : uuid) : string := "https://w.org/scim/" +:+ uuid_text i.
Definition ask (i : uuid) (rq : scim_request) (s : directory) : outcome (Z * dict) * directory :=
  serve "iss" home_ i rq s.
Definition op_ (op path : string) (value : json) : json :=
  JDict [("op", JStr op); ("path", JStr path); ("value", value)].
Definition patch_ (ops : list json) : dict := [("Operations", JList ops)].
Definition emails_ (e : string) : json := JList [JDict [("value", JStr e); ("primary", JBool true)]].
Definition status (r : outcome (Z * dict)) : option Z :=
  match r with Ok (n, _) => Some n | Raise (ScimWriteError n _) => Some n | _ => None end.
Lemma family : OAuthTokens.family_ok folk.
Proof.
  unfold OAuthTokens.family_ok, folk. cbn [tokens]. split.
  - intros x r p [<- <-]%lookup_singleton_Some Hp. discriminate.
  - intros x y r q [<- _]%lookup_singleton_Some [<- _]%lookup_singleton_Some. done.
Qed.
End ScimDemo.
Import ScimDemo.

(** ** What goes wrong *)

(** Cat's second address: two users without address or provider, and an
    error that is no SCIM answer. *)
Lemma post_leaves_orphans :
  let '(r, s') := ask 50 (PostUser [("userName", JStr "cat@y.org"); ("emails", emails_ "cat@y.org")]) campus in
  r = Raise (IntegrityError "user_emails_tenant_id_email_key") ∧
  size (accounts (di_tenant campus)) = 3%nat ∧ size (accounts (di_tenant s')) = 5%nat ∧
  lo_saml_idp <$> ma_logins (di_mail s') !! 100%positive = Some None.
Proof. vm_compute. done. Qed.
(** A POST with the address of the only super administrator, who belongs to
    another provider, binds her to this one and locks everybody out. *)
Lemma post_takes_last_super_admin :
  let '(r, s') := ask 50 (PostUser [("emails", emails_ "ann@x.org"); ("active", JBool false)]) campus in
  status r = Some 200 ∧ lo_saml_idp <$> ma_logins (di_mail s') !! 1%positive = Some (Some 50%positive) ∧
  count_active_super_admins (di_tenant campus) = 1%nat ∧ count_active_super_admins (di_tenant s') = 0%nat.
Proof. vm_compute. done. Qed.
(** Refused with 400, and done. *)
Lemma patch_refused_after_writing :
  let '(r, s') := ask 50 (PatchUser 2 (patch_ [op_ "replace" "name.givenName" (JStr "Rob"); op_ "replace" "active" (JStr "maybe")])) campus in
  status r = Some 400 ∧ lo_first_name <$> ma_logins (di_mail s') !! 2%positive = Some "Rob".
Proof. vm_compute. done. Qed.
(** A PATCH of one attribute deletes the rest of what the provider sent. *)
Lemma patch_wipes_snapshot :
  let '(r, s') := ask 50 (PatchUser 2 (patch_ [op_ "replace" "title" (JStr "Chief")])) campus in
  status r = Some 200 ∧ di_mirror s' !! (2%positive, 50%positive, "job_title") = Some "Chief" ∧
  di_mirror s' !! (2%positive, 50%positive, "department") = None ∧ get_external_id s' 2 50 = None.
Proof. vm_compute. done. Qed.
(** A value that Python reads as a UUID and the database does not. *)
Lemma member_urn_fails :
  (ask 50 (PatchGroup 60 (patch_ [op_ "add" "members" (JList [JDict [("value",
     JStr "urn:uuid:00000000-0000-0000-0000-000000000003")]])])) campus).1 = Raise (PythonError "InvalidTextRepresentation").
Proof. vm_compute. done. Qed.

(** ** The theorems at work *)

Lemma stored_value_roundtrip_witness :
  serialize "preferred_language" " PT-br " = Ok "pt-BR" ∧ deserialize "preferred_language" "pt-BR" = Ok "pt-BR".
Proof.
  assert (serialize "preferred_language" " PT-br " = Ok "pt-BR") as E by computed.
  split; [exact E|]. apply (stored_value_roundtrip "preferred_language" " PT-br " "pt-BR" E).
Defined.

Lemma apply_idp_attributes_exact_witness :
  let s' := (apply_idp_attributes 2 50 [("job_title", " Chief "); ("city", "  ")] None campus).2 in
  di_mirror s' !! (2%positive, 50%positive, "job_title") = Some "Chief" ∧ get_external_id s' 2 50 = None.
Proof.
  pose proof (apply_idp_attributes_exact campus 2 50 [("job_title", " Chief "); ("city", "  ")] None) as Ha.
  destruct Ha as (_ & Hm & _ & _ & _ & _ & Hx & _); [computed|computed|decided|decided|].
  split; [|exact Hx]. apply Hm. exists " Chief ". split; [left|computed].
Defined.

Definition me_ (u : uuid) : requesting_user := {| ru_id := u; ru_role := member |}.
Definition bare : directory := set_attrs (λ _, ∅) campus.
Lemma self_values_withheld_witness :
  ∃ c, c ∈ [CSet (me_ 2) 2 "city" "Oslo"; CSet boss 2 "job_title" "Clerk"] ∧ vouches 2 "job_title" "Clerk" c.
Proof.
  apply (self_values_withheld bare _ 9 2 "bob@x.org" "Bob" "Roe" [] None false false false
    (match _build_assertion_attributes 9 2 "bob@x.org" "Bob" "Roe" [] None false false false
       (run_attr_calls [CSet (me_ 2) 2 "city" "Oslo"; CSet boss 2 "job_title" "Clerk"] bare) with
     | (Ok r, _) => r | _ => [] end)
    (run_attr_calls [CSet (me_ 2) 2 "city" "Oslo"; CSet boss 2 "job_title" "Clerk"] bare) "job_title" "Clerk").
  - reflexivity.
  - computed.
  - reflexivity.
  - vm_compute. repeat (first [left; reflexivity | right]).
  - right. intros c Hc. vm_compute in Hc. injection Hc as <-. reflexivity.
Defined.

Definition gated : directory := set_force (λ _, {[3%positive]}) campus.
Lemma profile_gate_opens_witness :
  (fill (me_ 3) [("city", "Rome")] gated).1 = Ok () ∧
  force_profile_completion (fill (me_ 3) [("city", "Rome")] gated).2 3 = false.
Proof.
  apply (profile_gate_opens gated (me_ 3) [("city", "Rome")]).
  - split; reflexivity.
  - discriminate.
  - constructor; [|constructor]. split; [exists (config true); split_and!; reflexivity|split; [exists "Rome"; reflexivity|reflexivity]].
  - intros key [(c & Hc & _ & Hr & _) _]. revert Hc. change (di_config gated) with (di_config campus). simpl.
    intros Hc. apply lookup_insert_Some in Hc as [[<- <-]|[_ Hc]]; [left|exfalso].
    apply lookup_insert_Some in Hc as [[_ <-]|[_ Hc]]; [discriminate Hr|].
    apply lookup_singleton_Some in Hc as [_ <-]. discriminate Hr.
Defined.

Lemma profile_gate_trap_witness :
  ∃ r s1, bulk_set_force_profile_completion boss [3%positive] strict = (Ok r, s1) ∧ flagged r = [3%positive] ∧
    force_profile_completion (run_owns (me_ 3) [OSet "city" "Rome"] s1) 3 = true.
Proof.
  destruct (bulk_set_force_profile_completion boss [3%positive] strict) as [[r|e] s1] eqn:E;
    [|vm_compute in E; discriminate].
  assert (flagged r = [3%positive]) as Hr by (vm_compute in E; injection E as <- _; reflexivity).
  exists r, s1. split; [reflexivity|]. split; [exact Hr|].
  apply (profile_gate_trap strict boss [3%positive] r s1 (me_ 3) [OSet "city" "Rome"]);
    [reflexivity|exact E|rewrite Hr; left|reflexivity].
Defined.

Definition put_body : dict := [("externalId", JStr "00u2"); ("title", JStr "Clerk")].
Lemma put_drops_external_id_witness :
  get_external_id campus 2 50 = Some "00u2" ∧
  ∃ body s', replace_user "iss" home_ 50 2 put_body campus = (Ok body, s') ∧
    get_external_id s' 2 50 = None ∧ get "externalId" body = JNull.
Proof.
  split; [computed|].
  destruct (replace_user "iss" home_ 50 2 put_body campus) as [[body|e] s'] eqn:E; [|vm_compute in E; discriminate].
  exists body, s'. split; [reflexivity|].
  apply (put_drops_external_id "iss" home_ 50 2 put_body campus body s'); [|reflexivity|exact E].
  intros attrs Ha. vm_compute in Ha. injection Ha as <-. repeat constructor.
Defined.

Lemma scim_delete_outcome_witness :
  (∃ s', soft_delete_user "iss" 50 2 campus = (Ok (), s') ∧ memberships (di_dir s') = memberships (di_dir campus)) ∧
  soft_delete_user "iss" 50 1 campus = (Raise (ScimWriteError 404 None), campus).
Proof.
  split.
  - destruct (scim_delete_outcome "iss" 50 2 campus family) as (Hd & _ & _).
    destruct (Hd ltac:(by eexists) _ eq_refl eq_refl) as (s' & Hr & _ & _ & Hm & _). exists s'. by split.
  - apply (scim_delete_outcome "iss" 50 1 campus family). intros (l & _ & [= <-] & [=]).
Defined.

Definition quoted (x : string) : string := text_of (quote_char :: chars x ++ [quote_char]).
Definition team_ops : list json :=
  [op_ "add" "members" (JList [JDict [("value", JStr "00u3")]]);
   op_ "remove" ("members[value eq " +:+ quoted (uuid_text 2) +:+ "]") JNull;
   op_ "replace" "displayName" (JStr "Crew"); op_ "replace" "members" (JList [JDict [("value", JStr "nobody")]])].
Lemma campus_ready : ready campus 60.
Proof.
  split; [by eexists|]. split.
  - intros u [a Ha]. unfold campus, campus_, di_tenant, di_mail in Ha. cbn in Ha.
    repeat (apply lookup_insert_Some in Ha as [[<- _]|[_ Ha]]; [decided|]).
    apply lookup_singleton_Some in Ha as [<- _]. decided.
  - intros u Hu. assert (u = 2%positive) as ->; [|split; [decided|by eexists]].
    change (memberships (di_dir campus)) with ({[(60, 2); (61, 1)]}%positive : gset (uuid * uuid)) in Hu.
    set_solver.
Qed.
Lemma patch_group_refines_witness :
  members_of (patch_group home_ "m" 50 60 (patch_ team_ops) campus).2 60 = {[3%positive]} ∧
  (patch_group home_ "m" 50 60 (patch_ team_ops) campus).1 = Raise (ScimWriteError 400 (Some "invalidValue")).
Proof.
  pose proof (patch_group_refines home_ "m" 50 60 (patch_ team_ops) team_ops team campus campus_ready eq_refl eq_refl) as Hp.
  destruct (patch_group home_ "m" 50 60 (patch_ team_ops) campus) as [r s'].
  assert (spec_ops campus 50 team_ops (members_of campus 60) = (Raise (ScimWriteError 400 (Some "invalidValue")), {[3%positive]})) as E by computed.
  rewrite E in Hp. destruct Hp as (Hm & Hr & _). split; [exact Hm|]. apply Hr. reflexivity.
Defined.
