(* ===== verification/JsonText.v ===== *)
(** * JSON texts

    [json.dumps(x, sort_keys=True)] and [json.loads] of Python's standard
    library on the values of Json, for the tokens and cookies of
    app/utils/forward_auth.py.  A string is the sequence of its UTF-8 bytes; a
    lone surrogate is kept in its three bytes.  What a float literal denotes is
    an argument.  The second half shows that the one inverts the other. *)

From stdpp Require Import strings pretty list.
From S2P Require Import Prelude Sha256 ScimClient Tokens TokenProofs PasswordStrength Json.
#[local] Open Scope Z_scope.

(** [repr(float(literal))], and [math.floor(x * 10**6)] of a float given by its
    [repr], [None] for a NaN or an infinity. *)
Class Floats := {
  float_repr : string → string;
  float_micros : string → option Z;
}.

(** ** UTF-8 *)

(** The code points of a valid text. *)
Fixpoint code_points (l : list Z) : list Z :=
  match l with
  | [] => []
  | a :: l1 =>
      if a <? 128 then a :: code_points l1
      else
        match l1 with
        | [] => []
        | b :: l2 =>
            if a <? 224 then (a - 192) * 64 + (b - 128) :: code_points l2
            else
              match l2 with
              | [] => []
              | c :: l3 =>
                  if a <? 240 then (a - 224) * 4096 + (b - 128) * 64 + (c - 128) :: code_points l3
                  else
                    match l3 with
                    | [] => []
                    | d :: l4 =>
                        (a - 240) * 262144 + (b - 128) * 4096 + (c - 128) * 64 + (d - 128)
                        :: code_points l4
                    end
              end
        end
  end.
Definition utf8_char (n : Z) : list Z :=
  if n <? 128 then [n]
  else if n <? 2048 then [192 + n / 64; 128 + n mod 64]
  else if n <? 65536 then [224 + n / 4096; 128 + (n / 64) mod 64; 128 + n mod 64]
  else [240 + n / 262144; 128 + (n / 4096) mod 64; 128 + (n / 64) mod 64; 128 + n mod 64].

(** ** dumps *)

Definition quote_char : Ascii.ascii := char 34.
Definition esc (c : Ascii.ascii) : list Ascii.ascii := [char 92; c].
Definition hex4 (n : Z) : list Ascii.ascii :=
  [Sha256.hex_digit (n / 4096 mod 16); Sha256.hex_digit (n / 256 mod 16);
   Sha256.hex_digit (n / 16 mod 16); Sha256.hex_digit (n mod 16)].
Definition unicode_escape (n : Z) : list Ascii.ascii := esc (char 117) ++ hex4 n.
Definition escape_char (n : Z) : list Ascii.ascii :=
  if n =? 34 then esc (char 34)
  else if n =? 92 then esc (char 92)
  else if n =? 10 then esc (char 110)
  else if n =? 13 then esc (char 114)
  else if n =? 9 then esc (char 116)
  else if n =? 12 then esc (char 102)
  else if n =? 8 then esc (char 98)
  else if (32 <=? n) && (n <=? 126) then [byte_char n]
  else if n <? 65536 then unicode_escape n
  else unicode_escape (55296 + (n - 65536) / 1024) ++ unicode_escape (56320 + (n - 65536) mod 1024).
Definition dump_string (s : string) : list Ascii.ascii :=
  quote_char :: (code_points (bytes_of s) ≫= escape_char) ++ [quote_char].

Fixpoint commas (l : list (list Ascii.ascii)) : list Ascii.ascii :=
  match l with
  | [] => []
  | [w] => w
  | w :: ws => w ++ char 44 :: char 32 :: commas ws
  end.
Definition dump_float (repr : string) : string :=
  if decide (repr = "nan") then "NaN"
  else if decide (repr = "inf") then "Infinity"
  else if decide (repr = "-inf") then "-Infinity"
  else repr.
Definition dump_int (n : Z) : list Ascii.ascii :=
  if n <? 0 then char 45 :: chars (pretty (- n)) else chars (pretty n).
Definition dump_member (kv : string * list Ascii.ascii) : list Ascii.ascii :=
  dump_string kv.1 ++ char 58 :: char 32 :: kv.2.
Fixpoint encode (x : json) : list Ascii.ascii :=
  match x with
  | JNull => chars "null"
  | JBool b => chars (if b then "true" else "false")
  | JInt n => dump_int n
  | JFloat r => chars (dump_float r)
  | JStr s => dump_string s
  | JList l => char 91 :: commas (List.map encode l) ++ [char 93]
  | JDict d => char 123 :: commas (List.map (λ kv, dump_member (kv.1, encode kv.2)) d) ++ [char 125]
  end.

(** [sort_keys=True]: by code points, which is by bytes. *)
Definition key_le (x y : string * json) : Prop := String.leb x.1 y.1 = true.
#[export] Instance key_le_dec : RelDecision key_le.
Proof. intros x y. unfold key_le. apply _. Defined.
Fixpoint sort_keys (x : json) : json :=
  match x with
  | JList l => JList (List.map sort_keys l)
  | JDict d => JDict (merge_sort key_le (List.map (λ kv, (kv.1, sort_keys kv.2)) d))
  | _ => x
  end.
Definition dumps (x : json) : string := text_of (encode (sort_keys x)).

(** ** loads *)

Definition json_space (c : Ascii.ascii) : bool := bool_decide (Ascii.nat_of_ascii c ∈ [32; 9; 10; 13]%nat).
Fixpoint skip_ws (l : list Ascii.ascii) : list Ascii.ascii :=
  match l with
  | c :: l' => if json_space c then skip_ws l' else l
  | [] => []
  end.

Definition hex_value (c : Ascii.ascii) : option Z :=
  let n := Z.of_nat (Ascii.nat_of_ascii c) in
  if (48 <=? n) && (n <=? 57) then Some (n - 48)
  else if (97 <=? n) && (n <=? 102) then Some (n - 87)
  else if (65 <=? n) && (n <=? 70) then Some (n - 55)
  else None.
Definition read_hex4 (a b c d : Ascii.ascii) : option Z :=
  a ← hex_value a; b ← hex_value b; c ← hex_value c; d ← hex_value d;
  Some (a * 4096 + b * 256 + c * 16 + d).
(** The letter of a two-character escape. *)
Definition unescape (c : Ascii.ascii) : option Ascii.ascii :=
  let n := Ascii.nat_of_ascii c in
  if bool_decide (n ∈ [34; 92; 47]%nat) then Some c
  else if bool_decide (n = 98%nat) then Some (char 8)
  else if bool_decide (n = 102%nat) then Some (char 12)
  else if bool_decide (n = 110%nat) then Some (char 10)
  else if bool_decide (n = 114%nat) then Some (char 13)
  else if bool_decide (n = 116%nat) then Some (char 9)
  else None.
Definition utf8_chars (n : Z) : list Ascii.ascii := byte_char <$> utf8_char n.
Definition high_surrogate (n : Z) : bool := (55296 <=? n) && (n <=? 56319).
Definition low_surrogate (n : Z) : bool := (56320 <=? n) && (n <=? 57343).
Definition cons_text (w : list Ascii.ascii) (r : option (list Ascii.ascii * list Ascii.ascii)) :=
  '(t, rest) ← r; Some (w ++ t, rest).

(** After the opening quote: the text, and what follows the closing quote.  A
    pair of escaped surrogates is one character. *)
Fixpoint scan_string (l : list Ascii.ascii) : option (list Ascii.ascii * list Ascii.ascii) :=
  match l with
  | [] => None
  | c :: l1 =>
      if decide (c = quote_char) then Some ([], l1)
      else if decide (c = char 92) then
        match l1 with
        | [] => None
        | e :: l2 =>
            if decide (e = char 117) then
              match l2 with
              | h1 :: h2 :: h3 :: h4 :: l3 =>
                  match read_hex4 h1 h2 h3 h4 with
                  | None => None
                  | Some n =>
                      match l3 with
                      | b :: u :: g1 :: g2 :: g3 :: g4 :: l4 =>
                          if high_surrogate n && bool_decide (b = char 92) && bool_decide (u = char 117) then
                            match read_hex4 g1 g2 g3 g4 with
                            | None => None
                            | Some m =>
                                if low_surrogate m then
                                  cons_text (utf8_chars (65536 + (n - 55296) * 1024 + (m - 56320))) (scan_string l4)
                                else cons_text (utf8_chars n) (scan_string l3)
                            end
                          else cons_text (utf8_chars n) (scan_string l3)
                      | _ => cons_text (utf8_chars n) (scan_string l3)
                      end
                  end
              | _ => None
              end
            else
              match unescape e with
              | Some d => cons_text [d] (scan_string l2)
              | None => None
              end
        end
      else if (Ascii.nat_of_ascii c <? 32)%nat then None
      else cons_text [c] (scan_string l1)
  end.

Fixpoint span_digits (l : list Ascii.ascii) : list Ascii.ascii * list Ascii.ascii :=
  match l with
  | c :: l' =>
      match digit_value c with
      | Some _ => let '(w, rest) := span_digits l' in (c :: w, rest)
      | None => ([], l)
      end
  | [] => ([], [])
  end.
Definition digits_value (l : list Ascii.ascii) : Z :=
  fold_left (λ acc c, acc * 10 + default 0 (digit_value c)) l 0.
(** [(\.[0-9]+)?] and [([eE][-+]?[0-9]+)?]: what matches and the rest. *)
Definition scan_fraction (l : list Ascii.ascii) : list Ascii.ascii * list Ascii.ascii :=
  match l with
  | c :: l' =>
      if decide (c = dot) then
        match span_digits l' with
        | ([], _) => ([], l)
        | (w, rest) => (c :: w, rest)
        end
      else ([], l)
  | [] => ([], [])
  end.
Definition scan_exponent (l : list Ascii.ascii) : list Ascii.ascii * list Ascii.ascii :=
  match l with
  | c :: l' =>
      if bool_decide (lower c = char 101) then
        let '(sign, l'') := match l' with
                            | s :: l'' => if decide (s = char 43 ∨ s = char 45) then ([s], l'') else ([], l')
                            | [] => ([], [])
                            end in
        match span_digits l'' with
        | ([], _) => ([], l)
        | (w, rest) => (c :: sign ++ w, rest)
        end
      else ([], l)
  | [] => ([], [])
  end.

Section loads.
Context `{Floats}.

(** A sign, a zero or digits without a leading zero, and the two optional
    parts. *)
Definition scan_number (l : list Ascii.ascii) : option (json * list Ascii.ascii) :=
  let '(neg, l1) := match l with
                    | c :: l1 => if decide (c = char 45) then (true, l1) else (false, l)
                    | [] => (false, [])
                    end in
  let '(w, rest) := match l1 with
                    | c :: l2 => if decide (c = char 48) then ([c], l2) else span_digits l1
                    | [] => ([], [])
                    end in
  match w with
  | [] => None
  | _ =>
      let '(fraction, rest1) := scan_fraction rest in
      let '(exponent, rest2) := scan_exponent rest1 in
      let sign := if neg then [char 45] else [] in
      match fraction ++ exponent with
      | [] => Some (JInt (if neg then - digits_value w else digits_value w), rest)
      | tail => Some (JFloat (float_repr (text_of (sign ++ w ++ tail))), rest2)
      end
  end.
Definition scan_atom (l : list Ascii.ascii) : option (json * list Ascii.ascii) :=
  match drop_prefix (chars "null") l with Some r => Some (JNull, r) | None =>
  match drop_prefix (chars "true") l with Some r => Some (JBool true, r) | None =>
  match drop_prefix (chars "false") l with Some r => Some (JBool false, r) | None =>
  match drop_prefix (chars "NaN") l with Some r => Some (JFloat "nan", r) | None =>
  match drop_prefix (chars "Infinity") l with Some r => Some (JFloat "inf", r) | None =>
  match drop_prefix (chars "-Infinity") l with Some r => Some (JFloat "-inf", r) | None =>
  scan_number l end end end end end end.

(** Every call reads at least one letter, so the length of the text bounds
    their number. *)
Fixpoint scan_value (fuel : nat) (l : list Ascii.ascii) {struct fuel} : option (json * list Ascii.ascii) :=
  match fuel with
  | O => None
  | S fuel =>
      match l with
      | [] => None
      | c :: l1 =>
          if decide (c = quote_char) then '(w, r) ← scan_string l1; Some (JStr (text_of w), r)
          else if decide (c = char 123) then
            match skip_ws l1 with
            | d :: r => if decide (d = char 125) then Some (JDict [], r) else scan_members fuel [] (d :: r)
            | [] => None
            end
          else if decide (c = char 91) then
            match skip_ws l1 with
            | d :: r => if decide (d = char 93) then Some (JList [], r) else scan_elements fuel [] (d :: r)
            | [] => None
            end
          else scan_atom l
      end
  end
with scan_members (fuel : nat) (acc : dict) (l : list Ascii.ascii) {struct fuel} :
    option (json * list Ascii.ascii) :=
  match fuel with
  | O => None
  | S fuel =>
      match l with
      | q :: l1 =>
          if decide (q = quote_char) then
            '(k, r) ← scan_string l1;
            match skip_ws r with
            | colon :: r1 =>
                if decide (colon = char 58) then
                  '(v, r2) ← scan_value fuel (skip_ws r1);
                  let acc := dict_set (text_of k) v acc in
                  match skip_ws r2 with
                  | e :: r3 =>
                      if decide (e = char 125) then Some (JDict acc, r3)
                      else if decide (e = char 44) then scan_members fuel acc (skip_ws r3)
                      else None
                  | [] => None
                  end
                else None
            | [] => None
            end
          else None
      | [] => None
      end
  end
with scan_elements (fuel : nat) (acc : list json) (l : list Ascii.ascii) {struct fuel} :
    option (json * list Ascii.ascii) :=
  match fuel with
  | O => None
  | S fuel =>
      '(v, r) ← scan_value fuel l;
      match skip_ws r with
      | e :: r1 =>
          if decide (e = char 93) then Some (JList (acc ++ [v]), r1)
          else if decide (e = char 44) then scan_elements fuel (acc ++ [v]) (skip_ws r1)
          else None
      | [] => None
      end
  end.

(** [None]: the [ValueError] of a text that is not JSON. *)
Definition loads (s : string) : option json :=
  let l := skip_ws (chars s) in
  '(x, rest) ← scan_value (S (length l)) l;
  match skip_ws rest with [] => Some x | _ => None end.
End loads.

Section examples.
#[local] Instance no_floats : Floats := {| float_repr := id; float_micros := λ _, None |}.
Definition quoted (s : string) : list Ascii.ascii := quote_char :: chars s ++ [quote_char].

Example loads_ex :
  loads (text_of (chars " {" ++ quoted "b" ++ chars " : [1, -20 ,0.5e-3, null], " ++ quoted "a" ++ chars ":" ++
                  quoted "x\n\u00E9\ud83d\ude00" ++ chars "} ")) =
    Some (JDict [("b", JList [JInt 1; JInt (-20); JFloat "0.5e-3"; JNull]);
                 ("a", JStr (text_of (char 120 :: char 10 :: (byte_char <$> [195; 169; 240; 159; 152; 128]))))]) ∧
  loads "[1,]" = None ∧ loads "01" = None ∧ loads "[-Infinity]" = Some (JList [JFloat "-inf"]) ∧ loads "1 2" = None.
Proof. split_and!; vm_compute; reflexivity. Qed.

Example dumps_ex :
  dumps (JDict [("b", JList [JInt (-20); JBool true]); ("a", JStr (text_of (byte_char <$> [34; 195; 169])))]) =
    text_of (chars "{" ++ quoted "a" ++ chars ": " ++ quoted (text_of (chars "\" ++ [quote_char] ++ chars "\u00e9"))
             ++ chars ", " ++ quoted "b" ++ chars ": [-20, true]}").
Proof. vm_compute. reflexivity. Qed.
End examples.

(** ** UTF-8 *)

Definition code_point (n : Z) : Prop := 0 <= n < 1114112 ∧ ¬ (55296 <= n <= 57343).

Ltac divisions := Z.to_euclidean_division_equations; lia.

Lemma utf8_two a b : 194 <= a <= 223 → 128 <= b <= 191 →
  utf8_char ((a - 192) * 64 + (b - 128)) = [a; b] ∧ code_point ((a - 192) * 64 + (b - 128)).
Proof.
  intros Ha Hb. unfold utf8_char, code_point.
  rewrite (proj2 (Z.ltb_ge _ 128)), (proj2 (Z.ltb_lt _ 2048)) by lia.
  split; [|lia]. repeat f_equal; divisions.
Qed.
Lemma utf8_three a b c : 224 <= a <= 239 → 128 <= b <= 191 → 128 <= c <= 191 →
  (a = 224 → 160 <= b) → (a = 237 → b <= 159) →
  utf8_char ((a - 224) * 4096 + (b - 128) * 64 + (c - 128)) = [a; b; c] ∧
  code_point ((a - 224) * 4096 + (b - 128) * 64 + (c - 128)).
Proof.
  intros Ha Hb Hc H1 H2. unfold utf8_char, code_point.
  rewrite (proj2 (Z.ltb_ge _ 128)), (proj2 (Z.ltb_ge _ 2048)), (proj2 (Z.ltb_lt _ 65536)) by lia.
  split; [|lia]. repeat f_equal; divisions.
Qed.
Lemma utf8_four a b c d : 240 <= a <= 244 → 128 <= b <= 191 → 128 <= c <= 191 → 128 <= d <= 191 →
  (a = 240 → 144 <= b) → (a = 244 → b <= 143) →
  utf8_char ((a - 240) * 262144 + (b - 128) * 4096 + (c - 128) * 64 + (d - 128)) = [a; b; c; d] ∧
  code_point ((a - 240) * 262144 + (b - 128) * 4096 + (c - 128) * 64 + (d - 128)).
Proof.
  intros Ha Hb Hc Hd H1 H2. unfold utf8_char, code_point.
  rewrite (proj2 (Z.ltb_ge _ 128)), (proj2 (Z.ltb_ge _ 2048)), (proj2 (Z.ltb_ge _ 65536)) by lia.
  split; [|lia]. repeat f_equal; divisions.
Qed.

Ltac cont :=
  repeat match goal with
  | H : _ && _ = true |- _ => apply andb_true_iff in H; destruct H
  | H : is_cont _ = true |- _ => unfold is_cont in H
  | H : (_ <=? _) = true |- _ => apply Z.leb_le in H
  | H : implb (_ =? _) (_ <=? _) = true |- _ => rewrite implb_true_iff, Z.eqb_eq, Z.leb_le in H
  end.

Lemma code_points_valid l : Forall byte l → utf8_valid l = true →
  (code_points l ≫= utf8_char) = l ∧ Forall code_point (code_points l).
Proof.
  induction l as [l IH] using (well_founded_induction (well_founded_ltof _ length)). unfold ltof in IH.
  intros Hl Hv. destruct l as [|a l1]; [done|]. cbn [utf8_valid code_points] in *.
  apply Forall_cons in Hl as [Ha H1]. destruct (a <? 128) eqn:E.
  { apply Z.ltb_lt in E. destruct (IH l1) as [I1 I2]; [simpl; lia|done..|].
    split; [cbn; rewrite I1; unfold utf8_char; by rewrite (proj2 (Z.ltb_lt a 128))|].
    constructor; [|done]. unfold byte, code_point in *. lia. }
  destruct l1 as [|b l2]; [done|]. apply Forall_cons in H1 as [Hb H2].
  destruct ((194 <=? a) && (a <=? 223)) eqn:E2.
  { cont. rewrite (proj2 (Z.ltb_lt a 224)) by lia. destruct (IH l2) as [I1 I2]; [simpl; lia|done..|].
    destruct (utf8_two a b) as [U C]; [lia..|]. split; [|by constructor].
    rewrite bind_cons, I1, U. done. }
  destruct l2 as [|c l3]; [done|]. apply Forall_cons in H2 as [Hc H3].
  destruct ((224 <=? a) && (a <=? 239)) eqn:E3.
  { cont. rewrite (proj2 (Z.ltb_ge a 224)), (proj2 (Z.ltb_lt a 240)) by lia.
    destruct (IH l3) as [I1 I2]; [simpl; lia|done..|].
    destruct (utf8_three a b c) as [U C]; [lia..|]. split; [|by constructor].
    rewrite bind_cons, I1, U. done. }
  destruct l3 as [|d l4]; [done|]. apply Forall_cons in H3 as [Hd H4]. cont.
  rewrite (proj2 (Z.ltb_ge a 224)), (proj2 (Z.ltb_ge a 240)) by lia.
  destruct (IH l4) as [I1 I2]; [simpl; lia|done..|].
  destruct (utf8_four a b c d) as [U C]; [lia..|]. split; [|by constructor].
  rewrite bind_cons, I1, U. done.
Qed.

(** ** Strings *)

Lemma hex_digit_value n : 0 <= n < 16 → hex_value (Sha256.hex_digit n) = Some n.
Proof.
  intros Hn.
  assert (forallb (λ n, bool_decide (hex_value (Sha256.hex_digit n) = Some n)) (seqZ 0 16) = true) as Hall
    by (vm_compute; reflexivity).
  rewrite forallb_forall in Hall. specialize (Hall n).
  apply bool_decide_eq_true in Hall; [done|]. apply list_elem_of_In, elem_of_seqZ. lia.
Qed.
Lemma read_hex4_spec n : 0 <= n < 65536 →
  read_hex4 (Sha256.hex_digit (n / 4096 mod 16)) (Sha256.hex_digit (n / 256 mod 16))
    (Sha256.hex_digit (n / 16 mod 16)) (Sha256.hex_digit (n mod 16)) = Some n.
Proof.
  intros Hn. unfold read_hex4. rewrite !hex_digit_value by (apply Z.mod_pos_bound; lia). simpl.
  f_equal. divisions.
Qed.

Lemma scan_escape n l : 0 <= n < 65536 → high_surrogate n = false →
  scan_string (unicode_escape n ++ l) = cons_text (utf8_chars n) (scan_string l).
Proof.
  intros Hn Hs. unfold unicode_escape, esc, hex4. cbn [app scan_string].
  rewrite decide_False by discriminate. rewrite !decide_True by done. rewrite read_hex4_spec by done.
  do 6 (destruct l as [|? l]; [done|]). by rewrite Hs.
Qed.
Lemma scan_pair n m l : 0 <= n < 65536 → high_surrogate n = true → 0 <= m < 65536 → low_surrogate m = true →
  scan_string (unicode_escape n ++ unicode_escape m ++ l) =
  cons_text (utf8_chars (65536 + (n - 55296) * 1024 + (m - 56320))) (scan_string l).
Proof.
  intros Hn Hh Hm Hl. unfold unicode_escape, esc, hex4. cbn [app scan_string].
  rewrite decide_False by discriminate. rewrite !decide_True by done. rewrite read_hex4_spec by done.
  rewrite Hh, !bool_decide_true by done. simpl. by rewrite read_hex4_spec, Hl.
Qed.
Lemma scan_surrogates n l : 65536 <= n < 1114112 →
  scan_string (unicode_escape (55296 + (n - 65536) / 1024) ++ unicode_escape (56320 + (n - 65536) mod 1024) ++ l) =
  cons_text (utf8_chars n) (scan_string l).
Proof.
  intros Hn. pose proof (Z.mod_pos_bound (n - 65536) 1024 ltac:(lia)) as Hm.
  pose proof (Z.div_mod (n - 65536) 1024 ltac:(lia)) as Hd.
  assert (0 <= (n - 65536) / 1024 < 1024) as Hq by lia.
  rewrite scan_pair; [|lia|..|lia|];
    [|unfold high_surrogate; rewrite andb_true_iff, !Z.leb_le; lia
     |unfold low_surrogate; rewrite andb_true_iff, !Z.leb_le; lia].
  do 2 f_equal. lia.
Qed.

Lemma scan_letter e d l : e ≠ char 117 → unescape e = Some d →
  scan_string (esc e ++ l) = cons_text [d] (scan_string l).
Proof.
  intros He Hd. unfold esc. cbn [app scan_string]. rewrite decide_False by discriminate.
  rewrite decide_True, decide_False by done. by rewrite Hd.
Qed.

Lemma scan_escaped n l : code_point n →
  scan_string (escape_char n ++ l) = cons_text (utf8_chars n) (scan_string l).
Proof.
  intros [Hn Hs]. unfold escape_char.
  repeat match goal with
  | |- context [if ?a =? ?b then _ else _] => destruct (Z.eqb_spec a b); [subst; apply scan_letter; [discriminate|reflexivity]|]
  end.
  destruct ((32 <=? n) && (n <=? 126)) eqn:E.
  { rewrite andb_true_iff, !Z.leb_le in E.
    assert (∀ m, 32 <= m <= 126 → m ≠ 34 → m ≠ 92 →
      bool_decide (byte_char m = quote_char) || bool_decide (byte_char m = char 92) ||
      (Ascii.nat_of_ascii (byte_char m) <? 32)%nat = false) as Hplain.
    { intros m Hm H1 H2.
      assert (forallb (λ m, (m =? 34) || (m =? 92) || negb (bool_decide (byte_char m = quote_char) || bool_decide (byte_char m = char 92) ||
        (Ascii.nat_of_ascii (byte_char m) <? 32)%nat)) (seqZ 32 95) = true) as Hall by (vm_compute; reflexivity).
      rewrite forallb_forall in Hall. specialize (Hall m).
      rewrite (proj2 (Z.eqb_neq m 34)), (proj2 (Z.eqb_neq m 92)) in Hall by done.
      apply negb_true_iff, Hall, list_elem_of_In, elem_of_seqZ. lia. }
    specialize (Hplain n ltac:(lia) ltac:(done) ltac:(done)).
    rewrite !orb_false_iff, !bool_decide_eq_false in Hplain. destruct Hplain as [[P1 P2] P3].
    cbn [app scan_string]. rewrite !decide_False, P3 by done.
    unfold utf8_chars, utf8_char. by rewrite (proj2 (Z.ltb_lt n 128)) by lia. }
  destruct (n <? 65536) eqn:E2; [apply Z.ltb_lt in E2|apply Z.ltb_ge in E2].
  - apply scan_escape; [lia|]. unfold high_surrogate. rewrite andb_false_iff, !Z.leb_gt. lia.
  - rewrite <- app_assoc. apply scan_surrogates. lia.
Qed.

Lemma cons_text_app w1 w2 r : cons_text w1 (cons_text w2 r) = cons_text (w1 ++ w2) r.
Proof. destruct r as [[]|]; [|done]. unfold cons_text. simpl. by rewrite app_assoc. Qed.

Lemma scan_body ns rest : Forall code_point ns →
  scan_string ((ns ≫= escape_char) ++ quote_char :: rest) = Some (ns ≫= utf8_chars, rest).
Proof.
  induction 1 as [|n ns Hn _ IH]; [done|].
  rewrite !bind_cons, <- app_assoc, scan_escaped by done. by rewrite IH.
Qed.

(** A text that [str.encode] can give. *)
Definition valid_text (s : string) : Prop := utf8_valid (bytes_of s) = true.

Lemma scan_dumped s rest : valid_text s →
  scan_string ((code_points (bytes_of s) ≫= escape_char) ++ quote_char :: rest) = Some (chars s, rest).
Proof.
  intros Hs. destruct (code_points_valid (bytes_of s) (bytes_of_byte s) Hs) as [Hb Hc].
  rewrite scan_body by done. do 2 f_equal.
  transitivity (byte_char <$> (code_points (bytes_of s) ≫= utf8_char)).
  { clear. induction (code_points (bytes_of s)) as [|n ns IH]; [done|].
    rewrite !bind_cons, fmap_app, IH. done. }
  rewrite Hb. rewrite <- (chars_text_of (byte_char <$> bytes_of s)).
  change (text_of (byte_char <$> bytes_of s)) with (text_of_bytes (bytes_of s)). by rewrite text_of_bytes_of.
Qed.

(** ** Numerals *)

(** What may follow a numeral without being read as a part of it. *)
Definition stops (l : list Ascii.ascii) : Prop :=
  match l with
  | [] => True
  | c :: _ => digit_value c = None ∧ c ≠ dot ∧ lower c ≠ char 101
  end.
Definition is_numeral (w : list Ascii.ascii) : Prop :=
  Forall (λ c, is_Some (digit_value c)) w ∧ w ≠ [] ∧ (w = [char 48] ∨ head w ≠ Some (char 48)).

Lemma span_numeral w rest : Forall (λ c, is_Some (digit_value c)) w → stops rest →
  span_digits (w ++ rest) = (w, rest).
Proof.
  intros Hw Hr. induction Hw as [|c w [d Hd] _ IH]; simpl.
  - destruct rest as [|c rest]; [done|]. destruct Hr as [Hc _]. simpl. by rewrite Hc.
  - by rewrite Hd, IH.
Qed.
Lemma fold_digits l acc need : Forall (λ c, is_Some (digit_value c)) l → (need = false ∨ l ≠ []) →
  int_digits l acc need = Some (fold_left (λ acc c, acc * 10 + default 0 (digit_value c)) l acc).
Proof.
  intros Hl. revert acc need. induction Hl as [|c l [d Hd] _ IH]; intros acc need Hn; simpl.
  - by destruct Hn as [->|?].
  - rewrite Hd. simpl. apply IH. by left.
Qed.

Lemma pretty_N_go_head x s : (0 < x)%N → head (chars (pretty_N_go x s)) ≠ Some (char 48).
Proof.
  revert s. induction (N.lt_wf_0 x) as [x _ IH]. intros s Hx. rewrite pretty_N_go_step by done.
  destruct (decide (0 < x `div` 10)%N) as [Hd|Hd]; [apply IH; [apply N.div_lt; lia|done]|].
  assert ((x `div` 10)%N = 0%N) as Hz by (destruct (x `div` 10)%N; [done|exfalso; apply Hd; done]).
  rewrite Hz, pretty_N_go_0. assert (x mod 10 = x)%N as ->.
  { apply N.mod_small. apply N.div_small_iff in Hz; lia. }
  assert (x < 10)%N as Hlt by (apply N.div_small_iff in Hz; lia).
  destruct x as [|p]; [done|]. do 4 (try destruct p as [p|p|]); first [lia|done].
Qed.
Lemma pretty_numeral n : 0 <= n → is_numeral (chars (pretty n)) ∧ digits_value (chars (pretty n)) = n.
Proof.
  intros Hn. destruct n as [|p|p]; [|clear Hn|lia].
  { split; [|done]. split; [by repeat constructor|]. split; [done|by left]. }
  change (pretty (Zpos p)) with (pretty_N_go (Npos p) "").
  pose proof (pretty_N_go_chars (Npos p) "" ltac:(constructor)) as Hc.
  assert (Forall (λ c, is_Some (digit_value c)) (chars (pretty_N_go (Npos p) ""))) as Hd.
  { eapply Forall_impl; [exact Hc|]. by intros c (? & _). }
  pose proof (pretty_N_go_int (Npos p) "" true eq_refl) as Hi.
  pose proof (pretty_N_go_head (Npos p) "" eq_refl) as Hh.
  destruct (chars (pretty_N_go (Npos p) "")) as [|c l] eqn:E; [done|].
  split; [split; [done|]; split; [done|by right]|].
  rewrite fold_digits in Hi by (done || by right). by simplify_eq/=.
Qed.

Lemma numeral_head w : is_numeral w → ∃ c l, w = c :: l ∧ is_Some (digit_value c).
Proof.
  intros (Hd & Hw & _). destruct w as [|c l]; [done|]. apply Forall_cons in Hd as [? _]. eauto.
Qed.
(** A digit starts none of the other values. *)
Lemma digit_is c : is_Some (digit_value c) → (48 <= Ascii.nat_of_ascii c <= 57)%nat.
Proof.
  unfold digit_value. destruct (_ && _) eqn:E; [|by intros []].
  rewrite andb_true_iff, !Z.leb_le in E. lia.
Qed.
Lemma digit_ne c n : is_Some (digit_value c) → (n < 48 ∨ 57 < n < 256)%nat → c ≠ char n.
Proof.
  intros Hc%digit_is Hn ->. unfold char in Hc. rewrite Ascii.nat_ascii_embedding in Hc by lia. lia.
Qed.
Lemma drop_prefix_ne a w c l : c ≠ a → drop_prefix (a :: w) (c :: l) = None.
Proof. intros Hc. simpl. by rewrite decide_False by congruence. Qed.
(** The letters the other values start with. *)
Lemma letters_of_atoms : ∃ a b c d e f, chars "null" = char 110 :: a ∧ chars "true" = char 116 :: b ∧
  chars "false" = char 102 :: c ∧ chars "NaN" = char 78 :: d ∧ chars "Infinity" = char 73 :: e ∧
  chars "-Infinity" = char 45 :: char 73 :: f.
Proof. by do 6 eexists. Qed.

Lemma scan_numeral `{Floats} neg w rest : is_numeral w → stops rest →
  scan_atom ((if neg : bool then [char 45] else []) ++ w ++ rest) =
    Some (JInt (if neg then - digits_value w else digits_value w), rest).
Proof.
  intros Hw Hr. destruct (numeral_head w Hw) as (c & l & -> & Hc).
  destruct letters_of_atoms as (p1 & p2 & p3 & p4 & p5 & p6 & A1 & A2 & A3 & A4 & A5 & A6).
  assert (scan_number ((if neg then [char 45] else []) ++ (c :: l) ++ rest) =
    Some (JInt (if neg then - digits_value (c :: l) else digits_value (c :: l)), rest)) as Hnum.
  { destruct Hw as (Hd & _ & Hz). unfold scan_number.
    assert ((match (if neg then [char 45] else []) ++ (c :: l) ++ rest with
      | c0 :: l1 => if decide (c0 = char 45) then (true, l1)
                    else (false, (if neg then [char 45] else []) ++ (c :: l) ++ rest)
      | [] => (false, []) end) = (neg, (c :: l) ++ rest)) as ->.
    { destruct neg; cbn [app]; [by rewrite decide_True|]. rewrite decide_False; [done|].
      apply digit_ne; [done|lia]. }
    cbn [app].
    assert ((if decide (c = char 48) then ([c], l ++ rest) else span_digits (c :: l ++ rest)) = (c :: l, rest)) as ->.
    { destruct (decide (c = char 48)) as [->|Hne].
      - destruct Hz as [[= ->]|Hz]; [done|by destruct Hz].
      - change (c :: l ++ rest) with ((c :: l) ++ rest). by apply span_numeral. }
    assert (scan_fraction rest = ([], rest) ∧ scan_exponent rest = ([], rest)) as [-> He].
    { unfold scan_fraction, scan_exponent. destruct rest as [|r rest]; [done|].
      destruct Hr as (_ & H1 & H2). by rewrite decide_False, bool_decide_false. }
    rewrite He. done. }
  unfold scan_atom. rewrite A1, A2, A3, A4, A5, A6. destruct neg; cbn [app] in *.
  - rewrite !drop_prefix_ne by discriminate.
    cbn [drop_prefix]. rewrite decide_True by done.
    rewrite decide_False by (intros <-; revert Hc; by intros []). exact Hnum.
  - rewrite !drop_prefix_ne by (apply digit_ne; [done|lia]). exact Hnum.
Qed.
Lemma scan_dump_int `{Floats} n rest : stops rest → scan_atom (dump_int n ++ rest) = Some (JInt n, rest).
Proof.
  intros Hr. unfold dump_int. destruct (n <? 0) eqn:E; [apply Z.ltb_lt in E|apply Z.ltb_ge in E].
  - destruct (pretty_numeral (- n)) as [Hn Hv]; [lia|].
    rewrite (scan_numeral true _ _ Hn Hr), Hv. do 3 f_equal. lia.
  - destruct (pretty_numeral n) as [Hn Hv]; [lia|]. by rewrite (scan_numeral false _ _ Hn Hr), Hv.
Qed.

(** ** Values *)

(** Without floats, every text valid, every key once. *)
#[warnings="-register-all"]
Inductive plain : json → Prop :=
  | plain_null : plain JNull
  | plain_bool b : plain (JBool b)
  | plain_int n : plain (JInt n)
  | plain_str s : valid_text s → plain (JStr s)
  | plain_list l : Forall plain l → plain (JList l)
  | plain_dict d : NoDup d.*1 → Forall valid_text d.*1 → Forall plain d.*2 → plain (JDict d).

Lemma skip_ws_none c l : json_space c = false → skip_ws (c :: l) = c :: l.
Proof. intros Hc. simpl. by rewrite Hc. Qed.
Lemma skip_ws_one c l : json_space c = false → skip_ws (char 32 :: c :: l) = c :: l.
Proof. intros Hc. change (skip_ws (char 32 :: c :: l)) with (skip_ws (c :: l)). by apply skip_ws_none. Qed.

Lemma dict_set_new k v d : k ∉ d.*1 → dict_set k v d = d ++ [(k, v)].
Proof.
  induction d as [|[k' v'] d IH]; [done|]. rewrite fmap_cons, not_elem_of_cons. intros [Hk Hd].
  simpl. rewrite decide_False by done. by rewrite IH.
Qed.

Abbreviation encode_items l := (commas (List.map encode l)).
Abbreviation encode_members d := (commas (List.map (λ kv : string * json, dump_member (kv.1, encode kv.2)) d)).

(** What a value starts with: no space and no closing bracket. *)
Lemma encode_head x : plain x → ∃ c l, encode x = c :: l ∧ json_space c = false ∧ c ≠ char 93.
Proof.
  destruct 1 as [|[]|n|s|l|d]; try by do 2 eexists.
  cbn [encode]. unfold dump_int. destruct (n <? 0) eqn:E; [by do 2 eexists|]. apply Z.ltb_ge in E.
  destruct (pretty_numeral n E) as [Hn _]. destruct (numeral_head _ Hn) as (c & l & -> & Hc).
  exists c, l. split; [done|]. split; [|apply digit_ne; [done|lia]].
  apply digit_is in Hc. unfold json_space. apply bool_decide_eq_false. set_solver by lia.
Qed.
Lemma skip_ws_encode x rest : plain x → skip_ws (encode x ++ rest) = encode x ++ rest.
Proof. intros (c & l & -> & Hc & _)%encode_head. cbn [app]. by rewrite skip_ws_none. Qed.
Lemma skip_space_encode x rest : plain x → skip_ws (char 32 :: encode x ++ rest) = encode x ++ rest.
Proof. intros (c & l & -> & Hc & _)%encode_head. cbn [app]. by rewrite skip_ws_one. Qed.

Section roundtrip.
Context `{Floats}.

Definition reads_values (fuel : nat) : Prop := ∀ x rest,
  plain x → (length (encode x) <= fuel)%nat → stops rest → scan_value fuel (encode x ++ rest) = Some (x, rest).
Definition reads_members (fuel : nat) : Prop := ∀ d acc rest,
  d ≠ [] → NoDup (acc.*1 ++ d.*1) → Forall valid_text d.*1 → Forall plain d.*2 →
  (length (encode_members d) < fuel)%nat →
  scan_members fuel acc (encode_members d ++ char 125 :: rest) = Some (JDict (acc ++ d), rest).
Definition reads_elements (fuel : nat) : Prop := ∀ l acc rest,
  l ≠ [] → Forall plain l → (length (encode_items l) < fuel)%nat →
  scan_elements fuel acc (encode_items l ++ char 93 :: rest) = Some (JList (acc ++ l), rest).

Lemma stops_char n l : (n ∈ [125; 93; 44])%nat → stops (char n :: l).
Proof. rewrite !elem_of_cons, elem_of_nil. intros [->|[->|[->|[]]]]; by split_and!. Qed.

(** A value that is a word or a numeral. *)
Lemma scan_value_atom fuel c l : c ≠ quote_char → c ≠ char 123 → c ≠ char 91 →
  scan_value (S fuel) (c :: l) = scan_atom (c :: l).
Proof. intros. cbn [scan_value]. by rewrite !decide_False. Qed.

Lemma reads_values_step fuel : reads_members fuel → reads_elements fuel → reads_values (S fuel).
Proof.
  intros Hd Hl x rest Hx Hlen Hr. destruct Hx as [|b|n|s Hs|l Hp|d Hn Hk Hp].
  - done.
  - by destruct b.
  - cbn [encode] in *. rewrite <- (scan_dump_int n rest Hr). unfold dump_int.
    destruct (n <? 0) eqn:E; [by apply scan_value_atom|]. apply Z.ltb_ge in E.
    destruct (pretty_numeral n E) as [Hnum _]. destruct (numeral_head _ Hnum) as (c & l & -> & Hc).
    apply scan_value_atom; apply digit_ne; try done; lia.
  - cbn [encode]. unfold dump_string. cbn [app scan_value]. rewrite decide_True by done.
    rewrite <- app_assoc. cbn [app]. rewrite scan_dumped by done. cbn. by rewrite text_of_chars.
  - cbn [encode] in *. cbn [app scan_value]. rewrite decide_False by discriminate.
    rewrite decide_False by discriminate. rewrite decide_True by done.
    destruct l as [|y l]; [done|]. assert (plain y) as Hy by (by apply Forall_cons in Hp as [? _]).
    specialize (Hl (y :: l) [] rest ltac:(done) Hp). rewrite <- app_assoc. cbn [app].
    destruct (encode_head y Hy) as (c & w & Ec & Hc1 & Hc2).
    assert (∃ w', encode_items (y :: l) = c :: w') as (w' & Ew).
    { simpl. rewrite Ec. destruct (List.map encode l); eauto. }
    rewrite Ew in *. cbn [app]. rewrite skip_ws_none by done. rewrite decide_False by done.
    apply Hl. simpl in *. rewrite length_app in Hlen. simpl in Hlen. lia.
  - cbn [encode] in *. cbn [app scan_value]. rewrite decide_False by discriminate. rewrite decide_True by done.
    destruct d as [|kv d]; [done|].
    specialize (Hd (kv :: d) [] rest ltac:(done) Hn Hk Hp). rewrite <- app_assoc. cbn [app].
    assert (∃ w', encode_members (kv :: d) = quote_char :: w') as (w' & Ew).
    { simpl. unfold dump_member at 1 2, dump_string. destruct (List.map _ d); cbn [app]; eauto. }
    rewrite Ew in *. cbn [app]. rewrite skip_ws_none by done. rewrite decide_False by discriminate.
    apply Hd. simpl in *. rewrite length_app in Hlen. simpl in Hlen. lia.
Qed.

Lemma commas_cons w ws :
  commas (w :: ws) = w ++ match ws with [] => [] | _ => char 44 :: char 32 :: commas ws end.
Proof. destruct ws; [by rewrite app_nil_r|done]. Qed.

Lemma reads_elements_step fuel : reads_values fuel → reads_elements fuel → reads_elements (S fuel).
Proof.
  intros Hv He l acc rest Hne Hp Hlen. destruct l as [|y l]; [done|].
  apply Forall_cons in Hp as [Hy Hp]. cbn [List.map] in *. rewrite commas_cons in *.
  rewrite length_app in Hlen. rewrite <- app_assoc. cbn [scan_elements].
  destruct l as [|z l]; cbn [List.map app length] in *.
  - rewrite Hv by (done || lia || by apply stops_char; set_solver). cbn [mbind option_bind].
    rewrite skip_ws_none, decide_True by done. done.
  - rewrite Hv by (done || lia || by apply stops_char; set_solver). cbn [mbind option_bind].
    rewrite skip_ws_none by done. rewrite decide_False by discriminate. rewrite decide_True by done.
    apply Forall_cons in Hp as Hz. destruct Hz as [Hz _].
    change (encode z :: List.map encode l) with (List.map encode (z :: l)) in *.
    assert (skip_ws (char 32 :: encode_items (z :: l) ++ char 93 :: rest) = encode_items (z :: l) ++ char 93 :: rest) as ->.
    { cbn [List.map]. rewrite commas_cons, <- app_assoc. by apply skip_space_encode. }
    rewrite He by (done || (simpl in *; lia)). by rewrite <- app_assoc.
Qed.

Lemma reads_members_step fuel : reads_values fuel → reads_members fuel → reads_members (S fuel).
Proof.
  intros Hv He d acc rest Hne Hn Hk Hp Hlen. destruct d as [|[k y] d]; [done|]. cbn [fmap list_fmap fst snd] in *.
  apply Forall_cons in Hp as [Hy Hp]. apply Forall_cons in Hk as [Hk Hks].
  cbn [List.map] in *. rewrite commas_cons in *. rewrite length_app in Hlen.
  rewrite <- app_assoc. unfold dump_member in Hlen at 1. unfold dump_member at 1. unfold dump_string at 1.
  unfold dump_string in Hlen at 1. cbn [fst snd] in *. rewrite <- !app_assoc. cbn [app scan_members].
  rewrite decide_True by done. rewrite <- !app_assoc. cbn [app]. rewrite scan_dumped by done.
  cbn [mbind option_bind]. rewrite skip_ws_none by done. rewrite decide_True by done.
  rewrite skip_space_encode by done. rewrite text_of_chars.
  assert (k ∉ acc.*1) as Hnew.
  { apply NoDup_app in Hn as (_ & Hn & _). intros Hin. apply (Hn k Hin). left. }
  rewrite !length_app in Hlen. cbn [length] in Hlen. rewrite !length_app in Hlen. cbn [length] in Hlen.
  destruct d as [|kv d]; cbn [List.map app length] in *.
  - rewrite Hv by (done || lia || by apply stops_char; set_solver). cbn [mbind option_bind].
    rewrite skip_ws_none, decide_True by done. by rewrite dict_set_new.
  - rewrite Hv by (done || lia || by apply stops_char; set_solver). cbn [mbind option_bind].
    rewrite skip_ws_none by done. rewrite decide_False by discriminate. rewrite decide_True by done.
    rewrite dict_set_new by done.
    assert (∃ w', encode_members (kv :: d) = quote_char :: w') as (w' & Ew).
    { simpl. unfold dump_member at 1 2, dump_string. destruct (List.map _ d); cbn [app]; eauto. }
    cbn [List.map] in Ew. rewrite Ew in *. cbn [app]. rewrite skip_ws_one by done.
    specialize (He (kv :: d) (acc ++ [(k, y)]) rest ltac:(done)). cbn [List.map] in He. rewrite Ew in He.
    cbn [app] in He. rewrite He; [by rewrite <- app_assoc|..|done|done|simpl in *; lia].
    by rewrite fmap_app, <- app_assoc.
Qed.

Lemma reads fuel : reads_values fuel ∧ reads_members fuel ∧ reads_elements fuel.
Proof.
  induction fuel as [|fuel (I1 & I2 & I3)].
  - split_and!.
    + intros x rest Hx Hlen. destruct (encode_head x Hx) as (c & l & E & _). rewrite E in Hlen. simpl in Hlen. lia.
    + intros d acc rest _ _ _ _ Hlen. lia.
    + intros l acc rest _ _ Hlen. lia.
  - split_and!; [by apply reads_values_step|by apply reads_members_step|by apply reads_elements_step].
Qed.

Lemma key_perm d : (merge_sort key_le d).*1 ≡ₚ d.*1.
Proof. by rewrite merge_sort_Permutation. Qed.

Lemma sort_keys_plain x : plain x → plain (sort_keys x).
Proof.
  revert x. fix IH 1. intros x Hx. destruct x as [|b|n|r|s|l|d]; cbn [sort_keys]; try exact Hx.
  - inversion_clear Hx as [| | | |? Hl|]. constructor. clear -IH Hl.
    induction l as [|y l IHl]; cbn [List.map]; [constructor|]. apply Forall_cons in Hl as [H1 H2].
    constructor; [by apply IH|by apply IHl].
  - inversion_clear Hx as [| | | | |? Hn Hk Hp].
    set (d' := List.map (λ kv : string * json, (kv.1, sort_keys kv.2)) d).
    assert (d'.*1 = d.*1) as E.
    { clear. unfold d'. induction d as [|[k v] d IHd]; [done|]. simpl. by f_equal. }
    assert (Forall plain d'.*2) as Hp'.
    { clear -IH Hp. unfold d'. induction d as [|[k v] d IHd]; [constructor|]. cbn in Hp.
      apply Forall_cons in Hp as [H1 H2]. cbn. constructor; [by apply IH|by apply IHd]. }
    clearbody d'. constructor.
    + by rewrite key_perm, E.
    + by rewrite key_perm, E.
    + by rewrite merge_sort_Permutation.
Qed.

Lemma loads_dumps x : plain x → loads (dumps x) = Some (sort_keys x).
Proof.
  intros Hx%sort_keys_plain. unfold loads, dumps. rewrite chars_text_of.
  destruct (reads (S (length (encode (sort_keys x))))) as (Hv & _ & _).
  specialize (Hv (sort_keys x) [] Hx). rewrite app_nil_r in Hv.
  pose proof (skip_ws_encode (sort_keys x) [] Hx) as Hs. rewrite app_nil_r in Hs. rewrite Hs.
  rewrite Hv by (done || lia). done.
Qed.

(** Sorting the keys does not change what [get] finds. *)
Lemma dict_lookup_perm k d d' : NoDup d.*1 → d ≡ₚ d' → dict_lookup k d = dict_lookup k d'.
Proof.
  intros Hn Hp. induction Hp as [|[k1 v1] l1 l2 _ IH|[k1 v1] [k2 v2] l|l1 l2 l3 H1 IH1 H2 IH2]; cbn in *.
  - done.
  - apply NoDup_cons in Hn as [_ Hn]. by rewrite IH.
  - apply NoDup_cons in Hn as [Hn _]. destruct (decide (k1 = k)) as [->|], (decide (k2 = k)) as [->|]; try done.
    destruct Hn. left.
  - rewrite IH1 by done. apply IH2. by rewrite <- H1.
Qed.
End roundtrip.

(** ** A dumped text is ASCII *)

Definition ascii_char (c : Ascii.ascii) : Prop := (Z.of_nat (Ascii.nat_of_ascii c) <? 128) = true.

Lemma hex_digit_ascii n : ascii_char (Sha256.hex_digit (n mod 16)).
Proof.
  assert (0 <= n mod 16 < 16) as Hn by (apply Z.mod_pos_bound; lia).
  by destruct (hex_digit_char (n mod 16) Hn) as [_ ?].
Qed.
Lemma escape_ascii n : Forall ascii_char (escape_char n).
Proof.
  assert (∀ n, Forall ascii_char (unicode_escape n)) as Hu.
  { intros m. unfold unicode_escape, esc, hex4. cbn [app].
    repeat (constructor; [first [done|apply hex_digit_ascii]|]). constructor. }
  unfold escape_char.
  repeat match goal with |- context [if ?a =? ?b then _ else _] => destruct (a =? b); [by repeat constructor|] end.
  destruct ((32 <=? n) && (n <=? 126)) eqn:E.
  { rewrite andb_true_iff, !Z.leb_le in E. constructor; [|constructor]. unfold ascii_char, byte_char.
    rewrite Ascii.nat_ascii_embedding by lia. rewrite Z2Nat.id by lia. apply Z.ltb_lt. lia. }
  destruct (n <? 65536); [apply Hu|]. apply Forall_app. split; apply Hu.
Qed.
Lemma dump_string_ascii s : Forall ascii_char (dump_string s).
Proof.
  constructor; [done|]. apply Forall_app. split; [|by repeat constructor].
  induction (code_points (bytes_of s)) as [|n ns IH]; [constructor|].
  rewrite bind_cons. apply Forall_app. split; [apply escape_ascii|done].
Qed.
Lemma dump_int_ascii n : Forall ascii_char (dump_int n).
Proof.
  assert (∀ m, 0 <= m → Forall ascii_char (chars (pretty m))) as Hp.
  { intros m Hm. eapply Forall_impl; [by apply pretty_nat_chars|]. unfold numeral_char, ascii_char. naive_solver. }
  unfold dump_int. destruct (n <? 0) eqn:E; [apply Z.ltb_lt in E|apply Z.ltb_ge in E].
  - constructor; [done|]. apply Hp. lia.
  - by apply Hp.
Qed.
Lemma commas_ascii ws : Forall (Forall ascii_char) ws → Forall ascii_char (commas ws).
Proof.
  induction 1 as [|w ws Hw _ IH]; [constructor|]. rewrite commas_cons. apply Forall_app. split; [done|].
  destruct ws; [constructor|]. by repeat (constructor; [done|]).
Qed.
Lemma encode_ascii x : plain x → Forall ascii_char (encode x).
Proof.
  revert x. fix IH 1. intros x Hx. destruct x as [|b|n|r|s|l|d]; cbn [encode].
  - by repeat constructor.
  - destruct b; by repeat constructor.
  - apply dump_int_ascii.
  - inversion Hx.
  - apply dump_string_ascii.
  - inversion_clear Hx as [| | | |? Hl|]. constructor; [done|]. apply Forall_app. split; [|by repeat constructor].
    apply commas_ascii. clear -IH Hl. induction l as [|y l IHl]; cbn [List.map]; [constructor|].
    apply Forall_cons in Hl as [H1 H2]. constructor; [by apply IH|by apply IHl].
  - inversion_clear Hx as [| | | | |? _ _ Hp]. constructor; [done|]. apply Forall_app. split; [|by repeat constructor].
    apply commas_ascii. clear -IH Hp. induction d as [|[k v] d IHd]; cbn [List.map]; [constructor|].
    cbn in Hp. apply Forall_cons in Hp as [H1 H2]. constructor; [|by apply IHd]. cbn [fst snd].
    unfold dump_member. apply Forall_app. split; [apply dump_string_ascii|].
    constructor; [done|]. constructor; [done|]. by apply IH.
Qed.
Lemma dumps_ascii x : plain x → is_ascii (dumps x) = true.
Proof.
  intros Hx%sort_keys_plain. apply is_ascii_Forall. unfold dumps. rewrite chars_text_of. by apply encode_ascii.
Qed.
