(* ===== verification/Url.v ===== *)
(** * URLs

    What the forward-auth code uses of Python's urllib.parse: [urlsplit] with
    its [hostname] and [port], [quote] and [parse_qsl].  Texts are sequences
    of UTF-8 bytes; a letter changes its case in the ASCII range only. *)

From stdpp Require Import strings list.
From S2P Require Import Prelude Sha256 Tokens TokenProofs PasswordStrength Json Credentials.
#[local] Open Scope Z_scope.

(** [s.partition(c)], [s.rpartition(c)[2]] and [s.rstrip(c)] on letters. *)
Fixpoint cut (c : Ascii.ascii) (l : list Ascii.ascii) : option (list Ascii.ascii * list Ascii.ascii) :=
  match l with
  | [] => None
  | x :: l => if decide (x = c) then Some ([], l) else '(w, rest) ← cut c l; Some (x :: w, rest)
  end.
Definition before (c : Ascii.ascii) (l : list Ascii.ascii) : list Ascii.ascii :=
  match cut c l with Some (w, _) => w | None => l end.
Definition after (c : Ascii.ascii) (l : list Ascii.ascii) : list Ascii.ascii :=
  match cut c l with Some (_, rest) => rest | None => [] end.
Definition after_last_char (c : Ascii.ascii) (l : list Ascii.ascii) : list Ascii.ascii :=
  default [] (last (split_on c l)).
Fixpoint drop_char (c : Ascii.ascii) (l : list Ascii.ascii) : list Ascii.ascii :=
  match l with
  | x :: l' => if decide (x = c) then drop_char c l' else l
  | [] => []
  end.
Definition rstrip_char (c : Ascii.ascii) (s : string) : string := text_of (rev (drop_char c (rev (chars s)))).

Definition dot_char : Ascii.ascii := char 46.
Definition colon_char : Ascii.ascii := char 58.
Definition at_char : Ascii.ascii := char 64.
Definition open_bracket : Ascii.ascii := char 91.
Definition close_bracket : Ascii.ascii := char 93.

(** ** urlsplit

    [ipaddress.ip_address] on what stands between brackets, and the test that
    NFKC normalisation adds no delimiter to a location outside ASCII. *)

Class UrlChecks := {
  bracketed_host_ok : string → bool;
  nfkc_ok : string → bool;
}.

Record split_url := mk_split { us_scheme : string; us_netloc : string }.

Definition value_error_url {A} : outcome A := Raise (PythonError "ValueError").

Fixpoint lstrip_control (l : list Ascii.ascii) : list Ascii.ascii :=
  match l with
  | c :: l' => if (Ascii.nat_of_ascii c <=? 32)%nat then lstrip_control l' else l
  | [] => []
  end.
Definition unsafe_byte (c : Ascii.ascii) : bool := bool_decide (Ascii.nat_of_ascii c ∈ [9; 10; 13]%nat).

Definition split_scheme (l : list Ascii.ascii) : list Ascii.ascii * list Ascii.ascii :=
  match cut colon_char l with
  | Some (c :: w, rest) =>
      if is_letter c && forallb scheme_char (c :: w) then (lower <$> (c :: w), rest) else ([], l)
  | _ => ([], l)
  end.
Definition netloc_end (c : Ascii.ascii) : bool := bool_decide (c ∈ chars "/?#").
Fixpoint span_netloc (l : list Ascii.ascii) : list Ascii.ascii :=
  match l with
  | c :: l' => if netloc_end c then [] else c :: span_netloc l'
  | [] => []
  end.

Section urlsplit.
Context `{UrlChecks}.

Definition bracketed_netloc_ok (netloc : list Ascii.ascii) : bool :=
  let host_and_port := after_last_char at_char netloc in
  match cut open_bracket host_and_port with
  | Some (before_bracket, bracketed) =>
      let port := after close_bracket bracketed in
      bool_decide (before_bracket = []) &&
      bool_decide (port = [] ∨ head port = Some colon_char) &&
      bracketed_host_ok (text_of (before close_bracket bracketed))
  | None => bracketed_host_ok (text_of (before colon_char host_and_port))
  end.

Definition urlsplit (url : string) : outcome split_url :=
  let l := filter (λ c, unsafe_byte c = false) (lstrip_control (chars url)) in
  let '(scheme, rest) := split_scheme l in
  let netloc := if decide (take 2 rest = [slash; slash]) then span_netloc (drop 2 rest) else [] in
  let opens := bool_decide (open_bracket ∈ netloc) in
  let closes := bool_decide (close_bracket ∈ netloc) in
  if xorb opens closes then value_error_url
  else if opens && negb (bracketed_netloc_ok netloc) then value_error_url
  else if negb (is_ascii (text_of netloc)) && negb (nfkc_ok (text_of netloc)) then value_error_url
  else Ok (mk_split (text_of scheme) (text_of netloc)).

Definition hostinfo (p : split_url) : list Ascii.ascii * list Ascii.ascii :=
  let host := after_last_char at_char (chars (us_netloc p)) in
  match cut open_bracket host with
  | Some (_, bracketed) => (before close_bracket bracketed, after colon_char (after close_bracket bracketed))
  | None => (before colon_char host, after colon_char host)
  end.
(** What follows a [%] keeps its case. *)
Definition hostname (p : split_url) : option string :=
  match (hostinfo p).1 with
  | [] => None
  | h => match cut (char 37) h with
         | Some (w, zone) => Some (text_of ((lower <$> w) ++ char 37 :: zone))
         | None => Some (text_of (lower <$> h))
         end
  end.
Definition port (p : split_url) : outcome (option Z) :=
  match (hostinfo p).2 with
  | [] => Ok None
  | l => if forallb (λ c, bool_decide (is_Some (digit_value c))) l then
           let n := fold_left (λ acc c, acc * 10 + default 0 (digit_value c)) l 0 in
           if n <=? 65535 then Ok (Some n) else value_error_url
         else value_error_url
  end.
End urlsplit.

(** ** quote and parse_qsl *)

Definition unreserved (c : Ascii.ascii) : bool :=
  is_letter c || bool_decide (is_Some (digit_value c)) || bool_decide (c ∈ chars "_.-~").
Definition percent (c : Ascii.ascii) : list Ascii.ascii :=
  let n := Z.of_nat (Ascii.nat_of_ascii c) in
  [char 37; upper (Sha256.hex_digit (n / 16)); upper (Sha256.hex_digit (n mod 16))].
Definition quote_char_safe (c : Ascii.ascii) : list Ascii.ascii := if unreserved c then [c] else percent c.
(** [quote(s, safe='')]. *)
Definition quote (s : string) : string := text_of (chars s ≫= quote_char_safe).

Definition hex_of (c : Ascii.ascii) : option Z :=
  let n := Z.of_nat (Ascii.nat_of_ascii (lower c)) in
  if (48 <=? n) && (n <=? 57) then Some (n - 48)
  else if (97 <=? n) && (n <=? 102) then Some (n - 87)
  else None.
(** [unquote(s.replace("+", " "))], as bytes. *)
Fixpoint unquote_plus (l : list Ascii.ascii) : list Ascii.ascii :=
  match l with
  | [] => []
  | c :: l1 =>
      if decide (c = char 37) then
        match l1 with
        | a :: b :: l2 =>
            match hex_of a, hex_of b with
            | Some x, Some y => byte_char (x * 16 + y) :: unquote_plus l2
            | _, _ => c :: unquote_plus l1
            end
        | _ => c :: unquote_plus l1
        end
      else (if decide (c = char 43) then char 32 else c) :: unquote_plus l1
  end.
Definition amp : Ascii.ascii := char 38.
Definition equals : Ascii.ascii := char 61.
(** [parse_qsl(query, keep_blank_values=True)]. *)
Definition parse_pair (w : list Ascii.ascii) : string * string :=
  (text_of (unquote_plus (before equals w)), text_of (unquote_plus (after equals w))).
Definition parse_qsl (query : list Ascii.ascii) : list (string * string) :=
  parse_pair <$> filter (λ w, w ≠ []) (split_on amp query).

Definition question : Ascii.ascii := char 63.
(** The path and the parameters of a relative reference. *)
Definition url_path (target : string) : string := text_of (before question (chars target)).
Definition url_params (target : string) : list (string * string) := parse_qsl (after question (chars target)).
Fixpoint param (k : string) (l : list (string * string)) : option string :=
  match l with
  | [] => None
  | (k', v) :: l => match param k l with Some v' => Some v' | None => if decide (k = k') then Some v else None end
  end.

Section examples.
#[local] Instance lenient : UrlChecks := {| bracketed_host_ok := λ _, true; nfkc_ok := λ _, true |}.
Definition split_host (url : string) : outcome (option string) :=
  p ← urlsplit url; Ok (hostname p).

Example urlsplit_ex :
  split_host "HTTPS://ann@Grafana.ACME.com:8443/x?y" = Ok (Some "grafana.acme.com") ∧
  (urlsplit "HTTPS://ann@Grafana.ACME.com:8443/x?y" ≫= port) = Ok (Some 8443) ∧
  (urlsplit "https://h:99999/" ≫= port) = value_error_url ∧
  split_host "https://[::1" = value_error_url ∧ split_host "https://[::1]:80" = Ok (Some "::1") ∧
  split_host "/static/app.css" = Ok None ∧ split_host "https:///x" = Ok None.
Proof. split_and!; vm_compute; reflexivity. Qed.

Example quote_ex : quote "/a b?c=d&e=100%" = "%2Fa%20b%3Fc%3Dd%26e%3D100%25" ∧
  url_params "/x?rd=%2Fa+b&n=&&m" = [("rd", "/a b"); ("n", ""); ("m", "")].
Proof. split_and!; vm_compute; reflexivity. Qed.
End examples.

(** What a computation shows of every character. *)
Lemma every_char (P : Ascii.ascii → bool) c :
  forallb (λ n, P (Ascii.ascii_of_nat n)) (seq 0 256) = true → P c = true.
Proof.
  rewrite forallb_forall. intros Hall. specialize (Hall (Ascii.nat_of_ascii c)).
  rewrite Ascii.ascii_nat_embedding in Hall. apply Hall, list_elem_of_In, elem_of_seq.
  pose proof (Ascii.nat_ascii_bounded c). lia.
Qed.

(** ** A quoted text is read back *)

Lemma quoted_char c l : unquote_plus (quote_char_safe c ++ l) = c :: unquote_plus l.
Proof.
  assert (∀ c, (c = char 37 ∨ c = char 43) → unreserved c = false) as Hres by by intros ? [->| ->].
  unfold quote_char_safe. destruct (unreserved c) eqn:E.
  - cbn [app unquote_plus]. rewrite decide_False by (intros ->; by rewrite Hres in E; auto).
    rewrite decide_False by (intros ->; by rewrite Hres in E; auto). done.
  - unfold percent. cbn [app unquote_plus]. rewrite decide_True by done.
    pose proof (every_char (λ c, let z := Z.of_nat (Ascii.nat_of_ascii c) in
      bool_decide (hex_of (upper (Sha256.hex_digit (z / 16))) = Some (z / 16)) &&
      bool_decide (hex_of (upper (Sha256.hex_digit (z mod 16))) = Some (z mod 16)) &&
      bool_decide (byte_char (z / 16 * 16 + z mod 16) = c)) c) as Hall.
    specialize (Hall ltac:(vm_compute; reflexivity)). cbv zeta beta in Hall.
    rewrite !andb_true_iff, !bool_decide_eq_true in Hall. by destruct Hall as [[-> ->] ->].
Qed.
Lemma unquote_quote s : text_of (unquote_plus (chars (quote s))) = s.
Proof.
  unfold quote. rewrite chars_text_of. rewrite <- (text_of_chars s) at 2. f_equal.
  induction (chars s) as [|c l IH]; [done|]. rewrite bind_cons, quoted_char. by rewrite IH.
Qed.

(** The letters of a quoted text are the unreserved ones and [%]. *)
Definition quoted_letter (c : Ascii.ascii) : Prop := unreserved c = true ∨ c = char 37.
Lemma quote_letters s : Forall quoted_letter (chars (quote s)).
Proof.
  unfold quote. rewrite chars_text_of. induction (chars s) as [|c l IH]; [constructor|].
  rewrite bind_cons. apply Forall_app. split; [|done]. unfold quote_char_safe.
  destruct (unreserved c) eqn:E; [constructor; [by left|constructor]|].
  pose proof (every_char (λ c, let z := Z.of_nat (Ascii.nat_of_ascii c) in
    unreserved (upper (Sha256.hex_digit (z / 16))) && unreserved (upper (Sha256.hex_digit (z mod 16)))) c) as Hall.
  specialize (Hall ltac:(vm_compute; reflexivity)). cbv zeta beta in Hall. apply andb_true_iff in Hall as [H1 H2].
  constructor; [by right|]. constructor; [by left|]. constructor; [by left|constructor].
Qed.
Lemma quoted_ne c n : quoted_letter c → unreserved (char n) = false → n ≠ 37%nat → (n < 256)%nat → c ≠ char n.
Proof.
  intros [Hc| ->] Hn Hne Hlt; [by intros ->; rewrite Hn in Hc|]. unfold char.
  intros E%(f_equal Ascii.nat_of_ascii). rewrite !Ascii.nat_ascii_embedding in E by lia. lia.
Qed.

(** ** A query that was written is read back *)

Fixpoint query (l : list (string * string)) : list Ascii.ascii :=
  match l with
  | [] => []
  | [(k, v)] => chars k ++ equals :: chars (quote v)
  | (k, v) :: l => chars k ++ equals :: chars (quote v) ++ amp :: query l
  end.
Definition plain_key (k : string) : Prop := Forall (λ c, unreserved c = true) (chars k).

Lemma cut_at c w rest : c ∉ w → cut c (w ++ c :: rest) = Some (w, rest).
Proof.
  induction w as [|x w IH]; simpl; [by rewrite decide_True|].
  intros [Hx Hw]%not_elem_of_cons. rewrite decide_False by done. by rewrite IH.
Qed.
Lemma cut_none c w : c ∉ w → cut c w = None.
Proof.
  induction w as [|x w IH]; simpl; [done|].
  intros [Hx Hw]%not_elem_of_cons. rewrite decide_False by done. by rewrite IH.
Qed.
Lemma unquote_plain l : Forall (λ c, unreserved c = true) l → unquote_plus l = l.
Proof.
  induction 1 as [|c l Hc _ IH]; [done|].
  assert (quote_char_safe c = [c]) as Eq by (unfold quote_char_safe; by rewrite Hc).
  pose proof (quoted_char c l) as Hq. rewrite Eq in Hq. cbn [app] in Hq. by rewrite Hq, IH.
Qed.
Lemma plain_ne k n : plain_key k → unreserved (char n) = false → char n ∉ chars k.
Proof. intros Hk Hn Hin. unfold plain_key in Hk. rewrite Forall_forall in Hk. by rewrite Hk in Hn. Qed.
Lemma quote_ne v n : unreserved (char n) = false → n ≠ 37%nat → (n < 256)%nat → char n ∉ chars (quote v).
Proof.
  intros Hn Hne Hlt Hin. pose proof (quote_letters v) as Hq. rewrite Forall_forall in Hq.
  by apply (quoted_ne (char n) n (Hq _ Hin)).
Qed.

Lemma parse_written k v : plain_key k → parse_pair (chars k ++ equals :: chars (quote v)) = (k, v).
Proof.
  intros Hk. unfold parse_pair, before, after. rewrite cut_at by (by apply plain_ne).
  rewrite unquote_plain by done. by rewrite text_of_chars, unquote_quote.
Qed.
Lemma parse_query l : Forall (λ kv : string * string, plain_key kv.1) l → parse_qsl (query l) = l.
Proof.
  assert (∀ k v, plain_key k → amp ∉ chars k ++ equals :: chars (quote v)) as Hamp.
  { intros k v Hk. apply not_elem_of_app. split; [by apply plain_ne|].
    apply not_elem_of_cons. split; [done|]. by apply quote_ne; try lia. }
  assert (∀ k v, chars k ++ equals :: chars (quote v) ≠ []) as Hne by (intros k v; by destruct (chars k)).
  induction 1 as [|[k v] l Hk _ IH]; [done|]. destruct l as [|kv l].
  - cbn [query]. unfold parse_qsl. rewrite split_on_last by (by apply Hamp).
    rewrite filter_cons_True by apply Hne. by rewrite filter_nil, fmap_cons, parse_written.
  - change (query ((k, v) :: kv :: l)) with (chars k ++ equals :: chars (quote v) ++ amp :: query (kv :: l)).
    unfold parse_qsl. rewrite app_comm_cons, app_assoc.
    rewrite split_on_field by (by apply Hamp). rewrite filter_cons_True by apply Hne.
    rewrite fmap_cons, parse_written by done. f_equal. exact IH.
Qed.
Lemma url_params_written path l : question ∉ path → Forall (λ kv : string * string, plain_key kv.1) l →
  url_params (text_of (path ++ question :: query l)) = l ∧ url_path (text_of (path ++ question :: query l)) = text_of path.
Proof.
  intros Hp Hl. unfold url_params, url_path, before, after. rewrite chars_text_of, cut_at by done.
  by rewrite parse_query.
Qed.
