(* ===== verification/PortalDb.v ===== *)
(** * Protected domains, proxy apps and nonces

    The statements of app/database/protected_domains.py, proxy_apps.py,
    forward_auth_nonces.py, and the proxy-app half of
    sp_group_assignments.py, with the constraints of migrations 0046 to 0048.
    These tables are read before it is known which tenant a request belongs
    to, so [portal] holds every tenant: its directory, and the rows of all.
    Of a proxy app, the name and the two flags the access resolver shares with
    the other kinds of app are its row of [apps].  Times are microseconds. *)

From stdpp Require Import gmap strings.
From S2P Require Import Prelude GroupDb OAuthDb AppAccess MailDb Credentials Url.
#[local] Open Scope Z_scope.

Inductive verification_status := pending | verified | failed.
#[export] Instance verification_status_eq_dec : EqDecision verification_status.
Proof. solve_decision. Defined.

Record protected_row := mk_protected {
  pr_tenant : uuid;
  pr_domain : string;
  pr_portal_host : string;
  pr_status : verification_status;
  pr_token : option string;
  pr_verified_at : option Z;
  pr_enabled : bool;
  pr_created_by : option uuid;
  pr_created_at : Z;
}.
(** The JSON columns are what [_validate_public_paths] and
    [_validate_header_config] return: a list of texts, and an object of
    booleans. *)
Record proxy_row := mk_proxy_row {
  px_tenant : uuid;
  px_domain_id : uuid;
  px_description : option string;
  px_external_url : string;
  px_public_paths : list string;
  px_header_config : list (string * bool);
  px_created_by : option uuid;
  px_created_at : Z;
  px_updated_at : Z;
}.
Record nonce_row := mk_nonce { no_tenant : uuid; no_domain : string; no_expires_at : Z }.

Record portal := mk_portal {
  po_tenants : gmap uuid mail;
  po_subdomains : gmap uuid string;          (* tenants.subdomain *)
  po_domains : gmap uuid protected_row;
  po_proxies : gmap uuid proxy_row;
  po_nonces : gmap string nonce_row;
  po_draws : nat;
  po_clock : Z;
}.

Section setters.
Implicit Types s : portal.
Definition set_tenants f s := mk_portal (f (po_tenants s)) (po_subdomains s) (po_domains s)
  (po_proxies s) (po_nonces s) (po_draws s) (po_clock s).
Definition set_protected f s := mk_portal (po_tenants s) (po_subdomains s) (f (po_domains s))
  (po_proxies s) (po_nonces s) (po_draws s) (po_clock s).
Definition set_proxies f s := mk_portal (po_tenants s) (po_subdomains s) (po_domains s)
  (f (po_proxies s)) (po_nonces s) (po_draws s) (po_clock s).
Definition set_nonces f s := mk_portal (po_tenants s) (po_subdomains s) (po_domains s)
  (po_proxies s) (f (po_nonces s)) (po_draws s) (po_clock s).
Definition set_portal_draws f s := mk_portal (po_tenants s) (po_subdomains s) (po_domains s)
  (po_proxies s) (po_nonces s) (f (po_draws s)) (po_clock s).
Definition set_portal_clock f s := mk_portal (po_tenants s) (po_subdomains s) (po_domains s)
  (po_proxies s) (po_nonces s) (po_draws s) (f (po_clock s)).
Definition set_apps (f : gmap (app_kind * uuid) app_row → gmap (app_kind * uuid) app_row) (d : db) : db :=
  mk_db (groups d) (relationships d) (lineage d) (memberships d) (users d) (providers d)
    (f (apps d)) (assignments d) (events d) (activity d).
Definition with_dir (f : db → db) (m : mail) : mail := set_tenant (set_dir f) m.
End setters.

(** The ids the database draws; [secrets.token_hex]: the [n]th draw, of so
    many bytes. *)
Class PortalIds := portal_id : portal → uuid.
Class PortalHex := portal_hex : nat → nat → string.

(** A call of one tenant's code, and what it reads. *)
Definition of_tenant {A} (t : uuid) (m : M mail A) : M portal A := λ s,
  match po_tenants s !! t with
  | Some x => let '(r, x') := m x in (r, set_tenants (insert t x') s)
  | None => (Raise (IntegrityError "tenant_id_fkey"), s)
  end.
Definition tenant_dir (s : portal) (t : uuid) : option db := ma_dir <$> po_tenants s !! t.
(** [log_event] and [track_activity] of one tenant. *)
Definition po_log (t : uuid) (actor : option uuid) (artifact_type : string) (i : uuid) (name : string)
    (md : list (string * meta)) : M portal () :=
  of_tenant t (in_groups (log_event actor artifact_type i name md)).
Definition po_track (t u : uuid) : M portal () := of_tenant t (in_groups (track_activity u)).

Definition draw_hex `{PortalHex} (bytes : nat) : M portal string :=
  update (λ s, (portal_hex bytes (po_draws s), set_portal_draws S s)).

Section portal_db.
Context `{Collation} `{PortalIds}.
Implicit Types (s : portal) (t : uuid).

(** ** database/tenants.py *)

Definition get_tenant_by_id s t : option string := po_subdomains s !! t.

(** ** database/protected_domains.py *)

Definition newest_first (x y : uuid * protected_row) : Prop := pr_created_at y.2 <= pr_created_at x.2.
#[export] Instance newest_first_dec : RelDecision newest_first.
Proof. intros x y. unfold newest_first. apply _. Defined.
Definition db_list_protected_domains s t : list (uuid * protected_row) :=
  merge_sort newest_first (filter (λ kv : uuid * protected_row, pr_tenant kv.2 = t) (map_to_list (po_domains s))).
Definition db_get_protected_domain s t (i : uuid) : option protected_row :=
  r ← po_domains s !! i; if decide (pr_tenant r = t) then Some r else None.
Definition get_protected_domain_by_domain s t (domain : string) : option (uuid * protected_row) :=
  find_row (λ r, pr_tenant r = t ∧ pr_domain r = domain) (po_domains s).
(** With the UNSCOPED sentinel: the rows of every tenant. *)
Definition get_protected_domain_by_portal_host s (portal_host : string) : option (uuid * protected_row) :=
  find_row (λ r, pr_portal_host r = portal_host) (po_domains s).

Definition create_protected_domain t (domain portal_host : string) (created_by : uuid) (token : string) :
    M portal (uuid * protected_row) :=
  s ← gets id;
  let i := portal_id s in
  let r := mk_protected t domain portal_host pending (Some token) None true (Some created_by) (po_clock s) in
  _ ← raise_if (bool_decide (po_tenants s !! t = None)) (IntegrityError "protected_domains_tenant_id_fkey");
  _ ← raise_if (bool_decide (253 < py_len domain)%Z) (IntegrityError "chk_protected_domains_domain_length");
  _ ← raise_if (bool_decide (253 < py_len portal_host)%Z)
        (IntegrityError "chk_protected_domains_portal_host_length");
  _ ← raise_if (bool_decide (100 < py_len token)%Z)
        (IntegrityError "chk_protected_domains_verification_token_length");
  _ ← raise_if (bool_decide (is_Some (po_domains s !! i))) (IntegrityError "protected_domains_pkey");
  _ ← raise_if (bool_decide (is_Some (get_protected_domain_by_domain s t domain)))
        (IntegrityError "uq_protected_domains_tenant_domain");
  _ ← raise_if (bool_decide (is_Some (get_protected_domain_by_portal_host s portal_host)))
        (IntegrityError "uq_protected_domains_portal_host");
  _ ← modify (set_protected (insert i r));
  mret (i, r).

(** The two updates the service makes. *)
Definition with_verification (st : verification_status) (token : option string) (at_ : option Z) (r : protected_row) :=
  mk_protected (pr_tenant r) (pr_domain r) (pr_portal_host r) st token at_ (pr_enabled r) (pr_created_by r)
    (pr_created_at r).
Definition update_protected_domain t (i : uuid) (f : protected_row → protected_row) : M portal (option protected_row) :=
  update (λ s, match db_get_protected_domain s t i with
               | Some r => (Some (f r), set_protected (insert i (f r)) s)
               | None => (None, s)
               end).

(** The cascades: the apps of a domain, the grants of an app. *)
Definition forget_app (i : uuid) (d : db) : db :=
  set_assignments (filter (λ a : app * uuid, a.1 ≠ (proxy_app, i))) (set_apps (delete (proxy_app, i)) d).
Definition drop_proxy (i : uuid) s : portal :=
  set_tenants (fmap (with_dir (forget_app i))) (set_proxies (delete i) s).
Definition apps_of_domain s (i : uuid) : list uuid :=
  fst <$> filter (λ kv : uuid * proxy_row, px_domain_id kv.2 = i) (map_to_list (po_proxies s)).
Definition db_delete_protected_domain t (i : uuid) : M portal nat :=
  update (λ s, match db_get_protected_domain s t i with
               | Some _ => (1%nat, set_protected (delete i) (foldr drop_proxy s (apps_of_domain s i)))
               | None => (0%nat, s)
               end).

(** ** database/proxy_apps.py *)

Record proxy := mk_proxy { pa_id : uuid; pa_row : proxy_row; pa_app : app_row }.

Definition proxy_of s t (i : uuid) (r : proxy_row) : option proxy :=
  d ← tenant_dir s t;
  a ← apps d !! (proxy_app, i);
  if decide (px_tenant r = t) then Some (mk_proxy i r a) else None.
Definition tenant_proxies s t : list proxy :=
  omap (λ kv : uuid * proxy_row, proxy_of s t kv.1 kv.2) (map_to_list (po_proxies s)).

Definition newest_app_first (x y : proxy) : Prop := px_created_at (pa_row y) <= px_created_at (pa_row x).
#[export] Instance newest_app_first_dec : RelDecision newest_app_first.
Proof. intros x y. unfold newest_app_first. apply _. Defined.
Definition oldest_app_first (x y : proxy) : Prop := px_created_at (pa_row x) <= px_created_at (pa_row y).
#[export] Instance oldest_app_first_dec : RelDecision oldest_app_first.
Proof. intros x y. unfold oldest_app_first. apply _. Defined.

Definition db_list_proxy_apps s t : list proxy := merge_sort newest_app_first (tenant_proxies s t).
Definition list_proxy_apps_for_domain s t (domain_id : uuid) : list proxy :=
  order_by_name (λ p, app_name (pa_app p))
    (filter (λ p, px_domain_id (pa_row p) = domain_id) (tenant_proxies s t)).
Definition db_get_proxy_app s t (i : uuid) : option proxy := r ← po_proxies s !! i; proxy_of s t i r.

(** [external_url = 'https://h' or external_url like 'https://h/%' or
    external_url like 'https://h:%'], the wildcards of [h] escaped. *)
Definition fronts (external_url host : string) : bool :=
  let origin := chars ("https://" +:+ host) in
  bool_decide (chars external_url = origin) ||
  bool_decide (origin ++ [slash] `prefix_of` chars external_url) ||
  bool_decide (origin ++ [colon_char] `prefix_of` chars external_url).
Definition get_enabled_proxy_app_for_domain_and_host s t (domain_id : uuid) (external_host : string) : option proxy :=
  head (merge_sort oldest_app_first
    (filter (λ p, px_domain_id (pa_row p) = domain_id ∧ app_enabled (pa_app p) = true ∧
                  fronts (px_external_url (pa_row p)) external_host = true) (tenant_proxies s t))).

Definition create_proxy_app_row t (domain_id : uuid) (name external_url : string) (created_by : uuid)
    (description : option string) (public_paths : list string) (header_config : list (string * bool))
    (available_to_all enabled : bool) : M portal proxy :=
  s ← gets id;
  let i := portal_id s in
  let r := mk_proxy_row t domain_id description external_url public_paths header_config (Some created_by)
             (po_clock s) (po_clock s) in
  let a := mk_app name available_to_all enabled false in
  _ ← raise_if (bool_decide (po_domains s !! domain_id = None)) (IntegrityError "proxy_apps_protected_domain_id_fkey");
  _ ← raise_if (bool_decide (255 < py_len name)%Z) (IntegrityError "chk_proxy_apps_name_length");
  _ ← raise_if (bool_decide (2000 < py_len (default "" description))%Z)
        (IntegrityError "chk_proxy_apps_description_length");
  _ ← raise_if (bool_decide (2048 < py_len external_url)%Z)
        (IntegrityError "chk_proxy_apps_external_url_length");
  _ ← raise_if (bool_decide (is_Some (po_proxies s !! i))) (IntegrityError "proxy_apps_pkey");
  _ ← of_tenant t (in_groups (modify (set_apps (insert (proxy_app, i) a))));
  _ ← modify (set_proxies (insert i r));
  mret (mk_proxy i r a).

(** The columns an update sets. *)
Record proxy_updates := mk_proxy_updates {
  pu_name : option string;
  pu_description : option (option string);
  pu_external_url : option string;
  pu_public_paths : option (list string);
  pu_header_config : option (list (string * bool));
  pu_available_to_all : option bool;
  pu_enabled : option bool;
}.
Definition updated_row (now : Z) (f : proxy_updates) (r : proxy_row) : proxy_row :=
  mk_proxy_row (px_tenant r) (px_domain_id r) (default (px_description r) (pu_description f))
    (default (px_external_url r) (pu_external_url f)) (default (px_public_paths r) (pu_public_paths f))
    (default (px_header_config r) (pu_header_config f)) (px_created_by r) (px_created_at r) now.
Definition updated_app (f : proxy_updates) (a : app_row) : app_row :=
  mk_app (default (app_name a) (pu_name f)) (default (app_available_to_all a) (pu_available_to_all f))
    (default (app_enabled a) (pu_enabled f)) (app_trust_established a).
Definition no_updates (f : proxy_updates) : bool :=
  match f with
  | mk_proxy_updates None None None None None None None => true
  | _ => false
  end.
Definition update_proxy_app_row t (i : uuid) (f : proxy_updates) : M portal (option proxy) :=
  s ← gets id;
  match db_get_proxy_app s t i with
  | None => mret None
  | Some p =>
      if no_updates f then mret (Some p)
      else
        let r := updated_row (po_clock s) f (pa_row p) in
        let a := updated_app f (pa_app p) in
        _ ← raise_if (bool_decide (255 < py_len (app_name a))%Z) (IntegrityError "chk_proxy_apps_name_length");
        _ ← raise_if (bool_decide (2000 < py_len (default "" (px_description r)))%Z)
              (IntegrityError "chk_proxy_apps_description_length");
        _ ← raise_if (bool_decide (2048 < py_len (px_external_url r))%Z)
              (IntegrityError "chk_proxy_apps_external_url_length");
        _ ← of_tenant t (in_groups (modify (set_apps (insert (proxy_app, i) a))));
        _ ← modify (set_proxies (insert i r));
        mret (Some (mk_proxy i r a))
  end.
Definition delete_proxy_app_row t (i : uuid) : M portal nat :=
  update (λ s, match db_get_proxy_app s t i with
               | Some _ => (1%nat, drop_proxy i s)
               | None => (0%nat, s)
               end).

(** ** database/sp_group_assignments.py *)

Definition create_proxy_app_assignment (i g : uuid) : M db () :=
  d ← gets id;
  _ ← raise_if (bool_decide (((proxy_app, i), g) ∈ assignments d)) (IntegrityError "uq_proxy_app_group_assignment");
  _ ← raise_if (bool_decide (apps d !! (proxy_app, i) = None))
        (IntegrityError "sp_group_assignments_proxy_app_id_fkey");
  _ ← raise_if (bool_decide (groups d !! g = None)) (IntegrityError "sp_group_assignments_group_id_fkey");
  modify (set_assignments (λ A, {[((proxy_app, i), g)]} ∪ A)).
Definition delete_proxy_app_assignment (i g : uuid) : M db nat :=
  update (λ d, ((if decide (((proxy_app, i), g) ∈ assignments d) then 1%nat else 0%nat),
                set_assignments (λ A, A ∖ {[((proxy_app, i), g)]}) d)).
(** The join with [groups], by name. *)
Definition list_assignments_for_proxy_app (d : db) (i : uuid) : list (uuid * group_row) :=
  order_by_name (λ kv : uuid * group_row, g_name kv.2)
    (omap (λ a : app * uuid, g ← groups d !! a.2; Some (a.2, g))
       (filter (λ a : app * uuid, a.1 = (proxy_app, i)) (elements (assignments d)))).

(** ** database/forward_auth_nonces.py *)

Definition create_nonce t (nonce domain : string) (expires_at : Z) : M portal () :=
  s ← gets id;
  _ ← raise_if (bool_decide (po_tenants s !! t = None)) (IntegrityError "forward_auth_nonces_tenant_id_fkey");
  _ ← raise_if (bool_decide (128 < py_len nonce)%Z) (IntegrityError "chk_forward_auth_nonces_nonce_length");
  _ ← raise_if (bool_decide (253 < py_len domain)%Z) (IntegrityError "chk_forward_auth_nonces_domain_length");
  _ ← raise_if (bool_decide (is_Some (po_nonces s !! nonce))) (IntegrityError "forward_auth_nonces_pkey");
  modify (set_nonces (insert nonce (mk_nonce t domain expires_at))).
(** [delete ... where nonce = :nonce and domain = :domain and expires_at > :now returning ...]. *)
Definition consume_nonce (nonce domain : string) (now : Z) : M portal (option nonce_row) :=
  update (λ s, match po_nonces s !! nonce with
               | Some r => if decide (no_domain r = domain ∧ now < no_expires_at r)
                           then (Some r, set_nonces (delete nonce) s) else (None, s)
               | None => (None, s)
               end).
Definition delete_expired_nonces (now : Z) : M portal nat :=
  update (λ s, let live := filter (λ kv : string * nonce_row, now < no_expires_at kv.2) (po_nonces s) in
               ((size (po_nonces s) - size live)%nat, set_nonces (λ _, live) s)).
End portal_db.
