(* ===== verification/PortalAdmin.v ===== *)
(** * Protected domains and proxy apps: management

    app/services/protected_domains.py and app/services/proxy_apps.py.  Every
    call takes the tenant of its requesting user.  What DNS answers is an
    argument of the call that asks; so are the groups of a tenant in the order
    of their creation, which no modelled table holds. *)

From stdpp Require Import gmap strings.
From S2P Require Import Prelude GroupDb GroupService OAuthDb AppAccess MailDb Tokens PasswordStrength Json Credentials Url PortalDb.
#[local] Open Scope Z_scope.

(** ** Hosts *)

Definition _CHALLENGE_PREFIX : string := "_weftid-challenge".
Definition _CHALLENGE_VALUE_PREFIX : string := "weftid-domain-verification=".
Definition _PUBLIC_SUFFIX_DENYLIST : list string := [
  "co.uk"; "org.uk"; "gov.uk"; "ac.uk"; "ltd.uk"; "plc.uk"; "me.uk"; "net.uk"; "sch.uk";
  "com.au"; "net.au"; "org.au"; "edu.au"; "gov.au"; "id.au"; "co.nz"; "net.nz"; "org.nz"; "govt.nz"; "ac.nz";
  "co.za"; "org.za"; "co.jp"; "ne.jp"; "or.jp"; "go.jp"; "ac.jp"; "com.br"; "net.br"; "org.br"; "gov.br";
  "com.mx"; "com.cn"; "net.cn"; "org.cn"; "gov.cn"; "com.sg"; "com.hk"; "co.in"; "net.in"; "org.in"; "gen.in";
  "firm.in"; "co.kr"; "or.kr"; "com.tr"; "com.tw"; "com.ar"; "com.co"].

Definition _normalize_domain_host (value : string) : string :=
  let value := rstrip_char dot_char (lower_string (py_strip value)) in
  match chars value with
  | c :: l => if decide (c = at_char) then text_of l else value
  | [] => value
  end.

Definition host_char (c : Ascii.ascii) : bool := bool_decide (c ∈ chars "abcdefghijklmnopqrstuvwxyz0123456789-.").
Definition invalid {A} (code : string) : outcome A := Raise (ServiceError ValidationError code).
Definition _validate_host (value : string) : outcome () :=
  if decide (value = "") then invalid "invalid_domain"
  else if bool_decide (char 32 ∈ chars value) then invalid "invalid_domain"
  else if bool_decide (dot_char ∉ chars value) then invalid "invalid_domain"
  else if (py_len value <? 3) || (253 <? py_len value) then invalid "invalid_domain_length"
  else if negb (forallb host_char (chars value)) then invalid "invalid_domain"
  else if bool_decide (value ∈ _PUBLIC_SUFFIX_DENYLIST) then invalid "public_suffix_not_allowed"
  else Ok ().

(** [host != domain and not host.endswith("." + domain)], negated. *)
Definition under_domain (host domain : string) : bool :=
  bool_decide (host = domain) || bool_decide (dot_char :: chars domain `suffix_of` chars host).

Definition challenge_record_name (domain : string) : string := _CHALLENGE_PREFIX +:+ "." +:+ domain.
Definition challenge_record_value (token : string) : string := _CHALLENGE_VALUE_PREFIX +:+ token.

Example host_ex : _normalize_domain_host " @Acme-Corp.COM.. " = "acme-corp.com" ∧
  _validate_host "acme-corp.com" = Ok () ∧ _validate_host "co.uk" = invalid "public_suffix_not_allowed" ∧
  _validate_host "localhost" = invalid "invalid_domain" ∧ under_domain "auth.acme.com" "acme.com" = true ∧
  under_domain "authacme.com" "acme.com" = false.
Proof. split_and!; vm_compute; reflexivity. Qed.

(** ** What the calls return *)

Record protected_view := mk_protected_view {
  pv_id : uuid;
  pv_domain : string;
  pv_portal_host : string;
  pv_status : verification_status;
  pv_token : option string;
  pv_record_name : string;
  pv_record_value : option string;
  pv_verified_at : option Z;
  pv_enabled : bool;
  pv_created_at : Z;
  pv_created_by_name : option string;
}.
Record proxy_view := mk_proxy_view {
  xv_proxy : proxy;
  xv_domain : option string;
  xv_created_by_name : option string;
}.
(** ProtectedDomainVerifyResult, without its message. *)
Record verify_result := mk_verify_result { vr_verified : bool; vr_status : verification_status }.

(** ProxyAppCreate and ProxyAppUpdate. *)
Record proxy_create := mk_proxy_create {
  pc_domain_id : uuid;
  pc_name : string;
  pc_external_url : string;
  pc_description : option string;
  pc_public_paths : list string;
  pc_header_config : list (string * bool);
  pc_available_to_all : bool;
  pc_enabled : bool;
}.
Record proxy_update := mk_proxy_update {
  xu_name : option string;
  xu_description : option string;
  xu_external_url : option string;
  xu_public_paths : option (list string);
  xu_header_config : option (list (string * bool));
  xu_available_to_all : option bool;
  xu_enabled : option bool;
}.

(** The groups of a tenant, newest first. *)
Class GroupAges := groups_newest_first : db → list uuid.
Definition GROUPS_PAGE_SIZE : nat := 25.

Section admin.
Context `{Collation} `{PortalIds} `{PortalHex} `{UrlChecks} `{GroupAges}.
Implicit Types (s : portal) (t : uuid) (u : requesting_user).

(** The row of [get_user_by_id] has no column [email]. *)
Definition _created_by_name s t (created_by : option uuid) : option string :=
  i ← created_by;
  m ← po_tenants s !! t;
  r ← get_user_row m i;
  let name := py_strip (ur_first_name r +:+ " " +:+ ur_last_name r) in
  if decide (name = "") then None else Some name.

(** ** services/protected_domains.py *)

Definition domain_view s t (i : uuid) (r : protected_row) : protected_view :=
  let open := bool_decide (pr_status r ≠ verified) in
  mk_protected_view i (pr_domain r) (pr_portal_host r) (pr_status r)
    (if open then pr_token r else None) (challenge_record_name (pr_domain r))
    (if open then token ← pr_token r; if decide (token = "") then None else Some (challenge_record_value token)
     else None)
    (pr_verified_at r) (pr_enabled r) (pr_created_at r) (_created_by_name s t (pr_created_by r)).

Definition domain_not_found : exn := ServiceError NotFoundError "protected_domain_not_found".
Definition require_protected t (i : uuid) : M portal protected_row :=
  s ← gets id; some_or (db_get_protected_domain s t i) domain_not_found.

Definition list_protected_domains t u : M portal (list protected_view) :=
  _ ← require_super_admin u;
  _ ← po_track t (ru_id u);
  gets (λ s, (λ kv : uuid * protected_row, domain_view s t kv.1 kv.2) <$> db_list_protected_domains s t).
Definition get_protected_domain t u (i : uuid) : M portal protected_view :=
  _ ← require_super_admin u;
  _ ← po_track t (ru_id u);
  r ← require_protected t i;
  gets (λ s, domain_view s t i r).

Definition register_protected_domain t u (raw_domain raw_portal_host : string) : M portal protected_view :=
  _ ← require_super_admin u;
  let domain := _normalize_domain_host raw_domain in
  let portal_host := _normalize_domain_host raw_portal_host in
  _ ← lift (_validate_host domain);
  _ ← lift (_validate_host portal_host);
  _ ← raise_if (negb (under_domain portal_host domain)) (ServiceError ValidationError "portal_host_not_under_domain");
  s ← gets id;
  _ ← raise_if (bool_decide (is_Some (get_protected_domain_by_domain s t domain)))
        (ServiceError ConflictError "protected_domain_exists");
  _ ← raise_if (bool_decide (is_Some (get_protected_domain_by_portal_host s portal_host)))
        (ServiceError ConflictError "portal_host_in_use");
  token ← draw_hex 24;
  row ← create_protected_domain t domain portal_host (ru_id u) token;
  _ ← po_log t (Some (ru_id u)) "protected_domain" row.1 "protected_domain_registered"
        [("domain", MStr domain); ("portal_host", MStr portal_host)];
  gets (λ s, domain_view s t row.1 row.2).

Definition verify_protected_domain t u (i : uuid) (_resolve_txt : string → list string) : M portal verify_result :=
  _ ← require_super_admin u;
  row ← require_protected t i;
  if decide (pr_status row = verified) then mret (mk_verify_result true verified)
  else
    match pr_token row with
    | None | Some "" => raise (ServiceError ValidationError "no_challenge_token")
    | Some token =>
        let domain := pr_domain row in
        if decide (challenge_record_value token ∈ _resolve_txt (challenge_record_name domain)) then
          now ← gets po_clock;
          _ ← update_protected_domain t i (with_verification verified None (Some now));
          _ ← po_log t (Some (ru_id u)) "protected_domain" i "protected_domain_verified" [("domain", MStr domain)];
          mret (mk_verify_result true verified)
        else
          _ ← update_protected_domain t i (λ r, with_verification failed (pr_token r) (pr_verified_at r) r);
          _ ← po_log t (Some (ru_id u)) "protected_domain" i "protected_domain_verification_failed"
                [("domain", MStr domain)];
          mret (mk_verify_result false failed)
    end.

Definition delete_protected_domain t u (i : uuid) : M portal () :=
  _ ← require_super_admin u;
  row ← require_protected t i;
  _ ← db_delete_protected_domain t i;
  po_log t (Some (ru_id u)) "protected_domain" i "protected_domain_deleted"
    [("domain", MStr (pr_domain row)); ("portal_host", MStr (pr_portal_host row))].

Definition resolve_verified_portal_host s (portal_host : string) : option (uuid * protected_row) :=
  let host := _normalize_domain_host portal_host in
  if decide (host = "") then None
  else
    row ← get_protected_domain_by_portal_host s host;
    if bool_decide (pr_status row.2 ≠ verified) || negb (pr_enabled row.2) then None else Some row.
Definition is_verified_portal_host s (portal_host : string) : bool :=
  bool_decide (is_Some (resolve_verified_portal_host s portal_host)).

(** ** services/proxy_apps.py *)

Definition _normalize_app_host (value : string) : string := rstrip_char dot_char (lower_string (py_strip value)).

Definition _validate_external_url (external_url domain : string) : outcome string :=
  let url := py_strip external_url in
  if decide (url = "") then invalid "invalid_external_url"
  else
    parts ← urlsplit url;
    if decide (us_scheme parts ≠ "https") then invalid "invalid_external_url_scheme"
    else
      match hostname parts with
      | None => invalid "invalid_external_url"
      | Some h =>
          if under_domain (_normalize_app_host h) domain then Ok url
          else invalid "external_url_not_under_domain"
      end.

Fixpoint _validate_public_paths (public_paths : list string) : outcome (list string) :=
  match public_paths with
  | [] => Ok []
  | raw :: rest =>
      let path := py_strip raw in
      let l := chars path in
      if decide (path = "") then _validate_public_paths rest
      else if decide (take 1 l ≠ [slash]) then invalid "invalid_public_path"
      else if decide (take 2 l = [slash; slash]) then invalid "invalid_public_path"
      else if contains "://" path || bool_decide (char 32 ∈ l) then invalid "invalid_public_path"
      else cleaned ← _validate_public_paths rest; Ok (path :: cleaned)
  end.

Definition SUPPORTED_HEADER_KEYS : list string := ["user"; "email"; "groups"; "display_name"].
Fixpoint _validate_header_config (header_config : list (string * bool)) : outcome (list (string * bool)) :=
  match header_config with
  | [] => Ok []
  | (key, value) :: rest =>
      if bool_decide (key ∉ SUPPORTED_HEADER_KEYS) then invalid "invalid_header_config"
      else cleaned ← _validate_header_config rest; Ok ((key, value) :: cleaned)
  end.

Definition _domain_for s t (i : uuid) : option string := pr_domain <$> db_get_protected_domain s t i.
Definition app_view s t (p : proxy) (domain : option string) : proxy_view :=
  mk_proxy_view p domain (_created_by_name s t (px_created_by (pa_row p))).

Definition _require_verified_domain t (i : uuid) : M portal protected_row :=
  row ← require_protected t i;
  _ ← raise_if (bool_decide (pr_status row ≠ verified)) (ServiceError ValidationError "protected_domain_not_verified");
  mret row.

Definition app_not_found : exn := ServiceError NotFoundError "proxy_app_not_found".
Definition _require_proxy_app t (i : uuid) : M portal proxy :=
  s ← gets id; some_or (db_get_proxy_app s t i) app_not_found.

Definition list_proxy_apps t u : M portal (list proxy_view) :=
  _ ← require_super_admin u;
  _ ← po_track t (ru_id u);
  gets (λ s, (λ p, app_view s t p (_domain_for s t (px_domain_id (pa_row p)))) <$> db_list_proxy_apps s t).
Definition get_proxy_app t u (i : uuid) : M portal proxy_view :=
  _ ← require_super_admin u;
  _ ← po_track t (ru_id u);
  p ← _require_proxy_app t i;
  gets (λ s, app_view s t p (_domain_for s t (px_domain_id (pa_row p)))).

Definition create_proxy_app t u (data : proxy_create) : M portal proxy_view :=
  _ ← require_super_admin u;
  domain_row ← _require_verified_domain t (pc_domain_id data);
  let domain := pr_domain domain_row in
  external_url ← lift (_validate_external_url (pc_external_url data) domain);
  public_paths ← lift (_validate_public_paths (pc_public_paths data));
  header_config ← lift (_validate_header_config (pc_header_config data));
  p ← create_proxy_app_row t (pc_domain_id data) (py_strip (pc_name data)) external_url (ru_id u)
        (d ← pc_description data; if decide (d = "") then None else Some (py_strip d))
        public_paths header_config (pc_available_to_all data) (pc_enabled data);
  _ ← po_log t (Some (ru_id u)) "proxy_app" (pa_id p) "proxy_app_created"
        [("name", MStr (app_name (pa_app p))); ("domain", MStr domain); ("external_url", MStr external_url)];
  gets (λ s, app_view s t p (Some domain)).

(** [if x is not None: updates[..] = f(x)]. *)
Definition when_given {A B} (x : option A) (f : A → outcome B) : outcome (option B) :=
  match x with Some a => b ← f a; Ok (Some b) | None => Ok None end.
Definition checked_url (domain : option string) (url : string) : outcome string :=
  match domain with
  | None => invalid "proxy_app_domain_missing"
  | Some d => _validate_external_url url d
  end.
(** [sorted(updates.keys())]. *)
Definition updated_fields (f : proxy_updates) : list string :=
  (if decide (pu_available_to_all f = None) then [] else ["available_to_all"]) ++
  (if decide (pu_description f = None) then [] else ["description"]) ++
  (if decide (pu_enabled f = None) then [] else ["enabled"]) ++
  (if decide (pu_external_url f = None) then [] else ["external_url"]) ++
  (if decide (pu_header_config f = None) then [] else ["header_config"]) ++
  (if decide (pu_name f = None) then [] else ["name"]) ++
  (if decide (pu_public_paths f = None) then [] else ["public_paths"]).
Definition checked_updates (domain : option string) (data : proxy_update) : outcome proxy_updates :=
  url ← when_given (xu_external_url data) (checked_url domain);
  paths ← when_given (xu_public_paths data) _validate_public_paths;
  config ← when_given (xu_header_config data) _validate_header_config;
  Ok (mk_proxy_updates (py_strip <$> xu_name data)
        ((λ d, let d := py_strip d in if decide (d = "") then None else Some d) <$> xu_description data)
        url paths config (xu_available_to_all data) (xu_enabled data)).

Definition update_proxy_app t u (i : uuid) (data : proxy_update) : M portal proxy_view :=
  _ ← require_super_admin u;
  existing ← _require_proxy_app t i;
  domain ← gets (λ s, _domain_for s t (px_domain_id (pa_row existing)));
  updates ← lift (checked_updates domain data);
  row ← update_proxy_app_row t i updates;
  p ← some_or row app_not_found;
  _ ← po_log t (Some (ru_id u)) "proxy_app" i "proxy_app_updated"
        [("name", MStr (app_name (pa_app p))); ("fields", MStrs (updated_fields updates))];
  gets (λ s, app_view s t p domain).

Definition delete_proxy_app t u (i : uuid) : M portal () :=
  _ ← require_super_admin u;
  p ← _require_proxy_app t i;
  _ ← delete_proxy_app_row t i;
  po_log t (Some (ru_id u)) "proxy_app" i "proxy_app_deleted" [("name", MStr (app_name (pa_app p)))].

(** *** Grants *)

Definition grants_of s t (i : uuid) : list (uuid * group_row) :=
  match tenant_dir s t with Some d => list_assignments_for_proxy_app d i | None => [] end.

Definition list_proxy_app_grants t u (i : uuid) : M portal (list (uuid * group_row)) :=
  _ ← require_super_admin u;
  _ ← po_track t (ru_id u);
  _ ← _require_proxy_app t i;
  gets (λ s, grants_of s t i).

(** [list_groups] with its defaults: the first page, newest first. *)
Definition list_groups_first_page (d : db) : list uuid := take GROUPS_PAGE_SIZE (groups_newest_first d).
Definition list_available_groups_for_proxy_app t u (i : uuid) : M portal (list uuid) :=
  _ ← require_super_admin u;
  _ ← po_track t (ru_id u);
  _ ← _require_proxy_app t i;
  gets (λ s, match tenant_dir s t with
             | Some d => filter (λ g, g ∉ (grants_of s t i).*1) (list_groups_first_page d)
             | None => []
             end).

Definition add_proxy_app_grant t u (i g : uuid) : M portal (uuid * group_row) :=
  _ ← require_super_admin u;
  p ← _require_proxy_app t i;
  s ← gets id;
  gd ← some_or (d ← tenant_dir s t; get_group_by_id d g) (ServiceError NotFoundError "group_not_found");
  _ ← raise_if (bool_decide (g ∈ (grants_of s t i).*1)) (ServiceError ConflictError "proxy_app_grant_exists");
  _ ← of_tenant t (in_groups (create_proxy_app_assignment i g));
  _ ← po_log t (Some (ru_id u)) "proxy_app" i "proxy_app_grant_added"
        [("group_id", MId g); ("group_name", MStr (gd_name gd)); ("proxy_app_name", MStr (app_name (pa_app p)))];
  mret (g, gd_row gd).

Definition remove_proxy_app_grant t u (i g : uuid) : M portal () :=
  _ ← require_super_admin u;
  p ← _require_proxy_app t i;
  deleted ← of_tenant t (in_groups (delete_proxy_app_assignment i g));
  _ ← raise_if (bool_decide (deleted = 0%nat)) (ServiceError NotFoundError "proxy_app_grant_not_found");
  po_log t (Some (ru_id u)) "proxy_app" i "proxy_app_grant_removed"
    [("group_id", MId g); ("proxy_app_name", MStr (app_name (pa_app p)))].
End admin.
