(* ===== verification/ForwardAuth.v ===== *)
(** * Forward authentication

    app/utils/forward_auth.py (signed tokens and per-domain cookies),
    app/services/forward_auth.py, the handlers of
    app/routers/forward_auth/runtime.py, the part of
    app/middleware/tenant_guard.py that finds the tenant of a portal host, and the
    certificate question of app/routers/health.py.  The derived keys,
    BASE_DOMAIN and whether the framework can send a header value are
    arguments; whether the rate limit was reached is part of a request.  The way
    back to a pending authorization after signing in is in SignIn.v. *)

From stdpp Require Import gmap strings pretty.
From S2P Require Import Prelude Sha256 GroupDb OAuthDb AppAccess MailDb Tokens PasswordStrength Json JsonText Credentials Url PortalDb PortalAdmin.
#[local] Open Scope Z_scope.

(** ** utils/forward_auth.py *)

Definition FORWARD_AUTH_COOKIE_TTL : Z := 3600.
Definition FORWARD_AUTH_TOKEN_TTL : Z := 60.
Definition FORWARD_AUTH_COOKIE_NAME : string := "weftid_forward_auth".

Definition _b64url_encode (raw : list Z) : string := text_of (b64url raw).
Definition _b64url_decode (value : string) : option (list Z) :=
  urlsafe_b64decode (chars value ++ replicate (Z.to_nat ((- py_len value) mod 4)) (byte_char 61)).
Definition _sign (key : list Z) (payload_b64 : string) : string :=
  _b64url_encode (hmac_sha256 key (bytes_of payload_b64)).

Definition _pack (key : list Z) (payload : dict) : string :=
  let payload_b64 := _b64url_encode (bytes_of (dumps (JDict payload))) in
  payload_b64 +:+ "." +:+ _sign key payload_b64.

Section tokens.
Context `{Floats}.

(** [compare_digest] refuses a MAC outside ASCII, which is caught. *)
Definition _unpack (key : list Z) (token : string) : option dict :=
  match split_on dot_char (chars token) with
  | [payload_b64; mac] =>
      let payload_b64 := text_of payload_b64 in
      let mac := text_of mac in
      if decide (payload_b64 = "" ∨ mac = "") then None
      else if negb (is_ascii mac) || bool_decide (mac ≠ _sign key payload_b64) then None
      else
        raw ← _b64url_decode payload_b64;
        if utf8_valid raw then
          match loads (text_of_bytes raw) with
          | Some (JDict payload) => Some payload
          | _ => None
          end
        else None
  | _ => None
  end.

(** [x == 1]. *)
Definition equals_one (x : json) : bool :=
  match x with
  | JInt n => n =? 1
  | JBool b => b
  | JFloat r => bool_decide (r = "1.0")
  | _ => false
  end.
(** A finite number, in microseconds. *)
Definition expiry (x : json) : option Z :=
  match x with
  | JInt n => Some (n * 1000000)
  | JBool b => Some (if b then 1000000 else 0)
  | JFloat r => float_micros r
  | _ => None
  end.
(** [current > payload["exp"]], or no usable expiry. *)
Definition expired (now : Z) (payload : dict) : bool :=
  match expiry (get "exp" payload) with Some e => e <? now | None => true end.

Definition mint_authorization_token (_token_key : list Z) (user_id tenant_id domain app_id rd nonce : string)
    (ttl_seconds now : Z) : string :=
  _pack _token_key [
    ("v", JInt 1); ("sub", JStr user_id); ("tid", JStr tenant_id); ("dom", JStr domain); ("app", JStr app_id);
    ("rd", JStr rd); ("nonce", JStr nonce); ("exp", JInt (now / 1000000 + ttl_seconds))].

Definition verify_authorization_token (_token_key : list Z) (token expected_domain : string) (now : Z) :
    outcome (option dict) :=
  match _unpack _token_key token with
  | None => Ok None
  | Some payload =>
      if negb (equals_one (get "v" payload)) then Ok None
      else if negb (forallb (λ k, has_key k payload) ["sub"; "tid"; "dom"; "app"; "rd"; "nonce"; "exp"]) then Ok None
      else if expired now payload then Ok None
      else
        match get "dom" payload with
        | JStr bound_domain =>
            if is_ascii bound_domain && is_ascii expected_domain then
              Ok (if decide (bound_domain = expected_domain) then Some payload else None)
            else type_error
        | _ => Ok None
        end
  end.

Definition build_forward_auth_cookie_value (_cookie_key : list Z) (user_id email display_name : string)
    (groups : list string) (ttl_seconds now : Z) : string :=
  _pack _cookie_key [
    ("v", JInt 1); ("sub", JStr user_id); ("email", JStr email); ("name", JStr display_name);
    ("groups", JList (JStr <$> groups)); ("exp", JInt (now / 1000000 + ttl_seconds))].

Definition read_forward_auth_cookie (_cookie_key : list Z) (cookie_value : option string) (now : Z) : option dict :=
  value ← cookie_value;
  if decide (value = "") then None
  else
    payload ← _unpack _cookie_key value;
    if negb (equals_one (get "v" payload)) then None
    else if negb (has_key "exp" payload) || expired now payload then None
    else if negb (forallb (λ k, has_key k payload) ["sub"; "email"; "name"; "groups"]) then None
    else match get "groups" payload with JList _ => Some payload | _ => None end.
End tokens.

(** The attributes of the cookie: its Domain and its life. *)
Record fa_cookie := mk_cookie { ck_value : string; ck_domain : string; ck_max_age : Z; ck_secure : bool }.
Definition forward_auth_cookie_params (domain : string) (secure : bool) (value : string) : fa_cookie :=
  mk_cookie value domain FORWARD_AUTH_COOKIE_TTL secure.

(** ** services/forward_auth.py *)

Definition star : Ascii.ascii := char 42.
Definition path_matches (path pattern : list Ascii.ascii) : bool :=
  if decide (last pattern = Some star) then bool_decide (removelast pattern `prefix_of` path)
  else bool_decide (path = pattern).
Definition _path_matches_public (path : string) (public_paths : list string) : bool :=
  bool_decide ([dot_char; dot_char] ∉ split_on slash (chars path)) &&
  existsb (λ pattern, path_matches (chars path) (chars pattern)) public_paths.
Definition is_public_path (p : proxy) (path : string) : bool :=
  _path_matches_public path (px_public_paths (pa_row p)).

(** The same text in runtime.py and tenant_guard.py. *)
Definition _normalize_host_value (value : string) : string :=
  lower_string (rstrip_char dot_char (text_of (before colon_char (chars value)))).

Example public_ex : _path_matches_public "/static/app.css" ["/health"; "/static/*"] = true ∧
  _path_matches_public "/static/../admin" ["/static/*"] = false ∧
  _path_matches_public "/health/x" ["/health"] = false ∧ _normalize_host_value "Auth.ACME.com.:443" = "auth.acme.com".
Proof. split_and!; vm_compute; reflexivity. Qed.

(** The identity that headers are built from. *)
Record fa_identity := mk_identity {
  fi_user_id : json;
  fi_email : json;
  fi_display_name : json;
  fi_groups : json;
}.
Definition _clean (value : string) : string :=
  text_of (filter (λ c, c ≠ cr ∧ c ≠ lf) (chars value)).
Definition wants (p : proxy) (key : string) : bool :=
  existsb (λ kv : string * bool, bool_decide (kv.1 = key) && kv.2) (px_header_config (pa_row p)).
Definition items_of (x : json) : list json := match x with JList l => l | _ => [] end.
Definition header_if (b : bool) (name value : string) : list (string * string) := if b then [(name, value)] else [].
Definition build_forwarded_headers (p : proxy) (i : fa_identity) : list (string * string) :=
  header_if (wants p "user") "X-Forwarded-User" (_clean (py_str (fi_user_id i))) ++
  header_if (wants p "email") "X-Forwarded-Email" (_clean (py_str (fi_email i))) ++
  header_if (wants p "display_name") "X-Forwarded-Display-Name" (_clean (py_str (fi_display_name i))) ++
  header_if (wants p "groups") "X-Forwarded-Groups"
    (ScimClient.join "," ((λ g, _clean (py_str g)) <$> items_of (fi_groups i))).

Record session_identity := mk_session_identity {
  si_user_id : string;
  si_email : string;
  si_display_name : string;
  si_groups : list string;
}.

(** What a request to a portal host says; the middleware adds the rest. *)
Record fa_request := mk_request {
  rq_host : option string;
  rq_forwarded_host : option string;
  rq_forwarded_uri : option string;
  rq_cookie : option string;
  rq_limited : bool;
}.
Record fa_context := mk_context { fc_tenant : uuid; fc_domain : string; fc_portal_host : string }.

Inductive fa_reply :=
  | fa_allow (headers : list (string * string))                       (* 200 *)
  | fa_redirect (url : string) (cookie : option fa_cookie)            (* 302 *)
  | fa_sign_in (pending_forward_auth_authorize : string)              (* 302 to /login *)
  | fa_deny (message : string)                                        (* 403 *)
  | fa_too_many                                                       (* 429 *)
  | fa_unprocessable.                                                 (* 422 *)
#[export] Instance fa_cookie_eq_dec : EqDecision fa_cookie.
Proof. solve_decision. Defined.
#[export] Instance fa_reply_eq_dec : EqDecision fa_reply.
Proof. solve_decision. Defined.

Definition _MAX_URL_LEN : nat := 2048.
Definition _MAX_HOST_LEN : nat := 253.
(** Whether the framework can send a header value. *)
Class HeaderText := header_text_ok : string → bool.

Section forward_auth.
Context `{Collation} `{PortalIds} `{PortalHex} `{UrlChecks} `{Floats} `{UuidText} `{UuidParse} `{HeaderText}.
Context (_token_key _cookie_key : list Z) (BASE_DOMAIN : string) (IS_DEV : bool).
Implicit Types (s : portal) (t : uuid).

Definition issue_authorization_token t (user_id : uuid) (domain : string) (app_id : uuid) (rd : string) :
    M portal string :=
  nonce ← draw_hex 32;
  now ← gets po_clock;
  _ ← create_nonce t nonce domain (now + FORWARD_AUTH_TOKEN_TTL * 1000000);
  mret (mint_authorization_token _token_key (uuid_text user_id) (uuid_text t) domain (uuid_text app_id) rd nonce
          FORWARD_AUTH_TOKEN_TTL now).

(** The driver refuses a parameter that is not a text. *)
Definition text_param (x : json) : outcome string :=
  match x with JStr v => Ok v | _ => Raise (PythonError "ProgrammingError") end.
Definition redeem_authorization_token (token expected_domain : string) : M portal (option dict) :=
  now ← gets po_clock;
  checked ← lift (verify_authorization_token _token_key token expected_domain now);
  match checked with
  | None => mret None
  | Some payload =>
      nonce ← lift (text_param (get "nonce" payload));
      consumed ← consume_nonce nonce expected_domain now;
      match consumed with
      | None => mret None
      | Some row => mret (if decide (uuid_text (no_tenant row) = py_str (get "tid" payload)) then Some payload else None)
      end
  end.

(** Also jobs/cleanup_forward_auth_nonces.py. *)
Definition cleanup_expired_nonces : M portal nat := now ← gets po_clock; delete_expired_nonces now.

Definition get_canonical_tenant_host s t : option string :=
  if decide (BASE_DOMAIN = "") then None
  else
    subdomain ← get_tenant_by_id s t;
    if decide (subdomain = "") then None else Some (subdomain +:+ "." +:+ BASE_DOMAIN).

Definition _verified_domain_row s t (domain : string) : option (uuid * protected_row) :=
  if decide (domain = "") then None
  else
    row ← get_protected_domain_by_domain s t domain;
    if bool_decide (pr_status row.2 ≠ verified) || negb (pr_enabled row.2) then None else Some row.

(** The single enabled app of a domain. *)
Definition sole_enabled (s : portal) t (domain_id : uuid) : option proxy :=
  match filter (λ p, app_enabled (pa_app p) = true) (list_proxy_apps_for_domain s t domain_id) with
  | [p] => Some p
  | _ => None
  end.
Definition resolve_proxy_app_by_host s t (domain external_host : string) : option proxy :=
  row ← _verified_domain_row s t domain;
  if decide (external_host = "") then None
  else get_enabled_proxy_app_for_domain_and_host s t row.1 external_host.
Definition resolve_sole_enabled_app s t (domain : string) : option proxy :=
  row ← _verified_domain_row s t domain; sole_enabled s t row.1.
Definition get_tenant_verified_domain s t (domain portal_host : string) : option (uuid * protected_row) :=
  row ← _verified_domain_row s t domain;
  if decide (_normalize_host_value (pr_portal_host row.2) = _normalize_host_value portal_host) then Some row else None.

Definition rd_host (rd : string) : outcome string :=
  if decide (rd = "") then Ok ""
  else
    parts ← urlsplit rd;
    Ok (if decide (us_scheme parts = "https")
        then match hostname parts with Some h => _normalize_host_value h | None => "" end
        else "").
Definition resolve_app_for_rd s t (protected_domain_id : uuid) (rd : string) : outcome (option proxy) :=
  host ← rd_host rd;
  Ok (if decide (host = "") then sole_enabled s t protected_domain_id
      else get_enabled_proxy_app_for_domain_and_host s t protected_domain_id host).
Definition get_app_for_callback s t (proxy_app_id : uuid) : option proxy :=
  p ← db_get_proxy_app s t proxy_app_id; if app_enabled (pa_app p) then Some p else None.

Definition build_forward_auth_identity s t (u : uuid) : option session_identity :=
  m ← po_tenants s !! t;
  user ← get_user_row m u;
  if ur_is_inactivated user || ur_is_anonymized user then None
  else
    let email_str := default "" (get_primary_email m u) in
    let display_name := py_strip (py_strip (ur_first_name user) +:+ " " +:+ py_strip (ur_last_name user)) in
    Some (mk_session_identity (uuid_text u) email_str
            (if decide (display_name = "") then email_str else display_name)
            (get_effective_group_names (ma_dir m) u)).

Definition log_proxy_event t (actor : option uuid) (i : uuid) (name domain app_name : string) : M portal () :=
  po_log t actor "proxy_app" i name [("domain", MStr domain); ("proxy_app_name", MStr app_name)].
Definition access_of s t (u i : uuid) : bool :=
  match tenant_dir s t with Some d => user_can_access_proxy_app d u i | None => false end.
Definition authorize_app_access t (u i : uuid) (domain app_name : string) : M portal bool :=
  allowed ← gets (λ s, access_of s t u i);
  _ ← when (negb allowed) (log_proxy_event t (Some u) i "proxy_access_denied" domain app_name);
  mret allowed.
Definition recheck_cookie_access t (user_id : string) (i : uuid) (domain app_name : string) : M portal bool :=
  match uuid_of_text user_id with
  | None => mret false
  | Some u => authorize_app_access t u i domain app_name
  end.

(** ** middleware/tenant_guard.py *)

Inductive guard := admitted (c : option fa_context) | rejected (status : Z).
Definition _FORWARD_AUTH_PREFIX : string := "/forward-auth/".
Definition path_starts (w s : string) : bool := bool_decide (chars w `prefix_of` chars s).
Definition ends_with (w s : string) : bool := bool_decide (chars w `suffix_of` chars s).
(** [x or y]. *)
Definition header_or (x y : option string) : option string :=
  match x with Some "" | None => y | _ => x end.
Definition context_of (row : uuid * protected_row) : fa_context :=
  mk_context (pr_tenant row.2) (pr_domain row.2) (pr_portal_host row.2).
Definition portal_context s (candidates : list string) : option fa_context :=
  context_of <$> head (omap (resolve_verified_portal_host s) (filter (λ c, c ≠ "") candidates)).
Definition tenant_guard s (path : string) (r : fa_request) : guard :=
  if decide (path ∈ ["/healthz"; "/caddy/check-domain"]) then admitted None
  else
    let host := _normalize_host_value (default "" (header_or (rq_forwarded_host r) (rq_host r))) in
    let raw_host := _normalize_host_value (default "" (rq_host r)) in
    let forward := path_starts _FORWARD_AUTH_PREFIX path in
    match (if forward then portal_context s [raw_host; host] else None) with
    | Some c => admitted (Some c)
    | None =>
        if decide (BASE_DOMAIN = "") then admitted None
        else if decide (host = BASE_DOMAIN ∨ host = "www." +:+ BASE_DOMAIN) then rejected 400
        else if forward && negb (ends_with ("." +:+ BASE_DOMAIN) host) then rejected 404
        else admitted None
    end.

(** ** routers/health.py: may Caddy ask for a certificate? *)

Definition check_domain s (domain : string) : Z :=
  if decide (domain = "") then 400
  else if decide (BASE_DOMAIN = "") then 200
  else
    let domain := rstrip_char dot_char (lower_string domain) in
    if decide (domain = BASE_DOMAIN) then 200
    else if ends_with ("." +:+ BASE_DOMAIN) domain then
      let subdomain := prefix_text (String.length domain - S (String.length BASE_DOMAIN)) domain in
      if bool_decide (dot_char ∉ chars subdomain) &&
         bool_decide (map_Exists (λ _ x, x = subdomain) (po_subdomains s)) then 200 else 404
    else if is_verified_portal_host s domain then 200 else 404.

(** ** routers/forward_auth/runtime.py *)

Definition no_context : fa_reply := fa_deny "This host is not configured for forward auth.".
Definition no_application : fa_reply := fa_deny "No application is configured for this address.".
Definition no_access : fa_reply := fa_deny "You do not have access to this application.".
Definition not_configured : fa_reply := fa_deny "This domain is not configured for your account.".
Definition bad_destination : fa_reply := fa_deny "Invalid return destination.".
Definition bad_link : fa_reply := fa_deny "Your sign-in link is invalid or has expired.".
Definition unavailable : fa_reply := fa_deny "Sign-in is temporarily unavailable for this domain.".

Definition rooted (l : list Ascii.ascii) : bool :=
  bool_decide (take 1 l = [slash]) && bool_decide (take 2 l ≠ [slash; slash]).
Definition _original_request_uri (r : fa_request) : string :=
  let uri := prefix_text _MAX_URL_LEN (default "" (rq_forwarded_uri r)) in
  if rooted (chars uri) then uri else "/".
Definition _original_host (r : fa_request) (portal_host : string) : string :=
  let host := _normalize_host_value (prefix_text _MAX_HOST_LEN (default "" (rq_forwarded_host r))) in
  if decide (host = portal_host) then "" else host.
Definition _resolve_app s (r : fa_request) (c : fa_context) : option proxy :=
  let host := _original_host r (fc_portal_host c) in
  if decide (host = "") then resolve_sole_enabled_app s (fc_tenant c) (fc_domain c)
  else resolve_proxy_app_by_host s (fc_tenant c) (fc_domain c) host.

(** [parts.port or 443]. *)
Definition port_or_443 (p : split_url) : outcome Z :=
  n ← port p;
  Ok (match n with Some 0 | None => 443 | Some n => n end).
Definition _safe_rd (rd app_external_url : string) : outcome (option string) :=
  if decide (rd = "") then Ok None
  else
    let rd := prefix_text _MAX_URL_LEN rd in
    if rooted (chars rd) then Ok (Some rd)
    else
      parts ← urlsplit rd;
      if decide (us_scheme parts ≠ "https" ∨ us_netloc parts = "") then Ok None
      else
        app_parts ← urlsplit app_external_url;
        if decide (_normalize_host_value (default "" (hostname parts)) ≠
                   _normalize_host_value (default "" (hostname app_parts))) then Ok None
        else
          p ← port_or_443 parts;
          q ← port_or_443 app_parts;
          Ok (if decide (p = q) then Some rd else None).

Definition start_url (rd : string) : string := "/forward-auth/start?rd=" +:+ quote rd.
Definition respond_allow (headers : list (string * string)) : outcome fa_reply :=
  if forallb (λ kv : string * string, header_text_ok kv.2) headers then Ok (fa_allow headers)
  else Raise (PythonError "UnicodeEncodeError").

Definition forward_auth_check (ctx : option fa_context) (r : fa_request) : M portal fa_reply :=
  match ctx with
  | None => mret no_context
  | Some c =>
      if rq_limited r then mret fa_too_many
      else
        s ← gets id;
        match _resolve_app s r c with
        | None => mret no_application
        | Some p =>
            let original_path := text_of (before question (chars (_original_request_uri r))) in
            if is_public_path p original_path then mret (fa_allow [])
            else
              match read_forward_auth_cookie _cookie_key (rq_cookie r) (po_clock s) with
              | None =>
                  _ ← when (bool_decide (default "" (rq_cookie r) ≠ ""))
                        (log_proxy_event (fc_tenant c) None (pa_id p) "proxy_session_expired" (fc_domain c)
                           (app_name (pa_app p)));
                  mret (fa_redirect (safe_path (start_url (_original_request_uri r)) DEFAULT_TARGET) None)
              | Some who =>
                  allowed ← recheck_cookie_access (fc_tenant c) (py_str (get "sub" who)) (pa_id p)
                              (fc_domain c) (app_name (pa_app p));
                  if negb allowed then mret no_access
                  else lift (respond_allow (build_forwarded_headers p
                         (mk_identity (get "sub" who) (get "email" who) (get "name" who)
                            (get "groups" who))))
              end
        end
  end.

Definition authorize_path (domain portal_host rd : string) : string :=
  "/forward-auth/authorize?domain=" +:+ quote domain +:+ "&portal_host=" +:+ quote portal_host +:+ "&rd=" +:+ quote rd.
Definition reply_or (url : option string) (otherwise : fa_reply) : fa_reply :=
  match url with Some url => fa_redirect url None | None => otherwise end.

Definition forward_auth_start (ctx : option fa_context) (rd : string) : M portal fa_reply :=
  if (Z.of_nat _MAX_URL_LEN <? py_len rd) then mret fa_unprocessable
  else
    match ctx with
    | None => mret no_context
    | Some c =>
        s ← gets id;
        match get_canonical_tenant_host s (fc_tenant c) with
        | None => mret unavailable
        | Some canonical_host =>
            let safe_rd := if decide (rd = "") then "/" else prefix_text _MAX_URL_LEN rd in
            mret (reply_or (safe_external_redirect canonical_host
                              (authorize_path (fc_domain c) (fc_portal_host c) safe_rd) {[canonical_host]})
                    unavailable)
        end
    end.

Definition callback_path (token : string) : string := "/forward-auth/callback?token=" +:+ quote token.

(** On the tenant's own host; [user] is whom the session signs in. *)
Definition forward_auth_authorize t (user : option uuid) (domain portal_host rd : string) : M portal fa_reply :=
  if (Z.of_nat _MAX_HOST_LEN <? py_len domain) || (Z.of_nat _MAX_HOST_LEN <? py_len portal_host) ||
     (Z.of_nat _MAX_URL_LEN <? py_len rd) then mret fa_unprocessable
  else
    let domain_n := _normalize_host_value domain in
    let portal_host_n := _normalize_host_value portal_host in
    s ← gets id;
    match get_tenant_verified_domain s t domain_n portal_host_n with
    | None => mret not_configured
    | Some app_domain =>
        match user with
        | None => mret (fa_sign_in (authorize_path domain_n portal_host_n rd))
        | Some u =>
            app_row ← lift (resolve_app_for_rd s t app_domain.1 rd);
            match app_row with
            | None => mret no_application
            | Some p =>
                safe_rd ← lift (_safe_rd rd (px_external_url (pa_row p)));
                match safe_rd with
                | None => mret bad_destination
                | Some safe_rd =>
                    allowed ← authorize_app_access t u (pa_id p) domain_n (app_name (pa_app p));
                    if negb allowed then mret no_access
                    else
                      token ← issue_authorization_token t u domain_n (pa_id p) safe_rd;
                      let host := _normalize_host_value (pr_portal_host app_domain.2) in
                      mret (reply_or (safe_external_redirect host (callback_path token) {[host]}) not_configured)
                end
            end
        end
    end.

(** A text the database takes for an id. *)
Definition id_param (x : string) : outcome uuid :=
  match uuid_of_text x with Some i => Ok i | None => Raise (PythonError "DataError") end.

Definition forward_auth_callback (ctx : option fa_context) (token : string) : M portal fa_reply :=
  if (Z.of_nat (2 * _MAX_URL_LEN) <? py_len token) then mret fa_unprocessable
  else
    match ctx with
    | None => mret no_context
    | Some c =>
        redeemed ← redeem_authorization_token token (fc_domain c);
        match redeemed with
        | None => mret bad_link
        | Some payload =>
            let t := fc_tenant c in
            if decide (py_str (get "tid" payload) ≠ uuid_text t) then mret bad_link
            else
              i ← lift (id_param (py_str (get "app" payload)));
              s ← gets id;
              match get_app_for_callback s t i with
              | None => mret no_application
              | Some p =>
                  u ← lift (id_param (py_str (get "sub" payload)));
                  match build_forward_auth_identity s t u with
                  | None => mret (fa_deny "Your account is not active.")
                  | Some who =>
                      safe_rd ← lift (_safe_rd (py_str (get "rd" payload)) (px_external_url (pa_row p)));
                      match safe_rd with
                      | None => mret bad_destination
                      | Some safe_rd =>
                          _ ← log_proxy_event t (Some u) i "proxy_access_granted" (fc_domain c) (app_name (pa_app p));
                          now ← gets po_clock;
                          let value := build_forward_auth_cookie_value _cookie_key (si_user_id who)
                            (si_email who) (si_display_name who) (si_groups who)
                            FORWARD_AUTH_COOKIE_TTL now in
                          mret (fa_redirect safe_rd (Some (forward_auth_cookie_params (fc_domain c) (negb IS_DEV) value)))
                      end
                  end
              end
        end
    end.
End forward_auth.
