(* ===== verification/ForwardTokens.v ===== *)
(** * Authorization tokens and forward-auth cookies: round trips *)

From stdpp Require Import strings pretty list.
From S2P Require Import Prelude Sha256 Tokens TokenProofs PasswordStrength Json JsonText Url ForwardAuth.
#[local] Open Scope Z_scope.

(** ** base64 without padding *)

Lemma b64url_letters l : Forall byte l →
  Forall (λ c, is_Some (b64_value c) ∧ (Z.of_nat (Ascii.nat_of_ascii c) <? 128) = true) (b64url l).
Proof.
  assert (∀ n, 0 <= n < 64 → is_Some (b64_value (b64_digit n)) ∧
    (Z.of_nat (Ascii.nat_of_ascii (b64_digit n)) <? 128) = true) as Hd.
  { intros n Hn. split; [by rewrite (proj1 (b64_digit_value n Hn))|by apply b64_digit_ascii]. }
  assert (byte 0) as H0 by (unfold byte; lia).
  induction l as [|a|a b|a b c l IH] using triples_ind; intros Hl; [constructor|..].
  - rewrite Forall_singleton in Hl. destruct (quad_range a 0 0 Hl H0 H0) as (R1 & R2 & _).
    change (Z.shiftr 0 4) with 0 in R2. rewrite Z.add_0_r in R2.
    constructor; [by apply Hd|]. constructor; [by apply Hd|constructor].
  - rewrite Forall_cons, Forall_singleton in Hl. destruct Hl as [Ha Hb].
    destruct (quad_range a b 0 Ha Hb H0) as (R1 & R2 & R3 & _).
    change (Z.shiftr 0 6) with 0 in R3. rewrite Z.add_0_r in R3.
    constructor; [by apply Hd|]. constructor; [by apply Hd|]. constructor; [by apply Hd|constructor].
  - rewrite !Forall_cons in Hl. destruct Hl as (Ha & Hb & Hc & Hl).
    destruct (quad_range a b c Ha Hb Hc) as (R1 & R2 & R3 & R4).
    cbn [b64url]. do 4 (constructor; [by apply Hd|]). by apply IH.
Qed.

Lemma py_len_ascii s : is_ascii s = true → py_len s = Z.of_nat (String.length s).
Proof.
  intros Hs%is_ascii_Forall. unfold py_len. rewrite <- length_chars. f_equal.
  induction Hs as [|c l Hc _ IH]; [done|]. rewrite filter_cons_True.
  - simpl. by rewrite IH.
  - unfold is_cont. apply Z.ltb_lt in Hc. rewrite (proj2 (Z.leb_gt 128 _)) by lia. done.
Qed.
Lemma b64url_text_ascii l : Forall byte l → is_ascii (_b64url_encode l) = true.
Proof.
  intros Hl%b64url_letters. apply is_ascii_Forall. unfold _b64url_encode. rewrite chars_text_of.
  eapply Forall_impl; [exact Hl|]. by intros c [_ ?].
Qed.
Lemma b64url_no_dot l : Forall byte l → dot_char ∉ b64url l.
Proof.
  intros Hl%b64url_letters Hin. rewrite Forall_forall in Hl. destruct (Hl _ Hin) as [[v Hv] _]. done.
Qed.

Lemma b64url_roundtrip l : Forall byte l → _b64url_decode (_b64url_encode l) = Some l.
Proof.
  intros Hl. unfold _b64url_decode. rewrite py_len_ascii by (by apply b64url_text_ascii).
  rewrite <- length_chars. unfold _b64url_encode. rewrite chars_text_of.
  unfold urlsafe_b64decode. etransitivity; [|exact (b64url_decode l Hl)]. do 2 f_equal. unfold pads. f_equal.
  pose proof (b64_length l) as Hlen. unfold urlsafe_b64encode in Hlen. rewrite length_app, length_replicate in Hlen.
  set (k := ((3 - length l mod 3) mod 3)%nat) in *. assert (k < 3)%nat by (apply Nat.mod_upper_bound; lia).
  clearbody k. set (n := length (b64url l)) in *. clearbody n. clear -Hlen H.
  apply Nat.Div0.mod_divides in Hlen as [q Hq].
  assert (- Z.of_nat n = (- Z.of_nat q) * 4 + Z.of_nat k) as -> by lia.
  rewrite Z.add_comm, Z.mod_add by lia. rewrite Z.mod_small by lia. lia.
Qed.

(** ** Signed payloads *)

Lemma hmac_bytes key msg : Forall byte (hmac_sha256 key msg).
Proof. apply sha256_bytes. Qed.
Lemma b64url_nil l : b64url l = [] → l = [].
Proof. destruct l as [|a [|b [|c l]]]; done. Qed.
Lemma sha256_nonempty msg : sha256 msg ≠ [].
Proof.
  unfold sha256.
  assert (∀ n h ws, h ≠ [] → length h = 8%nat → hash_blocks n h ws ≠ [] ∧ length (hash_blocks n h ws) = 8%nat) as Hh.
  { induction n as [|n IH]; intros h ws Hne Hlen; [done|]. simpl. destruct ws as [|w ws]; [done|].
    assert (length (compress h (firstn 16 (w :: ws))) = 8%nat) as Hc.
    { unfold compress. rewrite length_map, length_combine.
      assert (∀ kws h, length h = 8%nat → length (fold_left compress_step kws h) = 8%nat) as Hf.
      { induction kws as [|kw kws IHk]; intros h0 H0; [done|]. simpl. apply IHk.
        do 8 (destruct h0 as [|? h0]; [done|]). by destruct h0. }
      rewrite Hf by done. rewrite Hlen. done. }
    apply IH; [|done]. intros E. rewrite E in Hc. done. }
  destruct (Hh (length (words_of (pad msg))) initial_hash (words_of (pad msg)) ltac:(done) ltac:(done)) as [Hne _].
  destruct (hash_blocks _ _ _); done.
Qed.

Section signed.
Context `{Floats}.

(** The payload of a text that was packed with the same key, its keys sorted. *)
Definition packed (d : dict) : dict :=
  match sort_keys (JDict d) with JDict d' => d' | _ => [] end.

Lemma unpack_pack key d : plain (JDict d) → _unpack key (_pack key d) = Some (packed d).
Proof.
  intros Hd. pose proof (dumps_ascii _ Hd) as Ha. pose proof (loads_dumps _ Hd) as Hl.
  unfold _pack, _unpack. set (raw := bytes_of (dumps (JDict d))) in *.
  pose proof (bytes_of_byte (dumps (JDict d))) as Hraw. fold raw in Hraw.
  set (p := _b64url_encode raw). unfold _sign at 1.
  set (m := hmac_sha256 key (bytes_of p)). pose proof (hmac_bytes key (bytes_of p)) as Hm. fold m in Hm.
  rewrite !chars_app. change (chars ".") with [dot_char]. cbn [app].
  rewrite split_on_field; [|unfold p, _b64url_encode; rewrite chars_text_of; by apply b64url_no_dot].
  rewrite split_on_last; [|unfold _b64url_encode; rewrite chars_text_of; by apply b64url_no_dot].
  rewrite !text_of_chars. rewrite decide_False.
  2: { intros [E|E]; apply (f_equal chars) in E; unfold p, _b64url_encode in E; rewrite chars_text_of in E;
       apply b64url_nil in E.
       - apply (f_equal length) in E. unfold raw in E. rewrite bytes_of_chars, length_fmap in E.
         unfold dumps in E. rewrite chars_text_of in E. done.
       - by apply sha256_nonempty in E. }
  rewrite b64url_text_ascii by done. rewrite bool_decide_false by (intros Hne; by apply Hne).
  cbn [negb orb]. unfold p. rewrite b64url_roundtrip by done. cbn [mbind option_bind].
  unfold raw. rewrite utf8_valid_ascii by done. by rewrite text_of_bytes_of, Hl.
Qed.

Lemma get_packed k d : plain (JDict d) → get k (packed d) = default JNull (sort_keys <$> dict_lookup k d) ∧
  has_key k (packed d) = has_key k d.
Proof.
  intros Hd. unfold get, has_key, packed. cbn [sort_keys]. inversion_clear Hd as [| | | | |? Hn _ _].
  set (d' := List.map (λ kv : string * json, (kv.1, sort_keys kv.2)) d).
  assert (d'.*1 = d.*1) as E.
  { clear. unfold d'. induction d as [|[k v] d IHd]; [done|]. simpl. by f_equal. }
  assert (dict_lookup k d' = sort_keys <$> dict_lookup k d) as El.
  { clear. unfold d'. induction d as [|[k' v] d IHd]; [done|]. simpl. by destruct (decide (k' = k)). }
  rewrite <- (dict_lookup_perm k d' (merge_sort key_le d')).
  - rewrite El. split; [done|]. by destruct (dict_lookup k d).
  - by rewrite E.
  - by rewrite merge_sort_Permutation.
Qed.

(** ** Tokens *)

Definition token_payload (user_id tenant_id domain app_id rd nonce : string) (exp : Z) : dict := [
  ("v", JInt 1); ("sub", JStr user_id); ("tid", JStr tenant_id); ("dom", JStr domain); ("app", JStr app_id);
  ("rd", JStr rd); ("nonce", JStr nonce); ("exp", JInt exp)].
Definition cookie_payload (user_id email display_name : string) (groups : list string) (exp : Z) : dict := [
  ("v", JInt 1); ("sub", JStr user_id); ("email", JStr email); ("name", JStr display_name);
  ("groups", JList (JStr <$> groups)); ("exp", JInt exp)].

Lemma token_payload_plain user_id tenant_id domain app_id rd nonce exp :
  Forall valid_text [user_id; tenant_id; domain; app_id; rd; nonce] →
  plain (JDict (token_payload user_id tenant_id domain app_id rd nonce exp)).
Proof.
  rewrite !Forall_cons. intros (? & ? & ? & ? & ? & ? & _). constructor.
  - cbn. refine (bool_decide_unpack _ _). by vm_compute.
  - repeat constructor.
  - cbn. by repeat constructor.
Qed.
Lemma cookie_payload_plain user_id email display_name groups exp :
  Forall valid_text (user_id :: email :: display_name :: groups) →
  plain (JDict (cookie_payload user_id email display_name groups exp)).
Proof.
  rewrite !Forall_cons. intros (? & ? & ? & Hg). constructor.
  - cbn. refine (bool_decide_unpack _ _). by vm_compute.
  - repeat constructor.
  - cbn. do 4 (constructor; [by constructor|]). constructor; [|by repeat constructor].
    constructor. induction Hg; [constructor|]. constructor; [by constructor|done].
Qed.
Lemma sort_keys_texts l : sort_keys (JList (JStr <$> l)) = JList (JStr <$> l).
Proof. cbn [sort_keys]. f_equal. induction l as [|x l IH]; [done|]. cbn. by f_equal. Qed.

(** The fields of a token and of a cookie. *)
Lemma token_fields user_id tenant_id domain app_id rd nonce exp :
  Forall valid_text [user_id; tenant_id; domain; app_id; rd; nonce] →
  let d := packed (token_payload user_id tenant_id domain app_id rd nonce exp) in
  get "v" d = JInt 1 ∧ get "sub" d = JStr user_id ∧ get "tid" d = JStr tenant_id ∧ get "dom" d = JStr domain ∧
  get "app" d = JStr app_id ∧ get "rd" d = JStr rd ∧ get "nonce" d = JStr nonce ∧ get "exp" d = JInt exp ∧
  forallb (λ k, has_key k d) ["sub"; "tid"; "dom"; "app"; "rd"; "nonce"; "exp"] = true.
Proof.
  intros Hv d. pose proof (token_payload_plain _ _ _ _ _ _ exp Hv) as Hp. unfold d. cbn [forallb].
  rewrite !(proj2 (get_packed _ _ Hp)), !(proj1 (get_packed _ _ Hp)). by split_and!.
Qed.
Lemma cookie_fields user_id email display_name groups exp :
  Forall valid_text (user_id :: email :: display_name :: groups) →
  let d := packed (cookie_payload user_id email display_name groups exp) in
  get "v" d = JInt 1 ∧ get "sub" d = JStr user_id ∧ get "email" d = JStr email ∧ get "name" d = JStr display_name ∧
  get "groups" d = JList (JStr <$> groups) ∧ get "exp" d = JInt exp ∧
  has_key "exp" d = true ∧ forallb (λ k, has_key k d) ["sub"; "email"; "name"; "groups"] = true.
Proof.
  intros Hv d. pose proof (cookie_payload_plain _ _ _ _ exp Hv) as Hp. unfold d. cbn [forallb].
  rewrite !(proj2 (get_packed _ _ Hp)), !(proj1 (get_packed _ _ Hp)).
  split_and!; try done. exact (sort_keys_texts groups).
Qed.

Lemma verify_minted key user_id tenant_id domain app_id rd nonce ttl t expected now :
  Forall valid_text [user_id; tenant_id; domain; app_id; rd; nonce] → is_ascii domain = true → is_ascii expected = true →
  let exp := t / 1000000 + ttl in
  verify_authorization_token key (mint_authorization_token key user_id tenant_id domain app_id rd nonce ttl t) expected now =
  Ok (if decide (now <= exp * 1000000 ∧ expected = domain)
      then Some (packed (token_payload user_id tenant_id domain app_id rd nonce exp)) else None).
Proof.
  intros Hv Hd He exp. pose proof (token_payload_plain _ _ _ _ _ _ exp Hv) as Hp.
  unfold verify_authorization_token, mint_authorization_token. fold exp.
  change [("v", JInt 1); ("sub", JStr user_id); ("tid", JStr tenant_id); ("dom", JStr domain); ("app", JStr app_id);
    ("rd", JStr rd); ("nonce", JStr nonce); ("exp", JInt exp)] with (token_payload user_id tenant_id domain app_id rd nonce exp).
  rewrite unpack_pack by done. unfold expired.
  destruct (token_fields _ _ _ _ _ _ exp Hv) as (-> & _ & _ & -> & _ & _ & _ & -> & ->).
  cbn -[is_ascii Z.mul packed]. rewrite Hd, He. cbn -[Z.mul packed].
  destruct (Z.ltb_spec (exp * 1000000) now).
  - rewrite decide_False by (intros [? _]; lia). done.
  - destruct (decide (domain = expected)) as [->|Hne].
    + rewrite decide_True by (split; [lia|done]). done.
    + rewrite decide_False by (intros [_ ->]; done). done.
Qed.

Lemma read_built key user_id email display_name groups ttl t now :
  Forall valid_text (user_id :: email :: display_name :: groups) →
  let exp := t / 1000000 + ttl in
  read_forward_auth_cookie key (Some (build_forward_auth_cookie_value key user_id email display_name groups ttl t)) now =
  if decide (now <= exp * 1000000) then Some (packed (cookie_payload user_id email display_name groups exp)) else None.
Proof.
  intros Hv exp. pose proof (cookie_payload_plain _ _ _ _ exp Hv) as Hp.
  unfold read_forward_auth_cookie, build_forward_auth_cookie_value. fold exp.
  change [("v", JInt 1); ("sub", JStr user_id); ("email", JStr email); ("name", JStr display_name);
    ("groups", JList (JStr <$> groups)); ("exp", JInt exp)] with (cookie_payload user_id email display_name groups exp).
  cbn [mbind option_bind]. rewrite decide_False.
  2: { intros E%(f_equal chars). unfold _pack in E. rewrite !chars_app in E. by destruct (chars (_b64url_encode _)). }
  rewrite unpack_pack by done. cbn [mbind option_bind]. unfold expired.
  destruct (cookie_fields _ _ _ _ exp Hv) as (-> & _ & _ & _ & -> & -> & -> & ->). cbn -[Z.mul packed].
  destruct (Z.ltb_spec (exp * 1000000) now).
  - rewrite decide_False by lia. done.
  - rewrite decide_True by lia. done.
Qed.
End signed.

(** C16. Tokens and cookies are read back: a token that was minted verifies until
    the end of its last second and for the domain it names, and then says the
    user, the tenant, the application, the page and the nonce it was minted
    for; a cookie is read until the end of its last second, and says the user,
    the address, the name and the groups it was built from. *)
Theorem forward_tokens_roundtrip `{Floats} key user_id tenant_id domain app_id rd nonce email display_name groups ttl t expected now :
  Forall valid_text ([user_id; tenant_id; domain; app_id; rd; nonce; email; display_name] ++ groups) →
  is_ascii domain = true → is_ascii expected = true →
  let exp := t / 1000000 + ttl in
  (∃ payload,
    verify_authorization_token key (mint_authorization_token key user_id tenant_id domain app_id rd nonce ttl t) expected now =
      Ok (if decide (now <= exp * 1000000 ∧ expected = domain) then Some payload else None) ∧
    get "sub" payload = JStr user_id ∧ get "tid" payload = JStr tenant_id ∧ get "dom" payload = JStr domain ∧
    get "app" payload = JStr app_id ∧ get "rd" payload = JStr rd ∧ get "nonce" payload = JStr nonce) ∧
  (∃ who,
    read_forward_auth_cookie key
      (Some (build_forward_auth_cookie_value key user_id email display_name groups ttl t)) now =
      (if decide (now <= exp * 1000000) then Some who else None) ∧
    get "sub" who = JStr user_id ∧ get "email" who = JStr email ∧ get "name" who = JStr display_name ∧
    get "groups" who = JList (JStr <$> groups)).
Proof.
  rewrite Forall_app, !Forall_cons. intros [(V1 & V2 & V3 & V4 & V5 & V6 & V7 & V8 & _) Vg] Hd He exp.
  assert (Forall valid_text [user_id; tenant_id; domain; app_id; rd; nonce]) as Vt by by repeat constructor.
  assert (Forall valid_text (user_id :: email :: display_name :: groups)) as Vc by by repeat constructor.
  destruct (token_fields _ _ _ _ _ _ exp Vt) as (_ & ? & ? & ? & ? & ? & ? & _).
  destruct (cookie_fields _ _ _ _ exp Vc) as (_ & ? & ? & ? & ? & _).
  split; eexists; (split; [by first [apply verify_minted|apply read_built]|by split_and!]).
Qed.
