(* ===== verification/PortalProofs.v ===== *)
(** * What holds of the portal tables

    The invariant of protected domains and proxy apps, kept by every operation
    of the management services; what the operations leave alone; and the lookup
    of a portal host. *)

From stdpp Require Import gmap strings.
From S2P Require Import Prelude GroupDb GroupService OAuthDb OAuthTokens AppAccess MailDb Tokens TokenProofs PasswordStrength Json Credentials Url PortalDb PortalAdmin.
#[local] Open Scope Z_scope.

Definition same_apps (m m' : mail) : Prop :=
  ∀ i, apps (ma_dir m') !! (proxy_app, i) = apps (ma_dir m) !! (proxy_app, i).

(** A stored host does not end in a dot. *)
Definition dotless (h : string) : Prop := last (chars h) ≠ Some dot_char.
Lemma head_drop_char c l : head (drop_char c l) ≠ Some c.
Proof. induction l as [|x l IH]; [done|]. cbn [drop_char]. case_decide; [done|]. by intros [= ->]. Qed.
Lemma dotless_normalized raw : dotless (_normalize_domain_host raw).
Proof.
  unfold dotless, _normalize_domain_host. set (v := rstrip_char dot_char _).
  assert (last (chars v) ≠ Some dot_char) as Hv.
  { unfold v, rstrip_char. rewrite chars_text_of, rev_alt. fold (reverse (drop_char dot_char (rev (chars (lower_string (py_strip raw)))))).
    rewrite last_reverse. apply head_drop_char. }
  destruct (chars v) as [|c l] eqn:E; [by rewrite E|]. case_decide; [|by rewrite E].
  rewrite chars_text_of. intros Hl. apply Hv. destruct l; [done|]. by rewrite last_cons_cons.
Qed.

(** The case where the next guard lets the call through. *)
Ltac pass_guard :=
  match goal with |- context [if ?b then (Raise _, _) else _] => destruct b eqn:?; [done|] end.

Section portal.
Context `{Collation} `{PortalIds} `{PortalHex} `{UrlChecks} `{GroupAges}.
Implicit Types (s : portal) (t : uuid) (u : requesting_user).

(** ** The invariant *)

Definition domain_ok (r : protected_row) : Prop :=
  _validate_host (pr_domain r) = Ok () ∧ _validate_host (pr_portal_host r) = Ok () ∧
  under_domain (pr_portal_host r) (pr_domain r) = true ∧
  (pr_status r = verified ↔ pr_token r = None) ∧ (pr_status r = verified ↔ is_Some (pr_verified_at r)) ∧
  dotless (pr_domain r) ∧ dotless (pr_portal_host r).
Definition proxy_ok s (i : uuid) (x : proxy_row) : Prop :=
  (∃ r, po_domains s !! px_domain_id x = Some r ∧ pr_tenant r = px_tenant x ∧ pr_status r = verified ∧
     ∃ raw, _validate_external_url raw (pr_domain r) = Ok (px_external_url x)) ∧
  (∃ raw, _validate_public_paths raw = Ok (px_public_paths x)) ∧
  (∃ raw, _validate_header_config raw = Ok (px_header_config x)) ∧
  (∃ d, tenant_dir s (px_tenant x) = Some d ∧ is_Some (apps d !! (proxy_app, i))).
Record portal_ok s : Prop := {
  ok_hosts i j r r' : po_domains s !! i = Some r → po_domains s !! j = Some r' →
    pr_portal_host r = pr_portal_host r' → i = j;
  ok_names i j r r' : po_domains s !! i = Some r → po_domains s !! j = Some r' →
    pr_tenant r = pr_tenant r' → pr_domain r = pr_domain r' → i = j;
  ok_domains i r : po_domains s !! i = Some r → domain_ok r;
  ok_proxies i x : po_proxies s !! i = Some x → proxy_ok s i x;
}.

Lemma tenant_dir_insert s t m m' t' :
  po_tenants s !! t = Some m →
  tenant_dir (set_tenants (insert t m') s) t' =
    if decide (t' = t) then Some (ma_dir m') else tenant_dir s t'.
Proof.
  intros Hm. unfold tenant_dir. simpl. destruct (decide (t' = t)) as [->|Hne].
  - by rewrite lookup_insert_eq.
  - by rewrite lookup_insert_ne.
Qed.
Lemma portal_ok_tenant s t m m' :
  portal_ok s → po_tenants s !! t = Some m → same_apps m m' → portal_ok (set_tenants (insert t m') s).
Proof.
  intros [A B C D] Hm Hs. split; [exact A|exact B|exact C|]. intros i x Hx.
  destruct (D i x Hx) as (Hd & Hp & Hh & d & Ht & Ha). repeat split; try done.
  rewrite (tenant_dir_insert s t m m') by done. destruct (decide (px_tenant x = t)) as [Ht'|]; [|eauto].
  exists (ma_dir m'). split; [done|]. rewrite Hs. unfold tenant_dir in Ht. rewrite Ht', Hm in Ht. by simplify_eq/=.
Qed.

(** A call of a tenant's code that leaves the proxy apps alone. *)
Lemma keeps_of_tenant {A} t (m : M mail A) :
  (∀ x, same_apps x (m x).2) → keeps portal_ok (of_tenant t m).
Proof.
  intros Hm s Hs. unfold of_tenant. destruct (po_tenants s !! t) as [x|] eqn:E; [|done].
  specialize (Hm x). destruct (m x) as [r x']. simpl in *. by eapply portal_ok_tenant.
Qed.
Lemma log_same_apps actor ty i name md x : same_apps x ((in_groups (log_event actor ty i name md)) x).2.
Proof. by intros j. Qed.
Lemma track_same_apps (w : uuid) x : same_apps x ((in_groups (track_activity w)) x).2.
Proof. by intros j. Qed.
Lemma keeps_po_log t actor ty i name md : keeps portal_ok (po_log t actor ty i name md).
Proof. apply keeps_of_tenant, log_same_apps. Qed.
Lemma keeps_po_track t (w : uuid) : keeps portal_ok (po_track t w).
Proof. apply keeps_of_tenant, track_same_apps. Qed.
Lemma keeps_draw_hex n : keeps portal_ok (draw_hex n).
Proof. intros s [A B C D]. by split. Qed.
#[local] Hint Resolve keeps_po_log keeps_po_track keeps_draw_hex : keeps.

(** ** Domains *)

Lemma create_domain_ok t domain portal_host by_ token s :
  portal_ok s → _validate_host domain = Ok () → _validate_host portal_host = Ok () →
  under_domain portal_host domain = true → dotless domain → dotless portal_host → portal_ok (create_protected_domain t domain portal_host by_ token s).2.
Proof.
  intros Hs Hd Hp Hu Nd1 Nd2. unfold create_protected_domain. run. repeat (run_case; [done|]). run.
  set (i := portal_id s) in *. set (r := mk_protected _ _ _ _ _ _ _ _ _).
  repeat match goal with E : bool_decide (is_Some _) = false |- _ =>
    apply bool_decide_eq_false, eq_None_not_Some in E end.
  destruct Hs as [A B C D].
  assert (∀ j r', po_domains s !! j = Some r' → pr_portal_host r' ≠ portal_host) as Nh.
  { intros j r' Hj Heq. by destruct (find_row_None _ _ j r' E5 Hj). }
  assert (∀ j r', po_domains s !! j = Some r' → pr_tenant r' = t → pr_domain r' ≠ domain) as Nd.
  { intros j r' Hj Ht Heq. by destruct (find_row_None _ _ j r' E4 Hj). }
  split; simpl.
  - intros j k r1 r2 [[<- <-]|[Hj L1]]%lookup_insert_Some [[<- <-]|[Hk L2]]%lookup_insert_Some Heq; [done|..].
    + by destruct (Nh _ _ L2).
    + by destruct (Nh _ _ L1).
    + eauto.
  - intros j k r1 r2 [[<- <-]|[Hj L1]]%lookup_insert_Some [[<- <-]|[Hk L2]]%lookup_insert_Some Ht Heq; [done|..].
    + by destruct (Nd _ _ L2).
    + by destruct (Nd _ _ L1).
    + eauto.
  - intros j r1 [[<- <-]|[Hj L1]]%lookup_insert_Some; [|eauto].
    split_and!; try done; simpl; split; done.
  - intros j x Hx. destruct (D j x Hx) as ((r1 & L1 & Hr) & Hrest). split; [|done].
    exists r1. split; [|done]. cbn. rewrite lookup_insert_ne; [done|]. intros Heq.
    unfold i in *. rewrite Heq in E3. by rewrite E3 in L1.
Qed.

Lemma keeps_register t u d h : keeps portal_ok (register_protected_domain t u d h).
Proof.
  intros s Hs. unfold register_protected_domain, require_super_admin. run. repeat (run_case; [done|]).
  destruct (_validate_host (_normalize_domain_host d)) as [[]|] eqn:Hd; [|done]. run.
  destruct (_validate_host (_normalize_domain_host h)) as [[]|] eqn:Hh; [|done]. run.
  destruct (under_domain _ _) eqn:Hu; [|done]. simpl. repeat (run_case; [done|]). unfold draw_hex. run.
  rewrite run_bind. set (s1 := set_portal_draws S s).
  assert (portal_ok s1) as Hs1 by by destruct Hs.
  pose proof (create_domain_ok t _ _ (ru_id u) (portal_hex 24 (po_draws s)) s1 Hs1 Hd Hh Hu
    (dotless_normalized _) (dotless_normalized _)) as Hc.
  destruct (create_protected_domain _ _ _ _ _ s1) as [[row|e] s2]; [|done]. simpl in Hc.
  match goal with |- portal_ok (?m s2).2 => assert (keeps portal_ok m) as Hm end; [|by apply Hm].
  keeps_auto.
Qed.

Lemma update_domain_ok t i f s r :
  portal_ok s → db_get_protected_domain s t i = Some r →
  pr_tenant (f r) = pr_tenant r → pr_domain (f r) = pr_domain r → pr_portal_host (f r) = pr_portal_host r →
  domain_ok (f r) → pr_status r ≠ verified → portal_ok (update_protected_domain t i f s).2.
Proof.
  intros [A B C D] Hr F1 F2 F3 Hok Hst. unfold update_protected_domain, update. rewrite Hr. simpl.
  unfold db_get_protected_domain in Hr. apply bind_Some in Hr as (r0 & Hi & Hr).
  case_decide; [|done]. simplify_eq.
  split; simpl.
  - intros j k r1 r2 [[<- <-]|[Hj Hj1]]%lookup_insert_Some [[<- <-]|[Hk Hk1]]%lookup_insert_Some Heq; [done|..|eauto].
    + rewrite F3 in Heq. eauto.
    + rewrite F3 in Heq. symmetry. eauto.
  - intros j k r1 r2 [[<- <-]|[Hj Hj1]]%lookup_insert_Some [[<- <-]|[Hk Hk1]]%lookup_insert_Some Ht Heq; [done|..|eauto].
    + rewrite F1 in Ht. rewrite F2 in Heq. eauto.
    + rewrite F1 in Ht. rewrite F2 in Heq. symmetry. eauto.
  - intros j r1 [[<- <-]|[Hj Hj1]]%lookup_insert_Some; [done|eauto].
  - intros j x Hx. destruct (D j x Hx) as ((r1 & Hd & Ht & Hv & Hraw) & Hrest). split; [|done].
    exists r1. split; [|done]. cbn. rewrite lookup_insert_ne; [done|]. intros Heq. rewrite <- Heq, Hi in Hd. by simplify_eq.
Qed.

Lemma keeps_verify t u i dns : keeps portal_ok (verify_protected_domain t u i dns).
Proof.
  intros s Hs. unfold verify_protected_domain, require_super_admin, require_protected. run. run_case; [done|].
  run. destruct (db_get_protected_domain s t i) as [r|] eqn:Hr; [|done]. run.
  destruct (decide (pr_status r = verified)) as [|Hnv]; [done|].
  assert (domain_ok r) as Hok.
  { unfold db_get_protected_domain in Hr. apply bind_Some in Hr as (r0 & Hi & Hr). case_decide; [|done].
    simplify_eq. by eapply ok_domains. }
  destruct (pr_token r) as [[|c token]|] eqn:Ht; [done| |done].
  destruct Hok as (O1 & O2 & O3 & O4 & O5 & O6 & O7).
  destruct (decide (_ ∈ dns _)); run.
  - rewrite run_bind. set (m := update_protected_domain _ _ _).
    assert (portal_ok (m s).2) as Hm.
    by eapply update_domain_ok.
    destruct (m s) as [[x|err] s1]; [|done]. simpl in Hm.
    match goal with |- portal_ok (?k s1).2 => assert (keeps portal_ok k) as Hk end; [|by apply Hk]. keeps_auto.
  - rewrite run_bind. set (m := update_protected_domain _ _ _).
    assert (portal_ok (m s).2) as Hm.
    { eapply update_domain_ok; try done. unfold domain_ok, with_verification. simpl. rewrite Ht.
      split_and!; try done; naive_solver. }
    destruct (m s) as [[x|err] s1]; [|done]. simpl in Hm.
    match goal with |- portal_ok (?k s1).2 => assert (keeps portal_ok k) as Hk end; [|by apply Hk]. keeps_auto.
Qed.

(** ** Cascades *)

Lemma tenant_dir_drop i s t : tenant_dir (drop_proxy i s) t = forget_app i <$> tenant_dir s t.
Proof.
  unfold tenant_dir, drop_proxy. simpl. rewrite lookup_fmap. by destruct (po_tenants s !! t).
Qed.
Lemma drop_proxy_ok i s : portal_ok s → portal_ok (drop_proxy i s).
Proof.
  intros [A B C D]. split; [exact A|exact B|exact C|].
  intros j x Hx. cbn in Hx. apply lookup_delete_Some in Hx as [Hne Hx]. destruct (D j x Hx) as (Hd & Hp & Hh & d & Ht & Ha).
  repeat split; try done. exists (forget_app i d). rewrite tenant_dir_drop, Ht. split; [done|]. simpl.
  rewrite lookup_delete_ne by congruence. done.
Qed.
Lemma drop_proxies l s :
  po_domains (foldr drop_proxy s l) = po_domains s ∧ po_nonces (foldr drop_proxy s l) = po_nonces s ∧
  po_draws (foldr drop_proxy s l) = po_draws s ∧ po_clock (foldr drop_proxy s l) = po_clock s ∧
  (∀ j x, po_proxies (foldr drop_proxy s l) !! j = Some x → j ∉ l ∧ po_proxies s !! j = Some x) ∧
  (portal_ok s → portal_ok (foldr drop_proxy s l)).
Proof.
  induction l as [|i l (I1 & I2 & I3 & I4 & I5 & I6)]; simpl.
  - split_and!; try done. intros j x Hx. split; [apply not_elem_of_nil|done].
  - split_and!; try done.
    + intros j x Hx. cbn in Hx. apply lookup_delete_Some in Hx as [Hne [Hl Hx]%I5]. split; [|done]. by apply not_elem_of_cons.
    + intros Hs. by apply drop_proxy_ok, I6.
Qed.

Lemma keeps_delete_domain t u i : keeps portal_ok (delete_protected_domain t u i).
Proof.
  intros s Hs. unfold delete_protected_domain, require_super_admin, require_protected. run. run_case; [done|]. run.
  destruct (db_get_protected_domain s t i) as [r|] eqn:Hr; [|done]. run. unfold db_delete_protected_domain. run.
  rewrite Hr. simpl. apply keeps_po_log.
  destruct (drop_proxies (apps_of_domain s i) s) as (F1 & _ & _ & _ & F5 & F6). destruct (F6 Hs) as [A B C D].
  split; simpl.
  - intros j k r1 r2 [_ L1]%lookup_delete_Some [_ L2]%lookup_delete_Some. eauto.
  - intros j k r1 r2 [_ L1]%lookup_delete_Some [_ L2]%lookup_delete_Some. eauto.
  - intros j r1 [_ L1]%lookup_delete_Some. eauto.
  - intros j x Hx. destruct (D j x Hx) as ((r1 & L1 & Hrest1) & Hrest). split; [|done].
    exists r1. split; [|done]. cbn. rewrite lookup_delete_ne; [done|]. intros Heq.
    apply F5 in Hx as [Hn Hx]. apply Hn. unfold apps_of_domain. apply list_elem_of_fmap. exists (j, x).
    split; [done|]. apply list_elem_of_filter. split; [done|]. by apply elem_of_map_to_list.
Qed.
Lemma keeps_delete_app t u i : keeps portal_ok (delete_proxy_app t u i).
Proof.
  intros s Hs. unfold delete_proxy_app, require_super_admin, _require_proxy_app. run. run_case; [done|]. run.
  destruct (db_get_proxy_app s t i) as [p|] eqn:Hp; [|done]. run. unfold delete_proxy_app_row. run.
  rewrite Hp. simpl. by apply keeps_po_log, drop_proxy_ok.
Qed.

(** ** Apps *)

Lemma insert_app_ok s t m i x a :
  portal_ok s → po_tenants s !! t = Some m → px_tenant x = t →
  (∃ r, po_domains s !! px_domain_id x = Some r ∧ pr_tenant r = px_tenant x ∧ pr_status r = verified ∧
     ∃ raw, _validate_external_url raw (pr_domain r) = Ok (px_external_url x)) →
  (∃ raw, _validate_public_paths raw = Ok (px_public_paths x)) →
  (∃ raw, _validate_header_config raw = Ok (px_header_config x)) →
  portal_ok (set_proxies (insert i x) (set_tenants (insert t (with_dir (set_apps (insert (proxy_app, i) a)) m)) s)).
Proof.
  intros [A B C D] Hm Ht Hd Hp Hh. split; [exact A|exact B|exact C|].
  assert (∀ t', tenant_dir (set_proxies (insert i x) (set_tenants (insert t (with_dir (set_apps (insert (proxy_app, i) a)) m)) s)) t' =
    if decide (t' = t) then Some (set_apps (insert (proxy_app, i) a) (ma_dir m)) else tenant_dir s t') as Hdir.
  { intros t'. exact (tenant_dir_insert s t m _ t' Hm). }
  intros j y Hjy. cbn in Hjy. apply lookup_insert_Some in Hjy as [[<- <-]|[Hne Hy]].
  - repeat split; try done. rewrite Hdir, decide_True by done. eexists. split; [done|]. simpl.
    by rewrite lookup_insert_eq.
  - destruct (D j y Hy) as (Y1 & Y2 & Y3 & d & Yt & Ya). repeat split; try done. rewrite Hdir.
    destruct (decide (px_tenant y = t)) as [Heq|]; [|eauto]. eexists. split; [done|]. simpl.
    rewrite lookup_insert_ne by congruence. unfold tenant_dir in Yt. rewrite Heq, Hm in Yt. by simplify_eq/=.
Qed.
Lemma run_set_apps t f s : of_tenant t (in_groups (modify (set_apps f))) s =
  match po_tenants s !! t with
  | Some m => (Ok (), set_tenants (insert t (with_dir (set_apps f) m)) s)
  | None => (Raise (IntegrityError "tenant_id_fkey"), s)
  end.
Proof. unfold of_tenant. by destruct (po_tenants s !! t). Qed.

Lemma keeps_create t u data : keeps portal_ok (create_proxy_app t u data).
Proof.
  intros s Hs. unfold create_proxy_app, require_super_admin, _require_verified_domain, require_protected. run.
  run_case; [done|]. run. destruct (db_get_protected_domain s t (pc_domain_id data)) as [r|] eqn:Hr; [|done]. run.
  destruct (bool_decide (pr_status r ≠ verified)) eqn:Hv; [done|]. apply bool_decide_eq_false, dec_stable in Hv.
  run. destruct (_validate_external_url _ _) as [url|] eqn:Hu; [|done]. run.
  destruct (_validate_public_paths _) as [paths|] eqn:Hp; [|done]. run.
  destruct (_validate_header_config _) as [config|] eqn:Hc; [|done]. run.
  unfold db_get_protected_domain in Hr. apply bind_Some in Hr as (r0 & Hi & Hr). case_decide as Ht; [|done].
  simplify_eq. rewrite run_bind.
  set (m := create_proxy_app_row _ _ _ _ _ _ _ _ _ _).
  assert (portal_ok (m s).2) as Hm.
  { unfold m, create_proxy_app_row. run. repeat pass_guard. run. rewrite run_bind, run_set_apps.
    destruct (po_tenants s !! _) as [x|] eqn:Hx; [|done]. run. apply insert_app_ok; try done; simpl; eauto 10. }
  destruct (m s) as [[p|err] s1]; [|done]. simpl in Hm.
  match goal with |- portal_ok (?k s1).2 => assert (keeps portal_ok k) as Hk end; [|by apply Hk]. keeps_auto.
Qed.

Lemma db_get_proxy_app_Some s t i p : db_get_proxy_app s t i = Some p →
  ∃ d, po_proxies s !! i = Some (pa_row p) ∧ px_tenant (pa_row p) = t ∧ pa_id p = i ∧ tenant_dir s t = Some d ∧
    apps d !! (proxy_app, i) = Some (pa_app p).
Proof.
  unfold db_get_proxy_app, proxy_of. intros (r & Hr & (d & Hd & (a & Ha & Hp)%bind_Some)%bind_Some)%bind_Some.
  case_decide; [|done]. simplify_eq. by exists d.
Qed.

Lemma when_given_Ok {A B} (x : option A) (f : A → outcome B) y :
  when_given x f = Ok y → ∀ b, y = Some b → ∃ a, f a = Ok b.
Proof.
  unfold when_given. destruct x as [a|]; [|by intros [= <-] b].
  destruct (f a) eqn:E; [|done]. intros [= <-] b [= ->]. eauto.
Qed.
Lemma keeps_update_app t u i data : keeps portal_ok (update_proxy_app t u i data).
Proof.
  intros s Hs. unfold update_proxy_app, require_super_admin, _require_proxy_app. run. run_case; [done|]. run.
  destruct (db_get_proxy_app s t i) as [p|] eqn:Hp; [|done]. run.
  destruct (checked_updates _ data) as [f|] eqn:Hf; [|done]. run. rewrite run_bind.
  set (m := update_proxy_app_row t i f).
  assert (portal_ok (m s).2) as Hm; [|destruct (m s) as [[y|err] s1]; [|done]; simpl in Hm;
    match goal with |- portal_ok (?k s1).2 => assert (keeps portal_ok k) as Hk end; [|by apply Hk]; keeps_auto].
  destruct (db_get_proxy_app_Some s t i p Hp) as (d & Hx & Ht & _ & Hd & Ha).
  destruct (ok_proxies s Hs i (pa_row p) Hx) as ((r & Hr & Hrt & Hrv & raw & Hraw) & Hpaths & Hconf & _).
  unfold m, update_proxy_app_row. run. rewrite Hp. run_case; [done|]. run.
  repeat pass_guard.
  run. rewrite run_bind, run_set_apps. destruct (po_tenants s !! t) as [x|] eqn:Hm; [|done]. run.
  unfold checked_updates in Hf.
  destruct (when_given (xu_external_url data) _) as [fu|] eqn:Hu; [|done].
  destruct (when_given (xu_public_paths data) _) as [fp|] eqn:Hpp; [|done].
  destruct (when_given (xu_header_config data) _) as [fc|] eqn:Hc; [|done]. simplify_eq/=.
  apply insert_app_ok; try done; simpl.
  - exists r. split_and!; try done. destruct fu as [url|]; simpl; [|eauto].
    destruct (when_given_Ok _ _ _ Hu url eq_refl) as (a & Ea). unfold checked_url, _domain_for in Ea.
    unfold db_get_protected_domain in Ea. rewrite Hr in Ea. simpl in Ea. rewrite decide_True in Ea by done.
    simpl in Ea. eauto.
  - destruct fp as [l|]; simpl; [|done]. destruct (when_given_Ok _ _ _ Hpp l eq_refl); eauto.
  - destruct fc as [l|]; simpl; [|done]. destruct (when_given_Ok _ _ _ Hc l eq_refl); eauto.
Qed.

(** ** Grants *)

Lemma keeps_grant t u i g : keeps portal_ok (add_proxy_app_grant t u i g).
Proof.
  unfold add_proxy_app_grant, _require_proxy_app. keeps_auto. apply keeps_of_tenant.
  intros x j. unfold create_proxy_app_assignment, in_groups. run. repeat run_case; simplify_eq/=; done.
Qed.
Lemma keeps_revoke t u i g : keeps portal_ok (remove_proxy_app_grant t u i g).
Proof.
  unfold remove_proxy_app_grant, _require_proxy_app. keeps_auto. apply keeps_of_tenant. by intros x j.
Qed.

(** ** Portal hosts *)

Lemma db_get_protected_domain_Some s t i r :
  db_get_protected_domain s t i = Some r → po_domains s !! i = Some r ∧ pr_tenant r = t.
Proof.
  unfold db_get_protected_domain. intros (r0 & Hi & Hr)%bind_Some. case_decide; [|done]. by simplify_eq.
Qed.
Lemma resolve_portal_host_Some s h i r : resolve_verified_portal_host s h = Some (i, r) →
  po_domains s !! i = Some r ∧ pr_portal_host r = _normalize_domain_host h ∧ pr_status r = verified ∧ pr_enabled r = true.
Proof.
  unfold resolve_verified_portal_host. case_decide; [done|]. intros ([j r'] & Hrow & Hr)%bind_Some.
  destruct (_ || _) eqn:E; [done|]. simplify_eq.
  unfold get_protected_domain_by_portal_host in Hrow. apply find_row_Some in Hrow as [Hi Hh].
  apply orb_false_iff in E as [E1 E2]. apply bool_decide_eq_false, dec_stable in E1. apply negb_false_iff in E2. done.
Qed.
End portal.
#[export] Hint Resolve keeps_po_log keeps_po_track keeps_draw_hex keeps_register keeps_verify keeps_delete_domain
  keeps_delete_app keeps_create keeps_update_app keeps_grant keeps_revoke : keeps.
