(* ===== verification/ForwardHistory.v ===== *)
(** * Histories of the portal

    Requests to the portal hosts and the tenant hosts, and the calls of the
    management services, in any order and at any time; between them the rest
    of the system does what it does.  What holds of the tables after every
    such history; how a domain came to be verified; that a token is redeemed
    once; and what an admitted request was earned by. *)

From stdpp Require Import gmap strings.
From S2P Require Import Prelude Sha256 GroupDb GroupService OAuthDb OAuthTokens AppAccess MailDb Tokens TokenProofs PasswordStrength Json JsonText Credentials Url PortalDb PortalAdmin ForwardAuth ForwardTokens PortalProofs.
#[local] Open Scope Z_scope.

(** ** What the operations leave alone *)

Section frames.
Context `{Collation} `{PortalIds} `{PortalHex} `{UrlChecks} `{GroupAges} `{Floats} `{UuidText} `{UuidParse} `{HeaderText}.
Context (_token_key _cookie_key : list Z) (BASE_DOMAIN : string) (IS_DEV : bool).
Context (I : portal → Prop).
Hypothesis tenants_blind : ∀ f s, I s → I (set_tenants f s).

Lemma frame_of_tenant {A} t (m : M mail A) : keeps I (of_tenant t m).
Proof.
  intros s Hs. unfold of_tenant. destruct (po_tenants s !! t) as [x|]; [|done].
  destruct (m x) as [r x']. simpl. by apply tenants_blind.
Qed.
Lemma frame_po_log t actor ty i name md : keeps I (po_log t actor ty i name md).
Proof. apply frame_of_tenant. Qed.
#[local] Hint Resolve frame_of_tenant frame_po_log : keeps.

Lemma frame_grant t u i g : keeps I (add_proxy_app_grant t u i g).
Proof. unfold add_proxy_app_grant, _require_proxy_app. keeps_auto. Qed.
Lemma frame_revoke t u i g : keeps I (remove_proxy_app_grant t u i g).
Proof. unfold remove_proxy_app_grant, _require_proxy_app. keeps_auto. Qed.
Lemma frame_authorize_access t u i domain name : keeps I (authorize_app_access t u i domain name).
Proof. unfold authorize_app_access, log_proxy_event. keeps_auto. Qed.
Lemma frame_check ctx r : keeps I (forward_auth_check _cookie_key ctx r).
Proof.
  unfold forward_auth_check, recheck_cookie_access, authorize_app_access, log_proxy_event. keeps_auto.
Qed.
Lemma frame_start ctx rd : keeps I (forward_auth_start BASE_DOMAIN ctx rd).
Proof. unfold forward_auth_start. keeps_auto. Qed.

Section proxies.
Hypothesis proxies_blind : ∀ f s, I s → I (set_proxies f s).

Lemma frame_create t u data : keeps I (create_proxy_app t u data).
Proof.
  unfold create_proxy_app, create_proxy_app_row, _require_verified_domain, require_protected. keeps_auto.
  apply keeps_modify. auto.
Qed.
Lemma frame_update_app t u i data : keeps I (update_proxy_app t u i data).
Proof.
  unfold update_proxy_app, update_proxy_app_row, _require_proxy_app. keeps_auto. apply keeps_modify. auto.
Qed.
Lemma frame_drop i s : I s → I (drop_proxy i s).
Proof. intros Hs. by apply tenants_blind, proxies_blind. Qed.
Lemma frame_delete_app t u i : keeps I (delete_proxy_app t u i).
Proof.
  unfold delete_proxy_app, delete_proxy_app_row, _require_proxy_app. keeps_auto.
  intros s Hs. unfold update. destruct (db_get_proxy_app s t i); [by apply frame_drop|done].
Qed.

Section domains.
Hypothesis domains_blind : ∀ f s, I s → I (set_protected f s).
Hypothesis draws_blind : ∀ s, I s → I (set_portal_draws S s).
Lemma frame_register t u d h : keeps I (register_protected_domain t u d h).
Proof.
  unfold register_protected_domain, create_protected_domain, draw_hex. keeps_auto.
  all: intros s Hs; first [by apply draws_blind|by apply domains_blind].
Qed.
Lemma frame_verify t u i dns : keeps I (verify_protected_domain t u i dns).
Proof.
  assert (∀ f, keeps I (update_protected_domain t i f)) as Hu.
  { intros f s Hs. unfold update_protected_domain, update. destruct (db_get_protected_domain s t i); [|done].
    by apply domains_blind. }
  unfold verify_protected_domain, require_protected. keeps_auto.
Qed.
Lemma frame_delete_domain t u i : keeps I (delete_protected_domain t u i).
Proof.
  unfold delete_protected_domain, db_delete_protected_domain, require_protected. keeps_auto.
  intros s Hs. unfold update. destruct (db_get_protected_domain s t i); [|done]. simpl. apply domains_blind.
  generalize (apps_of_domain s i) as l. induction l as [|j l IH]; [done|]. by apply frame_drop.
Qed.
End domains.
End proxies.

Section nonces.
Hypothesis nonces_blind : ∀ f s, I s → I (set_nonces f s).
Hypothesis draws_blind : ∀ s, I s → I (set_portal_draws S s).
Lemma frame_authorize t user d h rd : keeps I (forward_auth_authorize _token_key t user d h rd).
Proof.
  unfold forward_auth_authorize, issue_authorization_token, create_nonce, authorize_app_access, log_proxy_event, draw_hex.
  keeps_auto.
  all: intros s1 Hs1; first [by apply draws_blind|by apply nonces_blind].
Qed.
Lemma frame_callback ctx token : keeps I (forward_auth_callback _token_key _cookie_key IS_DEV ctx token).
Proof.
  assert (∀ n d now, keeps I (consume_nonce n d now)) as Hc.
  { intros n d now s Hs. unfold consume_nonce, update. destruct (po_nonces s !! n); [|done].
    case_decide; [by apply nonces_blind|done]. }
  unfold forward_auth_callback, redeem_authorization_token, log_proxy_event. keeps_auto.
Qed.
Lemma frame_cleanup : keeps I cleanup_expired_nonces.
Proof. unfold cleanup_expired_nonces. keeps_auto. intros s Hs. by apply nonces_blind. Qed.
End nonces.
End frames.

(** ** URLs of the handshake *)

Lemma written path l : path +:+ text_of (question :: query l) = text_of (chars path ++ question :: query l).
Proof. rewrite <- (text_of_chars (path +:+ _)), chars_app, chars_text_of. done. Qed.
Lemma callback_url host token :
  question ∉ chars host →
  url_params ("https://" +:+ host +:+ callback_path token) = [("token", token)] ∧
  url_path ("https://" +:+ host +:+ callback_path token) = "https://" +:+ host +:+ "/forward-auth/callback".
Proof.
  intros Hh.
  assert ("https://" +:+ host +:+ callback_path token =
    text_of (chars ("https://" +:+ host +:+ "/forward-auth/callback") ++ question :: query [("token", token)])) as ->.
  { rewrite <- (text_of_chars ("https://" +:+ host +:+ callback_path token)). f_equal.
    unfold callback_path. cbn [query]. rewrite !chars_app, <- !app_assoc. done. }
  destruct (url_params_written (chars ("https://" +:+ host +:+ "/forward-auth/callback")) [("token", token)]) as [-> ->].
  - rewrite !chars_app, !not_elem_of_app. split_and!; try done; by apply (bool_decide_unpack _).
  - by repeat constructor.
  - by rewrite text_of_chars.
Qed.

Section handlers.
Context `{Collation} `{PortalIds} `{PortalHex} `{UrlChecks} `{GroupAges} `{Floats} `{UuidText} `{UuidParse} `{HeaderText}.
Context (_token_key _cookie_key : list Z) (BASE_DOMAIN : string) (IS_DEV : bool).
Implicit Types (s : portal) (t : uuid).

(** The token an authorization mints: the fields, from the state it runs in. *)
Definition minted s t (u : uuid) (domain : string) (i : uuid) (rd : string) : string :=
  mint_authorization_token _token_key (uuid_text u) (uuid_text t) domain (uuid_text i) rd
    (portal_hex 32 (po_draws s)) FORWARD_AUTH_TOKEN_TTL (po_clock s).

Lemma of_tenant_log s t actor ty i name md :
  match po_log t actor ty i name md s with
  | (Ok _, s') => po_draws s' = po_draws s ∧ po_nonces s' = po_nonces s ∧ po_clock s' = po_clock s
  | (Raise _, s') => s' = s
  end.
Proof.
  unfold po_log, of_tenant. destruct (po_tenants s !! t) as [x|]; [|done]. done.
Qed.

Lemma run_issue s t u domain i rd tok s' :
  issue_authorization_token _token_key t u domain i rd s = (Ok tok, s') →
  tok = minted s t u domain i rd ∧ po_draws s' = S (po_draws s) ∧
  po_nonces s' = <[portal_hex 32 (po_draws s) := mk_nonce t domain (po_clock s + FORWARD_AUTH_TOKEN_TTL * 1000000)]> (po_nonces s) ∧
  po_clock s' = po_clock s ∧ po_nonces s !! portal_hex 32 (po_draws s) = None.
Proof.
  unfold issue_authorization_token, draw_hex, create_nonce. run. repeat pass_guard. run.
  intros [= <- <-]. split_and!; try done.
  match goal with E : bool_decide (is_Some _) = false |- _ => by apply bool_decide_eq_false, eq_None_not_Some in E end.
Qed.

(** What stands behind a redirect to /callback. *)
Lemma authorize_redirects t user domain portal_host rd s url ck s' :
  forward_auth_authorize _token_key t user domain portal_host rd s = (Ok (fa_redirect url ck), s') →
  ∃ u row p safe_rd, let d := _normalize_host_value domain in
    let host := _normalize_host_value (pr_portal_host row.2) in
    user = Some u ∧ ck = None ∧
    get_tenant_verified_domain s t d (_normalize_host_value portal_host) = Some row ∧
    resolve_app_for_rd s t row.1 rd = Ok (Some p) ∧ _safe_rd rd (px_external_url (pa_row p)) = Ok (Some safe_rd) ∧
    access_of s t u (pa_id p) = true ∧
    url = "https://" +:+ host +:+ callback_path (minted s t u d (pa_id p) safe_rd) ∧
    py_len rd <= Z.of_nat _MAX_URL_LEN.
Proof.
  unfold forward_auth_authorize. destruct (_ || _ || _) eqn:Hlen; [discriminate|].
  rewrite run_gets_bind. unfold id.
  destruct (get_tenant_verified_domain _ _ _ _) as [row|] eqn:Hrow; [|discriminate].
  destruct user as [u|]; [|discriminate]. rewrite run_lift_bind.
  destruct (resolve_app_for_rd s t row.1 rd) as [[p|]|] eqn:Hp; [|discriminate..]. rewrite run_lift_bind.
  destruct (_safe_rd rd _) as [[safe_rd|]|] eqn:Hs; [|discriminate..]. unfold authorize_app_access.
  rewrite run_bind_assoc, run_gets_bind.
  destruct (access_of s t u (pa_id p)) eqn:Ha; cbn [negb when]; rewrite run_bind_assoc.
  - rewrite !run_ret_bind. cbn [negb]. rewrite run_bind.
    destruct (issue_authorization_token _ _ _ _ _ _ s) as [[tok|] s1] eqn:Hi; [|discriminate].
    destruct (run_issue _ _ _ _ _ _ _ _ Hi) as (-> & _). rewrite run_ret.
    unfold reply_or, safe_external_redirect. destruct (decide _); [discriminate|].
    destruct (is_safe_path _); [|discriminate].
    intros [= <- <- <-]. exists u, row, p, safe_rd.
    rewrite !orb_false_iff, !Z.ltb_ge in Hlen. split_and!; try done; lia.
  - rewrite run_bind. destruct (log_proxy_event _ _ _ _ _ _ s) as [[]]; discriminate.
Qed.

(** What stands behind a redirect that sets a cookie. *)
Lemma callback_sets_cookie c token s url ck s' :
  forward_auth_callback _token_key _cookie_key IS_DEV (Some c) token s = (Ok (fa_redirect url (Some ck)), s') →
  ∃ payload nonce row i u p who,
    verify_authorization_token _token_key token (fc_domain c) (po_clock s) = Ok (Some payload) ∧
    get "nonce" payload = JStr nonce ∧ po_nonces s !! nonce = Some row ∧
    no_domain row = fc_domain c ∧ po_clock s < no_expires_at row ∧
    py_str (get "tid" payload) = uuid_text (fc_tenant c) ∧
    uuid_of_text (py_str (get "app" payload)) = Some i ∧ uuid_of_text (py_str (get "sub" payload)) = Some u ∧
    get_app_for_callback (set_nonces (delete nonce) s) (fc_tenant c) i = Some p ∧
    build_forward_auth_identity (set_nonces (delete nonce) s) (fc_tenant c) u = Some who ∧
    _safe_rd (py_str (get "rd" payload)) (px_external_url (pa_row p)) = Ok (Some url) ∧
    ck = forward_auth_cookie_params (fc_domain c) (negb IS_DEV)
      (build_forward_auth_cookie_value _cookie_key (si_user_id who) (si_email who) (si_display_name who)
         (si_groups who) FORWARD_AUTH_COOKIE_TTL (po_clock s)) ∧
    po_nonces s' = delete nonce (po_nonces s) ∧ po_draws s' = po_draws s.
Proof.
  unfold forward_auth_callback, redeem_authorization_token. destruct (_ <? _); [discriminate|].
  rewrite !run_bind_assoc, run_gets_bind, run_bind_assoc, run_lift_bind.
  destruct (verify_authorization_token _ _ _ _) as [[payload|]|] eqn:Hv; [|discriminate..].
  rewrite run_bind_assoc, run_lift_bind.
  destruct (get "nonce" payload) as [| | | |nonce| |] eqn:Hn; try discriminate. cbn [text_param].
  unfold consume_nonce. rewrite run_bind_assoc, run_update_bind.
  destruct (po_nonces s !! nonce) as [row|] eqn:Hrow; [|discriminate].
  destruct (decide (no_domain row = fc_domain c ∧ po_clock s < no_expires_at row)) as [[Hd He]|]; [|discriminate].
  cbn [fst snd]. rewrite run_ret_bind. destruct (decide (uuid_text _ = _)) as [Ht|]; [|discriminate].
  destruct (decide (py_str (get "tid" payload) ≠ _)) as [|Ht']; [discriminate|]. apply dec_stable in Ht'.
  unfold id_param. rewrite run_lift_bind.
  destruct (uuid_of_text (py_str (get "app" payload))) as [i|] eqn:Hi; [|discriminate]. rewrite run_gets_bind. unfold id.
  destruct (get_app_for_callback _ _ i) as [p|] eqn:Hp; [|discriminate]. rewrite run_lift_bind.
  destruct (uuid_of_text (py_str (get "sub" payload))) as [u|] eqn:Hu; [|discriminate].
  destruct (build_forward_auth_identity _ _ u) as [who|] eqn:Hwho; [|discriminate]. rewrite run_lift_bind.
  destruct (_safe_rd _ _) as [[safe_rd|]|] eqn:Hs; [|discriminate..].
  unfold log_proxy_event. rewrite run_bind. set (s1 := set_nonces (delete nonce) s) in *.
  pose proof (of_tenant_log s1 (fc_tenant c) (Some u) "proxy_app" i "proxy_access_granted"
    [("domain", MStr (fc_domain c)); ("proxy_app_name", MStr (app_name (pa_app p)))]) as Hlog.
  destruct (po_log _ _ _ _ _ _ s1) as [[[]|] s2]; [|discriminate]. destruct Hlog as (L1 & L2 & L3).
  rewrite run_gets_bind, run_ret.
  intros [= <- <- <-]. exists payload, nonce, row, i, u, p, who. rewrite L3. by split_and!.
Qed.

(** A token that verifies is one that unpacks. *)
Lemma verify_unpacks token d now payload :
  verify_authorization_token _token_key token d now = Ok (Some payload) → _unpack _token_key token = Some payload.
Proof.
  unfold verify_authorization_token. destruct (_unpack _token_key token) as [p|]; [|done].
  destruct (negb _); [done|]. destruct (negb _); [done|]. destruct (expired _ _); [done|].
  destruct (get "dom" p); try done. destruct (_ && _); [|done]. case_decide; [|done]. by intros [= ->].
Qed.

(** What stands behind a 200. *)
Lemma check_allows c r s headers s' :
  forward_auth_check _cookie_key (Some c) r s = (Ok (fa_allow headers), s') →
  ∃ p, _resolve_app s r c = Some p ∧
    ((is_public_path p (text_of (before question (chars (_original_request_uri r)))) = true ∧ headers = []) ∨
     ∃ who u, read_forward_auth_cookie _cookie_key (rq_cookie r) (po_clock s) = Some who ∧
       uuid_of_text (py_str (get "sub" who)) = Some u ∧ access_of s (fc_tenant c) u (pa_id p) = true ∧
       headers = build_forwarded_headers p
         (mk_identity (get "sub" who) (get "email" who) (get "name" who) (get "groups" who))).
Proof.
  unfold forward_auth_check. destruct (rq_limited r); [discriminate|]. rewrite run_gets_bind. unfold id.
  destruct (_resolve_app s r c) as [p|]; [|discriminate]. destruct (is_public_path _ _) eqn:Hpub.
  { intros [= <- <-]. exists p. eauto. }
  destruct (read_forward_auth_cookie _ _ _) as [who|] eqn:Hwho.
  - unfold recheck_cookie_access. destruct (uuid_of_text _) as [u|] eqn:Hu; [|discriminate].
    unfold authorize_app_access. rewrite run_bind_assoc, run_gets_bind. destruct (access_of s _ u _) eqn:Ha.
    + cbn [negb when]. rewrite run_bind_assoc, !run_ret_bind. unfold respond_allow, lift.
      destruct (forallb _ _); [|discriminate]. intros [= <- <-]. exists p. split; [done|].
      right. by exists who, u.
    + cbn [negb when]. rewrite run_bind_assoc, run_bind.
      destruct (log_proxy_event _ _ _ _ _ _ s) as [[]]; discriminate.
  - rewrite run_bind. destruct (when _ _ s) as [[]]; discriminate.
Qed.
End handlers.

(** ** Histories *)

Section world.
Context `{Collation} `{PortalIds} `{PortalHex} `{UrlChecks} `{GroupAges} `{Floats} `{UuidText} `{UuidParse} `{HeaderText}.
Context (_token_key _cookie_key : list Z) (BASE_DOMAIN : string) (IS_DEV : bool).
Implicit Types (s : portal) (t : uuid).

Inductive portal_op :=
  | op_register t (u : requesting_user) (domain portal_host : string)
  | op_verify t (u : requesting_user) (i : uuid) (dns : string → list string)
  | op_delete_domain t (u : requesting_user) (i : uuid)
  | op_create t (u : requesting_user) (data : proxy_create)
  | op_update t (u : requesting_user) (i : uuid) (data : proxy_update)
  | op_delete t (u : requesting_user) (i : uuid)
  | op_grant t (u : requesting_user) (i g : uuid)
  | op_revoke t (u : requesting_user) (i g : uuid)
  | op_check (r : fa_request)
  | op_start (r : fa_request) (rd : string)
  | op_authorize t (user : option uuid) (domain portal_host rd : string)
  | op_callback (r : fa_request) (token : string)
  | op_cleanup.

Inductive answer := finished (r : outcome ()) | answered (r : outcome fa_reply) | refused (status : Z).

Definition finish {A} (m : M portal A) s : answer * portal :=
  let '(r, s') := m s in (finished (match r with Ok _ => Ok () | Raise e => Raise e end), s').
Definition serve (path : string) (r : fa_request) (m : option fa_context → M portal fa_reply) s : answer * portal :=
  match tenant_guard BASE_DOMAIN s path r with
  | admitted c => let '(x, s') := m c s in (answered x, s')
  | rejected n => (refused n, s)
  end.
Definition run_op (o : portal_op) s : answer * portal :=
  match o with
  | op_register t u d h => finish (register_protected_domain t u d h) s
  | op_verify t u i dns => finish (verify_protected_domain t u i dns) s
  | op_delete_domain t u i => finish (delete_protected_domain t u i) s
  | op_create t u data => finish (create_proxy_app t u data) s
  | op_update t u i data => finish (update_proxy_app t u i data) s
  | op_delete t u i => finish (delete_proxy_app t u i) s
  | op_grant t u i g => finish (add_proxy_app_grant t u i g) s
  | op_revoke t u i g => finish (remove_proxy_app_grant t u i g) s
  | op_check r => serve "/forward-auth/check" r (λ c, forward_auth_check _cookie_key c r) s
  | op_start r rd => serve "/forward-auth/start" r (λ c, forward_auth_start BASE_DOMAIN c rd) s
  | op_authorize t user d h rd => let '(x, s') := forward_auth_authorize _token_key t user d h rd s in (answered x, s')
  | op_callback r token =>
      serve "/forward-auth/callback" r (λ c, forward_auth_callback _token_key _cookie_key IS_DEV c token) s
  | op_cleanup => finish cleanup_expired_nonces s
  end.

Record visit := mk_visit { vi_state : portal; vi_op : portal_op; vi_answer : answer }.

(** The answer of [v] redirects to a callback URL with the token [x]; it sets
    the cookie [x]. *)
Definition hands_out (v : visit) (x : string) : Prop :=
  ∃ t user d h rd url, vi_op v = op_authorize t user d h rd ∧
    vi_answer v = answered (Ok (fa_redirect url None)) ∧ param "token" (url_params url) = Some x.
Definition sets_cookie (v : visit) (x : string) : Prop :=
  ∃ r token url ck, vi_op v = op_callback r token ∧ vi_answer v = answered (Ok (fa_redirect url (Some ck))) ∧
    ck_value ck = x.
(** A browser presents what it was given, or something that does not bear the
    server's signature. *)
Definition presentable (h : list visit) (o : portal_op) : Prop :=
  match o with
  | op_check r => ∀ x, rq_cookie r = Some x → (∃ v, v ∈ h ∧ sets_cookie v x) ∨ _unpack _cookie_key x = None
  | op_callback _ x => (∃ v, v ∈ h ∧ hands_out v x) ∨ _unpack _token_key x = None
  | op_authorize _ _ _ _ rd => valid_text rd
  | _ => True
  end.

(** Anything else: time passes, tenants and their directories change, but not
    the tables of the portal. *)
Definition elsewhere s s' : Prop :=
  po_domains s' = po_domains s ∧ po_proxies s' = po_proxies s ∧ po_nonces s' = po_nonces s ∧
  (po_draws s <= po_draws s')%nat ∧ po_clock s <= po_clock s' ∧
  ∀ t x, po_tenants s !! t = Some x → ∃ x', po_tenants s' !! t = Some x' ∧ same_apps x x'.

(** The database holds texts. *)
Definition texts_ok s : Prop := ∀ t u who,
  build_forward_auth_identity s t u = Some who →
  Forall valid_text (si_email who :: si_display_name who :: si_groups who).

Inductive world : list visit → portal → Prop :=
  | world_start s : po_domains s = ∅ → po_proxies s = ∅ → po_nonces s = ∅ → world [] s
  | world_elsewhere h s s' : world h s → elsewhere s s' → world h s'
  | world_visit h s o a s' : world h s → presentable h o → texts_ok s →
      run_op o s = (a, s') → world (h ++ [mk_visit s o a]) s'.

(** Every visit of a history was made in such a world. *)
Lemma world_split h s : world h s → ∀ h1 v h2, h = h1 ++ v :: h2 →
  world h1 (vi_state v) ∧ presentable h1 (vi_op v) ∧ texts_ok (vi_state v) ∧
  ∃ s', run_op (vi_op v) (vi_state v) = (vi_answer v, s') ∧ world (h1 ++ [v]) s'.
Proof.
  induction 1 as [s|h s s' _ IH|h s o a s' Hw IH Hp Ht Hr]; intros h1 v h2 E; [by destruct h1|by eapply IH|].
  destruct h2 as [|v2 h2 _] using rev_ind.
  - apply app_inj_tail in E as [<- <-]. simpl. split_and!; try done. exists s'. split; [done|].
    by eapply world_visit.
  - rewrite app_comm_cons, app_assoc in E. apply app_inj_tail in E as [E _]. by eapply IH.
Qed.

(** *** The tables *)

Lemma finish_keeps {A} (I : portal → Prop) (m : M portal A) s : keeps I m → I s → I (finish m s).2.
Proof. intros Hm Hs. specialize (Hm s Hs). unfold finish. by destruct (m s). Qed.
Lemma serve_keeps (I : portal → Prop) path r m s : (∀ c, keeps I (m c)) → I s → I (serve path r m s).2.
Proof.
  intros Hm Hs. unfold serve. destruct (tenant_guard _ _ _ _) as [c|]; [|done].
  specialize (Hm c s Hs). by destruct (m c s).
Qed.

Lemma portal_ok_nonces f s : portal_ok s → portal_ok (set_nonces f s).
Proof. intros [A B C D]. by split. Qed.
Lemma portal_ok_draws f s : portal_ok s → portal_ok (set_portal_draws f s).
Proof. intros [A B C D]. by split. Qed.
Lemma keeps_check c r : keeps portal_ok (forward_auth_check _cookie_key c r).
Proof.
  unfold forward_auth_check, recheck_cookie_access, authorize_app_access, log_proxy_event. keeps_auto.
Qed.
Lemma keeps_start c rd : keeps portal_ok (forward_auth_start BASE_DOMAIN c rd).
Proof. unfold forward_auth_start. keeps_auto. Qed.
Lemma keeps_authorize t user d h rd : keeps portal_ok (forward_auth_authorize _token_key t user d h rd).
Proof.
  unfold forward_auth_authorize, issue_authorization_token, create_nonce, authorize_app_access, log_proxy_event.
  keeps_auto. intros s1 Hs1. by apply portal_ok_nonces.
Qed.
Lemma keeps_callback c token : keeps portal_ok (forward_auth_callback _token_key _cookie_key IS_DEV c token).
Proof.
  assert (∀ n d now, keeps portal_ok (consume_nonce n d now)) as Hc.
  { intros n d now s Hs. unfold consume_nonce, update. destruct (po_nonces s !! n); [|done].
    case_decide; [by apply portal_ok_nonces|done]. }
  unfold forward_auth_callback, redeem_authorization_token, log_proxy_event. keeps_auto.
Qed.
Lemma keeps_cleanup : keeps portal_ok cleanup_expired_nonces.
Proof. unfold cleanup_expired_nonces. keeps_auto. intros s Hs. by apply portal_ok_nonces. Qed.

Lemma run_op_keeps o s : portal_ok s → portal_ok (run_op o s).2.
Proof.
  intros Hs. destruct o; cbn [run_op]; try (apply finish_keeps; [solve [eauto with keeps]|done]).
  - apply serve_keeps; [|done]. intros c. apply keeps_check.
  - apply serve_keeps; [|done]. intros c. apply keeps_start.
  - pose proof (keeps_authorize t user domain portal_host rd s Hs) as Ha. by destruct (forward_auth_authorize _ _ _ _ _ _ s).
  - apply serve_keeps; [|done]. intros c. apply keeps_callback.
  - apply finish_keeps; [apply keeps_cleanup|done].
Qed.
Lemma elsewhere_ok s s' : elsewhere s s' → portal_ok s → portal_ok s'.
Proof.
  intros (E1 & E2 & _ & _ & _ & E6) [A B C D]. split.
  - rewrite E1. apply A.
  - rewrite E1. apply B.
  - rewrite E1. apply C.
  - rewrite E2. intros i x Hx. destruct (D i x Hx) as (Hd & Hp & Hh & d & Ht & Ha). unfold proxy_ok. rewrite E1.
    split_and!; try done. unfold tenant_dir in *. apply fmap_Some in Ht as (m & Hm & ->).
    destruct (E6 _ _ Hm) as (m' & Hm' & Hsame). exists (ma_dir m'). rewrite Hm'. split; [done|]. by rewrite Hsame.
Qed.
Lemma world_ok h s : world h s → portal_ok s.
Proof.
  induction 1 as [s E1 E2 E3|h s s' _ IH He|h s o a s' Hw IH Hp Ht Hr].
  - split; rewrite ?E1, ?E2; by intros.
  - by eapply elsewhere_ok.
  - pose proof (run_op_keeps o s IH) as Hk. by rewrite Hr in Hk.
Qed.

(** *** How the tables change in a step *)

(** A frame for an operation: whatever only looks at tables it leaves alone. *)
Lemma run_op_frame o s (I : portal → Prop) :
  (∀ f s, I s → I (set_tenants f s)) → (∀ f s, I s → I (set_proxies f s)) →
  (∀ f s, I s → I (set_protected f s)) → (∀ f s, I s → I (set_nonces f s)) →
  (∀ s, I s → I (set_portal_draws S s)) → I s → I (run_op o s).2.
Proof.
  intros T P D N R Hs. destruct o; cbn [run_op].
  - apply finish_keeps; [by apply frame_register|done].
  - apply finish_keeps; [by apply frame_verify|done].
  - apply finish_keeps; [by apply frame_delete_domain|done].
  - apply finish_keeps; [by apply frame_create|done].
  - apply finish_keeps; [by apply frame_update_app|done].
  - apply finish_keeps; [by apply frame_delete_app|done].
  - apply finish_keeps; [by apply frame_grant|done].
  - apply finish_keeps; [by apply frame_revoke|done].
  - apply serve_keeps; [|done]. intros c. by apply frame_check.
  - apply serve_keeps; [|done]. intros c. by apply frame_start.
  - pose proof (frame_authorize _token_key I T N R t user domain portal_host rd s Hs) as Ha.
    by destruct (forward_auth_authorize _ _ _ _ _ _ s).
  - apply serve_keeps; [|done]. intros c. by apply frame_callback.
  - apply finish_keeps; [by apply frame_cleanup|done].
Qed.
Lemma run_op_draws o s : (po_draws s <= po_draws (run_op o s).2)%nat.
Proof.
  apply (run_op_frame o s (λ s', (po_draws s <= po_draws s')%nat)); try done. intros s1 Hs1. simpl. lia.
Qed.

Definition registers_or_verifies (o : portal_op) : bool :=
  match o with op_register _ _ _ _ | op_verify _ _ _ _ | op_delete_domain _ _ _ => true | _ => false end.
Lemma run_op_domains o s : registers_or_verifies o = false → po_domains (run_op o s).2 = po_domains s.
Proof.
  intros Ho. destruct o; try done; cbn [run_op].
  - apply (finish_keeps (λ s', po_domains s' = po_domains s)); [by apply frame_create|done].
  - apply (finish_keeps (λ s', po_domains s' = po_domains s)); [by apply frame_update_app|done].
  - apply (finish_keeps (λ s', po_domains s' = po_domains s)); [by apply frame_delete_app|done].
  - apply (finish_keeps (λ s', po_domains s' = po_domains s)); [by apply frame_grant|done].
  - apply (finish_keeps (λ s', po_domains s' = po_domains s)); [by apply frame_revoke|done].
  - apply (serve_keeps (λ s', po_domains s' = po_domains s)); [|done]. intros c. by apply frame_check.
  - apply (serve_keeps (λ s', po_domains s' = po_domains s)); [|done]. intros c. by apply frame_start.
  - pose proof (frame_authorize _token_key (λ s', po_domains s' = po_domains s)) as Ha.
    specialize (Ha ltac:(done) ltac:(done) ltac:(done) t user domain portal_host rd s eq_refl).
    by destruct (forward_auth_authorize _ _ _ _ _ _ s).
  - apply (serve_keeps (λ s', po_domains s' = po_domains s)); [|done]. intros c. by apply frame_callback.
Qed.

(** The rows of a step: an old one; a new one, that waits for its challenge;
    the one that was checked. *)
Inductive domain_step s s' (o : portal_op) (i : uuid) (r' : protected_row) : Prop :=
  | domain_same : po_domains s !! i = Some r' → domain_step s s' o i r'
  | domain_new : pr_status r' = pending → pr_token r' = Some (portal_hex 24 (po_draws s)) →
      (po_draws s < po_draws s')%nat → domain_step s s' o i r'
  | domain_failed r : po_domains s !! i = Some r → pr_token r' = pr_token r → pr_status r' = failed →
      domain_step s s' o i r'
  | domain_verified r u dns token : po_domains s !! i = Some r → o = op_verify (pr_tenant r) u i dns →
      ru_role u = super_admin → pr_token r = Some token →
      challenge_record_value token ∈ dns (challenge_record_name (pr_domain r)) →
      pr_tenant r' = pr_tenant r → pr_domain r' = pr_domain r → pr_token r' = None → domain_step s s' o i r'.

Lemma after_log {A} t actor ty i name md (k : () → M portal A) s :
  (∀ a, keeps (λ s', po_domains s' = po_domains s ∧ po_draws s' = po_draws s) (k a)) →
  po_domains ((po_log t actor ty i name md ≫= k) s).2 = po_domains s ∧
  po_draws ((po_log t actor ty i name md ≫= k) s).2 = po_draws s.
Proof.
  intros Hk. apply (keeps_bind (λ s', po_domains s' = po_domains s ∧ po_draws s' = po_draws s)); [|done|done].
  by apply frame_po_log.
Qed.

Ltac guard_same :=
  match goal with |- context [if ?b then (Raise _, _) else _] => destruct b eqn:?;
    [let Hi := fresh in intros Hi; apply domain_same; exact Hi|] end.

Lemma register_step t u d h s i r' :
  po_domains (register_protected_domain t u d h s).2 !! i = Some r' →
  domain_step s (register_protected_domain t u d h s).2 (op_register t u d h) i r'.
Proof.
  unfold register_protected_domain, require_super_admin. rewrite run_raise_if_bind. guard_same. rewrite run_lift_bind.
  destruct (_validate_host (_normalize_domain_host d)) as [[]|]; [|by apply domain_same]. rewrite run_lift_bind.
  destruct (_validate_host (_normalize_domain_host h)) as [[]|]; [|by apply domain_same].
  rewrite run_raise_if_bind. guard_same. rewrite run_gets_bind, run_raise_if_bind. guard_same.
  rewrite run_raise_if_bind. guard_same. unfold draw_hex. rewrite run_update_bind. unfold id. cbn [fst snd].
  set (s1 := set_portal_draws S s). unfold create_protected_domain. rewrite run_bind_assoc, run_gets_bind. unfold id.
  do 7 (rewrite run_bind_assoc, run_raise_if_bind; guard_same).
  rewrite run_bind_assoc, run_modify_bind, run_ret_bind.
  match goal with |- context [po_domains ((po_log ?t ?a ?ty ?i ?n ?md ≫= ?k) ?s2).2] =>
    destruct (after_log t a ty i n md k s2) as [-> E]; [intros []; keeps_auto|] end.
  intros Hi. cbn in Hi. apply lookup_insert_Some in Hi as [[<- <-]|[_ Hi]]; [|by apply domain_same].
  apply domain_new; [done|done|]. rewrite E. simpl. lia.
Qed.
Lemma verify_step t u i dns s j r' :
  po_domains (verify_protected_domain t u i dns s).2 !! j = Some r' →
  domain_step s (verify_protected_domain t u i dns s).2 (op_verify t u i dns) j r'.
Proof.
  unfold verify_protected_domain, require_super_admin, require_protected. run. destruct (bool_decide _) eqn:Hu;
    [by apply domain_same|]. run.
  destruct (db_get_protected_domain s t i) as [r|] eqn:Hr; [|by apply domain_same]. run.
  destruct (decide (pr_status r = verified)); [by apply domain_same|].
  destruct (pr_token r) as [[|c token]|] eqn:Ht; [by apply domain_same| |by apply domain_same].
  pose proof (db_get_protected_domain_Some s t i r Hr) as [Hi <-].
  destruct (decide (_ ∈ dns _)) as [Hdns|Hdns]; run; unfold update_protected_domain; run; rewrite Hr; cbn [fst snd];
    match goal with |- context [po_domains ((po_log ?t ?a ?ty ?i ?n ?md ≫= ?k) ?s2).2] =>
      destruct (after_log t a ty i n md k s2) as [-> E]; [intros []; keeps_auto|] end;
    intros Hj; cbn in Hj; apply lookup_insert_Some in Hj as [[<- <-]|[_ Hj]]; try (by apply domain_same).
  - apply bool_decide_eq_false, dec_stable in Hu. by eapply domain_verified.
  - by eapply domain_failed.
Qed.
Lemma delete_domain_step t u i s j r' :
  po_domains (delete_protected_domain t u i s).2 !! j = Some r' → po_domains s !! j = Some r'.
Proof.
  unfold delete_protected_domain, require_super_admin, require_protected. run. pass_guard. run.
  destruct (db_get_protected_domain s t i) as [r|] eqn:Hr; [|done]. run. unfold db_delete_protected_domain. run.
  rewrite Hr. cbn [fst snd].
  match goal with |- context [po_log ?t ?a ?ty ?i ?n ?md ?s2] =>
    pose proof (frame_po_log (λ s', po_domains s' = po_domains s2) ltac:(done) t a ty i n md s2 eq_refl) as -> end.
  cbn. intros [_ Hj]%lookup_delete_Some.
  by rewrite (proj1 (drop_proxies (apps_of_domain s i) s)) in Hj.
Qed.
Lemma finish_state {A} (m : M portal A) s : (finish m s).2 = (m s).2.
Proof. unfold finish. by destruct (m s). Qed.

Lemma run_op_step o s i r' : po_domains (run_op o s).2 !! i = Some r' → domain_step s (run_op o s).2 o i r'.
Proof.
  destruct (registers_or_verifies o) eqn:Ho.
  - destruct o; try done; cbn [run_op]; rewrite finish_state; intros Hi.
    + by apply register_step.
    + by apply verify_step.
    + apply domain_same. by eapply delete_domain_step.
  - rewrite run_op_domains by done. by apply domain_same.
Qed.

(** *** How a domain came to be verified *)

Definition proved (h : list visit) (i : uuid) (r : protected_row) : Prop :=
  ∃ h1 v h2 u dns k, h = h1 ++ v :: h2 ∧ vi_op v = op_verify (pr_tenant r) u i dns ∧ ru_role u = super_admin ∧
    (k < po_draws (vi_state v))%nat ∧
    challenge_record_value (portal_hex 24 k) ∈ dns (challenge_record_name (pr_domain r)).
Lemma proved_app h v i r : proved h i r → proved (h ++ [v]) i r.
Proof. intros (h1 & w & h2 & u & dns & k & -> & Hw). exists h1, w, (h2 ++ [v]), u, dns, k. by rewrite <- app_assoc. Qed.

Lemma world_tokens h s : world h s → ∀ i r, po_domains s !! i = Some r →
  (∀ token, pr_token r = Some token → ∃ k, token = portal_hex 24 k ∧ (k < po_draws s)%nat) ∧
  (pr_status r = verified → proved h i r).
Proof.
  induction 1 as [s E1 E2 E3|h s s' Hw IH (E1 & _ & _ & E4 & _)|h s o a s' Hw IH Hp Ht Hr]; intros i r.
  - by rewrite E1.
  - rewrite E1. intros Hi. destruct (IH i r Hi) as [I1 I2]. split; [|done].
    intros token Htok. destruct (I1 token Htok) as (k & -> & Hk). exists k. split; [done|lia].
  - intros Hi. pose proof (run_op_step o s i r) as Hstep. pose proof (run_op_draws o s) as Hd.
    rewrite Hr in Hstep, Hd. simpl in *.
    destruct (Hstep Hi) as [Hs|Hst Htok Hlt|r0 L0 Htok Hst|r0 u dns token L0 -> Hu Htok Hdns Ht1 Hd1 Hnone].
    + destruct (IH i r Hs) as [I1 I2]. split; [|by intros ?%I2; apply proved_app].
      intros token Htok. destruct (I1 token Htok) as (k & -> & Hk). exists k. split; [done|lia].
    + rewrite Hst. split; [|done]. intros token. rewrite Htok. intros [= <-]. by eexists.
    + rewrite Hst, Htok. split; [|done]. destruct (IH i r0 L0) as [I1 _].
      intros token Htok'. destruct (I1 token Htok') as (k & -> & Hk). exists k. split; [done|lia].
    + rewrite Hnone. split; [done|]. intros _. destruct (IH i r0 L0) as [I1 _].
      destruct (I1 token Htok) as (k & -> & Hk).
      exists h, (mk_visit s (op_verify (pr_tenant r0) u i dns) a), [], u, dns, k.
      rewrite Ht1, Hd1. by split_and!.
Qed.

Lemma external_url_facts raw domain url : _validate_external_url raw domain = Ok url →
  ∃ parts h, urlsplit url = Ok parts ∧ us_scheme parts = "https" ∧ hostname parts = Some h ∧
    under_domain (_normalize_app_host h) domain = true.
Proof.
  unfold _validate_external_url. destruct (decide _); [done|].
  destruct (urlsplit (py_strip raw)) as [parts|] eqn:Hs; [|done]. cbn [mbind outcome_bind].
  destruct (decide (us_scheme parts ≠ "https")) as [|Hsch]; [done|]. apply dec_stable in Hsch.
  destruct (hostname parts) as [h|] eqn:Hh; [|done]. destruct (under_domain _ _) eqn:Hu; [|done].
  intros [= <-]. by exists parts, h.
Qed.

(** C14. After any history of the management services and the handshake: no two
    protected domains of any tenants share a portal host, no tenant has a
    domain twice, every portal host lies under its domain, a domain holds a
    challenge exactly until it is verified; and every proxy app belongs to a
    verified domain of its own tenant, has an https URL whose host lies under
    that domain, and the row the access resolver reads. *)
Theorem portal_tables_sound h s : world h s →
  (∀ i j r r', po_domains s !! i = Some r → po_domains s !! j = Some r' →
     pr_portal_host r = pr_portal_host r' ∨ (pr_tenant r = pr_tenant r' ∧ pr_domain r = pr_domain r') → i = j) ∧
  (∀ i r, po_domains s !! i = Some r →
     _validate_host (pr_domain r) = Ok () ∧ _validate_host (pr_portal_host r) = Ok () ∧
     under_domain (pr_portal_host r) (pr_domain r) = true ∧
     (pr_status r = verified ↔ pr_token r = None) ∧ (pr_status r = verified ↔ is_Some (pr_verified_at r))) ∧
  (∀ i x, po_proxies s !! i = Some x →
     ∃ r d parts host, po_domains s !! px_domain_id x = Some r ∧ pr_tenant r = px_tenant x ∧ pr_status r = verified ∧
       urlsplit (px_external_url x) = Ok parts ∧ us_scheme parts = "https" ∧ hostname parts = Some host ∧
       under_domain (_normalize_app_host host) (pr_domain r) = true ∧
       tenant_dir s (px_tenant x) = Some d ∧ is_Some (apps d !! (proxy_app, i))).
Proof.
  intros [A B C D]%world_ok. split_and!.
  - intros i j r r' Hi Hj [Heq|[H1' H2']]; eauto.
  - intros i r Hi. destruct (C i r Hi) as (? & ? & ? & ? & ? & _). by split_and!.
  - intros i x Hx. destruct (D i x Hx) as ((r & Hr & Ht & Hv & raw & Hraw) & _ & _ & d & Hd & Ha).
    destruct (external_url_facts _ _ _ Hraw) as (parts & host & ? & ? & ? & ?).
    by exists r, d, parts, host.
Qed.

(** C15. A domain is verified only if a super administrator of its tenant asked to
    verify it, at an earlier time, when DNS answered, for the challenge name
    under that domain, the challenge value of a token this system had drawn. *)
Theorem verified_needs_txt h s i r : world h s → po_domains s !! i = Some r → pr_status r = verified →
  ∃ h1 v h2 u dns k, h = h1 ++ v :: h2 ∧ vi_op v = op_verify (pr_tenant r) u i dns ∧ ru_role u = super_admin ∧
    (k < po_draws (vi_state v))%nat ∧
    _CHALLENGE_VALUE_PREFIX +:+ portal_hex 24 k ∈ dns ("_weftid-challenge." +:+ pr_domain r).
Proof.
  intros Hw Hi Hv. destruct (world_tokens h s Hw i r Hi) as [_ Hp].
  destruct (Hp Hv) as (h1 & v & h2 & u & dns & k & ? & ? & ? & ? & Hdns).
  exists h1, v, h2, u, dns, k. by split_and!.
Qed.

(** *** Nonces *)

Definition nonces_step s s' : Prop :=
  (∀ n row, po_nonces s' !! n = Some row →
     po_nonces s !! n = Some row ∨ (n = portal_hex 32 (po_draws s) ∧ (po_draws s < po_draws s')%nat)).
Lemma nonces_step_same s s' : po_nonces s' = po_nonces s → nonces_step s s'.
Proof. intros E n row. rewrite E. by left. Qed.

Lemma authorize_nonces t user d h rd s : nonces_step s (forward_auth_authorize _token_key t user d h rd s).2.
Proof.
  unfold forward_auth_authorize. destruct (_ || _ || _); [by apply nonces_step_same|]. run.
  destruct (get_tenant_verified_domain _ _ _ _) as [row|]; [|by apply nonces_step_same].
  destruct user as [u|]; [|by apply nonces_step_same]. run.
  destruct (resolve_app_for_rd s t row.1 rd) as [[p|]|]; [|by apply nonces_step_same..]. run.
  destruct (_safe_rd rd _) as [[safe_rd|]|]; [|by apply nonces_step_same..]. unfold authorize_app_access. run.
  destruct (access_of s t u (pa_id p)); simpl.
  - run. rewrite run_bind.
    assert (nonces_step s (issue_authorization_token _token_key t u (_normalize_host_value d) (pa_id p) safe_rd s).2) as Hi.
    { unfold issue_authorization_token, draw_hex, create_nonce. run.
      repeat match goal with |- context [if ?b then (Raise _, _) else _] =>
        destruct b; [by apply nonces_step_same|] end.
      run. intros n r. cbn. intros [[<- _]|[_ Hn]]%lookup_insert_Some; [right; split; [done|lia]|by left]. }
    destruct (issue_authorization_token _ _ _ _ _ _ s) as [[tok|] s1]; exact Hi.
  - run. rewrite run_bind. unfold log_proxy_event.
    match goal with |- context [po_log ?t ?a ?ty ?i ?n ?md s] => pose proof (of_tenant_log s t a ty i n md) as Hlog end.
    destruct (po_log _ _ _ _ _ _ s) as [[[]|] s1]; [|by subst; apply nonces_step_same].
    run. apply nonces_step_same. naive_solver.
Qed.
(** The other operations on nonces only take some away. *)
Definition fewer_nonces s s' : Prop := po_nonces s' ⊆ po_nonces s.
Lemma fewer_callback c token s : keeps (fewer_nonces s) (forward_auth_callback _token_key _cookie_key IS_DEV c token).
Proof.
  assert (∀ n d now, keeps (fewer_nonces s) (consume_nonce n d now)) as Hc.
  { intros n d now s1 Hs. unfold consume_nonce, update. destruct (po_nonces s1 !! n); [|done].
    case_decide; [|done]. unfold fewer_nonces in *. simpl. etransitivity; [apply delete_subseteq|exact Hs]. }
  assert (∀ t actor ty i name md, keeps (fewer_nonces s) (po_log t actor ty i name md)) as Hl
    by (intros; by apply frame_po_log).
  unfold forward_auth_callback, redeem_authorization_token, log_proxy_event. keeps_auto.
Qed.
Lemma fewer_cleanup s : keeps (fewer_nonces s) cleanup_expired_nonces.
Proof.
  unfold cleanup_expired_nonces. keeps_auto. intros s1 Hs1. unfold fewer_nonces in *. cbn.
  etransitivity; [apply map_filter_subseteq|exact Hs1].
Qed.

Lemma run_op_nonces o s : nonces_step s (run_op o s).2.
Proof.
  assert (∀ s', fewer_nonces s s' → nonces_step s s') as Hfew.
  { intros s' Hf n row Hn. left. by eapply lookup_weaken. }
  assert (∀ A (m : M portal A), keeps (fewer_nonces s) m → nonces_step s (finish m s).2) as Hfin.
  { intros A m Hm. apply Hfew, finish_keeps; [exact Hm|]. unfold fewer_nonces. done. }
  assert (∀ path r m, (∀ c, keeps (fewer_nonces s) (m c)) → nonces_step s (serve path r m s).2) as Hserve.
  { intros path r m Hm. apply Hfew, serve_keeps; [exact Hm|]. unfold fewer_nonces. done. }
  destruct o; cbn [run_op].
  - by apply Hfin, frame_register.
  - by apply Hfin, frame_verify.
  - by apply Hfin, frame_delete_domain.
  - by apply Hfin, frame_create.
  - by apply Hfin, frame_update_app.
  - by apply Hfin, frame_delete_app.
  - by apply Hfin, frame_grant.
  - by apply Hfin, frame_revoke.
  - apply Hserve. intros c. by apply frame_check.
  - apply Hserve. intros c. by apply frame_start.
  - pose proof (authorize_nonces t user domain portal_host rd s) as Ha.
    destruct (forward_auth_authorize _ _ _ _ _ _ s). exact Ha.
  - apply Hserve. intros c. apply fewer_callback.
  - apply Hfin, fewer_cleanup.
Qed.
End world.
