(* ===== verification/ForwardSafety.v ===== *)
(** * What an admitted request was earned by

    Over the histories of ForwardHistory.v: a token is redeemed at most once,
    and a request that /check lets through to something not public presents a
    cookie set, within the hour, by a callback that redeemed, within the
    minute, a token minted for a user who had access then and has access now. *)

From stdpp Require Import gmap strings.
From S2P Require Import Prelude Sha256 GroupDb GroupService OAuthDb OAuthTokens AppAccess MailDb Tokens TokenProofs PasswordStrength Json JsonText Credentials Url PortalDb PortalAdmin ForwardAuth ForwardTokens PortalProofs ForwardHistory.
#[local] Open Scope Z_scope.

(** ** Texts *)

Lemma take_points_all n l :
  (length (filter (λ c, is_cont (Z.of_nat (Ascii.nat_of_ascii c)) = false) l) <= n)%nat → take_points n l = l.
Proof.
  revert n. induction l as [|c l IH]; intros n Hn; [done|]. cbn [take_points].
  destruct (is_cont _) eqn:Ec.
  - rewrite filter_cons_False in Hn by congruence. by rewrite IH.
  - rewrite filter_cons_True in Hn by done. destruct n as [|n]; simpl in Hn; [lia|]. rewrite IH by lia. done.
Qed.
Lemma py_len_chars s :
  py_len s = Z.of_nat (length (filter (λ c, is_cont (Z.of_nat (Ascii.nat_of_ascii c)) = false) (chars s))).
Proof. done. Qed.
Lemma prefix_text_all n s : py_len s <= Z.of_nat n → prefix_text n s = s.
Proof.
  intros Hn. rewrite py_len_chars in Hn. unfold prefix_text.
  rewrite take_points_all by lia. apply text_of_chars.
Qed.

Lemma before_incl c l x : x ∈ before c l → x ∈ l.
Proof.
  unfold before. destruct (cut c l) as [[w rest]|] eqn:E; [|done]. revert w E.
  induction l as [|y l IH]; intros w E Hx; [done|]. cbn [cut] in E. case_decide; simplify_eq/=.
  - by apply not_elem_of_nil in Hx.
  - destruct (cut c l) as [[w' rest']|] eqn:E'; simplify_eq/=. apply elem_of_cons in Hx as [->|Hx].
    + by left.
    + right. by eapply IH.
Qed.
Lemma drop_char_incl c l x : x ∈ drop_char c l → x ∈ l.
Proof.
  induction l as [|y l IH]; [done|]. cbn [drop_char]. case_decide; [|done]. intros Hx. right. auto.
Qed.
Lemma rstrip_char_incl c s x : x ∈ chars (rstrip_char c s) → x ∈ chars s.
Proof.
  unfold rstrip_char. rewrite chars_text_of, !list_elem_of_In, <- !in_rev, <- !list_elem_of_In.
  intros Hx%drop_char_incl. revert Hx. by rewrite list_elem_of_In, <- in_rev, <- list_elem_of_In.
Qed.

(** A validated host has the letters of a host, however it is normalised. *)
Definition host_text (h : string) : Prop := Forall (λ c, host_char c = true) (chars h).
Lemma validated_host h : _validate_host h = Ok () → host_text h.
Proof.
  unfold _validate_host, host_text. repeat (case_decide; [done|]).
  destruct (bool_decide _); [done|]. destruct (bool_decide _); [done|]. destruct (_ || _); [done|].
  destruct (forallb _ _) eqn:Hl; [|done]. intros _. rewrite forallb_forall in Hl.
  apply Forall_forall. intros c Hc. by apply Hl, list_elem_of_In.
Qed.
Lemma host_char_cases (P : Ascii.ascii → bool) c :
  forallb P (chars "abcdefghijklmnopqrstuvwxyz0123456789-.") = true → host_char c = true → P c = true.
Proof.
  intros Hall Hc%bool_decide_eq_true. rewrite forallb_forall in Hall. by apply Hall, list_elem_of_In.
Qed.
Lemma normal_host h : host_text h → host_text (_normalize_host_value h).
Proof.
  unfold host_text, _normalize_host_value, lower_string. rewrite !Forall_forall. intros Hh c.
  rewrite chars_text_of. intros (c' & -> & Hc)%list_elem_of_fmap.
  apply rstrip_char_incl in Hc. rewrite chars_text_of in Hc. apply before_incl, Hh in Hc.
  revert Hc. apply (host_char_cases (λ c, host_char (lower c))). by vm_compute.
Qed.
Lemma host_ascii h : host_text h → is_ascii h = true.
Proof.
  intros Hh. apply is_ascii_Forall. eapply Forall_impl; [exact Hh|]. intros c.
  apply (host_char_cases (λ c, Z.of_nat (Ascii.nat_of_ascii c) <? 128)). by vm_compute.
Qed.
Lemma host_question h : host_text h → question ∉ chars h.
Proof. unfold host_text. rewrite Forall_forall. intros Hh Hq%Hh. done. Qed.
Lemma ascii_valid s : is_ascii s = true → valid_text s.
Proof. apply utf8_valid_ascii. Qed.

Section safety.
Context `{Collation} `{PortalIds} `{PortalHex} `{UrlChecks} `{GroupAges} `{Floats} `{UuidText} `{UuidParse} `{HeaderText}.
Context (_token_key _cookie_key : list Z) (BASE_DOMAIN : string) (IS_DEV : bool).
Implicit Types (s : portal) (t : uuid).
#[local] Notation world := (world _token_key _cookie_key BASE_DOMAIN IS_DEV).
#[local] Notation run_op := (run_op _token_key _cookie_key BASE_DOMAIN IS_DEV).
#[local] Notation presentable := (presentable _token_key _cookie_key).

(** ** Once *)

(** A callback that set a cookie, and the nonce of its token. *)
Definition spends (v : visit) (nonce : string) : Prop :=
  ∃ r token url ck payload, vi_op v = op_callback r token ∧
    vi_answer v = answered (Ok (fa_redirect url (Some ck))) ∧
    _unpack _token_key token = Some payload ∧ get "nonce" payload = JStr nonce.

Lemma serve_answered path r m s x s' : serve BASE_DOMAIN path r m s = (answered x, s') →
  ∃ c, tenant_guard BASE_DOMAIN s path r = admitted c ∧ m c s = (x, s').
Proof.
  unfold serve. destruct (tenant_guard _ _ _ _) as [c|]; [|done]. destruct (m c s) as [y s1] eqn:E.
  intros [= -> ->]. eauto.
Qed.

Lemma drawn_earlier h s n row : world h s → po_nonces s !! n = Some row →
  ∃ k, n = portal_hex 32 k ∧ (k < po_draws s)%nat.
Proof.
  intros Hw. revert n row. induction Hw as [s E1 E2 E3|h s s' _ IH (_ & _ & E3 & E4 & _)|h s o a s' Hw IH Hp Ht Hr];
    intros n row.
  - by rewrite E3.
  - rewrite E3. intros (k & -> & Hk)%IH. exists k. split; [done|lia].
  - pose proof (run_op_nonces _token_key _cookie_key BASE_DOMAIN IS_DEV o s) as Hn.
    pose proof (run_op_draws _token_key _cookie_key BASE_DOMAIN IS_DEV o s) as Hd.
    rewrite Hr in Hn, Hd. simpl in *. intros [Hs|[-> Hlt]]%Hn; [|by exists (po_draws s)].
    destruct (IH _ _ Hs) as (k & -> & Hk). exists k. split; [done|lia].
Qed.

Lemma callback_context r token s url ck s' :
  run_op (op_callback r token) s = (answered (Ok (fa_redirect url (Some ck))), s') →
  ∃ c, tenant_guard BASE_DOMAIN s "/forward-auth/callback" r = admitted (Some c) ∧
    forward_auth_callback _token_key _cookie_key IS_DEV (Some c) token s = (Ok (fa_redirect url (Some ck)), s').
Proof.
  cbn [ForwardHistory.run_op]. intros ([c|] & Hc & Hm)%serve_answered; [eauto|].
  unfold forward_auth_callback in Hm. by destruct (_ <? _).
Qed.
Lemma callback_spends r token s url ck s' :
  run_op (op_callback r token) s = (answered (Ok (fa_redirect url (Some ck))), s') →
  ∃ payload nonce, _unpack _token_key token = Some payload ∧ get "nonce" payload = JStr nonce ∧
    is_Some (po_nonces s !! nonce) ∧ po_nonces s' !! nonce = None ∧ po_draws s' = po_draws s.
Proof.
  intros (c & _ & Hm)%callback_context. apply callback_sets_cookie in Hm
    as (payload & nonce & row & i & u & p & who & Hv & Hn & Hrow & _ & _ & _ & _ & _ & _ & _ & _ & _ & Hs' & Hd).
  apply verify_unpacks in Hv. exists payload, nonce. rewrite Hs', lookup_delete_eq. by split_and!.
Qed.

(** No draw of 32 bytes so far repeats another. *)
Definition draws_differ s : Prop :=
  ∀ k k', (k < po_draws s)%nat → (k' < po_draws s)%nat → portal_hex 32 k = portal_hex 32 k' → k = k'.
Lemma draws_differ_earlier s s' : (po_draws s <= po_draws s')%nat → draws_differ s' → draws_differ s.
Proof. intros Hle Hd k k' Hk Hk'. apply Hd; lia. Qed.
Lemma world_draws h s : world h s → ∀ v, v ∈ h → (po_draws (vi_state v) <= po_draws s)%nat.
Proof.
  induction 1 as [s E1 E2 E3|h s s' _ IH (_ & _ & _ & E4 & _)|h s o a s' Hw IH Hp Ht Hr]; intros v Hv.
  - by apply not_elem_of_nil in Hv.
  - specialize (IH v Hv). lia.
  - pose proof (run_op_draws _token_key _cookie_key BASE_DOMAIN IS_DEV o s) as Hd. rewrite Hr in Hd. simpl in Hd.
    apply elem_of_app in Hv as [Hv|Hv%list_elem_of_singleton]; [specialize (IH v Hv); lia|by subst].
Qed.

Lemma spent_gone h s v nonce : world h s → draws_differ s → v ∈ h → spends v nonce →
  po_nonces s !! nonce = None ∧ ∃ k, nonce = portal_hex 32 k ∧ (k < po_draws s)%nat.
Proof.
  intros Hw. induction Hw as [s E1 E2 E3|h s s' _ IH (_ & _ & E3 & E4 & _)|h s o a s' Hw IH Hp Ht Hr];
    intros Hinj Hv Hsp.
  - by apply not_elem_of_nil in Hv.
  - rewrite E3. destruct (IH (draws_differ_earlier _ _ E4 Hinj) Hv Hsp) as (Hnone & k & -> & Hk). split; [done|]. exists k. split; [done|lia].
  - apply elem_of_app in Hv as [Hv|Hv%list_elem_of_singleton].
    + pose proof (run_op_nonces _token_key _cookie_key BASE_DOMAIN IS_DEV o s) as Hn.
      pose proof (run_op_draws _token_key _cookie_key BASE_DOMAIN IS_DEV o s) as Hd.
      rewrite Hr in Hn, Hd. simpl in *.
      destruct (IH (draws_differ_earlier _ _ Hd Hinj) Hv Hsp) as (Hnone & k & -> & Hk). split; [|exists k; split; [done|lia]].
      destruct (po_nonces s' !! portal_hex 32 k) as [row|] eqn:E; [|done].
      destruct (Hn _ _ E) as [Hs|[Heq Hlt]]; [congruence|]. apply Hinj in Heq; lia.
    + subst v. destruct Hsp as (r & token & url & ck & payload & Ho & Ha & Hu & Hnonce). simpl in *. subst.
      destruct (callback_spends _ _ _ _ _ _ Hr) as (payload' & nonce' & Hu' & Hn' & [row Hrow] & Hgone & Hd).
      rewrite Hu in Hu'. simplify_eq. rewrite Hnonce in Hn'. simplify_eq.
      split; [done|]. rewrite Hd. by eapply drawn_earlier.
Qed.

(** C13. A token sets a cookie once: of two callbacks with the same token, in any
    history, on whichever portal hosts, at most one is answered with one. *)
Theorem token_redeemed_once h s h1 v1 h2 v2 h3 r1 r2 token url1 ck1 url2 ck2 :
  world h s → draws_differ s → h = h1 ++ v1 :: h2 ++ v2 :: h3 →
  vi_op v1 = op_callback r1 token → vi_op v2 = op_callback r2 token →
  vi_answer v1 = answered (Ok (fa_redirect url1 (Some ck1))) →
  vi_answer v2 ≠ answered (Ok (fa_redirect url2 (Some ck2))).
Proof.
  intros Hw Hinj E O1 O2 A1 A2. rewrite app_comm_cons, app_assoc in E.
  destruct (world_split _ _ _ _ _ _ Hw _ _ _ E) as (Hw2 & _ & _ & s2 & Hr2 & _).
  destruct (world_split _ _ _ _ _ _ Hw2 h1 v1 h2 eq_refl) as (_ & _ & _ & s1 & Hr1 & _).
  rewrite O1, A1 in Hr1. rewrite O2, A2 in Hr2.
  destruct (callback_spends _ _ _ _ _ _ Hr1) as (payload & nonce & Hu & Hn & _).
  destruct (callback_spends _ _ _ _ _ _ Hr2) as (payload' & nonce' & Hu' & Hn' & [row Hrow] & _).
  rewrite Hu in Hu'. simplify_eq. rewrite Hn in Hn'. simplify_eq.
  assert (draws_differ (vi_state v2)) as Hinj2.
  { eapply draws_differ_earlier; [|exact Hinj]. eapply world_draws; [exact Hw|]. set_solver. }
  destruct (spent_gone _ _ v1 _ Hw2 Hinj2 ltac:(set_solver) ltac:(by exists r1, token, url1, ck1, payload')) as [Hnone _]. congruence.
Qed.

(** ** Where an admission comes from *)

Lemma safe_rd_kept rd url safe : py_len rd <= Z.of_nat _MAX_URL_LEN →
  _safe_rd rd url = Ok (Some safe) → safe = rd.
Proof.
  intros Hlen%prefix_text_all. unfold _safe_rd. case_decide; [done|]. cbv zeta. rewrite Hlen.
  destruct (rooted _); [by intros [= ->]|]. destruct (urlsplit rd) as [parts|]; [|done]. cbn [mbind outcome_bind].
  case_decide; [done|]. destruct (urlsplit url) as [app_parts|]; [|done]. cbn [mbind outcome_bind].
  case_decide; [done|]. destruct (port_or_443 parts) as [n|]; [|done]. cbn [mbind outcome_bind].
  destruct (port_or_443 app_parts) as [m|]; [|done]. cbn [mbind outcome_bind]. case_decide; [|done]. by intros [= ->].
Qed.

Lemma verified_row s t d row : _verified_domain_row s t d = Some row →
  po_domains s !! row.1 = Some row.2 ∧ pr_tenant row.2 = t ∧ pr_domain row.2 = d ∧
  pr_status row.2 = verified ∧ pr_enabled row.2 = true.
Proof.
  unfold _verified_domain_row. case_decide; [done|]. intros ([i r] & Hf & Hr)%bind_Some.
  destruct (_ || _) eqn:Hg; [done|]. injection Hr as <-.
  apply orb_false_iff in Hg as [Hg1%bool_decide_eq_false%dec_stable Hg2%negb_false_iff].
  unfold get_protected_domain_by_domain in Hf. apply find_row_Some in Hf as [Hi [? ?]]. by split_and!.
Qed.
Lemma tenant_row s t d ph row : get_tenant_verified_domain s t d ph = Some row →
  _verified_domain_row s t d = Some row ∧
  _normalize_host_value (pr_portal_host row.2) = _normalize_host_value ph.
Proof.
  unfold get_tenant_verified_domain. intros (row' & Hr & E)%bind_Some. case_decide; [|done]. by simplify_eq.
Qed.

(** The token a redirect to /callback hands out, and what it was minted for. *)
Lemma handed_out h s t user d ph rd url a s' x :
  world h s → valid_text rd →
  run_op (op_authorize t user d ph rd) s = (a, s') → a = answered (Ok (fa_redirect url None)) →
  param "token" (url_params url) = Some x →
  ∃ u p row, user = Some u ∧ get_tenant_verified_domain s t (_normalize_host_value d) (_normalize_host_value ph) = Some row ∧
    resolve_app_for_rd s t row.1 rd = Ok (Some p) ∧ access_of s t u (pa_id p) = true ∧
    host_text (_normalize_host_value d) ∧
    x = minted _token_key s t u (_normalize_host_value d) (pa_id p) rd.
Proof.
  intros Hw Hrd Hr -> Hx. cbn [ForwardHistory.run_op] in Hr.
  destruct (forward_auth_authorize _ _ _ _ _ _ s) as [y s1] eqn:E. injection Hr as -> ->.
  apply authorize_redirects in E as (u & row & p & safe & -> & _ & Hrow & Hp & Hs & Ha & -> & Hlen).
  apply safe_rd_kept in Hs as ->; [|done].
  pose proof (tenant_row _ _ _ _ _ Hrow) as [Hv _]. apply verified_row in Hv as (Hi & _ & Hd & _).
  destruct (ok_domains _ (world_ok _ _ _ _ _ _ Hw) _ _ Hi) as (Hh1 & Hh2 & _).
  rewrite (proj1 (callback_url _ _ (host_question _ (normal_host _ (validated_host _ Hh2))))) in Hx.
  injection Hx as <-. exists u, p, row. rewrite Hd in Hh1. split_and!; try done. by apply validated_host.
Qed.

Lemma guard_context s path r c : tenant_guard BASE_DOMAIN s path r = admitted (Some c) →
  ∃ i row, po_domains s !! i = Some row ∧ c = context_of (i, row) ∧ pr_status row = verified ∧ pr_enabled row = true.
Proof.
  unfold tenant_guard. case_decide; [done|].
  destruct (if path_starts _ _ then _ else _) as [c'|] eqn:E.
  - intros [= <-]. destruct (path_starts _ _); [|done]. unfold portal_context in E.
    apply fmap_Some in E as ([i row] & Hh & ->). apply head_Some_elem_of, list_elem_of_omap in Hh as (x & _ & Hx).
    apply resolve_portal_host_Some in Hx as (? & _ & ? & ?). by exists i, row.
  - repeat (case_decide; [done|]). destruct (_ && _); done.
Qed.

Section texts.
Hypothesis uuid_back : ∀ i, uuid_of_text (uuid_text i) = Some i.
Hypothesis uuid_valid : ∀ i, valid_text (uuid_text i).
Hypothesis hex_valid : ∀ n k, valid_text (portal_hex n k).

Lemma minted_valid s t u d i rd : valid_text rd → host_text d →
  Forall valid_text [uuid_text u; uuid_text t; d; uuid_text i; rd; portal_hex 32 (po_draws s)].
Proof. intros Hrd Hd%host_ascii%ascii_valid. by repeat constructor. Qed.

Lemma redeemed_for h s r s1 t u d i rd url ck s' :
  world h s → valid_text rd → host_text d →
  run_op (op_callback r (minted _token_key s1 t u d i rd)) s = (answered (Ok (fa_redirect url (Some ck))), s') →
  ∃ p who ph, get_app_for_callback s t i = Some p ∧ build_forward_auth_identity s t u = Some who ∧
    tenant_guard BASE_DOMAIN s "/forward-auth/callback" r = admitted (Some (mk_context t d ph)) ∧
    _safe_rd rd (px_external_url (pa_row p)) = Ok (Some url) ∧
    ck = forward_auth_cookie_params d (negb IS_DEV) (build_forward_auth_cookie_value _cookie_key (si_user_id who)
      (si_email who) (si_display_name who) (si_groups who) FORWARD_AUTH_COOKIE_TTL (po_clock s)) ∧
    po_clock s <= (po_clock s1 / 1000000 + FORWARD_AUTH_TOKEN_TTL) * 1000000.
Proof.
  intros Hw Hrd Hd (c & Hc & Hm)%callback_context.
  apply callback_sets_cookie in Hm as (payload & nonce & row & i' & u' & p & who & Hv & _ & _ & _ & _ & Ht & Hi & Hu &
    Hp & Hwho & Hs & -> & _).
  destruct (guard_context _ _ _ _ Hc) as (j & dr & Hj & -> & _).
  destruct (ok_domains _ (world_ok _ _ _ _ _ _ Hw) _ _ Hj) as (Hh%validated_host%host_ascii & _).
  pose proof (minted_valid s1 t u d i rd Hrd Hd) as Hvalid.
  unfold minted in Hv. rewrite verify_minted in Hv; [|done|by apply host_ascii|done].
  case_decide as Hx; [|done]. destruct Hx as [Hx Hdom]. injection Hv as <-.
  destruct (token_fields _ _ _ _ _ _ (po_clock s1 / 1000000 + FORWARD_AUTH_TOKEN_TTL) Hvalid)
    as (_ & F1 & F2 & _ & F3 & F4 & _).
  rewrite F1 in Hu. rewrite F2 in Ht. rewrite F3 in Hi. rewrite F4 in Hs. cbn [py_str] in *.
  rewrite uuid_back in Hu, Hi. simplify_eq.
  assert (t = fc_tenant (context_of (j, dr))) as -> by (apply (inj Some); by rewrite <- !uuid_back, Ht).
  exists p, who, (pr_portal_host dr). rewrite Hc. cbn in *. by split_and!.
Qed.

Lemma identity_id s t u who : build_forward_auth_identity s t u = Some who → si_user_id who = uuid_text u.
Proof.
  unfold build_forward_auth_identity. intros (m & _ & (w & _ & Hw)%bind_Some)%bind_Some.
  destruct (_ || _); [done|]. by injection Hw as <-.
Qed.

(** Where a cookie of the history comes from. *)
Lemma earned_cookie h s v2 x : world h s → v2 ∈ h → sets_cookie v2 x →
  ∃ h1 v1 h2 h3 t u d ph rd p1 r2 url ck who,
    h = h1 ++ v1 :: h2 ++ v2 :: h3 ∧
    vi_op v1 = op_authorize t (Some u) d ph rd ∧ access_of (vi_state v1) t u (pa_id p1) = true ∧
    vi_op v2 = op_callback r2 (minted _token_key (vi_state v1) t u (_normalize_host_value d) (pa_id p1) rd) ∧
    vi_answer v2 = answered (Ok (fa_redirect url (Some ck))) ∧ x = ck_value ck ∧
    po_clock (vi_state v2) <= (po_clock (vi_state v1) / 1000000 + FORWARD_AUTH_TOKEN_TTL) * 1000000 ∧
    build_forward_auth_identity (vi_state v2) t u = Some who ∧
    ck_value ck = build_forward_auth_cookie_value _cookie_key (si_user_id who) (si_email who) (si_display_name who)
      (si_groups who) FORWARD_AUTH_COOKIE_TTL (po_clock (vi_state v2)) ∧
    Forall valid_text (si_user_id who :: si_email who :: si_display_name who :: si_groups who).
Proof.
  intros Hw (g & h3 & ->)%list_elem_of_split (r2 & token & url & ck & O2 & A2 & <-).
  destruct (world_split _ _ _ _ _ _ Hw _ _ _ eq_refl) as (Hw2 & Hp2 & Htexts & s2 & Hr2 & _).
  rewrite O2, A2 in Hr2. rewrite O2 in Hp2. cbn [ForwardHistory.presentable] in Hp2.
  destruct Hp2 as [(v1 & Hv1 & t & user & d & ph & rd & out & O1 & A1 & Hx)|Hnone].
  2: { destruct (callback_spends _ _ _ _ _ _ Hr2) as (payload & nonce & Hu & _). congruence. }
  apply list_elem_of_split in Hv1 as (h1 & h2 & ->).
  destruct (world_split _ _ _ _ _ _ Hw2 h1 v1 h2 eq_refl) as (Hw1 & Hp1 & _ & s1 & Hr1 & _).
  rewrite O1 in Hp1, Hr1. cbn [ForwardHistory.presentable] in Hp1.
  destruct (handed_out _ _ _ _ _ _ _ _ _ _ _ Hw1 Hp1 Hr1 A1 Hx) as (u & p1 & row & -> & _ & _ & Ha & Hd & ->).
  destruct (redeemed_for _ _ _ _ _ _ _ _ _ _ _ _ Hw2 Hp1 Hd Hr2) as (p & who & ph2 & _ & Hwho & _ & _ & -> & Hclock).
  exists h1, v1, h2, h3, t, u, d, ph, rd, p1, r2, url. eexists _, who.
  rewrite <- app_assoc. split_and!; try done.
  constructor; [by rewrite (identity_id _ _ _ _ Hwho)|]. by eapply Htexts.
Qed.

(** C3. Whatever /check admits was earned: the request came to the portal host of
    a verified, enabled domain, for one enabled app of it; and either the path
    is public, and no header is sent, or the cookie was set by an earlier
    callback, at most an hour ago, for the token that a still earlier sign-in
    of the same user minted at most a minute before, to an app the user had
    access to; the user has access to this app now, and the headers say who
    the user was when the cookie was set. *)
Theorem allow_is_earned h s r headers s' :
  world h s → presentable h (op_check r) → run_op (op_check r) s = (answered (Ok (fa_allow headers)), s') →
  ∃ i row p, po_domains s !! i = Some row ∧ pr_status row = verified ∧ pr_enabled row = true ∧
    _resolve_app s r (context_of (i, row)) = Some p ∧
    ((is_public_path p (text_of (before question (chars (_original_request_uri r)))) = true ∧ headers = []) ∨
     ∃ h1 v1 h2 v2 h3 t u d ph rd p1 r2 url ck who,
       h = h1 ++ v1 :: h2 ++ v2 :: h3 ∧
       vi_op v1 = op_authorize t (Some u) d ph rd ∧ access_of (vi_state v1) t u (pa_id p1) = true ∧
       vi_op v2 = op_callback r2 (minted _token_key (vi_state v1) t u (_normalize_host_value d) (pa_id p1) rd) ∧
       vi_answer v2 = answered (Ok (fa_redirect url (Some ck))) ∧ rq_cookie r = Some (ck_value ck) ∧
       po_clock (vi_state v2) <= po_clock (vi_state v1) + 60 * 1000000 ∧
       po_clock s <= po_clock (vi_state v2) + 3600 * 1000000 ∧
       build_forward_auth_identity (vi_state v2) t u = Some who ∧ access_of s (pr_tenant row) u (pa_id p) = true ∧
       headers = build_forwarded_headers p
         (mk_identity (JStr (uuid_text u)) (JStr (si_email who)) (JStr (si_display_name who))
            (JList (JStr <$> si_groups who)))).
Proof.
  intros Hw Hpres Hr. cbn [ForwardHistory.run_op] in Hr. apply serve_answered in Hr as ([c|] & Hc & Hm); [|done].
  destruct (guard_context _ _ _ _ Hc) as (i & row & Hi & -> & Hv & He).
  apply check_allows in Hm as (p & Hp & Hcase). exists i, row, p. split_and!; try done.
  destruct Hcase as [|(cookie & u & Hread & Hu & Ha & ->)]; [by left|right].
  destruct (rq_cookie r) as [x|] eqn:Hx; [|done].
  destruct (Hpres x Hx) as [(v2 & Hin & Hset)|Hnone].
  2: { unfold read_forward_auth_cookie in Hread. cbn [mbind option_bind] in Hread. case_decide; [done|].
       by rewrite Hnone in Hread. }
  destruct (earned_cookie _ _ _ _ Hw Hin Hset) as (h1 & v1 & h2 & h3 & t & u' & d & ph & rd & p1 & r2 & url & ck & who &
    Eh & O1 & Ha1 & O2 & A2 & -> & Hclock & Hwho & Hvalue & Hvalid).
  rewrite Hvalue in Hread. rewrite read_built in Hread by done. case_decide as Hfresh; [|done]. injection Hread as <-.
  destruct (cookie_fields _ _ _ _ (po_clock (vi_state v2) / 1000000 + FORWARD_AUTH_COOKIE_TTL) Hvalid)
    as (_ & F1 & F2 & F3 & F4 & _).
  rewrite F1, F2, F3, F4 in *. cbn [py_str] in Hu. rewrite (identity_id _ _ _ _ Hwho) in *. rewrite uuid_back in Hu.
  simplify_eq. exists h1, v1, h2, v2, h3, t, u, d, ph, rd, p1, r2, url, ck, who.
  split_and!; try done.
  - pose proof (Z.mul_div_le (po_clock (vi_state v1)) 1000000). unfold FORWARD_AUTH_TOKEN_TTL in *. lia.
  - pose proof (Z.mul_div_le (po_clock (vi_state v2)) 1000000). unfold FORWARD_AUTH_COOKIE_TTL in *. lia.
Qed.
End texts.
End safety.
