(* ===== verification/ForwardFlow.v ===== *)
(** * The handshake of forward authentication

    Its links are read back as they were written; tokens and cookies are read
    back within their time; and a signed-in user with access who follows the
    redirects ends at the application. *)

From stdpp Require Import gmap strings.
From S2P Require Import Prelude Sha256 GroupDb GroupService OAuthDb OAuthTokens AppAccess MailDb Tokens TokenProofs PasswordStrength Json JsonText Credentials SignIn Url PortalDb PortalAdmin ForwardAuth ForwardTokens PortalProofs ForwardHistory ForwardSafety.
#[local] Open Scope Z_scope.

(** ** Hosts that are stored are normal *)

Lemma drop_char_kept c l : head l ≠ Some c → drop_char c l = l.
Proof. destruct l as [|x l]; [done|]. cbn. case_decide; [by subst|done]. Qed.
Lemma lower_host h : host_text h → lower_string h = h.
Proof.
  intros Hh. unfold lower_string. rewrite <- (text_of_chars h) at 2. f_equal.
  unfold host_text in Hh. induction Hh as [|c l Hc _ IH]; [done|]. rewrite fmap_cons, IH. f_equal.
  by pose proof (host_char_cases (λ c, bool_decide (lower c = c)) c ltac:(by vm_compute) Hc) as E%bool_decide_eq_true.
Qed.
Lemma rstrip_dotless h : dotless h → rstrip_char dot_char h = h.
Proof.
  intros Hd. unfold rstrip_char. rewrite drop_char_kept; [by rewrite rev_involutive, text_of_chars|].
  rewrite rev_alt. fold (reverse (chars h)). by rewrite head_reverse.
Qed.
Lemma normal_host_id h : host_text h → dotless h → _normalize_host_value h = h.
Proof.
  intros Hh Hd. unfold _normalize_host_value, before. rewrite cut_none.
  - by rewrite text_of_chars, rstrip_dotless, lower_host.
  - intros Hc. unfold host_text in Hh. rewrite Forall_forall in Hh. by apply Hh in Hc.
Qed.
Lemma normal_domain_id h : host_text h → dotless h → _normalize_domain_host h = h.
Proof.
  intros Hh Hd. unfold _normalize_domain_host. rewrite py_strip_none.
  - rewrite lower_host, rstrip_dotless by done. unfold host_text in Hh.
    destruct (chars h) as [|c l]; [done|]. rewrite decide_False; [done|]. intros ->. by apply Forall_inv in Hh.
  - eapply Forall_impl; [exact Hh|]. intros c Hc.
    by pose proof (host_char_cases (λ c, negb (is_space c)) c ltac:(by vm_compute) Hc) as E%negb_true_iff.
Qed.

(** ** Links *)

(** What a link is made of. *)
Definition link_letter (c : Ascii.ascii) : bool :=
  unreserved c || bool_decide (c ∈ chars "%/?=&").

Lemma get_in n s c : String.get n s = Some c → c ∈ chars s.
Proof.
  revert n. induction s as [|x s IH]; intros n; [done|]. destruct n as [|n]; cbn.
  - intros [= ->]. by left.
  - intros Hc. right. by eapply IH.
Qed.
Lemma no_colon_no_scheme s : colon_char ∉ chars s → contains "://" s = false.
Proof.
  intros Hc. unfold contains. apply bool_decide_eq_false. intros [n Hn]. apply Hc.
  apply String.index_correct1 in Hn. apply (get_in (0 + n)).
  rewrite <- (String.substring_correct1 s n (String.length "://") 0) by (cbn; lia). by rewrite Hn.
Qed.
Lemma link_safe x rest : chars x = slash :: rest → head rest ≠ Some slash → Forall (λ c, link_letter c = true) rest →
  py_len x <= MAX_TARGET_LEN → is_safe_path x = true.
Proof.
  intros Hx Hh Hl Hlen. rewrite Forall_forall in Hl.
  assert (∀ c, c ∈ chars x → link_letter c = true) as Hall by (rewrite Hx; set_solver).
  assert (∀ c, link_letter c = true → is_control c = false ∧ c ≠ backslash ∧ c ≠ colon_char) as Hletter.
  { intros c Hc. pose proof (every_char (λ c, negb (link_letter c) ||
      negb (is_control c) && bool_decide (c ≠ backslash) && bool_decide (c ≠ colon_char)) c) as Hcase.
    specialize (Hcase ltac:(vm_compute; reflexivity)). cbn beta in Hcase. rewrite Hc in Hcase. cbn [negb orb] in Hcase.
    rewrite !andb_true_iff, negb_true_iff, !bool_decide_eq_true in Hcase. by apply and_assoc. }
  unfold is_safe_path. rewrite !andb_true_iff, !bool_decide_eq_true, Z.leb_le, !negb_true_iff, forallb_forall.
  split_and!; try done.
  - intros ->. done.
  - by rewrite Hx.
  - rewrite Hx. destruct rest; [done|]. cbn in *. intros [= ->]. done.
  - intros Hb%Hall%Hletter. by destruct Hb as (_ & ? & _).
  - intros c Hc%list_elem_of_In%Hall%Hletter. apply negb_true_iff. by destruct Hc.
  - apply no_colon_no_scheme. intros Hb%Hall%Hletter. by destruct Hb as (_ & _ & ?).
  - rewrite Hx. cbn. apply bool_decide_eq_false. destruct rest; [done|]. cbn in *. intros [= ->]. done.
Qed.
Lemma quote_link v : Forall (λ c, link_letter c = true) (chars (quote v)).
Proof.
  eapply Forall_impl; [apply quote_letters|]. intros c [Hc| ->]; [|done]. unfold link_letter. by rewrite Hc.
Qed.

Definition link (path : string) (l : list (string * string)) : string := text_of (chars path ++ question :: query l).
Definition plain_keys (l : list (string * string)) : Prop := Forall (λ kv : string * string, plain_key kv.1) l.
Lemma link_read path l : question ∉ chars path → plain_keys l →
  url_params (link path l) = l ∧ url_path (link path l) = path.
Proof. intros Hp Hl. rewrite <- (text_of_chars path) at 3. by apply url_params_written. Qed.
Lemma query_link l : plain_keys l → Forall (λ c, link_letter c = true) (query l).
Proof.
  assert (∀ k, plain_key k → Forall (λ c, link_letter c = true) (chars k)) as Hk.
  { intros k Hk. eapply Forall_impl; [exact Hk|]. intros c Hc. unfold link_letter. by rewrite Hc. }
  induction 1 as [|[k v] l Hp Hl IH]; [constructor|]. destruct l as [|kv l].
  - cbn [query]. apply Forall_app. split; [by apply Hk|]. constructor; [done|]. apply quote_link.
  - change (query ((k, v) :: kv :: l)) with (chars k ++ equals :: chars (quote v) ++ amp :: query (kv :: l)).
    apply Forall_app. split; [by apply Hk|]. constructor; [done|]. apply Forall_app. split; [apply quote_link|].
    by constructor.
Qed.
Lemma link_is_safe path rest l : chars path = slash :: rest → head rest = Some (char 102) →
  forallb link_letter rest = true → plain_keys l → py_len (link path l) <= MAX_TARGET_LEN → is_safe_path (link path l) = true.
Proof.
  intros Hp Hh Hr Hl Hlen. rewrite forallb_forall in Hr.
  apply (link_safe _ (rest ++ question :: query l)); try done.
  - unfold link. by rewrite chars_text_of, Hp.
  - by destruct rest; simplify_eq/=.
  - apply Forall_app. split; [|constructor; [done|by apply query_link]].
    apply Forall_forall. intros c Hc. by apply Hr, list_elem_of_In.
Qed.
Lemma link_elsewhere host path l : "https://" +:+ host +:+ link path l = link ("https://" +:+ host +:+ path) l.
Proof.
  unfold link. rewrite <- (text_of_chars ("https://" +:+ _)). f_equal.
  by rewrite !chars_app, chars_text_of, <- !app_assoc.
Qed.
Ltac is_link := unfold link; rewrite <- (text_of_chars (_ +:+ _)); f_equal; rewrite ?chars_app, <- ?app_assoc; done.
Lemma start_link rd : start_url rd = link "/forward-auth/start" [("rd", rd)].
Proof. unfold start_url. is_link. Qed.
Lemma authorize_link d h rd :
  authorize_path d h rd = link "/forward-auth/authorize" [("domain", d); ("portal_host", h); ("rd", rd)].
Proof. unfold authorize_path. is_link. Qed.
Lemma callback_link token : callback_path token = link "/forward-auth/callback" [("token", token)].
Proof. unfold callback_path. is_link. Qed.

(** A quoted text is not shorter. *)
Lemma quote_longer s : py_len s <= py_len (quote s).
Proof.
  rewrite !py_len_chars. unfold quote. rewrite chars_text_of. apply Nat2Z.inj_le.
  induction (chars s) as [|c l IH]; [done|]. rewrite bind_cons, filter_app, length_app, filter_cons.
  assert (∃ d w, quote_char_safe c = d :: w ∧ (is_cont (Z.of_nat (Ascii.nat_of_ascii c)) = false →
    is_cont (Z.of_nat (Ascii.nat_of_ascii d)) = false)) as (d & w & -> & Hd).
  { unfold quote_char_safe. destruct (unreserved c); eexists _, _; split; try done. }
  rewrite filter_cons. case_decide; [rewrite decide_True by auto|case_decide]; simpl; lia.
Qed.

Section handshake.
Context `{Collation} `{PortalIds} `{PortalHex} `{UrlChecks} `{GroupAges} `{Floats} `{UuidText} `{UuidParse} `{HeaderText}.
Context (_token_key _cookie_key : list Z) (BASE_DOMAIN : string) (IS_DEV : bool).
Implicit Types (s : portal) (t : uuid).
#[local] Notation world := (world _token_key _cookie_key BASE_DOMAIN IS_DEV).
#[local] Notation run_op := (run_op _token_key _cookie_key BASE_DOMAIN IS_DEV).

(** ** What time and the log leave alone *)

Definition at_time (now : Z) s : portal := set_portal_clock (λ _, now) s.
Definition same_portal s s' : Prop :=
  po_domains s' = po_domains s ∧ po_proxies s' = po_proxies s ∧
  ∀ t, apps <$> tenant_dir s' t = apps <$> tenant_dir s t.

Lemma proxy_of_apps s t i r : proxy_of s t i r =
  (A ← apps <$> tenant_dir s t; a ← A !! (proxy_app, i); if decide (px_tenant r = t) then Some (mk_proxy i r a) else None).
Proof. unfold proxy_of. by destruct (tenant_dir s t). Qed.
Lemma same_proxies s s' t : same_portal s s' → tenant_proxies s' t = tenant_proxies s t.
Proof.
  intros (_ & E2 & E3). unfold tenant_proxies. rewrite E2. apply list_omap_ext.
  apply Forall2_same_length_lookup_2; [done|]. intros j x y ? ?. simplify_eq. by rewrite !proxy_of_apps, E3.
Qed.
Lemma same_app s s' t i : same_portal s s' → db_get_proxy_app s' t i = db_get_proxy_app s t i.
Proof.
  intros (_ & E2 & E3). unfold db_get_proxy_app. rewrite E2. destruct (po_proxies s !! i); [|done].
  cbn [mbind option_bind]. by rewrite !proxy_of_apps, E3.
Qed.
Lemma same_resolved s s' r c : same_portal s s' → _resolve_app s' r c = _resolve_app s r c.
Proof.
  intros Hs. pose proof Hs as (E1 & _ & _).
  assert (∀ d, _verified_domain_row s' (fc_tenant c) d = _verified_domain_row s (fc_tenant c) d) as Hrow.
  { intros d. unfold _verified_domain_row, get_protected_domain_by_domain. by rewrite E1. }
  unfold _resolve_app, resolve_sole_enabled_app, resolve_proxy_app_by_host, sole_enabled, list_proxy_apps_for_domain,
    get_enabled_proxy_app_for_domain_and_host. rewrite Hrow, (same_proxies s s') by done. done.
Qed.
Lemma same_guard s s' path r : po_domains s' = po_domains s →
  tenant_guard BASE_DOMAIN s' path r = tenant_guard BASE_DOMAIN s path r.
Proof.
  intros E. unfold tenant_guard, portal_context, resolve_verified_portal_host, get_protected_domain_by_portal_host.
  by rewrite E.
Qed.

Definition logged actor ty i name md (m : mail) : mail :=
  ((in_groups (log_event actor ty i name md)) m).2.
Lemma po_log_runs s t m actor ty i name md : po_tenants s !! t = Some m →
  po_log t actor ty i name md s = (Ok (), set_tenants (insert t (logged actor ty i name md m)) s).
Proof. intros Hm. unfold po_log, of_tenant. by rewrite Hm. Qed.
Lemma logged_same s t m actor ty i name md : po_tenants s !! t = Some m →
  let s' := set_tenants (insert t (logged actor ty i name md m)) s in
  same_portal s s' ∧ ∀ u j, access_of s' t u j = access_of s t u j.
Proof.
  intros Hm s'. unfold s'. split.
  - split_and!; try done. intros t'. rewrite (tenant_dir_insert s t m) by done. case_decide as E; [|done].
    subst. unfold tenant_dir. by rewrite Hm.
  - intros u j. unfold access_of. rewrite (tenant_dir_insert s t m) by done. rewrite decide_True by done.
    unfold tenant_dir. by rewrite Hm.
Qed.

Lemma serve_page s path r m c : tenant_guard BASE_DOMAIN s path r = admitted (Some c) →
  serve BASE_DOMAIN path r m s = (answered (m (Some c) s).1, (m (Some c) s).2).
Proof. intros Hg. unfold serve. rewrite Hg. by destruct (m (Some c) s). Qed.

(** ** A page of the application *)

Definition page (uri : string) : Prop :=
  rooted (chars uri) = true ∧ Forall (λ c, unsafe_byte c = false) (chars uri).
Lemma rooted_cases l : rooted l = true → ∃ rest, l = slash :: rest ∧ take 2 l ≠ [slash; slash].
Proof.
  unfold rooted. rewrite andb_true_iff, !bool_decide_eq_true. intros [Hf Hs]. destruct l as [|c l]; [done|].
  injection Hf as ->. eauto.
Qed.
Lemma page_rd_host uri : page uri → rd_host uri = Ok "".
Proof.
  intros [(rest & Hl & Hs)%rooted_cases Hu]. unfold rd_host. destruct (decide (uri = "")) as [->|]; [done|].
  unfold urlsplit. assert (filter (λ c, unsafe_byte c = false) (lstrip_control (chars uri)) = chars uri) as ->.
  { rewrite Hl in *. cbn [lstrip_control]. change (Ascii.nat_of_ascii slash <=? 32)%nat with false.
    clear Hl Hs. induction Hu as [|c l Hc _ IH]; [done|]. by rewrite filter_cons_True, IH. }
  assert (split_scheme (chars uri) = ([], chars uri)) as ->.
  { unfold split_scheme. destruct (cut colon_char (chars uri)) as [[[|c w] tail]|] eqn:E; [done| |done].
    rewrite Hl in E. cbn [cut] in E. case_decide; [done|]. destruct (cut colon_char rest) as [[w' tail']|]; [|done].
    injection E as <- <- <-. done. }
  rewrite decide_False by done. done.
Qed.
Lemma page_safe_rd uri url : page uri → py_len uri <= Z.of_nat _MAX_URL_LEN → _safe_rd uri url = Ok (Some uri).
Proof.
  intros [Hr _] Hlen. unfold _safe_rd. destruct (decide (uri = "")) as [->|]; [done|].
  rewrite prefix_text_all by done. by rewrite Hr.
Qed.
Lemma page_uri r uri : rq_forwarded_uri r = Some uri → page uri → py_len uri <= Z.of_nat _MAX_URL_LEN →
  _original_request_uri r = uri.
Proof.
  intros Hr [Hp _] Hlen. unfold _original_request_uri. rewrite Hr. cbn [default]. rewrite prefix_text_all by done.
  cbv zeta. unfold id. by rewrite Hp.
Qed.

(** ** The steps *)

Lemma check_sends c r s p uri :
  rq_limited r = false → rq_cookie r = None → _resolve_app s r c = Some p → _original_request_uri r = uri →
  is_public_path p (text_of (before question (chars uri))) = false → py_len (start_url uri) <= MAX_TARGET_LEN →
  forward_auth_check _cookie_key (Some c) r s = (Ok (fa_redirect (start_url uri) None), s).
Proof.
  intros Hl Hc Hp Hu Hpub Hlen. unfold forward_auth_check. rewrite Hl, run_gets_bind. unfold id.
  rewrite Hp, Hu, Hpub, Hc. cbn. unfold safe_path. rewrite start_link.
  rewrite (link_is_safe "/forward-auth/start" (chars "forward-auth/start")); try done.
  - by repeat constructor.
  - by rewrite <- start_link.
Qed.
Lemma start_sends c s host uri :
  get_canonical_tenant_host BASE_DOMAIN s (fc_tenant c) = Some host → host ≠ "" → uri ≠ "" →
  py_len uri <= Z.of_nat _MAX_URL_LEN → py_len (authorize_path (fc_domain c) (fc_portal_host c) uri) <= MAX_TARGET_LEN →
  forward_auth_start BASE_DOMAIN (Some c) uri s =
    (Ok (fa_redirect ("https://" +:+ host +:+ authorize_path (fc_domain c) (fc_portal_host c) uri) None), s).
Proof.
  intros Hh Hne Hu Hlen Hsafe. unfold forward_auth_start. rewrite (proj2 (Z.ltb_ge _ _)) by done.
  rewrite run_gets_bind. unfold id. rewrite Hh, decide_False, prefix_text_all by done.
  unfold safe_external_redirect. rewrite decide_False by set_solver. rewrite authorize_link in *.
  rewrite (link_is_safe "/forward-auth/authorize" (chars "forward-auth/authorize")); try done.
  by repeat constructor.
Qed.

(** The nonce an authorization leaves. *)
Definition authorized s t (d : string) : portal :=
  set_nonces (insert (portal_hex 32 (po_draws s)) (mk_nonce t d (po_clock s + FORWARD_AUTH_TOKEN_TTL * 1000000)))
    (set_portal_draws S s).
Lemma issue_succeeds s t u d i rd : is_Some (po_tenants s !! t) → py_len (portal_hex 32 (po_draws s)) <= 128 →
  py_len d <= 253 → po_nonces s !! portal_hex 32 (po_draws s) = None →
  issue_authorization_token _token_key t u d i rd s = (Ok (minted _token_key s t u d i rd), authorized s t d).
Proof.
  intros [m Hm] Hhex Hd Hfresh. unfold issue_authorization_token, draw_hex, create_nonce.
  rewrite run_update_bind, run_gets_bind. cbn [fst snd]. rewrite run_bind_assoc, run_gets_bind. unfold id.
  rewrite run_bind_assoc, run_raise_if_bind, bool_decide_false by (cbn; by rewrite Hm).
  rewrite run_bind_assoc, run_raise_if_bind, bool_decide_false by lia.
  rewrite run_bind_assoc, run_raise_if_bind, bool_decide_false by lia.
  rewrite run_bind_assoc, run_raise_if_bind, bool_decide_false by (cbn; rewrite Hfresh; by intros [? ?]).
  rewrite run_modify_bind. done.
Qed.
Lemma authorize_sends t u d ph rd s row p :
  py_len d <= Z.of_nat _MAX_HOST_LEN → py_len ph <= Z.of_nat _MAX_HOST_LEN → py_len rd <= Z.of_nat _MAX_URL_LEN →
  page rd → _normalize_host_value d = d → _normalize_host_value ph = ph →
  get_tenant_verified_domain s t d ph = Some row → pr_portal_host row.2 = ph → ph ≠ "" →
  sole_enabled s t row.1 = Some p → access_of s t u (pa_id p) = true →
  is_Some (po_tenants s !! t) → py_len (portal_hex 32 (po_draws s)) <= 128 →
  py_len d <= 253 → po_nonces s !! portal_hex 32 (po_draws s) = None →
  let token := minted _token_key s t u d (pa_id p) rd in
  py_len (callback_path token) <= MAX_TARGET_LEN →
  forward_auth_authorize _token_key t (Some u) d ph rd s =
    (Ok (fa_redirect ("https://" +:+ ph +:+ callback_path token) None), authorized s t d).
Proof.
  intros L1 L2 L3 Hpage Nd Nph Hrow Hph Hne Hp Ha Ht Hhex Hdl Hfresh token Hlen. unfold forward_auth_authorize.
  rewrite !(proj2 (Z.ltb_ge _ _)) by done. cbn [orb]. rewrite run_gets_bind. unfold id. rewrite Nd, Nph, Hrow.
  rewrite run_lift_bind. unfold resolve_app_for_rd. rewrite page_rd_host by done. cbn [mbind outcome_bind].
  rewrite decide_True by done. rewrite Hp, run_lift_bind, page_safe_rd by done.
  unfold authorize_app_access. rewrite run_bind_assoc, run_gets_bind, Ha. cbn [negb when].
  rewrite run_bind_assoc, !run_ret_bind. cbn [negb]. rewrite run_bind, issue_succeeds by done. fold token.
  rewrite Hph, Nph. unfold safe_external_redirect. rewrite decide_False by set_solver.
  rewrite callback_link in *.
  rewrite (link_is_safe "/forward-auth/callback" (chars "forward-auth/callback")); try done. by repeat constructor.
Qed.

(** Where a callback leaves the state. *)
Definition granted s t (u i : uuid) (d name : string) (m : mail) (nonce : string) : portal :=
  set_tenants (insert t (logged (Some u) "proxy_app" i "proxy_access_granted"
    [("domain", MStr d); ("proxy_app_name", MStr name)] m)) (set_nonces (delete nonce) s).
Definition cookie_of (who : session_identity) (now : Z) : string :=
  build_forward_auth_cookie_value _cookie_key (si_user_id who) (si_email who) (si_display_name who) (si_groups who)
    FORWARD_AUTH_COOKIE_TTL now.
Definition headers_of (p : proxy) (who : session_identity) : list (string * string) :=
  build_forwarded_headers p (mk_identity (JStr (si_user_id who)) (JStr (si_email who)) (JStr (si_display_name who))
    (JList (JStr <$> si_groups who))).

Section texts.
Hypothesis uuid_back : ∀ i, uuid_of_text (uuid_text i) = Some i.
Hypothesis uuid_valid : ∀ i, valid_text (uuid_text i).
Hypothesis hex_valid : ∀ n k, valid_text (portal_hex n k).

Lemma redeem_succeeds s1 s t u d i rd e :
  host_text d → valid_text rd → po_clock s <= (po_clock s1 / 1000000 + FORWARD_AUTH_TOKEN_TTL) * 1000000 →
  po_nonces s !! portal_hex 32 (po_draws s1) = Some (mk_nonce t d e) → po_clock s < e →
  redeem_authorization_token _token_key (minted _token_key s1 t u d i rd) d s =
    (Ok (Some (packed (token_payload (uuid_text u) (uuid_text t) d (uuid_text i) rd (portal_hex 32 (po_draws s1))
       (po_clock s1 / 1000000 + FORWARD_AUTH_TOKEN_TTL)))),
     set_nonces (delete (portal_hex 32 (po_draws s1))) s).
Proof.
  intros Hd Hrd Hclock Hn He. unfold redeem_authorization_token, minted.
  pose proof (minted_valid uuid_valid hex_valid s1 t u d i rd Hrd Hd) as Hvalid.
  rewrite run_gets_bind, run_lift_bind, verify_minted by (by try apply host_ascii). rewrite decide_True by done.
  set (payload := packed _).
  destruct (token_fields _ _ _ _ _ _ (po_clock s1 / 1000000 + FORWARD_AUTH_TOKEN_TTL) Hvalid)
    as (_ & _ & F2 & _ & _ & _ & F5 & _). fold payload in F2, F5.
  rewrite run_lift_bind, F5. cbn [text_param]. unfold consume_nonce. rewrite run_update_bind, Hn.
  rewrite decide_True by done. cbn [fst snd]. rewrite F2. cbn [py_str]. by rewrite decide_True.
Qed.
Lemma callback_sends s1 s c u i rd e p who m :
  let t := fc_tenant c in let d := fc_domain c in
  host_text d → valid_text rd → po_clock s <= (po_clock s1 / 1000000 + FORWARD_AUTH_TOKEN_TTL) * 1000000 →
  po_nonces s !! portal_hex 32 (po_draws s1) = Some (mk_nonce t d e) → po_clock s < e →
  get_app_for_callback s t i = Some p → build_forward_auth_identity s t u = Some who → po_tenants s !! t = Some m →
  page rd → py_len rd <= Z.of_nat _MAX_URL_LEN → py_len (minted _token_key s1 t u d i rd) <= Z.of_nat (2 * _MAX_URL_LEN) →
  forward_auth_callback _token_key _cookie_key IS_DEV (Some c) (minted _token_key s1 t u d i rd) s =
    (Ok (fa_redirect rd (Some (forward_auth_cookie_params d (negb IS_DEV) (cookie_of who (po_clock s))))),
     granted s t u i d (app_name (pa_app p)) m (portal_hex 32 (po_draws s1))).
Proof.
  intros t d Hd Hrd Hclock Hn He Hp Hwho Hm Hpage Hlen Htok. unfold forward_auth_callback.
  rewrite (proj2 (Z.ltb_ge _ _)) by done. rewrite run_bind. fold d. rewrite (redeem_succeeds s1 s t u d i rd e) by done.
  pose proof (minted_valid uuid_valid hex_valid s1 t u d i rd Hrd Hd) as Hvalid. set (payload := packed _).
  destruct (token_fields _ _ _ _ _ _ (po_clock s1 / 1000000 + FORWARD_AUTH_TOKEN_TTL) Hvalid)
    as (_ & F1 & F2 & _ & F3 & F4 & _). fold payload in F1, F2, F3, F4.
  rewrite F1, F2, F3, F4. cbn [py_str]. fold t. rewrite decide_False by auto. unfold id_param.
  rewrite run_lift_bind, uuid_back, run_gets_bind. unfold id. set (s2 := set_nonces _ s).
  change (get_app_for_callback s2 t i) with (get_app_for_callback s t i). rewrite Hp, run_lift_bind, uuid_back.
  change (build_forward_auth_identity s2 t u) with (build_forward_auth_identity s t u).
  rewrite Hwho, run_lift_bind, page_safe_rd by done.
  unfold log_proxy_event. rewrite run_bind, (po_log_runs s2 t m) by done. done.
Qed.
End texts.

Lemma check_admits c r s p who now u :
  rq_limited r = false → rq_cookie r = Some (cookie_of who now) → _resolve_app s r c = Some p →
  is_public_path p (text_of (before question (chars (_original_request_uri r)))) = false →
  Forall valid_text (si_user_id who :: si_email who :: si_display_name who :: si_groups who) →
  po_clock s <= (now / 1000000 + FORWARD_AUTH_COOKIE_TTL) * 1000000 →
  uuid_of_text (si_user_id who) = Some u → access_of s (fc_tenant c) u (pa_id p) = true →
  forallb (λ kv : string * string, header_text_ok kv.2) (headers_of p who) = true →
  forward_auth_check _cookie_key (Some c) r s = (Ok (fa_allow (headers_of p who)), s).
Proof.
  intros Hl Hc Hp Hpub Hv Hclock Hu Ha Hh. unfold forward_auth_check. rewrite Hl, run_gets_bind. unfold id.
  rewrite Hp, Hpub, Hc. unfold cookie_of. rewrite read_built, decide_True by done.
  set (payload := packed _).
  destruct (cookie_fields _ _ _ _ (now / 1000000 + FORWARD_AUTH_COOKIE_TTL) Hv) as (_ & F1 & F2 & F3 & F4 & _).
  fold payload in F1, F2, F3, F4. rewrite F1, F2, F3, F4. cbn [py_str]. unfold recheck_cookie_access. rewrite Hu.
  unfold authorize_app_access. rewrite run_bind_assoc, run_gets_bind, Ha. cbn [negb when].
  rewrite run_bind_assoc, !run_ret_bind. cbn [negb]. unfold respond_allow. fold (headers_of p who). by rewrite Hh.
Qed.

(** ** All the way *)

Lemma validated_len h : _validate_host h = Ok () → h ≠ "" ∧ py_len h <= Z.of_nat _MAX_HOST_LEN ∧ py_len h <= 253.
Proof.
  intros Hv. pose proof (host_ascii _ (validated_host _ Hv)) as Ha. revert Hv. unfold _validate_host.
  case_decide; [done|]. destruct (bool_decide _); [done|]. destruct (bool_decide _); [done|].
  destruct (_ || _) eqn:E; [done|]. intros _. apply orb_false_iff in E as [_ Hlen%Z.ltb_ge].
  unfold _MAX_HOST_LEN. split_and!; [done|lia|lia].
Qed.
Lemma sole_enabled_Some s t i p : sole_enabled s t i = Some p → get_app_for_callback s t (pa_id p) = Some p.
Proof.
  unfold sole_enabled. destruct (filter _ _) as [|q [|]] eqn:E; [done| |done]. intros [= ->].
  assert (p ∈ [p]) as Hin by set_solver. rewrite <- E in Hin. apply list_elem_of_filter in Hin as [He Hin].
  unfold list_proxy_apps_for_domain, order_by_name in Hin. rewrite merge_sort_Permutation in Hin.
  apply list_elem_of_filter in Hin as [_ Hin]. unfold tenant_proxies in Hin.
  apply list_elem_of_omap in Hin as ([j x] & Hj & Hx). apply elem_of_map_to_list in Hj. cbn in Hx.
  assert (pa_id p = j) as ->.
  { unfold proxy_of in Hx. apply bind_Some in Hx as (dd & _ & (a & _ & Hx)%bind_Some). case_decide; [|done]. by simplify_eq. }
  unfold get_app_for_callback, db_get_proxy_app. rewrite Hj. cbn [mbind option_bind]. rewrite Hx.
  cbn [mbind option_bind]. by rewrite He.
Qed.
Lemma tenant_domain_found s i row : portal_ok s → po_domains s !! i = Some row → pr_status row = verified →
  pr_enabled row = true →
  get_tenant_verified_domain s (pr_tenant row) (pr_domain row) (pr_portal_host row) = Some (i, row).
Proof.
  intros Hok Hi Hv He. destruct (ok_domains _ Hok _ _ Hi) as (Hd & _).
  unfold get_tenant_verified_domain, _verified_domain_row. rewrite decide_False by by apply validated_len.
  unfold get_protected_domain_by_domain. rewrite (find_row_unique _ _ i row) by (try done; intros j r' Hj []; by eapply ok_names).
  cbn. rewrite Hv, He, bool_decide_false by (intros Hne; by apply Hne). cbn. by rewrite decide_True.
Qed.
Lemma canonical_host_Some s t host : get_canonical_tenant_host BASE_DOMAIN s t = Some host → host ≠ "".
Proof.
  unfold get_canonical_tenant_host. case_decide; [done|]. intros (sub & _ & Hs)%bind_Some. case_decide; [done|].
  injection Hs as <-. by destruct sub.
Qed.
Definition with_cookie (x : string) (r : fa_request) : fa_request :=
  mk_request (rq_host r) (rq_forwarded_host r) (rq_forwarded_uri r) (Some x) (rq_limited r).

(** The way back to a pending authorization after signing in (SignIn.v). *)
Definition pending_key : string := "pending_forward_auth_authorize".
Lemma resumed w d ph uri : text (we_session w) "pending_sso_sp_entity_id" = "" →
  se_texts (we_session w) !! pending_key = Some (authorize_path d ph uri) → py_len (authorize_path d ph uri) <= MAX_TARGET_LEN →
  (get_post_auth_redirect w).1 = Ok (authorize_path d ph uri).
Proof.
  intros Hsso Hkey Hlen. assert (plain_keys [("domain", d); ("portal_host", ph); ("rd", uri)]) as Hk by by repeat constructor.
  assert (∃ rest, chars (authorize_path d ph uri) = slash :: chars "forward-auth/authorize" ++ rest ∧
    Forall (λ c, link_letter c = true) rest) as (rest & Hr & Hl).
  { rewrite authorize_link. unfold link. rewrite chars_text_of. eexists. split; [done|].
    constructor; [done|]. by apply query_link. }
  assert (∀ c, link_letter c = false → c ∉ chars (authorize_path d ph uri)) as Hno.
  { intros c Hc. rewrite Hr. intros [->|[Hin|Hin]%elem_of_app]%elem_of_cons; [done| |].
    - assert (forallb link_letter (chars "forward-auth/authorize") = true) as Ha by by vm_compute.
      rewrite forallb_forall in Ha. apply list_elem_of_In, Ha in Hin. congruence.
    - rewrite Forall_forall in Hl. apply Hl in Hin. congruence. }
  unfold get_post_auth_redirect. rewrite run_gets_bind, Hsso, decide_False by (intros Hne; by apply Hne).
  cbn [PENDING_RETURN_PREFIXES pop_return]. fold pending_key. rewrite Hkey.
  assert (_is_safe_return_path (authorize_path d ph uri) "/forward-auth/authorize" = true) as ->; [|done].
  unfold _is_safe_return_path. rewrite no_colon_no_scheme by by apply Hno.
  rewrite bool_decide_true by (rewrite Hr; by eexists). rewrite bool_decide_false by (by rewrite Hr).
  rewrite !bool_decide_true by (by apply Hno). done.
Qed.

(** Without a session, /authorize asks to sign in. *)
Lemma authorize_asks t d ph rd s row :
  py_len d <= Z.of_nat _MAX_HOST_LEN → py_len ph <= Z.of_nat _MAX_HOST_LEN → py_len rd <= Z.of_nat _MAX_URL_LEN →
  _normalize_host_value d = d → _normalize_host_value ph = ph → get_tenant_verified_domain s t d ph = Some row →
  forward_auth_authorize _token_key t None d ph rd s = (Ok (fa_sign_in (authorize_path d ph rd)), s).
Proof.
  intros L1 L2 L3 Nd Nph Hrow. unfold forward_auth_authorize. rewrite !(proj2 (Z.ltb_ge _ _)) by done.
  cbn [orb]. rewrite run_gets_bind. unfold id. by rewrite Nd, Nph, Hrow.
Qed.
Lemma origin_plain host path : question ∉ chars host → question ∉ chars path →
  question ∉ chars ("https://" +:+ host +:+ path).
Proof.
  intros Hh Hp. rewrite !chars_app, !not_elem_of_app. split_and!; try done. by apply (bool_decide_unpack _).
Qed.

Lemma authorize_links host d ph uri : question ∉ chars host →
  let l := [("domain", d); ("portal_host", ph); ("rd", uri)] in
  url_path ("https://" +:+ host +:+ authorize_path d ph uri) = "https://" +:+ host +:+ "/forward-auth/authorize" ∧
  url_params ("https://" +:+ host +:+ authorize_path d ph uri) = l ∧
  url_path (authorize_path d ph uri) = "/forward-auth/authorize" ∧ url_params (authorize_path d ph uri) = l.
Proof.
  intros Hq l. assert (plain_keys l) as K by by repeat constructor.
  rewrite authorize_link, link_elsewhere.
  destruct (link_read ("https://" +:+ host +:+ "/forward-auth/authorize") l) as [E1 E2];
    [apply origin_plain; [done|by apply (bool_decide_unpack _)]|done|].
  destruct (link_read "/forward-auth/authorize" l) as [E3 E4]; [by apply (bool_decide_unpack _)|done|].
  by split_and!.
Qed.
Lemma has_tenant s t u who : build_forward_auth_identity s t u = Some who → is_Some (po_tenants s !! t).
Proof. unfold build_forward_auth_identity. destruct (po_tenants s !! t); [eauto|done]. Qed.
Lemma undrawn_nonce h s : world h s → (∀ k, (k < po_draws s)%nat → portal_hex 32 k ≠ portal_hex 32 (po_draws s)) →
  po_nonces s !! portal_hex 32 (po_draws s) = None.
Proof.
  intros Hw Hnew. destruct (po_nonces s !! _) as [nr|] eqn:E; [|done].
  destruct (drawn_earlier _ _ _ _ _ _ _ _ Hw E) as (k & Hk & Hlt). by destruct (Hnew k Hlt).
Qed.
Lemma token_shorter token : py_len token <= py_len (callback_path token).
Proof.
  unfold callback_path. rewrite py_len_app. pose proof (quote_longer token).
  pose proof (py_len_nonneg "/forward-auth/callback?token="). lia.
Qed.

Section texts.
Hypothesis uuid_back : ∀ i, uuid_of_text (uuid_text i) = Some i.
Hypothesis uuid_valid : ∀ i, valid_text (uuid_text i).
Hypothesis hex_valid : ∀ n k, valid_text (portal_hex n k).

(** The callback, within its time, after the authorization. *)
Lemma called_back s r c T1 T2 u p who m uri :
  let t := fc_tenant c in let d := fc_domain c in let s1 := authorized (at_time T1 s) t d in
  let token := minted _token_key (at_time T1 s) t u d (pa_id p) uri in
  tenant_guard BASE_DOMAIN s "/forward-auth/callback" r = admitted (Some c) → host_text d → valid_text uri → page uri →
  py_len uri <= Z.of_nat _MAX_URL_LEN → py_len token <= MAX_TARGET_LEN → T1 <= T2 <= T1 + 59 * 1000000 →
  get_app_for_callback s t (pa_id p) = Some p → build_forward_auth_identity s t u = Some who → po_tenants s !! t = Some m →
  run_op (op_callback r token) (at_time T2 s1) =
    (answered (Ok (fa_redirect uri (Some (forward_auth_cookie_params d (negb IS_DEV) (cookie_of who T2))))),
     granted (at_time T2 s1) t u (pa_id p) d (app_name (pa_app p)) m (portal_hex 32 (po_draws s))).
Proof.
  intros t d s1 token Hg Hd Huri Hpage Hlen Htok HT Hp Hwho Hm. cbn [ForwardHistory.run_op].
  rewrite (serve_page _ _ _ _ c) by (by rewrite (same_guard s)).
  pose proof (callback_sends uuid_back uuid_valid hex_valid (at_time T1 s) (at_time T2 s1) c u (pa_id p) uri
    (T1 + FORWARD_AUTH_TOKEN_TTL * 1000000) p who m) as Hcb.
  cbv zeta in Hcb. fold t d token in Hcb. rewrite Hcb; try done.
  - cbn. unfold FORWARD_AUTH_TOKEN_TTL. pose proof (Z.mul_succ_div_gt T1 1000000). lia.
  - cbn. by rewrite lookup_insert_eq.
  - cbn. unfold FORWARD_AUTH_TOKEN_TTL. lia.
  - unfold MAX_TARGET_LEN, _MAX_URL_LEN in *. lia.
Qed.
(** The page itself, while the cookie lives. *)
Lemma then_admitted s r c T1 T2 T3 u p who m :
  let t := fc_tenant c in let d := fc_domain c in let s1 := authorized (at_time T1 s) t d in
  let s2 := granted (at_time T2 s1) t u (pa_id p) d (app_name (pa_app p)) m (portal_hex 32 (po_draws s)) in
  tenant_guard BASE_DOMAIN s "/forward-auth/check" r = admitted (Some c) → rq_limited r = false →
  _resolve_app s r c = Some p → is_public_path p (text_of (before question (chars (_original_request_uri r)))) = false →
  po_tenants s !! t = Some m → build_forward_auth_identity s t u = Some who → access_of s t u (pa_id p) = true →
  Forall valid_text (si_email who :: si_display_name who :: si_groups who) →
  forallb (λ kv : string * string, header_text_ok kv.2) (headers_of p who) = true → T3 <= T2 + 3599 * 1000000 →
  run_op (op_check (with_cookie (cookie_of who T2) r)) (at_time T3 s2) =
    (answered (Ok (fa_allow (headers_of p who))), at_time T3 s2).
Proof.
  intros t d s1 s2 Hg Hl Hp Hpub Hm Hwho Ha Hvalid Hh HT.
  destruct (logged_same (set_nonces (delete (portal_hex 32 (po_draws s))) (at_time T2 s1)) t m (Some u) "proxy_app" (pa_id p)
    "proxy_access_granted" [("domain", MStr d); ("proxy_app_name", MStr (app_name (pa_app p)))] Hm) as [Hsame Hacc].
  cbn [ForwardHistory.run_op]. rewrite (serve_page _ _ _ _ c) by (by rewrite (same_guard s)).
  rewrite (check_admits c _ _ p who T2 u); try done.
  - by rewrite <- Hp, <- (same_resolved s (at_time T3 s2)).
  - by constructor; [rewrite (identity_id _ _ _ _ Hwho)|].
  - cbn. unfold FORWARD_AUTH_COOKIE_TTL. pose proof (Z.mul_succ_div_gt T2 1000000). lia.
  - by rewrite (identity_id _ _ _ _ Hwho).
  - transitivity (access_of s t u (pa_id p)); [|done]. exact (Hacc u (pa_id p)).
Qed.

(** What a browser itself asks of the portal host: no proxy adds headers. *)
Definition at_portal (ph : string) : fa_request := mk_request (Some ph) None None None false.
Lemma portal_found s i row : portal_ok s → po_domains s !! i = Some row → pr_status row = verified → pr_enabled row = true →
  resolve_verified_portal_host s (pr_portal_host row) = Some (i, row).
Proof.
  intros Hok Hi Hv He. destruct (ok_domains _ Hok _ _ Hi) as (_ & D2 & _ & _ & _ & _ & D4).
  pose proof (validated_len _ D2) as (Hne & _). unfold resolve_verified_portal_host.
  rewrite (normal_domain_id _ (validated_host _ D2) D4), decide_False by done.
  unfold get_protected_domain_by_portal_host.
  rewrite (find_row_unique _ _ i row) by (try done; intros j r' Hj Hr'; by eapply ok_hosts).
  cbn. rewrite Hv, He, bool_decide_false by (intros Hx; by apply Hx). done.
Qed.
Lemma portal_page s path i row : path_starts _FORWARD_AUTH_PREFIX path = true → path ∉ ["/healthz"; "/caddy/check-domain"] →
  portal_ok s → po_domains s !! i = Some row → pr_status row = verified → pr_enabled row = true →
  _normalize_host_value (pr_portal_host row) = pr_portal_host row →
  tenant_guard BASE_DOMAIN s path (at_portal (pr_portal_host row)) = admitted (Some (context_of (i, row))).
Proof.
  intros Hs Hpath Hok Hi Hv He Hn. pose proof (portal_found s i row Hok Hi Hv He) as Hf.
  destruct (ok_domains _ Hok _ _ Hi) as (_ & D2 & _). pose proof (validated_len _ D2) as (Hne & _).
  unfold tenant_guard. rewrite decide_False by done. cbn [at_portal rq_host rq_forwarded_host header_or default].
  unfold id. rewrite Hs, Hn. unfold portal_context. rewrite filter_cons_True by done. cbn [omap list_omap]. by rewrite Hf.
Qed.

End texts.
End handshake.
