(* ===== verification/ForwardFindings.v ===== *)
(** * Forward authentication: what a reader of its documentation would not expect

    A cookie says nothing of its tenant or its domain, so an application that
    is open to all users is open to the users of every tenant; and the page that
    /check sends to /start has no host, so on a domain with several enabled
    applications /authorize never finds the one that was asked for. *)

From stdpp Require Import gmap strings.
From S2P Require Import Prelude Sha256 GroupDb GroupService OAuthDb AppAccess MailDb Tokens TokenProofs PasswordStrength Json JsonText Credentials Url PortalDb PortalAdmin ForwardAuth ForwardTokens PortalProofs ForwardHistory ForwardSafety ForwardFlow.
#[local] Open Scope Z_scope.

Section findings.
Context `{Collation} `{PortalIds} `{PortalHex} `{UrlChecks} `{GroupAges} `{Floats} `{UuidText} `{UuidParse} `{HeaderText}.
Context (_token_key _cookie_key : list Z) (BASE_DOMAIN : string) (IS_DEV : bool).
Implicit Types (s : portal) (t : uuid).

(** The applications that a request finds are the tenant's own. *)
Lemma tenant_proxies_app s t p : p ∈ tenant_proxies s t →
  ∃ d, tenant_dir s t = Some d ∧ apps d !! (proxy_app, pa_id p) = Some (pa_app p).
Proof.
  unfold tenant_proxies. intros ([i x] & _ & Hx)%list_elem_of_omap. unfold proxy_of in Hx.
  apply bind_Some in Hx as (d & Hd & (a & Ha & Hx)%bind_Some). case_decide; [|done]. simplify_eq. by exists d.
Qed.
Lemma sole_enabled_in s t i p : sole_enabled s t i = Some p → p ∈ tenant_proxies s t.
Proof.
  unfold sole_enabled. destruct (filter _ _) as [|q [|]] eqn:E; [done| |done]. intros [= ->].
  assert (p ∈ [p]) as Hin by set_solver. rewrite <- E in Hin. apply list_elem_of_filter in Hin as [_ Hin].
  unfold list_proxy_apps_for_domain, order_by_name in Hin. rewrite merge_sort_Permutation in Hin.
  by apply list_elem_of_filter in Hin as [_ Hin].
Qed.
Lemma host_app_in s t i h p : get_enabled_proxy_app_for_domain_and_host s t i h = Some p → p ∈ tenant_proxies s t.
Proof.
  unfold get_enabled_proxy_app_for_domain_and_host. intros Hp%head_Some_elem_of.
  rewrite merge_sort_Permutation in Hp. by apply list_elem_of_filter in Hp as [_ Hp].
Qed.
Lemma resolved_app s r c p : _resolve_app s r c = Some p →
  ∃ d, tenant_dir s (fc_tenant c) = Some d ∧ apps d !! (proxy_app, pa_id p) = Some (pa_app p).
Proof.
  intros Hp. apply tenant_proxies_app. revert Hp. unfold _resolve_app.
  case_decide; intros (row & _ & Hp)%bind_Some; [by eapply sole_enabled_in|]. case_decide; [done|]. by eapply host_app_in.
Qed.

(** C17. A cookie set for a user of any tenant, on any domain, is honoured by every
    portal host: /check on a domain of another tenant lets the request through
    to an application that is open to all users, and the headers it sends name
    the foreign user by the names and groups of the foreign tenant. *)
Theorem cookie_of_any_tenant_opens_shared_app s1 c1 token url ck s1' s2 c2 r p :
  (∀ i, uuid_of_text (uuid_text i) = Some i) → (∀ i, valid_text (uuid_text i)) → texts_ok s1 →
  forward_auth_callback _token_key _cookie_key IS_DEV (Some c1) token s1 = (Ok (fa_redirect url (Some ck)), s1') →
  po_clock s2 <= po_clock s1 + 3599 * 1000000 →
  rq_limited r = false → rq_cookie r = Some (ck_value ck) → _resolve_app s2 r c2 = Some p →
  is_public_path p (text_of (before question (chars (_original_request_uri r)))) = false →
  app_available_to_all (pa_app p) = true → (∀ x, header_text_ok x = true) →
  ∃ u who, build_forward_auth_identity s1 (fc_tenant c1) u = Some who ∧
    forward_auth_check _cookie_key (Some c2) r s2 = (Ok (fa_allow (headers_of p who)), s2).
Proof.
  intros Hback Hvalid Htexts Hcb Hclock Hl Hc Hp Hpub Hall Hh.
  apply callback_sets_cookie in Hcb as (payload & nonce & row & i & u & q & who & _ & _ & _ & _ & _ & _ & _ & _ & _ &
    Hwho & _ & -> & _). cbn in Hc. exists u, who. split; [done|].
  apply (check_admits _ _ _ _ _ _ (po_clock s1) u); try done.
  - constructor; [by rewrite (identity_id _ _ _ _ Hwho)|]. by eapply Htexts.
  - unfold FORWARD_AUTH_COOKIE_TTL. pose proof (Z.mul_succ_div_gt (po_clock s1) 1000000). lia.
  - by rewrite (identity_id _ _ _ _ Hwho).
  - destruct (resolved_app _ _ _ _ Hp) as (d & Hd & Ha). unfold access_of. rewrite Hd.
    unfold user_can_access_proxy_app, user_can_access_app, app_open_to_all. by rewrite Ha, Hall.
  - apply forallb_forall. intros kv _. apply Hh.
Qed.

(** ** Several applications on a domain *)

Lemma take_points_len n l :
  (length (filter (λ c, is_cont (Z.of_nat (Ascii.nat_of_ascii c)) = false) (take_points n l)) <= n)%nat.
Proof.
  revert n. induction l as [|c l IH]; intros n; [cbn; lia|]. cbn [take_points]. destruct (is_cont _) eqn:E.
  - rewrite filter_cons_False by congruence. apply IH.
  - destruct n as [|n]; [cbn; lia|]. rewrite filter_cons_True by done. specialize (IH n). cbn [length]. lia.
Qed.
Lemma prefix_text_len n x : py_len (prefix_text n x) <= Z.of_nat n.
Proof.
  rewrite py_len_chars. unfold prefix_text. rewrite chars_text_of. pose proof (take_points_len n (chars x)). lia.
Qed.
Lemma take_points_incl n l x : x ∈ take_points n l → x ∈ l.
Proof.
  revert n. induction l as [|c l IH]; intros n; [done|]. cbn [take_points]. destruct (is_cont _).
  - intros [->|Hx]%elem_of_cons; [by left|]. right. by eapply IH.
  - destruct n as [|n]; [by intros ?%not_elem_of_nil|]. intros [->|Hx]%elem_of_cons; [by left|]. right. by eapply IH.
Qed.
Lemma original_page r : Forall (λ c, unsafe_byte c = false) (chars (default "" (rq_forwarded_uri r))) →
  page (_original_request_uri r) ∧ py_len (_original_request_uri r) <= Z.of_nat _MAX_URL_LEN.
Proof.
  intros Hu. unfold _original_request_uri. destruct (rooted _) eqn:E.
  - split; [split; [done|]|apply prefix_text_len]. rewrite Forall_forall in *. intros c.
    unfold prefix_text. rewrite chars_text_of. intros Hc%take_points_incl. by apply Hu.
  - split; [|by vm_compute]. split; [done|]. by repeat constructor.
Qed.
Lemma check_redirect c r s url ck s' :
  forward_auth_check _cookie_key (Some c) r s = (Ok (fa_redirect url ck), s') →
  url = safe_path (start_url (_original_request_uri r)) DEFAULT_TARGET ∧ ck = None.
Proof.
  unfold forward_auth_check. destruct (rq_limited r); [discriminate|]. rewrite run_gets_bind. unfold id.
  destruct (_resolve_app s r c) as [p|]; [|discriminate]. destruct (is_public_path _ _); [discriminate|].
  destruct (read_forward_auth_cookie _ _ _) as [who|].
  - unfold recheck_cookie_access. destruct (uuid_of_text _) as [u|]; [|discriminate].
    unfold authorize_app_access. rewrite run_bind_assoc, run_gets_bind. destruct (access_of s _ u _); cbn [negb when].
    + rewrite run_bind_assoc, !run_ret_bind. unfold respond_allow, lift. destruct (forallb _ _); discriminate.
    + rewrite run_bind_assoc, run_bind. destruct (log_proxy_event _ _ _ _ _ _ s) as [[]]; discriminate.
  - rewrite run_bind. destruct (when _ _ s) as [[]]; [|discriminate]. by intros [= <- <- <-].
Qed.
Lemma two_enabled s t i p q : p ≠ q → p ∈ tenant_proxies s t → q ∈ tenant_proxies s t →
  px_domain_id (pa_row p) = i → px_domain_id (pa_row q) = i →
  app_enabled (pa_app p) = true → app_enabled (pa_app q) = true → sole_enabled s t i = None.
Proof.
  intros Hne Hp Hq Dp Dq Ep Eq. unfold sole_enabled.
  assert (∀ x, x ∈ tenant_proxies s t → px_domain_id (pa_row x) = i → app_enabled (pa_app x) = true →
    x ∈ filter (λ p, app_enabled (pa_app p) = true) (list_proxy_apps_for_domain s t i)) as Hin.
  { intros x Hx Hd He. apply list_elem_of_filter. split; [done|]. unfold list_proxy_apps_for_domain, order_by_name.
    rewrite merge_sort_Permutation. by apply list_elem_of_filter. }
  pose proof (Hin p Hp Dp Ep) as Ip. pose proof (Hin q Hq Dq Eq) as Iq.
  destruct (filter _ _) as [|x [|]]; [done| |done].
  apply list_elem_of_singleton in Ip, Iq. congruence.
Qed.
Lemma found_in s t i p : db_get_proxy_app s t i = Some p → p ∈ tenant_proxies s t ∧ pa_id p = i.
Proof.
  intros Hp. destruct (db_get_proxy_app_Some _ _ _ _ Hp) as (d & Hx & _ & Hi & _). split; [|done].
  unfold db_get_proxy_app in Hp. rewrite Hx in Hp. cbn [mbind option_bind] in Hp. unfold tenant_proxies.
  apply list_elem_of_omap. exists (i, pa_row p). split; [by apply elem_of_map_to_list|done].
Qed.

(** On a domain with two enabled applications nobody signs in by the redirect
    that /check answers: it carries the page without its host, and whatever
    page that is, /authorize finds no application for it, for any user. *)
Theorem several_apps_never_admit c r s url ck s' s2 u i row j k p q :
  forward_auth_check _cookie_key (Some c) r s = (Ok (fa_redirect url ck), s') →
  Forall (λ b, unsafe_byte b = false) (chars (default "" (rq_forwarded_uri r))) →
  let rd := default "/" (param "rd" (url_params url)) in
  let d := fc_domain c in let ph := fc_portal_host c in let t := fc_tenant c in
  py_len d <= Z.of_nat _MAX_HOST_LEN → py_len ph <= Z.of_nat _MAX_HOST_LEN →
  get_tenant_verified_domain s2 t (_normalize_host_value d) (_normalize_host_value ph) = Some (i, row) →
  j ≠ k → db_get_proxy_app s2 t j = Some p → db_get_proxy_app s2 t k = Some q →
  px_domain_id (pa_row p) = i → px_domain_id (pa_row q) = i →
  app_enabled (pa_app p) = true → app_enabled (pa_app q) = true →
  forward_auth_authorize _token_key t (Some u) d ph rd s2 = (Ok no_application, s2).
Proof.
  intros [-> _]%check_redirect Hu rd d ph t L1 L2 Hrow Hne [Ip Ej]%found_in [Iq Ek]%found_in Dp Dq Ep Eq.
  assert (page rd ∧ py_len rd <= Z.of_nat _MAX_URL_LEN) as [Hpage Hlen].
  { destruct (original_page r Hu) as [Hpage Hlen]. unfold rd, safe_path. destruct (is_safe_path _).
    - rewrite start_link. rewrite (proj1 (link_read "/forward-auth/start" [("rd", _)] ltac:(by apply (bool_decide_unpack _))
        ltac:(by repeat constructor))). done.
    - split; [|by vm_compute]. split; [done|]. by repeat constructor. }
  unfold forward_auth_authorize. rewrite !(proj2 (Z.ltb_ge _ _)) by done. cbn [orb].
  rewrite run_gets_bind. unfold id. rewrite Hrow, run_lift_bind. unfold resolve_app_for_rd.
  rewrite page_rd_host by done. cbn [mbind outcome_bind fst]. rewrite decide_True by done.
  by rewrite (two_enabled s2 t i p q) by congruence.
Qed.
End findings.
