(* ===== verification/ForwardWitness.v ===== *)
(** * Forward authentication at work

    One deployment with two tenants: Acme registers acme-corp.com, proves it,
    and puts an application behind it; Ann works there.  Rival is a tenant of
    its own, with a user Max and a domain.  Each theorem with hypotheses is
    applied to a history of this deployment. *)

From stdpp Require Import gmap strings pretty.
From S2P Require Import Prelude Sha256 GroupDb GroupService OAuthDb AppAccess MailDb Tokens TokenProofs PasswordStrength Json JsonText Credentials Url PortalDb PortalAdmin ForwardAuth ForwardTokens PortalProofs ForwardHistory ForwardSafety ForwardFlow ForwardFindings.
#[local] Open Scope Z_scope.

Module PortalDemo.
#[export] Instance demo_collation : Collation := String.leb.
#[export] Instance demo_portal_ids : PortalIds := λ s, Pos.succ (Pos.max (top (po_domains s)) (top (po_proxies s))).
#[export] Instance demo_hex : PortalHex := λ _ k, "n" +:+ pretty (Z.of_nat k).
#[export] Instance demo_urls : UrlChecks := {| bracketed_host_ok := λ _, true; nfkc_ok := λ _, true |}.
#[export] Instance demo_ages : GroupAges := λ d, (map_to_list (groups d)).*1.
#[export] Instance demo_floats : Floats := {| float_repr := λ x, x; float_micros := λ _, None |}.
#[export] Instance demo_uuid_text : UuidText := λ u, pretty (Zpos u).
#[export] Instance demo_uuid_parse : UuidParse := λ x, match py_int x with Some (Zpos p) => Some p | _ => None end.
#[export] Instance demo_headers : HeaderText := λ _, true.

Lemma demo_uuid_back i : uuid_of_text (uuid_text i) = Some i.
Proof. unfold uuid_of_text, demo_uuid_parse, uuid_text, demo_uuid_text. by rewrite py_int_pretty. Qed.
Lemma pretty_ascii z : 0 <= z → is_ascii (pretty z) = true.
Proof.
  intros Hz%pretty_nat_chars. apply is_ascii_Forall. eapply Forall_impl; [exact Hz|].
  intros c Hc. unfold numeral_char in Hc. tauto.
Qed.
Lemma demo_uuid_valid i : valid_text (uuid_text i).
Proof. by apply ascii_valid, pretty_ascii. Qed.
Lemma demo_hex_valid n k : valid_text (portal_hex n k).
Proof.
  apply ascii_valid. unfold portal_hex, demo_hex. apply is_ascii_Forall. rewrite chars_app.
  constructor; [done|]. apply is_ascii_Forall, pretty_ascii. lia.
Qed.
Lemma demo_hex_inj n k k' : portal_hex n k = portal_hex n k' → k = k'.
Proof.
  intros E%(f_equal chars). unfold portal_hex, demo_hex in E. rewrite !chars_app in E. injection E as E.
  apply (f_equal text_of) in E. rewrite !text_of_chars in E. apply (f_equal py_int) in E.
  rewrite !py_int_pretty in E by lia. injection E. lia.
Qed.

(** ** The deployment *)

Definition tk : list Z := [116; 107].
Definition ck : list Z := [99; 107].
Definition login_of (first last : string) : login_row :=
  mk_login first last None None false None None None false (Some "email") None.
Definition address (u : uuid) (e : string) : email_row := mk_email u e true (Some 0) "v" "s" 0 (email_domain e).
Definition staff : group_row := mk_group "Staff" None None weftid None None true None.
Definition tenant_of (u : uuid) (first last e : string) : mail :=
  mk_mail (mk_tenant (mk_db {[60%positive := staff]} ∅ {[(60, 60)%positive := 0%nat]} {[(60%positive, u)]} {[u]} ∅ ∅ ∅ [] [])
             0 ∅ ∅ ∅ ∅ ∅ ∅ [] ∅ ∅ {[u := mk_account super_admin false false]})
    1 {[u := login_of first last]} {[10%positive := address u e]} ∅ ∅ ∅ ∅
    (Some (mk_security None true true (Some 30) 10 90 14 3 "all" false "baseline")).
Definition sec (n : Z) : Z := n * 1000000.
Definition s0 : portal :=
  mk_portal {[1%positive := tenant_of 5 "Ann" "Lee" "ann@acme.org"; 2%positive := tenant_of 6 "Max" "Roe" "max@rival.org"]}
    {[1%positive := "acme"; 2%positive := "rival"]} ∅ ∅ ∅ 0 (sec 1000).
Definition ann : requesting_user := {| ru_id := 5; ru_role := super_admin |}.
Definition max_ : requesting_user := {| ru_id := 6; ru_role := super_admin |}.

Definition run (o : portal_op) (s : portal) : answer * portal := run_op tk ck "weft.id" false o s.
Definition then_ (s : portal) (o : portal_op) : portal := (run o s).2.
Definition dns (name : string) : list string :=
  if decide (name ∈ ["_weftid-challenge.acme-corp.com"; "_weftid-challenge.rival.net"])
  then [challenge_record_value (portal_hex 24 0); challenge_record_value (portal_hex 24 2)] else [].
Definition app_of (domain : uuid) (url : string) : proxy_create :=
  mk_proxy_create domain "Grafana" url None ["/health"] [("email", true); ("groups", true)] true true.

(** Acme's domain is 100, its application 101. *)
Definition o1 := op_register 1 ann " Acme-Corp.com." "auth.acme-corp.com".
Definition o2 := op_verify 1 ann 100 dns.
Definition o3 := op_create 1 ann (app_of 100 "https://grafana.acme-corp.com/").
Definition s1 := then_ s0 o1.
Definition s2 := then_ s1 o2.
Definition s3 := then_ s2 o3.

Definition ask (uri : string) (cookie : option string) : fa_request :=
  mk_request (Some "auth.acme-corp.com") (Some "grafana.acme-corp.com") (Some uri) cookie false.
Definition page_ : string := "/d/1?x=2".
Definition asked : portal_op := op_authorize 1 (Some 5%positive) "acme-corp.com" "auth.acme-corp.com" page_.
Definition at1 : portal := at_time (sec 1010) s3.
(** What signing computes is kept as a literal. *)
Definition token : string := Eval vm_compute in minted tk at1 1 5 "acme-corp.com" 101 page_.
Definition s4 : portal := then_ at1 asked.
Definition came_back : portal_op := op_callback (ask "/" None) token.
Definition s5 : portal := Eval vm_compute in then_ s4 came_back.
Definition cookie_in (a : answer) : option fa_cookie :=
  match a with answered (Ok (fa_redirect _ x)) => x | _ => None end.
Definition given : fa_cookie := Eval vm_compute in default (mk_cookie "" "" 0 false) (cookie_in (run came_back s4).1).
Definition asked_again : portal_op := op_check (ask page_ (Some (ck_value given))).

Example first_steps :
  (run o1 s0).1 = finished (Ok ()) ∧ (run o2 s1).1 = finished (Ok ()) ∧ (run o3 s2).1 = finished (Ok ()) ∧
  (run (op_check (ask page_ None)) s3).1 = answered (Ok (fa_redirect "/forward-auth/start?rd=%2Fd%2F1%3Fx%3D2" None)) ∧
  (run (op_check (ask "/health" None)) s3).1 = answered (Ok (fa_allow [])).
Proof. split_and!; vm_compute; reflexivity. Qed.
Lemma token_minted : minted tk at1 1 5 "acme-corp.com" 101 page_ = token.
Proof. vm_compute. reflexivity. Qed.
Lemma asked_answer :
  (run asked at1).1 = answered (Ok (fa_redirect ("https://auth.acme-corp.com" +:+ callback_path token) None)).
Proof. vm_compute. reflexivity. Qed.
Lemma came_back_result : run came_back s4 = (answered (Ok (fa_redirect page_ (Some given))), s5).
Proof. vm_compute. reflexivity. Qed.

(** ** Its history *)

Definition text_ok (x : string) : bool := utf8_valid (bytes_of x).
Definition texts_check (s : portal) : bool :=
  bool_decide (map_Forall (λ t m, map_Forall (λ u (_ : login_row),
    match build_forward_auth_identity s t u with
    | Some who => forallb text_ok (si_email who :: si_display_name who :: si_groups who)
    | None => true
    end = true) (ma_logins m)) (po_tenants s)).
Lemma texts_check_ok s : texts_check s = true → texts_ok s.
Proof.
  intros Hc%bool_decide_eq_true t u who Hwho. pose proof Hwho as Hrow.
  unfold build_forward_auth_identity in Hrow. apply bind_Some in Hrow as (m & Hm & (row & Hrow & _)%bind_Some).
  unfold get_user_row in Hrow. apply bind_Some in Hrow as (a & _ & (l & Hl & _)%bind_Some).
  specialize (Hc t m Hm u l Hl). cbn beta in Hc. rewrite Hwho in Hc.
  rewrite forallb_forall in Hc. apply Forall_forall. intros x Hx. by apply Hc, list_elem_of_In.
Qed.

#[local] Notation world := (world tk ck "weft.id" false).
Definition visit_of (s : portal) (o : portal_op) : visit := mk_visit s o (run o s).1.
Lemma step h s o : world h s → presentable tk ck h o → texts_check s = true →
  world (h ++ [visit_of s o]) (then_ s o).
Proof. intros Hw Hp Ht. apply world_visit; [done|done|by apply texts_check_ok|]. apply surjective_pairing. Qed.
Lemma wait h s T : world h s → po_clock s <= T → world h (at_time T s).
Proof.
  intros Hw HT. apply (world_elsewhere _ _ _ _ h s); [done|]. split_and!; try done. intros t m Hm. by exists m.
Qed.
Definition h3 : list visit := [visit_of s0 o1; visit_of s1 o2; visit_of s2 o3].
Definition h5 : list visit := h3 ++ visit_of at1 asked :: [] ++ visit_of s4 came_back :: [].
Lemma world_s3 : world h3 s3.
Proof.
  apply (step [visit_of s0 o1; visit_of s1 o2]); [|done|by vm_compute].
  apply (step [visit_of s0 o1]); [|done|by vm_compute]. apply (step []); [|done|by vm_compute]. by apply world_start.
Qed.
Lemma token_handed : hands_out (visit_of at1 asked) token.
Proof.
  eexists 1%positive, (Some 5%positive), _, _, page_, ("https://auth.acme-corp.com" +:+ callback_path token).
  split_and!; [reflexivity|exact asked_answer|vm_compute; reflexivity].
Qed.
Lemma world_s5 : world h5 s5.
Proof.
  assert (then_ s4 came_back = s5) as <- by exact (f_equal snd came_back_result).
  unfold h5. cbn [Datatypes.app]. change (visit_of at1 asked :: ?l) with ([visit_of at1 asked] ++ l). rewrite app_assoc.
  apply step; [apply step; [apply wait; [exact world_s3|by vm_compute]|by vm_compute|by vm_compute]| |by vm_compute].
  left. exists (visit_of at1 asked). split; [set_solver|exact token_handed].
Qed.
Lemma cookie_given : sets_cookie (visit_of s4 came_back) (ck_value given).
Proof. eexists _, token, page_, given. split_and!; [reflexivity|exact (f_equal fst came_back_result)|reflexivity]. Qed.
Definition h6 : list visit := h5 ++ [visit_of s5 came_back].
Definition s6 : portal := then_ s5 came_back.
Lemma world_s6 : world h6 s6.
Proof.
  apply step; [exact world_s5| |by vm_compute].
  left. exists (visit_of at1 asked). split; [unfold h5; set_solver|exact token_handed].
Qed.
End PortalDemo.
Import PortalDemo.
Ltac computed := vm_compute; reflexivity.

Lemma portal_tables_sound_witness :
  is_Some (po_proxies s5 !! 101%positive) ∧
  ∀ i x, po_proxies s5 !! i = Some x →
    ∃ r d parts host, po_domains s5 !! px_domain_id x = Some r ∧ pr_tenant r = px_tenant x ∧ pr_status r = verified ∧
      urlsplit (px_external_url x) = Ok parts ∧ us_scheme parts = "https" ∧ hostname parts = Some host ∧
      under_domain (_normalize_app_host host) (pr_domain r) = true ∧
      tenant_dir s5 (px_tenant x) = Some d ∧ is_Some (apps d !! (proxy_app, i)).
Proof. split; [by vm_compute; eexists|]. apply (portal_tables_sound tk ck "weft.id" false h5 s5 world_s5). Defined.

Definition acme_row : protected_row := default (mk_protected 1 "" "" pending None None true None 0) (po_domains s5 !! 100%positive).
Lemma verified_needs_txt_witness :
  pr_domain acme_row = "acme-corp.com" ∧
  ∃ h1 v h2 u dns k, h5 = h1 ++ v :: h2 ∧ vi_op v = op_verify (pr_tenant acme_row) u 100 dns ∧ ru_role u = super_admin ∧
    (k < po_draws (vi_state v))%nat ∧
    _CHALLENGE_VALUE_PREFIX +:+ portal_hex 24 k ∈ dns ("_weftid-challenge." +:+ pr_domain acme_row).
Proof.
  split; [vm_compute; reflexivity|].
  apply (verified_needs_txt tk ck "weft.id" false h5 s5 100 acme_row world_s5); vm_compute; reflexivity.
Defined.

Lemma token_redeemed_once_witness :
  vi_answer (visit_of s5 came_back) ≠ answered (Ok (fa_redirect page_ (Some given))).
Proof.
  apply (token_redeemed_once tk ck "weft.id" false h6 s6 (h3 ++ [visit_of at1 asked]) (visit_of s4 came_back) []
    (visit_of s5 came_back) [] (ask "/" None) (ask "/" None) token page_ given page_ given);
    [exact world_s6|intros k k' _ _; apply demo_hex_inj| |reflexivity|reflexivity|exact (f_equal fst came_back_result)].
  unfold h6, h5. by rewrite <- !app_assoc.
Defined.

Lemma forward_tokens_roundtrip_witness :
  ∃ payload, verify_authorization_token tk
      (mint_authorization_token tk "5" "1" "acme-corp.com" "101" page_ "n1" 60 (sec 1010)) "acme-corp.com" (sec 1070) =
    Ok (Some payload) ∧ get "rd" payload = JStr page_.
Proof.
  destruct (forward_tokens_roundtrip tk "5" "1" "acme-corp.com" "101" page_ "n1" "ann@acme.org" "Ann Lee" ["Staff"]
    60 (sec 1010) "acme-corp.com" (sec 1070)) as [(payload & Hv & _ & _ & _ & _ & Hrd & _) _];
    [by repeat constructor|reflexivity|reflexivity|].
  exists payload. split; [|exact Hrd]. rewrite Hv. destruct (decide _) as [|Hn]; [reflexivity|].
  destruct Hn. split; [vm_compute; discriminate|reflexivity].
Defined.

Lemma asked_again_answer :
  (run asked_again s5).1 = answered (Ok (fa_allow [("X-Forwarded-Email", "ann@acme.org"); ("X-Forwarded-Groups", "Staff")])).
Proof. vm_compute. reflexivity. Qed.
Lemma allow_is_earned_witness :
  ∃ i row p, po_domains s5 !! i = Some row ∧ pr_status row = verified ∧ pr_enabled row = true ∧
    _resolve_app s5 (ask page_ (Some (ck_value given))) (context_of (i, row)) = Some p.
Proof.
  destruct (allow_is_earned tk ck "weft.id" false demo_uuid_back demo_uuid_valid demo_hex_valid h5 s5
    (ask page_ (Some (ck_value given))) [("X-Forwarded-Email", "ann@acme.org"); ("X-Forwarded-Groups", "Staff")]
    (run asked_again s5).2 world_s5) as (i & row & p & Hi & Hv & He & Hp & _).
  - intros x Hx. left. destruct (f_equal (default "") Hx : ck_value given = x). exists (visit_of s4 came_back). split; [|exact cookie_given].
    unfold h5. rewrite elem_of_app. right. right. left.
  - exact (eq_trans (surjective_pairing (run asked_again s5))
      (f_equal (λ a, (a, (run asked_again s5).2)) asked_again_answer)).
  - exists i, row, p. exact (conj Hi (conj Hv (conj He Hp))).
Defined.

Definition acme_row3 : protected_row := default acme_row (po_domains s3 !! 100%positive).
Definition no_app : proxy := mk_proxy 1 (mk_proxy_row 1 1 None "" [] [] None 0 0) (mk_app "" false false false).
Definition grafana : proxy := default no_app (db_get_proxy_app s3 1 101).
Definition ann_now : session_identity :=
  default (mk_session_identity "" "" "" []) (build_forward_auth_identity s3 1 5).
Lemma page_page : page page_.
Proof. split; [vm_compute; reflexivity|]. by repeat constructor. Qed.
Lemma at_most x y : (x <=? y) = true → x <= y.
Proof. apply Z.leb_le. Qed.
Definition acme : uuid := pr_tenant acme_row3.
Definition acme_domain : string := pr_domain acme_row3.
Definition acme_portal : string := pr_portal_host acme_row3.
Definition acme_token : string := minted tk (at_time (sec 1010) s3) acme 5 acme_domain (pa_id grafana) page_.

(** Rival's domain is 102, its wiki 103. *)
Definition rival_wiki : portal :=
  then_ (then_ (then_ s5 (op_register 2 max_ "rival.net" "auth.rival.net")) (op_verify 2 max_ 102 dns))
    (op_create 2 max_ (app_of 102 "https://wiki.rival.net")).
Definition at_wiki : fa_request :=
  mk_request (Some "auth.rival.net") (Some "wiki.rival.net") (Some "/") (Some (ck_value given)) false.
Definition acme_ctx : fa_context := mk_context 1 "acme-corp.com" "auth.acme-corp.com".
Definition rival_ctx : fa_context := mk_context 2 "rival.net" "auth.rival.net".
Definition wiki : proxy := default no_app (db_get_proxy_app rival_wiki 2 103).
Definition called_back : outcome fa_reply * portal := forward_auth_callback tk ck false (Some acme_ctx) token s4.
Lemma called_back_answer : called_back.1 = Ok (fa_redirect page_ (Some given)).
Proof. computed. Qed.
Lemma cookie_of_any_tenant_opens_shared_app_witness :
  tenant_guard "weft.id" rival_wiki "/forward-auth/check" at_wiki = admitted (Some rival_ctx) ∧
  ∃ u who, build_forward_auth_identity s4 1 u = Some who ∧
    forward_auth_check ck (Some rival_ctx) at_wiki rival_wiki = (Ok (fa_allow (headers_of wiki who)), rival_wiki).
Proof.
  split; [computed|].
  apply (cookie_of_any_tenant_opens_shared_app tk ck false s4 acme_ctx token page_ given called_back.2 rival_wiki rival_ctx
    at_wiki wiki); [exact demo_uuid_back|exact demo_uuid_valid|apply texts_check_ok; computed
    |exact (eq_trans (surjective_pairing called_back) (f_equal (λ a, (a, called_back.2)) called_back_answer))
    |apply at_most; computed|computed|computed|computed|computed|computed|intros x; reflexivity].
Defined.

(** A second application of Acme, 102. *)
Definition two_apps : portal := then_ s3 (op_create 1 ann (app_of 100 "https://sonarr.acme-corp.com/")).
Definition sonarr : proxy := default no_app (db_get_proxy_app two_apps 1 102).
Definition grafana2 : proxy := default no_app (db_get_proxy_app two_apps 1 101).
Lemma several_apps_never_admit_witness :
  forward_auth_authorize tk 1 (Some 5%positive) "acme-corp.com" "auth.acme-corp.com" page_ two_apps =
    (Ok no_application, two_apps).
Proof.
  exact (several_apps_never_admit tk ck acme_ctx (ask page_ None) two_apps "/forward-auth/start?rd=%2Fd%2F1%3Fx%3D2" None
    two_apps two_apps 5 100 acme_row3 101 102 grafana2 sonarr ltac:(computed)
    ltac:(by repeat constructor) ltac:(apply at_most; computed) ltac:(apply at_most; computed) ltac:(computed) ltac:(done)
    ltac:(computed) ltac:(computed) ltac:(computed) ltac:(computed) ltac:(computed) ltac:(computed)).
Defined.
