(* ===== verification/JobQueue.v ===== *)
(** * The job queue and its worker

    app/database/bg_tasks.py, app/services/bg_tasks.py, app/jobs/registry.py
    and app/worker.py.  The table bg_tasks holds the jobs of every tenant and
    is read without row-level security, so [queue] holds it beside the tables
    of every tenant.  A column of type jsonb is the object it was given; ids
    are drawn from a generator ([task_id], by the number of the draw).  A
    handler is any function of the task and the state, as in the registry;
    [main_registry] is what the worker registers. *)

From stdpp Require Import gmap strings pretty.
From S2P Require Import Prelude GroupDb GroupService OAuthDb UserLifecycle MailDb MailService Jobs Json.
#[local] Open Scope Z_scope.

(** schemas/bg_tasks.py, [JobStatus]. *)
Inductive task_status := PENDING | PROCESSING | COMPLETED | FAILED.
#[export] Instance task_status_eq_dec : EqDecision task_status.
Proof. solve_decision. Defined.

Record task_row := mk_task {
  ta_tenant : uuid;
  ta_job_type : string;
  ta_payload : option dict;
  ta_status : task_status;
  ta_result : option dict;
  ta_created_by : uuid;
  ta_created_at : Z;
  ta_started_at : option Z;
  ta_completed_at : option Z;
  ta_error : option string;
}.

Record queue := mk_queue {
  q_tasks : gmap uuid task_row;
  q_draws : nat;
  q_tenants : gmap uuid mail;
  q_clock : Z;
}.
Definition set_tasks f q := mk_queue (f (q_tasks q)) (q_draws q) (q_tenants q) (q_clock q).
Definition set_q_draws f q := mk_queue (q_tasks q) (f (q_draws q)) (q_tenants q) (q_clock q).
Definition set_q_tenants f q := mk_queue (q_tasks q) (q_draws q) (f (q_tenants q)) (q_clock q).
Definition set_q_clock f q := mk_queue (q_tasks q) (q_draws q) (q_tenants q) (f (q_clock q)).

Class TaskIds := task_id : nat → uuid.
Class TaskIdsLaws `{TaskIds} := task_id_inj : ∀ j k, task_id j = task_id k → j = k.

(** A call of one tenant's code. *)
Definition on_tenant {A} (t : uuid) (m : M mail A) : M queue A := λ q,
  match q_tenants q !! t with
  | Some x => let '(r, x') := m x in (r, set_q_tenants (insert t x') q)
  | None => (Raise (IntegrityError "tenant_id_fkey"), q)
  end.
Definition q_log (t : uuid) (actor : option uuid) (artifact_type : string) (i : uuid) (name : string)
    (md : list (string * meta)) : M queue () :=
  on_tenant t (in_groups (log_event actor artifact_type i name md)).
Definition q_track (t u : uuid) : M queue () := on_tenant t (in_groups (track_activity u)).

(** What the database stores: no text with the character 0, no number that is
    none.  [Json(d) if d else None]. *)
Fixpoint jsonb_ok (x : json) : bool :=
  match x with
  | JStr s => no_nul s
  | JFloat r => bool_decide (r ∉ ["nan"; "inf"; "-inf"])
  | JList l => forallb jsonb_ok l
  | JDict d => forallb (λ kv, no_nul kv.1 && jsonb_ok kv.2) d
  | _ => true
  end.
Definition json_column (d : option dict) : M queue (option dict) :=
  match d with
  | None | Some [] => mret None
  | Some d => if jsonb_ok (JDict d) then mret (Some d) else raise (PythonError "UntranslatableCharacter")
  end.

(** ** database/bg_tasks.py *)

Section bg_tasks.
Context `{TaskIds} `{UuidParse}.

Definition create_task (t : uuid) (job_type : string) (created_by : uuid) (payload : option dict) :
    M queue (uuid * Z) :=
  payload ← json_column payload;
  _ ← raise_if (bool_decide (100 < py_len job_type)%Z) (IntegrityError "bg_tasks_job_type_check");
  i ← update (λ q, (task_id (q_draws q), set_q_draws S q));
  q ← gets id;
  _ ← raise_if (bool_decide (is_Some (q_tasks q !! i))) (IntegrityError "bg_tasks_pkey");
  _ ← raise_if (bool_decide (q_tenants q !! t = None)) (IntegrityError "bg_tasks_tenant_id_fkey");
  _ ← modify (set_tasks (insert i
        (mk_task t job_type payload PENDING None created_by (q_clock q) None None None)));
  mret (i, q_clock q).

(** [order by created_at]; rows of the same instant are in no particular
    order. *)
Definition oldest_first (x y : uuid * task_row) : Prop := ta_created_at x.2 <= ta_created_at y.2.
#[export] Instance oldest_first_dec : RelDecision oldest_first.
Proof. intros x y. unfold oldest_first. apply _. Defined.
Definition newest_task (x y : uuid * task_row) : Prop := ta_created_at y.2 <= ta_created_at x.2.
#[export] Instance newest_task_dec : RelDecision newest_task.
Proof. intros x y. unfold newest_task. apply _. Defined.

(** The rows the select may return: [for update skip locked] passes over
    those another transaction has locked. *)
Definition claimable (locked : gset uuid) (q : queue) : list (uuid * task_row) :=
  merge_sort oldest_first
    (filter (λ kv : uuid * task_row, ta_status kv.2 = PENDING ∧ kv.1 ∉ locked) (map_to_list (q_tasks q))).
Definition start_task (now : Z) (r : task_row) : task_row :=
  mk_task (ta_tenant r) (ta_job_type r) (ta_payload r) PROCESSING (ta_result r) (ta_created_by r)
    (ta_created_at r) (Some now) (ta_completed_at r) (ta_error r).
Definition claim_next_task (locked : gset uuid) : M queue (option (uuid * task_row)) :=
  update (λ q, match head (claimable locked q) with
               | Some (i, r) => (Some (i, start_task (q_clock q) r), set_tasks (insert i (start_task (q_clock q) r)) q)
               | None => (None, q)
               end).

Definition completed_row (now : Z) (result : option dict) (r : task_row) : task_row :=
  mk_task (ta_tenant r) (ta_job_type r) (ta_payload r) COMPLETED result (ta_created_by r)
    (ta_created_at r) (ta_started_at r) (Some now) (ta_error r).
Definition failed_row (now : Z) (error : string) (r : task_row) : task_row :=
  mk_task (ta_tenant r) (ta_job_type r) (ta_payload r) FAILED (ta_result r) (ta_created_by r)
    (ta_created_at r) (ta_started_at r) (Some now) (Some error).
Definition complete_task (i : uuid) (result : option dict) : M queue () :=
  result ← json_column result;
  modify (λ q, set_tasks (alter (completed_row (q_clock q) result) i) q).
(** [chk_bg_tasks_error_length]: an error has at most 10000 characters. *)
Definition fail_task (i : uuid) (error : string) : M queue () :=
  _ ← raise_if (negb (no_nul error)) (PythonError "DataError");
  q ← gets id;
  _ ← raise_if (bool_decide (is_Some (q_tasks q !! i) ∧ 10000 < py_len error))
        (IntegrityError "chk_bg_tasks_error_length");
  modify (set_tasks (alter (failed_row (q_clock q) error) i)).

Definition get_task (q : queue) (i : uuid) : option task_row := q_tasks q !! i.
Definition tasks_where (P : task_row → bool) (q : queue) : list (uuid * task_row) :=
  filter (λ kv : uuid * task_row, P kv.2 = true) (map_to_list (q_tasks q)).
(** [if job_type:] *)
Definition of_type (job_type : option string) (r : task_row) : bool :=
  match job_type with
  | None | Some "" => true
  | Some x => bool_decide (ta_job_type r = x)
  end.
Definition list_tasks_for_tenant (q : queue) (t : uuid) (limit : nat) (job_type : option string) :
    list (uuid * task_row) :=
  take limit (merge_sort newest_task (tasks_where (λ r, bool_decide (ta_tenant r = t) && of_type job_type r) q)).
Definition count_pending_tasks (q : queue) (job_type : option string) : nat :=
  length (tasks_where (λ r, bool_decide (ta_status r = PENDING) && of_type job_type r) q).
Definition owned (t u : uuid) (r : task_row) : bool :=
  bool_decide (ta_tenant r = t) && bool_decide (ta_created_by r = u).
Definition list_tasks_for_user (q : queue) (t u : uuid) (limit : nat) : list (uuid * task_row) :=
  take limit (merge_sort newest_task (tasks_where (owned t u) q)).

(** An id that comes as text, and a list of them. *)
Definition task_uuid (x : string) : M queue uuid :=
  some_or (uuid_of_text x) (PythonError "InvalidTextRepresentation").
Definition get_task_for_user (t u : uuid) (x : string) : M queue (option (uuid * task_row)) :=
  i ← task_uuid x;
  gets (λ q, r ← q_tasks q !! i; if owned t u r then Some (i, r) else None).

(** [result - 'password'] where [result ? 'password']. *)
Definition without_password (r : task_row) : task_row :=
  match ta_result r with
  | Some d =>
      if has_key "password" d then
        mk_task (ta_tenant r) (ta_job_type r) (ta_payload r) (ta_status r)
          (Some (filter (λ kv : string * json, kv.1 ≠ "password") d)) (ta_created_by r)
          (ta_created_at r) (ta_started_at r) (ta_completed_at r) (ta_error r)
      else r
  | None => r
  end.
Definition redact_result_password (i : uuid) : M queue () := modify (set_tasks (alter without_password i)).

Definition deletable (r : task_row) : bool :=
  match ta_status r with COMPLETED | FAILED => true | _ => false end.
Definition deleted_by (t u : uuid) (ids : list uuid) (kv : uuid * task_row) : Prop :=
  kv.1 ∈ ids ∧ owned t u kv.2 = true ∧ deletable kv.2 = true.
#[export] Instance deleted_by_dec t u ids kv : Decision (deleted_by t u ids kv).
Proof. unfold deleted_by. apply _. Defined.
Definition delete_tasks (t u : uuid) (xs : list string) : M queue nat :=
  match xs with
  | [] => mret 0%nat
  | _ =>
      ids ← for_map task_uuid xs;
      update (λ q, (length (filter (deleted_by t u ids) (map_to_list (q_tasks q))),
                    set_tasks (filter (λ kv, ¬ deleted_by t u ids kv)) q))
  end.
End bg_tasks.

(** ** services/bg_tasks.py

    [isoformat] is the text of a date, a number of days. *)

Section services.
Context `{TaskIds} `{UuidParse} `{UuidText} (isoformat : Z → string).
Implicit Types (t : uuid) (u : requesting_user).

Definition refuse {A} (code : string) : M queue A := raise (ServiceError ValidationError code).

(** The guard every service opens with. *)
Definition admin_call t u : M queue () := _ ← require_admin u; q_track t (ru_id u).

(** The insert and its event, which every [create_.._task] ends with. *)
Definition create_logged t u (job_type event : string) (payload : option dict) (md : list (string * meta)) :
    M queue (uuid * Z) :=
  row ← create_task t job_type (ru_id u) payload;
  _ ← q_log t (Some (ru_id u)) "bg_task" row.1 event (("job_type", MStr job_type) :: md);
  mret row.

Definition days_of (q : queue) : Z := q_clock q / days 1.
Definition date_field (k : string) (d : option Z) : dict :=
  match d with Some d => [(k, JStr (isoformat d))] | None => [] end.
Definition create_export_task t u (start_date end_date : option Z) : M queue (uuid * Z) :=
  _ ← admin_call t u;
  today ← gets days_of;
  _ ← match start_date, end_date with
      | Some a, Some b => if b <? a then refuse "invalid_date_range" else mret ()
      | _, _ => mret ()
      end;
  _ ← match start_date with Some a => if today <? a then refuse "future_date" else mret () | None => mret () end;
  _ ← match end_date with Some b => if today <? b then refuse "future_date" else mret () | None => mret () end;
  create_logged t u "export_events" "export_task_created"
    (Some (date_field "start_date" start_date ++ date_field "end_date" end_date))
    [("start_date", from_option (MStr ∘ isoformat) MNull start_date);
     ("end_date", from_option (MStr ∘ isoformat) MNull end_date)].
Definition create_user_export_task t u : M queue (uuid * Z) :=
  _ ← admin_call t u;
  create_logged t u "export_users" "user_export_task_created" None [].

(** [if not items]. *)
Definition require_some {A} (l : list A) (code : string) : M queue () :=
  match l with [] => refuse code | _ => mret () end.
Definition count_meta {A} (l : list A) : list (string * meta) := [("item_count", MNat (length l))].

Definition create_bulk_add_emails_task t u (items : list json) : M queue (uuid * Z) :=
  _ ← admin_call t u;
  _ ← require_some items "empty_items";
  create_logged t u "bulk_add_secondary_emails" "bulk_secondary_emails_task_created"
    (Some [("items", JList items)]) (count_meta items).
Definition create_bulk_primary_email_preview_task t u (items : list json) : M queue (uuid * Z) :=
  _ ← admin_call t u;
  _ ← require_some items "empty_items";
  create_logged t u "bulk_primary_email_preview" "bulk_primary_email_preview_task_created"
    (Some [("items", JList items)]) (count_meta items).
Definition create_bulk_primary_email_apply_task t u (items : list json) (preview_job_id : string) :
    M queue (uuid * Z) :=
  _ ← admin_call t u;
  _ ← require_some items "empty_items";
  create_logged t u "bulk_primary_email_apply" "bulk_primary_email_apply_task_created"
    (Some [("items", JList items); ("preview_job_id", JStr preview_job_id)])
    (count_meta items ++ [("preview_job_id", MStr preview_job_id)]).
Definition create_bulk_inactivate_task t u (user_ids : list string) : M queue (uuid * Z) :=
  _ ← admin_call t u;
  _ ← require_some user_ids "empty_user_ids";
  create_logged t u "bulk_inactivate_users" "bulk_inactivate_task_created"
    (Some [("user_ids", JList (JStr <$> user_ids))]) (count_meta user_ids).
Definition create_bulk_reactivate_task t u (user_ids : list string) : M queue (uuid * Z) :=
  _ ← admin_call t u;
  _ ← require_some user_ids "empty_user_ids";
  create_logged t u "bulk_reactivate_users" "bulk_reactivate_task_created"
    (Some [("user_ids", JList (JStr <$> user_ids))]) (count_meta user_ids).
Definition create_bulk_group_assignment_task t u (group_id : string) (user_ids : list string) :
    M queue (uuid * Z) :=
  _ ← admin_call t u;
  _ ← require_some user_ids "empty_user_ids";
  _ ← when (bool_decide (group_id = "")) (refuse "missing_group_id");
  create_logged t u "bulk_group_assignment" "bulk_group_assignment_task_created"
    (Some [("group_id", JStr group_id); ("user_ids", JList (JStr <$> user_ids))])
    (("group_id", MStr group_id) :: count_meta user_ids).

(** *** The previews

    For each account, why it is skipped: the name shown and the reason. *)
Definition verdict := option (string * string).
Record preview := mk_preview {
  pv_eligible_ids : list string;
  pv_skipped : list (string * (string * string));
}.
Definition preview_of (l : list (string * verdict)) : preview :=
  mk_preview (omap (λ x : string * verdict, match x.2 with None => Some x.1 | Some _ => None end) l)
             (omap (λ x : string * verdict, v ← x.2; Some (x.1, v)) l).
Definition each_verdict (check : uuid → string → user_row → mail → verdict) (xs : list string) :
    M mail (list (string * verdict)) :=
  for_map (λ x,
    u ← parse_id x;
    s ← gets id;
    mret (x, match get_user_row s u with
             | None => Some ("Unknown", "User not found")
             | Some user => check u x user s
             end)) xs.

Definition inactivate_verdict (admin_id : uuid) (u : uuid) (x : string) (user : user_row) (s : mail) : verdict :=
  let skip reason := Some (full_name user, reason) in
  if decide (x = uuid_text admin_id) then skip "Cannot deactivate yourself"
  else if ur_is_inactivated user then skip "Already deactivated"
  else if is_service_user (ma_tenant s) u then skip "Service user"
  else if bool_decide (ur_role user = super_admin) &&
          bool_decide (count_active_super_admins (ma_tenant s) <= 1)%nat
  then skip "Last super admin"
  else None.
Definition reactivate_verdict (u : uuid) (x : string) (user : user_row) (s : mail) : verdict :=
  if ur_is_anonymized user then Some (full_name user, "Anonymized user")
  else if negb (ur_is_inactivated user) then Some (full_name user, "Not deactivated")
  else None.
Definition assign_verdict (g u : uuid) (x : string) (user : user_row) (s : mail) : verdict :=
  if is_group_member (ma_dir s) g u then Some (full_name user, "Already a member") else None.

Definition preview_bulk_inactivate t u (user_ids : list string) : M queue preview :=
  _ ← admin_call t u;
  l ← on_tenant t (each_verdict (inactivate_verdict (ru_id u)) user_ids);
  mret (preview_of l).
Definition preview_bulk_reactivate t u (user_ids : list string) : M queue preview :=
  _ ← admin_call t u;
  l ← on_tenant t (each_verdict reactivate_verdict user_ids);
  mret (preview_of l).
Definition preview_bulk_group_assignment t u (group_id : string) (user_ids : list string) :
    M queue (preview * string) :=
  _ ← admin_call t u;
  on_tenant t (
    g ← parse_id group_id;
    found ← gets (λ s, get_group_by_id (ma_dir s) g);
    match found with
    | None => raise (ServiceError NotFoundError "group_not_found")
    | Some group =>
        if decide (g_group_type (gd_row group) = idp) then raise (ServiceError ValidationError "idp_group_read_only")
        else l ← each_verdict (assign_verdict g) user_ids; mret (preview_of l, gd_name group)
    end).

(** *** A user's own jobs *)

Definition active (r : task_row) : bool :=
  match ta_status r with PENDING | PROCESSING => true | _ => false end.
(** [JobListItem]: what the pages derive from a row. *)
Definition result_has (k : string) (r : task_row) : bool :=
  match ta_result r with Some (kv :: d) => truthy (get k (kv :: d)) | _ => false end.
Definition has_output (r : task_row) : bool := result_has "output" r.
Definition has_download (r : task_row) : bool := result_has "file_id" r.
Definition download_expired (now : Z) (r : task_row) : bool :=
  has_download r && (days 1 <? now - ta_created_at r).

Definition list_user_jobs t u : M queue (list (uuid * task_row) * bool) :=
  _ ← q_track t (ru_id u);
  jobs ← gets (λ q, list_tasks_for_user q t (ru_id u) 50);
  mret (jobs, existsb (λ kv, active kv.2) jobs).
Definition get_job_detail t u (job_id : string) : M queue (uuid * task_row) :=
  _ ← q_track t (ru_id u);
  found ← get_task_for_user t (ru_id u) job_id;
  some_or found (ServiceError NotFoundError "job_not_found").
Definition delete_jobs t u (job_ids : list string) : M queue nat :=
  _ ← q_track t (ru_id u);
  count ← delete_tasks t (ru_id u) job_ids;
  _ ← match count, job_ids with
      | S _, x :: _ =>
          i ← task_uuid x;
          q_log t (Some (ru_id u)) "bg_task" i "jobs_deleted" [("count", MNat count); ("job_ids", MStrs job_ids)]
      | _, _ => mret ()
      end;
  mret count.
End services.

(** ** jobs/registry.py and worker.py *)

Definition handler := uuid * task_row → M queue (option dict).
Definition registry := gmap string handler.
Definition register_handler (job_type : string) (f : handler) (r : registry) : registry := <[job_type := f]> r.
Definition get_handler (r : registry) (job_type : string) : option handler := r !! job_type.

(** [str(e)]. *)
Class ExnText := exn_text : exn → string.

(** [try: m except Exception as e: h(e)]; a statement that never returns is
    not an exception. *)
Definition try_catch {S A} (m : M S A) (h : exn → M S A) : M S A := λ s,
  match m s with
  | (Raise StatementDiverges, s') => (Raise StatementDiverges, s')
  | (Raise e, s') => h e s'
  | r => r
  end.

Record periodic_job := mk_periodic {
  pj_name : string;
  pj_func : M queue ();
  pj_interval : Z;
  pj_last_run : option Z;
}.
Definition due (now : Z) (j : periodic_job) : bool :=
  match pj_last_run j with None => true | Some t => pj_interval j <=? now - t end.
Definition ran (now : Z) (j : periodic_job) : periodic_job :=
  mk_periodic (pj_name j) (pj_func j) (pj_interval j) (Some now).

Section worker.
Context `{ExnText}.

Definition _run_job (j : periodic_job) : M queue () := try_catch (pj_func j) (λ _, mret ()).
(** [last_run] is set before the job runs, whatever becomes of it. *)
Fixpoint check_periodic_jobs (now : Z) (js : list periodic_job) : M queue (list periodic_job) :=
  match js with
  | [] => mret []
  | j :: js =>
      j' ← (if due now j then _ ← _run_job (ran now j); mret (ran now j) else mret j);
      js' ← check_periodic_jobs now js;
      mret (j' :: js')
  end.
Definition _check_periodic_jobs (js : list periodic_job) : M queue (list periodic_job) :=
  now ← gets q_clock; check_periodic_jobs now js.

Definition _process_task (reg : registry) (task : uuid * task_row) : M queue () :=
  match get_handler reg (ta_job_type task.2) with
  | None => fail_task task.1 ("Unknown job type: " +:+ ta_job_type task.2)
  | Some handle =>
      try_catch (result ← handle task; complete_task task.1 result)
                (λ e, fail_task task.1 (exn_text e))
  end.

(** [time.sleep]. *)
Definition wait (poll_interval : Z) : M queue () := modify (set_q_clock (λ t, t + poll_interval * 1000000)).

(** The body of the loop; the jobs' [last_run] outlives an exception. *)
Definition turn (reg : registry) (poll_interval : Z) (locked : gset uuid) : M queue () :=
  task ← claim_next_task locked;
  match task with
  | Some task => _process_task reg task
  | None => wait poll_interval
  end.
Definition worker_pass (reg : registry) (poll_interval : Z) (locked : gset uuid) (js : list periodic_job) :
    M queue (list periodic_job) :=
  js ← _check_periodic_jobs js;
  _ ← try_catch (turn reg poll_interval locked) (λ _, wait poll_interval);
  mret js.
(** [while self.running]: the passes before [stop]; [locked] is what other
    workers hold at each. *)
Fixpoint worker_run (reg : registry) (poll_interval : Z) (locked : list (gset uuid)) (js : list periodic_job) :
    M queue (list periodic_job) :=
  match locked with
  | [] => mret js
  | l :: locked => js ← worker_pass reg poll_interval l js; worker_run reg poll_interval locked js
  end.
End worker.

(** [Worker.__init__] with its default intervals: the name of each job, which
    [load] finds, and how often it runs. *)
Definition hours (n : Z) : Z := n * 3600 * 1000000.
Definition worker_jobs (load : string → M queue ()) : list periodic_job :=
  (λ x : string * Z, mk_periodic x.1 (load x.1) x.2 None) <$>
  [("cleanup", hours 1); ("inactivation", hours 24); ("SAML metadata refresh", hours 24);
   ("certificate rotation", hours 24); ("HIBP breach check", hours 168); ("SAML debug cleanup", hours 1);
   ("verbose event PII redaction", hours 1); ("outbound SCIM push queue", 60 * 1000000);
   ("SCIM sync-log retention cleanup", hours 24); ("OIDC signing-key cleanup", hours 1);
   ("forward-auth nonce cleanup", hours 1); ("OIDC back-channel logout delivery", 10 * 1000000);
   ("OIDC back-channel logout cleanup", hours 24)].

(** ** What the worker registers

    The payload as the handlers read it, the report they return. *)

Section handlers.
Context `{MailIds} `{Nonces} `{UuidText} `{UuidParse} (issuer : string).

Definition key_error {A} (k : string) : outcome A := Raise (PythonError ("KeyError: " +:+ k)).
(** [d[k]]. *)
Definition item (k : string) (d : dict) : outcome json :=
  match dict_lookup k d with Some v => Ok v | None => key_error k end.
(** [task["payload"][k]]. *)
Definition payload_item (k : string) (task : task_row) : outcome json :=
  match ta_payload task with Some d => item k d | None => type_error end.
Definition text_of_json (x : json) : outcome string := match x with JStr s => Ok s | _ => type_error end.
Fixpoint each_ok {A B} (f : A → outcome B) (l : list A) : outcome (list B) :=
  match l with [] => Ok [] | x :: l => y ← f x; ys ← each_ok f l; Ok (y :: ys) end.
(** What the services enqueue under these keys is a list. *)
Definition list_of_json (x : json) : outcome (list json) := match x with JList l => Ok l | _ => type_error end.
Definition texts_of (x : json) : outcome (list string) := l ← list_of_json x; each_ok text_of_json l.

Definition status_name (done : string) (st : job_status) : string :=
  match st with job_done => done | job_skipped => "skipped" | job_error => "error" end.
Definition job_detail_json (done : string) (d : job_detail) : json :=
  JDict [("user_id", JStr (jd_user d)); ("name", JStr (jd_name d));
         ("status", JStr (status_name done (jd_status d))); ("reason", JStr (jd_reason d))].
Definition counts (done : string) (n k e : nat) : string :=
  pretty n +:+ " " +:+ done +:+ ", " +:+ pretty k +:+ " skipped, " +:+ pretty e +:+ " errors".
Definition totals (done : string) (n k e : nat) (output : string) (details : list json) : dict :=
  [("output", JStr output); (done, JInt (Z.of_nat n)); ("skipped", JInt (Z.of_nat k));
   ("errors", JInt (Z.of_nat e)); ("details", JList details)].
Definition job_report (done : string) (ds : list job_detail) : dict :=
  let n := count_status job_done ds in
  let k := count_status job_skipped ds in
  let e := count_status job_error ds in
  totals done n k e (counts done n k e) (job_detail_json done <$> ds).

Definition bulk_inactivate_handler : handler := λ task, let '(_, r) := task in
  us ← lift (x ← payload_item "user_ids" r; texts_of x);
  ds ← on_tenant (ta_tenant r) (handle_bulk_inactivate_users issuer (ta_created_by r) us);
  mret (Some (job_report "inactivated" ds)).
Definition bulk_reactivate_handler : handler := λ task, let '(_, r) := task in
  us ← lift (x ← payload_item "user_ids" r; texts_of x);
  ds ← on_tenant (ta_tenant r) (handle_bulk_reactivate_users (ta_created_by r) us);
  mret (Some (job_report "reactivated" ds)).
(** The message for a missing or a provider's group replaces the counts. *)
Definition group_output (g : option group_detail) (ds : list job_detail) : string :=
  match g with
  | None => "Group not found"
  | Some g =>
      if decide (g_group_type (gd_row g) = idp) then "IdP groups cannot be modified manually"
      else counts "added" (count_status job_done ds) (count_status job_skipped ds) (count_status job_error ds)
  end.
Definition bulk_group_handler : handler := λ task, let '(_, r) := task in
  gx ← lift (x ← payload_item "group_id" r; text_of_json x);
  us ← lift (x ← payload_item "user_ids" r; texts_of x);
  out ← on_tenant (ta_tenant r) (
    g ← parse_id gx;
    group ← gets (λ s, get_group_by_id (ma_dir s) g);
    ds ← handle_bulk_group_assignment (ta_created_by r) gx us;
    mret (group_output group ds, ds));
  mret (Some (totals "added" (count_status job_done out.2) (count_status job_skipped out.2)
    (count_status job_error out.2) out.1 (job_detail_json "added" <$> out.2))).

(** [item["user_id"]], [item["email"].strip().lower()]: outside of the item's
    [try]. *)
Definition dict_of_json (x : json) : outcome dict := match x with JDict d => Ok d | _ => type_error end.
Definition user_and_address (k : string) (x : json) : outcome (string * string) :=
  d ← dict_of_json x;
  u ← item "user_id" d; u ← text_of_json u;
  e ← item k d;
  match e with JStr e => Ok (u, e) | _ => attribute_error end.
Definition email_detail (done reason : string) (u email : string) (st : item_status) : json :=
  let '(status, reason) := match st with
    | added | promoted _ => (done, reason)
    | skipped_item => ("skipped", "Email already exists in tenant")
    | item_error e => ("error", e)
    end in
  JDict [("user_id", JStr u); ("email", JStr (lower_string (py_strip email))); ("status", JStr status);
         ("reason", JStr reason)].
Definition item_done (st : item_status) : bool := match st with added | promoted _ => true | _ => false end.
Definition item_skipped (st : item_status) : bool := match st with skipped_item => true | _ => false end.
Definition item_failed (st : item_status) : bool := match st with item_error _ => true | _ => false end.
Definition count_items (P : item_status → bool) (l : list (item_status * json)) : nat :=
  length (filter (λ x, P x.1 = true) l).
Definition email_report (done : string) (l : list (item_status * json)) : dict :=
  let n := count_items item_done l in
  let k := count_items item_skipped l in
  let e := count_items item_failed l in
  totals done n k e (counts done n k e) l.*2.
Definition bulk_add_emails_handler : handler := λ task, let '(_, r) := task in
  items ← lift (x ← payload_item "items" r; list_of_json x);
  l ← on_tenant (ta_tenant r) (for_map (λ it,
    ue ← lift (user_and_address "email" it);
    st ← each_item (add_secondary_item (ta_created_by r)) ue;
    mret (st, email_detail "added" "Added as verified secondary email" ue.1 ue.2 st)) items);
  mret (Some (email_report "added" l)).
(** [item.get("idp_disposition", "keep")]. *)
Definition disposition_of (x : json) : disposition :=
  match x with
  | JDict d => match dict_lookup "idp_disposition" d with
               | Some (JStr "switch") => switch
               | Some (JStr "remove") => remove
               | _ => keep
               end
  | _ => keep
  end.
Definition promoted_reason (st : item_status) : string :=
  match st with promoted old => "Primary email changed from " +:+ old | _ => "" end.
Definition bulk_primary_apply_handler : handler := λ task, let '(_, r) := task in
  items ← lift (x ← payload_item "items" r; list_of_json x);
  l ← on_tenant (ta_tenant r) (for_map (λ it,
    ue ← lift (user_and_address "new_primary_email" it);
    st ← each_item (promote_item (ta_created_by r)) (ue.1, ue.2, disposition_of it);
    mret (st, email_detail "promoted" (promoted_reason st) ue.1 ue.2 st)) items);
  mret (Some (email_report "promoted" l)).

(** main: the imports, in order.  The preview, which only reads, and the
    exports, which write to object storage, are not modelled. *)
Context (preview_emails export_events export_users : handler).
Definition main_registry : registry :=
  register_handler "export_users" export_users (
  register_handler "export_events" export_events (
  register_handler "bulk_reactivate_users" bulk_reactivate_handler (
  register_handler "bulk_inactivate_users" bulk_inactivate_handler (
  register_handler "bulk_group_assignment" bulk_group_handler (
  register_handler "bulk_primary_email_apply" bulk_primary_apply_handler (
  register_handler "bulk_primary_email_preview" preview_emails (
  register_handler "bulk_add_secondary_emails" bulk_add_emails_handler ∅))))))).
End handlers.
