(* ===== verification/JobHistory.v ===== *)
(** * Histories of the job queue

    Requests, any number of workers that claim, settle or die in the middle of
    a task, redactions, and whatever else changes the tenants' tables, in any
    order.  Rows move forward only; no task is started twice; what a worker
    left behind stays as it is. *)

From stdpp Require Import gmap strings pretty.
From S2P Require Import Prelude GroupDb GroupService OAuthDb UserLifecycle MailDb MailService Jobs Json JobQueue.
#[local] Open Scope Z_scope.

(** ** What the calls leave alone *)

Definition same_tasks (T : gmap uuid task_row) (n : nat) (now : Z) (q : queue) : Prop :=
  q_tasks q = T ∧ q_draws q = n ∧ q_clock q = now.

Lemma same_on_tenant {A} t (m : M mail A) T n now : keeps (same_tasks T n now) (on_tenant t m).
Proof.
  intros q Hq. unfold on_tenant. destruct (q_tenants q !! t) as [x|]; [|done]. by destruct (m x).
Qed.
#[export] Hint Resolve same_on_tenant : keeps.
Lemma same_tasks_refl q : same_tasks (q_tasks q) (q_draws q) (q_clock q) q.
Proof. done. Qed.

Section requests.
Context `{TaskIds} `{UuidParse} `{UuidText} (isoformat : Z → string).

Inductive request :=
  | CreateExport (t : uuid) (u : requesting_user) (start_date end_date : option Z)
  | CreateUserExport (t : uuid) (u : requesting_user)
  | CreateAddEmails (t : uuid) (u : requesting_user) (items : list json)
  | CreatePrimaryPreview (t : uuid) (u : requesting_user) (items : list json)
  | CreatePrimaryApply (t : uuid) (u : requesting_user) (items : list json) (preview_job_id : string)
  | CreateInactivate (t : uuid) (u : requesting_user) (user_ids : list string)
  | CreateReactivate (t : uuid) (u : requesting_user) (user_ids : list string)
  | CreateAssign (t : uuid) (u : requesting_user) (group_id : string) (user_ids : list string)
  | PreviewInactivate (t : uuid) (u : requesting_user) (user_ids : list string)
  | PreviewReactivate (t : uuid) (u : requesting_user) (user_ids : list string)
  | PreviewAssign (t : uuid) (u : requesting_user) (group_id : string) (user_ids : list string)
  | ListJobs (t : uuid) (u : requesting_user)
  | JobDetails (t : uuid) (u : requesting_user) (job_id : string)
  | DeleteJobs (t : uuid) (u : requesting_user) (job_ids : list string).

Definition ignore {A} (m : M queue A) : M queue () := _ ← m; mret ().
Definition run_request (c : request) : M queue () :=
  match c with
  | CreateExport t u a b => ignore (create_export_task isoformat t u a b)
  | CreateUserExport t u => ignore (create_user_export_task t u)
  | CreateAddEmails t u l => ignore (create_bulk_add_emails_task t u l)
  | CreatePrimaryPreview t u l => ignore (create_bulk_primary_email_preview_task t u l)
  | CreatePrimaryApply t u l i => ignore (create_bulk_primary_email_apply_task t u l i)
  | CreateInactivate t u l => ignore (create_bulk_inactivate_task t u l)
  | CreateReactivate t u l => ignore (create_bulk_reactivate_task t u l)
  | CreateAssign t u g l => ignore (create_bulk_group_assignment_task t u g l)
  | PreviewInactivate t u l => ignore (preview_bulk_inactivate t u l)
  | PreviewReactivate t u l => ignore (preview_bulk_reactivate t u l)
  | PreviewAssign t u g l => ignore (preview_bulk_group_assignment t u g l)
  | ListJobs t u => ignore (list_user_jobs t u)
  | JobDetails t u i => ignore (get_job_detail t u i)
  | DeleteJobs t u l => ignore (delete_jobs t u l)
  end.

(** What a request does to the table: nothing, a new pending row under an id
    just drawn, or the removal of finished rows of the user. *)
Inductive table_change (q q' : queue) : Prop :=
  | change_none : q_tasks q' = q_tasks q → (q_draws q <= q_draws q')%nat → q_clock q' = q_clock q → table_change q q'
  | change_new r : q_tasks q' = <[task_id (q_draws q) := r]> (q_tasks q) → q_draws q' = S (q_draws q) →
      q_tasks q !! task_id (q_draws q) = None → q_clock q' = q_clock q →
      (∃ t jt p u, r = mk_task t jt p PENDING None u (q_clock q) None None None) → table_change q q'
  | change_deleted t u l : q_tasks q' = filter (λ kv, ¬ deleted_by t u l kv) (q_tasks q) →
      q_draws q' = q_draws q → q_clock q' = q_clock q → table_change q q'.

Lemma change_refl q : table_change q q.
Proof. by apply change_none. Qed.
(** A call that leaves the table alone before, and one after. *)
Lemma change_after {A B} (m : M queue A) (f : A → M queue B) q :
  keeps (same_tasks (q_tasks q) (q_draws q) (q_clock q)) m →
  (∀ a q1, same_tasks (q_tasks q) (q_draws q) (q_clock q) q1 → table_change q1 (f a q1).2) →
  table_change q ((m ≫= f) q).2.
Proof.
  intros Hm Hf. rewrite run_bind. specialize (Hm q (same_tasks_refl q)).
  destruct (m q) as [[a|e] q1]; simpl in *; destruct Hm as (Hq1 & H2 & H3).
  - specialize (Hf a q1 (conj Hq1 (conj H2 H3))). destruct Hf as [G1 G2 G3|r G1 G2 G3 G4 G5|t u l G1 G2 G3].
    + apply change_none; congruence || lia.
    + eapply (change_new _ _ r); try congruence. by rewrite <- H3.
    + eapply (change_deleted _ _ t u l); congruence.
  - apply change_none; [done|lia|done].
Qed.
Lemma change_before {A B} (m : M queue A) (f : A → M queue B) q :
  table_change q (m q).2 →
  (∀ a T n now, keeps (same_tasks T n now) (f a)) → table_change q ((m ≫= f) q).2.
Proof.
  intros Hm Hf. rewrite run_bind. destruct (m q) as [[a|e] q1]; simpl in *; [|done].
  destruct (Hf a _ _ _ q1 (same_tasks_refl q1)) as (G1 & G2 & G3).
  destruct Hm as [F1 F2 F3|r F1 F2 F3 F4 F5|t u l F1 F2 F3].
  - apply change_none; congruence || lia.
  - eapply (change_new _ _ r); congruence || done.
  - eapply (change_deleted _ _ t u l); congruence.
Qed.
Lemma change_same {A} (m : M queue A) q :
  (∀ T n now, keeps (same_tasks T n now) m) → table_change q (m q).2.
Proof. intros Hm. destruct (Hm _ _ _ q (same_tasks_refl q)) as (? & ? & ?). apply change_none; [done|lia|done]. Qed.

Lemma same_json_column d T n now : keeps (same_tasks T n now) (json_column d).
Proof. unfold json_column. keeps_auto. Qed.
Lemma same_admin_call t u T n now : keeps (same_tasks T n now) (admin_call t u).
Proof. unfold admin_call, q_track. keeps_auto. Qed.
Lemma same_require_some {A} (l : list A) code T n now : keeps (same_tasks T n now) (require_some l code).
Proof. unfold require_some, refuse. keeps_auto. Qed.
#[local] Hint Resolve same_json_column same_admin_call same_require_some : keeps.

Lemma create_task_change t jt u p q : table_change q (create_task t jt u p q).2.
Proof.
  unfold create_task. apply change_after; [apply same_json_column|]. intros payload q1 _; clear q; rename q1 into q.
  run. destruct (bool_decide (100 < _)%Z); [apply change_refl|]. simpl.
  set (q1 := set_q_draws S q). assert (table_change q q1) as Hq1 by (apply change_none; simpl; [done|lia|done]).
  destruct (q_tasks q !! task_id (q_draws q)) eqn:Hi; simpl; [exact Hq1|].
  destruct (bool_decide (q_tenants q !! t = None)); simpl; [exact Hq1|].
  eapply change_new; [reflexivity|done|done|done|]. by eexists _, _, _, _.
Qed.
Lemma create_logged_change t u jt ev p md q : table_change q (create_logged t u jt ev p md q).2.
Proof.
  unfold create_logged. apply change_before; [apply create_task_change|].
  intros row T n now. unfold q_log. keeps_auto.
Qed.
Lemma delete_jobs_change t u l q : table_change q (delete_jobs t u l q).2.
Proof.
  unfold delete_jobs. apply change_after; [unfold q_track; auto with keeps|]. intros _ q1 _; clear q; rename q1 into q.
  apply change_before; [|intros; unfold q_log, task_uuid; keeps_auto].
  unfold delete_tasks. destruct l as [|x l]; [apply change_refl|].
  apply change_after; [apply keeps_for_map; intros; apply keeps_some_or|]. intros ids q1 _; clear q; rename q1 into q.
  by eapply change_deleted.
Qed.
Lemma request_change c q : table_change q (run_request c q).2.
Proof.
  destruct c; unfold run_request, ignore; (apply change_before; [|intros; apply keeps_ret]).
  all: try apply delete_jobs_change.
  all: try (apply change_same; intros; unfold preview_bulk_inactivate, preview_bulk_reactivate,
    preview_bulk_group_assignment, list_user_jobs, get_job_detail, get_task_for_user, task_uuid, q_track;
    by keeps_auto).
  all: repeat (apply change_after; [unfold refuse; by keeps_auto|intros ?? _]); apply create_logged_change.
Qed.
End requests.

(** ** A fleet of workers

    [fl_holds]: the task each worker has in hand; [fl_started]: the ids that
    were claimed, the latest first. *)

Record fleet := mk_fleet {
  fl_queue : queue;
  fl_holds : gmap positive (uuid * task_row);
  fl_started : list uuid;
}.
Definition with_queue (q : queue) (f : fleet) : fleet := mk_fleet q (fl_holds f) (fl_started f).
Definition release (w : positive) (q : queue) (f : fleet) : fleet := mk_fleet q (delete w (fl_holds f)) (fl_started f).

Inductive fleet_op :=
  | Request (c : request)
  | Claim (w : positive) (locked : gset uuid)
  | Settle (w : positive) (res : outcome (option dict))   (* the handler of its task has ended *)
  | NoHandler (w : positive)
  | Die (w : positive)
  | Redact (i : uuid)
  | Elsewhere (f : gmap uuid mail → gmap uuid mail) (dt : Z).   (* handlers at work, other services, time *)

Section fleet.
Context `{TaskIds} `{!TaskIdsLaws} `{UuidParse} `{UuidText} `{ExnText} (isoformat : Z → string).

Definition diverges {A} (r : outcome A) : bool := match r with Raise StatementDiverges => true | _ => false end.

(** What [_process_task] does once the handler has ended. *)
Definition settle (i : uuid) (res : outcome (option dict)) : M queue () :=
  try_catch (result ← lift res; complete_task i result) (λ e, fail_task i (exn_text e)).

Lemma process_task_settles reg task h q :
  get_handler reg (ta_job_type task.2) = Some h →
  _process_task reg task q = settle task.1 (h task q).1 (h task q).2.
Proof.
  intros Hh. unfold _process_task, settle, try_catch. rewrite Hh, run_bind, run_lift_bind.
  by destruct (h task q) as [[]].
Qed.

Definition fleet_step (f : fleet) (op : fleet_op) : fleet :=
  let q := fl_queue f in
  match op with
  | Request c => with_queue (run_request isoformat c q).2 f
  | Claim w locked =>
      match fl_holds f !! w with
      | Some _ => f
      | None =>
          match claim_next_task locked q with
          | (Ok (Some task), q') => mk_fleet q' (<[w := task]> (fl_holds f)) (task.1 :: fl_started f)
          | (_, q') => with_queue q' f
          end
      end
  | Settle w res =>
      match fl_holds f !! w with
      | Some task => if diverges res then f else release w (settle task.1 res q).2 f
      | None => f
      end
  | NoHandler w =>
      match fl_holds f !! w with
      | Some task => release w (fail_task task.1 ("Unknown job type: " +:+ ta_job_type task.2) q).2 f
      | None => f
      end
  | Die w => release w q f
  | Redact i => with_queue (redact_result_password i q).2 f
  | Elsewhere g dt => with_queue (set_q_clock (λ t, t + Z.max 0 dt) (set_q_tenants g q)) f
  end.
Definition fleet_run (ops : list fleet_op) (f : fleet) : fleet := fold_left fleet_step ops f.

(** A row as its status says. *)
Definition row_ok (now : Z) (r : task_row) : Prop :=
  ta_created_at r <= now ∧
  match ta_status r with
  | PENDING => ta_started_at r = None ∧ ta_completed_at r = None ∧ ta_result r = None ∧ ta_error r = None
  | PROCESSING =>
      (∃ a, ta_started_at r = Some a ∧ ta_created_at r <= a <= now) ∧
      ta_completed_at r = None ∧ ta_result r = None ∧ ta_error r = None
  | COMPLETED =>
      (∃ a b, ta_started_at r = Some a ∧ ta_completed_at r = Some b ∧ ta_created_at r <= a <= b ∧ b <= now) ∧
      ta_error r = None
  | FAILED =>
      (∃ a b, ta_started_at r = Some a ∧ ta_completed_at r = Some b ∧ ta_created_at r <= a <= b ∧ b <= now) ∧
      ta_result r = None ∧ ∃ e, ta_error r = Some e ∧ py_len e <= 10000
  end.

Definition issued (n : nat) (i : uuid) : Prop := ∃ k, (k < n)%nat ∧ i = task_id k.

Record fleet_ok (f : fleet) : Prop := {
  fo_issued : ∀ i, is_Some (q_tasks (fl_queue f) !! i) → issued (q_draws (fl_queue f)) i;
  fo_started_issued : ∀ i, i ∈ fl_started f → issued (q_draws (fl_queue f)) i;
  fo_started : ∀ i r, i ∈ fl_started f → q_tasks (fl_queue f) !! i = Some r → ta_status r ≠ PENDING;
  fo_nodup : NoDup (fl_started f);
  fo_held : ∀ w task, fl_holds f !! w = Some task →
    task.1 ∈ fl_started f ∧ ∃ r, q_tasks (fl_queue f) !! task.1 = Some r ∧ ta_status r = PROCESSING;
  fo_apart : ∀ v w x y, fl_holds f !! v = Some x → fl_holds f !! w = Some y → x.1 = y.1 → v = w;
  fo_rows : ∀ i r, q_tasks (fl_queue f) !! i = Some r → row_ok (q_clock (fl_queue f)) r;
}.

Lemma issued_le n m i : (n <= m)%nat → issued n i → issued m i.
Proof. intros Hn (k & Hk & ->). exists k. split; [lia|done]. Qed.
Lemma issued_not_next n : ¬ issued n (task_id n).
Proof. intros (k & Hk & E). apply task_id_inj in E. lia. Qed.

Lemma row_ok_later now now' r : now <= now' → row_ok now r → row_ok now' r.
Proof.
  unfold row_ok. intros Hn [Hc Hr]. split; [lia|]. destruct (ta_status r); [done|..].
  - destruct Hr as [(a & Ha & ?) Hr]. split; [|done]. exists a. split; [done|lia].
  - destruct Hr as [(a & b & Ha & Hb & ?) Hr]. split; [|done]. exists a, b. split_and!; [done|done|lia..].
  - destruct Hr as [(a & b & Ha & Hb & ?) Hr]. split; [|done]. exists a, b. split_and!; [done|done|lia..].
Qed.
Lemma row_ok_started now r : row_ok now r → ta_status r = PENDING → row_ok now (start_task now r).
Proof.
  intros [Hc Hr] Hs. rewrite Hs in Hr. destruct Hr as (H1' & H2' & H3' & H4').
  split; [done|]. simpl. split_and!; [|done..]. exists now. split; [done|lia].
Qed.
Lemma row_ok_completed now d r : row_ok now r → ta_status r = PROCESSING → row_ok now (completed_row now d r).
Proof.
  intros [Hc Hr] Hs. rewrite Hs in Hr. destruct Hr as ((a & Ha & ?) & _ & _ & He).
  split; [done|]. simpl. split; [|done]. exists a, now. split_and!; [done|done|lia..].
Qed.
Lemma row_ok_failed now e r : row_ok now r → ta_status r = PROCESSING → py_len e <= 10000 →
  row_ok now (failed_row now e r).
Proof.
  intros [Hc Hr] Hs He. rewrite Hs in Hr. destruct Hr as ((a & Ha & ?) & _ & Hres & _).
  split; [done|]. simpl. split_and!; [|done|by exists e]. exists a, now. split_and!; [done|done|lia..].
Qed.
Lemma row_ok_redacted now r : row_ok now r → row_ok now (without_password r).
Proof.
  unfold without_password. intros Hr. destruct (ta_result r) as [d|] eqn:Hd; [|done].
  case_match; [|done]. destruct Hr as [Hc Hr]. split; [done|]. simpl.
  destruct (ta_status r); [naive_solver..| |naive_solver]. done.
Qed.

Lemma fleet_ok_request c f : fleet_ok f → fleet_ok (with_queue (run_request isoformat c (fl_queue f)).2 f).
Proof.
  intros [I1 I2 I3 I4 I5 I6 I7].
  destruct (request_change isoformat c (fl_queue f)) as [E1 E2 E3|r E1 E2 E3 E4 (t & jt & p & u & ->)|t u l E1 E2 E3];
    destruct (run_request isoformat c (fl_queue f)) as [res q]; cbn [snd] in *; split; simpl; try done.
  - intros i Hi. rewrite E1 in Hi. eapply issued_le; [exact E2|by apply I1].
  - intros i Hi. eapply issued_le; [exact E2|by apply I2].
  - intros i r. rewrite E1. apply I3.
  - intros w task Hw. rewrite E1. by apply (I5 w).
  - intros i r. rewrite E1, E3. apply I7.
  - intros i Hi. rewrite E1 in Hi. rewrite E2. apply lookup_insert_is_Some in Hi as [<-|[_ Hi]].
    + exists (q_draws (fl_queue f)). split; [lia|done].
    + eapply issued_le; [|by apply I1]. lia.
  - intros i Hi. rewrite E2. eapply issued_le; [|by apply I2]. lia.
  - intros i r Hi. rewrite E1. intros [[<- _]|[_ Hr]]%lookup_insert_Some; [|by eapply I3].
    exfalso. by eapply issued_not_next, I2.
  - intros w task Hw. destruct (I5 w task Hw) as (Hin & r & Hr & Hs). split; [done|].
    exists r. split; [|done]. rewrite E1, lookup_insert_ne; [done|]. intros E. rewrite E in E3. congruence.
  - intros i r. rewrite E1, E4. intros [[<- <-]|[_ Hr]]%lookup_insert_Some; [|by eapply I7].
    split; simpl; [lia|done].
  - intros i [r Hr]. rewrite E1 in Hr. apply map_lookup_filter_Some in Hr as [Hr _]. rewrite E2. apply I1. eauto.
  - intros i Hi. rewrite E2. by apply I2.
  - intros i r Hi. rewrite E1. intros [Hr _]%map_lookup_filter_Some. by eapply I3.
  - intros w task Hw. destruct (I5 w task Hw) as (Hin & r & Hr & Hs). split; [done|]. exists r. split; [|done].
    rewrite E1. apply map_lookup_filter_Some. split; [done|]. intros (_ & _ & Hd). simpl in Hd.
    unfold deletable in Hd. by rewrite Hs in Hd.
  - intros i r. rewrite E1, E3. intros [Hr _]%map_lookup_filter_Some. by eapply I7.
Qed.

(** The candidate of a claim: a pending row that is not locked, none older. *)
Lemma claimable_head locked q i r : head (claimable locked q) = Some (i, r) →
  q_tasks q !! i = Some r ∧ ta_status r = PENDING ∧ i ∉ locked ∧
  ∀ j x, q_tasks q !! j = Some x → ta_status x = PENDING → j ∉ locked → ta_created_at r <= ta_created_at x.
Proof.
  intros Hh. unfold claimable in Hh.
  set (l := filter _ _) in Hh. pose proof (merge_sort_Permutation oldest_first l) as Hp.
  assert (Sorted oldest_first (merge_sort oldest_first l)) as Hs.
  { apply Sorted_merge_sort. intros [? x] [? y]. unfold oldest_first. simpl. lia. }
  destruct (merge_sort oldest_first l) as [|kv l'] eqn:E; [done|]. injection Hh as ->.
  assert (∀ kv, kv ∈ l ↔ kv ∈ (i, r) :: l') as Hin by (intros; by rewrite Hp).
  assert ((i, r) ∈ l) as Hi by (apply Hin; left).
  unfold l in Hi. apply list_elem_of_filter in Hi as [[H1' H2'] H3']. apply elem_of_map_to_list in H3'.
  split_and!; try done. intros j x Hj Hx Hl.
  assert ((j, x) ∈ (i, r) :: l') as Hjl.
  { apply Hin, list_elem_of_filter. split; [done|]. by apply elem_of_map_to_list. }
  apply elem_of_cons in Hjl as [[= -> ->]|Hjl]; [lia|].
  apply Sorted_StronglySorted in Hs; [|intros [? x1] [? x2] [? x3]; unfold oldest_first; simpl; lia].
  apply StronglySorted_inv in Hs as [_ Hall]. rewrite Forall_forall in Hall. exact (Hall _ Hjl).
Qed.

Lemma fleet_ok_claim w locked f : fleet_ok f → fleet_ok (fleet_step f (Claim w locked)).
Proof.
  intros Hok. simpl. destruct (fl_holds f !! w) eqn:Hw; [done|]. unfold claim_next_task, update.
  destruct (head (claimable locked (fl_queue f))) as [[i r]|] eqn:Hh; [|by destruct Hok].
  destruct (claimable_head _ _ _ _ Hh) as (Hi & Hs & _ & _). destruct Hok as [I1 I2 I3 I4 I5 I6 I7].
  assert (i ∉ fl_started f) as Hnew by (intros Hin; by eapply I3).
  split; simpl.
  - intros j [<-|[_ Hj]]%lookup_insert_is_Some; [by apply I1; eexists|by apply I1].
  - intros j [->|Hj]%elem_of_cons; [by apply I1; eexists|by apply I2].
  - intros j x Hj [[<- <-]|[Hn Hx]]%lookup_insert_Some; [done|].
    apply elem_of_cons in Hj as [->|Hj]; [done|]. by eapply I3.
  - by apply NoDup_cons.
  - intros v task [[<- <-]|[Hn Hv]]%lookup_insert_Some; simpl.
    + split; [left|]. exists (start_task (q_clock (fl_queue f)) r). by rewrite lookup_insert_eq.
    + destruct (I5 v task Hv) as (Hin & x & Hx & Hp). split; [by right|]. exists x. split; [|done].
      rewrite lookup_insert_ne; [done|]. intros ->. done.
  - intros v v' x y [[<- <-]|[Hn Hv]]%lookup_insert_Some [[<- <-]|[Hn' Hv']]%lookup_insert_Some E; try done.
    + simpl in E. destruct (I5 _ _ Hv') as [Hin _]. by rewrite <- E in Hin.
    + simpl in E. destruct (I5 _ _ Hv) as [Hin _]. by rewrite E in Hin.
    + by apply (I6 v v' x y).
  - intros j x [[<- <-]|[Hn Hx]]%lookup_insert_Some; [|by eapply I7].
    apply row_ok_started; [by eapply I7|done].
Qed.

(** A worker that lets go of its task, whose row [g] has moved on. *)
Lemma fleet_ok_moved w task g f : fleet_ok f → fl_holds f !! w = Some task →
  (∀ r, q_tasks (fl_queue f) !! task.1 = Some r → row_ok (q_clock (fl_queue f)) r → ta_status r = PROCESSING →
    row_ok (q_clock (fl_queue f)) (g r) ∧ ta_status (g r) ≠ PENDING) →
  fleet_ok (release w (set_tasks (alter g task.1) (fl_queue f)) f).
Proof.
  intros [I1 I2 I3 I4 I5 I6 I7] Hw Hg. destruct (I5 w task Hw) as (Hin & r & Hr & Hp).
  destruct (Hg r Hr (I7 _ _ Hr) Hp) as [Hg1 Hg2]. split; simpl.
  - intros i Hi. apply I1. by rewrite lookup_alter_is_Some in Hi.
  - done.
  - intros i x Hi [(<- & y & Hy & ->)|[Hn Hx]]%lookup_alter_Some; [by simplify_eq|by eapply I3].
  - done.
  - intros v y [Hn Hv]%lookup_delete_Some. destruct (I5 v y Hv) as (Hy & x & Hx & Hxp). split; [done|].
    exists x. split; [|done]. rewrite lookup_alter_ne; [done|]. intros E. apply Hn. by eapply (I6 w v).
  - intros v v' x y [_ Hv]%lookup_delete_Some [_ Hv']%lookup_delete_Some. by apply (I6 v v' x y).
  - intros i x [(<- & y & Hy & ->)|[Hn Hx]]%lookup_alter_Some; [by simplify_eq|by eapply I7].
Qed.
Lemma fleet_ok_release w f : fleet_ok f → fleet_ok (release w (fl_queue f) f).
Proof.
  intros [I1 I2 I3 I4 I5 I6 I7]. split; simpl; try done.
  - intros v y [_ Hv]%lookup_delete_Some. by apply (I5 v).
  - intros v v' x y [_ Hv]%lookup_delete_Some [_ Hv']%lookup_delete_Some. by apply (I6 v v' x y).
Qed.

Lemma fail_task_effect i e q :
  fail_task i e q = (Ok (), set_tasks (alter (failed_row (q_clock q) e) i) q) ∧
    (is_Some (q_tasks q !! i) → py_len e <= 10000) ∨
  ∃ x, fail_task i e q = (Raise x, q) ∧ x ≠ StatementDiverges ∧
    (no_nul e = false ∨ 10000 < py_len e).
Proof.
  unfold fail_task. run. destruct (no_nul e); simpl; [|right; eauto].
  case_bool_decide as Hb; [right; destruct Hb; eauto|left]. split; [done|]. intros Hi.
  apply Z.nlt_ge. intros Hl. by apply Hb.
Qed.
Lemma complete_task_effect i d q :
  (∃ d', complete_task i d q = (Ok (), set_tasks (alter (completed_row (q_clock q) d') i) q)) ∨
  complete_task i d q = (Raise (PythonError "UntranslatableCharacter"), q).
Proof.
  unfold complete_task, json_column. destruct d as [[|kv d]|]; [left; by eexists| |left; by eexists].
  destruct (jsonb_ok _); [left; by eexists|by right].
Qed.

(** How a row ends. *)
Inductive ending (now : Z) : (task_row → task_row) → Prop :=
  | ends_completed d : ending now (completed_row now d)
  | ends_failed e : py_len e <= 10000 → ending now (failed_row now e).
Lemma ending_ok now g r : ending now g → row_ok now r → ta_status r = PROCESSING →
  row_ok now (g r) ∧ ta_status (g r) ≠ PENDING.
Proof.
  intros [d|e He] Hr Hs; split; try done; [by apply row_ok_completed|by apply row_ok_failed].
Qed.

Lemma settle_effect i res q : diverges res = false → is_Some (q_tasks q !! i) →
  (∃ g, settle i res q = (Ok (), set_tasks (alter g i) q) ∧ ending (q_clock q) g) ∨
  (∃ x, settle i res q = (Raise x, q) ∧ x ≠ StatementDiverges).
Proof.
  intros Hres Hi. unfold settle, try_catch. rewrite run_lift_bind.
  assert (∀ e, (∃ g, fail_task i e q = (Ok (), set_tasks (alter g i) q) ∧ ending (q_clock q) g) ∨
               ∃ x, fail_task i e q = (Raise x, q) ∧ x ≠ StatementDiverges) as Hf.
  { intros e. destruct (fail_task_effect i e q) as [[E Hl]|(x & E & Hx & _)]; [left|right; eauto].
    eexists. split; [exact E|]. constructor. auto. }
  destruct res as [d|e].
  - destruct (complete_task_effect i d q) as [[d' ->]| ->]; [left|apply Hf].
    eexists. split; [done|]. constructor.
  - destruct e; try apply Hf. done.
Qed.

Lemma fleet_ok_step op f : fleet_ok f → fleet_ok (fleet_step f op).
Proof.
  intros Hok. destruct op as [c|w locked|w res|w|w|i|g dt]; simpl.
  - by apply fleet_ok_request.
  - by apply (fleet_ok_claim w locked).
  - destruct (fl_holds f !! w) as [task|] eqn:Hw; [|done]. destruct (diverges res) eqn:Hd; [done|].
    destruct (fo_held _ Hok w task Hw) as (_ & r & Hr & _).
    destruct (settle_effect task.1 res (fl_queue f) Hd (mk_is_Some _ _ Hr)) as [(g & -> & Hg)|(x & -> & _)];
      [|by apply fleet_ok_release].
    apply (fleet_ok_moved w task); [done..|]. intros. by apply ending_ok.
  - destruct (fl_holds f !! w) as [task|] eqn:Hw; [|done].
    destruct (fo_held _ Hok w task Hw) as (_ & r & Hr & _).
    destruct (fail_task_effect task.1 ("Unknown job type: " +:+ ta_job_type task.2) (fl_queue f))
      as [[-> Hl]|(x & -> & _)]; [|by apply fleet_ok_release].
    apply (fleet_ok_moved w task); [done..|]. intros. apply ending_ok; [|done..]. constructor. eauto.
  - by apply fleet_ok_release.
  - destruct Hok as [I1 I2 I3 I4 I5 I6 I7].
    assert (∀ r, ta_status (without_password r) = ta_status r) as Hst.
    { intros r. unfold without_password. repeat case_match; done. }
    split; simpl; try done.
    + intros j. rewrite lookup_alter_is_Some. apply I1.
    + intros j x Hj [(<- & y & Hy & ->)|[_ Hx]]%lookup_alter_Some; [rewrite Hst|]; by eapply I3.
    + intros w task Hw. destruct (I5 w task Hw) as (Hin & r & Hr & Hp). split; [done|].
      destruct (decide (i = task.1)) as [->|Hn].
      * exists (without_password r). by rewrite lookup_alter_eq, Hr, Hst.
      * exists r. by rewrite lookup_alter_ne.
    + intros j x [(<- & y & Hy & ->)|[_ Hx]]%lookup_alter_Some; [apply row_ok_redacted|]; by eapply I7.
  - destruct Hok as [I1 I2 I3 I4 I5 I6 I7]. split; simpl; try done.
    intros i r Hr. eapply row_ok_later; [|by eapply I7]. lia.
Qed.
Lemma fleet_ok_run ops f : fleet_ok f → fleet_ok (fleet_run ops f).
Proof. revert f. induction ops as [|op ops IH]; [done|]. intros f Hf. by apply IH, fleet_ok_step. Qed.

(** A queue nobody has touched yet. *)
Definition new_fleet (q : queue) : fleet := mk_fleet q ∅ [].
Lemma new_fleet_ok q : q_tasks q = ∅ → fleet_ok (new_fleet q).
Proof.
  intros Hq. split; simpl; rewrite ?Hq; try done.
  - intros i. rewrite lookup_empty. by intros [].
  - by intros i ?%elem_of_nil.
  - constructor.
Qed.

(** C18. A job is started at most once, whatever requests, workers and other calls
    follow each other, and no two workers have the same one in hand: an id is
    claimed only while its row is PENDING, which no row becomes again.  (The
    ids drawn for rows are all different.) *)
Theorem job_started_once q ops : q_tasks q = ∅ →
  let f := fleet_run ops (new_fleet q) in
  NoDup (fl_started f) ∧
  (∀ v w x y, fl_holds f !! v = Some x → fl_holds f !! w = Some y → x.1 = y.1 → v = w) ∧
  (∀ w task, fl_holds f !! w = Some task →
     ∃ r, q_tasks (fl_queue f) !! task.1 = Some r ∧ ta_status r = PROCESSING).
Proof.
  intros Hq f. destruct (fleet_ok_run ops _ (new_fleet_ok q Hq)) as [_ _ _ H4' H5' H6' _].
  split_and!; [done..|]. intros w task Hw. by apply (H5' w task).
Qed.

(** C39. In every history the row of a job is what its status says: a pending one
    was not started, a running one has no outcome, a completed one no error,
    a failed one an error of at most 10000 characters and no result, and the
    three times are in order. *)
Theorem job_rows_sound q ops i r : q_tasks q = ∅ →
  q_tasks (fl_queue (fleet_run ops (new_fleet q))) !! i = Some r →
  row_ok (q_clock (fl_queue (fleet_run ops (new_fleet q)))) r.
Proof. intros Hq Hr. by eapply fo_rows; [apply fleet_ok_run, new_fleet_ok|]. Qed.

(** ** What is left behind *)

(** A running job that no worker has in hand. *)
Definition abandoned (i : uuid) (f : fleet) : Prop :=
  (∃ r, q_tasks (fl_queue f) !! i = Some r ∧ ta_status r = PROCESSING) ∧
  ∀ w task, fl_holds f !! w = Some task → task.1 ≠ i.

Lemma abandoned_moved i j g q : (∀ r, ta_status r = PROCESSING → i = j → ta_status (g r) = PROCESSING) →
  (∃ r, q_tasks q !! i = Some r ∧ ta_status r = PROCESSING) →
  ∃ r, q_tasks (set_tasks (alter g j) q) !! i = Some r ∧ ta_status r = PROCESSING.
Proof.
  intros Hg (r & Hr & Hs). simpl. destruct (decide (j = i)) as [->|Hn].
  - exists (g r). rewrite lookup_alter_eq, Hr. split; [done|]. by apply Hg.
  - exists r. by rewrite lookup_alter_ne.
Qed.
Lemma abandoned_release i w q f : abandoned i f →
  (∃ r, q_tasks q !! i = Some r ∧ ta_status r = PROCESSING) → abandoned i (release w q f).
Proof. intros [_ Hh] Hq. split; [done|]. simpl. intros v task [_ Hv]%lookup_delete_Some. by eapply Hh. Qed.

Lemma abandoned_step i op f : abandoned i f → abandoned i (fleet_step f op).
Proof.
  intros Ha. pose proof Ha as [(r & Hr & Hs) Hh]. destruct op as [c|w locked|w res|w|w|j|g dt]; simpl.
  - split; [|done]. simpl.
    destruct (request_change isoformat c (fl_queue f)) as [E _ _|x E _ E3 _ _|t u l E _ _]; rewrite E.
    + by exists r.
    + exists r. rewrite lookup_insert_ne; [done|]. intros E'. congruence.
    + exists r. split; [|done]. apply map_lookup_filter_Some. split; [done|]. intros (_ & _ & Hd).
      simpl in Hd. unfold deletable in Hd. by rewrite Hs in Hd.
  - destruct (fl_holds f !! w); [done|]. unfold claim_next_task, update.
    destruct (head (claimable locked (fl_queue f))) as [[j x]|] eqn:Hh'; [|by split; [exists r|]].
    destruct (claimable_head _ _ _ _ Hh') as (Hj & Hp & _ & _).
    assert (j ≠ i) as Hn by (intros ->; congruence). split; simpl.
    + exists r. by rewrite lookup_insert_ne.
    + intros v task [[<- <-]|[_ Hv]]%lookup_insert_Some; [done|by eapply Hh].
  - destruct (fl_holds f !! w) as [task|] eqn:Hw; [|done]. destruct (diverges res) eqn:Hd; [done|].
    pose proof (Hh w task Hw) as Hn. apply abandoned_release; [done|]. unfold settle, try_catch.
    rewrite run_lift_bind.
    assert (∀ e, ∃ x, q_tasks (fail_task task.1 e (fl_queue f)).2 !! i = Some x ∧ ta_status x = PROCESSING) as Hf.
    { intros e. destruct (fail_task_effect task.1 e (fl_queue f)) as [[-> _]|(? & -> & _)]; [|by exists r].
      apply abandoned_moved; [by intros ? _ E; destruct Hn|by exists r]. }
    destruct res as [d|[]]; try apply Hf; [|done].
    destruct (complete_task_effect task.1 d (fl_queue f)) as [[d' ->]| ->]; [|apply Hf].
    apply abandoned_moved; [by intros ? _ E; destruct Hn|by exists r].
  - destruct (fl_holds f !! w) as [task|] eqn:Hw; [|done]. pose proof (Hh w task Hw) as Hn.
    apply abandoned_release; [done|].
    destruct (fail_task_effect task.1 ("Unknown job type: " +:+ ta_job_type task.2) (fl_queue f))
      as [[-> _]|(? & -> & _)]; [|by exists r].
    apply abandoned_moved; [by intros ? _ E; destruct Hn|by exists r].
  - apply abandoned_release; [done|by exists r].
  - split; [|done]. simpl. apply abandoned_moved; [|by exists r]. intros x Hx _.
    unfold without_password. repeat case_match; done.
  - split; [by exists r|done].
Qed.
Lemma abandoned_run i ops f : abandoned i f → abandoned i (fleet_run ops f).
Proof. revert f. induction ops as [|op ops IH]; [done|]. intros f Hf. by apply IH, abandoned_step. Qed.

(** C21. A worker that dies in the middle of a task, or whose handler fails with a
    message of more than 10000 characters, leaves the job PROCESSING for good:
    whatever requests (deletions by its owner among them), workers and other
    calls follow, the row stays, no worker gets it again, and its owner's list
    says that jobs are running as long as it is shown. *)
Theorem abandoned_job_never_ends q ops w task op more :
  q_tasks q = ∅ → fl_holds (fleet_run ops (new_fleet q)) !! w = Some task →
  (op = Die w ∨ ∃ e, op = Settle w (Raise e) ∧ e ≠ StatementDiverges ∧
                     10000 < py_len (exn_text e)) →
  let f := fleet_run more (fleet_step (fleet_run ops (new_fleet q)) op) in
  (∃ r, q_tasks (fl_queue f) !! task.1 = Some r ∧ ta_status r = PROCESSING) ∧
  (∀ v x, fl_holds f !! v = Some x → x.1 ≠ task.1) ∧
  (∀ t u jobs flag q', list_user_jobs t u (fl_queue f) = (Ok (jobs, flag), q') → task.1 ∈ jobs.*1 → flag = true).
Proof.
  intros Hq Hw Hop f. set (f0 := fleet_run ops (new_fleet q)) in *.
  assert (fleet_ok f0) as Hok by apply fleet_ok_run, new_fleet_ok, Hq.
  destruct (fo_held _ Hok w task Hw) as (_ & r & Hr & Hs).
  assert (abandoned task.1 (release w (fl_queue f0) f0)) as Ha.
  { split; [by exists r|]. simpl. intros v x [Hn Hv]%lookup_delete_Some E. apply Hn. by eapply (fo_apart _ Hok w v). }
  assert (fleet_step f0 op = release w (fl_queue f0) f0) as Hstep.
  { destruct Hop as [->|(e & -> & He & Hl)]; [done|].
    destruct (fail_task_effect task.1 (exn_text e) (fl_queue f0)) as [[_ Hle]|(x & E & _)].
    - specialize (Hle (mk_is_Some _ _ Hr)). lia.
    - unfold fleet_step. rewrite Hw. unfold settle, try_catch. rewrite run_lift_bind.
      destruct e; try done; simpl diverges; cbn [fst snd]; by rewrite E. }
  unfold f. rewrite Hstep. destruct (abandoned_run task.1 more _ Ha) as [Hrow Hheld]. split_and!; [done..|].
  intros t u jobs flag q'. unfold list_user_jobs. rewrite run_bind.
  pose proof (same_on_tenant t (in_groups (track_activity (ru_id u))) _ _ _ _ (same_tasks_refl
    (fl_queue (fleet_run more (release w (fl_queue f0) f0))))) as (E & _).
  unfold q_track. destruct (on_tenant _ _ _) as [[[]|] q1]; [|done]. simpl in E. run. intros [= <- <- _].
  intros ([i x] & Hi & Hx)%list_elem_of_fmap. simpl in Hi. subst i. apply existsb_exists. exists (task.1, x).
  split; [by apply list_elem_of_In|]. unfold list_tasks_for_user in Hx. apply elem_of_take in Hx as (k & Hx & _).
  apply list_elem_of_lookup_2 in Hx. rewrite (merge_sort_Permutation _ _) in Hx.
  apply list_elem_of_filter in Hx as [_ Hx]. apply elem_of_map_to_list in Hx. rewrite E in Hx.
  destruct Hrow as (y & Hy & Hp). simpl. unfold active. simplify_eq. by rewrite Hp.
Qed.
End fleet.
