(* ===== verification/JobRun.v ===== *)
(** * What the worker gets done

    A worker that keeps polling settles every pending job, the oldest first,
    when its handlers return or fail with a message that can be stored; a bulk inactivation that was requested ends
    as the handler would have done it there and then; what a preview
    promises.  Then the theorems with hypotheses, applied to a small tenant,
    and runs that end where the code's intent says they cannot. *)

From stdpp Require Import gmap strings pretty.
From S2P Require Import Prelude GroupDb GroupService OAuthDb OAuthService UserLifecycle OAuthHistory MailDb MailService Tokens TokenProofs Jobs MailProofs JobProofs MailWitness Json JobQueue JobHistory.
#[local] Open Scope Z_scope.

(** ** Progress *)

Section drain.
Context `{ExnText}.

(** What the worker looks at in a row. *)
Definition progress (r : task_row) : task_status * string * Z := (ta_status r, ta_job_type r, ta_created_at r).
(** The table moved on only in what the worker does not look at. *)
Definition still (q q' : queue) : Prop := ∀ i, progress <$> q_tasks q' !! i = progress <$> q_tasks q !! i.
#[export] Instance still_preorder : PreOrder still.
Proof. split; [by intros q i|]. intros q1 q2 q3 H1 H2 i. by rewrite (H2 i), (H1 i). Qed.

(** A message the error column takes. *)
Definition reportable (x : string) : Prop := no_nul x = true ∧ py_len x <= 10000.

(** A call that returns, leaves the rows where they are, and fails with a
    message that can be stored. *)
Definition tame {A} (m : M queue A) : Prop := ∀ q,
  still q (m q).2 ∧ match (m q).1 with Ok _ => True | Raise e => e ≠ StatementDiverges ∧ reportable (exn_text e) end.

Context (reg : registry) (poll_interval : Z).
Hypothesis handlers_tame : ∀ jt h task, get_handler reg jt = Some h → tame (h task).
Hypothesis refusal_reportable : reportable (exn_text (PythonError "UntranslatableCharacter")).

(** The constraint on the job_type column, and the texts a database holds. *)
Definition type_ok (r : task_row) : Prop :=
  no_nul (ta_job_type r) = true ∧ py_len (ta_job_type r) <= 100.

Lemma tame_quiet m : tame m → ∀ q, ∃ q', try_catch m (λ _, mret ()) q = (Ok (), q') ∧ still q q'.
Proof.
  intros Hm q. unfold try_catch. destruct (Hm q) as [Hs He].
  destruct (m q) as [[[]|e] q']; simpl in *; [by eexists|]. destruct He as [He _].
  destruct e; try done; by eexists.
Qed.
Lemma periodic_still now js q : Forall (λ j, tame (pj_func j)) js →
  ∃ js' q', check_periodic_jobs now js q = (Ok js', q') ∧ still q q' ∧ Forall (λ j, tame (pj_func j)) js' ∧
    length js' = length js.
Proof.
  intros Hjs. revert q. induction Hjs as [|j js Hj Hjs IH]; intros q; [by eexists [], q|].
  assert (∃ j' q1, (if due now j then _ ← _run_job (ran now j); mret (ran now j) else mret j) q = (Ok j', q1) ∧
    still q q1 ∧ tame (pj_func j')) as (j' & q1 & E1 & S1 & T1).
  { destruct (due now j); [|by exists j, q].
    destruct (tame_quiet _ Hj q) as (q1 & E & Hs). exists (ran now j), q1. split; [|done].
    rewrite run_bind. unfold _run_job. change (pj_func (ran now j)) with (pj_func j). by rewrite E. }
  destruct (IH q1) as (js' & q2 & E2 & S2 & T2 & L2). exists (j' :: js'), q2. simpl.
  rewrite run_bind, E1, run_bind, E2. split_and!; [done|by etrans|by constructor|by rewrite L2].
Qed.

(** The only row a claimed task's processing moves is its own. *)
Definition finished (r : task_row) : Prop := ta_status r = COMPLETED ∨ ta_status r = FAILED.
Lemma fail_reportable i e q : reportable e →
  fail_task i e q = (Ok (), set_tasks (alter (failed_row (q_clock q) e) i) q).
Proof.
  intros [Hn Hl]. destruct (fail_task_effect i e q) as [[E _]|(x & _ & _ & [E|E])]; [done|congruence|lia].
Qed.
Lemma process_finishes i r q : q_tasks q !! i = Some r → type_ok r → ∀ task, task.1 = i →
  ta_job_type task.2 = ta_job_type r →
  ∃ q', _process_task reg task q = (Ok (), q') ∧ (∃ r', q_tasks q' !! i = Some r' ∧ finished r' ∧ type_ok r') ∧
    ∀ j, j ≠ i → progress <$> q_tasks q' !! j = progress <$> q_tasks q !! j.
Proof.
  intros Hi [Ht1 Ht2] task <- Hjt.
  assert (∀ q1 e, still q q1 → reportable e → ∃ q', fail_task task.1 e q1 = (Ok (), q') ∧
    (∃ r', q_tasks q' !! task.1 = Some r' ∧ finished r' ∧ type_ok r') ∧
    ∀ j, j ≠ task.1 → progress <$> q_tasks q' !! j = progress <$> q_tasks q !! j) as Hfail.
  { intros q1 e Hs He. eexists. split; [by apply fail_reportable|]. simpl. split.
    - specialize (Hs task.1). rewrite Hi in Hs. destruct (q_tasks q1 !! task.1) as [r1|] eqn:Hr1; [|done].
      rewrite lookup_alter_eq, Hr1. eexists. split; [done|]. split; [by right|]. injection Hs as _ E _.
      unfold type_ok. simpl. by rewrite E.
    - intros j Hj. by rewrite lookup_alter_ne. }
  destruct (get_handler reg (ta_job_type task.2)) as [h|] eqn:Hh.
  - rewrite (process_task_settles reg task h q Hh). destruct (handlers_tame _ h task Hh q) as [Hs He].
    destruct (h task q) as [res q1]. cbn [fst snd] in *. unfold settle, try_catch. rewrite run_lift_bind.
    destruct res as [d|e].
    + destruct (complete_task_effect task.1 d q1) as [[d' ->]| ->]; [|by apply Hfail].
      eexists. split; [done|]. simpl. split; [|intros j Hj; by rewrite lookup_alter_ne].
      specialize (Hs task.1). rewrite Hi in Hs. destruct (q_tasks q1 !! task.1) as [r1|] eqn:Hr1; [|done].
      rewrite lookup_alter_eq, Hr1. eexists. split; [done|]. split; [by left|]. injection Hs as _ E _.
      unfold type_ok. simpl. by rewrite E.
    + destruct He as [He Hrep]. destruct e; try done; by apply Hfail.
  - unfold _process_task. rewrite Hh. apply Hfail; [done|]. rewrite Hjt. split.
    + by rewrite no_nul_app, Ht1.
    + rewrite py_len_app. change (py_len "Unknown job type: ") with 18. lia.
Qed.

Definition types_ok (q : queue) : Prop := ∀ i r, q_tasks q !! i = Some r → type_ok r.
Definition waiting (q : queue) (i : uuid) : Prop := ∃ r, q_tasks q !! i = Some r ∧ ta_status r = PENDING.

Lemma progress_row q q' i r : progress <$> q_tasks q' !! i = progress <$> q_tasks q !! i →
  q_tasks q !! i = Some r → ∃ r', q_tasks q' !! i = Some r' ∧ ta_status r' = ta_status r ∧
    ta_job_type r' = ta_job_type r ∧ ta_created_at r' = ta_created_at r.
Proof.
  intros E Hr. rewrite Hr in E. destruct (q_tasks q' !! i) as [r'|]; [|done].
  injection E as E1 E2 E3. by exists r'.
Qed.
Lemma still_types q q' : still q q' → types_ok q → types_ok q'.
Proof.
  intros Hs Hq i r' Hr'. destruct (progress_row q' q i r' (eq_sym (Hs i)) Hr') as (r & Hr & _ & E & _).
  unfold type_ok. rewrite <- E. exact (Hq i r Hr).
Qed.

Lemma elem_of_pending q i :
  i ∈ (tasks_where (λ r, bool_decide (ta_status r = PENDING) && of_type None r) q).*1 ↔ waiting q i.
Proof.
  rewrite list_elem_of_fmap. split.
  - intros ([j r] & -> & [Hr Hj]%list_elem_of_filter). apply elem_of_map_to_list in Hj. exists r.
    split; [done|]. simpl in Hr. rewrite andb_true_r in Hr. by apply bool_decide_eq_true in Hr.
  - intros (r & Hr & Hs). exists (i, r). split; [done|]. apply list_elem_of_filter. simpl. split.
    + by rewrite andb_true_r, bool_decide_eq_true.
    + by apply elem_of_map_to_list.
Qed.
Lemma NoDup_tasks_where P q : NoDup (tasks_where P q).*1.
Proof.
  apply NoDup_fmap_fst.
  - intros i x y [_ Hx]%list_elem_of_filter [_ Hy]%list_elem_of_filter.
    apply elem_of_map_to_list in Hx, Hy. congruence.
  - apply NoDup_filter, NoDup_map_to_list.
Qed.
Lemma fewer_pending q q' i : waiting q i → ¬ waiting q' i → (∀ j, waiting q' j → waiting q j) →
  (count_pending_tasks q' None < count_pending_tasks q None)%nat.
Proof.
  intros Hi Hi' Hj. unfold count_pending_tasks. rewrite <- !(length_fmap fst).
  set (l' := (tasks_where _ q').*1). set (l := (tasks_where _ q).*1).
  assert (i :: l' ⊆+ l) as Hsub%submseteq_length; [|simpl in Hsub; lia].
  apply NoDup_submseteq.
  - apply NoDup_cons. split; [by intros ?%elem_of_pending|apply NoDup_tasks_where].
  - intros j [->|Hin]%elem_of_cons; apply elem_of_pending; [done|]. by apply Hj, elem_of_pending.
Qed.
Lemma none_pending q : count_pending_tasks q None = 0%nat → ∀ i, ¬ waiting q i.
Proof.
  unfold count_pending_tasks. intros Hz%nil_length_inv i Hi%elem_of_pending. rewrite Hz in Hi.
  by apply elem_of_nil in Hi.
Qed.

(** One turn of the loop settles the oldest pending job. *)
Definition settles_oldest (q q' : queue) : Prop :=
  ∃ i r, q_tasks q !! i = Some r ∧ ta_status r = PENDING ∧
    (∀ j x, q_tasks q !! j = Some x → ta_status x = PENDING → ta_created_at r <= ta_created_at x) ∧
    (∃ r', q_tasks q' !! i = Some r' ∧ finished r') ∧
    ∀ j, j ≠ i → progress <$> q_tasks q' !! j = progress <$> q_tasks q !! j.
Definition turned (q q' : queue) : Prop := (∀ i, ¬ waiting q i) ∧ still q q' ∨ settles_oldest q q'.
Lemma worker_pass_step js q : Forall (λ j, tame (pj_func j)) js → types_ok q →
  ∃ js' q', worker_pass reg poll_interval ∅ js q = (Ok js', q') ∧ Forall (λ j, tame (pj_func j)) js' ∧
    types_ok q' ∧ turned q q'.
Proof.
  intros Hjs Hq. unfold worker_pass, _check_periodic_jobs. rewrite run_bind, run_gets_bind.
  destruct (periodic_still (q_clock q) js q Hjs) as (js' & q1 & -> & Hs & Hjs' & _).
  rewrite run_bind. unfold try_catch at 1, turn. rewrite run_bind. unfold claim_next_task, update.
  destruct (head (claimable ∅ q1)) as [[i r]|] eqn:Hh.
  - destruct (claimable_head _ _ _ _ Hh) as (Hi & Hp & _ & Hold).
    set (q2 := set_tasks (insert i (start_task (q_clock q1) r)) q1).
    pose proof (still_types q q1 Hs Hq) as Hq1.
    destruct (process_finishes i (start_task (q_clock q1) r) q2) with (task := (i, start_task (q_clock q1) r))
      as (q' & -> & (r' & Hr' & Hf & Ht) & Hj); [apply lookup_insert_eq|exact (Hq1 i r Hi)|done|done|].
    assert (∀ j, j ≠ i → progress <$> q_tasks q' !! j = progress <$> q_tasks q !! j) as Hj'.
    { intros j Hn. rewrite Hj by done. simpl. rewrite lookup_insert_ne by done. apply Hs. }
    exists js', q'. split; [done|]. split; [done|]. split.
    + intros j x Hx. destruct (decide (j = i)) as [->|Hn]; [by simplify_eq|].
      destruct (progress_row q' q j x (eq_sym (Hj' j Hn)) Hx) as (y & Hy & _ & E & _).
      unfold type_ok. rewrite <- E. exact (Hq j y Hy).
    + right. destruct (progress_row q1 q i r (eq_sym (Hs i)) Hi) as (y & Hy & E1 & _ & E3).
      exists i, y. split_and!; [done|congruence| |by exists r'|done].
      intros j x Hx Hxp. destruct (progress_row q q1 j x (Hs j) Hx) as (z & Hz & F1 & _ & F3).
      rewrite E3, <- F3. apply (Hold j z Hz); [congruence|set_solver].
  - exists js', (set_q_clock (λ t, t + poll_interval * 1000000) q1). split; [done|]. split; [done|].
    split; [by apply (still_types q)|]. left. split; [|done]. intros i (r & Hr & Hp).
    destruct (progress_row q q1 i r (Hs i) Hr) as (x & Hx & E & _).
    assert ((i, x) ∈ claimable ∅ q1) as Hin.
    { unfold claimable. rewrite (merge_sort_Permutation _ _). apply list_elem_of_filter. simpl.
      split; [split; [congruence|set_solver]|by apply elem_of_map_to_list]. }
    destruct (claimable ∅ q1); [by apply elem_of_nil in Hin|done].
Qed.

(** What a turn does to the number of pending jobs, and to each row. *)
Lemma turned_count q q' n : turned q q' → (count_pending_tasks q None <= S n)%nat →
  (count_pending_tasks q' None <= n)%nat.
Proof.
  intros [[Hw Hs]|(i & r & Hr & Hp & _ & (r' & Hr' & Hf) & Hj)] Hn.
  - destruct (count_pending_tasks q' None) as [|k] eqn:Hk; [lia|]. exfalso.
    assert (∃ i, waiting q' i) as (i & x & Hx & Hxp).
    { unfold count_pending_tasks in Hk. rewrite <- (length_fmap fst) in Hk.
      destruct ((tasks_where _ q').*1) as [|i l] eqn:El; [done|]. exists i. apply elem_of_pending.
      rewrite El. left. }
    destruct (progress_row q' q i x (eq_sym (Hs i)) Hx) as (y & Hy & E & _).
    apply (Hw i). exists y. split; [done|congruence].
  - enough (count_pending_tasks q' None < count_pending_tasks q None)%nat by lia.
    apply (fewer_pending q q' i); [by exists r|..].
    + intros (y & Hy & Hyp). simplify_eq. destruct Hf; congruence.
    + intros j (y & Hy & Hyp). destruct (decide (j = i)) as [->|Hnj]; [by exists r|].
      destruct (progress_row q' q j y (eq_sym (Hj j Hnj)) Hy) as (z & Hz & E & _). exists z.
      split; [done|congruence].
Qed.
Lemma turned_row q q' i r : turned q q' → q_tasks q !! i = Some r →
  ∃ r', q_tasks q' !! i = Some r' ∧ (ta_status r' = ta_status r ∨ ta_status r = PENDING ∧ finished r').
Proof.
  intros [[_ Hs]|(i0 & r0 & Hr0 & Hp0 & _ & (r0' & Hr0' & Hf0) & Hj)] Hr.
  - destruct (progress_row q q' i r (Hs i) Hr) as (x & Hx & Ex & _). eauto.
  - destruct (decide (i = i0)) as [->|Hn]; [exists r0'; simplify_eq; eauto|].
    destruct (progress_row q q' i r (Hj i Hn) Hr) as (x & Hx & Ex & _). eauto.
Qed.

End drain.

(** ** The handlers the worker registers *)

Section registered.
Context `{MailIds} `{Nonces} `{UuidText} `{UuidParse} `{ExnText} (issuer : string).
Hypothesis short_messages : ∀ e, reportable (exn_text e).

Definition returns {S A} (m : M S A) : Prop := ∀ s, (m s).1 ≠ Raise StatementDiverges.

Lemma tame_bind {A B} (m : M queue A) (f : A → M queue B) : tame m → (∀ a, tame (f a)) → tame (m ≫= f).
Proof.
  intros Hm Hf q. rewrite run_bind. destruct (Hm q) as [Hs He]. destruct (m q) as [[a|e] q1]; simpl in *; [|done].
  destruct (Hf a q1) as [Hs' He']. split; [by etrans|done].
Qed.
Lemma tame_ret {A} (a : A) : tame (mret a).
Proof. by intros q. Qed.
Lemma tame_lift {A} (r : outcome A) : r ≠ Raise StatementDiverges → tame (lift r).
Proof. intros Hr q. split; [done|]. destruct r as [|e]; [done|]. simpl. split; [by intros ->|done]. Qed.
Lemma tame_on_tenant {A} t (m : M mail A) : returns m → tame (on_tenant t m).
Proof.
  intros Hm q. unfold on_tenant. destruct (q_tenants q !! t) as [x|]; [|by split].
  specialize (Hm x). destruct (m x) as [[a|e] x']; simpl in *; [by split|]. split; [done|].
  split; [by intros ->|done].
Qed.

Lemma returns_bind {S A B} (m : M S A) (f : A → M S B) : returns m → (∀ a, returns (f a)) → returns (m ≫= f).
Proof.
  intros Hm Hf s. rewrite run_bind. specialize (Hm s). destruct (m s) as [[a|e] s']; simpl in *; [apply Hf|].
  intros [= ->]. done.
Qed.
Lemma returns_for_map {S A B} (m : A → M S B) l : (∀ x, returns (m x)) → returns (for_map m l).
Proof.
  intros Hm. induction l as [|x l IH]; [done|]. simpl. apply returns_bind; [done|]. intros y.
  by apply returns_bind.
Qed.
Lemma returns_try m x : returns (try_item m x).
Proof. intros s. unfold try_item. by destruct (m x s) as [[]]. Qed.
Lemma returns_each {A} (m : A → M mail item_status) x : returns (each_item m x).
Proof. intros s. unfold each_item. by destruct (m x s) as [[]]. Qed.
Lemma returns_parse x : returns (parse_id x).
Proof. intros s. unfold parse_id. by destruct (uuid_of_text x). Qed.
Lemma returns_group by_ g us : returns (handle_bulk_group_assignment by_ g us).
Proof.
  unfold handle_bulk_group_assignment. apply returns_bind; [apply returns_parse|]. intros i.
  apply returns_bind; [done|]. intros [group|]; [|done]. case_decide; [done|].
  apply returns_for_map. intros. apply returns_try.
Qed.
Lemma returns_inactivate by_ us : returns (handle_bulk_inactivate_users issuer by_ us).
Proof. apply returns_for_map. intros. apply returns_try. Qed.
Lemma returns_reactivate by_ us : returns (handle_bulk_reactivate_users by_ us).
Proof. apply returns_for_map. intros. apply returns_try. Qed.

(** Reading a payload fails with a TypeError or a KeyError. *)
Lemma each_ok_returns {A B} (f : A → outcome B) l :
  (∀ x, f x ≠ Raise StatementDiverges) → each_ok f l ≠ Raise StatementDiverges.
Proof.
  intros Hf. induction l as [|x l IH]; [done|]. simpl. specialize (Hf x).
  destruct (f x) as [|e]; simpl; [|by intros [= ->]]. destruct (each_ok f l) as [|e]; simpl; [done|].
  by intros [= ->].
Qed.
Lemma item_returns k d : item k d ≠ Raise StatementDiverges.
Proof. unfold item, key_error. by destruct (dict_lookup k d). Qed.
Lemma payload_returns {A} k r (f : json → outcome A) :
  (∀ x, f x ≠ Raise StatementDiverges) → (x ← payload_item k r; f x) ≠ Raise StatementDiverges.
Proof.
  intros Hf. unfold payload_item. destruct (ta_payload r) as [d|]; [|done].
  pose proof (item_returns k d). destruct (item k d) as [x|e]; simpl; [apply Hf|]. by intros [= ->].
Qed.
Lemma text_returns x : text_of_json x ≠ Raise StatementDiverges.
Proof. by destruct x. Qed.
Lemma list_returns x : list_of_json x ≠ Raise StatementDiverges.
Proof. by destruct x. Qed.
Lemma texts_returns x : texts_of x ≠ Raise StatementDiverges.
Proof. unfold texts_of. destruct x; try done. simpl. apply each_ok_returns, text_returns. Qed.
Lemma address_returns k x : user_and_address k x ≠ Raise StatementDiverges.
Proof.
  unfold user_and_address. destruct x as [| | | | | |d]; try done. simpl. unfold item, key_error.
  destruct (dict_lookup "user_id" d) as [u|]; [|done]. simpl. destruct u; try done. simpl.
  destruct (dict_lookup k d) as [e|]; [|done]. by destruct e.
Qed.
Lemma returns_lift {S A} (r : outcome A) : r ≠ Raise StatementDiverges → returns (lift r : M S A).
Proof. by intros Hr s. Qed.
#[local] Hint Resolve tame_ret tame_lift tame_on_tenant returns_for_map returns_try returns_each returns_parse
  returns_group returns_inactivate returns_reactivate payload_returns text_returns list_returns texts_returns address_returns returns_lift : core.

(** Every handler of the worker leaves the job rows alone and returns, given
    that the three that are not modelled do. *)
Lemma main_registry_tame preview_emails export_events export_users :
  (∀ task, tame (preview_emails task)) → (∀ task, tame (export_events task)) → (∀ task, tame (export_users task)) →
  ∀ jt h task,
    get_handler (main_registry issuer preview_emails export_events export_users) jt = Some h → tame (h task).
Proof.
  intros Hp He Hu jt h [i r]. unfold get_handler, main_registry, register_handler.
  repeat (intros [[_ <-]|[_ Hr]]%lookup_insert_Some; [|revert Hr]); try done.
  all: cbn beta iota delta [bulk_reactivate_handler bulk_inactivate_handler bulk_group_handler
    bulk_primary_apply_handler bulk_add_emails_handler]; repeat (apply tame_bind; intros; auto).
  - apply tame_on_tenant. apply returns_bind; [auto|]. intros g. apply returns_bind; [done|]. intros grp.
    apply returns_bind; auto. intros ds. done.
  - apply tame_on_tenant, returns_for_map. intros x. apply returns_bind; [auto|]. intros ue.
    apply returns_bind; [auto|]. intros st. done.
  - apply tame_on_tenant, returns_for_map. intros x. apply returns_bind; [auto|]. intros ue.
    apply returns_bind; [auto|]. intros st. done.
Qed.
End registered.

(** ** From the request to the report *)

Section served.
Context `{MailIds} `{Nonces} `{UuidText} `{UuidParse} `{ExnText} `{TaskIds} (issuer : string).

(** Texts of the database hold no character 0. *)
Definition names_ok (x : mail) : Prop := ∀ v l, ma_logins x !! v = Some l →
  no_nul (lo_first_name l) = true ∧ no_nul (lo_last_name l) = true.
Definition detail_ok (d : job_detail) : Prop :=
  no_nul (jd_user d) = true ∧ no_nul (jd_name d) = true ∧ no_nul (jd_reason d) = true.

Lemma no_nul_nat (n : nat) : no_nul (pretty n) = true.
Proof.
  unfold no_nul. apply forallb_forall. intros c Hc%list_elem_of_In.
  pose proof (pretty_nat_chars (Z.of_nat n) ltac:(lia)) as Hall. rewrite Forall_forall in Hall.
  assert (pretty (Z.of_nat n) = pretty n) as E by (by destruct n).
  rewrite E in Hall. destruct (Hall c Hc) as ([d Hd] & _). apply negb_true_iff, Nat.eqb_neq. intros Hz.
  assert (c = Ascii.ascii_of_nat 0) as -> by (by rewrite <- Hz, Ascii.ascii_nat_embedding). done.
Qed.
Lemma report_storable done ds : no_nul done = true → Forall detail_ok ds →
  jsonb_ok (JDict (job_report done ds)) = true.
Proof.
  intros Hdone Hds. unfold job_report, totals, counts.
  assert (forallb jsonb_ok (job_detail_json done <$> ds) = true) as Hall.
  { apply forallb_forall. intros x ([u name st reason] & -> & Hd)%list_elem_of_In%list_elem_of_fmap.
    rewrite Forall_forall in Hds. destruct (Hds _ Hd) as (H1' & H2' & H3'). simpl in *. rewrite H1', H2', H3'.
    destruct st; simpl; rewrite ?Hdone; done. }
  cbn [jsonb_ok forallb fst snd]. rewrite Hall, Hdone, !no_nul_app, !no_nul_nat, Hdone. done.
Qed.

(** An item leaves the names alone, and reports in storable texts. *)
Lemma logins_in_tenant {A} (m : M tenant A) L : keeps (λ x, ma_logins x = L) (in_tenant m).
Proof. intros x Hx. by destruct (in_tenant_frame m x) as (r & t & ->). Qed.
Lemma logins_in_groups {A} (m : M db A) L : keeps (λ x, ma_logins x = L) (in_groups m).
Proof. intros x Hx. by destruct (in_groups_frame m x) as (r & t & ->). Qed.
#[local] Hint Resolve logins_in_tenant logins_in_groups : keeps.
Lemma logins_item by_ x L : keeps (λ s, ma_logins s = L) (try_item (bulk_inactivate_item issuer by_) x).
Proof.
  assert (keeps (λ s, ma_logins s = L) (bulk_inactivate_item issuer by_ x)) as Hk.
  { unfold bulk_inactivate_item, inactivate_account, parse_id, log_user. keeps_auto. }
  intros s Hs. unfold try_item. specialize (Hk s Hs). by destruct (bulk_inactivate_item issuer by_ x s) as [[]].
Qed.
Lemma item_detail_ok by_ x s : no_nul x = true → names_ok s →
  ∃ d s', try_item (bulk_inactivate_item issuer by_) x s = (Ok d, s') ∧ detail_ok d.
Proof.
  intros Hx Hn.
  assert (∀ d s', bulk_inactivate_item issuer by_ x s = (Ok d, s') → detail_ok d) as Hitem.
  { intros d s'. unfold bulk_inactivate_item, parse_id. run.
    destruct (uuid_of_text x) as [u|]; [|done]. run.
    destruct (get_user_row s u) as [user|] eqn:Hu; [|by intros [= <- _]].
    assert (no_nul (full_name user) = true) as Hname.
    { unfold get_user_row in Hu. destruct (accounts (ma_tenant s) !! u); [|done].
      destruct (ma_logins s !! u) as [l|] eqn:Hl; [|done]. injection Hu as <-. destruct (Hn u l Hl) as [N1 N2].
      unfold full_name. simpl. by rewrite !no_nul_app, N1, N2. }
    run. destruct (decide (x = uuid_text by_)); [by intros [= <- _]|].
    destruct (ur_is_inactivated user); [by intros [= <- _]|].
    destruct (is_service_user (ma_tenant s) u); [by intros [= <- _]|].
    destruct (bool_decide (ur_role user = super_admin) && _); [by intros [= <- _]|].
    rewrite run_bind. destruct (inactivate_account issuer u s) as [[[]|e] s1]; [|done].
    rewrite run_bind. destruct (log_user _ _ _ _ s1) as [[[]|e] s2]; [|done]. by intros [= <- _]. }
  unfold try_item. destruct (bulk_inactivate_item issuer by_ x s) as [[d|e] s']; eexists _, _; split; try done.
  by eapply Hitem.
Qed.
Lemma inactivation_reports by_ us s : Forall (λ x, no_nul x = true) us → names_ok s →
  ∃ ds s', handle_bulk_inactivate_users issuer by_ us s = (Ok ds, s') ∧ Forall detail_ok ds.
Proof.
  unfold handle_bulk_inactivate_users. intros Hus. revert s. induction Hus as [|x us Hx Hus IH]; intros s Hn.
  { by exists [], s. }
  destruct (item_detail_ok by_ x s Hx Hn) as (d & s1 & E & Hd). pose proof (logins_item by_ x _ s eq_refl) as Hl.
  rewrite E in Hl. simpl in Hl. destruct (IH s1) as (ds & s2 & E2 & Hds).
  { intros v l. rewrite Hl. apply Hn. }
  exists (d :: ds), s2. simpl. rewrite run_bind, E, run_bind, E2. split; [done|by constructor].
Qed.

(** What only a tenant's log and activity changed. *)
Definition same_people (x y : mail) : Prop :=
  accounts (ma_tenant y) = accounts (ma_tenant x) ∧ ma_logins y = ma_logins x.
Lemma logged t x q m : q_tenants q !! t = Some x → (∃ f, m = in_groups (modify f)) →
  ∃ y, on_tenant t m q = (Ok (), set_q_tenants (insert t y) q) ∧ same_people x y.
Proof.
  intros Hx (f & ->). unfold on_tenant. rewrite Hx. by eexists.
Qed.
Definition requested (t : uuid) (jt : string) (u : uuid) (payload : dict) (now : Z) : task_row :=
  mk_task t jt (Some payload) PENDING None u now None None None.
Lemma run_create_task t jt u p x q :
  p ≠ [] → jsonb_ok (JDict p) = true → py_len jt <= 100 → q_tenants q !! t = Some x →
  q_tasks q !! task_id (q_draws q) = None →
  create_task t jt u (Some p) q = (Ok (task_id (q_draws q), q_clock q),
    set_tasks (insert (task_id (q_draws q)) (requested t jt u p (q_clock q))) (set_q_draws S q)).
Proof.
  intros Hp Hj Hl Hx Hi. unfold create_task, json_column. destruct p as [|kv p]; [done|]. rewrite Hj.
  run. rewrite bool_decide_eq_false_2 by lia. simpl. rewrite Hi. simpl. by rewrite Hx.
Qed.
Lemma run_create_inactivate t u us x q :
  is_admin u → us ≠ [] → Forall (λ v, no_nul v = true) us → q_tenants q !! t = Some x →
  q_tasks q !! task_id (q_draws q) = None →
  ∃ y, create_bulk_inactivate_task t u us q = (Ok (task_id (q_draws q), q_clock q),
    mk_queue (<[task_id (q_draws q) := requested t "bulk_inactivate_users" (ru_id u)
                [("user_ids", JList (JStr <$> us))] (q_clock q)]> (q_tasks q))
      (S (q_draws q)) (<[t := y]> (q_tenants q)) (q_clock q)) ∧ same_people x y.
Proof.
  intros Hu Hus Hn Hx Hi. unfold create_bulk_inactivate_task, admin_call.
  rewrite run_bind_assoc, run_require_admin_bind by done. rewrite run_bind.
  destruct (logged t x q (in_groups (track_activity (ru_id u))) Hx (ex_intro _ _ eq_refl)) as (y & E & Hy).
  unfold q_track. rewrite E. destruct us as [|v us]; [done|]. unfold require_some. rewrite run_ret_bind.
  unfold create_logged. rewrite run_bind.
  assert (jsonb_ok (JDict [("user_ids", JList (JStr <$> v :: us))]) = true) as Hj.
  { cbn [jsonb_ok forallb fst snd]. rewrite andb_true_r. apply forallb_forall.
    intros w (z & -> & Hz)%list_elem_of_In%list_elem_of_fmap. rewrite Forall_forall in Hn. exact (Hn z Hz). }
  rewrite (run_create_task t _ _ _ y).
  2: done.
  2: exact Hj.
  2: by vm_compute.
  2: apply lookup_insert_eq.
  2: exact Hi.
  rewrite run_bind. unfold q_log.
  match goal with |- context [on_tenant t ?m ?q1] =>
    destruct (logged t y q1 m (lookup_insert_eq _ _ _) (ex_intro _ _ eq_refl)) as (z & Ez & Hz) end.
  rewrite Ez. exists z. split.
  - unfold set_q_tenants, set_tasks, set_q_draws. simpl. rewrite insert_insert_eq. done.
  - destruct Hy as [Y1 Y2], Hz as [Z1 Z2]. split; congruence.
Qed.

(** The row a claim starts, when it is the only one that waits. *)
Lemma claim_only q i r : q_tasks q !! i = Some r → ta_status r = PENDING → (∀ j, waiting q j → j = i) →
  claim_next_task ∅ q = (Ok (Some (i, start_task (q_clock q) r)), set_tasks (insert i (start_task (q_clock q) r)) q).
Proof.
  intros Hi Hp Honly. unfold claim_next_task, update.
  destruct (head (claimable ∅ q)) as [[j x]|] eqn:Hh.
  - destruct (claimable_head _ _ _ _ Hh) as (Hj & Hx & _ & _). assert (j = i) as -> by (apply Honly; by exists x).
    by simplify_eq.
  - exfalso. assert ((i, r) ∈ claimable ∅ q) as Hin.
    { unfold claimable. rewrite (merge_sort_Permutation _ _). apply list_elem_of_filter. simpl.
      split; [split; [done|set_solver]|by apply elem_of_map_to_list]. }
    destruct (claimable ∅ q); [by apply elem_of_nil in Hin|done].
Qed.
Lemma texts_of_strings us : texts_of (JList (JStr <$> us)) = Ok us.
Proof.
  change (each_ok text_of_json (JStr <$> us) = Ok us). induction us as [|x us IH]; [done|].
  change (each_ok text_of_json (JStr <$> x :: us)) with (ys ← each_ok text_of_json (JStr <$> us); Ok (x :: ys)).
  by rewrite IH.
Qed.

(** C20. An administrator's request to inactivate accounts, and one turn of a
    worker that finds nothing else to do: the job ends COMPLETED, the tenant
    is as the handler leaves it when run on the spot, and the result is the
    report of that run, one entry for each id of the request. *)
Theorem requested_inactivation_served poll_interval preview_emails export_events export_users t u us x q :
  is_admin u → us ≠ [] → Forall (λ v, no_nul v = true) us → q_tenants q !! t = Some x → names_ok x →
  (∀ i, ¬ waiting q i) → q_tasks q !! task_id (q_draws q) = None →
  ∃ q1 y ds y' q2 row,
    create_bulk_inactivate_task t u us q = (Ok (task_id (q_draws q), q_clock q), q1) ∧
    q_tenants q1 = <[t := y]> (q_tenants q) ∧ same_people x y ∧
    handle_bulk_inactivate_users issuer (ru_id u) us y = (Ok ds, y') ∧
    turn (main_registry issuer preview_emails export_events export_users) poll_interval ∅ q1 = (Ok (), q2) ∧
    q_tenants q2 = <[t := y']> (q_tenants q) ∧
    q_tasks q2 = <[task_id (q_draws q) := row]> (q_tasks q) ∧
    ta_status row = COMPLETED ∧ ta_result row = Some (job_report "inactivated" ds).
Proof.
  intros Hu Hus Hn Hx Hnames Hidle Hi.
  destruct (run_create_inactivate t u us x q Hu Hus Hn Hx Hi) as (y & E & Hy).
  set (q1 := mk_queue _ _ _ _) in E.
  assert (names_ok y) as Hnames' by (intros v l; destruct Hy as [_ ->]; apply Hnames).
  destruct (inactivation_reports (ru_id u) us y Hn Hnames') as (ds & y' & Hrun & Hds).
  set (r := requested t "bulk_inactivate_users" (ru_id u) [("user_ids", JList (JStr <$> us))] (q_clock q)) in *.
  eexists q1, y, ds, y', _, (completed_row (q_clock q) (Some (job_report "inactivated" ds)) (start_task (q_clock q) r)).
  split; [exact E|]. split; [done|]. split; [done|]. split; [exact Hrun|].
  unfold turn. rewrite run_bind, (claim_only q1 (task_id (q_draws q)) r).
  2: apply lookup_insert_eq.
  2: done.
  2:{ intros j (z & Hz & Hp). simpl in Hz. apply lookup_insert_Some in Hz as [[<- _]|[_ Hz]]; [done|].
      exfalso. apply (Hidle j). by exists z. }
  rewrite (process_task_settles _ _ (bulk_inactivate_handler issuer)) by reflexivity.
  assert (bulk_inactivate_handler issuer (task_id (q_draws q), start_task (q_clock q1) r)
      (set_tasks (insert (task_id (q_draws q)) (start_task (q_clock q1) r)) q1) =
    (Ok (Some (job_report "inactivated" ds)),
     set_q_tenants (insert t y') (set_tasks (insert (task_id (q_draws q)) (start_task (q_clock q1) r)) q1))) as ->.
  { unfold bulk_inactivate_handler. rewrite run_lift_bind.
    assert (payload_item "user_ids" (start_task (q_clock q1) r) = Ok (JList (JStr <$> us))) as -> by done.
    cbn [mbind outcome_bind]. rewrite texts_of_strings, run_bind. unfold on_tenant. simpl q_tenants.
    rewrite lookup_insert_eq.
    change (ta_created_by (start_task (q_clock q1) r)) with (ru_id u). by rewrite Hrun. }
  cbn [fst snd]. unfold settle, try_catch. rewrite run_lift_bind. unfold complete_task, json_column.
  pose proof (report_storable "inactivated" ds eq_refl Hds) as Hok.
  unfold job_report, totals in Hok |- *. rewrite Hok. rewrite run_ret_bind, run_modify.
  split; [done|]. simpl. rewrite insert_insert_eq, alter_insert_eq, insert_insert_eq. done.
Qed.
End served.

(** ** Previews *)

Section previews.
Context `{MailIds} `{Nonces} `{UuidText} `{UuidParse} (issuer : string).

Definition verdict_on (check : uuid → string → user_row → mail → verdict) (x : string) (u : uuid) (s : mail) : verdict :=
  match get_user_row s u with Some user => check u x user s | None => Some ("Unknown", "User not found") end.
Lemma run_each_verdict check xs us s : Forall2 (λ x u, uuid_of_text x = Some u) xs us →
  each_verdict check xs s = (Ok (zip_with (λ x u, (x, verdict_on check x u s)) xs us), s).
Proof.
  unfold each_verdict. induction 1 as [|x u xs us Hx _ IH]; [done|]. simpl for_map. rewrite run_bind.
  unfold parse_id at 1. rewrite Hx. run. rewrite run_bind, IH. done.
Qed.
Lemma preview_cons x v l : pv_eligible_ids (preview_of ((x, v) :: l)) =
  match v with None => x :: pv_eligible_ids (preview_of l) | Some _ => pv_eligible_ids (preview_of l) end.
Proof. by destruct v. Qed.

(** An account's row is made of its own rows and the providers' names. *)
Lemma get_user_row_same s s' v :
  accounts (ma_tenant s') !! v = accounts (ma_tenant s) !! v → ma_logins s' = ma_logins s →
  providers (ma_dir s') = providers (ma_dir s) → get_user_row s' v = get_user_row s v.
Proof. unfold get_user_row. by intros -> -> ->. Qed.

(** Whom a reactivation is for: an account that can be seen, is inactivated,
    and keeps its personal data. *)
Definition dormant (s : mail) (u : uuid) : Prop :=
  ∃ a, accounts (ma_tenant s) !! u = Some a ∧ is_Some (ma_logins s !! u) ∧
    us_is_inactivated a = true ∧ us_is_anonymized a = false.
Definition reactivated (u : uuid) (m : gmap uuid account_row) : gmap uuid account_row :=
  alter (λ a, mk_account (us_role a) false (us_is_anonymized a)) u m.
Lemma verdict_dormant x u s : verdict_on reactivate_verdict x u s = None ↔ dormant s u.
Proof.
  unfold verdict_on, get_user_row, dormant.
  destruct (accounts (ma_tenant s) !! u) as [a|]; simpl; [|split; [done|by intros (? & ? & _)]].
  destruct (ma_logins s !! u) as [l|]; simpl; [|split; [done|by intros (? & _ & [? ?] & _)]].
  unfold reactivate_verdict. simpl.
  destruct (us_is_anonymized a) eqn:Ha; [split; [done|by intros (? & [= <-] & _ & _ & ?); congruence]|].
  destruct (us_is_inactivated a) eqn:Hi; simpl; [split; eauto|].
  split; [done|by intros (? & [= <-] & _ & ? & _); congruence].
Qed.
Definition same_rest (s s' : mail) : Prop :=
  ma_logins s' = ma_logins s ∧ providers (ma_dir s') = providers (ma_dir s).

Lemma reactivate_item_effect by_ x u s : uuid_of_text x = Some u →
  ∃ d s', try_item (bulk_reactivate_item by_) x s = (Ok d, s') ∧ jd_user d = x ∧ same_rest s s' ∧
    ((jd_status d = job_done ∧ dormant s u ∧ accounts (ma_tenant s') = reactivated u (accounts (ma_tenant s))) ∨
     (jd_status d ≠ job_done ∧ ¬ dormant s u ∧ accounts (ma_tenant s') = accounts (ma_tenant s))).
Proof.
  intros Hx. setoid_rewrite <- (verdict_dormant x u s). unfold try_item, bulk_reactivate_item, parse_id, verdict_on. rewrite Hx. run.
  destruct (get_user_row s u) as [user|] eqn:Hu; [|eexists _, _; by split_and!; [..|right]].
  unfold reactivate_verdict.
  destruct (ur_is_anonymized user) eqn:Ha; [eexists _, _; by split_and!; [..|right]|].
  destruct (ur_is_inactivated user) eqn:Hi; simpl; [|eexists _, _; by split_and!; [..|right]].
  rewrite run_bind. unfold in_tenant, reactivate_user_row, update_account. rewrite run_update.
  unfold get_user_row in Hu. destruct (accounts (ma_tenant s) !! u) as [a|] eqn:Hau; [|done].
  destruct (ma_logins s !! u) as [l|]; [|done]. injection Hu as <-. simpl in Ha, Hi. rewrite Ha, Hi. cbn [andb negb fst snd].
  unfold log_user. rewrite run_bind, run_in_groups_log, run_ret. eexists _, _. split_and!; [done..|].
  left. split_and!; [done..|]. simpl. unfold reactivated. apply map_eq. intros v.
  destruct (decide (v = u)) as [->|Hv]; [by rewrite lookup_insert_eq, lookup_alter_eq, Hau|].
  by rewrite lookup_insert_ne, lookup_alter_ne.
Qed.
Lemma dormant_same s s' v : accounts (ma_tenant s') !! v = accounts (ma_tenant s) !! v → same_rest s s' →
  dormant s' v ↔ dormant s v.
Proof. unfold dormant. by intros -> [-> _]. Qed.

(** What the job does to the accounts, from any state, one id after another. *)
Lemma reactivation_run by_ xs us s : Forall2 (λ y v, uuid_of_text y = Some v) xs us → NoDup us →
  ∃ ds s', handle_bulk_reactivate_users by_ xs s = (Ok ds, s') ∧
    pv_eligible_ids (preview_of (zip_with (λ x v, (x, verdict_on reactivate_verdict x v s)) xs us)) =
      jd_user <$> filter (λ d, jd_status d = job_done) ds ∧
    (∀ v, v ∈ us → dormant s v → accounts (ma_tenant s') !! v = reactivated v (accounts (ma_tenant s)) !! v) ∧
    (∀ v, v ∉ us ∨ ¬ dormant s v → accounts (ma_tenant s') !! v = accounts (ma_tenant s) !! v).
Proof.
  unfold handle_bulk_reactivate_users. intros Hxs. revert s.
  induction Hxs as [|z v xs us Hz Hxs IH]; intros s Hus.
  { exists [], s. split_and!; [done..| |done]. by intros v ?%elem_of_nil. }
  apply NoDup_cons in Hus as [Hv Hus].
  destruct (reactivate_item_effect by_ z v s Hz) as (d & s1 & E & Hd & Hsame & Hst).
  assert (∀ w, w ≠ v → accounts (ma_tenant s1) !! w = accounts (ma_tenant s) !! w) as Hacc.
  { intros w Hw. destruct Hst as [(_ & _ & ->)|(_ & _ & ->)]; [|done]. by unfold reactivated; rewrite lookup_alter_ne. }
  assert (∀ w, w ≠ v → dormant s1 w ↔ dormant s w) as Hdorm by (intros w Hw; by apply dormant_same; [apply Hacc|]).
  destruct (IH s1 Hus) as (ds & s2 & E2 & Heq & Hin & Hout). exists (d :: ds), s2.
  simpl for_map. rewrite run_bind, E, run_bind, E2. split; [done|]. split_and!.
  - change (zip_with ?f (z :: xs) (v :: us)) with (f z v :: zip_with f xs us). cbv beta. rewrite preview_cons.
    assert (∀ w y, w ∈ us → verdict_on reactivate_verdict y w s1 = verdict_on reactivate_verdict y w s) as Hverd.
    { intros w y Hw. unfold verdict_on. rewrite (get_user_row_same s s1 w); [done|apply Hacc; by intros ->|apply Hsame..]. }
    assert (zip_with (λ x w, (x, verdict_on reactivate_verdict x w s1)) xs us =
            zip_with (λ x w, (x, verdict_on reactivate_verdict x w s)) xs us) as Hzip.
    { clear -Hverd Hxs. induction Hxs as [|y w xs us _ _ IH]; [done|]. simpl. f_equal.
      - by rewrite (Hverd w y) by by left.
      - apply IH. intros w' y' Hw'. apply Hverd. by right. }
    rewrite Hzip in Heq. rewrite Heq. destruct Hst as [(Hdone & Hy & _)|(Hdone & Hy & _)].
    + rewrite (proj2 (verdict_dormant z v s) Hy), filter_cons_True by done. csimpl. by rewrite Hd.
    + rewrite filter_cons_False by done.
      destruct (verdict_on reactivate_verdict z v s) eqn:Hn; [done|]. by apply verdict_dormant in Hn.
  - intros w [->|Hw]%elem_of_cons Hy.
    + rewrite Hout by by left. destruct Hst as [(_ & _ & ->)|(_ & Hn & _)]; [done|by destruct Hn].
    + assert (w ≠ v) as Hne by by intros ->. rewrite Hin by (done || by apply Hdorm). unfold reactivated.
      by rewrite !lookup_alter_eq, Hacc.
  - intros w Hw. destruct (decide (w = v)) as [->|Hne].
    + rewrite Hout by by left. destruct Hst as [(_ & Hy & _)|(_ & _ & ->)]; [|done].
      destruct Hw as [Hw|Hw]; [destruct Hw; by left|done].
    + rewrite Hout; [by apply Hacc|]. rewrite Hdorm by done. destruct Hw as [Hw|Hw]; [left|by right].
      intros Hin'. apply Hw. by right.
Qed.
Lemma eligible_ids (xs : list string) us s x v : Forall2 (λ y v, uuid_of_text y = Some v) xs us → NoDup us → x ∈ xs →
  uuid_of_text x = Some v →
  x ∈ pv_eligible_ids (preview_of (zip_with (λ x v, (x, verdict_on reactivate_verdict x v s)) xs us)) ↔ dormant s v.
Proof.
  intros Hxs _ Hin Hv. induction Hxs as [|y w xs us Hy Hxs IH]; [by apply elem_of_nil in Hin|].
  change (zip_with ?f (y :: xs) (w :: us)) with (f y w :: zip_with f xs us). cbv beta. rewrite preview_cons.
  destruct (decide (x = y)) as [->|Hne].
  - assert (w = v) as -> by congruence. destruct (verdict_on reactivate_verdict y v s) eqn:E.
    + assert (¬ dormant s v) as Hn by (rewrite <- (verdict_dormant y), E; done). split; [|done]. intros Hx. exfalso.
      apply Hn. clear IH Hin. induction Hxs as [|y' w' xs us Hy' Hxs IH]; [by apply elem_of_nil in Hx|].
      revert Hx. change (zip_with ?f (y' :: xs) (w' :: us)) with (f y' w' :: zip_with f xs us). cbv beta.
      rewrite preview_cons. destruct (verdict_on reactivate_verdict y' w' s) eqn:E'; [exact IH|].
      intros [->|Hx]%elem_of_cons; [|by apply IH]. assert (w' = v) as -> by congruence. congruence.
    + split; [|intros _; by left]. intros _. by apply (verdict_dormant y).
  - apply elem_of_cons in Hin as [->|Hin]; [done|]. destruct (verdict_on reactivate_verdict y w s); [by apply IH|].
    rewrite elem_of_cons, IH by done. split; [by intros [->|?]|by right].
Qed.

(** C40. The preview of a bulk reactivation is what the job does when nothing
    happens in between, for ids that name accounts, no account twice: an id is
    listed as eligible exactly when its account exists, is inactivated and is
    not anonymized; after the job each such account is active again, its other
    columns as they were, and every other account of the tenant is unchanged;
    and the job reports exactly the eligible ids as done. *)
Theorem reactivation_preview_exact t u xs us q x p q1 :
  q_tenants q !! t = Some x → Forall2 (λ y v, uuid_of_text y = Some v) xs us → NoDup us →
  preview_bulk_reactivate t u xs q = (Ok p, q1) →
  ∃ y ds y', q_tenants q1 !! t = Some y ∧ handle_bulk_reactivate_users (ru_id u) xs y = (Ok ds, y') ∧
    let eligible v := ∃ a, accounts (ma_tenant y) !! v = Some a ∧ is_Some (ma_logins y !! v) ∧
      us_is_inactivated a = true ∧ us_is_anonymized a = false in
    (∀ z v, z ∈ xs → uuid_of_text z = Some v → z ∈ pv_eligible_ids p ↔ eligible v) ∧
    (∀ v a, v ∈ us → eligible v → accounts (ma_tenant y) !! v = Some a →
       accounts (ma_tenant y') !! v = Some (mk_account (us_role a) false false)) ∧
    (∀ v, v ∉ us ∨ ¬ eligible v → accounts (ma_tenant y') !! v = accounts (ma_tenant y) !! v) ∧
    pv_eligible_ids p = jd_user <$> filter (λ d, jd_status d = job_done) ds.
Proof.
  intros Hx Hxs Hus. unfold preview_bulk_reactivate, admin_call. rewrite run_bind.
  destruct ((_ ← require_admin u; q_track t (ru_id u)) q) as [[[]|] q0] eqn:E0; [|done].
  assert (∃ y, q_tenants q0 !! t = Some y) as [y Hy].
  { revert E0. unfold require_admin. run. case_match; [done|]. unfold q_track, on_tenant. rewrite Hx.
    intros [= <-]. simpl. rewrite lookup_insert_eq. eauto. }
  rewrite run_bind. unfold on_tenant. rewrite Hy, (run_each_verdict _ _ us y Hxs), run_ret. intros [= <- <-].
  simpl q_tenants. rewrite lookup_insert_eq. exists y.
  destruct (reactivation_run (ru_id u) xs us y Hxs Hus) as (ds & y' & Hrun & Heq & Hin & Hout).
  exists ds, y'. split_and!; [done|done|..|exact Heq].
  - intros z v Hz Hv. by apply eligible_ids.
  - intros v a Hv He Ha. rewrite Hin by done. unfold reactivated. rewrite lookup_alter_eq, Ha. simpl.
    destruct He as (b & Hb & _ & _ & Hb'). by simplify_eq; rewrite Hb'.
  - exact Hout.
Qed.

(** The test for the requesting administrator compares texts: under another
    spelling of their id, which the database reads as well, the job
    inactivates the administrator who asked for it. *)
Theorem own_id_respelled_is_inactivated by_ x s a :
  uuid_of_text x = Some by_ → x ≠ uuid_text by_ →
  accounts (ma_tenant s) !! by_ = Some a → is_Some (ma_logins s !! by_) → us_is_inactivated a = false →
  is_service_user (ma_tenant s) by_ = false → us_role a ≠ super_admin →
  ∃ d s', handle_bulk_inactivate_users issuer by_ [x] s = (Ok [d], s') ∧ jd_status d = job_done ∧
    accounts (ma_tenant s') = <[by_ := set_inactivated true a]> (accounts (ma_tenant s)).
Proof.
  intros Hx Hne Ha [l Hl] Hi Hsv Hr. unfold handle_bulk_inactivate_users. simpl. rewrite run_bind.
  unfold try_item, bulk_inactivate_item, parse_id. rewrite Hx. run. unfold get_user_row. rewrite Ha, Hl. simpl.
  run. rewrite decide_False by done. simpl. rewrite Hi, Hsv. rewrite bool_decide_eq_false_2 by done. simpl.
  rewrite run_bind. unfold inactivate_account, in_tenant.
  destruct (inactivate_alter issuer by_ (ma_tenant s)) as (t' & E & Eacc). rewrite E. cbn [fst snd].
  unfold log_user. rewrite run_bind, run_in_groups_log, run_ret. run. eexists _, _. split; [reflexivity|].
  split; [done|]. simpl. rewrite Eacc. apply map_eq. intros v. destruct (decide (by_ = v)) as [<-|Hv].
  - by rewrite lookup_alter_eq, lookup_insert_eq, Ha.
  - by rewrite lookup_alter_ne, lookup_insert_ne.
Qed.
End previews.

(** ** The theorems at work

    Tenant 50 is the small tenant of MailWitness with an administrator, 3, and
    a second super admin, 4. *)

Module QueueDemo.
Import MailDemo.
#[export] Instance demo_task_ids : TaskIds := λ n, Pos.of_succ_nat (100 + n).
#[export] Instance demo_task_laws : TaskIdsLaws.
Proof. intros j k E. unfold task_id, demo_task_ids in E. apply SuccNat2Pos.inj in E. lia. Qed.
Definition long_message : string := String.string_of_list_ascii (replicate (Z.to_nat 10001) (char 97)).
#[export] Instance demo_exn_text : ExnText := λ e,
  match e with PythonError "Traceback" => long_message | PythonError x => x | _ => "error" end.

Definition staff : mail :=
  set_tenant (set_accounts (λ m,
      <[3%positive := mk_account admin false false]> (<[4%positive := mk_account super_admin false false]>
      (<[5%positive := mk_account member true false]> m))))
    (mk_mail (ma_tenant demo) (ma_draws demo)
      (<[3%positive := login None None None]> (<[4%positive := login None None None]>
        (<[5%positive := login None None None]> (ma_logins demo))))
      (ma_emails demo) (ma_domains demo) (ma_links demo) (ma_domain_idps demo) (ma_enabled_idps demo)
      (ma_security demo)).
Definition carl : requesting_user := {| ru_id := 3; ru_role := admin |}.
Definition idle_queue : queue := mk_queue ∅ 0 {[50%positive := staff]} (100 * 86400 * 1000000).
Definition export : handler := λ _, mret (Some [("output", JStr "done")]).
Definition broken : handler := λ _, raise (PythonError "unreachable host").
(** What is on the way: a worker has the first of two jobs in hand. *)
Definition busy : list fleet_op :=
  [Request (CreateInactivate 50 carl ["2"]); Request (CreateUserExport 50 carl); Claim 1 ∅; Claim 2 ∅].
End QueueDemo.

Section at_work.
Import MailDemo QueueDemo.

Lemma job_started_once_witness :
  fl_started (fleet_run pretty busy (new_fleet idle_queue)) = [102; 101]%positive ∧
  NoDup (fl_started (fleet_run pretty busy (new_fleet idle_queue))).
Proof.
  split; [computed|]. exact (proj1 (job_started_once pretty idle_queue busy eq_refl)).
Defined.

Lemma job_rows_sound_witness :
  ∃ r, q_tasks (fl_queue (fleet_run pretty busy (new_fleet idle_queue))) !! 101%positive = Some r ∧
    ta_status r = PROCESSING ∧ row_ok (100 * 86400 * 1000000) r.
Proof.
  destruct (q_tasks (fl_queue (fleet_run pretty busy (new_fleet idle_queue))) !! 101%positive) as [r|] eqn:Hr;
    [|vm_compute in Hr; discriminate Hr].
  exists r. split; [reflexivity|]. split; [vm_compute in Hr; injection Hr as <-; reflexivity|].
  exact (job_rows_sound pretty idle_queue busy 101 r eq_refl Hr).
Defined.

(** Worker 1 dies; then the owner deletes, and another worker polls. *)
Definition afterwards : list fleet_op :=
  [Request (DeleteJobs 50 carl ["101"]); Claim 3 ∅; Elsewhere id 1000000000000].
Lemma abandoned_job_never_ends_witness :
  (∃ r, q_tasks (fl_queue (fleet_run pretty afterwards
      (fleet_step pretty (fleet_run pretty busy (new_fleet idle_queue)) (Die 1)))) !! 101%positive = Some r ∧
    ta_status r = PROCESSING) ∧
  (∃ r, q_tasks (fl_queue (fleet_run pretty afterwards
      (fleet_step pretty (fleet_run pretty busy (new_fleet idle_queue))
        (Settle 1 (Raise (PythonError "Traceback")))))) !! 101%positive = Some r ∧
    ta_status r = PROCESSING).
Proof.
  destruct (fl_holds (fleet_run pretty busy (new_fleet idle_queue)) !! 1%positive) as [task|] eqn:Hw;
    [|vm_compute in Hw; discriminate Hw].
  assert (task.1 = 101%positive) as E by (vm_compute in Hw; injection Hw as <-; reflexivity).
  rewrite <- E. split.
  - exact (proj1 (abandoned_job_never_ends pretty idle_queue busy 1 task (Die 1) afterwards eq_refl Hw (or_introl eq_refl))).
  - refine (proj1 (abandoned_job_never_ends pretty idle_queue busy 1 task (Settle 1 (Raise (PythonError "Traceback")))
      afterwards eq_refl Hw (or_intror (ex_intro _ (PythonError "Traceback") (conj eq_refl (conj _ _)))))).
    + discriminate.
    + vm_compute. reflexivity.
Defined.

(** Two jobs, one of which fails; a sweep that is due and one that is not. *)
Definition two_handlers : registry := register_handler "export_users" export (register_handler "export_events" broken ∅).
Definition two_jobs : queue :=
  snd ((_ ← create_export_task pretty 50 carl None (Some 7); create_user_export_task 50 carl) idle_queue).
Definition sweeps : list periodic_job :=
  [mk_periodic "cleanup" (raise (PythonError "no storage")) (hours 1) None;
   mk_periodic "inactivation" (mret ()) (hours 24) (Some (100 * 86400 * 1000000))].

Lemma requested_inactivation_served_witness :
  ∃ q1 q2 row, create_bulk_inactivate_task 50 carl ["2"; "3"; "9"] idle_queue = (Ok (101%positive, q_clock idle_queue), q1) ∧
    turn (main_registry "iss" export export broken) 10 ∅ q1 = (Ok (), q2) ∧
    q_tasks q2 !! 101%positive = Some row ∧ ta_status row = COMPLETED ∧
    ∃ d, ta_result row = Some d ∧ get "output" d = JStr "1 inactivated, 1 skipped, 1 errors".
Proof.
  destruct (requested_inactivation_served "iss" 10 export export broken 50 carl ["2"; "3"; "9"] staff idle_queue)
    as (q1 & y & ds & y' & q2 & row & H1 & H2 & Hp & H3 & H4 & _ & H5 & H6 & H7).
  - by left.
  - done.
  - repeat constructor.
  - reflexivity.
  - intros v l Hl. assert (map_Forall (λ _ l, no_nul (lo_first_name l) = true ∧ no_nul (lo_last_name l) = true)
      (ma_logins staff)) as Hall; [decided|exact (Hall v l Hl)].
  - intros i (r & Hr & _). unfold idle_queue in Hr. simpl in Hr. by rewrite lookup_empty in Hr.
  - reflexivity.
  - exists q1, q2, row. split; [exact H1|]. split; [exact H4|]. rewrite H5. split; [apply lookup_insert_eq|].
    split; [exact H6|]. exists (job_report "inactivated" ds). split; [exact H7|].
    assert (y = default staff (q_tenants (create_bulk_inactivate_task 50 carl ["2"; "3"; "9"] idle_queue).2 !! 50%positive))
      as -> by (rewrite H1; cbn [snd]; rewrite H2, lookup_insert_eq; reflexivity).
    assert (Ok ds = (handle_bulk_inactivate_users "iss" (ru_id carl) ["2"; "3"; "9"]
      (default staff (q_tenants (create_bulk_inactivate_task 50 carl ["2"; "3"; "9"] idle_queue).2 !! 50%positive))).1)
      as Hds by (by rewrite H3).
    vm_compute in Hds. injection Hds as ->. reflexivity.
Defined.

Lemma reactivation_preview_exact_witness :
  ∃ p q1 y ds y', preview_bulk_reactivate 50 carl ["5"; "2"; "8"] idle_queue = (Ok p, q1) ∧
    handle_bulk_reactivate_users 3 ["5"; "2"; "8"] y = (Ok ds, y') ∧
    pv_eligible_ids p = ["5"] ∧ jd_user <$> filter (λ d, jd_status d = job_done) ds = ["5"] ∧
    us_is_inactivated <$> accounts (ma_tenant y) !! 5%positive = Some true ∧
    us_is_inactivated <$> accounts (ma_tenant y') !! 5%positive = Some false.
Proof.
  destruct (preview_bulk_reactivate 50 carl ["5"; "2"; "8"] idle_queue) as [[p|e] q1] eqn:E;
    [|vm_compute in E; discriminate E].
  assert (pv_eligible_ids p = ["5"]) as Hp.
  { assert (Ok p = (preview_bulk_reactivate 50 carl ["5"; "2"; "8"] idle_queue).1) as H by (by rewrite E).
    vm_compute in H. injection H as ->. reflexivity. }
  destruct (reactivation_preview_exact 50 carl ["5"; "2"; "8"] [5; 2; 8]%positive idle_queue staff p q1)
    as (y & ds & y' & _ & H2 & Hel & Hact & _ & H3); [reflexivity|by repeat constructor|decided|exact E|].
  exists p, q1, y, ds, y'. split; [reflexivity|]. split; [exact H2|]. split; [exact Hp|]. split; [by rewrite <- H3, Hp|].
  assert ("5" ∈ pv_eligible_ids p) as H5 by (rewrite Hp; by left).
  apply (Hel "5" 5%positive) in H5; [|by left|reflexivity]. destruct H5 as (a & Ha & Hl & Hi & Hn).
  rewrite Ha, (Hact 5%positive a); [by rewrite <- Hi|by left|by exists a|done].
Defined.

(** " 3" stands for the id in other letters than [str(id)] writes. *)
Lemma own_id_respelled_is_inactivated_witness :
  ∃ d s', handle_bulk_inactivate_users "iss" 3 [" 3"] staff = (Ok [d], s') ∧ jd_status d = job_done ∧
    us_is_inactivated <$> accounts (ma_tenant s') !! 3%positive = Some true.
Proof.
  destruct (own_id_respelled_is_inactivated "iss" 3 " 3" staff (mk_account admin false false))
    as (d & s' & H1 & H2 & H3); [reflexivity|done|reflexivity|by eexists|done|reflexivity|done|].
  exists d, s'. split; [exact H1|]. split; [exact H2|]. rewrite H3, lookup_insert_eq. reflexivity.
Defined.

(** Every account is checked against the table as it is at the time of the
    preview: the preview calls both active super admins eligible, the job
    inactivates the first and skips the other. *)
Lemma preview_promises_last_super_admin :
  (∃ p q1, preview_bulk_inactivate 50 carl ["1"; "4"] idle_queue = (Ok p, q1) ∧
     pv_eligible_ids p = ["1"; "4"] ∧ pv_skipped p = []) ∧
  (∃ ds s', handle_bulk_inactivate_users "iss" 3 ["1"; "4"] staff = (Ok ds, s') ∧
     jd_status <$> ds = [job_done; job_skipped] ∧ jd_reason <$> ds !! 1%nat = Some "Last super admin").
Proof.
  split.
  - destruct (preview_bulk_inactivate 50 carl ["1"; "4"] idle_queue) as [[p|e] q1] eqn:E;
      [|vm_compute in E; discriminate E].
    exists p, q1. split; [reflexivity|].
    assert (Ok p = (preview_bulk_inactivate 50 carl ["1"; "4"] idle_queue).1) as H by (by rewrite E).
    vm_compute in H. injection H as ->. split; reflexivity.
  - destruct (handle_bulk_inactivate_users "iss" 3 ["1"; "4"] staff) as [[ds|e] s'] eqn:E;
      [|vm_compute in E; discriminate E].
    exists ds, s'. split; [reflexivity|].
    assert (Ok ds = (handle_bulk_inactivate_users "iss" 3 ["1"; "4"] staff).1) as H by (by rewrite E).
    vm_compute in H. injection H as ->. split; reflexivity.
Qed.
End at_work.
